(* ===== verification/_CoqProject ===== *)
-Q . S2P
Prelude.v
Errors.v
Memory.v
Loader.v
LongMode.v
Elf64.v
Boot.v
GuestTables.v
Privilege.v
X86.v
Tasks.v
TaskSwitch.v
VirtioCommon.v
VirtioRng.v
VirtioBlk.v
BlkCheckpoint.v
Msr.v
CpuPolicy.v
VcpuState.v
SchemaV1.v
PageCheckpoint.v
VcpuRun.v
Vm.v
PortIo.v
Mmio.v
Execution.v
UserCopy.v
UserGuest.v
PageSet.v
Envelope.v
Irqchip.v
VcpuInit.v
Syscall.v
HostRegistration.v
VcpuStateSchema.v
ControllerSchema.v
DeviceSchema.v
TwoDeviceSchema.v
TransactionSchema.v
TwoVcpuSchema.v
TwoVcpuTransaction.v
Portable.v
BlkBus.v
LiveCheckpoint.v
LiveDevices.v
Registrations.v
LiveTransaction.v
