(* ===== verification/Prelude.v ===== *)
(** * A verification library for mini-hypervisor

    mini-hypervisor is a small virtual machine monitor for x86-64 on top of
    Linux KVM.  It allocates guest RAM, loads a flat or an ELF64 image, builds
    the long-mode page tables, and runs a vCPU in a loop: KVM_RUN returns an
    exit, the exit is decoded from the shared [kvm_run] page, port I/O and MMIO
    exits are served by the buses and by the virtio devices on them, and the
    loop continues until the guest halts, an error occurs or the exit budget is
    used up.  The state of vCPU, pages and devices can be captured, encoded
    portably, decoded, materialized and restored.

    This library models that core as executable Rocq functions and proves what
    makes it correct.  Source files are named relative to [src/src/].

    ** The outcome of a Rust function

    [res E A] is [Result<A, E>] with a third outcome [Panic] for an unwinding
    panic: an index out of range, a failed [expect], an overflowing unchecked
    operation.  [prog S E A] is [S → res E A * S], a function that also changes
    a state [S]; the state is returned on every outcome, so that what an error
    path leaves behind is visible.  Integers are [Z] with the width written out
    at each operation ([uadd 64], [checked_add 64], [wrapping_add 16],
    [try_from 32], ...); bytes are [Z] below 256 and byte strings are lists.

    ** Parts

    - [Prelude]: outcomes, machine arithmetic, little-endian bytes, slices, the
      tactics and the hint databases the other files use.
    - [Errors]: the error values of [error.rs].
    - [Memory]: [memory.rs].  A region is a base and a size; guest RAM is a
      region with its bytes.
    - [Loader]: [loader.rs].  Flat images.
    - [LongMode]: [long_mode.rs].  The boot layout, its validation and the page
      tables it writes; [walk] is an x86-64 four-level walk of those tables,
      the reference against which the writer is proved.
    - [Elf64]: [loader/elf64.rs].  Parser, segment loader, page mappings.
    - [Boot]: the composition of the above for an ELF64 guest.
    - [VirtioCommon]: the register file of the virtio-pci transport, written
      out once in [pci/virtio.rs] and once in [pci/virtio_blk.rs]; the class
      [VirtioFunction] is the difference between the two devices.
    - [VirtioRng], [VirtioBlk]: the devices and their queues ([pci/virtio.rs];
      [pci/virtio_blk.rs], [virtio_blk_indirect.rs], [virtio_blk_backing.rs],
      [virtio_blk_file_backed.rs], [virtio_blk_write_readback.rs]).
    - [BlkCheckpoint]: [pci/virtio_blk_checkpoint.rs].
    - [Msr]: [kvm/msr.rs] and [kvm/msr/value_set.rs].
    - [VcpuState]: [state_snapshot.rs] and the register, special register and
      MSR snapshots under [vcpu/].  The class [KvmVcpu] is the ioctls,
      [KvmVcpuLaws] what the restore path relies on.
    - [SchemaV1], [PageCheckpoint]: the portable checkpoint format of
      [state_snapshot/page_set/schema_v1/].
    - [VcpuRun]: the [kvm_run] page ([vcpu.rs] and the exit payloads in
      [vcpu/]).  The mapping is its bytes; leaving it is a [Panic].
    - [PortIo]: [portio.rs] and [pci.rs].
    - [Mmio]: [mmio.rs], the bus with byte devices and virtio devices.
    - [Execution]: [vmexit.rs] and [execution.rs].  The class [KvmRun] is the
      KVM_RUN ioctl, [KvmRunLaws] its contract.
    - [PageSet]: [state_snapshot/page_set.rs].

    ** What the theorems show

    - Memory, images and boot (C1 to C11): which regions, accesses, images and
      layouts are accepted, exactly; that an accepted ELF image is accepted by
      the layout, that its bytes are where the guest sees them through the page
      tables, and that nothing else is written.  No input panics.
    - virtio (C12 to C21): every reachable device state satisfies the register
      invariant; queue processing has exactly its effect on success and leaves
      the device (and, in the atomic variant, guest RAM) alone on failure; a
      written block is read back; a captured device materializes to itself.
      C15 and C19 state two behaviours that differ from what the rest of the
      code expects.
    - MSRs, snapshots and checkpoints (C22 to C30, C40): policies, value sets
      and comparisons are exact; restoring a snapshot brings the vCPU back; the
      codec round-trips, never panics on arbitrary bytes and accepts only
      well-formed checkpoints; a page set is restored exactly.
    - Running (C31 to C39): no view of the shared page leaves it; port and MMIO
      accesses have exactly their effect; dispatch equals routing to the unique
      owner of an address; the run loop returns and accounts for every exit.

    ** Parameters, bounds and fuel

    Code outside the repository is an argument with named laws: the ioctls
    ([KvmVcpu], [KvmRun]), the outcome of [mmap], the positioned write and
    flush of a backing file.  Each law has an instance, used in the witnesses:
    a KVM that stores what it is given ([scripted_kvm], [scripted_run]).
    The only recursion that is not structural is the run loop: it is given
    [S (Z.to_nat limit)] iterations, one more than the exit budget, and each
    iteration [S k] attempts at KVM_RUN where [k] bounds the interruptions the
    contract allows in a row; C39 proves that both are enough.

    ** Not modelled

    - The ioctl wrappers and file descriptors of [kvm/] (except the MSR model
      of [kvm/msr.rs]),
      timers, eventfds and irqfds: calls into the kernel, with threads.
    - The fixtures under [portio/], [mmio/], [task/], [syscall/] and the guests
      under [state_snapshot/]: hand-assembled x86-64 programs and the host code
      that runs them; their logic executes in the guest.
    - [Display] texts, and the numbers interpolated into the messages of
      [io::Error] values.
    - [main.rs] and [bin/]: launchers.

    ** Plan

    Next: the larger checkpoint schemas (controller, two devices, two vCPUs,
    transactions) over the codec kit of [SchemaV1]; the multi-device bus of
    [mmio/multi_device/]; the controller snapshots. *)

From Stdlib Require Import ZArith Lia.
From stdpp Require Export prelude strings.

#[global] Open Scope Z_scope.

(** * Outcomes of Rust functions

    [res E A] is Rust's [Result<A, E>] with a third outcome: [Panic] is an
    unwinding panic, which is what out-of-bounds indexing, a failed [expect]
    and an overflowing [+], [-] or [*] (overflow checks on) produce.  A
    theorem that a function never panics therefore also says that no index
    is out of range and that no unchecked arithmetic wraps. *)
Inductive res (E A : Type) : Type :=
  | Ok (a : A)
  | Err (e : E)
  | Panic.
Arguments Ok {E A} a.
Arguments Err {E A} e.
Arguments Panic {E A}.

#[global] Instance res_ret {E} : MRet (res E) := λ A a, Ok a.
#[global] Instance res_bind {E} : MBind (res E) := λ A B f m,
  match m with Ok a => f a | Err e => Err e | Panic => Panic end.
#[global] Instance res_fmap {E} : FMap (res E) := λ A B f m,
  match m with Ok a => Ok (f a) | Err e => Err e | Panic => Panic end.

#[global] Instance res_eq_dec {E A} `{EqDecision E, EqDecision A} : EqDecision (res E A).
Proof. solve_decision. Defined.

Definition is_ok {E A} (m : res E A) : bool :=
  match m with Ok _ => true | _ => false end.
Definition no_panic {E A} (m : res E A) : Prop := m ≠ Panic.

(** [Result::map_err] and the [From] conversion the [?] operator applies. *)
Definition map_err {E F A} (g : E → F) (m : res E A) : res F A :=
  match m with Ok a => Ok a | Err e => Err (g e) | Panic => Panic end.
(** [Option::ok_or]. *)
Definition ok_or {E A} (o : option A) (e : E) : res E A :=
  match o with Some a => Ok a | None => Err e end.
(** [Option::expect] and [Result::expect]. *)
Definition expect {E A} (o : option A) : res E A :=
  match o with Some a => Ok a | None => Panic end.
(** [debug_assert!]: a panic in builds with debug assertions. *)
Definition debug_assert {E} (b : bool) : res E unit := if b then Ok tt else Panic.
(** A guard: [if b { return Err(e) }]. *)
Definition err_if {E} (b : bool) (e : E) : res E unit :=
  if b then Err e else Ok tt.

Lemma bind_Ok_inv {E A B} (m : res E A) (f : A → res E B) b :
  m ≫= f = Ok b → ∃ a, m = Ok a ∧ f a = Ok b.
Proof. destruct m; naive_solver. Qed.
Lemma fmap_Ok_inv {E A B} (f : A → B) (m : res E A) b :
  f <$> m = Ok b → ∃ a, m = Ok a ∧ f a = b.
Proof. destruct m; naive_solver. Qed.
Lemma map_err_Ok_inv {E F A} (g : E → F) (m : res E A) a :
  map_err g m = Ok a → m = Ok a.
Proof. destruct m; naive_solver. Qed.
Lemma map_err_Err_inv {E F A} (g : E → F) (m : res E A) e :
  map_err g m = Err e → ∃ e', m = Err e' ∧ e = g e'.
Proof. destruct m; naive_solver. Qed.
Lemma ok_or_Ok_inv {E A} (o : option A) (e : E) a : ok_or o e = Ok a → o = Some a.
Proof. destruct o; naive_solver. Qed.
Lemma expect_Ok_inv {E A} (o : option A) a : expect (E:=E) o = Ok a → o = Some a.
Proof. destruct o; naive_solver. Qed.
Lemma err_if_Ok_inv {E} b (e : E) u : err_if b e = Ok u → b = false.
Proof. destruct b; naive_solver. Qed.

Lemma err_if_Ok_iff {E} b (e : E) : err_if b e = Ok tt ↔ b = false.
Proof. by destruct b. Qed.
Lemma bind_err_if_Ok {E A} b (e : E) (f : unit → res E A) a :
  (err_if b e ≫= f) = Ok a ↔ b = false ∧ f tt = Ok a.
Proof. destruct b; naive_solver. Qed.

Lemma no_panic_Ok {E A} (a : A) : no_panic (E:=E) (Ok a).
Proof. done. Qed.
Lemma no_panic_Err {E A} (e : E) : no_panic (A:=A) (Err e).
Proof. done. Qed.
Lemma no_panic_ret {E A} (a : A) : no_panic (E:=E) (mret a).
Proof. done. Qed.
Lemma no_panic_err_if {E} b (e : E) : no_panic (err_if b e).
Proof. by destruct b. Qed.
Lemma no_panic_ok_or {E A} (o : option A) (e : E) : no_panic (ok_or o e).
Proof. by destruct o. Qed.
Lemma no_panic_map_err {E F A} (g : E → F) (m : res E A) :
  no_panic m → no_panic (map_err g m).
Proof. by destruct m. Qed.
Lemma no_panic_bind {E A B} (m : res E A) (f : A → res E B) :
  no_panic m → (∀ a, m = Ok a → no_panic (f a)) → no_panic (m ≫= f).
Proof. intros Hm Hf. destruct m; [by apply Hf|done|by destruct Hm]. Qed.

Create HintDb panics.
#[export] Hint Resolve no_panic_Ok no_panic_Err no_panic_ret no_panic_err_if
  no_panic_ok_or no_panic_map_err : panics.

(** * Stateful functions

    [prog S E A] is a function that mutates a state [S] through [&mut] and
    returns a [Result].  The state is returned with an error too: what a Rust
    function stored before an early [return Err(..)] stays stored. *)
Definition prog (S E A : Type) : Type := S → res E A * S.

#[global] Instance prog_ret {S E} : MRet (prog S E) := λ A a s, (Ok a, s).
#[global] Instance prog_bind {S E} : MBind (prog S E) := λ A B f m s,
  match m s with
  | (Ok a, s') => f a s'
  | (Err e, s') => (Err e, s')
  | (Panic, s') => (Panic, s')
  end.

Section prog_ops.
Context {S E : Type}.
Definition get : prog S E S := λ s, (Ok s, s).
Definition put (s' : S) : prog S E unit := λ _, (Ok tt, s').
Definition modify (f : S → S) : prog S E unit := λ s, (Ok tt, f s).
(** A computation that only reads the state. *)
Definition reading {A} (f : S → res E A) : prog S E A := λ s, (f s, s).
Definition lift {A} (m : res E A) : prog S E A := λ s, (m, s).
Definition throw {A} (e : E) : prog S E A := λ s, (Err e, s).
End prog_ops.

(** [map_err] on a stateful function. *)
Definition pmap_err {S E F A} (g : E → F) (m : prog S E A) : prog S F A := λ s,
  (map_err g (m s).1, (m s).2).

Lemma prog_bind_Ok_inv {S E A B} (m : prog S E A) (f : A → prog S E B) s b s' :
  (m ≫= f) s = (Ok b, s') → ∃ a s1, m s = (Ok a, s1) ∧ f a s1 = (Ok b, s').
Proof.
  unfold mbind, prog_bind. destruct (m s) as [[] ?]; naive_solver.
Qed.
Lemma prog_bind_lift {S E A B} (m : res E A) (f : A → prog S E B) s :
  (lift m ≫= f) s = match m with Ok a => f a s | Err e => (Err e, s) | Panic => (Panic, s) end.
Proof. by destruct m. Qed.

Lemma prog_bind_err_if {S E B} b (e : E) (f : unit → prog S E B) s :
  (lift (err_if b e) ≫= f) s = if b then (Err e, s) else f tt s.
Proof. by destruct b. Qed.
Lemma prog_bind_step {S E A B} (m : prog S E A) (f : A → prog S E B) s a s' :
  m s = (Ok a, s') → (m ≫= f) s = f a s'.
Proof. intros H. unfold mbind, prog_bind. by rewrite H. Qed.

(** [bind_inv H] takes apart a successful run of a sequence of [?]-steps. *)
Ltac bind_inv_one H :=
  lazymatch type of H with
  | (_ ≫= _) _ = (Ok _, _) =>
      let a := fresh "a" in let s := fresh "s" in let H1 := fresh "Hstep" in
      apply prog_bind_Ok_inv in H as (a & s & H1 & H)
  | _ ≫= _ = Ok _ =>
      let a := fresh "a" in let H1 := fresh "Hstep" in
      apply bind_Ok_inv in H as (a & H1 & H)
  | _ <$> _ = Ok _ => apply fmap_Ok_inv in H as (? & H & ?)
  end.
Ltac res_simplify :=
  repeat match goal with
  | H : err_if _ _ = Ok _ |- _ => apply err_if_Ok_inv in H
  | H : ok_or _ _ = Ok _ |- _ => apply ok_or_Ok_inv in H
  | H : expect _ = Ok _ |- _ => apply expect_Ok_inv in H
  | H : map_err _ _ = Ok _ |- _ => apply map_err_Ok_inv in H
  | H : mret _ = Ok _ |- _ => injection H as H; subst
  | H : Ok _ = Ok _ |- _ => injection H as H; subst
  | H : Err _ = Ok _ |- _ => discriminate H
  | H : Panic = Ok _ |- _ => discriminate H
  | H : (_ || _) = false |- _ => apply orb_false_elim in H as [? H]
  | H : (_ && _) = true |- _ => apply andb_true_iff in H as [? H]
  | H : negb _ = false |- _ => apply negb_false_iff in H
  | H : negb _ = true |- _ => apply negb_true_iff in H
  | H : (_ <? _) = true |- _ => apply Z.ltb_lt in H
  | H : (_ <? _) = false |- _ => apply Z.ltb_ge in H
  | H : (_ <=? _) = true |- _ => apply Z.leb_le in H
  | H : (_ <=? _) = false |- _ => apply Z.leb_gt in H
  | H : (_ =? _) = true |- _ => apply Z.eqb_eq in H
  | H : (_ =? _) = false |- _ => apply Z.eqb_neq in H
  | u : unit |- _ => destruct u
  end.
Ltac bind_inv H := repeat (bind_inv_one H; cbv beta in H); res_simplify.

(** * Machine integers

    A Rust unsigned integer of width [w] is a [Z] in [0 .. 2^w). *)
Definition in_width (w z : Z) : Prop := 0 ≤ z < 2 ^ w.
Abbreviation u8 := (in_width 8).
Abbreviation u16 := (in_width 16).
Abbreviation u32 := (in_width 32).
Abbreviation u64 := (in_width 64).
(** The crate builds for x86-64 hosts only: [usize] has 64 bits. *)
Abbreviation usize := (in_width 64).

Definition U16_MAX : Z := 65535.
Definition U32_MAX : Z := 4294967295.
Definition U64_MAX : Z := 18446744073709551615.

Definition fits (w z : Z) : bool := (0 <=? z) && (z <? 2 ^ w).
(** [checked_add], [checked_sub], [checked_mul]. *)
Definition checked_add (w a b : Z) : option Z :=
  if a + b <? 2 ^ w then Some (a + b) else None.
Definition checked_sub (a b : Z) : option Z :=
  if b <=? a then Some (a - b) else None.
Definition checked_mul (w a b : Z) : option Z :=
  if a * b <? 2 ^ w then Some (a * b) else None.
(** [T::try_from(z)] to a [w]-bit type. *)
Definition try_from (w z : Z) : option Z := if z <? 2 ^ w then Some z else None.
(** [+], [-], [*] and [<<] of Rust: a panic on overflow. *)
Definition uadd {E} (w a b : Z) : res E Z := expect (checked_add w a b).
Definition usub {E} (a b : Z) : res E Z := expect (checked_sub a b).
Definition umul {E} (w a b : Z) : res E Z := expect (checked_mul w a b).
(** [%] and [/]: a panic when the divisor is zero. *)
Definition urem {E} (a b : Z) : res E Z := if b =? 0 then Panic else Ok (a mod b).
Definition udiv {E} (a b : Z) : res E Z := if b =? 0 then Panic else Ok (a / b).
(** [wrapping_add], [wrapping_mul], [as uN] and bitwise [!]. *)
Definition wrapping_add (w a b : Z) : Z := (a + b) mod 2 ^ w.
Definition wrapping_mul (w a b : Z) : Z := (a * b) mod 2 ^ w.
Definition as_width (w z : Z) : Z := z mod 2 ^ w.
Definition unot (w a : Z) : Z := Z.lxor a (Z.ones w).
(** [is_power_of_two]. *)
Definition is_power_of_two (z : Z) : bool := (0 <? z) && (Z.land z (z - 1) =? 0).

(** [ulia] is [lia] with the integer types unfolded. *)
Ltac ulia := unfold in_width in *; lia.
(** [dlia] is [lia] with division and remainder by constants. *)
Ltac dlia := unfold in_width in *; Z.to_euclidean_division_equations; lia.

Lemma checked_add_Some w a b c : checked_add w a b = Some c ↔ c = a + b ∧ a + b < 2 ^ w.
Proof. unfold checked_add. destruct (Z.ltb_spec (a + b) (2 ^ w)); naive_solver lia. Qed.
Lemma checked_add_None w a b : checked_add w a b = None ↔ 2 ^ w ≤ a + b.
Proof. unfold checked_add. destruct (Z.ltb_spec (a + b) (2 ^ w)); naive_solver lia. Qed.
Lemma checked_sub_Some a b c : checked_sub a b = Some c ↔ c = a - b ∧ b ≤ a.
Proof. unfold checked_sub. destruct (Z.leb_spec b a); naive_solver lia. Qed.
Lemma checked_mul_Some w a b c : checked_mul w a b = Some c ↔ c = a * b ∧ a * b < 2 ^ w.
Proof. unfold checked_mul. destruct (Z.ltb_spec (a * b) (2 ^ w)); naive_solver lia. Qed.
Lemma try_from_Some w a c : try_from w a = Some c ↔ c = a ∧ a < 2 ^ w.
Proof. unfold try_from. destruct (Z.ltb_spec a (2 ^ w)); naive_solver lia. Qed.
Lemma try_from_usize a : usize a → try_from 64 a = Some a.
Proof. intros. apply try_from_Some. ulia. Qed.

Lemma uadd_ok {E} w a b : a + b < 2 ^ w → uadd (E:=E) w a b = Ok (a + b).
Proof. intros. unfold uadd. by rewrite (proj2 (checked_add_Some w a b _)) by eauto. Qed.
Lemma usub_ok {E} a b : b ≤ a → usub (E:=E) a b = Ok (a - b).
Proof. intros. unfold usub. by rewrite (proj2 (checked_sub_Some a b _)) by eauto. Qed.
Lemma umul_ok {E} w a b : a * b < 2 ^ w → umul (E:=E) w a b = Ok (a * b).
Proof. intros. unfold umul. by rewrite (proj2 (checked_mul_Some w a b _)) by eauto. Qed.
Lemma urem_ok {E} a b : b ≠ 0 → urem (E:=E) a b = Ok (a mod b).
Proof. intros. unfold urem. by destruct (Z.eqb_spec b 0). Qed.
Lemma udiv_ok {E} a b : b ≠ 0 → udiv (E:=E) a b = Ok (a / b).
Proof. intros. unfold udiv. by destruct (Z.eqb_spec b 0). Qed.
Lemma uadd_Ok_inv {E} w a b c : uadd (E:=E) w a b = Ok c → c = a + b ∧ a + b < 2 ^ w.
Proof. intros H%expect_Ok_inv. by apply checked_add_Some. Qed.
Lemma usub_Ok_inv {E} a b c : usub (E:=E) a b = Ok c → c = a - b ∧ b ≤ a.
Proof. intros H%expect_Ok_inv. by apply checked_sub_Some. Qed.
Lemma umul_Ok_inv {E} w a b c : umul (E:=E) w a b = Ok c → c = a * b ∧ a * b < 2 ^ w.
Proof. intros H%expect_Ok_inv. by apply checked_mul_Some. Qed.
Lemma urem_Ok_inv {E} a b c : urem (E:=E) a b = Ok c → c = a mod b ∧ b ≠ 0.
Proof. unfold urem. destruct (Z.eqb_spec b 0); naive_solver. Qed.
Lemma udiv_Ok_inv {E} a b c : udiv (E:=E) a b = Ok c → c = a / b ∧ b ≠ 0.
Proof. unfold udiv. destruct (Z.eqb_spec b 0); naive_solver. Qed.

(** [arith_inv] turns successful checked and unchecked arithmetic in the
    hypotheses into its value and its no-overflow bound. *)
Ltac arith_inv :=
  repeat match goal with
  | H : checked_add _ _ _ = Some _ |- _ => apply checked_add_Some in H as [? ?]; subst
  | H : checked_sub _ _ = Some _ |- _ => apply checked_sub_Some in H as [? ?]; subst
  | H : checked_mul _ _ _ = Some _ |- _ => apply checked_mul_Some in H as [? ?]; subst
  | H : try_from _ _ = Some _ |- _ => apply try_from_Some in H as [? ?]; subst
  | H : uadd _ _ _ = Ok _ |- _ => apply uadd_Ok_inv in H as [? ?]; subst
  | H : usub _ _ = Ok _ |- _ => apply usub_Ok_inv in H as [? ?]; subst
  | H : umul _ _ _ = Ok _ |- _ => apply umul_Ok_inv in H as [? ?]; subst
  | H : urem _ _ = Ok _ |- _ => apply urem_Ok_inv in H as [? ?]; subst
  | H : udiv _ _ = Ok _ |- _ => apply udiv_Ok_inv in H as [? ?]; subst
  end.

(** [res_cases] splits the goal along every check a function makes. *)
Ltac res_cases :=
  unfold err_if, ok_or, checked_add, checked_sub, checked_mul, try_from;
  repeat (cbn [mbind res_bind fmap res_fmap is_ok map_err expect]; case_match);
  cbn [mbind res_bind fmap res_fmap is_ok map_err expect]; simplify_eq; res_simplify.

(** [zcmp] evaluates every integer comparison of the goal that [lia] decides. *)
Ltac zcmp :=
  repeat match goal with
  | |- context [?a <? ?b] =>
      first [rewrite (proj2 (Z.ltb_lt a b)) by ulia | rewrite (proj2 (Z.ltb_ge a b)) by ulia]
  | |- context [?a <=? ?b] =>
      first [rewrite (proj2 (Z.leb_le a b)) by ulia | rewrite (proj2 (Z.leb_gt a b)) by ulia]
  | |- context [?a =? ?b] =>
      first [rewrite (proj2 (Z.eqb_eq a b)) by ulia | rewrite (proj2 (Z.eqb_neq a b)) by ulia]
  end.

(** ** Masks

    [x & !(2^k - 1)], the page and alignment masks of the sources, clears the
    low [k] bits. *)
Lemma unot_testbit w a i : 0 ≤ i < w → Z.testbit (unot w a) i = negb (Z.testbit a i).
Proof.
  intros. unfold unot. rewrite Z.lxor_spec, Z.ones_spec_low by lia. by destruct (Z.testbit a i).
Qed.
Lemma in_width_testbit w z i : in_width w z → w ≤ i → Z.testbit z i = false.
Proof.
  intros Hz Hi. destruct (Z.eq_dec z 0) as [->|]; [apply Z.bits_0|].
  apply Z.bits_above_log2; [ulia|]. apply Z.lt_le_trans with w; [|done].
  apply Z.log2_lt_pow2; ulia.
Qed.
Lemma land_unot_ones w k a :
  0 ≤ k ≤ w → in_width w a → Z.land a (unot w (Z.ones k)) = a / 2 ^ k * 2 ^ k.
Proof.
  intros Hk Ha. rewrite <- Z.shiftr_div_pow2, <- Z.shiftl_mul_pow2 by lia.
  apply Z.bits_inj'. intros i Hi. rewrite Z.land_spec.
  destruct (Z.ltb_spec i w) as [Hw|Hw].
  - rewrite unot_testbit by lia. rewrite Z.testbit_ones_nonneg by lia.
    destruct (Z.ltb_spec i k).
    + rewrite Z.shiftl_spec_low by lia. apply andb_false_r.
    + rewrite Z.shiftl_spec, Z.shiftr_spec by lia.
      replace (i - k + k) with i by lia. apply andb_true_r.
  - rewrite (in_width_testbit w a) by done. simpl. rewrite Z.shiftl_spec by lia.
    destruct (Z.leb_spec 0 (i - k)); [|lia].
    rewrite Z.shiftr_spec by lia. symmetry. apply (in_width_testbit w); [done|lia].
Qed.
(** Setting low flag bits of an aligned value is an addition. *)
Lemma lor_low_flags k a f :
  0 ≤ k → a mod 2 ^ k = 0 → 0 ≤ f < 2 ^ k → Z.lor a f = a + f.
Proof.
  intros Hk Ha Hf. symmetry.
  rewrite <- Z.lxor_lor; [apply Z.add_nocarry_lxor|].
  all: apply Z.bits_inj'; intros i Hi; rewrite Z.land_spec, Z.bits_0;
    destruct (Z.ltb_spec i k) as [Hik|Hik].
  all: try (rewrite (in_width_testbit k f i) by (unfold in_width; lia); apply andb_false_r).
  all: replace (Z.testbit a i) with false; [done|]; symmetry;
    rewrite <- (Z.mod_pow2_bits_low a k i) by lia; rewrite Ha; apply Z.bits_0.
Qed.

(** * Byte sequences *)
Definition len {A} (l : list A) : Z := Z.of_nat (length l).
Definition bytes_ok (bs : list Z) : Prop := Forall u8 bs.

Lemma len_nonneg {A} (l : list A) : 0 ≤ len l.
Proof. unfold len. lia. Qed.
Lemma len_nil {A} : len (@nil A) = 0.
Proof. done. Qed.
Lemma len_cons {A} (x : A) l : len (x :: l) = 1 + len l.
Proof. unfold len. simpl. lia. Qed.
Lemma len_app {A} (l k : list A) : len (l ++ k) = len l + len k.
Proof. unfold len. rewrite length_app. lia. Qed.
Lemma len_replicate {A} n (x : A) : len (replicate n x) = Z.of_nat n.
Proof. unfold len. by rewrite length_replicate. Qed.
Lemma len_take {A} n (l : list A) : len (take n l) = Z.of_nat n `min` len l.
Proof. unfold len. rewrite length_take. lia. Qed.
Lemma len_drop {A} n (l : list A) : len (drop n l) = 0 `max` (len l - Z.of_nat n).
Proof. unfold len. rewrite length_drop. lia. Qed.
Lemma bytes_ok_replicate n b : u8 b → bytes_ok (replicate n b).
Proof. intros. by apply Forall_replicate. Qed.

Create HintDb bytes.
Create HintDb bits.
Create Rewrite HintDb bytes.
#[export] Hint Rewrite @len_nil @len_cons @len_app @len_replicate @len_take @len_drop : bytes.
#[export] Hint Resolve bytes_ok_replicate : bytes.

(** [bytes[i]] and [bytes[a..b]]: a panic when out of range. *)
Definition index {E A} (l : list A) (i : Z) : res E A :=
  if i <? len l then expect (l !! Z.to_nat i) else Panic.
Definition slice {E A} (l : list A) (a b : Z) : res E (list A) :=
  if (a <=? b) && (b <=? len l) then Ok (take (Z.to_nat (b - a)) (drop (Z.to_nat a) l))
  else Panic.
(** [l[a..].copy_from_slice(k)] on a buffer that is long enough. *)
Definition splice {A} (l : list A) (a : Z) (k : list A) : list A :=
  take (Z.to_nat a) l ++ k ++ drop (Z.to_nat (a + len k)) l.

Lemma index_ok {E A} (l : list A) i :
  0 ≤ i < len l → ∃ x, index (E:=E) l i = Ok x ∧ l !! Z.to_nat i = Some x.
Proof.
  intros Hi. unfold index. destruct (Z.ltb_spec i (len l)); [|lia].
  unfold len in *. destruct (lookup_lt_is_Some_2 l (Z.to_nat i)) as [x Hx]; [lia|].
  exists x. by rewrite Hx.
Qed.
Lemma slice_ok {E A} (l : list A) a b :
  0 ≤ a ≤ b → b ≤ len l →
  slice (E:=E) l a b = Ok (take (Z.to_nat (b - a)) (drop (Z.to_nat a) l)).
Proof.
  intros. unfold slice. destruct (Z.leb_spec a b), (Z.leb_spec b (len l)); done || lia.
Qed.
Lemma slice_Ok_inv {E A} (l : list A) a b k :
  slice (E:=E) l a b = Ok k → k = take (Z.to_nat (b - a)) (drop (Z.to_nat a) l) ∧ a ≤ b ≤ len l.
Proof.
  unfold slice. destruct (Z.leb_spec a b), (Z.leb_spec b (len l)); naive_solver.
Qed.
Lemma len_slice {E A} (l : list A) a b k : 0 ≤ a → slice (E:=E) l a b = Ok k → len k = b - a.
Proof. intros ? [-> ?]%slice_Ok_inv. autorewrite with bytes. lia. Qed.
Lemma len_splice {A} (l k : list A) a :
  0 ≤ a → a + len k ≤ len l → len (splice l a k) = len l.
Proof.
  intros. pose proof (len_nonneg k). unfold splice. autorewrite with bytes. lia.
Qed.
Lemma bytes_ok_take n bs : bytes_ok bs → bytes_ok (take n bs).
Proof. apply Forall_take. Qed.
Lemma bytes_ok_drop n bs : bytes_ok bs → bytes_ok (drop n bs).
Proof. apply Forall_drop. Qed.
Lemma bytes_ok_app bs cs : bytes_ok bs → bytes_ok cs → bytes_ok (bs ++ cs).
Proof. apply Forall_app_2. Qed.
#[export] Hint Resolve bytes_ok_take bytes_ok_drop bytes_ok_app : bytes.
Lemma bytes_ok_slice {E} bs a b k : bytes_ok bs → slice (E:=E) bs a b = Ok k → bytes_ok k.
Proof. intros ? [-> ?]%slice_Ok_inv. eauto with bytes. Qed.
Lemma bytes_ok_splice bs a k : bytes_ok bs → bytes_ok k → bytes_ok (splice bs a k).
Proof. unfold splice. eauto with bytes. Qed.
#[export] Hint Resolve bytes_ok_slice bytes_ok_splice : bytes.

(** ** Little-endian integers: [to_le_bytes] and [from_le_bytes] *)
Fixpoint to_le_bytes (n : nat) (z : Z) : list Z :=
  match n with
  | O => []
  | S n => z mod 256 :: to_le_bytes n (z / 256)
  end.
Fixpoint from_le_bytes (bs : list Z) : Z :=
  match bs with
  | [] => 0
  | b :: bs => b + 256 * from_le_bytes bs
  end.

Lemma length_to_le_bytes n z : length (to_le_bytes n z) = n.
Proof. revert z. induction n; simpl; auto. Qed.
Lemma len_to_le_bytes n z : len (to_le_bytes n z) = Z.of_nat n.
Proof. unfold len. by rewrite length_to_le_bytes. Qed.
#[export] Hint Rewrite length_to_le_bytes len_to_le_bytes : bytes.
Lemma to_le_bytes_ok n z : bytes_ok (to_le_bytes n z).
Proof.
  revert z. induction n as [|n IH]; intros z; constructor; [|apply IH].
  pose proof (Z.mod_pos_bound z 256). ulia.
Qed.
#[export] Hint Resolve to_le_bytes_ok : bytes.
Lemma from_le_bytes_bound bs : bytes_ok bs → 0 ≤ from_le_bytes bs < 2 ^ (8 * len bs).
Proof.
  induction 1 as [|b bs Hb _ IH]; [done|]. cbn [from_le_bytes]. rewrite len_cons.
  replace (8 * (1 + len bs)) with (8 + 8 * len bs) by lia.
  rewrite Z.pow_add_r by (pose proof (len_nonneg bs); lia). ulia.
Qed.
Lemma from_to_le_bytes n z :
  0 ≤ z < 2 ^ (8 * Z.of_nat n) → from_le_bytes (to_le_bytes n z) = z.
Proof.
  revert z. induction n as [|n IH]; intros z Hz; simpl; [simpl in Hz; lia|].
  replace (8 * Z.of_nat (S n)) with (8 + 8 * Z.of_nat n) in Hz by lia.
  rewrite Z.pow_add_r in Hz by lia. change (2 ^ 8) with 256 in Hz.
  rewrite IH; [rewrite (Z.div_mod z 256) at 3 by lia; lia|].
  split; [apply Z.div_pos; lia|]. apply Z.div_lt_upper_bound; lia.
Qed.
Lemma to_from_le_bytes bs : bytes_ok bs → to_le_bytes (length bs) (from_le_bytes bs) = bs.
Proof.
  induction 1 as [|b bs Hb _ IH]; [done|]. cbn [from_le_bytes length to_le_bytes].
  rewrite (Z.mul_comm 256), Z.mod_add, Z.div_add by lia.
  rewrite Z.mod_small, Z.div_small by ulia. by rewrite Z.add_0_l, IH.
Qed.
Lemma from_le_bytes_to n bs :
  bytes_ok bs → length bs = n → to_le_bytes n (from_le_bytes bs) = bs.
Proof. intros ? <-. by apply to_from_le_bytes. Qed.

(** * Byte-addressed storage

    The contents of a mapping as a function from offsets to bytes; the
    mapping's length is kept beside it. *)
Definition store := Z → Z.
Definition store_write (m : store) (off : Z) (bs : list Z) : store := λ o,
  if (off <=? o) && (o <? off + len bs) then nth (Z.to_nat (o - off)) bs 0 else m o.
Fixpoint store_read (m : store) (off : Z) (n : nat) : list Z :=
  match n with
  | O => []
  | S n => m off :: store_read m (off + 1) n
  end.
Definition store_ok (m : store) : Prop := ∀ o, u8 (m o).

Lemma length_store_read m off n : length (store_read m off n) = n.
Proof. revert off. induction n; simpl; auto. Qed.
Lemma len_store_read m off n : len (store_read m off n) = Z.of_nat n.
Proof. unfold len. by rewrite length_store_read. Qed.
#[export] Hint Rewrite length_store_read len_store_read : bytes.
Lemma store_read_ok m off n : store_ok m → bytes_ok (store_read m off n).
Proof.
  intros Hm. revert off. induction n as [|n IH]; intros off; [constructor|].
  constructor; [apply Hm|apply IH].
Qed.
Lemma store_write_out m off bs o :
  o < off ∨ off + len bs ≤ o → store_write m off bs o = m o.
Proof.
  intros. unfold store_write.
  destruct (Z.leb_spec off o), (Z.ltb_spec o (off + len bs)); done || lia.
Qed.
Lemma store_write_in m off bs o :
  off ≤ o < off + len bs → store_write m off bs o = nth (Z.to_nat (o - off)) bs 0.
Proof.
  intros. unfold store_write.
  destruct (Z.leb_spec off o), (Z.ltb_spec o (off + len bs)); done || lia.
Qed.
Lemma store_write_ok m off bs : store_ok m → bytes_ok bs → store_ok (store_write m off bs).
Proof.
  intros Hm Hbs o. unfold store_write. destruct (_ && _); [|done].
  rewrite nth_lookup. destruct (bs !! _) eqn:E; simpl; [|ulia].
  by apply (Forall_lookup_1 _ _ _ _ Hbs E).
Qed.
#[export] Hint Resolve store_read_ok store_write_ok : bytes.
Lemma store_read_ext m m' off n :
  (∀ o, off ≤ o < off + Z.of_nat n → m o = m' o) → store_read m off n = store_read m' off n.
Proof.
  revert off. induction n as [|n IH]; intros off H; simpl; [done|].
  rewrite H by lia. f_equal. apply IH. intros. apply H. lia.
Qed.
Lemma store_read_write_disjoint m off bs off' n :
  off' + Z.of_nat n ≤ off ∨ off + len bs ≤ off' →
  store_read (store_write m off bs) off' n = store_read m off' n.
Proof. intros. apply store_read_ext. intros. apply store_write_out. lia. Qed.
Lemma store_read_nth m off n i :
  (i < n)%nat → nth i (store_read m off n) 0 = m (off + Z.of_nat i).
Proof.
  revert off i. induction n as [|n IH]; intros off i Hi; [lia|].
  destruct i as [|i]; simpl; [f_equal; lia|]. rewrite IH by lia. f_equal. lia.
Qed.
Lemma store_read_lookup m off n i :
  (i < n)%nat → store_read m off n !! i = Some (m (off + Z.of_nat i)).
Proof.
  revert off i. induction n as [|n IH]; intros off i Hi; [lia|].
  destruct i as [|i]; simpl; [do 2 f_equal; lia|]. rewrite IH by lia. do 2 f_equal. lia.
Qed.
Lemma store_read_write_same m off bs :
  store_read (store_write m off bs) off (length bs) = bs.
Proof.
  apply list_eq_same_length with (n := length bs); [done|by autorewrite with bytes|].
  intros i x y Hi. rewrite store_read_lookup by done. intros [= <-] Hy.
  rewrite store_write_in by (unfold len; lia).
  replace (Z.to_nat (off + Z.of_nat i - off)) with i by lia.
  by rewrite nth_lookup, Hy.
Qed.
Lemma store_read_app m off n k :
  store_read m off (n + k) = store_read m off n ++ store_read m (off + Z.of_nat n) k.
Proof.
  revert off. induction n as [|n IH]; intros off; simpl; [f_equal; lia|].
  rewrite IH. do 3 f_equal. lia.
Qed.

(** * Proving that a sequence of steps cannot panic *)
Lemma no_panic_uadd {E} w a b : a + b < 2 ^ w → no_panic (uadd (E:=E) w a b).
Proof. intros. by rewrite uadd_ok. Qed.
Lemma no_panic_usub {E} a b : b ≤ a → no_panic (usub (E:=E) a b).
Proof. intros. by rewrite usub_ok. Qed.
Lemma no_panic_umul {E} w a b : a * b < 2 ^ w → no_panic (umul (E:=E) w a b).
Proof. intros. by rewrite umul_ok. Qed.
Lemma no_panic_urem {E} a b : b ≠ 0 → no_panic (urem (E:=E) a b).
Proof. intros. by rewrite urem_ok. Qed.
Lemma no_panic_udiv {E} a b : b ≠ 0 → no_panic (udiv (E:=E) a b).
Proof. intros. by rewrite udiv_ok. Qed.
Lemma no_panic_index {E A} (l : list A) i : 0 ≤ i < len l → no_panic (index (E:=E) l i).
Proof. intros H. by destruct (index_ok (E:=E) l i H) as (x&->&_). Qed.
Lemma no_panic_slice {E A} (l : list A) a b :
  0 ≤ a ≤ b → b ≤ len l → no_panic (slice (E:=E) l a b).
Proof. intros. by rewrite slice_ok by lia. Qed.
Lemma no_panic_fmap {E A B} (f : A → B) (m : res E A) : no_panic m → no_panic (f <$> m).
Proof. by destruct m. Qed.
Ltac np_side := first [done | lia | ulia].
#[export] Hint Extern 4 (no_panic (uadd _ _ _)) => apply no_panic_uadd; np_side : panics.
#[export] Hint Extern 4 (no_panic (usub _ _)) => apply no_panic_usub; np_side : panics.
#[export] Hint Extern 4 (no_panic (umul _ _ _)) => apply no_panic_umul; np_side : panics.
#[export] Hint Extern 4 (no_panic (urem _ _)) => apply no_panic_urem; np_side : panics.
#[export] Hint Extern 4 (no_panic (udiv _ _)) => apply no_panic_udiv; np_side : panics.
#[export] Hint Extern 4 (no_panic (index _ _)) => apply no_panic_index; np_side : panics.
#[export] Hint Extern 4 (no_panic (slice _ _ _)) => apply no_panic_slice; np_side : panics.
#[export] Hint Resolve no_panic_fmap : panics.

(** [np] walks through a sequence of [?]-steps with the hints of [panics],
    keeping what each successful step says. *)
Ltac np_leaf := solve [auto with panics].
Ltac np_step :=
  apply no_panic_bind; [np_leaf|];
  let a := fresh "v" in let H := fresh "Hv" in
  intros a H; cbv beta; res_simplify; arith_inv.
Ltac np := repeat np_step; try np_leaf.

(** * Loops over an enumerated slice

    [for (index, item) in items.iter().enumerate()] with a body that looks back
    at [items[..index]], here [previous], and threads a value through. *)
Fixpoint for_enumerated {E A S} (body : list A → S → A → res E S) (previous rest : list A) (s : S)
    : res E S :=
  match rest with
  | [] => Ok s
  | a :: rest =>
      s ← body previous s a;
      for_enumerated body (previous ++ [a]) rest s
  end.

Section enumerated.
Context {E A S : Type} (body : list A → S → A → res E S).
Lemma no_panic_for_enumerated previous rest s :
  (∀ previous s a, no_panic (body previous s a)) → no_panic (for_enumerated body previous rest s).
Proof.
  intros Hb. revert previous s. induction rest as [|a rest IH]; intros previous s; [done|].
  cbn. apply no_panic_bind; eauto.
Qed.

(** A body that accepts an item when it is valid by itself and compatible with
    every earlier one accepts the lists that are pairwise compatible. *)
Context (given wf : A → Prop) (R : A → A → Prop) (step : S → A → S).
Hypothesis body_ok : ∀ previous s a s', given a →
  body previous s a = Ok s' ↔ wf a ∧ Forall (λ p, R p a) previous ∧ s' = step s a.
Lemma for_enumerated_ok previous rest s s' :
  Forall given rest →
  for_enumerated body previous rest s = Ok s' ↔
  Forall wf rest ∧ ForallOrdPairs R rest ∧ Forall (λ p, Forall (R p) rest) previous ∧
  s' = fold_left step rest s.
Proof.
  intros Hg. revert previous s. induction Hg as [|a rest Ha _ IH]; intros previous s; cbn.
  - split; [|by intros (_&_&_&->)]. intros [= ->].
    split_and!; [constructor|constructor| |done]. by apply Forall_true.
  - setoid_rewrite Forall_cons. split.
    + intros (s1&(?&Hp&->)%body_ok&Hrest)%bind_Ok_inv; [|done].
      apply IH in Hrest as (?&?&[? Hl]%Forall_app&->). rewrite Forall_singleton in Hl.
      split_and!; [done..|by constructor| |done]. apply Forall_and. done.
    + intros ([? ?]&Hord&[Hp ?]%Forall_and&->). inversion_clear Hord.
      rewrite (proj2 (body_ok previous s a _ Ha)) by done. cbn. apply IH.
      split_and!; [done..| |done]. rewrite Forall_app, Forall_singleton. done.
Qed.
End enumerated.

Lemma NoDup_fmap_pairs {A B} (key : A → B) l :
  ForallOrdPairs (λ x y, key x ≠ key y) l ↔ NoDup (key <$> l).
Proof.
  induction l as [|x l IH]; [split; constructor|]. rewrite fmap_cons, NoDup_cons. split.
  - inversion_clear 1 as [|?? Hx Hl]. split; [|by apply IH].
    intros (y&Heq&Hy)%list_elem_of_fmap. rewrite Forall_forall in Hx. by destruct (Hx y).
  - intros [Hx ?]. constructor; [|by apply IH]. apply Forall_forall. intros y Hy Heq.
    apply Hx. rewrite Heq. by apply list_elem_of_fmap_2.
Qed.

(** * Specifications of stateful functions

    [runs m s Q X]: started in [s], [m] does not panic; if it returns [Ok a]
    in [s'] then [Q a s'], and if it returns [Err e] in [s'] then [X e s']. *)
Definition runs {S E A} (m : prog S E A) (s : S) (Q : A → S → Prop) (X : E → S → Prop) : Prop :=
  match m s with
  | (Ok a, s') => Q a s'
  | (Err e, s') => X e s'
  | (Panic, _) => False
  end.

Section runs.
Context {S E : Type}.
Implicit Types s : S.

Lemma runs_bind {A B} (m : prog S E A) (f : A → prog S E B) s Q X :
  runs m s (λ a s', runs (f a) s' Q X) X → runs (m ≫= f) s Q X.
Proof. unfold runs, mbind, prog_bind. by destruct (m s) as [[] ?]. Qed.
Lemma runs_ret {A} (a : A) s (Q : A → S → Prop) (X : E → S → Prop) :
  Q a s → runs (mret a) s Q X.
Proof. done. Qed.
Lemma runs_lift {A} (x : res E A) s (Q : A → S → Prop) X :
  no_panic x → (∀ a, x = Ok a → Q a s) → (∀ e, x = Err e → X e s) → runs (lift x) s Q X.
Proof. unfold runs, lift. intros Hx HQ HX. destruct x; auto. Qed.
Lemma runs_lift_ok {A B} (x : res E A) a (f : A → prog S E B) s Q X :
  x = Ok a → runs (f a) s Q X → runs (lift x ≫= f) s Q X.
Proof. by intros ->. Qed.
Lemma runs_get s (Q : S → S → Prop) (X : E → S → Prop) : Q s s → runs get s Q X.
Proof. done. Qed.
Lemma runs_modify f s (Q : unit → S → Prop) (X : E → S → Prop) :
  Q tt (f s) → runs (modify f) s Q X.
Proof. done. Qed.
Lemma runs_reading {A} (f : S → res E A) s (Q : A → S → Prop) X :
  no_panic (f s) → (∀ a, f s = Ok a → Q a s) → (∀ e, f s = Err e → X e s) →
  runs (reading f) s Q X.
Proof. unfold runs, reading. intros Hx HQ HX. destruct (f s); auto. Qed.
Lemma runs_pmap_err {F A} (g : E → F) (m : prog S E A) s Q X :
  runs m s Q (λ e s', X (g e) s') → runs (pmap_err g m) s Q X.
Proof. unfold runs, pmap_err. by destruct (m s) as [[] ?]. Qed.
Lemma runs_mono {A} (m : prog S E A) s (Q Q' : A → S → Prop) (X X' : E → S → Prop) :
  runs m s Q X → (∀ a s', Q a s' → Q' a s') → (∀ e s', X e s' → X' e s') → runs m s Q' X'.
Proof. unfold runs. destruct (m s) as [[] ?]; auto. Qed.
Lemma runs_Ok {A} (m : prog S E A) s Q X a s' : runs m s Q X → m s = (Ok a, s') → Q a s'.
Proof. unfold runs. intros H Heq. by rewrite Heq in H. Qed.
Lemma runs_Err {A} (m : prog S E A) s Q X e s' : runs m s Q X → m s = (Err e, s') → X e s'.
Proof. unfold runs. intros H Heq. by rewrite Heq in H. Qed.
Lemma runs_no_panic {A} (m : prog S E A) s Q X : runs m s Q X → no_panic (m s).1.
Proof. unfold runs. by destruct (m s) as [[] ?]. Qed.
End runs.

(** * Functions with fuel *)
Definition fprog (S E A : Type) : Type := S → option (res E A * S).
#[global] Instance fprog_ret {S E} : MRet (fprog S E) := λ A a s, Some (Ok a, s).
#[global] Instance fprog_bind {S E} : MBind (fprog S E) := λ A B f m s,
  match m s with
  | None => None
  | Some (Ok a, s') => f a s'
  | Some (Err e, s') => Some (Err e, s')
  | Some (Panic, s') => Some (Panic, s')
  end.
Definition total {S E A} (m : prog S E A) : fprog S E A := λ s, Some (m s).
Definition out_of_fuel {S E A} : fprog S E A := λ _, None.
Definition fruns {S E A} (m : fprog S E A) (s : S) (Q : A → S → Prop) (X : E → S → Prop) : Prop :=
  match m s with
  | Some (Ok a, s') => Q a s'
  | Some (Err e, s') => X e s'
  | Some (Panic, _) | None => False
  end.
Lemma fruns_bind {S E A B} (m : fprog S E A) (f : A → fprog S E B) s Q X :
  fruns m s (λ a s', fruns (f a) s' Q X) X → fruns (m ≫= f) s Q X.
Proof. unfold fruns, mbind, fprog_bind. by destruct (m s) as [[[] ?]|]. Qed.
Lemma fruns_total {S E A} (m : prog S E A) s Q X : runs m s Q X → fruns (total m) s Q X.
Proof. done. Qed.
Lemma fruns_ret {S E A} (a : A) s (Q : A → S → Prop) (X : E → S → Prop) : Q a s → fruns (mret a) s Q X.
Proof. done. Qed.
Lemma fruns_mono {S E A} (m : fprog S E A) s (Q Q' : A → S → Prop) (X X' : E → S → Prop) :
  fruns m s Q X → (∀ a s', Q a s' → Q' a s') → (∀ e s', X e s' → X' e s') → fruns m s Q' X'.
Proof. unfold fruns. destruct (m s) as [[[] ?]|]; auto. Qed.
