(* ===== verification/Errors.v ===== *)
(** The error enumerations of [src/src/error.rs], with one constructor per Rust
    variant and the variant's fields as arguments, and the two virtio device
    errors that [src/src/mmio.rs] wraps in an [io::Error]. *)

From S2P Require Import Prelude.

(** [VirtioRngError] of [src/src/pci/virtio.rs]. *)
Inductive VirtioRngError :=
  | RngUnsupportedRegisterAccess (offset length : Z) (write : bool)
  | RngInvalidRegisterPayload (offset expected actual : Z)
  | RngInvalidDeviceStatus (current requested : Z)
  | RngUnsupportedQueue (queue : Z)
  | RngInvalidQueueSize (size maximum : Z)
  | RngQueueConfigurationLocked
  | RngQueueNotReady
  | RngUnexpectedQueueNotification (queue : Z)
  | RngUnexpectedAvailIndex (expected actual : Z)
  | RngUnexpectedUsedIndex (expected actual : Z)
  | RngDescriptorIndexOutOfRange (index queue_size : Z)
  | RngUnsupportedDescriptorFlags (flags : Z)
  | RngDescriptorTooSmall (length required : Z)
  | RngAddressOverflow (base offset : Z).

(** [VirtioBlkError] of [src/src/pci/virtio_blk.rs]. *)
Inductive VirtioBlkError :=
  | BlkUnsupportedRegisterAccess (offset length : Z) (write : bool)
  | BlkInvalidRegisterPayload (offset expected actual : Z)
  | BlkInvalidDeviceStatus (current requested : Z)
  | BlkUnsupportedQueue (queue : Z)
  | BlkInvalidQueueSize (size maximum : Z)
  | BlkQueueConfigurationLocked
  | BlkQueueNotReady
  | BlkUnexpectedQueueNotification (queue : Z)
  | BlkUnexpectedAvailIndex (expected actual : Z)
  | BlkUnexpectedUsedIndex (expected actual : Z)
  | BlkDescriptorIndexOutOfRange (index queue_size : Z)
  | BlkInvalidDescriptorFlags (index expected actual : Z)
  | BlkDescriptorTooSmall (index length required : Z)
  | BlkDescriptorChainCycle (index : Z)
  | BlkIndirectFeatureNotNegotiated
  | BlkInvalidIndirectTableLength (length descriptor_size : Z)
  | BlkIndirectTableTooLarge (entries maximum : Z)
  | BlkIndirectDescriptorIndexOutOfRange (index entries : Z)
  | BlkNestedIndirectDescriptor (index : Z)
  | BlkInvalidRequestType (request_type : Z)
  | BlkInvalidRequestReserved (reserved : Z)
  | BlkSectorOutOfRange (sector capacity : Z)
  | BlkInvalidDataLength (length sector_size : Z)
  | BlkRequestRangeOutOfRange (sector data_length capacity : Z)
  | BlkAddressOverflow (base offset : Z).

(** [std::io::Error]: an errno, or a kind with a payload the crate put in. *)
Inductive io_error_kind :=
  | NotFound | KindPermissionDenied | InvalidData | InvalidInput | Interrupted | TimedOut | WriteZero
  | UnexpectedEof | Other.
Inductive io_payload :=
  | Message (text : string)
  | RngPayload (error : VirtioRngError)
  | BlkPayload (error : VirtioBlkError).
Inductive io_error :=
  | OsError (errno : Z) (kind : io_error_kind)
  | Custom (kind : io_error_kind) (payload : io_payload).
Definition io_kind (e : io_error) : io_error_kind :=
  match e with OsError _ k => k | Custom k _ => k end.
Definition is_interrupted (e : io_error) : bool :=
  match io_kind e with Interrupted => true | _ => false end.

Inductive HostEnvironmentError :=
  | KvmUnavailable (source : io_error)
  | PermissionDenied (source : io_error)
  | VmCreation (source : io_error)
  | VmOperation (operation : string) (source : io_error)
  | VcpuCreation (id : Z) (source : io_error)
  | VcpuRunMapping (id : Z) (source : io_error)
  | VcpuOperation (id : Z) (operation : string) (source : io_error)
  | VcpuMsrPartialWrite (id requested processed first_unwritten_index : Z)
  | VcpuMsrInvalidWriteCompletion (id requested processed : Z)
  | Io (operation : string) (source : io_error).

Inductive KvmCapabilityError :=
  | UnsupportedApiVersion (expected actual : Z)
  | MissingExtension (name : string) (id : Z)
  | InvalidVcpuMmapSize (size : Z).

Inductive ConfigurationError :=
  | UnsupportedVcpuCount (requested supported : Z)
  | RealModeEntryOutOfRange (entry maximum : Z).

Inductive GuestMemoryError :=
  | ZeroSizedRegion
  | MisalignedRegion (field : string) (value alignment : Z)
  | AddressSpaceOverflow (base size : Z)
  | HostSizeOverflow (size : Z)
  | AccessLengthTooLarge (length : Z)
  | AccessOverflow (address length : Z)
  | AccessOutOfBounds (address length region_base region_size : Z)
  | ReservedRangeOverlap (region_base region_size reserved_base reserved_size : Z)
  | Mapping (source : io_error)
  | Registration (source : io_error)
  | AlreadyRegistered.

Inductive GuestImageError :=
  | EmptyFlatBinary
  | ImageLengthTooLarge (length : Z)
  | ImageRangeOverflow (load_address length : Z)
  | EntryOutsideImage (entry load_address length : Z).

Inductive VmExitError :=
  | Unhandled (vcpu_id reason rip rflags : Z) (exit_reasons : list Z)
  | KvmUnknownExit (vcpu_id hardware_exit_reason : Z) (exit_reasons : list Z)
  | KvmUnknownPayloadUnavailable (vcpu_id exit_reason : Z)
  | ExceptionExit (vcpu_id exception error_code : Z) (exit_reasons : list Z)
  | ExceptionPayloadUnavailable (vcpu_id exit_reason : Z)
  | EntryFailure (vcpu_id hardware_entry_failure_reason cpu : Z) (exit_reasons : list Z)
  | FailEntryPayloadUnavailable (vcpu_id exit_reason : Z)
  | InternalErrorExit (vcpu_id suberror : Z) (data : option (list Z)) (exit_reasons : list Z)
  | InternalErrorPayloadUnavailable (vcpu_id exit_reason : Z)
  | InvalidInternalErrorDataCount (vcpu_id suberror ndata capacity : Z) (exit_reasons : list Z)
  | UnsupportedSystemEvent (vcpu_id event_type : Z) (data : list Z) (rip rflags : Z)
      (exit_reasons : list Z)
  | SystemEventPayloadUnavailable (vcpu_id exit_reason : Z)
  | InvalidSystemEventDataCount (vcpu_id ndata capacity : Z) (exit_reasons : list Z)
  | IoPayloadUnavailable (vcpu_id exit_reason : Z)
  | InvalidIoDirection (vcpu_id direction : Z)
  | InvalidIoDataRange (vcpu_id data_offset size count mapping_size : Z)
  | IoResponseForNonInput (vcpu_id direction : Z)
  | InvalidIoResponseLength (vcpu_id port expected actual : Z)
  | MmioPayloadUnavailable (vcpu_id exit_reason : Z)
  | InvalidMmioDirection (vcpu_id is_write : Z)
  | InvalidMmioLength (vcpu_id address length capacity : Z)
  | MmioResponseForWrite (vcpu_id address : Z)
  | InvalidMmioResponseLength (vcpu_id address expected actual : Z)
  | ExitBudgetExhausted (vcpu_id budget completed : Z) (last_exit_reason : option Z)
      (exit_reasons : list Z)
  | UnexpectedSequence (stage : string) (expected_reason actual_reason : Z).

Inductive PortIoError :=
  | UnhandledPort (port direction size count : Z)
  | UnsupportedDebugAccess (port direction size count : Z)
  | InvalidOutputPayload (port expected actual : Z).

Inductive MmioError :=
  | UnhandledAddress (address direction length : Z)
  | UnsupportedByteDeviceAccess (address direction length : Z)
  | InvalidWritePayload (address expected actual : Z).

Inductive Error :=
  | HostEnvironment (e : HostEnvironmentError)
  | KvmCapability (e : KvmCapabilityError)
  | Configuration (e : ConfigurationError)
  | GuestMemoryErr (e : GuestMemoryError)
  | GuestImage (e : GuestImageError)
  | VmExit (e : VmExitError)
  | PortIo (e : PortIoError)
  | Mmio (e : MmioError).
