(* ===== verification/Memory.v ===== *)
(** Guest RAM: [src/src/memory.rs].  A [GuestMemoryRegion] is a validated guest
    physical range; a [GuestMemory] is a region with the private anonymous
    mapping that backs it, read and written only through [checked_offset]. *)

From S2P Require Import Prelude Errors.

Definition KVM_MEMORY_ALIGNMENT : Z := 4096.

(** [GuestPhysAddr] is a transparent newtype over [u64]; its [new] and [get]
    are the identity. *)
Definition GuestPhysAddr : Type := Z.

Record GuestMemoryRegion := mkRegion { base : GuestPhysAddr; region_size : Z }.

#[global] Instance GuestMemoryRegion_eq_dec : EqDecision GuestMemoryRegion.
Proof. solve_decision. Defined.

(** [GuestMemoryRegion::new]. *)
Definition region_new (b : GuestPhysAddr) (sz : Z) : res Error GuestMemoryRegion :=
  _ ← err_if (sz =? 0) (GuestMemoryErr ZeroSizedRegion);
  _ ← err_if (negb (b mod KVM_MEMORY_ALIGNMENT =? 0))
        (GuestMemoryErr (MisalignedRegion "guest physical base" b KVM_MEMORY_ALIGNMENT));
  _ ← err_if (negb (sz mod KVM_MEMORY_ALIGNMENT =? 0))
        (GuestMemoryErr (MisalignedRegion "memory size" sz KVM_MEMORY_ALIGNMENT));
  _ ← ok_or (checked_add 64 b sz) (GuestMemoryErr (AddressSpaceOverflow b sz));
  Ok (mkRegion b sz).

(** [GuestMemoryRegion::end]: the [expect] is a panic point. *)
Definition region_end (r : GuestMemoryRegion) : res Error GuestPhysAddr :=
  expect (checked_add 64 r.(base) r.(region_size)).

(** [GuestMemoryRegion::overlaps]. *)
Definition overlaps (r other : GuestMemoryRegion) : res Error bool :=
  other_end ← region_end other;
  if r.(base) <? other_end then
    self_end ← region_end r;
    Ok (other.(base) <? self_end)
  else Ok false.

(** [GuestMemoryRegion::checked_offset]. *)
Definition checked_offset (r : GuestMemoryRegion) (address : GuestPhysAddr) (length : Z)
    : res Error Z :=
  length_u64 ← ok_or (try_from 64 length) (GuestMemoryErr (AccessLengthTooLarge length));
  access_end ← ok_or (checked_add 64 address length_u64)
                 (GuestMemoryErr (AccessOverflow address length));
  end_ ← region_end r;
  _ ← err_if ((address <? r.(base)) || (end_ <? access_end)
              || (negb (length =? 0) && (end_ <=? address)))
        (GuestMemoryErr (AccessOutOfBounds address length r.(base) r.(region_size)));
  offset ← expect (checked_sub address r.(base));
  ok_or (try_from 64 offset) (GuestMemoryErr (HostSizeOverflow offset)).

(** The mapping: its contents by offset and its length in bytes. *)
Record RamMapping := mkMapping { bytes : store; mapping_len : Z }.
Record GuestMemory := mkMemory { region : GuestMemoryRegion; mapping : RamMapping }.

(** [GuestMemory::new], over the [mmap] call [RamMapping::new] makes: the
    contents of a fresh mapping of the given length, or the host's error. *)
Definition memory_new (mmap : Z → res io_error store) (b : GuestPhysAddr) (sz : Z)
    : res Error GuestMemory :=
  r ← region_new b sz;
  host_size ← ok_or (try_from 64 sz) (GuestMemoryErr (HostSizeOverflow sz));
  contents ← map_err (λ source, GuestMemoryErr (Mapping source)) (mmap host_size);
  Ok (mkMemory r (mkMapping contents host_size)).

(** [GuestMemory::read] into a buffer of [n] bytes: the bytes copied. *)
Definition read (m : GuestMemory) (address : GuestPhysAddr) (n : Z) : res Error (list Z) :=
  offset ← checked_offset m.(region) address n;
  if n =? 0 then Ok [] else Ok (store_read m.(mapping).(bytes) offset (Z.to_nat n)).

(** [GuestMemory::write]: the memory afterwards. *)
Definition write (m : GuestMemory) (address : GuestPhysAddr) (source : list Z)
    : res Error GuestMemory :=
  offset ← checked_offset m.(region) address (len source);
  if len source =? 0 then Ok m
  else Ok (mkMemory m.(region)
             (mkMapping (store_write m.(mapping).(bytes) offset source)
                        m.(mapping).(mapping_len))).

(** The byte at a guest physical address, as the guest sees its RAM. *)
Definition byte_at (m : GuestMemory) (address : Z) : Z :=
  m.(mapping).(bytes) (address - m.(region).(base)).

(** ** The invariant of regions and memories *)
Definition region_wf (r : GuestMemoryRegion) : Prop :=
  0 ≤ r.(base) ∧ 0 < r.(region_size) ∧
  r.(base) mod KVM_MEMORY_ALIGNMENT = 0 ∧ r.(region_size) mod KVM_MEMORY_ALIGNMENT = 0 ∧
  r.(base) + r.(region_size) < 2 ^ 64.

(** The mapping is exactly as long as the region and holds bytes. *)
Definition memory_wf (m : GuestMemory) : Prop :=
  region_wf m.(region) ∧ m.(mapping).(mapping_len) = m.(region).(region_size) ∧
  store_ok m.(mapping).(bytes).

(** The range [address .. address + n) lies inside the region. *)
Definition in_region (r : GuestMemoryRegion) (address n : Z) : Prop :=
  r.(base) ≤ address ∧ address + n ≤ r.(base) + r.(region_size).

(** * Regions *)

Lemma region_end_ok r : region_wf r → region_end r = Ok (r.(base) + r.(region_size)).
Proof.
  intros (?&?&?&?&?). unfold region_end.
  by rewrite (proj2 (checked_add_Some _ _ _ _)) by eauto.
Qed.

(** [GuestMemoryRegion::new] accepts exactly the non-empty ranges whose
    base and size are 4 KiB multiples and whose exclusive end fits in 64 bits;
    an accepted region keeps its base and size, satisfies the region
    invariant, and the call never panics. *)
Theorem region_new_spec b sz :
  u64 b → u64 sz →
  no_panic (region_new b sz) ∧
  ∀ r, region_new b sz = Ok r ↔ r = mkRegion b sz ∧ region_wf r.
Proof.
  intros Hb Hsz. unfold region_new, region_wf. split.
  - repeat (apply no_panic_bind; [auto with panics|intros _ _]). done.
  - intros r. split.
    + intros H. bind_inv H. arith_inv. simpl. split; [done|]. ulia.
    + intros [-> (?&?&Hm1&Hm2&?)]. simpl in *.
      rewrite (proj2 (Z.eqb_neq sz 0)) by lia. rewrite Hm1, Hm2.
      by rewrite (proj2 (checked_add_Some _ _ _ _)) by eauto.
Qed.

Lemma region_new_spec_witness :
  region_new 0x200000 8192 = Ok (mkRegion 0x200000 8192) ∧
  no_panic (region_new 0x200000 8192).
Proof.
  split; [|apply region_new_spec; ulia].
  apply region_new_spec; [ulia|ulia|]. split; [done|]. by repeat split.
Defined.

Lemma checked_offset_ok r a n :
  region_wf r → 0 ≤ n → in_region r a n → checked_offset r a n = Ok (a - r.(base)).
Proof.
  intros Hwf Hn Hin. pose proof Hwf as (?&?&_&_&?). unfold in_region in Hin.
  unfold checked_offset. rewrite try_from_usize by ulia. cbn [ok_or mbind res_bind].
  rewrite (proj2 (checked_add_Some 64 a n _)) by (split; [done|ulia]).
  cbn [ok_or mbind res_bind]. rewrite region_end_ok by done. cbn [mbind res_bind].
  rewrite !(proj2 (Z.ltb_ge _ _)) by lia.
  assert (negb (n =? 0) && (base r + region_size r <=? a) = false) as ->
    by (destruct (Z.eqb_spec n 0), (Z.leb_spec (base r + region_size r) a); done || ulia).
  cbn. rewrite (proj2 (checked_sub_Some a (base r) _)) by (split; [done|lia]). cbn.
  by rewrite try_from_usize by ulia.
Qed.
Lemma checked_offset_inv r a n off :
  region_wf r → 0 ≤ a → 0 ≤ n → checked_offset r a n = Ok off →
  in_region r a n ∧ off = a - r.(base).
Proof.
  intros Hwf Ha Hn H. pose proof Hwf as (?&?&_&_&?). unfold checked_offset in H.
  rewrite region_end_ok in H by done. bind_inv H. arith_inv. unfold in_region. lia.
Qed.
Lemma no_panic_checked_offset r a n :
  region_wf r → 0 ≤ n → no_panic (checked_offset r a n).
Proof.
  intros Hwf Hn. unfold checked_offset. rewrite region_end_ok by done.
  apply no_panic_bind; [auto with panics|]. intros n' Hn'. res_simplify. arith_inv.
  apply no_panic_bind; [auto with panics|]. intros e He. res_simplify. arith_inv.
  apply no_panic_bind; [done|]. intros e He. res_simplify.
  apply no_panic_bind; [auto with panics|]. intros [] Hg. res_simplify.
  unfold checked_sub. destruct (Z.leb_spec r.(base) a); [|lia]. cbn. auto with panics.
Qed.

(** C40: on a valid region [checked_offset] never panics, and it accepts an
    access exactly when the whole range lies inside the region; the offset it
    returns is then the distance from the base, so the access stays inside
    the mapping: the precondition of the raw copies in [read] and [write]. *)
Theorem checked_offset_spec r a n :
  region_wf r → u64 a → usize n →
  no_panic (checked_offset r a n) ∧
  ∀ off, checked_offset r a n = Ok off ↔
         in_region r a n ∧ off = a - r.(base) ∧ 0 ≤ off ∧ off + n ≤ r.(region_size).
Proof.
  intros Hwf Ha Hn. split; [apply no_panic_checked_offset; [done|ulia]|].
  intros off. split.
  - intros H. apply checked_offset_inv in H as [Hin ->]; [|done|ulia|ulia].
    split; [done|]. unfold in_region in Hin. lia.
  - intros (Hin&->&_&_). apply checked_offset_ok; [done|ulia|done].
Qed.

Lemma checked_offset_spec_witness :
  checked_offset (mkRegion 0x200000 8192) 0x201fff 1 = Ok 8191 ∧
  no_panic (checked_offset (mkRegion 0x200000 8192) 0x202000 1).
Proof.
  split; [|apply checked_offset_spec; [by repeat split|ulia|ulia]].
  apply checked_offset_spec; [by repeat split|ulia|ulia|]. unfold in_region; simpl; lia.
Defined.

(** Region overlap is what its name says: the two ranges share an address. *)
Lemma overlaps_spec r1 r2 :
  region_wf r1 → region_wf r2 →
  ∃ b, overlaps r1 r2 = Ok b ∧
       (b = true ↔ ∃ x, (r1.(base) ≤ x < r1.(base) + r1.(region_size)) ∧
                        (r2.(base) ≤ x < r2.(base) + r2.(region_size))).
Proof.
  intros H1 H2. unfold overlaps. rewrite !region_end_ok by done. cbn.
  destruct H1 as (?&?&_), H2 as (?&?&_).
  destruct (Z.ltb_spec r1.(base) (r2.(base) + r2.(region_size))).
  - eexists. split; [done|]. rewrite Z.ltb_lt. split; [|naive_solver lia].
    intros. exists (Z.max r1.(base) r2.(base)). lia.
  - exists false. split; [done|]. naive_solver lia.
Qed.

(** * Reads and writes *)

(** The memory a successful write leaves. *)
Definition mem_set (m : GuestMemory) (a : Z) (bs : list Z) : GuestMemory :=
  if len bs =? 0 then m
  else mkMemory m.(region)
         (mkMapping (store_write m.(mapping).(bytes) (a - m.(region).(base)) bs)
                    m.(mapping).(mapping_len)).
(** The bytes a successful read returns. *)
Definition mem_get (m : GuestMemory) (a n : Z) : list Z :=
  store_read m.(mapping).(bytes) (a - m.(region).(base)) (Z.to_nat n).

Lemma write_ok m a bs :
  memory_wf m → in_region m.(region) a (len bs) → write m a bs = Ok (mem_set m a bs).
Proof.
  intros (Hr&_) Hin. unfold write, mem_set.
  rewrite checked_offset_ok by (done || apply len_nonneg). cbn. by destruct (len bs =? 0).
Qed.
Lemma write_inv m a bs m' :
  memory_wf m → 0 ≤ a → write m a bs = Ok m' → in_region m.(region) a (len bs) ∧ m' = mem_set m a bs.
Proof.
  intros (Hr&_) Ha H. unfold write in H. bind_inv H.
  apply checked_offset_inv in Hstep as [Hin ->]; [|done|done|apply len_nonneg].
  split; [done|]. unfold mem_set. destruct (len bs =? 0); naive_solver.
Qed.
Lemma read_ok m a n :
  memory_wf m → 0 ≤ n → in_region m.(region) a n → read m a n = Ok (mem_get m a n).
Proof.
  intros (Hr&_) Hn Hin. unfold read, mem_get. rewrite checked_offset_ok by done. cbn.
  by destruct (Z.eqb_spec n 0) as [->|].
Qed.
Lemma read_inv m a n bs :
  memory_wf m → 0 ≤ a → 0 ≤ n → read m a n = Ok bs → in_region m.(region) a n ∧ bs = mem_get m a n.
Proof.
  intros (Hr&_) Ha Hn H. unfold read in H. bind_inv H.
  apply checked_offset_inv in Hstep as [Hin ->]; [|done..]. split; [done|].
  unfold mem_get. destruct (Z.eqb_spec n 0) as [->|]; naive_solver.
Qed.
Lemma no_panic_write m a bs : memory_wf m → no_panic (write m a bs).
Proof.
  intros (Hr&_). unfold write.
  apply no_panic_bind; [apply no_panic_checked_offset; [done|apply len_nonneg]|].
  intros. by destruct (_ =? _).
Qed.
Lemma no_panic_read m a n : memory_wf m → 0 ≤ n → no_panic (read m a n).
Proof.
  intros (Hr&_) Hn. unfold read.
  apply no_panic_bind; [by apply no_panic_checked_offset|]. intros. by destruct (_ =? _).
Qed.

Lemma mem_set_region m a bs : (mem_set m a bs).(region) = m.(region).
Proof. unfold mem_set. by destruct (_ =? _). Qed.
Lemma mem_set_wf m a bs : memory_wf m → bytes_ok bs → memory_wf (mem_set m a bs).
Proof.
  intros (?&?&?) ?. unfold mem_set. destruct (_ =? _); [done|].
  split_and!; simpl; eauto with bytes.
Qed.
Lemma len_mem_get m a n : 0 ≤ n → len (mem_get m a n) = n.
Proof. intros. unfold mem_get. rewrite len_store_read. lia. Qed.
Lemma mem_get_ok m a n : memory_wf m → bytes_ok (mem_get m a n).
Proof. intros (_&_&?). unfold mem_get. eauto with bytes. Qed.
#[export] Hint Resolve mem_set_wf mem_get_ok no_panic_write no_panic_read : bytes.
#[export] Hint Rewrite mem_set_region : bytes.

Lemma byte_at_set_out m a bs x :
  x < a ∨ a + len bs ≤ x → byte_at (mem_set m a bs) x = byte_at m x.
Proof.
  intros. unfold byte_at, mem_set. destruct (_ =? _); [done|]. simpl.
  apply store_write_out. lia.
Qed.
Lemma byte_at_set_in m a bs x :
  a ≤ x < a + len bs → byte_at (mem_set m a bs) x = nth (Z.to_nat (x - a)) bs 0.
Proof.
  intros. unfold byte_at, mem_set. destruct (Z.eqb_spec (len bs) 0); [lia|]. simpl.
  rewrite store_write_in by lia. do 2 f_equal. lia.
Qed.
Lemma mem_get_set_same m a bs : mem_get (mem_set m a bs) a (len bs) = bs.
Proof.
  unfold mem_get, mem_set. destruct (Z.eqb_spec (len bs) 0) as [E|E]; simpl.
  - rewrite E. destruct bs; [done|]. rewrite len_cons in E. pose proof (len_nonneg bs). lia.
  - unfold len at 1. rewrite Nat2Z.id. apply store_read_write_same.
Qed.
Lemma mem_get_set_len m a bs n : len bs = n → mem_get (mem_set m a bs) a n = bs.
Proof. intros <-. apply mem_get_set_same. Qed.
Lemma mem_get_set_disjoint m a bs b n :
  0 ≤ n → b + n ≤ a ∨ a + len bs ≤ b → mem_get (mem_set m a bs) b n = mem_get m b n.
Proof.
  intros. unfold mem_get, mem_set. destruct (_ =? _); [done|]. simpl.
  apply store_read_write_disjoint. lia.
Qed.
Lemma mem_get_byte_at m a n i :
  0 ≤ i < n → nth (Z.to_nat i) (mem_get m a n) 0 = byte_at m (a + i).
Proof.
  intros. unfold mem_get, byte_at. rewrite store_read_nth by lia. f_equal. lia.
Qed.
Lemma mem_get_lookup m a n (i : nat) :
  Z.of_nat i < n → mem_get m a n !! i = Some (byte_at m (a + Z.of_nat i)).
Proof.
  intros. unfold mem_get, byte_at. rewrite store_read_lookup by lia. do 2 f_equal. lia.
Qed.
Lemma mem_get_ext m m' a n :
  m.(region) = m'.(region) → 0 ≤ n →
  (∀ x, a ≤ x < a + n → byte_at m x = byte_at m' x) → mem_get m a n = mem_get m' a n.
Proof.
  intros Hr Hn H. unfold mem_get. rewrite Hr. apply store_read_ext. intros o Ho.
  specialize (H (o + base (region m'))). unfold byte_at in H. rewrite Hr in H.
  replace (o + base (region m') - base (region m')) with o in H by lia. apply H. lia.
Qed.

(** C39: a write to guest RAM either changes nothing but the addressed bytes
    or is refused.  It succeeds exactly when its range lies in the region;
    then reading the same range returns the bytes written, reading any
    disjoint range returns what it returned before, and the memory invariant
    is kept. *)
Theorem write_read_spec m a bs :
  memory_wf m → u64 a → bytes_ok bs → usize (len bs) →
  no_panic (write m a bs) ∧
  (is_ok (write m a bs) = true ↔ in_region m.(region) a (len bs)) ∧
  ∀ m', write m a bs = Ok m' →
    memory_wf m' ∧ m'.(region) = m.(region) ∧
    read m' a (len bs) = Ok bs ∧
    ∀ b n, u64 b → usize n → b + n ≤ a ∨ a + len bs ≤ b → read m' b n = read m b n.
Proof.
  intros Hm Ha Hbs Hlen. split_and!; [by apply no_panic_write| |].
  - split.
    + destruct (write m a bs) eqn:E; [|done|done]. intros _.
      apply write_inv in E as [? _]; [done|done|ulia].
    + intros. by rewrite write_ok.
  - intros m' H. apply write_inv in H as [Hin ->]; [|done|ulia].
    split_and!; [by apply mem_set_wf|by autorewrite with bytes| |].
    + rewrite read_ok; [by rewrite mem_get_set_same|by apply mem_set_wf|apply len_nonneg|].
      by autorewrite with bytes.
    + intros b n Hb Hn Hdis. unfold read. rewrite mem_set_region.
      destruct (checked_offset (region m) b n) as [off| |] eqn:E; [|done|done]. cbn.
      apply checked_offset_inv in E as [_ ->]; [|apply Hm|ulia|ulia].
      destruct (n =? 0); [done|]. f_equal.
      pose proof (mem_get_set_disjoint m a bs b n) as Hg. unfold mem_get in Hg.
      rewrite mem_set_region in Hg. apply Hg; [ulia|done].
Qed.

Definition example_memory : GuestMemory :=
  mkMemory (mkRegion 0x200000 8192) (mkMapping (λ _, 0) 8192).
Lemma example_memory_wf : memory_wf example_memory.
Proof. split; [by repeat split|]. split; [done|]. intros o. unfold example_memory. simpl. ulia. Qed.

Lemma write_read_spec_witness :
  ∃ m', write example_memory 0x200010 [1; 2; 3] = Ok m' ∧ read m' 0x200010 3 = Ok [1; 2; 3].
Proof.
  destruct (write_read_spec example_memory 0x200010 [1; 2; 3]) as (_ & _ & H).
  - apply example_memory_wf.
  - ulia.
  - repeat constructor; ulia.
  - rewrite !len_cons, len_nil. ulia.
  - eexists. split; [vm_compute; reflexivity|].
    refine (proj1 (proj2 (proj2 (H _ _)))). vm_compute. reflexivity.
Defined.

(** * Memory as a mutable object

    [GuestMemory::write] behind a [&mut GuestMemory]: a refused write leaves
    the memory as it was. *)
Definition write_mut (a : GuestPhysAddr) (bs : list Z) : prog GuestMemory Error unit := λ m,
  match write m a bs with
  | Ok m' => (Ok tt, m')
  | Err e => (Err e, m)
  | Panic => (Panic, m)
  end.

Lemma write_mut_ok m a bs :
  memory_wf m → in_region m.(region) a (len bs) → write_mut a bs m = (Ok tt, mem_set m a bs).
Proof. intros. unfold write_mut. by rewrite write_ok. Qed.

(** A little-endian [u64] in guest RAM. *)
Definition u64_at (m : GuestMemory) (a : Z) : Z := from_le_bytes (mem_get m a 8).

Lemma u64_at_set_same m a v : u64 v → u64_at (mem_set m a (to_le_bytes 8 v)) a = v.
Proof.
  intros Hv. unfold u64_at. change 8 with (Z.of_nat 8).
  rewrite <- (len_to_le_bytes 8 v) at 1. rewrite mem_get_set_same.
  by apply from_to_le_bytes.
Qed.
Lemma u64_at_set_disjoint m b bs a :
  a + 8 ≤ b ∨ b + len bs ≤ a → u64_at (mem_set m b bs) a = u64_at m a.
Proof. intros. unfold u64_at. by rewrite mem_get_set_disjoint by lia. Qed.
Lemma from_le_bytes_zeros n : from_le_bytes (replicate n 0) = 0.
Proof. induction n as [|n IH]; [done|]. cbn [replicate from_le_bytes]. lia. Qed.
Lemma nth_zeros n i : nth i (replicate n 0) 0 = 0.
Proof. revert i. induction n; intros [|i]; simpl; auto. Qed.
Lemma mem_get_set_inside m a bs b n :
  a ≤ b → 0 ≤ n → b + n ≤ a + len bs →
  mem_get (mem_set m a bs) b n = take (Z.to_nat n) (drop (Z.to_nat (b - a)) bs).
Proof.
  unfold len. intros. apply list_eq. intros i. destruct (decide (Z.of_nat i < n)).
  - rewrite mem_get_lookup, byte_at_set_in by (unfold len; lia).
    rewrite lookup_take_lt, lookup_drop by lia.
    destruct (lookup_lt_is_Some_2 bs (Z.to_nat (b - a) + i)) as [x Hx]; [lia|]. rewrite Hx. f_equal.
    replace (Z.to_nat (b + Z.of_nat i - a)) with (Z.to_nat (b - a) + i)%nat by lia.
    by apply nth_lookup_Some.
  - rewrite !lookup_ge_None_2; [done| |].
    + rewrite length_take. lia.
    + unfold mem_get. rewrite length_store_read. lia.
Qed.
Lemma mem_get_set_zeros m b n a k :
  b ≤ a → a + Z.of_nat k ≤ b + Z.of_nat n →
  mem_get (mem_set m b (replicate n 0)) a (Z.of_nat k) = replicate k 0.
Proof.
  intros. rewrite mem_get_set_inside by (rewrite ?len_replicate; lia).
  rewrite drop_replicate, take_replicate. f_equal. lia.
Qed.
Lemma u64_at_set_zeros m b n a :
  b ≤ a → a + 8 ≤ b + Z.of_nat n → u64_at (mem_set m b (replicate n 0)) a = 0.
Proof.
  intros. unfold u64_at. change 8 with (Z.of_nat 8). rewrite mem_get_set_zeros by lia.
  apply from_le_bytes_zeros.
Qed.
