(* ===== verification/Loader.v ===== *)
(** Flat guest images: [FlatGuestImage] of [src/src/loader.rs]. *)

From S2P Require Import Prelude Errors Memory.

Record FlatGuestImage := mkFlat {
  load_address : GuestPhysAddr;
  flat_entry : GuestPhysAddr;
  flat_bytes : list Z
}.

(** [FlatGuestImage::new]. *)
Definition flat_new (load_addr entry : GuestPhysAddr) (bs : list Z) : res Error FlatGuestImage :=
  _ ← err_if (len bs =? 0) (GuestImage EmptyFlatBinary);
  length_u64 ← ok_or (try_from 64 (len bs)) (GuestImage (ImageLengthTooLarge (len bs)));
  image_end ← ok_or (checked_add 64 load_addr length_u64)
                (GuestImage (ImageRangeOverflow load_addr (len bs)));
  _ ← err_if ((entry <? load_addr) || (image_end <=? entry))
        (GuestImage (EntryOutsideImage entry load_addr (len bs)));
  Ok (mkFlat load_addr entry bs).

(** [FlatGuestImage::load]. *)
Definition flat_load (image : FlatGuestImage) (m : GuestMemory) : res Error GuestMemory :=
  write m image.(load_address) image.(flat_bytes).

(** A flat image that validates is loaded byte for byte.  [new] never
    panics and accepts exactly the non-empty images whose end fits in 64 bits
    and whose entry is one of their bytes; [load] then succeeds exactly when
    the image lies in RAM, after which the image range reads back as the
    image, every other byte of RAM is unchanged, and the byte at the entry
    point is the image byte the entry selects. *)
Theorem flat_image_spec load_addr entry bs m :
  memory_wf m → u64 load_addr → u64 entry → bytes_ok bs → usize (len bs) →
  no_panic (flat_new load_addr entry bs) ∧
  (is_ok (flat_new load_addr entry bs) = true ↔
     load_addr ≤ entry < load_addr + len bs ∧ load_addr + len bs < 2 ^ 64) ∧
  ∀ image, flat_new load_addr entry bs = Ok image →
    (is_ok (flat_load image m) = true ↔ in_region m.(region) load_addr (len bs)) ∧
    ∀ m', flat_load image m = Ok m' →
      memory_wf m' ∧ read m' load_addr (len bs) = Ok bs ∧
      (∀ x, x < load_addr ∨ load_addr + len bs ≤ x → byte_at m' x = byte_at m x) ∧
      byte_at m' entry = nth (Z.to_nat (entry - load_addr)) bs 0.
Proof.
  intros Hm Hl He Hbs Hlen. split_and!.
  - unfold flat_new. repeat (apply no_panic_bind; [auto with panics|intros]). done.
  - unfold flat_new. pose proof (len_nonneg bs). res_cases; split; (done || ulia).
  - intros image H. unfold flat_new in H. bind_inv H. arith_inv.
    unfold flat_load; simpl. split.
    + split; [|intros; by rewrite write_ok].
      destruct (write m load_addr bs) eqn:E; [|done|done]. intros _.
      apply write_inv in E as [? _]; [done|done|ulia].
    + intros m' Hw. apply write_inv in Hw as [Hin ->]; [|done|ulia]. split_and!.
      * by apply mem_set_wf.
      * rewrite read_ok; [by rewrite mem_get_set_same|by apply mem_set_wf|apply len_nonneg|].
        by autorewrite with bytes.
      * intros. by apply byte_at_set_out.
      * by apply byte_at_set_in.
Qed.

Lemma flat_image_spec_witness :
  ∃ m', flat_load (mkFlat 0x200100 0x200101 [0x90; 0xf4]) example_memory = Ok m' ∧
        read m' 0x200100 2 = Ok [0x90; 0xf4] ∧ byte_at m' 0x200101 = 0xf4.
Proof.
  destruct (flat_image_spec 0x200100 0x200101 [0x90; 0xf4] example_memory)
    as (_ & _ & H).
  - apply example_memory_wf.
  - ulia.
  - ulia.
  - repeat constructor; ulia.
  - rewrite !len_cons, len_nil. ulia.
  - destruct (H (mkFlat 0x200100 0x200101 [0x90; 0xf4]) ltac:(reflexivity)) as [_ Hl].
    eexists. split; [vm_compute; reflexivity|].
    edestruct Hl as (_ & Hr & _ & He); [vm_compute; reflexivity|]. split; [exact Hr|exact He].
Defined.
