(* ===== verification/LongMode.v ===== *)
(** The long-mode boot layout of [src/src/long_mode.rs]: validation of RAM, entry,
    stack and alias mappings, and the four page-table pages it installs.  The
    page tables are checked against a reference four-level walk. *)

From S2P Require Import Prelude Errors Memory.

Definition LONG_MODE_PAGE_SIZE : Z := 4096.
Definition LONG_MODE_IDENTITY_MAP_SIZE : Z := 2 * 1024 * 1024.
Definition LONG_MODE_ALIAS_VIRTUAL_BASE : Z := 0x400000.
Definition LONG_MODE_ALIAS_VIRTUAL_SIZE : Z := 2 * 1024 * 1024.
Definition LONG_MODE_ALIAS_VIRTUAL_END : Z :=
  LONG_MODE_ALIAS_VIRTUAL_BASE + LONG_MODE_ALIAS_VIRTUAL_SIZE.
Definition LONG_MODE_PML4_ADDR : GuestPhysAddr := 0x1000.
Definition LONG_MODE_PDPT_ADDR : GuestPhysAddr := 0x2000.
Definition LONG_MODE_PD_ADDR : GuestPhysAddr := 0x3000.
Definition LONG_MODE_ALIAS_PT_ADDR : GuestPhysAddr := 0x4000.
Definition LONG_MODE_PAGE_TABLE_END : GuestPhysAddr := 0x5000.
Definition PAGE_PRESENT : Z := Z.shiftl 1 0.
Definition PAGE_WRITABLE : Z := Z.shiftl 1 1.
Definition PAGE_SIZE_2_MIB : Z := Z.shiftl 1 7.
Definition PAGE_TABLE_ENTRY_FLAGS : Z := Z.lor PAGE_PRESENT PAGE_WRITABLE.
Definition LARGE_PAGE_ENTRY_FLAGS : Z := Z.lor PAGE_TABLE_ENTRY_FLAGS PAGE_SIZE_2_MIB.
Definition ALIAS_PD_INDEX : Z := LONG_MODE_ALIAS_VIRTUAL_BASE / LONG_MODE_IDENTITY_MAP_SIZE.

Record LongModePageMapping := mkPageMapping {
  virtual_page : Z;
  physical_page : GuestPhysAddr
}.
#[global] Instance LongModePageMapping_eq_dec : EqDecision LongModePageMapping.
Proof. solve_decision. Defined.

Inductive LongModeConfigurationError :=
  | RamMustStartAtZero (base : Z)
  | RamTooSmall (size minimum : Z)
  | EntryOutsideIdentityMap (entry mapped_size : Z)
  | EntryOutsideMappedRanges (entry : Z)
  | EntryOverlapsPageTables (entry : Z)
  | EntryPageNotMapped (entry virtual_page : Z)
  | StackPointerOutsideIdentityMap (stack_pointer mapped_size : Z)
  | StackPointerOverlapsPageTables (stack_pointer : Z)
  | MappingVirtualPageMisaligned (virtual_page : Z)
  | MappingOutsideAliasWindow (virtual_page : Z)
  | MappingPhysicalPageMisaligned (physical_page : Z)
  | MappingPhysicalPageOutsideRam (physical_page : Z)
  | MappingPhysicalPageOverlapsPageTables (physical_page : Z)
  | DuplicateVirtualPage (virtual_page : Z).

Record LongModeBootLayout := mkLayout {
  layout_memory : GuestMemoryRegion;
  layout_entry : Z;
  stack_pointer : Z;
  page_mappings : list LongModePageMapping
}.

Definition align_down_page (address : Z) : Z :=
  Z.land address (unot 64 (LONG_MODE_PAGE_SIZE - 1)).
Definition is_page_table_address (address : Z) : bool :=
  (LONG_MODE_PML4_ADDR <=? address) && (address <? LONG_MODE_PAGE_TABLE_END).
Definition ranges_overlap (first_start first_end second_start second_end : Z) : bool :=
  (first_start <? second_end) && (second_start <? first_end).

Definition validate_memory_and_stack (memory : GuestMemoryRegion) (sp : Z)
    : res LongModeConfigurationError unit :=
  _ ← err_if (negb (memory.(base) =? 0)) (RamMustStartAtZero memory.(base));
  _ ← err_if (memory.(region_size) <? LONG_MODE_IDENTITY_MAP_SIZE)
        (RamTooSmall memory.(region_size) LONG_MODE_IDENTITY_MAP_SIZE);
  _ ← err_if ((sp =? 0) || (LONG_MODE_IDENTITY_MAP_SIZE <? sp))
        (StackPointerOutsideIdentityMap sp LONG_MODE_IDENTITY_MAP_SIZE);
  err_if ((LONG_MODE_PML4_ADDR <? sp) && (sp <=? LONG_MODE_PAGE_TABLE_END))
    (StackPointerOverlapsPageTables sp).

(** The body of the loop of [validate_page_mappings]; [previous] is
    [page_mappings[..index]]. *)
Definition validate_page_mapping (previous : list LongModePageMapping)
    (mapping : LongModePageMapping) : res LongModeConfigurationError unit :=
  _ ← err_if (negb (mapping.(virtual_page) mod LONG_MODE_PAGE_SIZE =? 0))
        (MappingVirtualPageMisaligned mapping.(virtual_page));
  _ ← err_if ((mapping.(virtual_page) <? LONG_MODE_ALIAS_VIRTUAL_BASE)
              || (LONG_MODE_ALIAS_VIRTUAL_END <=? mapping.(virtual_page)))
        (MappingOutsideAliasWindow mapping.(virtual_page));
  _ ← err_if (negb (mapping.(physical_page) mod LONG_MODE_PAGE_SIZE =? 0))
        (MappingPhysicalPageMisaligned mapping.(physical_page));
  physical_end ← ok_or (checked_add 64 mapping.(physical_page) LONG_MODE_PAGE_SIZE)
                   (MappingPhysicalPageOutsideRam mapping.(physical_page));
  _ ← err_if (LONG_MODE_IDENTITY_MAP_SIZE <? physical_end)
        (MappingPhysicalPageOutsideRam mapping.(physical_page));
  _ ← err_if (ranges_overlap mapping.(physical_page) physical_end
                LONG_MODE_PML4_ADDR LONG_MODE_PAGE_TABLE_END)
        (MappingPhysicalPageOverlapsPageTables mapping.(physical_page));
  err_if (existsb (λ p, p.(virtual_page) =? mapping.(virtual_page)) previous)
    (DuplicateVirtualPage mapping.(virtual_page)).

Fixpoint validate_page_mappings_from (previous rest : list LongModePageMapping)
    : res LongModeConfigurationError unit :=
  match rest with
  | [] => Ok tt
  | mapping :: rest =>
      _ ← validate_page_mapping previous mapping;
      validate_page_mappings_from (previous ++ [mapping]) rest
  end.
Definition validate_page_mappings (ms : list LongModePageMapping)
    : res LongModeConfigurationError unit :=
  validate_page_mappings_from [] ms.

(** [LongModeBootLayout::new]. *)
Definition layout_new (memory : GuestMemoryRegion) (entry : GuestPhysAddr) (sp : Z)
    : res LongModeConfigurationError LongModeBootLayout :=
  _ ← validate_memory_and_stack memory sp;
  _ ← err_if (LONG_MODE_IDENTITY_MAP_SIZE <=? entry)
        (EntryOutsideIdentityMap entry LONG_MODE_IDENTITY_MAP_SIZE);
  _ ← err_if (is_page_table_address entry) (EntryOverlapsPageTables entry);
  Ok (mkLayout memory entry sp []).

(** The entry check of [LongModeBootLayout::with_page_mappings]. *)
Definition check_mapped_entry (ms : list LongModePageMapping) (entry : Z)
    : res LongModeConfigurationError unit :=
  if entry <? LONG_MODE_IDENTITY_MAP_SIZE then
    err_if (is_page_table_address entry) (EntryOverlapsPageTables entry)
  else if (LONG_MODE_ALIAS_VIRTUAL_BASE <=? entry) && (entry <? LONG_MODE_ALIAS_VIRTUAL_END)
  then
    let vpage := align_down_page entry in
    err_if (negb (existsb (λ mapping, mapping.(virtual_page) =? vpage) ms))
      (EntryPageNotMapped entry vpage)
  else Err (EntryOutsideMappedRanges entry).

(** [LongModeBootLayout::with_page_mappings]. *)
Definition with_page_mappings (memory : GuestMemoryRegion) (entry sp : Z)
    (ms : list LongModePageMapping) : res LongModeConfigurationError LongModeBootLayout :=
  _ ← validate_memory_and_stack memory sp;
  _ ← validate_page_mappings ms;
  _ ← check_mapped_entry ms entry;
  Ok (mkLayout memory entry sp ms).

(** [write_u64] of [src/src/long_mode.rs]. *)
Definition write_u64 (address : GuestPhysAddr) (value : Z) : prog GuestMemory Error unit :=
  write_mut address (to_le_bytes 8 value).

(** The alias PTE loop of [install_page_tables]. *)
Fixpoint install_mappings (ms : list LongModePageMapping) : prog GuestMemory Error unit :=
  match ms with
  | [] => mret tt
  | mapping :: ms =>
      distance ← lift (usub mapping.(virtual_page) LONG_MODE_ALIAS_VIRTUAL_BASE);
      index ← lift (udiv distance LONG_MODE_PAGE_SIZE);
      scaled ← lift (umul 64 index 8);
      address ← lift (uadd 64 LONG_MODE_ALIAS_PT_ADDR scaled);
      _ ← write_u64 address (Z.lor mapping.(physical_page) PAGE_TABLE_ENTRY_FLAGS);
      install_mappings ms
  end.

(** [LongModeBootLayout::install_page_tables]. *)
Definition install_page_tables (layout : LongModeBootLayout) : prog GuestMemory Error unit :=
  _ ← reading (λ m, debug_assert (bool_decide (m.(region) = layout.(layout_memory))));
  let zero_page := replicate (Z.to_nat LONG_MODE_PAGE_SIZE) 0 in
  _ ← write_mut LONG_MODE_PML4_ADDR zero_page;
  _ ← write_mut LONG_MODE_PDPT_ADDR zero_page;
  _ ← write_mut LONG_MODE_PD_ADDR zero_page;
  _ ← write_mut LONG_MODE_ALIAS_PT_ADDR zero_page;
  _ ← write_u64 LONG_MODE_PML4_ADDR (Z.lor LONG_MODE_PDPT_ADDR PAGE_TABLE_ENTRY_FLAGS);
  _ ← write_u64 LONG_MODE_PDPT_ADDR (Z.lor LONG_MODE_PD_ADDR PAGE_TABLE_ENTRY_FLAGS);
  _ ← write_u64 LONG_MODE_PD_ADDR LARGE_PAGE_ENTRY_FLAGS;
  match layout.(page_mappings) with
  | [] => mret tt
  | _ =>
      _ ← write_u64 (LONG_MODE_PD_ADDR + ALIAS_PD_INDEX * 8)
            (Z.lor LONG_MODE_ALIAS_PT_ADDR PAGE_TABLE_ENTRY_FLAGS);
      install_mappings layout.(page_mappings)
  end.

(** ** The reference: a four-level x86-64 page walk

    Bit 0 of an entry is present, bit 7 a large page at the third level, bits
    51..12 the address of the next table or page. *)
Definition entry_present (e : Z) : bool := Z.odd e.
Definition entry_large (e : Z) : bool := Z.odd (e / 128).
Definition entry_address (e : Z) : Z := e mod 2 ^ 52 / 4096 * 4096.
Definition entry_address_2m (e : Z) : Z := e mod 2 ^ 52 / 2 ^ 21 * 2 ^ 21.
Definition table_entry (m : GuestMemory) (table index : Z) : Z := u64_at m (table + 8 * index).

Definition walk (m : GuestMemory) (cr3 va : Z) : option Z :=
  let pml4e := table_entry m (entry_address cr3) (va / 2 ^ 39 mod 512) in
  if negb (entry_present pml4e) then None else
  let pdpte := table_entry m (entry_address pml4e) (va / 2 ^ 30 mod 512) in
  if negb (entry_present pdpte) then None else
  if entry_large pdpte then Some (pdpte mod 2 ^ 52 / 2 ^ 30 * 2 ^ 30 + va mod 2 ^ 30) else
  let pde := table_entry m (entry_address pdpte) (va / 2 ^ 21 mod 512) in
  if negb (entry_present pde) then None else
  if entry_large pde then Some (entry_address_2m pde + va mod 2 ^ 21) else
  let pte := table_entry m (entry_address pde) (va / 4096 mod 512) in
  if negb (entry_present pte) then None else
  Some (entry_address pte + va mod 4096).

(** ** The abstract specification: the address map a layout promises *)
Definition lookup_page (ms : list LongModePageMapping) (vpage : Z) : option GuestPhysAddr :=
  physical_page <$> head (filter (λ mapping, mapping.(virtual_page) = vpage) ms).
Definition translate (ms : list LongModePageMapping) (va : Z) : option Z :=
  if va <? LONG_MODE_IDENTITY_MAP_SIZE then Some va
  else (λ p, p + va mod 4096) <$> lookup_page ms (va / 4096 * 4096).

(** ** Invariants of mappings and layouts *)
Definition mapping_wf (mapping : LongModePageMapping) : Prop :=
  mapping.(virtual_page) mod 4096 = 0 ∧
  LONG_MODE_ALIAS_VIRTUAL_BASE ≤ mapping.(virtual_page) < LONG_MODE_ALIAS_VIRTUAL_END ∧
  mapping.(physical_page) mod 4096 = 0 ∧
  0 ≤ mapping.(physical_page) ∧
  mapping.(physical_page) + 4096 ≤ LONG_MODE_IDENTITY_MAP_SIZE ∧
  (mapping.(physical_page) + 4096 ≤ LONG_MODE_PML4_ADDR ∨
   LONG_MODE_PAGE_TABLE_END ≤ mapping.(physical_page)).
Definition mappings_wf (ms : list LongModePageMapping) : Prop :=
  Forall mapping_wf ms ∧ NoDup (virtual_page <$> ms).

(** What the page tables themselves need of a mapping: an aligned virtual page of the alias window
    and an aligned physical page of a 64-bit entry. *)
Definition mapping_fits (mapping : LongModePageMapping) : Prop :=
  mapping.(virtual_page) mod 4096 = 0 ∧
  LONG_MODE_ALIAS_VIRTUAL_BASE ≤ mapping.(virtual_page) < LONG_MODE_ALIAS_VIRTUAL_END ∧
  mapping.(physical_page) mod 4096 = 0 ∧ 0 ≤ mapping.(physical_page) < 2 ^ 64.
Definition mappings_fit (ms : list LongModePageMapping) : Prop :=
  Forall mapping_fits ms ∧ NoDup (virtual_page <$> ms).

Definition memory_and_stack_wf (memory : GuestMemoryRegion) (sp : Z) : Prop :=
  memory.(base) = 0 ∧ LONG_MODE_IDENTITY_MAP_SIZE ≤ memory.(region_size) ∧
  0 < sp ≤ LONG_MODE_IDENTITY_MAP_SIZE ∧
  (sp ≤ LONG_MODE_PML4_ADDR ∨ LONG_MODE_PAGE_TABLE_END < sp).

(** The entry point is an address the layout maps, outside its page tables. *)
Definition entry_wf (ms : list LongModePageMapping) (entry : Z) : Prop :=
  (entry < LONG_MODE_IDENTITY_MAP_SIZE ∧
   (entry < LONG_MODE_PML4_ADDR ∨ LONG_MODE_PAGE_TABLE_END ≤ entry)) ∨
  (LONG_MODE_ALIAS_VIRTUAL_BASE ≤ entry < LONG_MODE_ALIAS_VIRTUAL_END ∧
   entry / 4096 * 4096 ∈ virtual_page <$> ms).

Definition layout_wf (layout : LongModeBootLayout) : Prop :=
  memory_and_stack_wf layout.(layout_memory) layout.(stack_pointer) ∧
  mappings_wf layout.(page_mappings) ∧ entry_wf layout.(page_mappings) layout.(layout_entry).

Definition mapping_u64 (mapping : LongModePageMapping) : Prop :=
  u64 mapping.(virtual_page) ∧ u64 mapping.(physical_page).

(** [longmode_consts] computes with the constants of the layout. *)
Ltac longmode_consts :=
  unfold LONG_MODE_PAGE_SIZE, LONG_MODE_IDENTITY_MAP_SIZE, LONG_MODE_ALIAS_VIRTUAL_END,
    LONG_MODE_ALIAS_VIRTUAL_BASE, LONG_MODE_ALIAS_VIRTUAL_SIZE, LONG_MODE_PML4_ADDR,
    LONG_MODE_PDPT_ADDR, LONG_MODE_PD_ADDR, LONG_MODE_ALIAS_PT_ADDR,
    LONG_MODE_PAGE_TABLE_END, GuestPhysAddr in *.

(** * Validation *)

Lemma align_down_page_eq a : u64 a → align_down_page a = a / 4096 * 4096.
Proof.
  intros. unfold align_down_page, LONG_MODE_PAGE_SIZE.
  change (4096 - 1) with (Z.ones 12). by rewrite land_unot_ones by (done || lia).
Qed.

Lemma is_ok_err_if {E} b (e : E) : is_ok (err_if b e) = negb b.
Proof. by destruct b. Qed.

Lemma validate_memory_and_stack_ok memory sp :
  region_wf memory → u64 sp →
  validate_memory_and_stack memory sp = Ok tt ↔ memory_and_stack_wf memory sp.
Proof.
  intros (?&?&_) ?. unfold validate_memory_and_stack, memory_and_stack_wf. longmode_consts.
  split.
  - intros Hv. bind_inv Hv. apply andb_false_iff in Hv.
    rewrite !Z.ltb_ge, !Z.leb_gt in Hv. ulia.
  - intros (?&?&?&?). zcmp. cbn.
    destruct (Z.ltb_spec 4096 sp), (Z.leb_spec sp 20480); done || lia.
Qed.

Lemma existsb_virtual_page ms v :
  existsb (λ p, p.(virtual_page) =? v) ms = true ↔ v ∈ virtual_page <$> ms.
Proof.
  rewrite existsb_exists, list_elem_of_fmap. setoid_rewrite list_elem_of_In.
  split; intros (x&?&?); exists x; rewrite Z.eqb_eq in *; naive_solver.
Qed.

Lemma validate_page_mapping_ok previous mapping :
  mapping_u64 mapping →
  validate_page_mapping previous mapping = Ok tt ↔
  mapping_wf mapping ∧ mapping.(virtual_page) ∉ virtual_page <$> previous.
Proof.
  intros [??]. unfold validate_page_mapping, mapping_wf, ranges_overlap. longmode_consts. split.
  - intros Hv. bind_inv Hv. arith_inv.
    rewrite <- existsb_virtual_page. apply andb_false_iff in Hstep4.
    rewrite !Z.ltb_ge in Hstep4. rewrite Hv. ulia.
  - intros [(Hv&?&Hp&?&?&?) Hd]. rewrite <- existsb_virtual_page in Hd.
    apply not_true_is_false in Hd. rewrite Hv, Hp, Hd.
    rewrite (proj2 (checked_add_Some 64 (physical_page mapping) 4096 _)) by (split; [done|lia]).
    cbn -[Z.ltb Z.leb]. zcmp. cbn -[Z.ltb]. zcmp. cbn -[Z.ltb].
    by destruct (Z.ltb_spec (physical_page mapping) 20480),
      (Z.ltb_spec 4096 (physical_page mapping + 4096)); try lia.
Qed.

Lemma validate_page_mappings_from_ok previous ms :
  Forall mapping_u64 ms →
  validate_page_mappings_from previous ms = Ok tt ↔
  Forall mapping_wf ms ∧ NoDup (virtual_page <$> ms) ∧
  ∀ v, v ∈ virtual_page <$> ms → v ∉ virtual_page <$> previous.
Proof.
  intros Hu. revert previous. induction Hu as [|mapping ms Hm Hms IH]; intros previous.
  - split; [|done]. intros _. split_and!; [constructor..|]. intros v Hv. by apply not_elem_of_nil in Hv.
  - cbn [validate_page_mappings_from fmap list_fmap].
    rewrite Forall_cons, NoDup_cons. setoid_rewrite elem_of_cons. split.
    + intros Hv. bind_inv Hv. apply validate_page_mapping_ok in Hstep as [??]; [|done].
      apply IH in Hv as (?&?&Hd). setoid_rewrite fmap_app in Hd. setoid_rewrite not_elem_of_app in Hd.
      split_and!; [done|done| |done|].
      * intros Hin. destruct (Hd _ Hin) as [_ []]. apply list_elem_of_singleton. done.
      * intros v [->|Hin]; [done|]. by apply Hd.
    + intros ((?&?)&(?&?)&Hd).
      rewrite (proj2 (validate_page_mapping_ok previous mapping Hm)) by (split; [done|eauto]).
      cbn. apply IH. split_and!; [done|done|]. intros v Hv. rewrite fmap_app, not_elem_of_app.
      split; [eauto|]. intros Heq%list_elem_of_singleton. by simplify_eq/=.
Qed.
Lemma validate_page_mappings_ok ms :
  Forall mapping_u64 ms → validate_page_mappings ms = Ok tt ↔ mappings_wf ms.
Proof.
  intros. unfold validate_page_mappings, mappings_wf.
  rewrite validate_page_mappings_from_ok by done. split; [naive_solver|].
  intros [??]. split_and!; [done..|]. intros v _. apply not_elem_of_nil.
Qed.
Lemma no_panic_validate_page_mappings ms : no_panic (validate_page_mappings ms).
Proof.
  unfold validate_page_mappings. generalize ([] : list LongModePageMapping).
  induction ms as [|mapping ms IH]; intros previous; cbn; [done|].
  apply no_panic_bind; [|eauto]. unfold validate_page_mapping.
  repeat (apply no_panic_bind; [auto with panics|intros]). auto with panics.
Qed.
Lemma no_panic_validate_memory_and_stack memory sp :
  no_panic (validate_memory_and_stack memory sp).
Proof.
  unfold validate_memory_and_stack.
  repeat (apply no_panic_bind; [auto with panics|intros]). auto with panics.
Qed.
#[export] Hint Resolve no_panic_validate_page_mappings no_panic_validate_memory_and_stack : panics.

Lemma check_mapped_entry_ok ms entry :
  u64 entry → check_mapped_entry ms entry = Ok tt ↔ entry_wf ms entry.
Proof.
  intros He. unfold check_mapped_entry, is_page_table_address, entry_wf. cbn zeta.
  rewrite align_down_page_eq by done. rewrite <- existsb_virtual_page. longmode_consts.
  destruct (existsb _ _); unfold err_if; cbn -[Z.ltb Z.leb]; repeat case_match;
    split; intros; res_simplify; try done;
    repeat match goal with
    | H : (_ && _) = false |- _ => apply andb_false_iff in H; rewrite ?Z.ltb_ge, ?Z.leb_gt in H
    end; naive_solver ulia.
Qed.

Lemma with_page_mappings_ok memory entry sp ms :
  region_wf memory → u64 entry → u64 sp → Forall mapping_u64 ms →
  layout_wf (mkLayout memory entry sp ms) →
  with_page_mappings memory entry sp ms = Ok (mkLayout memory entry sp ms).
Proof.
  intros Hr He Hsp Hms (H1&H2&H3). unfold with_page_mappings.
  cbn [layout_memory layout_entry stack_pointer page_mappings] in *.
  apply validate_memory_and_stack_ok in H1 as ->; [|done..].
  apply validate_page_mappings_ok in H2 as ->; [|done..].
  by apply check_mapped_entry_ok in H3 as ->.
Qed.

Lemma no_panic_layout_new memory entry sp : no_panic (layout_new memory entry sp).
Proof. unfold layout_new. repeat (apply no_panic_bind; [auto with panics|intros]). done. Qed.
#[export] Hint Resolve no_panic_layout_new : panics.
Lemma layout_new_ok memory entry sp layout :
  region_wf memory → u64 entry → u64 sp →
  layout_new memory entry sp = Ok layout ↔ layout = mkLayout memory entry sp [] ∧ layout_wf layout.
Proof.
  intros Hr He Hsp. unfold layout_new. split.
  - intros H. apply bind_Ok_inv in H as ([]&H1%validate_memory_and_stack_ok&H); [|done..].
    bind_inv H. split; [done|]. split_and!; [done|split; constructor|].
    left. unfold is_page_table_address in *. apply andb_false_iff in Hstep0.
    simpl. rewrite Z.leb_gt, Z.ltb_ge in Hstep0. ulia.
  - intros [-> (H1%validate_memory_and_stack_ok&_&H3)]; [|done..]. simpl in *. rewrite H1. cbn -[Z.leb].
    unfold is_page_table_address. destruct H3 as [[??]|[_ ?%not_elem_of_nil]]; [|done].
    zcmp. cbn -[Z.leb Z.ltb]. destruct (Z.leb_spec LONG_MODE_PML4_ADDR entry),
      (Z.ltb_spec entry LONG_MODE_PAGE_TABLE_END); done || lia.
Qed.

(** [LongModeBootLayout::with_page_mappings] never panics and accepts
    exactly the well-formed layouts: RAM from address zero covering the 2 MiB
    identity map, a stack top inside it and off the page tables, page-aligned
    alias mappings inside the alias window with distinct virtual pages whose
    physical pages avoid the page tables, and an entry point that the layout
    itself maps. *)
Theorem with_page_mappings_spec memory entry sp ms :
  region_wf memory → u64 entry → u64 sp → Forall mapping_u64 ms →
  no_panic (with_page_mappings memory entry sp ms) ∧
  ∀ layout, with_page_mappings memory entry sp ms = Ok layout ↔
            layout = mkLayout memory entry sp ms ∧ layout_wf layout.
Proof.
  intros Hr He Hsp Hms. split.
  - unfold with_page_mappings. repeat (apply no_panic_bind; [auto with panics|intros]); [|done].
    unfold check_mapped_entry. repeat case_match; auto with panics.
  - intros layout. split.
    + intros H. unfold with_page_mappings in H.
      apply bind_Ok_inv in H as ([]&H1&H). apply bind_Ok_inv in H as ([]&H2&H).
      apply bind_Ok_inv in H as ([]&H3&[= <-]). split; [done|].
      by rewrite validate_memory_and_stack_ok, validate_page_mappings_ok, check_mapped_entry_ok
        in * by done.
    + intros [-> Hwf]. by apply with_page_mappings_ok.
Qed.

Lemma with_page_mappings_spec_witness :
  ∃ layout, with_page_mappings (mkRegion 0 0x200000) 0x400010 0x200000
              [mkPageMapping 0x400000 0x10000] = Ok layout ∧ layout_wf layout.
Proof.
  destruct (with_page_mappings_spec (mkRegion 0 0x200000) 0x400010 0x200000
              [mkPageMapping 0x400000 0x10000]) as [_ H].
  - by repeat split.
  - ulia.
  - ulia.
  - repeat constructor; simpl; lia.
  - eexists. split; [vm_compute; reflexivity|]. eapply H. vm_compute. reflexivity.
Defined.

(** * The installed page tables *)

(** What the alias loop leaves in memory. *)
Definition pte_address (vpage : Z) : Z :=
  LONG_MODE_ALIAS_PT_ADDR + (vpage - LONG_MODE_ALIAS_VIRTUAL_BASE) / 4096 * 8.
Definition set_u64 (m : GuestMemory) (a v : Z) : GuestMemory := mem_set m a (to_le_bytes 8 v).
Definition set_mapping (m : GuestMemory) (mapping : LongModePageMapping) : GuestMemory :=
  set_u64 m (pte_address mapping.(virtual_page)) (Z.lor mapping.(physical_page) PAGE_TABLE_ENTRY_FLAGS).
Definition zero_page_at (m : GuestMemory) (a : Z) : GuestMemory :=
  mem_set m a (replicate (Z.to_nat LONG_MODE_PAGE_SIZE) 0).

(** Memories that differ at most in the page-table window. *)
Definition table_window (m m' : GuestMemory) : Prop :=
  m'.(region) = m.(region) ∧ (memory_wf m → memory_wf m') ∧
  ∀ x, x < LONG_MODE_PML4_ADDR ∨ LONG_MODE_PAGE_TABLE_END ≤ x → byte_at m' x = byte_at m x.
#[global] Instance table_window_preorder : PreOrder table_window.
Proof.
  split; [intros m; by split_and!|]. intros m1 m2 m3 (H1&H2&H3) (H4&H5&H6).
  split_and!; [congruence|auto|]. intros x Hx. rewrite H6 by done. by apply H3.
Qed.
Lemma table_window_set m a bs :
  LONG_MODE_PML4_ADDR ≤ a → a + len bs ≤ LONG_MODE_PAGE_TABLE_END → bytes_ok bs →
  table_window m (mem_set m a bs).
Proof.
  intros. split_and!; [apply mem_set_region|eauto with bytes|].
  intros. apply byte_at_set_out. lia.
Qed.

Lemma set_u64_window m a v :
  LONG_MODE_PML4_ADDR ≤ a → a + 8 ≤ LONG_MODE_PAGE_TABLE_END → table_window m (set_u64 m a v).
Proof.
  intros. apply table_window_set; autorewrite with bytes; eauto with bytes.
Qed.
Lemma zero_page_window m a :
  LONG_MODE_PML4_ADDR ≤ a → a + 4096 ≤ LONG_MODE_PAGE_TABLE_END → table_window m (zero_page_at m a).
Proof.
  intros. apply table_window_set; [done| |apply bytes_ok_replicate; ulia].
  unfold LONG_MODE_PAGE_SIZE. by rewrite len_replicate, Z2Nat.id by lia.
Qed.

(** A memory whose region covers the page-table window. *)
Definition tables_fit (m : GuestMemory) : Prop :=
  memory_wf m ∧ m.(region).(base) = 0 ∧ LONG_MODE_IDENTITY_MAP_SIZE ≤ m.(region).(region_size).
Lemma table_window_fit m m' : table_window m m' → tables_fit m → tables_fit m'.
Proof. intros (Hr&Hw&_) (?&?&?). unfold tables_fit. rewrite Hr. auto. Qed.

Lemma write_u64_ok m a v :
  tables_fit m → LONG_MODE_PML4_ADDR ≤ a → a + 8 ≤ LONG_MODE_PAGE_TABLE_END →
  write_u64 a v m = (Ok tt, set_u64 m a v).
Proof.
  intros (?&?&?) ??. apply write_mut_ok; [done|]. unfold in_region. autorewrite with bytes.
  longmode_consts. lia.
Qed.
Lemma write_zero_page_ok m a :
  tables_fit m → LONG_MODE_PML4_ADDR ≤ a → a + 4096 ≤ LONG_MODE_PAGE_TABLE_END →
  write_mut a (replicate (Z.to_nat LONG_MODE_PAGE_SIZE) 0) m = (Ok tt, zero_page_at m a).
Proof.
  intros (?&?&?) ??. apply write_mut_ok; [done|]. unfold in_region. longmode_consts.
  rewrite len_replicate, Z2Nat.id by lia. lia.
Qed.

Lemma mapping_wf_fits mapping : mapping_wf mapping → mapping_fits mapping.
Proof. intros (?&?&?&?&?&_). unfold mapping_fits. longmode_consts. lia. Qed.
Lemma mappings_wf_fit ms : mappings_wf ms → mappings_fit ms.
Proof. intros [H ?]. split; [|done]. eapply Forall_impl; [exact H|apply mapping_wf_fits]. Qed.
Lemma pte_address_window v :
  LONG_MODE_ALIAS_VIRTUAL_BASE ≤ v < LONG_MODE_ALIAS_VIRTUAL_END →
  LONG_MODE_ALIAS_PT_ADDR ≤ pte_address v ∧ pte_address v + 8 ≤ LONG_MODE_PAGE_TABLE_END.
Proof.
  unfold pte_address. longmode_consts. intros ?.
  pose proof (Z.div_pos (v - 4194304) 4096). pose proof (Z.div_lt_upper_bound (v - 4194304) 4096 512).
  lia.
Qed.
Lemma set_mapping_window m mapping : mapping_fits mapping → table_window m (set_mapping m mapping).
Proof.
  intros (_&Hv&_). apply pte_address_window in Hv. apply set_u64_window; longmode_consts; lia.
Qed.
Lemma set_mappings_window ms m :
  Forall mapping_fits ms → table_window m (fold_left set_mapping ms m).
Proof.
  intros H. revert m. induction H as [|mapping ms Hm _ IH]; intros m; simpl; [done|].
  etrans; [by apply set_mapping_window|apply IH].
Qed.

Lemma install_mappings_ok ms m :
  tables_fit m → Forall mapping_fits ms →
  install_mappings ms m = (Ok tt, fold_left set_mapping ms m).
Proof.
  intros Hm H. revert m Hm. induction H as [|mapping ms Hw _ IH]; intros m Hm; [done|].
  pose proof Hw as (?&Hv&_). pose proof (pte_address_window _ Hv) as [Ha1 Ha2].
  cbn [install_mappings fold_left]. unfold pte_address in *. longmode_consts.
  rewrite prog_bind_lift, usub_ok by lia.
  rewrite prog_bind_lift, udiv_ok by done.
  rewrite prog_bind_lift, umul_ok by lia.
  rewrite prog_bind_lift, uadd_ok by lia.
  unfold mbind at 1, prog_bind at 1. rewrite write_u64_ok by (longmode_consts; done || lia).
  apply IH. eapply table_window_fit; [by apply set_mapping_window|done].
Qed.

(** The memory [install_page_tables] leaves. *)
Definition base_tables (m : GuestMemory) : GuestMemory :=
  let m := zero_page_at (zero_page_at (zero_page_at (zero_page_at m LONG_MODE_PML4_ADDR)
             LONG_MODE_PDPT_ADDR) LONG_MODE_PD_ADDR) LONG_MODE_ALIAS_PT_ADDR in
  let m := set_u64 m LONG_MODE_PML4_ADDR (Z.lor LONG_MODE_PDPT_ADDR PAGE_TABLE_ENTRY_FLAGS) in
  let m := set_u64 m LONG_MODE_PDPT_ADDR (Z.lor LONG_MODE_PD_ADDR PAGE_TABLE_ENTRY_FLAGS) in
  set_u64 m LONG_MODE_PD_ADDR LARGE_PAGE_ENTRY_FLAGS.
Definition installed (ms : list LongModePageMapping) (m : GuestMemory) : GuestMemory :=
  match ms with
  | [] => base_tables m
  | _ => fold_left set_mapping ms
           (set_u64 (base_tables m) (LONG_MODE_PD_ADDR + ALIAS_PD_INDEX * 8)
              (Z.lor LONG_MODE_ALIAS_PT_ADDR PAGE_TABLE_ENTRY_FLAGS))
  end.

Lemma base_tables_window m : table_window m (base_tables m).
Proof.
  unfold base_tables.
  do 3 (etrans; [|apply set_u64_window; longmode_consts; lia]).
  do 4 (etrans; [|apply zero_page_window; longmode_consts; lia]). done.
Qed.
Lemma installed_window ms m : Forall mapping_fits ms → table_window m (installed ms m).
Proof.
  intros Hms. unfold installed. destruct ms as [|mapping ms]; [apply base_tables_window|].
  etrans; [|by apply set_mappings_window].
  etrans; [apply base_tables_window|apply set_u64_window; vm_compute; congruence].
Qed.

(** [window_fit] proves that a memory after page-table writes still covers them. *)
Ltac window_fit :=
  repeat match goal with
  | |- tables_fit (set_u64 ?m ?a ?v) =>
      apply (table_window_fit m); [apply set_u64_window; vm_compute; congruence|]
  | |- tables_fit (zero_page_at ?m ?a) =>
      apply (table_window_fit m); [apply zero_page_window; vm_compute; congruence|]
  end; assumption.

Lemma install_page_tables_ok layout m :
  layout_wf layout → memory_wf m → m.(region) = layout.(layout_memory) →
  install_page_tables layout m = (Ok tt, installed layout.(page_mappings) m).
Proof.
  intros ((Hb&Hs&_)&(Hms&_)%mappings_wf_fit&_) Hm Hr.
  assert (tables_fit m) as Hfit by (unfold tables_fit; by rewrite Hr).
  unfold install_page_tables, installed.
  erewrite prog_bind_step by (unfold reading; by rewrite bool_decide_true by done).
  cbv zeta.
  do 4 (erewrite prog_bind_step
          by (apply write_zero_page_ok; [window_fit|vm_compute; congruence..])).
  do 3 (erewrite prog_bind_step
          by (apply write_u64_ok; [window_fit|vm_compute; congruence..])).
  destruct (page_mappings layout) as [|mapping ms]; [done|].
  fold (base_tables m).
  assert (tables_fit (base_tables m)) as Hfit'
    by (eapply table_window_fit; [apply base_tables_window|done]).
  erewrite prog_bind_step by (apply write_u64_ok; [done|vm_compute; congruence..]).
  apply install_mappings_ok; [|done].
  eapply table_window_fit; [|exact Hfit']. apply set_u64_window; vm_compute; congruence.
Qed.

(** Reading page-table entries back. *)
Lemma u64_at_set_u64 m a v b :
  u64 v → b = a ∨ b + 8 ≤ a ∨ a + 8 ≤ b →
  u64_at (set_u64 m a v) b = if b =? a then v else u64_at m b.
Proof.
  intros Hv Hb. unfold set_u64. destruct (Z.eqb_spec b a) as [->|].
  - by apply u64_at_set_same.
  - apply u64_at_set_disjoint. autorewrite with bytes. lia.
Qed.
Lemma u64_at_zero_page m a b :
  (a ≤ b ∧ b + 8 ≤ a + 4096) ∨ b + 8 ≤ a ∨ a + 4096 ≤ b →
  u64_at (zero_page_at m a) b = if (a <=? b) && (b <? a + 4096) then 0 else u64_at m b.
Proof.
  intros Hb. unfold zero_page_at, LONG_MODE_PAGE_SIZE.
  destruct (Z.leb_spec a b), (Z.ltb_spec b (a + 4096)); cbn [andb];
    first [apply u64_at_set_zeros; lia|apply u64_at_set_disjoint; rewrite len_replicate; lia].
Qed.

Lemma base_tables_entry m b :
  LONG_MODE_PML4_ADDR ≤ b < LONG_MODE_PAGE_TABLE_END → b mod 8 = 0 →
  u64_at (base_tables m) b =
    if b =? 0x3000 then 0x83 else if b =? 0x2000 then 0x3003
    else if b =? 0x1000 then 0x2003 else 0.
Proof.
  intros Hb Hm. unfold base_tables. longmode_consts.
  assert (∃ k, b = 8 * k) as [k ->] by (exists (b / 8); dlia).
  rewrite !u64_at_set_u64 by (lia || vm_compute; intuition congruence).
  rewrite !u64_at_zero_page by lia.
  change LARGE_PAGE_ENTRY_FLAGS with 0x83.
  change (Z.lor 12288 PAGE_TABLE_ENTRY_FLAGS) with 0x3003.
  change (Z.lor 8192 PAGE_TABLE_ENTRY_FLAGS) with 0x2003.
  repeat case_match; done || (exfalso; res_simplify;
    repeat match goal with
    | H : (_ && _) = false |- _ => apply andb_false_iff in H; rewrite ?Z.ltb_ge, ?Z.leb_gt in H
    end; lia).
Qed.

Lemma lookup_page_cons mapping ms v :
  lookup_page (mapping :: ms) v =
    if decide (mapping.(virtual_page) = v) then Some mapping.(physical_page) else lookup_page ms v.
Proof. unfold lookup_page. rewrite filter_cons. by destruct (decide _). Qed.
Lemma lookup_page_None ms v : v ∉ virtual_page <$> ms → lookup_page ms v = None.
Proof.
  induction ms as [|mapping ms IH]; [done|]. rewrite fmap_cons, not_elem_of_cons.
  intros [??]. rewrite lookup_page_cons, decide_False by congruence. auto.
Qed.
Lemma lookup_page_Some (P : LongModePageMapping → Prop) ms v p :
  Forall P ms → lookup_page ms v = Some p → P (mkPageMapping v p).
Proof.
  induction 1 as [|[v' p'] ms Hm _ IH]; [done|]. rewrite lookup_page_cons. simpl.
  destruct (decide _) as [->|]; [by intros [= ->]|auto].
Qed.
Lemma lookup_page_is_Some ms v : v ∈ virtual_page <$> ms → is_Some (lookup_page ms v).
Proof.
  induction ms as [|mapping ms IH]; [by intros ?%not_elem_of_nil|].
  rewrite fmap_cons, elem_of_cons, lookup_page_cons. intros Hv.
  destruct (decide _); [done|]. apply IH. naive_solver.
Qed.

Lemma pte_value p : p mod 4096 = 0 → Z.lor p PAGE_TABLE_ENTRY_FLAGS = p + 3.
Proof. intros. change PAGE_TABLE_ENTRY_FLAGS with 3. apply (lor_low_flags 12); [lia|done|lia]. Qed.

Lemma set_mapping_entry m mapping i :
  mapping_fits mapping → 0 ≤ i < 512 →
  u64_at (set_mapping m mapping) (LONG_MODE_ALIAS_PT_ADDR + 8 * i) =
    if decide (mapping.(virtual_page) = LONG_MODE_ALIAS_VIRTUAL_BASE + 4096 * i)
    then mapping.(physical_page) + 3 else u64_at m (LONG_MODE_ALIAS_PT_ADDR + 8 * i).
Proof.
  intros (Hv&?&Hp&?) Hi. unfold set_mapping. rewrite pte_value by done.
  unfold pte_address. longmode_consts.
  rewrite u64_at_set_u64; [|dlia|lia].
  set (j := (virtual_page mapping - 4194304) / 4096).
  assert (virtual_page mapping = 4194304 + 4096 * j) as -> by (unfold j; dlia).
  destruct (Z.eqb_spec (16384 + 8 * i) (16384 + j * 8)), (decide _); done || lia.
Qed.

Lemma alias_entry ms m i :
  mappings_fit ms → 0 ≤ i < 512 →
  u64_at (fold_left set_mapping ms m) (LONG_MODE_ALIAS_PT_ADDR + 8 * i) =
    match lookup_page ms (LONG_MODE_ALIAS_VIRTUAL_BASE + 4096 * i) with
    | Some p => p + 3
    | None => u64_at m (LONG_MODE_ALIAS_PT_ADDR + 8 * i)
    end.
Proof.
  intros [Hms Hnd] Hi. revert m. induction Hms as [|mapping ms Hm _ IH]; intros m; [done|].
  rewrite fmap_cons, NoDup_cons in Hnd. destruct Hnd as [Hnew Hnd].
  cbn [fold_left]. rewrite IH by done. rewrite lookup_page_cons, set_mapping_entry by done.
  destruct (decide _) as [Heq|]; [|done].
  by rewrite lookup_page_None by congruence.
Qed.
Lemma set_mappings_below ms m b :
  Forall mapping_fits ms → b + 8 ≤ LONG_MODE_ALIAS_PT_ADDR →
  u64_at (fold_left set_mapping ms m) b = u64_at m b.
Proof.
  intros Hms Hb. revert m. induction Hms as [|mapping ms Hm _ IH]; intros m; [done|].
  cbn [fold_left]. rewrite IH. pose proof Hm as (?&Hv&Hp&?).
  apply pte_address_window in Hv. unfold set_mapping. rewrite pte_value by done.
  unfold LONG_MODE_IDENTITY_MAP_SIZE in *.
  rewrite u64_at_set_u64; [|dlia|lia]. by zcmp.
Qed.

(** The four tables [install_page_tables] leaves, entry by entry. *)
Lemma installed_upper ms m b :
  mappings_fit ms → LONG_MODE_PML4_ADDR ≤ b < LONG_MODE_ALIAS_PT_ADDR → b mod 8 = 0 →
  u64_at (installed ms m) b =
    if b =? 0x3010 then (match ms with [] => 0 | _ => 0x4003 end)
    else if b =? 0x3000 then 0x83 else if b =? 0x2000 then 0x3003
    else if b =? 0x1000 then 0x2003 else 0.
Proof.
  intros [Hms Hnd] Hb Hm. unfold installed. longmode_consts. destruct ms as [|mapping ms].
  - rewrite base_tables_entry by (longmode_consts; lia).
    destruct (Z.eqb_spec b 0x3010) as [->|]; [done|by zcmp].
  - rewrite set_mappings_below by (longmode_consts; dlia || done).
    change (12288 + ALIAS_PD_INDEX * 8) with 0x3010.
    change (Z.lor 16384 PAGE_TABLE_ENTRY_FLAGS) with 0x4003.
    rewrite u64_at_set_u64, base_tables_entry by (longmode_consts; ulia || dlia). by case_match.
Qed.
Lemma installed_alias ms m i :
  mappings_fit ms → 0 ≤ i < 512 →
  u64_at (installed ms m) (LONG_MODE_ALIAS_PT_ADDR + 8 * i) =
    match lookup_page ms (LONG_MODE_ALIAS_VIRTUAL_BASE + 4096 * i) with
    | Some p => p + 3
    | None => 0
    end.
Proof.
  intros Hms Hi. unfold installed. destruct ms as [|mapping ms].
  - rewrite base_tables_entry by (longmode_consts; dlia). longmode_consts. by zcmp.
  - rewrite alias_entry by done. case_match; [done|].
    change (LONG_MODE_PD_ADDR + ALIAS_PD_INDEX * 8) with 0x3010.
    change (Z.lor LONG_MODE_ALIAS_PT_ADDR PAGE_TABLE_ENTRY_FLAGS) with 0x4003.
    longmode_consts. rewrite u64_at_set_u64, base_tables_entry by (longmode_consts; ulia || dlia).
    by zcmp.
Qed.

(** The page-table pages of [m] hold the tables of the mappings [ms]. *)
Definition tables_hold (ms : list LongModePageMapping) (m : GuestMemory) : Prop :=
  (∀ b, LONG_MODE_PML4_ADDR ≤ b < LONG_MODE_ALIAS_PT_ADDR → b mod 8 = 0 →
     u64_at m b =
       if b =? 0x3010 then (match ms with [] => 0 | _ => 0x4003 end)
       else if b =? 0x3000 then 0x83 else if b =? 0x2000 then 0x3003
       else if b =? 0x1000 then 0x2003 else 0) ∧
  (∀ i, 0 ≤ i < 512 →
     u64_at m (LONG_MODE_ALIAS_PT_ADDR + 8 * i) =
       match lookup_page ms (LONG_MODE_ALIAS_VIRTUAL_BASE + 4096 * i) with
       | Some p => p + 3
       | None => 0
       end).
Lemma installed_tables_hold ms m : mappings_fit ms → tables_hold ms (installed ms m).
Proof. intros. split; intros; [by apply installed_upper|by apply installed_alias]. Qed.
Lemma tables_hold_ext ms m m' :
  m'.(region) = m.(region) →
  (∀ x, LONG_MODE_PML4_ADDR ≤ x < LONG_MODE_PAGE_TABLE_END → byte_at m' x = byte_at m x) →
  tables_hold ms m → tables_hold ms m'.
Proof.
  intros Hr Hx [Hu Ha]. longmode_consts.
  assert (∀ b, 4096 ≤ b → b + 8 ≤ 20480 → u64_at m' b = u64_at m b) as Heq.
  { intros b ??. unfold u64_at. f_equal. apply mem_get_ext; [done|lia|]. intros. apply Hx. lia. }
  split; intros; rewrite Heq by (longmode_consts; dlia); auto.
Qed.

Lemma translate_outside ms va :
  Forall mapping_fits ms → LONG_MODE_IDENTITY_MAP_SIZE ≤ va →
  va < LONG_MODE_ALIAS_VIRTUAL_BASE ∨ LONG_MODE_ALIAS_VIRTUAL_END ≤ va → translate ms va = None.
Proof.
  intros Hms Hva Hout. unfold translate. zcmp.
  destruct (lookup_page _ _) as [p|] eqn:E; [|done].
  apply (lookup_page_Some mapping_fits) in E as (_&Hv&_); [|done]. simpl in Hv. longmode_consts. dlia.
Qed.
Lemma pml4_entry ms m i :
  tables_hold ms m → 0 ≤ i < 512 →
  table_entry m 0x1000 i = if i =? 0 then 0x2003 else 0.
Proof.
  intros [Hu _] ?. unfold table_entry. rewrite Hu by (longmode_consts; dlia).
  destruct (Z.eqb_spec i 0) as [->|]; [done|]. by zcmp.
Qed.
Lemma pdpt_entry ms m i :
  tables_hold ms m → 0 ≤ i < 512 →
  table_entry m 0x2000 i = if i =? 0 then 0x3003 else 0.
Proof.
  intros [Hu _] ?. unfold table_entry. rewrite Hu by (longmode_consts; dlia).
  destruct (Z.eqb_spec i 0) as [->|]; [done|]. by zcmp.
Qed.
Lemma pd_entry ms m i :
  tables_hold ms m → 0 ≤ i < 512 →
  table_entry m 0x3000 i =
    if i =? 0 then 0x83 else if i =? 2 then (match ms with [] => 0 | _ => 0x4003 end) else 0.
Proof.
  intros [Hu _] ?. unfold table_entry. rewrite Hu by (longmode_consts; dlia).
  destruct (Z.eqb_spec i 0) as [->|]; [done|].
  destruct (Z.eqb_spec i 2) as [->|]; [done|]. by zcmp.
Qed.
Lemma pte_fields p :
  p mod 4096 = 0 → 0 ≤ p → entry_present (p + 3) = true ∧ entry_address (p + 3) = p mod 2 ^ 52.
Proof.
  intros Hp Hb. unfold entry_present, entry_address. split.
  - rewrite Zodd_mod. zcmp. apply Z.eqb_eq. dlia.
  - dlia.
Qed.

(** The page an entry leads to: the processor takes bits 51..12 of what was written. *)
Definition held_page (mapping : LongModePageMapping) : LongModePageMapping :=
  mkPageMapping mapping.(virtual_page) (mapping.(physical_page) mod 2 ^ 52).
Lemma lookup_held_page ms v :
  lookup_page (held_page <$> ms) v = (λ p, p mod 2 ^ 52) <$> lookup_page ms v.
Proof.
  induction ms as [|mapping ms IH]; [done|]. rewrite fmap_cons, !lookup_page_cons. simpl.
  by destruct (decide _).
Qed.
Lemma held_page_fits mapping : mapping_fits mapping → mapping_fits (held_page mapping).
Proof. intros (?&?&?&?). unfold mapping_fits. simpl. longmode_consts. dlia. Qed.

(** The tables, walked as the processor walks them, are the address map of
    the layout. *)
Lemma walk_held_tables ms m va :
  tables_hold ms m → Forall mapping_fits ms → 0 ≤ va < 2 ^ 48 →
  walk m LONG_MODE_PML4_ADDR va = translate (held_page <$> ms) va.
Proof.
  intros Ht Hms Hva.
  assert (Forall mapping_fits (held_page <$> ms)) as Hheld
    by (apply Forall_fmap; eapply Forall_impl; [exact Hms|apply held_page_fits]).
  unfold walk. change (entry_address LONG_MODE_PML4_ADDR) with 0x1000.
  rewrite (pml4_entry ms) by (done || dlia).
  destruct (Z.eqb_spec (va / 2 ^ 39 mod 512) 0) as [H4|H4].
  2: { symmetry. apply translate_outside; [done|longmode_consts; dlia..]. }
  change (negb (entry_present 0x2003)) with false. change (entry_address 0x2003) with 0x2000.
  cbn match. rewrite (pdpt_entry ms) by (done || dlia).
  destruct (Z.eqb_spec (va / 2 ^ 30 mod 512) 0) as [H3|H3].
  2: { symmetry. apply translate_outside; [done|longmode_consts; dlia..]. }
  change (negb (entry_present 0x3003)) with false. change (entry_large 0x3003) with false.
  change (entry_address 0x3003) with 0x3000.
  cbn match. rewrite (pd_entry ms) by (done || dlia).
  destruct (Z.eqb_spec (va / 2 ^ 21 mod 512) 0) as [H2|H2].
  { change (negb (entry_present 0x83)) with false. change (entry_large 0x83) with true.
    change (entry_address_2m 0x83) with 0. cbn match. unfold translate. longmode_consts.
    assert (va < 2097152) by dlia. zcmp. f_equal. dlia. }
  destruct (Z.eqb_spec (va / 2 ^ 21 mod 512) 2) as [H2'|H2'].
  2: { symmetry. apply translate_outside; [done|longmode_consts; dlia..]. }
  assert (0x400000 ≤ va < 0x600000) as Hwin by dlia.
  unfold translate. longmode_consts. zcmp.
  set (i := va / 4096 mod 512).
  assert (0 ≤ i < 512) as Hi by (unfold i; dlia).
  assert (va / 4096 * 4096 = 0x400000 + 4096 * i) as Hpage by (unfold i; dlia).
  rewrite Hpage. destruct ms as [|mapping ms]; [done|].
  change (negb (entry_present 0x4003)) with false. change (entry_large 0x4003) with false.
  change (entry_address 0x4003) with LONG_MODE_ALIAS_PT_ADDR. cbn match.
  unfold table_entry. rewrite (proj2 Ht) by done.
  change (LONG_MODE_ALIAS_VIRTUAL_BASE) with 0x400000. rewrite lookup_held_page.
  destruct (lookup_page _ _) as [p|] eqn:E; [|done].
  apply (lookup_page_Some mapping_fits) in E as (_&_&Hp&?); [|done]. simpl in *.
  by destruct (pte_fields p) as [-> ->]; [|lia|].
Qed.
Lemma walk_tables ms m va :
  tables_hold ms m → Forall mapping_fits ms → Forall (λ mapping, mapping.(physical_page) < 2 ^ 52) ms →
  0 ≤ va < 2 ^ 48 → walk m LONG_MODE_PML4_ADDR va = translate ms va.
Proof.
  intros Ht Hms Hp Hva. rewrite (walk_held_tables ms) by done. f_equal.
  rewrite <- (list_fmap_id ms) at 2. apply list_fmap_ext. intros i [v p] Hin%list_elem_of_lookup_2.
  rewrite Forall_forall in Hms, Hp.
  destruct (Hms _ Hin) as (_&_&_&?). specialize (Hp _ Hin). simpl in *.
  unfold held_page. simpl. f_equal. apply Z.mod_small. lia.
Qed.
Lemma mappings_wf_low ms : mappings_wf ms → Forall (λ mapping, mapping.(physical_page) < 2 ^ 52) ms.
Proof.
  intros [H _]. eapply Forall_impl; [exact H|]. intros mapping (_&_&_&_&?&_). longmode_consts. lia.
Qed.

(** C30: installing the page tables of a well-formed layout succeeds on its
    RAM, writes only the four page-table pages, and builds exactly the
    promised address map: walking the tables from CR3 the way an x86-64
    processor does sends every 48-bit address to the physical address the
    layout assigns to it, the low 2 MiB to themselves and each alias page to
    its physical page, and faults everywhere else. *)
Theorem install_page_tables_spec layout m :
  layout_wf layout → memory_wf m → m.(region) = layout.(layout_memory) →
  ∃ m', install_page_tables layout m = (Ok tt, m') ∧
    memory_wf m' ∧ m'.(region) = m.(region) ∧
    (∀ x, x < LONG_MODE_PML4_ADDR ∨ LONG_MODE_PAGE_TABLE_END ≤ x → byte_at m' x = byte_at m x) ∧
    ∀ va, 0 ≤ va < 2 ^ 48 →
      walk m' LONG_MODE_PML4_ADDR va = translate layout.(page_mappings) va.
Proof.
  intros Hl Hm Hr. pose proof Hl as (_&Hms%mappings_wf_fit&_).
  exists (installed layout.(page_mappings) m).
  destruct (installed_window layout.(page_mappings) m) as (?&?&?); [apply Hms|].
  split_and!; [by apply install_page_tables_ok|auto..|]. intros.
  apply walk_tables; [by apply installed_tables_hold|apply Hms|apply mappings_wf_low, Hl|done].
Qed.

(** A concrete boot: 2 MiB of zeroed RAM and one aliased code page. *)
Definition boot_memory : GuestMemory :=
  mkMemory (mkRegion 0 0x200000) (mkMapping (λ _, 0) 0x200000).
Definition boot_layout : LongModeBootLayout :=
  mkLayout (mkRegion 0 0x200000) 0x400010 0x200000 [mkPageMapping 0x400000 0x10000].
Lemma boot_memory_wf : memory_wf boot_memory.
Proof. split; [by repeat split|]. split; [done|]. intros o. unfold boot_memory. simpl. ulia. Qed.
Lemma boot_layout_wf : layout_wf boot_layout.
Proof.
  unfold layout_wf, memory_and_stack_wf, mappings_wf, entry_wf, boot_layout. simpl.
  longmode_consts. split_and!; try lia.
  - repeat constructor; simpl; longmode_consts; lia.
  - apply NoDup_singleton.
  - right. split; [lia|]. by apply list_elem_of_singleton.
Qed.

Lemma install_page_tables_spec_witness :
  ∃ m', install_page_tables boot_layout boot_memory = (Ok tt, m') ∧
        walk m' LONG_MODE_PML4_ADDR 0x400010 = Some 0x10010 ∧
        walk m' LONG_MODE_PML4_ADDR 0x401000 = None.
Proof.
  destruct (install_page_tables_spec boot_layout boot_memory) as (m'&?&_&_&_&Hw).
  - apply boot_layout_wf.
  - apply boot_memory_wf.
  - reflexivity.
  - exists m'. split; [done|]. rewrite !Hw by lia. split; reflexivity.
Defined.

(** What a well-formed layout maps is usable RAM.  The entry point is
    mapped to a RAM byte outside the page tables, so is the byte below the
    initial stack pointer, and no address of the alias window reaches the
    page tables or leaves RAM. *)
Theorem layout_reachability layout :
  layout_wf layout → 0 ≤ layout.(layout_entry) →
  let usable pa :=
    0 ≤ pa < layout.(layout_memory).(region_size) ∧
    (pa < LONG_MODE_PML4_ADDR ∨ LONG_MODE_PAGE_TABLE_END ≤ pa) in
  (∃ pa, translate layout.(page_mappings) layout.(layout_entry) = Some pa ∧ usable pa) ∧
  (∃ pa, translate layout.(page_mappings) (layout.(stack_pointer) - 1) = Some pa ∧ usable pa) ∧
  ∀ va pa, LONG_MODE_IDENTITY_MAP_SIZE ≤ va →
    translate layout.(page_mappings) va = Some pa → usable pa.
Proof.
  intros ((Hb&Hs&Hsp&Hso)&[Hms _]&He) H0 usable.
  assert (∀ v p va, mapping_wf (mkPageMapping v p) → usable (p + va mod 4096)) as Hpage.
  { intros v p va (_&_&_&?&?&?). unfold usable. simpl in *. longmode_consts. dlia. }
  split_and!.
  - destruct He as [[Hlow Hoff]|[Hwin Hin]]; unfold translate.
    + zcmp. eexists. split; [done|]. unfold usable. longmode_consts. lia.
    + apply lookup_page_is_Some in Hin as [p Hp]. rewrite Hp.
      destruct (Z.ltb_spec (layout_entry layout) LONG_MODE_IDENTITY_MAP_SIZE);
        [longmode_consts; lia|].
      eexists. split; [done|]. eapply Hpage, (lookup_page_Some mapping_wf); eauto.
  - unfold translate. longmode_consts. zcmp. eexists. split; [done|]. unfold usable. lia.
  - intros va pa Hva. unfold translate. zcmp.
    destruct (lookup_page _ _) as [p|] eqn:E; [|done]. intros [= <-].
    eapply Hpage, (lookup_page_Some mapping_wf); eauto.
Qed.

Lemma layout_reachability_witness :
  ∃ pa, translate boot_layout.(page_mappings) boot_layout.(layout_entry) = Some pa ∧
        0 ≤ pa < 0x200000.
Proof.
  destruct (layout_reachability boot_layout boot_layout_wf ltac:(done)) as ((pa&H&Hu&_)&_).
  exists pa. split; [exact H|exact Hu].
Defined.
