(* ===== verification/Elf64.v ===== *)
(** The ELF64 guest loader of [src/src/loader/elf64.rs]: validation of the header
    and of the program headers, the alias page mappings derived from the
    load segments, and the load into guest RAM. *)

From S2P Require Import Prelude Errors Memory LongMode.

Definition ELF64_HEADER_SIZE : Z := 64.
Definition ELF64_PROGRAM_HEADER_SIZE : Z := 56.
Definition ELFCLASS64 : Z := 2.
Definition ELFDATA2LSB : Z := 1.
Definition EV_CURRENT : Z := 1.
Definition ET_EXEC : Z := 2.
Definition EM_X86_64 : Z := 62.
Definition PT_LOAD : Z := 1.
Definition PF_X : Z := 1.

Inductive Elf64Error :=
  | FileTooSmall (length : Z)
  | InvalidMagic
  | UnsupportedClass (actual : Z)
  | UnsupportedEndian (actual : Z)
  | UnsupportedIdentVersion (actual : Z)
  | UnsupportedType (actual : Z)
  | UnsupportedMachine (actual : Z)
  | UnsupportedVersion (actual : Z)
  | InvalidHeaderSize (actual : Z)
  | InvalidProgramHeaderSize (actual : Z)
  | ProgramHeaderTableOutOfBounds (offset count entry_size file_length : Z)
  | NoLoadableSegments
  | EmptyLoadSegment (index : Z)
  | SegmentFileSizeExceedsMemorySize (index file_size memory_size : Z)
  | SegmentFileRangeOutOfBounds (index offset file_size file_length : Z)
  | SegmentPhysicalRangeOverflow (index address memory_size : Z)
  | SegmentPhysicalRangeOutsideRam (index address memory_size ram_size : Z)
  | SegmentVirtualRangeOverflow (index address memory_size : Z)
  | SegmentVirtualRangeUnsupported (index address memory_size : Z)
  | IdentitySegmentAddressMismatch (index virtual_address physical_address : Z)
  | AliasPageOffsetMismatch (index virtual_address physical_address : Z)
  | SegmentOverlapsBootstrapPageTables (index address memory_size : Z)
  | InvalidSegmentAlignment (index alignment : Z)
  | SegmentAlignmentMismatch (index offset virtual_address alignment : Z)
  | LoadSegmentsVirtualOverlap (first second : Z)
  | LoadSegmentsPhysicalOverlap (first second : Z)
  | ConflictingPageMapping (virtual_page first_physical_page second_physical_page : Z)
  | EntryNotInExecutableFileBackedSegment (entry : Z).

Record Elf64LoadSegment := mkSegment {
  program_header_index : Z;
  file_offset : Z;
  file_size : Z;
  memory_size : Z;
  virtual_address : Z;
  physical_address : GuestPhysAddr;
  flags : Z
}.
Definition executable (segment : Elf64LoadSegment) : bool :=
  negb (Z.land segment.(flags) PF_X =? 0).
Definition uses_alias_window (segment : Elf64LoadSegment) : bool :=
  LONG_MODE_ALIAS_VIRTUAL_BASE <=? segment.(virtual_address).

Record Elf64GuestImage := mkImage {
  image_bytes : list Z;
  image_entry : Z;
  segments : list Elf64LoadSegment;
  image_mappings : list LongModePageMapping
}.

(** ** Field access *)

(** [[bytes[offset], bytes[offset + 1], ..]], [n] bytes. *)
Fixpoint read_bytes {E} (bytes : list Z) (offset i : Z) (n : nat) : res E (list Z) :=
  match n with
  | O => Ok []
  | S n =>
      a ← uadd 64 offset i;
      b ← index bytes a;
      rest ← read_bytes bytes offset (i + 1) n;
      Ok (b :: rest)
  end.
Definition read_u16 {E} (bytes : list Z) (offset : Z) : res E Z :=
  from_le_bytes <$> read_bytes bytes offset 0 2.
Definition read_u32 {E} (bytes : list Z) (offset : Z) : res E Z :=
  from_le_bytes <$> read_bytes bytes offset 0 4.
Definition read_u64 {E} (bytes : list Z) (offset : Z) : res E Z :=
  from_le_bytes <$> read_bytes bytes offset 0 8.

Definition align_up_page {E} (address : Z) : res E Z :=
  a ← uadd 64 address LONG_MODE_PAGE_SIZE;
  a ← usub a 1;
  Ok (Z.land a (unot 64 (LONG_MODE_PAGE_SIZE - 1))).

(** ** Validation *)
Definition validate_ident_and_header (bytes : list Z) : res Elf64Error unit :=
  _ ← err_if (len bytes <? ELF64_HEADER_SIZE) (FileTooSmall (len bytes));
  magic ← slice bytes 0 4;
  _ ← err_if (negb (bool_decide (magic = [0x7f; 0x45; 0x4c; 0x46]))) InvalidMagic;
  class ← index bytes 4;
  _ ← err_if (negb (class =? ELFCLASS64)) (UnsupportedClass class);
  data ← index bytes 5;
  _ ← err_if (negb (data =? ELFDATA2LSB)) (UnsupportedEndian data);
  ident_version ← index bytes 6;
  _ ← err_if (negb (ident_version =? EV_CURRENT)) (UnsupportedIdentVersion ident_version);
  elf_type ← read_u16 bytes 16;
  _ ← err_if (negb (elf_type =? ET_EXEC)) (UnsupportedType elf_type);
  machine ← read_u16 bytes 18;
  _ ← err_if (negb (machine =? EM_X86_64)) (UnsupportedMachine machine);
  version ← read_u32 bytes 20;
  _ ← err_if (negb (version =? EV_CURRENT)) (UnsupportedVersion version);
  header_size ← read_u16 bytes 52;
  _ ← err_if (negb (header_size =? ELF64_HEADER_SIZE)) (InvalidHeaderSize header_size);
  program_header_size ← read_u16 bytes 54;
  err_if (negb (program_header_size =? ELF64_PROGRAM_HEADER_SIZE))
    (InvalidProgramHeaderSize program_header_size).

(** The address checks of [parse_load_segment], from [physical_end] on. *)
Definition check_segment_addresses (index virtual_address physical_address memory_size : Z)
    : res Elf64Error unit :=
  physical_end ← ok_or (checked_add 64 physical_address memory_size)
                   (SegmentPhysicalRangeOverflow index physical_address memory_size);
  _ ← err_if (LONG_MODE_IDENTITY_MAP_SIZE <? physical_end)
        (SegmentPhysicalRangeOutsideRam index physical_address memory_size
           LONG_MODE_IDENTITY_MAP_SIZE);
  _ ← err_if (ranges_overlap physical_address physical_end
                LONG_MODE_PML4_ADDR LONG_MODE_PAGE_TABLE_END)
        (SegmentOverlapsBootstrapPageTables index physical_address memory_size);
  virtual_end ← ok_or (checked_add 64 virtual_address memory_size)
                  (SegmentVirtualRangeOverflow index virtual_address memory_size);
  let uses_identity_window := virtual_end <=? LONG_MODE_IDENTITY_MAP_SIZE in
  let uses_alias_window := (LONG_MODE_ALIAS_VIRTUAL_BASE <=? virtual_address)
                           && (virtual_end <=? LONG_MODE_ALIAS_VIRTUAL_END) in
  _ ← err_if (negb uses_identity_window && negb uses_alias_window)
        (SegmentVirtualRangeUnsupported index virtual_address memory_size);
  _ ← err_if (uses_identity_window && negb (virtual_address =? physical_address))
        (IdentitySegmentAddressMismatch index virtual_address physical_address);
  err_if (uses_alias_window && negb (virtual_address mod LONG_MODE_PAGE_SIZE =?
                                     physical_address mod LONG_MODE_PAGE_SIZE))
    (AliasPageOffsetMismatch index virtual_address physical_address).

(** [parse_load_segment]. *)
Definition parse_load_segment (bytes : list Z) (offset index : Z)
    : res Elf64Error Elf64LoadSegment :=
  o4 ← uadd 64 offset 4;
  flags ← read_u32 bytes o4;
  o8 ← uadd 64 offset 8;
  file_offset_u64 ← read_u64 bytes o8;
  o16 ← uadd 64 offset 16;
  virtual_address ← read_u64 bytes o16;
  o24 ← uadd 64 offset 24;
  physical_address ← read_u64 bytes o24;
  o32 ← uadd 64 offset 32;
  file_size_u64 ← read_u64 bytes o32;
  o40 ← uadd 64 offset 40;
  memory_size_u64 ← read_u64 bytes o40;
  o48 ← uadd 64 offset 48;
  alignment ← read_u64 bytes o48;
  _ ← err_if (memory_size_u64 =? 0) (EmptyLoadSegment index);
  _ ← err_if (memory_size_u64 <? file_size_u64)
        (SegmentFileSizeExceedsMemorySize index file_size_u64 memory_size_u64);
  _ ← err_if ((1 <? alignment) && negb (is_power_of_two alignment))
        (InvalidSegmentAlignment index alignment);
  _ ← err_if ((1 <? alignment) && negb (file_offset_u64 mod alignment =?
                                        virtual_address mod alignment))
        (SegmentAlignmentMismatch index file_offset_u64 virtual_address alignment);
  let out_of_bounds :=
    SegmentFileRangeOutOfBounds index file_offset_u64 file_size_u64 (len bytes) in
  file_offset ← ok_or (try_from 64 file_offset_u64) out_of_bounds;
  file_size ← ok_or (try_from 64 file_size_u64) out_of_bounds;
  file_end ← ok_or (checked_add 64 file_offset file_size) out_of_bounds;
  _ ← err_if (len bytes <? file_end) out_of_bounds;
  _ ← check_segment_addresses index virtual_address physical_address memory_size_u64;
  memory_size ← ok_or (try_from 64 memory_size_u64)
                  (SegmentPhysicalRangeOutsideRam index physical_address memory_size_u64
                     LONG_MODE_IDENTITY_MAP_SIZE);
  Ok (mkSegment index file_offset file_size memory_size virtual_address physical_address flags).

(** [reject_segment_overlap]: the loop over the segments accepted so far. *)
Fixpoint reject_overlap_loop (candidate : Elf64LoadSegment)
    (candidate_virtual_end candidate_physical_end : Z) (existing : list Elf64LoadSegment)
    : res Elf64Error unit :=
  match existing with
  | [] => Ok tt
  | segment :: existing =>
      virtual_end ← uadd 64 segment.(virtual_address) segment.(memory_size);
      _ ← err_if (ranges_overlap candidate.(virtual_address) candidate_virtual_end
                    segment.(virtual_address) virtual_end)
            (LoadSegmentsVirtualOverlap segment.(program_header_index)
               candidate.(program_header_index));
      physical_end ← uadd 64 segment.(physical_address) segment.(memory_size);
      _ ← err_if (ranges_overlap candidate.(physical_address) candidate_physical_end
                    segment.(physical_address) physical_end)
            (LoadSegmentsPhysicalOverlap segment.(program_header_index)
               candidate.(program_header_index));
      reject_overlap_loop candidate candidate_virtual_end candidate_physical_end existing
  end.
Definition reject_segment_overlap (existing : list Elf64LoadSegment)
    (candidate : Elf64LoadSegment) : res Elf64Error unit :=
  virtual_end ← uadd 64 candidate.(virtual_address) candidate.(memory_size);
  physical_end ← uadd 64 candidate.(physical_address) candidate.(memory_size);
  reject_overlap_loop candidate virtual_end physical_end existing.

(** ** Page mappings *)
Definition find_mapping (mappings : list LongModePageMapping) (vpage : Z)
    : option LongModePageMapping :=
  List.find (λ mapping, mapping.(virtual_page) =? vpage) mappings.

(** The inner loop of [build_page_mappings]: pages [page .. page + count). *)
Fixpoint map_pages (virtual_start physical_start page : Z) (count : nat)
    (mappings : list LongModePageMapping) : res Elf64Error (list LongModePageMapping) :=
  match count with
  | O => Ok mappings
  | S count =>
      distance ← umul 64 page LONG_MODE_PAGE_SIZE;
      vpage ← uadd 64 virtual_start distance;
      ppage ← uadd 64 physical_start distance;
      match find_mapping mappings vpage with
      | Some existing =>
          _ ← err_if (negb (existing.(physical_page) =? ppage))
                (ConflictingPageMapping vpage existing.(physical_page) ppage);
          map_pages virtual_start physical_start (page + 1) count mappings
      | None =>
          map_pages virtual_start physical_start (page + 1) count
            (mappings ++ [mkPageMapping vpage ppage])
      end
  end.
Definition map_segment (segment : Elf64LoadSegment) (mappings : list LongModePageMapping)
    : res Elf64Error (list LongModePageMapping) :=
  let virtual_start := align_down_page segment.(virtual_address) in
  let physical_start := align_down_page segment.(physical_address) in
  segment_end ← uadd 64 segment.(virtual_address) segment.(memory_size);
  virtual_end ← align_up_page segment_end;
  span ← usub virtual_end virtual_start;
  page_count ← udiv span LONG_MODE_PAGE_SIZE;
  map_pages virtual_start physical_start 0 (Z.to_nat page_count) mappings.
Fixpoint map_segments (segs : list Elf64LoadSegment) (mappings : list LongModePageMapping)
    : res Elf64Error (list LongModePageMapping) :=
  match segs with
  | [] => Ok mappings
  | segment :: segs =>
      mappings ← (if uses_alias_window segment then map_segment segment mappings
                  else Ok mappings);
      map_segments segs mappings
  end.
Definition build_page_mappings (segs : list Elf64LoadSegment)
    : res Elf64Error (list LongModePageMapping) := map_segments segs [].

(** ** [Elf64GuestImage::parse] *)

(** The program-header loop. *)
Fixpoint parse_segments (bytes : list Z) (table_offset index : Z) (count : nat)
    (segs : list Elf64LoadSegment) : res Elf64Error (list Elf64LoadSegment) :=
  match count with
  | O => Ok segs
  | S count =>
      scaled ← umul 64 index ELF64_PROGRAM_HEADER_SIZE;
      offset ← uadd 64 table_offset scaled;
      p_type ← read_u32 bytes offset;
      if negb (p_type =? PT_LOAD) then parse_segments bytes table_offset (index + 1) count segs
      else
        segment ← parse_load_segment bytes offset index;
        _ ← reject_segment_overlap segs segment;
        parse_segments bytes table_offset (index + 1) count (segs ++ [segment])
  end.

(** [segments.iter().any(..)] of the entry check. *)
Fixpoint entry_backed (entry : Z) (segs : list Elf64LoadSegment) : res Elf64Error bool :=
  match segs with
  | [] => Ok false
  | segment :: segs =>
      file_end ← uadd 64 segment.(virtual_address) segment.(file_size);
      if executable segment && (segment.(virtual_address) <=? entry) && (entry <? file_end)
      then Ok true else entry_backed entry segs
  end.

Definition parse (bytes : list Z) : res Elf64Error Elf64GuestImage :=
  _ ← validate_ident_and_header bytes;
  entry ← read_u64 bytes 24;
  program_header_offset ← read_u64 bytes 32;
  program_header_size ← read_u16 bytes 54;
  program_header_count ← read_u16 bytes 56;
  let bounds_error := ProgramHeaderTableOutOfBounds program_header_offset
                        program_header_count program_header_size (len bytes) in
  table_offset ← ok_or (try_from 64 program_header_offset) bounds_error;
  table_size ← ok_or (checked_mul 64 program_header_count ELF64_PROGRAM_HEADER_SIZE) bounds_error;
  table_end ← ok_or (checked_add 64 table_offset table_size) bounds_error;
  _ ← err_if (len bytes <? table_end) bounds_error;
  segs ← parse_segments bytes table_offset 0 (Z.to_nat program_header_count) [];
  _ ← err_if (match segs with [] => true | _ => false end) NoLoadableSegments;
  backed ← entry_backed entry segs;
  _ ← err_if (negb backed) (EntryNotInExecutableFileBackedSegment entry);
  mappings ← build_page_mappings segs;
  Ok (mkImage bytes entry segs mappings).

(** ** [Elf64GuestImage::load] *)
Definition load_segment (bytes : list Z) (segment : Elf64LoadSegment)
    : prog GuestMemory Error unit :=
  file_end ← lift (uadd 64 segment.(file_offset) segment.(file_size));
  contents ← lift (slice bytes segment.(file_offset) file_end);
  _ ← write_mut segment.(physical_address) contents;
  if segment.(file_size) <? segment.(memory_size) then
    zero_length ← lift (usub segment.(memory_size) segment.(file_size));
    zero_address ← lift (uadd 64 segment.(physical_address) segment.(file_size));
    write_mut zero_address (replicate (Z.to_nat zero_length) 0)
  else mret tt.
Fixpoint load_segments (bytes : list Z) (segs : list Elf64LoadSegment)
    : prog GuestMemory Error unit :=
  match segs with
  | [] => mret tt
  | segment :: segs =>
      _ ← load_segment bytes segment;
      load_segments bytes segs
  end.
Definition load (image : Elf64GuestImage) : prog GuestMemory Error unit :=
  load_segments image.(image_bytes) image.(segments).

(** ** The built-in proof image *)
Definition PROOF_SEGMENT_PHYSICAL_ADDRESS : Z := 0x10000.
Definition PROOF_SEGMENT_VIRTUAL_ADDRESS : Z := LONG_MODE_ALIAS_VIRTUAL_BASE.
Definition PROOF_CODE_OFFSET : Z := 0x100.
Definition PROOF_MEMORY_SIZE : Z := 0x180.
Definition PROOF_STACK_POINTER : Z := 0x1ff000.
Definition PROOF_CODE : list Z :=
  [0x48; 0xb8; 0x00; 0x00; 0x00; 0x00; 0x4c; 0x4d; 0x36; 0x34; 0x48; 0xc1; 0xe8; 0x20; 0xba;
   0xe9; 0x00; 0x00; 0x00; 0xee; 0x48; 0xc1; 0xe8; 0x08; 0xee; 0x48; 0xc1; 0xe8; 0x08; 0xee;
   0x48; 0xc1; 0xe8; 0x08; 0xee; 0xf4].

Definition put_u16 (bytes : list Z) (offset value : Z) : list Z :=
  splice bytes offset (to_le_bytes 2 value).
Definition put_u32 (bytes : list Z) (offset value : Z) : list Z :=
  splice bytes offset (to_le_bytes 4 value).
Definition put_u64 (bytes : list Z) (offset value : Z) : list Z :=
  splice bytes offset (to_le_bytes 8 value).
Definition fixture_with_addresses (virtual_address physical_address : Z) (code : list Z)
    (memory_size : Z) : list Z :=
  let file_size := PROOF_CODE_OFFSET + len code in
  let bytes := replicate (Z.to_nat file_size) 0 in
  let bytes := splice bytes 0 [0x7f; 0x45; 0x4c; 0x46] in
  let bytes := splice bytes 4 [ELFCLASS64] in
  let bytes := splice bytes 5 [ELFDATA2LSB] in
  let bytes := splice bytes 6 [EV_CURRENT] in
  let bytes := put_u16 bytes 16 ET_EXEC in
  let bytes := put_u16 bytes 18 EM_X86_64 in
  let bytes := put_u32 bytes 20 EV_CURRENT in
  let bytes := put_u64 bytes 24 (virtual_address + PROOF_CODE_OFFSET) in
  let bytes := put_u64 bytes 32 ELF64_HEADER_SIZE in
  let bytes := put_u16 bytes 52 ELF64_HEADER_SIZE in
  let bytes := put_u16 bytes 54 ELF64_PROGRAM_HEADER_SIZE in
  let bytes := put_u16 bytes 56 1 in
  let ph := ELF64_HEADER_SIZE in
  let bytes := put_u32 bytes ph PT_LOAD in
  let bytes := put_u32 bytes (ph + 4) (Z.lor PF_X 4) in
  let bytes := put_u64 bytes (ph + 8) 0 in
  let bytes := put_u64 bytes (ph + 16) virtual_address in
  let bytes := put_u64 bytes (ph + 24) physical_address in
  let bytes := put_u64 bytes (ph + 32) file_size in
  let bytes := put_u64 bytes (ph + 40) memory_size in
  let bytes := put_u64 bytes (ph + 48) LONG_MODE_PAGE_SIZE in
  splice bytes PROOF_CODE_OFFSET code.
Definition proof_fixture : list Z :=
  fixture_with_addresses PROOF_SEGMENT_VIRTUAL_ADDRESS PROOF_SEGMENT_PHYSICAL_ADDRESS
    PROOF_CODE PROOF_MEMORY_SIZE.

(** ** Well-formed segments and images *)

(** A segment's file range lies in the file, its physical range in the
    identity-mapped RAM clear of the page tables, and its virtual range is
    either the physical one or lies in the alias window at the same page
    offset. *)
Definition segment_wf (bytes : list Z) (s : Elf64LoadSegment) : Prop :=
  0 ≤ s.(file_offset) ∧ 0 ≤ s.(file_size) ∧ s.(file_offset) + s.(file_size) ≤ len bytes ∧
  0 < s.(memory_size) ∧ s.(file_size) ≤ s.(memory_size) ∧
  0 ≤ s.(physical_address) ∧
  s.(physical_address) + s.(memory_size) ≤ LONG_MODE_IDENTITY_MAP_SIZE ∧
  (s.(physical_address) + s.(memory_size) ≤ LONG_MODE_PML4_ADDR ∨
   LONG_MODE_PAGE_TABLE_END ≤ s.(physical_address)) ∧
  (s.(virtual_address) = s.(physical_address) ∨
   LONG_MODE_ALIAS_VIRTUAL_BASE ≤ s.(virtual_address) ∧
   s.(virtual_address) + s.(memory_size) ≤ LONG_MODE_ALIAS_VIRTUAL_END ∧
   s.(virtual_address) mod 4096 = s.(physical_address) mod 4096).

Definition ranges_disjoint (a n b k : Z) : Prop := a + n ≤ b ∨ b + k ≤ a.
Definition segments_disjoint (s t : Elf64LoadSegment) : Prop :=
  ranges_disjoint s.(virtual_address) s.(memory_size) t.(virtual_address) t.(memory_size) ∧
  ranges_disjoint s.(physical_address) s.(memory_size) t.(physical_address) t.(memory_size).
Definition segments_wf (bytes : list Z) (segs : list Elf64LoadSegment) : Prop :=
  Forall (segment_wf bytes) segs ∧ ForallOrdPairs (λ s t, segments_disjoint t s) segs.

(** Every page of an alias segment is mapped to its physical page. *)
Definition segment_mapped (ms : list LongModePageMapping) (s : Elf64LoadSegment) : Prop :=
  uses_alias_window s = true →
  ∀ i, 0 ≤ i < s.(memory_size) →
    lookup_page ms ((s.(virtual_address) + i) / 4096 * 4096) =
      Some ((s.(physical_address) + i) / 4096 * 4096).

Definition image_wf (bytes : list Z) (image : Elf64GuestImage) : Prop :=
  image.(image_bytes) = bytes ∧ image.(segments) ≠ [] ∧ segments_wf bytes image.(segments) ∧
  (∃ s, s ∈ image.(segments) ∧ executable s = true ∧
        s.(virtual_address) ≤ image.(image_entry) < s.(virtual_address) + s.(file_size)) ∧
  mappings_wf image.(image_mappings) ∧
  Forall (segment_mapped image.(image_mappings)) image.(segments).

(** * Field access *)
Section fields.
Context {E : Type} (bytes : list Z) (Hb : bytes_ok bytes) (Hlen : usize (len bytes)).

Lemma read_bytes_ok offset i n :
  0 ≤ offset + i → offset + i + Z.of_nat n ≤ len bytes →
  read_bytes (E:=E) bytes offset i n = Ok (take n (drop (Z.to_nat (offset + i)) bytes)).
Proof.
  revert i. induction n as [|n IH]; intros i H0 Hn; [by rewrite take_0|].
  cbn [read_bytes]. rewrite uadd_ok by ulia. cbn [mbind res_bind].
  destruct (index_ok (E:=E) bytes (offset + i)) as (x&->&Hx); [lia|]. cbn [mbind res_bind].
  rewrite IH by lia. cbn [mbind res_bind]. rewrite (drop_S _ _ _ Hx).
  cbn [take]. do 4 f_equal. lia.
Qed.
Lemma read_bytes_inv offset i n bs :
  read_bytes (E:=E) bytes offset i n = Ok bs → bytes_ok bs ∧ length bs = n.
Proof.
  revert i bs. induction n as [|n IH]; intros i bs H; cbn [read_bytes] in H.
  - injection H as <-. split; [constructor|done].
  - bind_inv H. apply IH in Hstep1 as [??]. split; [|by simpl; f_equal].
    constructor; [|done]. unfold index in Hstep0. case_match; [|done].
    apply expect_Ok_inv in Hstep0. by apply (Forall_lookup_1 _ _ _ _ Hb Hstep0).
Qed.
Lemma read_le_inv offset n v :
  from_le_bytes <$> read_bytes (E:=E) bytes offset 0 n = Ok v → in_width (8 * Z.of_nat n) v.
Proof.
  intros H. bind_inv H. apply read_bytes_inv in H as [Hok <-]. subst v.
  by apply from_le_bytes_bound in Hok.
Qed.
Lemma no_panic_read_le offset n :
  0 ≤ offset → offset + Z.of_nat n ≤ len bytes →
  no_panic (from_le_bytes <$> read_bytes (E:=E) bytes offset 0 n).
Proof. intros. by rewrite read_bytes_ok by lia. Qed.
End fields.
Lemma read_u16_inv {E} bytes o v : bytes_ok bytes → read_u16 (E:=E) bytes o = Ok v → u16 v.
Proof. intros ? H. by apply (read_le_inv (E:=E) bytes) in H. Qed.
Lemma read_u32_inv {E} bytes o v : bytes_ok bytes → read_u32 (E:=E) bytes o = Ok v → u32 v.
Proof. intros ? H. by apply (read_le_inv (E:=E) bytes) in H. Qed.
Lemma read_u64_inv {E} bytes o v : bytes_ok bytes → read_u64 (E:=E) bytes o = Ok v → u64 v.
Proof. intros ? H. by apply (read_le_inv (E:=E) bytes) in H. Qed.

(** [field_inv] gives every field read in the hypotheses its integer type. *)
Ltac field_inv :=
  repeat match goal with
  | H : read_u16 _ _ = Ok _ |- _ => apply read_u16_inv in H; [|assumption]
  | H : read_u32 _ _ = Ok _ |- _ => apply read_u32_inv in H; [|assumption]
  | H : read_u64 _ _ = Ok _ |- _ => apply read_u64_inv in H; [|assumption]
  end.

(** * The header and the segments *)

Lemma ranges_overlap_false a b c d : ranges_overlap a b c d = false ↔ d ≤ a ∨ b ≤ c.
Proof.
  unfold ranges_overlap. destruct (Z.ltb_spec a d), (Z.ltb_spec c b); simpl; split; intros;
    done || lia.
Qed.

#[local] Hint Extern 4 (no_panic (from_le_bytes <$> read_bytes _ _ _ _)) =>
  apply no_panic_read_le; np_side : panics.
#[local] Hint Extern 4 (no_panic (read_u16 _ _)) => apply no_panic_read_le; np_side : panics.
#[local] Hint Extern 4 (no_panic (read_u32 _ _)) => apply no_panic_read_le; np_side : panics.
#[local] Hint Extern 4 (no_panic (read_u64 _ _)) => apply no_panic_read_le; np_side : panics.
(** [np_field] is [np_step] with the types of the fields read so far. *)
Ltac np_field := np_step; field_inv.

Lemma no_panic_validate_ident_and_header bytes :
  bytes_ok bytes → usize (len bytes) → no_panic (validate_ident_and_header bytes).
Proof.
  intros Hb Hlen. unfold validate_ident_and_header, ELF64_HEADER_SIZE. np.
Qed.
Lemma validate_ident_and_header_inv bytes u :
  validate_ident_and_header bytes = Ok u → ELF64_HEADER_SIZE ≤ len bytes.
Proof. intros H. unfold validate_ident_and_header in H. by bind_inv H. Qed.

Lemma no_panic_check_segment_addresses i va pa n :
  no_panic (check_segment_addresses i va pa n).
Proof. unfold check_segment_addresses. np. Qed.
#[export] Hint Resolve no_panic_check_segment_addresses : panics.
Lemma check_segment_addresses_inv i va pa n u :
  u64 va → u64 pa → 0 < n → check_segment_addresses i va pa n = Ok u →
  pa + n ≤ LONG_MODE_IDENTITY_MAP_SIZE ∧
  (pa + n ≤ LONG_MODE_PML4_ADDR ∨ LONG_MODE_PAGE_TABLE_END ≤ pa) ∧
  (va = pa ∨ LONG_MODE_ALIAS_VIRTUAL_BASE ≤ va ∧ va + n ≤ LONG_MODE_ALIAS_VIRTUAL_END ∧
             va mod 4096 = pa mod 4096).
Proof.
  intros Hva Hpa Hn H. unfold check_segment_addresses in H. bind_inv H. arith_inv.
  apply ranges_overlap_false in Hstep1. split; [done|]. split; [lia|].
  destruct (Z.leb_spec (va + n) LONG_MODE_IDENTITY_MAP_SIZE) as [Hi|Hi].
  - left. cbn [andb] in Hstep4. by res_simplify.
  - right. cbn [negb andb] in Hstep3. res_simplify.
    rewrite (proj2 (Z.leb_le _ _)), (proj2 (Z.leb_le _ _)) in H by done.
    cbn [andb] in H. res_simplify. by split_and!.
Qed.

Lemma no_panic_parse_load_segment bytes offset i :
  bytes_ok bytes → usize (len bytes) → 0 ≤ offset →
  offset + ELF64_PROGRAM_HEADER_SIZE ≤ len bytes → no_panic (parse_load_segment bytes offset i).
Proof.
  intros Hb Hlen H0 Hn. unfold parse_load_segment, ELF64_PROGRAM_HEADER_SIZE in *. np.
Qed.
Lemma parse_load_segment_wf bytes offset i s :
  bytes_ok bytes → parse_load_segment bytes offset i = Ok s → segment_wf bytes s.
Proof.
  intros Hb H. unfold parse_load_segment in H. bind_inv H. arith_inv. field_inv.
  apply check_segment_addresses_inv in Hstep21 as (?&?&?); [|done|done|ulia].
  unfold segment_wf; simpl. split_and!; done || ulia.
Qed.

Lemma segment_wf_ends bytes s :
  segment_wf bytes s →
  s.(virtual_address) + s.(memory_size) < 2 ^ 64 ∧ s.(physical_address) + s.(memory_size) < 2 ^ 64.
Proof. intros (?&?&?&?&?&?&?&?&?). longmode_consts. lia. Qed.

Lemma reject_overlap_loop_spec bytes c vend pend existing :
  Forall (segment_wf bytes) existing →
  vend = c.(virtual_address) + c.(memory_size) → pend = c.(physical_address) + c.(memory_size) →
  no_panic (reject_overlap_loop c vend pend existing) ∧
  ∀ u, reject_overlap_loop c vend pend existing = Ok u → Forall (segments_disjoint c) existing.
Proof.
  intros H -> ->. induction H as [|s existing Hs _ [IHp IH]]; [by split; [|constructor]|].
  apply segment_wf_ends in Hs as [??]. cbn [reject_overlap_loop].
  rewrite !uadd_ok by done. split.
  - np.
  - intros u Hr. bind_inv Hr. apply ranges_overlap_false in Hstep0, Hstep2.
    constructor; [|eauto]. split; unfold ranges_disjoint; lia.
Qed.
Lemma no_panic_reject_segment_overlap bytes c existing :
  Forall (segment_wf bytes) existing → segment_wf bytes c →
  no_panic (reject_segment_overlap existing c).
Proof.
  intros He Hc. apply segment_wf_ends in Hc as [??]. unfold reject_segment_overlap.
  rewrite !uadd_ok by done. by eapply reject_overlap_loop_spec.
Qed.
Lemma reject_segment_overlap_inv bytes c existing u :
  Forall (segment_wf bytes) existing → reject_segment_overlap existing c = Ok u →
  Forall (segments_disjoint c) existing.
Proof.
  intros He H. unfold reject_segment_overlap in H. bind_inv H. arith_inv.
  by eapply reject_overlap_loop_spec in H.
Qed.

Lemma ForallOrdPairs_snoc {A} (R : A → A → Prop) l x :
  ForallOrdPairs R l → Forall (λ y, R y x) l → ForallOrdPairs R (l ++ [x]).
Proof.
  induction 1 as [|y l Hy Hl IH]; intros Hx; simpl; [repeat constructor|].
  inversion_clear Hx. constructor; [apply Forall_app; split; [done|by apply Forall_singleton]|auto].
Qed.
Lemma segments_wf_snoc bytes segs s :
  segments_wf bytes segs → segment_wf bytes s → Forall (segments_disjoint s) segs →
  segments_wf bytes (segs ++ [s]).
Proof.
  intros [??] ??. split; [apply Forall_app; split; [done|by apply Forall_singleton]|].
  by apply ForallOrdPairs_snoc.
Qed.

Lemma parse_segments_spec bytes t i n segs :
  bytes_ok bytes → usize (len bytes) → 0 ≤ t → 0 ≤ i →
  t + (i + Z.of_nat n) * ELF64_PROGRAM_HEADER_SIZE ≤ len bytes → segments_wf bytes segs →
  no_panic (parse_segments bytes t i n segs) ∧
  ∀ segs', parse_segments bytes t i n segs = Ok segs' → segments_wf bytes segs'.
Proof.
  intros Hb Hlen Ht Hi Hend Hsegs. revert i segs Hi Hend Hsegs.
  induction n as [|n IH]; intros i segs Hi Hend Hsegs; [by split; [|intros ? [= <-]]|].
  cbn [parse_segments]. unfold ELF64_PROGRAM_HEADER_SIZE in *.
  rewrite umul_ok by ulia. cbn [mbind res_bind]. rewrite uadd_ok by ulia.
  cbn [mbind res_bind]. split.
  - np_step. case_match; [apply IH; done || lia|].
    apply no_panic_bind; [apply no_panic_parse_load_segment; unfold ELF64_PROGRAM_HEADER_SIZE; done || lia|].
    intros s Hs%parse_load_segment_wf; [|done].
    apply no_panic_bind; [eapply no_panic_reject_segment_overlap; eauto; apply Hsegs|].
    intros u Hu. apply (reject_segment_overlap_inv bytes) in Hu; [|apply Hsegs].
    apply IH; [lia|lia|by apply segments_wf_snoc].
  - intros segs' H. apply bind_Ok_inv in H as (p&_&H). case_match.
    + eapply IH in H; [done|lia|lia|done].
    + bind_inv H. apply parse_load_segment_wf in Hstep; [|done].
      apply (reject_segment_overlap_inv bytes) in Hstep0; [|apply Hsegs].
      eapply IH in H; [done|lia|lia|by apply segments_wf_snoc].
Qed.

Lemma entry_backed_spec bytes entry segs :
  Forall (segment_wf bytes) segs →
  ∃ b, entry_backed entry segs = Ok b ∧
    (b = true → ∃ s, s ∈ segs ∧ executable s = true ∧
       s.(virtual_address) ≤ entry < s.(virtual_address) + s.(file_size)).
Proof.
  induction 1 as [|s segs Hs _ (b&Hb&IH)]; [by exists false|].
  pose proof (segment_wf_ends _ _ Hs) as [??]. destruct Hs as (?&?&?&?&?&_).
  cbn [entry_backed]. rewrite uadd_ok by lia. cbn [mbind res_bind]. case_match; res_simplify.
  - exists true. split; [done|]. intros _. exists s. split; [constructor|]. split; [done|lia].
  - exists b. split; [done|]. intros Hbt. destruct (IH Hbt) as (s'&?&?). exists s'.
    split; [by constructor|done].
Qed.

(** * The page mappings of the segments *)

Lemma find_mapping_lookup ms v : physical_page <$> find_mapping ms v = lookup_page ms v.
Proof.
  unfold find_mapping. induction ms as [|mapping ms IH]; [done|].
  rewrite lookup_page_cons. cbn [List.find].
  destruct (Z.eqb_spec (virtual_page mapping) v), (decide _); done.
Qed.
Lemma lookup_page_app ms ms' v :
  lookup_page (ms ++ ms') v = match lookup_page ms v with
                              | Some p => Some p
                              | None => lookup_page ms' v
                              end.
Proof.
  induction ms as [|mapping ms IH]; [done|]. rewrite <- app_comm_cons, !lookup_page_cons.
  by destruct (decide _).
Qed.
Lemma mappings_wf_snoc ms v p :
  mappings_wf ms → lookup_page ms v = None → mapping_wf (mkPageMapping v p) →
  mappings_wf (ms ++ [mkPageMapping v p]).
Proof.
  intros [Hms Hnd] Hnone Hm. split; [apply Forall_app; split; [done|by apply Forall_singleton]|].
  rewrite fmap_app. apply NoDup_app. split_and!; [done| |apply NoDup_singleton].
  intros x Hx ->%list_elem_of_singleton. apply lookup_page_is_Some in Hx as [q Hq].
  simpl in Hq. congruence.
Qed.

(** [ms'] maps every page [ms] maps, to the same physical page. *)
Definition mappings_extend (ms ms' : list LongModePageMapping) : Prop :=
  ∀ v p, lookup_page ms v = Some p → lookup_page ms' v = Some p.
#[global] Instance mappings_extend_preorder : PreOrder mappings_extend.
Proof. split; [by intros ms v p|]. intros ms1 ms2 ms3 H1 H2 v p H. by apply H2, H1. Qed.

Lemma map_pages_spec vs ps page count ms :
  0 ≤ page → mappings_wf ms →
  (∀ q, page ≤ q < page + Z.of_nat count → mapping_wf (mkPageMapping (vs + q * 4096) (ps + q * 4096))) →
  0 ≤ vs → 0 ≤ ps →
  no_panic (map_pages vs ps page count ms) ∧
  ∀ ms', map_pages vs ps page count ms = Ok ms' →
    mappings_wf ms' ∧ mappings_extend ms ms' ∧
    ∀ q, page ≤ q < page + Z.of_nat count →
      lookup_page ms' (vs + q * 4096) = Some (ps + q * 4096).
Proof.
  intros H0 Hms Hq Hv Hp. revert page ms H0 Hms Hq.
  induction count as [|count IH]; intros page ms H0 Hms Hq.
  { split; [done|]. intros ms' [= <-]. split_and!; [done|done|lia]. }
  pose proof (Hq page ltac:(lia)) as Hpage. pose proof Hpage as (_&?&_&?&?&_).
  simpl in *. longmode_consts.
  cbn [map_pages]. unfold LONG_MODE_PAGE_SIZE. rewrite umul_ok by lia. cbn [mbind res_bind].
  rewrite uadd_ok by lia. cbn [mbind res_bind]. rewrite uadd_ok by lia. cbn [mbind res_bind].
  pose proof (find_mapping_lookup ms (vs + page * 4096)) as Hf.
  destruct (find_mapping ms (vs + page * 4096)) as [existing|]; simpl in Hf.
  - destruct (Z.eqb_spec (physical_page existing) (ps + page * 4096)) as [Heq|]; [|done].
    cbn. destruct (IH (page + 1) ms) as [? IH']; [lia|done|intros; apply Hq; lia|].
    split; [done|]. intros ms' Hrun. apply IH' in Hrun as (?&Hext&Hall). split_and!; [done|done|].
    intros q Hqr. destruct (decide (q = page)) as [->|]; [|apply Hall; lia].
    apply Hext. congruence.
  - destruct (IH (page + 1) (ms ++ [mkPageMapping (vs + page * 4096) (ps + page * 4096)]))
      as [? IH']; [lia|by apply mappings_wf_snoc|intros; apply Hq; lia|].
    split; [done|]. intros ms' Hrun. apply IH' in Hrun as (?&Hext&Hall). split_and!; [done| |].
    + intros v p Hvp. apply Hext. by rewrite lookup_page_app, Hvp.
    + intros q Hqr. destruct (decide (q = page)) as [->|]; [|apply Hall; lia].
      apply Hext. by rewrite lookup_page_app, <- Hf, lookup_page_cons, decide_True.
Qed.

Lemma align_up_page_ok {E} a :
  0 ≤ a → a + 4096 < 2 ^ 64 → align_up_page (E:=E) a = Ok ((a + 4095) / 4096 * 4096).
Proof.
  intros ??. unfold align_up_page, LONG_MODE_PAGE_SIZE. rewrite uadd_ok by lia.
  cbn [mbind res_bind]. rewrite usub_ok by lia. cbn [mbind res_bind].
  change (4096 - 1) with (Z.ones 12). rewrite land_unot_ones by ulia.
  change (2 ^ 12) with 4096. do 3 f_equal. lia.
Qed.

Lemma map_segment_spec bytes s ms :
  segment_wf bytes s → uses_alias_window s = true → mappings_wf ms →
  no_panic (map_segment s ms) ∧
  ∀ ms', map_segment s ms = Ok ms' →
    mappings_wf ms' ∧ mappings_extend ms ms' ∧ segment_mapped ms' s.
Proof.
  intros (?&?&?&?&?&?&?&Htab&Hwin) Ha%Z.leb_le Hms.
  assert (virtual_address s + memory_size s ≤ LONG_MODE_ALIAS_VIRTUAL_END ∧
          virtual_address s mod 4096 = physical_address s mod 4096) as [Hend Hmod]
    by (destruct Hwin as [Heq|(?&?&?)]; [longmode_consts; lia|done]).
  unfold map_segment. longmode_consts.
  rewrite uadd_ok by lia. cbn [mbind res_bind]. rewrite align_up_page_ok by lia.
  cbn [mbind res_bind]. rewrite !align_down_page_eq by ulia. rewrite usub_ok by dlia.
  cbn [mbind res_bind]. rewrite udiv_ok by lia. cbn [mbind res_bind].
  set (va := virtual_address s) in *. set (pa := physical_address s) in *.
  set (count := (_ - _) / 4096).
  assert (0 ≤ count) by (unfold count; dlia).
  destruct (map_pages_spec (va / 4096 * 4096) (pa / 4096 * 4096) 0 (Z.to_nat count) ms)
    as [? Hspec]; [lia|done| |dlia|dlia|].
  { intros q Hq. rewrite Z2Nat.id in Hq by done. unfold count in Hq. unfold mapping_wf; simpl.
    longmode_consts. dlia. }
  split; [done|]. intros ms' Hm. apply Hspec in Hm as (?&?&Hall). split_and!; [done|done|].
  intros _ i Hi.
  assert ((va + i) / 4096 * 4096 = va / 4096 * 4096 + ((va + i) / 4096 - va / 4096) * 4096)
    as Hvi by lia.
  fold va pa. rewrite Hvi, Hall.
  - f_equal. dlia.
  - rewrite Z2Nat.id by done. unfold count. dlia.
Qed.

Lemma segment_mapped_extend ms ms' s :
  mappings_extend ms ms' → segment_mapped ms s → segment_mapped ms' s.
Proof. intros He Hs Ha i Hi. by apply He, Hs. Qed.
Lemma map_segments_spec bytes segs ms :
  Forall (segment_wf bytes) segs → mappings_wf ms →
  no_panic (map_segments segs ms) ∧
  ∀ ms', map_segments segs ms = Ok ms' →
    mappings_wf ms' ∧ mappings_extend ms ms' ∧ Forall (segment_mapped ms') segs.
Proof.
  intros Hsegs. revert ms. induction Hsegs as [|s segs Hs _ IH]; intros ms Hms.
  { split; [done|]. intros ms' [= <-]. by split_and!. }
  cbn [map_segments]. destruct (uses_alias_window s) eqn:Ha.
  - destruct (map_segment_spec bytes s ms) as [Hp Hspec]; [done..|]. split.
    + apply no_panic_bind; [done|]. intros ms1 (?&_)%Hspec. by apply IH.
    + intros ms' Hrun. bind_inv Hrun. apply Hspec in Hstep as (?&?&?).
      apply IH in Hrun as (?&?&?); [|done]. split_and!; [done|by etrans|].
      constructor; [by eapply segment_mapped_extend|done].
  - cbn [mbind res_bind]. destruct (IH ms Hms) as [? IH']. split; [done|].
    intros ms' Hrun. apply IH' in Hrun as (?&?&?). split_and!; [done|done|].
    constructor; [intros ?; congruence|done].
Qed.

(** * Parsing *)

Lemma mappings_wf_nil : mappings_wf [].
Proof. split; constructor. Qed.
Lemma segments_wf_nil bytes : segments_wf bytes [].
Proof. split; constructor. Qed.
#[export] Hint Resolve mappings_wf_nil segments_wf_nil no_panic_validate_ident_and_header : panics.

(** The part of [parse] after the program-header table bounds are known. *)
Lemma parse_tail_spec bytes entry segs :
  segments_wf bytes segs →
  let tail :=
    _ ← err_if (match segs with [] => true | _ => false end) NoLoadableSegments;
    backed ← entry_backed entry segs;
    _ ← err_if (negb backed) (EntryNotInExecutableFileBackedSegment entry);
    mappings ← build_page_mappings segs;
    Ok (mkImage bytes entry segs mappings) in
  no_panic tail ∧ ∀ image, tail = Ok image → image_wf bytes image.
Proof.
  intros Hsegs tail. destruct (entry_backed_spec bytes entry segs) as (b&Hb&Hin);
    [apply Hsegs|].
  destruct (map_segments_spec bytes segs []) as [Hp Hspec]; [apply Hsegs|auto with panics|].
  unfold tail. rewrite Hb. split.
  - apply no_panic_bind; [auto with panics|intros]. cbn [mbind res_bind].
    apply no_panic_bind; [auto with panics|intros]. apply no_panic_bind; [done|by intros].
  - intros image H. bind_inv H. apply Hspec in Hstep2 as (?&_&?).
    unfold image_wf; simpl. split_and!; [done|by intros ->|done|by apply Hin|done|done].
Qed.

Lemma no_panic_parse bytes : bytes_ok bytes → usize (len bytes) → no_panic (parse bytes).
Proof.
  intros Hb Hlen. unfold parse, ELF64_PROGRAM_HEADER_SIZE in *.
  apply no_panic_bind; [auto with panics|].
  intros u Hu%validate_ident_and_header_inv. unfold ELF64_HEADER_SIZE in Hu.
  do 4 np_field. cbv zeta. do 4 np_field.
  destruct (parse_segments_spec bytes v0 0 (Z.to_nat v2) []) as [Hp Hs];
    [done|done|ulia|lia|unfold ELF64_PROGRAM_HEADER_SIZE; ulia|auto with panics|].
  apply no_panic_bind; [done|]. intros segs Hsegs%Hs. by apply parse_tail_spec.
Qed.
Lemma parse_wf bytes image :
  bytes_ok bytes → usize (len bytes) → parse bytes = Ok image → image_wf bytes image.
Proof.
  intros Hb Hlen. unfold parse, ELF64_PROGRAM_HEADER_SIZE in *.
  intros H. do 9 (apply bind_Ok_inv in H as (?&?&H)). res_simplify. arith_inv. field_inv.
  apply bind_Ok_inv in H as (segs&Hsegs&H).
  eapply parse_segments_spec in Hsegs;
    [|done|done|ulia|lia|unfold ELF64_PROGRAM_HEADER_SIZE; ulia|auto with panics].
  by apply parse_tail_spec in H.
Qed.

(** C31: parsing is total and sound on untrusted input.  On every byte string
    [Elf64GuestImage::parse] returns an image or an error, without a panic:
    no read is out of range and no address arithmetic overflows.  An accepted
    image is well-formed: its load segments lie in the file and in RAM clear
    of the page tables, their virtual and physical ranges are pairwise
    disjoint, the entry is a file-backed byte of an executable segment, the
    page mappings are valid long-mode mappings, and every page of every alias
    segment is mapped to that segment's physical page. *)
Theorem parse_spec bytes :
  bytes_ok bytes → usize (len bytes) →
  no_panic (parse bytes) ∧ ∀ image, parse bytes = Ok image → image_wf bytes image.
Proof. intros. split; [by apply no_panic_parse|intros; by apply parse_wf]. Qed.

Lemma proof_fixture_ok : bytes_ok proof_fixture ∧ usize (len proof_fixture).
Proof.
  split; [|by vm_compute].
  apply Forall_forall. intros x Hx. assert (forallb (λ b, fits 8 b) proof_fixture = true) as Hf
    by (by vm_compute).
  rewrite forallb_forall in Hf. apply list_elem_of_In, Hf in Hx. unfold fits in Hx.
  res_simplify. ulia.
Qed.
Lemma parse_spec_witness :
  ∃ image, parse proof_fixture = Ok image ∧ image_wf proof_fixture image ∧
           image.(image_mappings) = [mkPageMapping 0x400000 0x10000].
Proof.
  destruct proof_fixture_ok as [Hb Hl].
  destruct (parse_spec proof_fixture Hb Hl) as [_ H].
  eexists. split; [vm_compute; reflexivity|]. split; [|reflexivity].
  apply H. vm_compute. reflexivity.
Defined.

Lemma segment_wf_virtual bytes s :
  segment_wf bytes s → 0 ≤ s.(virtual_address) ∧ s.(virtual_address) + s.(memory_size) < 2 ^ 47.
Proof. intros (?&?&?&?&?&?&?&_&?). longmode_consts. lia. Qed.
Lemma segment_wf_entry bytes s entry :
  segment_wf bytes s → s.(virtual_address) ≤ entry < s.(virtual_address) + s.(file_size) →
  u64 entry.
Proof. intros Hs He. pose proof (segment_wf_virtual _ _ Hs). destruct Hs as (?&?&?&?&?&_). ulia. Qed.
Lemma mappings_wf_u64 ms : mappings_wf ms → Forall mapping_u64 ms.
Proof.
  intros [H _]. apply (Forall_impl _ _ _ H).
  intros [v p] (?&?&?&?&?&?). split; simpl in *; longmode_consts; ulia.
Qed.

(** The layout a parsed image asks for is well-formed. *)
Lemma parsed_layout_wf bytes image memory sp :
  segments_wf bytes image.(segments) →
  (∃ s, s ∈ image.(segments) ∧ executable s = true ∧
        s.(virtual_address) ≤ image.(image_entry) < s.(virtual_address) + s.(file_size)) →
  mappings_wf image.(image_mappings) →
  Forall (segment_mapped image.(image_mappings)) image.(segments) →
  memory_and_stack_wf memory sp →
  layout_wf (mkLayout memory image.(image_entry) sp image.(image_mappings)).
Proof.
  intros [Hsegs _] (s&Hin&_&He) Hmaps Hmapped Hms.
  rewrite Forall_forall in Hsegs, Hmapped.
  specialize (Hsegs s Hin) as (?&?&?&?&?&?&?&?&Hwin). specialize (Hmapped s Hin).
  longmode_consts. split; [done|]. split; [done|]. unfold entry_wf; simpl. longmode_consts.
  destruct Hwin as [Heq|(?&?&?)]; [left; lia|right]. split; [lia|].
  destruct (decide (image_entry image / 4096 * 4096 ∈ virtual_page <$> image_mappings image))
    as [|Hnot]; [done|]. apply lookup_page_None in Hnot.
  rewrite <- (Zplus_minus (virtual_address s) (image_entry image)) in Hnot at 1.
  rewrite Hmapped in Hnot; [done| |lia]. apply Z.leb_le. longmode_consts. lia.
Qed.

(** The loader and the boot layout agree.  For every image [parse]
    accepts, [with_page_mappings] on any 2 MiB-or-larger RAM at address zero
    and any valid stack pointer accepts the image's entry and mappings, so the
    [expect] that follows it in [run_elf64_guest] cannot fail. *)
Theorem image_layout_accepted bytes image memory sp :
  bytes_ok bytes → usize (len bytes) → parse bytes = Ok image →
  region_wf memory → u64 sp → memory_and_stack_wf memory sp →
  with_page_mappings memory image.(image_entry) sp image.(image_mappings) =
    Ok (mkLayout memory image.(image_entry) sp image.(image_mappings)).
Proof.
  intros Hb Hlen Hparse Hr Hsp Hms.
  apply parse_wf in Hparse as (_&_&Hsegs&Hentry&Hmaps&Hmapped); [|done|done].
  apply with_page_mappings_ok; [done| |done|by apply mappings_wf_u64|by eapply parsed_layout_wf].
  destruct Hentry as (s&Hin&_&He). apply segment_wf_entry with bytes s; [|done].
  by apply (proj1 (Forall_forall _ _) (proj1 Hsegs)).
Qed.

Lemma image_layout_accepted_witness :
  ∃ image layout, parse proof_fixture = Ok image ∧
    with_page_mappings (mkRegion 0 0x200000) image.(image_entry) PROOF_STACK_POINTER
      image.(image_mappings) = Ok layout.
Proof.
  destruct proof_fixture_ok as [Hb Hl].
  assert (∃ image, parse proof_fixture = Ok image) as [image Himage]
    by (eexists; vm_compute; reflexivity).
  exists image. eexists. split; [done|].
  refine (image_layout_accepted proof_fixture image (mkRegion 0 0x200000) PROOF_STACK_POINTER
            Hb Hl Himage _ _ _).
  - by repeat split.
  - unfold PROOF_STACK_POINTER. ulia.
  - unfold memory_and_stack_wf, PROOF_STACK_POINTER; longmode_consts; simpl; lia.
Defined.

(** * Loading *)

(** The byte a segment defines at offset [i]: file contents, then zeros. *)
Definition segment_byte (bytes : list Z) (s : Elf64LoadSegment) (i : Z) : Z :=
  if i <? s.(file_size) then nth (Z.to_nat (s.(file_offset) + i)) bytes 0 else 0.
Definition in_segment (s : Elf64LoadSegment) (x : Z) : Prop :=
  s.(physical_address) ≤ x < s.(physical_address) + s.(memory_size).

Lemma nth_take_drop (l : list Z) (n k i : nat) :
  (i < n)%nat → nth i (take n (drop k l)) 0 = nth (k + i) l 0.
Proof.
  intros. rewrite !nth_lookup. rewrite lookup_take_lt by done. by rewrite lookup_drop.
Qed.

Lemma load_segment_ok bytes s m :
  bytes_ok bytes → usize (len bytes) → segment_wf bytes s → tables_fit m →
  ∃ m', load_segment bytes s m = (Ok tt, m') ∧ tables_fit m' ∧ m'.(region) = m.(region) ∧
    (∀ x, ¬ in_segment s x → byte_at m' x = byte_at m x) ∧
    ∀ i, 0 ≤ i < s.(memory_size) →
      byte_at m' (s.(physical_address) + i) = segment_byte bytes s i.
Proof.
  intros Hb Hlen (?&?&?&?&?&?&?&_&_) (Hm&Hbase&Hsize). longmode_consts.
  unfold load_segment, in_segment, segment_byte.
  rewrite prog_bind_lift, uadd_ok by ulia. rewrite prog_bind_lift, slice_ok by lia.
  set (contents := take _ _).
  assert (len contents = file_size s) as Hc by (unfold contents; autorewrite with bytes; lia).
  assert (bytes_ok contents) as Hcb by (unfold contents; eauto with bytes).
  erewrite prog_bind_step by (apply write_mut_ok; [done|unfold in_region; lia]).
  set (m1 := mem_set m (physical_address s) contents).
  assert (memory_wf m1) as Hm1 by (by apply mem_set_wf).
  assert (∀ i, 0 ≤ i < file_size s →
    byte_at m1 (physical_address s + i) = nth (Z.to_nat (file_offset s + i)) bytes 0) as Hin1.
  { intros i Hi. unfold m1. rewrite byte_at_set_in by lia. unfold contents.
    rewrite nth_take_drop by lia. f_equal. lia. }
  destruct (Z.ltb_spec (file_size s) (memory_size s)) as [Hlt|Hge].
  - rewrite prog_bind_lift, usub_ok by lia. rewrite prog_bind_lift, uadd_ok by lia.
    set (zeros := replicate _ 0).
    assert (len zeros = memory_size s - file_size s) as Hz
      by (unfold zeros; rewrite len_replicate; lia).
    eexists. split; [apply write_mut_ok; [done|unfold m1, in_region; autorewrite with bytes; lia]|].
    unfold tables_fit, m1. rewrite !mem_set_region. fold m1. split_and!.
    + apply mem_set_wf; [done|]. apply bytes_ok_replicate. ulia.
    + done.
    + done.
    + done.
    + intros x Hx. unfold m1. rewrite !byte_at_set_out by lia. done.
    + intros i Hi. destruct (Z.ltb_spec i (file_size s)).
      * rewrite byte_at_set_out by lia. apply Hin1. lia.
      * rewrite byte_at_set_in by lia. apply nth_zeros.
  - eexists. split; [done|]. unfold tables_fit, m1. rewrite !mem_set_region. fold m1.
    split_and!; [done..| |].
    + intros x Hx. unfold m1. by rewrite byte_at_set_out by lia.
    + intros i Hi. zcmp. apply Hin1. lia.
Qed.

Lemma segments_disjoint_bytes s t x :
  segments_disjoint s t → in_segment s x → in_segment t x → False.
Proof. intros [_ Hd]. unfold in_segment, ranges_disjoint in *. lia. Qed.

Lemma load_segments_ok bytes segs m :
  bytes_ok bytes → usize (len bytes) → segments_wf bytes segs → tables_fit m →
  ∃ m', load_segments bytes segs m = (Ok tt, m') ∧ tables_fit m' ∧ m'.(region) = m.(region) ∧
    (∀ x, Forall (λ s, ¬ in_segment s x) segs → byte_at m' x = byte_at m x) ∧
    ∀ s i, s ∈ segs → 0 ≤ i < s.(memory_size) →
      byte_at m' (s.(physical_address) + i) = segment_byte bytes s i.
Proof.
  intros Hb Hlen [Hwf Hdis]. revert m.
  induction Hdis as [|s segs Hs _ IH]; intros m Hm.
  { exists m. split_and!; [done..|]. intros s i Hin. by apply not_elem_of_nil in Hin. }
  apply Forall_cons in Hwf as [Hswf Hwf].
  destruct (load_segment_ok bytes s m) as (m1&Hrun1&Hm1&Hr1&Hout1&Hin1); [done..|].
  destruct (IH Hwf m1 Hm1) as (m2&Hrun2&Hm2&Hr2&Hout2&Hin2).
  exists m2. split_and!; [|done|congruence| |].
  - cbn [load_segments]. by rewrite (prog_bind_step _ _ _ _ _ Hrun1).
  - intros x [??]%Forall_cons. rewrite Hout2 by done. by apply Hout1.
  - intros t i [->|Hin]%elem_of_cons Hi; [|by apply Hin2].
    rewrite Hout2; [by apply Hin1|].
    apply (Forall_impl _ _ _ Hs). intros t Hst Ht.
    apply (segments_disjoint_bytes _ _ _ Hst Ht). unfold in_segment. lia.
Qed.

Lemma segments_avoid_tables bytes segs x :
  segments_wf bytes segs → LONG_MODE_PML4_ADDR ≤ x < LONG_MODE_PAGE_TABLE_END →
  Forall (λ s, ¬ in_segment s x) segs.
Proof.
  intros [Hwf _] Hx. apply (Forall_impl _ _ _ Hwf).
  intros s (?&?&?&?&?&?&?&?&_). unfold in_segment. longmode_consts. lia.
Qed.

(** Loading is exact.  Loading a parsed image into RAM that covers the
    identity map succeeds; afterwards every segment holds its file bytes
    followed by zeros up to its memory size, and every byte of RAM outside
    the segments, the page tables among them, is what it was before. *)
Theorem load_spec bytes image m :
  bytes_ok bytes → usize (len bytes) → parse bytes = Ok image → tables_fit m →
  ∃ m', load image m = (Ok tt, m') ∧ memory_wf m' ∧ m'.(region) = m.(region) ∧
    (∀ x, Forall (λ s, ¬ in_segment s x) image.(segments) → byte_at m' x = byte_at m x) ∧
    (∀ x, LONG_MODE_PML4_ADDR ≤ x < LONG_MODE_PAGE_TABLE_END → byte_at m' x = byte_at m x) ∧
    ∀ s i, s ∈ image.(segments) → 0 ≤ i < s.(memory_size) →
      byte_at m' (s.(physical_address) + i) = segment_byte bytes s i.
Proof.
  intros Hb Hlen Hparse Hm. apply parse_wf in Hparse as (Heq&_&Hsegs&_); [|done..].
  destruct (load_segments_ok bytes image.(segments) m) as (m'&Hrun&(Hm'&_)&?&Hout&?);
    [done..|].
  exists m'. unfold load. rewrite Heq. split_and!; try done.
  intros x Hx. apply Hout. by apply (segments_avoid_tables bytes).
Qed.

Lemma boot_memory_fits : tables_fit boot_memory.
Proof. split; [apply boot_memory_wf|]. split; [done|]. unfold boot_memory; simpl. longmode_consts; lia. Qed.

Lemma load_spec_witness :
  ∃ image m', parse proof_fixture = Ok image ∧ load image boot_memory = (Ok tt, m') ∧
              byte_at m' 0x10100 = 0x48 ∧ byte_at m' 0x1017f = 0.
Proof.
  destruct proof_fixture_ok as [Hb Hl].
  assert (∃ s f e ms, parse proof_fixture =
    Ok (mkImage proof_fixture e [s] ms) ∧ s = mkSegment 0 0 292 384 0x400000 0x10000 f)
    as (s&f&e&ms&Hp&Hs) by (do 4 eexists; split; [vm_compute; reflexivity|reflexivity]).
  destruct (load_spec proof_fixture _ boot_memory Hb Hl Hp boot_memory_fits)
    as (m'&Hrun&_&_&_&_&Hbytes).
  eexists _, m'. split; [exact Hp|]. split; [exact Hrun|]. subst s. split.
  - etransitivity; [refine (Hbytes _ 0x100 (list_elem_of_here _ _) _); simpl; lia|].
    vm_compute. reflexivity.
  - etransitivity; [refine (Hbytes _ 0x17f (list_elem_of_here _ _) _); simpl; lia|].
    vm_compute. reflexivity.
Defined.
