(* ===== verification/Boot.v ===== *)
(** Booting an ELF64 guest: the steps of [run_elf64_guest] of
    [src/src/loader/elf64.rs] that build guest RAM, from the image bytes to the
    memory and layout the vCPU starts with. *)

From S2P Require Import Prelude Errors Memory LongMode Elf64.

(** [run_elf64_guest] up to [vm.register_guest_memory]; the KVM calls between
    these steps do not touch the memory.  [mmap] is the host's anonymous
    mapping; the image bytes, which the source fixes to [proof_fixture], are
    an argument. *)
Definition prepare_elf64_guest (mmap : Z → res io_error store) (bytes : list Z)
    : res Error (LongModeBootLayout * GuestMemory) :=
  image ← (match parse bytes with Ok image => Ok image | _ => Panic end);
  memory ← memory_new mmap 0 LONG_MODE_IDENTITY_MAP_SIZE;
  layout ← (match with_page_mappings memory.(region) image.(image_entry) PROOF_STACK_POINTER
                    image.(image_mappings) with
            | Ok layout => Ok layout
            | _ => Panic
            end);
  match install_page_tables layout memory with
  | (Ok _, memory) =>
      match load image memory with
      | (Ok _, memory) => Ok (layout, memory)
      | (Err e, _) => Err e
      | (Panic, _) => Panic
      end
  | (Err e, _) => Err e
  | (Panic, _) => Panic
  end.

(** The byte a program running under these page tables loads from [va]. *)
Definition guest_byte (m : GuestMemory) (va : Z) : option Z :=
  byte_at m <$> walk m LONG_MODE_PML4_ADDR va.

Lemma memory_new_ok mmap b sz contents :
  u64 b → u64 sz → region_wf (mkRegion b sz) → mmap sz = Ok contents →
  memory_new mmap b sz = Ok (mkMemory (mkRegion b sz) (mkMapping contents sz)).
Proof.
  intros Hb Hs (?&?&Hm1&Hm2&?) Hmm. simpl in *. unfold memory_new, region_new.
  rewrite Hm1, Hm2. zcmp. cbn -[checked_add try_from Z.pow].
  rewrite (proj2 (checked_add_Some 64 b sz _)) by (split; [done|lia]).
  cbn -[try_from]. rewrite try_from_usize by done. cbn. by rewrite Hmm.
Qed.

Lemma segment_translate ms bytes s i :
  segment_wf bytes s → segment_mapped ms s → 0 ≤ i < s.(memory_size) →
  translate ms (s.(virtual_address) + i) = Some (s.(physical_address) + i).
Proof.
  intros (?&?&?&?&?&?&?&_&Hwin) Hmapped Hi. unfold translate. longmode_consts.
  destruct Hwin as [Heq|(?&?&?)].
  - zcmp. do 2 f_equal. lia.
  - zcmp. rewrite Hmapped; [|apply Z.leb_le; longmode_consts; lia|done]. simpl. f_equal. dlia.
Qed.

(** The RAM a guest starts from, and the layout [prepare_elf64_guest] builds for an image. *)
Definition boot_region : GuestMemoryRegion := mkRegion 0 LONG_MODE_IDENTITY_MAP_SIZE.
Definition boot_ram (contents : store) : GuestMemory :=
  mkMemory boot_region (mkMapping contents LONG_MODE_IDENTITY_MAP_SIZE).
Definition image_layout (image : Elf64GuestImage) : LongModeBootLayout :=
  mkLayout boot_region image.(image_entry) PROOF_STACK_POINTER image.(image_mappings).
Lemma boot_ram_wf contents : store_ok contents → memory_wf (boot_ram contents).
Proof. intros. split_and!; [by repeat split|done|done]. Qed.
Section booting.
Context (mmap : Z → res io_error store) (bytes : list Z) (image : Elf64GuestImage) (contents : store).
Hypothesis bytes_fit : bytes_ok bytes.
Hypothesis length_fits : usize (len bytes).
Hypothesis parsed : parse bytes = Ok image.
Hypothesis mapped : mmap LONG_MODE_IDENTITY_MAP_SIZE = Ok contents.
Hypothesis contents_ok : store_ok contents.
Lemma image_layout_wf : layout_wf (image_layout image).
Proof.
  pose proof (parse_wf _ _ bytes_fit length_fits parsed) as (_&_&Hsegs&He&Hmaps&Hmapped).
  apply (parsed_layout_wf bytes image boot_region PROOF_STACK_POINTER); try done.
  unfold memory_and_stack_wf, PROOF_STACK_POINTER. simpl. longmode_consts. lia.
Qed.
(** Loading the image over the installed tables puts every segment where its virtual addresses lead. *)
Lemma image_loaded : ∃ m,
  load_segments bytes image.(segments) (installed image.(image_mappings) (boot_ram contents)) = (Ok tt, m) ∧
  memory_wf m ∧
  ∀ s i, s ∈ image.(segments) → 0 ≤ i < s.(memory_size) →
    guest_byte m (s.(virtual_address) + i) = Some (segment_byte bytes s i).
Proof.
  pose proof (parse_wf _ _ bytes_fit length_fits parsed) as (_&_&Hsegs&_&Hmwf&Hmapped).
  pose proof (mappings_wf_fit _ Hmwf) as Hmaps.
  set (m1 := installed (image_mappings image) (boot_ram contents)).
  destruct (installed_window (image_mappings image) (boot_ram contents)) as (Hr1&Hwf1&_); [apply Hmaps|].
  fold m1 in Hr1, Hwf1. specialize (Hwf1 (boot_ram_wf _ contents_ok)).
  assert (tables_fit m1) as Hfit1 by (unfold tables_fit; by rewrite Hr1).
  destruct (load_segments_ok bytes image.(segments) m1) as (m2&Hload&[Hm2 _]&Hr2&Hout&Hin); [done..|].
  exists m2. split_and!; [done|done|]. intros s i Hs Hi. unfold guest_byte. rewrite Forall_forall in Hmapped.
  pose proof (proj1 (Forall_forall _ _) (proj1 Hsegs) s Hs) as Hswf.
  rewrite (walk_tables (image_mappings image)).
  - rewrite (segment_translate _ bytes) by auto. simpl. by rewrite Hin.
  - apply (tables_hold_ext _ m1); [done| |by apply installed_tables_hold].
    intros x Hx. apply Hout. by apply (segments_avoid_tables bytes).
  - apply Hmaps.
  - by apply mappings_wf_low.
  - apply segment_wf_virtual in Hswf. lia.
Qed.
Lemma prepare_runs m :
  load_segments bytes image.(segments) (installed image.(image_mappings) (boot_ram contents)) = (Ok tt, m) →
  prepare_elf64_guest mmap bytes = Ok (image_layout image, m).
Proof.
  intros Hload. pose proof image_layout_wf as Hlay.
  pose proof (parse_wf _ _ bytes_fit length_fits parsed) as (Heq&_&Hsegs&(e&He&_&Hentry)&Hmaps&_).
  unfold prepare_elf64_guest. rewrite parsed. cbn [mbind res_bind].
  rewrite (memory_new_ok mmap 0 LONG_MODE_IDENTITY_MAP_SIZE contents);
    [|longmode_consts; ulia|longmode_consts; ulia|by repeat split|exact mapped].
  cbn [mbind res_bind]. fold boot_region (boot_ram contents). change (region (boot_ram contents)) with boot_region.
  rewrite with_page_mappings_ok; [|by repeat split| |unfold PROOF_STACK_POINTER; ulia|by apply mappings_wf_u64|exact Hlay].
  - cbn [mbind res_bind]. fold (image_layout image).
    rewrite (install_page_tables_ok _ _ Hlay (boot_ram_wf _ contents_ok) eq_refl).
    unfold load. rewrite Heq. cbn [page_mappings image_layout]. by rewrite Hload.
  - apply (segment_wf_entry bytes e); [|exact Hentry]. by apply (proj1 (Forall_forall _ _) (proj1 Hsegs)).
Qed.
End booting.

(** C3: an accepted ELF image boots as its program headers say.  Building
    the guest from any image [parse] accepts succeeds whenever the host can
    map 2 MiB of RAM, no [expect] on the way fails, and in the resulting
    memory every virtual address of every load segment, translated through
    the installed page tables, reads the file byte the segment assigns to it,
    or zero past its file size; the entry point in particular reads a byte of
    the image. *)
Theorem elf64_boot_spec mmap bytes image contents :
  bytes_ok bytes → usize (len bytes) → parse bytes = Ok image →
  mmap LONG_MODE_IDENTITY_MAP_SIZE = Ok contents → store_ok contents →
  ∃ layout m, prepare_elf64_guest mmap bytes = Ok (layout, m) ∧
    layout.(layout_entry) = image.(image_entry) ∧ memory_wf m ∧
    (∀ s i, s ∈ image.(segments) → 0 ≤ i < s.(memory_size) →
       guest_byte m (s.(virtual_address) + i) = Some (segment_byte bytes s i)) ∧
    ∃ s i, s ∈ image.(segments) ∧ executable s = true ∧ 0 ≤ i < s.(file_size) ∧
       image.(image_entry) = s.(virtual_address) + i ∧
       guest_byte m image.(image_entry) = Some (nth (Z.to_nat (s.(file_offset) + i)) bytes 0).
Proof.
  intros Hb Hlen Hparse Hmm Hstore.
  pose proof (parse_wf _ _ Hb Hlen Hparse) as (_&_&Hsegs&(e&He&Hex&Hentry)&_).
  destruct (image_loaded bytes image contents Hb Hlen Hparse Hstore) as (m&Hload&Hwf&Hview).
  exists (image_layout image), m. split_and!; [by apply (prepare_runs _ _ _ contents)|done|done|done|].
  pose proof (proj1 (Forall_forall _ _) (proj1 Hsegs) e He) as (?&?&?&?&?&_).
  exists e, (image.(image_entry) - e.(virtual_address)). split_and!; [done|done|lia|lia|lia|].
  replace (image_entry image) with (virtual_address e + (image_entry image - virtual_address e)) at 1 by lia.
  rewrite Hview; [|exact He|lia]. unfold segment_byte. by zcmp.
Qed.

Lemma elf64_boot_spec_witness :
  ∃ layout m, prepare_elf64_guest (λ _, Ok (λ _, 0)) proof_fixture = Ok (layout, m) ∧
              guest_byte m 0x400100 = Some 0x48 ∧ guest_byte m 0x40017f = Some 0.
Proof.
  destruct proof_fixture_ok as [Hb Hl].
  assert (∃ s f e ms, parse proof_fixture =
    Ok (mkImage proof_fixture e [s] ms) ∧ s = mkSegment 0 0 292 384 0x400000 0x10000 f)
    as (s&f&e&ms&Hp&Hs) by (do 4 eexists; split; [vm_compute; reflexivity|reflexivity]).
  destruct (elf64_boot_spec (λ _, Ok (λ _, 0)) proof_fixture _ (λ _, 0) Hb Hl Hp eq_refl)
    as (layout&m&Hrun&_&_&Hview&_); [intros o; ulia|].
  exists layout, m. split; [exact Hrun|]. subst s. split.
  - etransitivity; [refine (Hview _ 0x100 (list_elem_of_here _ _) _); simpl; lia|].
    vm_compute. reflexivity.
  - etransitivity; [refine (Hview _ 0x17f (list_elem_of_here _ _) _); simpl; lia|].
    vm_compute. reflexivity.
Defined.
