(* ===== verification/GuestTables.v ===== *)
(** The tables a long-mode guest is started with beyond the boot page tables:
    the GDT and IDT of [src/src/interrupt.rs], the device pages of
    [src/src/mmio/long_mode.rs], the layout of [src/src/mmio/interrupt.rs] that
    has both, and the PIC routes of [src/src/mmio/routing.rs] that say which
    vectors the gates serve.  The IDT is checked against a reference decoder,
    the page tables against the reference walk of [LongMode]. *)

From S2P Require Import Prelude Errors Memory Loader LongMode Boot.

(** Memories that differ at most in the bytes from [lo] up to [hi]. *)
Definition window (lo hi : Z) (m m' : GuestMemory) : Prop :=
  m'.(region) = m.(region) ∧ (memory_wf m → memory_wf m') ∧
  ∀ x, x < lo ∨ hi ≤ x → byte_at m' x = byte_at m x.
#[global] Instance window_preorder lo hi : PreOrder (window lo hi).
Proof.
  split; [intros m; by split_and!|]. intros m1 m2 m3 (H1&H2&H3) (H4&H5&H6).
  split_and!; [congruence|auto|]. intros x Hx. rewrite H6 by done. by apply H3.
Qed.
Lemma window_set lo hi m a bs :
  lo ≤ a → a + len bs ≤ hi → bytes_ok bs → window lo hi m (mem_set m a bs).
Proof.
  intros. split_and!; [apply mem_set_region|eauto with bytes|].
  intros. apply byte_at_set_out. lia.
Qed.
Lemma window_widen lo hi lo' hi' m m' : lo' ≤ lo → hi ≤ hi' → window lo hi m m' → window lo' hi' m m'.
Proof. intros ?? (?&?&Hx). split_and!; [done..|]. intros. apply Hx. lia. Qed.
Lemma table_window_window m m' :
  table_window m m' → window LONG_MODE_PML4_ADDR LONG_MODE_PAGE_TABLE_END m m'.
Proof. done. Qed.
Lemma window_fits lo hi m m' : window lo hi m m' → tables_fit m → tables_fit m'.
Proof. intros (Hr&Hw&_) (?&?&?). unfold tables_fit. rewrite Hr. auto. Qed.
Lemma window_mem_get lo hi m m' a n :
  window lo hi m m' → 0 ≤ n → a + n ≤ lo ∨ hi ≤ a → mem_get m' a n = mem_get m a n.
Proof. intros (?&_&Hx) ??. apply mem_get_ext; [done|done|]. intros. apply Hx. lia. Qed.
Lemma write_fits m a bs :
  tables_fit m → 0 ≤ a → a + len bs ≤ LONG_MODE_IDENTITY_MAP_SIZE →
  write_mut a bs m = (Ok tt, mem_set m a bs).
Proof. intros (?&?&?) ??. apply write_mut_ok; [done|]. unfold in_region. longmode_consts. lia. Qed.

(** * Interrupt gates: [src/src/interrupt.rs] *)
Module Gates.

Definition LONG_MODE_INTERRUPT_GDT_ADDR : GuestPhysAddr := 0x5000.
Definition LONG_MODE_INTERRUPT_IDT_ADDR : GuestPhysAddr := 0x6000.
Definition LONG_MODE_INTERRUPT_TABLE_END : GuestPhysAddr := 0x7000.
Definition LONG_MODE_INTERRUPT_VECTOR : Z := 0x40.
Definition LONG_MODE_INTERRUPT_GUEST_ENTRY : GuestPhysAddr := 0x10000.
Definition LONG_MODE_INTERRUPT_HANDLER : GuestPhysAddr := 0x11000.
Definition LONG_MODE_INTERRUPT_STACK_POINTER : Z := 0x1ff000.
Definition X86_EXCEPTION_VECTOR_COUNT : Z := 32.
Definition X86_INTERRUPT_GATE_SIZE : Z := 16.
Definition X86_LONG_MODE_CODE_SELECTOR : Z := 0x8.
Definition X86_INTERRUPT_GATE_PRESENT_RING0 : Z := 0x8e.
Definition X86_MAX_INTERRUPT_FRAME_BYTES : Z := 5 * 8.
Definition GDT_LIMIT : Z := 23.
Definition GDT_BYTES : list Z :=
  [0; 0; 0; 0; 0; 0; 0; 0;
   0xff; 0xff; 0x00; 0x00; 0x00; 0x9b; 0xaf; 0x00;
   0xff; 0xff; 0x00; 0x00; 0x00; 0x93; 0x8f; 0x00].
Definition LONG_MODE_INTERRUPT_GUEST_BYTES : list Z := [0xfb; 0x90; 0xb0; 0x4d; 0xe6; 0xe9; 0xf4].
Definition LONG_MODE_INTERRUPT_HANDLER_BYTES : list Z := [0xb0; 0x49; 0xe6; 0xe9; 0x48; 0xcf].

Record LongModeInterruptGate := mkGate { gate_vector : Z; gate_handler : GuestPhysAddr }.

Inductive LongModeInterruptConfigurationError :=
  | Boot (error : LongModeConfigurationError)
  | NoInterruptGates
  | VectorReservedForExceptions (vector : Z)
  | DuplicateInterruptVector (vector : Z)
  | EntryOverlapsInterruptTables (entry : Z)
  | HandlerOutsideIdentityMap (handler mapped_size : Z)
  | HandlerOverlapsReservedTables (handler : Z)
  | InterruptStackFrameOutsideIdentityMap (stack_pointer frame_bytes : Z)
  | InterruptStackFrameOverlapsReservedTables (stack_pointer frame_start : Z).

Record LongModeInterruptLayout := mkInterruptLayout {
  boot : LongModeBootLayout;
  gates : list LongModeInterruptGate;
  idt_limit : Z
}.

Definition is_interrupt_table_address (address : Z) : bool :=
  (LONG_MODE_INTERRUPT_GDT_ADDR <=? address) && (address <? LONG_MODE_INTERRUPT_TABLE_END).
Definition is_reserved_table_address (address : Z) : bool :=
  (LONG_MODE_PML4_ADDR <=? address) && (address <? LONG_MODE_INTERRUPT_TABLE_END).

(** The body of the loop of [with_gates] over [gates], which carries [max_vector]. *)
Definition check_gate (previous : list LongModeInterruptGate) (max_vector : Z)
    (gate : LongModeInterruptGate) : res LongModeInterruptConfigurationError Z :=
  let vector := gate.(gate_vector) in
  let handler := gate.(gate_handler) in
  _ ← err_if (vector <? X86_EXCEPTION_VECTOR_COUNT) (VectorReservedForExceptions vector);
  _ ← err_if (existsb (λ existing, existing.(gate_vector) =? vector) previous)
        (DuplicateInterruptVector vector);
  _ ← err_if (LONG_MODE_IDENTITY_MAP_SIZE <=? handler)
        (HandlerOutsideIdentityMap handler LONG_MODE_IDENTITY_MAP_SIZE);
  _ ← err_if (is_reserved_table_address handler) (HandlerOverlapsReservedTables handler);
  Ok (Z.max max_vector vector).

(** The limit [with_gates] computes in 16 bits. *)
Definition idt_limit_of (max_vector : Z) : option Z :=
  entries ← checked_add 16 max_vector 1;
  bytes ← checked_mul 16 entries X86_INTERRUPT_GATE_SIZE;
  checked_sub bytes 1.

(** [LongModeInterruptLayout::with_gates]. *)
Definition with_gates (memory : GuestMemoryRegion) (entry : GuestPhysAddr) (sp : Z)
    (gates : list LongModeInterruptGate)
    : res LongModeInterruptConfigurationError LongModeInterruptLayout :=
  boot ← map_err Boot (layout_new memory entry sp);
  _ ← err_if (match gates with [] => true | _ => false end) NoInterruptGates;
  _ ← err_if (is_interrupt_table_address entry) (EntryOverlapsInterruptTables entry);
  frame_start ← ok_or (checked_sub sp X86_MAX_INTERRUPT_FRAME_BYTES)
                  (InterruptStackFrameOutsideIdentityMap sp X86_MAX_INTERRUPT_FRAME_BYTES);
  _ ← err_if (ranges_overlap frame_start sp LONG_MODE_PML4_ADDR LONG_MODE_INTERRUPT_TABLE_END)
        (InterruptStackFrameOverlapsReservedTables sp frame_start);
  max_vector ← for_enumerated check_gate [] gates 0;
  limit ← expect (idt_limit_of max_vector);
  Ok (mkInterruptLayout boot gates limit).

(** [LongModeInterruptLayout::new]. *)
Definition interrupt_layout_new (memory : GuestMemoryRegion) (entry : GuestPhysAddr) (sp vector : Z)
    (handler : GuestPhysAddr) : res LongModeInterruptConfigurationError LongModeInterruptLayout :=
  with_gates memory entry sp [mkGate vector handler].

(** [LongModeInterruptLayout::vector] and [handler], which index the first gate. *)
Definition vector (layout : LongModeInterruptLayout) : res Error Z :=
  gate_vector <$> index layout.(gates) 0.
Definition handler (layout : LongModeInterruptLayout) : res Error GuestPhysAddr :=
  gate_handler <$> index layout.(gates) 0.

Definition encode_interrupt_gate (handler : Z) : list Z :=
  let gate := replicate 16 0 in
  let gate := splice gate 0 (to_le_bytes 2 (as_width 16 handler)) in
  let gate := splice gate 2 (to_le_bytes 2 X86_LONG_MODE_CODE_SELECTOR) in
  let gate := splice gate 4 [0] in
  let gate := splice gate 5 [X86_INTERRUPT_GATE_PRESENT_RING0] in
  let gate := splice gate 6 (to_le_bytes 2 (as_width 16 (Z.shiftr handler 16))) in
  splice gate 8 (to_le_bytes 4 (as_width 32 (Z.shiftr handler 32))).

(** The gate loop of [install_tables]. *)
Fixpoint install_gates (gs : list LongModeInterruptGate) : prog GuestMemory Error unit :=
  match gs with
  | [] => mret tt
  | gate :: gs =>
      offset ← lift (umul 64 gate.(gate_vector) X86_INTERRUPT_GATE_SIZE);
      gate_address ← lift (uadd 64 LONG_MODE_INTERRUPT_IDT_ADDR offset);
      _ ← write_mut gate_address (encode_interrupt_gate gate.(gate_handler));
      install_gates gs
  end.

(** [LongModeInterruptLayout::install_tables]. *)
Definition install_tables (layout : LongModeInterruptLayout) : prog GuestMemory Error unit :=
  _ ← reading (λ m, debug_assert (bool_decide (m.(region) = layout.(boot).(layout_memory))));
  _ ← install_page_tables layout.(boot);
  let zero_page := replicate (Z.to_nat LONG_MODE_PAGE_SIZE) 0 in
  _ ← write_mut LONG_MODE_INTERRUPT_GDT_ADDR zero_page;
  _ ← write_mut LONG_MODE_INTERRUPT_IDT_ADDR zero_page;
  _ ← write_mut LONG_MODE_INTERRUPT_GDT_ADDR GDT_BYTES;
  install_gates layout.(gates).

(** ** The reference: how the processor reads a gate

    A vector whose 16 bytes do not lie within the limit, or whose present bit is
    clear, has no gate. *)
Record GateTarget := mkTarget {
  target_selector : Z; target_offset : Z; target_type : Z; target_dpl : Z; target_ist : Z
}.
Definition decode_gate (g : list Z) : option GateTarget :=
  let field a n := from_le_bytes (take n (drop a g)) in
  let attributes := field 5%nat 1%nat in
  if Z.testbit attributes 7 then
    Some (mkTarget (field 2%nat 2%nat)
            (field 0%nat 2%nat + 2 ^ 16 * field 6%nat 2%nat + 2 ^ 32 * field 8%nat 4%nat)
            (Z.land attributes 0xf) (Z.land (Z.shiftr attributes 5) 3) (Z.land (field 4%nat 1%nat) 7))
  else None.
Definition idt_gate (m : GuestMemory) (base limit v : Z) : option GateTarget :=
  if limit <? 16 * v + 15 then None else decode_gate (mem_get m (base + 16 * v) 16).
(** A GDT descriptor that a gate's selector may name: present, ring 0, 64-bit code. *)
Definition long_code_descriptor (m : GuestMemory) (base limit selector : Z) : bool :=
  let d := u64_at m (base + selector) in
  (selector + 7 <=? limit) && Z.testbit d 47 && (Z.land (Z.shiftr d 45) 3 =? 0) && Z.testbit d 44 &&
  Z.testbit d 43 && Z.testbit d 53 && negb (Z.testbit d 54).

(** ** The contract: which vectors an accepted layout serves *)
Definition gate_for (gs : list LongModeInterruptGate) (v : Z) : option GuestPhysAddr :=
  gate_handler <$> head (filter (λ gate, gate.(gate_vector) = v) gs).
Definition gate_wf (gate : LongModeInterruptGate) : Prop :=
  32 ≤ gate.(gate_vector) ∧ gate.(gate_handler) < LONG_MODE_IDENTITY_MAP_SIZE ∧
  (gate.(gate_handler) < LONG_MODE_PML4_ADDR ∨ LONG_MODE_INTERRUPT_TABLE_END ≤ gate.(gate_handler)).
Definition gate_fits (gate : LongModeInterruptGate) : Prop :=
  u8 gate.(gate_vector) ∧ u64 gate.(gate_handler).
Definition max_vector (gs : list LongModeInterruptGate) : Z :=
  fold_left (λ mx gate, Z.max mx gate.(gate_vector)) gs 0.
Definition gates_wf (gs : list LongModeInterruptGate) : Prop :=
  gs ≠ [] ∧ Forall gate_wf gs ∧ NoDup (gate_vector <$> gs).
Definition interrupt_layout_wf (layout : LongModeInterruptLayout) : Prop :=
  layout_wf layout.(boot) ∧ layout.(boot).(page_mappings) = [] ∧
  (layout.(boot).(layout_entry) < LONG_MODE_PML4_ADDR ∨
   LONG_MODE_INTERRUPT_TABLE_END ≤ layout.(boot).(layout_entry)) ∧
  40 ≤ layout.(boot).(stack_pointer) ∧
  (layout.(boot).(stack_pointer) ≤ LONG_MODE_PML4_ADDR ∨
   LONG_MODE_INTERRUPT_TABLE_END ≤ layout.(boot).(stack_pointer) - 40) ∧
  gates_wf layout.(gates) ∧ layout.(idt_limit) = 16 * max_vector layout.(gates) + 15.

Lemma check_gate_ok previous mx gate mx' :
  gate_fits gate →
  check_gate previous mx gate = Ok mx' ↔
  gate_wf gate ∧ Forall (λ p, p.(gate_vector) ≠ gate.(gate_vector)) previous ∧
  mx' = Z.max mx gate.(gate_vector).
Proof.
  intros [Hgv Hgh]. unfold check_gate, is_reserved_table_address, gate_wf. cbv zeta.
  assert (existsb (λ existing, gate_vector existing =? gate_vector gate) previous = false ↔
          Forall (λ p, gate_vector p ≠ gate_vector gate) previous) as Hd.
  { rewrite <- not_true_iff_false, existsb_exists, Forall_forall. setoid_rewrite list_elem_of_In.
    setoid_rewrite Z.eqb_eq. naive_solver. }
  rewrite <- Hd. unfold X86_EXCEPTION_VECTOR_COUNT. split.
  - intros H. bind_inv H. apply andb_false_iff in Hstep2.
    rewrite Z.leb_gt, Z.ltb_ge in Hstep2. split_and!; try done; longmode_consts; ulia.
  - intros ((?&?&?)&->&->). zcmp. cbn -[Z.leb Z.ltb]. zcmp. cbn -[Z.leb Z.ltb].
    destruct (Z.leb_spec LONG_MODE_PML4_ADDR (gate_handler gate)),
      (Z.ltb_spec (gate_handler gate) LONG_MODE_INTERRUPT_TABLE_END); done || lia.
Qed.
Lemma max_vector_bound gs : Forall gate_fits gs → 0 ≤ max_vector gs ≤ 255.
Proof.
  unfold max_vector. intros Hgs.
  enough (∀ z, 0 ≤ z ≤ 255 → 0 ≤ fold_left (λ mx gate, Z.max mx (gate_vector gate)) gs z ≤ 255) by auto with lia.
  induction Hgs as [|g gs [??] _ IH]; intros z Hz; simpl; [lia|]. apply IH. ulia.
Qed.
Lemma idt_limit_of_ok mx : 0 ≤ mx ≤ 255 → idt_limit_of mx = Some (16 * mx + 15).
Proof.
  intros. unfold idt_limit_of, X86_INTERRUPT_GATE_SIZE.
  rewrite (proj2 (checked_add_Some 16 mx 1 (mx + 1))) by (split; [done|lia]). cbn -[checked_mul checked_sub].
  rewrite (proj2 (checked_mul_Some 16 (mx + 1) 16 ((mx + 1) * 16))) by (split; [done|lia]).
  cbn -[checked_sub]. apply checked_sub_Some. lia.
Qed.
Lemma gates_accepted gs mx :
  Forall gate_fits gs →
  for_enumerated check_gate [] gs 0 = Ok mx ↔
  Forall gate_wf gs ∧ NoDup (gate_vector <$> gs) ∧ mx = max_vector gs.
Proof.
  intros Hgs. rewrite (for_enumerated_ok check_gate gate_fits gate_wf
    (λ x y, gate_vector x ≠ gate_vector y) (λ mx gate, Z.max mx (gate_vector gate))) by
    (done || intros; by apply check_gate_ok).
  rewrite NoDup_fmap_pairs. naive_solver.
Qed.
Lemma frame_free sp :
  ranges_overlap (sp - 40) sp LONG_MODE_PML4_ADDR LONG_MODE_INTERRUPT_TABLE_END = false ↔
  sp ≤ LONG_MODE_PML4_ADDR ∨ LONG_MODE_INTERRUPT_TABLE_END ≤ sp - 40.
Proof. unfold ranges_overlap. rewrite andb_false_iff, !Z.ltb_ge. lia. Qed.

Section accepted.
Context (memory : GuestMemoryRegion) (entry sp : Z) (gs : list LongModeInterruptGate).
Hypothesis memory_ok : region_wf memory.
Hypothesis entry_u64 : u64 entry.
Hypothesis sp_u64 : u64 sp.
Hypothesis gates_fit : Forall gate_fits gs.
Definition gates_layout : LongModeInterruptLayout :=
  mkInterruptLayout (mkLayout memory entry sp []) gs (16 * max_vector gs + 15).
Lemma no_panic_with_gates : no_panic (with_gates memory entry sp gs).
Proof.
  unfold with_gates. do 5 (apply no_panic_bind; [auto with panics|intros]).
  apply no_panic_bind.
  { apply no_panic_for_enumerated. intros previous mx gate. unfold check_gate. cbv zeta. np. }
  intros mx (_&_&->)%gates_accepted; [|done].
  by rewrite idt_limit_of_ok by (by apply max_vector_bound).
Qed.
Lemma with_gates_sound layout :
  with_gates memory entry sp gs = Ok layout → layout = gates_layout ∧ interrupt_layout_wf layout.
Proof.
  unfold with_gates. intros H.
  apply bind_Ok_inv in H as (boot&H1&H).
  apply map_err_Ok_inv, layout_new_ok in H1 as [-> Hb]; [|done..].
  apply bind_Ok_inv in H as ([]&Hne%err_if_Ok_inv&H).
  apply bind_Ok_inv in H as ([]&He%err_if_Ok_inv&H).
  apply bind_Ok_inv in H as (start&[-> Hsp]%ok_or_Ok_inv%checked_sub_Some&H).
  apply bind_Ok_inv in H as ([]&Hf%err_if_Ok_inv%frame_free&H).
  apply bind_Ok_inv in H as (mx&(Hg&Hd&->)%gates_accepted&H); [|done].
  rewrite idt_limit_of_ok in H by (by apply max_vector_bound). simplify_eq/=.
  split; [done|]. pose proof Hb as (_&_&[[??]|[_ ?%not_elem_of_nil]]); [|done].
  unfold interrupt_layout_wf, gates_wf. simpl in *. split_and!; try done.
  - unfold is_interrupt_table_address in He. apply andb_false_iff in He.
    rewrite Z.leb_gt, Z.ltb_ge in He. unfold LONG_MODE_INTERRUPT_GDT_ADDR in *.
    longmode_consts. lia.
  - by destruct gs.
Qed.
Lemma with_gates_complete :
  interrupt_layout_wf gates_layout → with_gates memory entry sp gs = Ok gates_layout.
Proof.
  intros (Hb&_&He&Hsp&Hf&(Hne&Hg&Hd)&_). simpl in *. unfold with_gates.
  rewrite (proj2 (layout_new_ok memory entry sp _ memory_ok entry_u64 sp_u64) (conj eq_refl Hb)).
  cbn [map_err mbind res_bind]. destruct gs as [|g gs'] eqn:Eg; [done|]. cbn [err_if mbind res_bind].
  rewrite <- Eg in *.
  assert (is_interrupt_table_address entry = false) as ->.
  { unfold is_interrupt_table_address, LONG_MODE_INTERRUPT_GDT_ADDR. apply andb_false_iff.
    rewrite Z.leb_gt, Z.ltb_ge. longmode_consts. lia. }
  unfold X86_MAX_INTERRUPT_FRAME_BYTES.
  rewrite (proj2 (checked_sub_Some sp (5 * 8) (sp - 40))) by lia. cbn [ok_or err_if mbind res_bind].
  apply frame_free in Hf as ->. cbn [ok_or err_if mbind res_bind].
  rewrite (proj2 (gates_accepted gs (max_vector gs) gates_fit)) by done. cbn [mbind res_bind].
  by rewrite idt_limit_of_ok by (by apply max_vector_bound).
Qed.
End accepted.

(** ** The installed tables *)
Lemma gate_shape h :
  encode_interrupt_gate h =
    to_le_bytes 2 (as_width 16 h) ++ to_le_bytes 2 8 ++ [0; 0x8e] ++
    to_le_bytes 2 (as_width 16 (Z.shiftr h 16)) ++ to_le_bytes 4 (as_width 32 (Z.shiftr h 32)) ++
    replicate 4 0.
Proof. reflexivity. Qed.
Lemma decode_gate_shape lo sel mid hi :
  length lo = 2%nat → length sel = 2%nat → length mid = 2%nat → length hi = 4%nat →
  decode_gate (lo ++ sel ++ [0; 0x8e] ++ mid ++ hi ++ replicate 4 0) =
    Some (mkTarget (from_le_bytes sel)
            (from_le_bytes lo + 2 ^ 16 * from_le_bytes mid + 2 ^ 32 * from_le_bytes hi) 0xe 0 0).
Proof. intros. by do 3 (destruct lo, sel, mid, hi; try done); destruct hi as [|? [|??]]. Qed.
Lemma decode_encode_gate h :
  u64 h → decode_gate (encode_interrupt_gate h) = Some (mkTarget 8 h 0xe 0 0).
Proof.
  intros Hh. rewrite gate_shape, decode_gate_shape by apply length_to_le_bytes. unfold as_width.
  rewrite !from_to_le_bytes by (simpl; Z.to_euclidean_division_equations; lia).
  do 2 f_equal. rewrite !Z.shiftr_div_pow2 by lia. dlia.
Qed.
Lemma len_gate h : len (encode_interrupt_gate h) = 16.
Proof. rewrite gate_shape. unfold len. rewrite !length_app, !length_to_le_bytes. reflexivity. Qed.
Lemma bytes_ok_gate h : bytes_ok (encode_interrupt_gate h).
Proof.
  rewrite gate_shape. repeat apply bytes_ok_app; try apply to_le_bytes_ok;
    repeat constructor; ulia.
Qed.

Definition gate_address (v : Z) : Z := LONG_MODE_INTERRUPT_IDT_ADDR + 16 * v.
Definition set_gate (m : GuestMemory) (gate : LongModeInterruptGate) : GuestMemory :=
  mem_set m (gate_address gate.(gate_vector)) (encode_interrupt_gate gate.(gate_handler)).
Lemma set_gate_window m gate :
  u8 gate.(gate_vector) →
  window LONG_MODE_INTERRUPT_IDT_ADDR LONG_MODE_INTERRUPT_TABLE_END m (set_gate m gate).
Proof.
  intros. unfold set_gate, gate_address, LONG_MODE_INTERRUPT_IDT_ADDR, LONG_MODE_INTERRUPT_TABLE_END.
  apply window_set; [ulia| |apply bytes_ok_gate]. rewrite len_gate. ulia.
Qed.
Lemma set_gates_window gs m :
  Forall gate_fits gs →
  window LONG_MODE_INTERRUPT_IDT_ADDR LONG_MODE_INTERRUPT_TABLE_END m (fold_left set_gate gs m).
Proof.
  intros H. revert m. induction H as [|gate gs [Hv _] _ IH]; intros m; [done|].
  cbn [fold_left]. etrans; [by apply set_gate_window|apply IH].
Qed.
Lemma install_gates_ok gs m :
  tables_fit m → Forall gate_fits gs → install_gates gs m = (Ok tt, fold_left set_gate gs m).
Proof.
  intros Hm H. revert m Hm. induction H as [|gate gs Hg _ IH]; intros m Hm; [done|].
  pose proof Hg as [Hv _]. cbn [install_gates fold_left]. unfold X86_INTERRUPT_GATE_SIZE.
  rewrite prog_bind_lift, umul_ok by ulia.
  rewrite prog_bind_lift, uadd_ok by (unfold LONG_MODE_INTERRUPT_IDT_ADDR; ulia).
  rewrite (Z.mul_comm _ 16). fold (gate_address (gate_vector gate)).
  erewrite prog_bind_step.
  2: { apply write_fits; [done|..]; rewrite ?len_gate;
       unfold gate_address, LONG_MODE_INTERRUPT_IDT_ADDR; longmode_consts; ulia. }
  apply IH. eapply window_fits; [by apply set_gate_window|done].
Qed.

Lemma gate_for_cons gate gs v :
  gate_for (gate :: gs) v =
    if decide (gate.(gate_vector) = v) then Some gate.(gate_handler) else gate_for gs v.
Proof. unfold gate_for. rewrite filter_cons. by destruct (decide _). Qed.
Lemma gate_for_None gs v : v ∉ gate_vector <$> gs → gate_for gs v = None.
Proof.
  induction gs as [|gate gs IH]; [done|]. rewrite fmap_cons, not_elem_of_cons.
  intros [??]. rewrite gate_for_cons, decide_False by congruence. auto.
Qed.
Lemma gate_for_Some gs v h : gate_for gs v = Some h → mkGate v h ∈ gs.
Proof.
  induction gs as [|[v' h'] gs IH]; [done|]. rewrite gate_for_cons, elem_of_cons. simpl.
  destruct (decide _) as [->|]; [intros [= ->]; by left|auto].
Qed.
Lemma set_gates_bytes gs m v :
  NoDup (gate_vector <$> gs) →
  mem_get (fold_left set_gate gs m) (gate_address v) 16 =
    match gate_for gs v with
    | Some h => encode_interrupt_gate h
    | None => mem_get m (gate_address v) 16
    end.
Proof.
  revert m. induction gs as [|gate gs IH]; intros m; [done|].
  rewrite fmap_cons, NoDup_cons, gate_for_cons. intros [Hnew Hnd]. cbn [fold_left].
  rewrite IH by done. destruct (decide _) as [Heq|Hne].
  - rewrite gate_for_None by congruence. unfold set_gate. rewrite Heq.
    apply mem_get_set_len, len_gate.
  - case_match; [done|]. unfold set_gate. apply mem_get_set_disjoint; [lia|].
    rewrite len_gate. unfold gate_address. lia.
Qed.
Lemma decode_zero_gate : decode_gate (replicate 16 0) = None.
Proof. reflexivity. Qed.
Lemma fold_max_ge gs z : z ≤ fold_left (λ mx g, Z.max mx (gate_vector g)) gs z.
Proof.
  revert z. induction gs as [|g gs IH]; intros z; simpl; [lia|].
  specialize (IH (Z.max z (gate_vector g))). lia.
Qed.
Lemma max_vector_le gs gate : gate ∈ gs → gate.(gate_vector) ≤ max_vector gs.
Proof.
  unfold max_vector. generalize 0. induction gs as [|g gs IH]; intros z; [by intros ?%not_elem_of_nil|].
  rewrite elem_of_cons. simpl. intros [->|Hin]; [|by apply IH].
  pose proof (fold_max_ge gs (Z.max z (gate_vector g))). lia.
Qed.

(** The memory [install_tables] leaves. *)
Definition descriptor_pages (m : GuestMemory) : GuestMemory :=
  mem_set (zero_page_at (zero_page_at m LONG_MODE_INTERRUPT_GDT_ADDR) LONG_MODE_INTERRUPT_IDT_ADDR)
    LONG_MODE_INTERRUPT_GDT_ADDR GDT_BYTES.
Definition gates_installed (gs : list LongModeInterruptGate) (m : GuestMemory) : GuestMemory :=
  fold_left set_gate gs (descriptor_pages (installed [] m)).
Lemma len_zero_page : len (replicate (Z.to_nat LONG_MODE_PAGE_SIZE) 0) = 4096.
Proof. unfold LONG_MODE_PAGE_SIZE. rewrite len_replicate, Z2Nat.id; lia. Qed.
Lemma zero_page_in lo hi m a : lo ≤ a → a + 4096 ≤ hi → window lo hi m (zero_page_at m a).
Proof.
  intros. apply window_set; [done|rewrite len_zero_page; lia|apply bytes_ok_replicate; ulia].
Qed.
Lemma descriptor_pages_window m :
  window LONG_MODE_INTERRUPT_GDT_ADDR LONG_MODE_INTERRUPT_TABLE_END m (descriptor_pages m).
Proof.
  unfold descriptor_pages.
  etrans; [|apply window_set; [lia|vm_compute; congruence|repeat constructor; ulia]].
  do 2 (etrans; [|apply zero_page_in; vm_compute; congruence]). done.
Qed.
Lemma gates_installed_window gs m :
  Forall gate_fits gs → window LONG_MODE_PML4_ADDR LONG_MODE_INTERRUPT_TABLE_END m (gates_installed gs m).
Proof.
  intros. etrans; [|eapply window_widen; [..|by apply set_gates_window]; vm_compute; congruence].
  etrans; [|eapply window_widen; [..|apply descriptor_pages_window]; vm_compute; congruence].
  eapply window_widen; [..|apply table_window_window, installed_window; constructor];
    vm_compute; congruence.
Qed.

Lemma install_tables_ok layout m :
  interrupt_layout_wf layout → Forall gate_fits layout.(gates) → memory_wf m →
  m.(region) = layout.(boot).(layout_memory) →
  install_tables layout m = (Ok tt, gates_installed layout.(gates) m).
Proof.
  intros (Hb&Hpm&_) Hg Hm Hr. unfold install_tables, gates_installed.
  erewrite prog_bind_step by (unfold reading; by rewrite bool_decide_true by done).
  erewrite prog_bind_step by (by apply install_page_tables_ok). rewrite Hpm. cbv zeta.
  assert (tables_fit m) as Hfit by (destruct Hb as ((?&?&_)&_); unfold tables_fit; by rewrite Hr).
  assert (tables_fit (installed [] m)) as Hf0
    by (eapply table_window_fit; [apply installed_window; constructor|done]).
  set (m0 := installed [] m) in *.
  assert (tables_fit (zero_page_at m0 LONG_MODE_INTERRUPT_GDT_ADDR)) as Hf1
    by (eapply (window_fits 0x5000 0x7000); [apply zero_page_in; vm_compute; congruence|done]).
  assert (tables_fit (zero_page_at (zero_page_at m0 LONG_MODE_INTERRUPT_GDT_ADDR)
            LONG_MODE_INTERRUPT_IDT_ADDR)) as Hf2
    by (eapply (window_fits 0x5000 0x7000); [apply zero_page_in; vm_compute; congruence|done]).
  do 2 (erewrite prog_bind_step
          by (apply write_fits; [done|..]; rewrite ?len_zero_page; vm_compute; congruence)).
  erewrite prog_bind_step by (apply write_fits; [done|vm_compute; congruence..]).
  apply install_gates_ok; [|done].
  eapply (window_fits 0x5000 0x7000); [apply descriptor_pages_window|done].
Qed.

(** What the processor reads back: every vector and the code descriptor. *)
Lemma idt_page_zero m v :
  0 ≤ v ≤ 255 → mem_get (descriptor_pages m) (gate_address v) 16 = replicate 16 0.
Proof.
  intros. unfold descriptor_pages, gate_address.
  rewrite mem_get_set_disjoint by (unfold LONG_MODE_INTERRUPT_IDT_ADDR, LONG_MODE_INTERRUPT_GDT_ADDR;
    change (len GDT_BYTES) with 24; lia).
  apply (mem_get_set_zeros _ _ _ _ 16); rewrite ?Z2Nat.id by done;
    unfold LONG_MODE_INTERRUPT_IDT_ADDR, LONG_MODE_PAGE_SIZE; lia.
Qed.
Lemma idt_gate_installed gs m v :
  gates_wf gs → Forall gate_fits gs → 0 ≤ v ≤ 255 →
  idt_gate (gates_installed gs m) LONG_MODE_INTERRUPT_IDT_ADDR (16 * max_vector gs + 15) v =
    (λ h, mkTarget 8 h 0xe 0 0) <$> gate_for gs v.
Proof.
  intros (_&_&Hnd) Hg Hv. unfold idt_gate, gates_installed. fold (gate_address v).
  rewrite set_gates_bytes, idt_page_zero by done.
  destruct (gate_for gs v) as [h|] eqn:E; [|by case_match].
  apply gate_for_Some in E. pose proof (max_vector_le _ _ E) as Hmx. simpl in Hmx. zcmp.
  rewrite Forall_forall in Hg. apply decode_encode_gate, (Hg _ E).
Qed.
Lemma code_selector_installed gs m :
  Forall gate_fits gs →
  long_code_descriptor (gates_installed gs m) LONG_MODE_INTERRUPT_GDT_ADDR GDT_LIMIT
    X86_LONG_MODE_CODE_SELECTOR = true.
Proof.
  intros Hg. unfold long_code_descriptor.
  assert (u64_at (gates_installed gs m) (LONG_MODE_INTERRUPT_GDT_ADDR + X86_LONG_MODE_CODE_SELECTOR)
          = 0xaf9b000000ffff) as ->; [|reflexivity].
  unfold u64_at, gates_installed.
  erewrite window_mem_get by (by apply set_gates_window || (vm_compute; intuition congruence)).
  unfold descriptor_pages. by rewrite mem_get_set_inside by (vm_compute; congruence).
Qed.

Lemma gates_installed_tables gs m :
  Forall gate_fits gs → tables_hold [] (gates_installed gs m).
Proof.
  intros Hg. eapply tables_hold_ext; [| |apply (installed_tables_hold [] m); split; constructor].
  - etrans; [apply (set_gates_window gs _ Hg)|apply descriptor_pages_window].
  - intros x Hx. unfold gates_installed.
    destruct (set_gates_window gs (descriptor_pages (installed [] m)) Hg) as (_&_&->).
    + apply descriptor_pages_window. longmode_consts. unfold LONG_MODE_INTERRUPT_GDT_ADDR. lia.
    + longmode_consts. unfold LONG_MODE_INTERRUPT_IDT_ADDR. lia.
Qed.

(** [LongModeInterruptLayout::with_gates] never panics and accepts exactly
    the gate sets a long-mode guest can run with: a boot layout that is itself
    accepted, an entry point and a 40-byte interrupt frame below the stack top
    that both stay clear of the page tables, the GDT and the IDT, and a
    non-empty set of gates with distinct vectors above the 32 exception
    vectors, each with a handler in identity-mapped memory outside the tables;
    the IDT limit it computes in 16 bits covers the highest vector and never
    overflows. *)
Theorem with_gates_spec memory entry sp gs :
  region_wf memory → u64 entry → u64 sp → Forall gate_fits gs →
  no_panic (with_gates memory entry sp gs) ∧
  ∀ layout, with_gates memory entry sp gs = Ok layout ↔
            layout = gates_layout memory entry sp gs ∧ interrupt_layout_wf layout.
Proof.
  intros. split; [by apply no_panic_with_gates|]. intros layout. split.
  - by apply with_gates_sound.
  - intros [-> ?]. by apply with_gates_complete.
Qed.
Definition example_gates : list LongModeInterruptGate := [mkGate 0x40 0x11000; mkGate 0x41 0x12000].
Lemma example_gates_fit : Forall gate_fits example_gates.
Proof. repeat constructor; simpl; lia. Qed.
Lemma with_gates_spec_witness :
  ∃ layout, with_gates boot_region 0x10000 0x1ff000 example_gates = Ok layout ∧
            layout.(idt_limit) = 0x41f ∧ interrupt_layout_wf layout.
Proof.
  destruct (with_gates_spec boot_region 0x10000 0x1ff000 example_gates) as [_ H].
  - by repeat split.
  - ulia.
  - ulia.
  - apply example_gates_fit.
  - eexists. split; [vm_compute; reflexivity|]. split; [reflexivity|].
    eapply H. vm_compute. reflexivity.
Defined.

(** C33: installing the tables of an accepted interrupt layout succeeds on its
    RAM and writes nothing outside the page-table, GDT and IDT pages; decoding
    the IDT the way the processor does then finds, for each of the 256 vectors,
    an interrupt gate to that vector's handler through selector 8 when the layout
    has a gate for it, and no gate otherwise; selector 8 names a present ring-0
    64-bit code segment; and the page tables still map the low 2 MiB to
    themselves, so every handler address is reachable where it was loaded. *)
Theorem install_tables_spec layout m :
  interrupt_layout_wf layout → Forall gate_fits layout.(gates) → memory_wf m →
  m.(region) = layout.(boot).(layout_memory) →
  ∃ m', install_tables layout m = (Ok tt, m') ∧
    window LONG_MODE_PML4_ADDR LONG_MODE_INTERRUPT_TABLE_END m m' ∧
    (∀ v, 0 ≤ v ≤ 255 →
       idt_gate m' LONG_MODE_INTERRUPT_IDT_ADDR layout.(idt_limit) v =
         (λ h, mkTarget 8 h 0xe 0 0) <$> gate_for layout.(gates) v) ∧
    long_code_descriptor m' LONG_MODE_INTERRUPT_GDT_ADDR GDT_LIMIT 8 = true ∧
    ∀ va, 0 ≤ va < 2 ^ 48 → walk m' LONG_MODE_PML4_ADDR va = translate [] va.
Proof.
  intros Hl Hg Hm Hr. exists (gates_installed layout.(gates) m).
  pose proof Hl as (_&_&_&_&_&Hgw&->).
  split_and!; [by apply install_tables_ok|by apply gates_installed_window|
    by intros; apply idt_gate_installed|by apply code_selector_installed|].
  intros. apply walk_tables; [|constructor|constructor|done]. by apply gates_installed_tables.
Qed.
Definition example_layout : LongModeInterruptLayout := gates_layout boot_region 0x10000 0x1ff000 example_gates.
Lemma example_layout_wf : interrupt_layout_wf example_layout.
Proof.
  apply (with_gates_sound boot_region 0x10000 0x1ff000 example_gates); [by repeat split|ulia|ulia|
    apply example_gates_fit|reflexivity].
Qed.
Lemma install_tables_spec_witness :
  ∃ m', install_tables example_layout boot_memory = (Ok tt, m') ∧
    idt_gate m' LONG_MODE_INTERRUPT_IDT_ADDR 0x41f 0x41 = Some (mkTarget 8 0x12000 0xe 0 0) ∧
    idt_gate m' LONG_MODE_INTERRUPT_IDT_ADDR 0x41f 0x42 = None.
Proof.
  destruct (install_tables_spec example_layout boot_memory) as (m'&?&_&Hidt&_).
  - apply example_layout_wf.
  - apply example_gates_fit.
  - apply boot_memory_wf.
  - reflexivity.
  - exists m'. split; [done|].
    split; [exact (Hidt 0x41 ltac:(lia))|exact (Hidt 0x42 ltac:(lia))].
Defined.
End Gates.

(** * Device pages: [src/src/mmio/long_mode.rs] *)
Module DevicePages.

Definition LONG_MODE_MMIO_VIRTUAL_PAGE : Z := 0x500000.
Definition LONG_MODE_MMIO_DEVICE_GPA : Z := 0x10000000.
Definition LONG_MODE_MMIO_GUEST_ENTRY : GuestPhysAddr := 0x10000.
Definition LONG_MODE_MMIO_STACK_POINTER : Z := 0x1ff000.

Record LongModeMmioPageMapping := mkDeviceMapping { device_virtual_page : Z; device_gpa : Z }.

Inductive LongModeMmioConfigurationError :=
  | MmioBoot (error : LongModeConfigurationError)
  | NoDeviceMappings
  | VirtualPageMisaligned (virtual_page : Z)
  | VirtualPageOutsideAliasWindow (virtual_page : Z)
  | DevicePageMisaligned (device_page : Z)
  | DevicePageAddressOverflow (device_page : Z)
  | DevicePageBackedByRam (device_page ram_end : Z)
  | DuplicateDeviceVirtualPage (virtual_page : Z).

Record LongModeMmioBootLayout := mkMmioLayout {
  mmio_boot : LongModeBootLayout;
  device_mappings : list LongModeMmioPageMapping
}.

(** The body of the loop of [validate_device_mappings]; [ram_end] is
    [memory.end().get()]. *)
Definition check_device_mapping (memory : GuestMemoryRegion) (previous : list LongModeMmioPageMapping)
    (u : unit) (mapping : LongModeMmioPageMapping) : res LongModeMmioConfigurationError unit :=
  let virtual_page := mapping.(device_virtual_page) in
  let device_page := mapping.(device_gpa) in
  _ ← err_if (negb (virtual_page mod LONG_MODE_PAGE_SIZE =? 0)) (VirtualPageMisaligned virtual_page);
  _ ← err_if (negb ((LONG_MODE_ALIAS_VIRTUAL_BASE <=? virtual_page)
                    && (virtual_page <? LONG_MODE_ALIAS_VIRTUAL_END)))
        (VirtualPageOutsideAliasWindow virtual_page);
  _ ← err_if (negb (device_page mod LONG_MODE_PAGE_SIZE =? 0)) (DevicePageMisaligned device_page);
  _ ← ok_or (checked_add 64 device_page LONG_MODE_PAGE_SIZE) (DevicePageAddressOverflow device_page);
  ram_end ← (match region_end memory with Ok ram_end => Ok ram_end | _ => Panic end);
  _ ← err_if (device_page <? ram_end) (DevicePageBackedByRam device_page ram_end);
  err_if (existsb (λ existing, existing.(device_virtual_page) =? virtual_page) previous)
    (DuplicateDeviceVirtualPage virtual_page).

Definition validate_device_mappings (memory : GuestMemoryRegion) (mappings : list LongModeMmioPageMapping)
    : res LongModeMmioConfigurationError unit :=
  _ ← err_if (match mappings with [] => true | _ => false end) NoDeviceMappings;
  for_enumerated (check_device_mapping memory) [] mappings tt.

(** [LongModeMmioBootLayout::with_device_mappings] and [new]. *)
Definition with_device_mappings (memory : GuestMemoryRegion) (entry : GuestPhysAddr) (sp : Z)
    (mappings : list LongModeMmioPageMapping)
    : res LongModeMmioConfigurationError LongModeMmioBootLayout :=
  boot ← map_err MmioBoot (layout_new memory entry sp);
  _ ← validate_device_mappings memory mappings;
  Ok (mkMmioLayout boot mappings).
Definition mmio_layout_new (memory : GuestMemoryRegion) (entry : GuestPhysAddr) (sp : Z)
    : res LongModeMmioConfigurationError LongModeMmioBootLayout :=
  with_device_mappings memory entry sp
    [mkDeviceMapping LONG_MODE_MMIO_VIRTUAL_PAGE LONG_MODE_MMIO_DEVICE_GPA].

(** The PTE loop of [LongModeMmioBootLayout::install_page_tables]. *)
Fixpoint install_device_mappings (ms : list LongModeMmioPageMapping) : prog GuestMemory Error unit :=
  match ms with
  | [] => mret tt
  | mapping :: ms =>
      distance ← lift (usub mapping.(device_virtual_page) LONG_MODE_ALIAS_VIRTUAL_BASE);
      pte_index ← lift (udiv distance LONG_MODE_PAGE_SIZE);
      scaled ← lift (umul 64 pte_index 8);
      address ← lift (uadd 64 LONG_MODE_ALIAS_PT_ADDR scaled);
      _ ← write_u64 address (Z.lor mapping.(device_gpa) PAGE_TABLE_ENTRY_FLAGS);
      install_device_mappings ms
  end.

(** [LongModeMmioBootLayout::install_page_tables]. *)
Definition install_device_page_tables (layout : LongModeMmioBootLayout) : prog GuestMemory Error unit :=
  _ ← reading (λ m, debug_assert (bool_decide (m.(region) = layout.(mmio_boot).(layout_memory))));
  _ ← install_page_tables layout.(mmio_boot);
  _ ← write_u64 (LONG_MODE_PD_ADDR + ALIAS_PD_INDEX * 8)
        (Z.lor LONG_MODE_ALIAS_PT_ADDR PAGE_TABLE_ENTRY_FLAGS);
  install_device_mappings layout.(device_mappings).

(** A device page is a page mapping whose physical page is not RAM. *)
Definition as_page (mapping : LongModeMmioPageMapping) : LongModePageMapping :=
  mkPageMapping mapping.(device_virtual_page) mapping.(device_gpa).
Definition device_mapping_wf (ram_end : Z) (mapping : LongModeMmioPageMapping) : Prop :=
  mapping.(device_virtual_page) mod 4096 = 0 ∧
  LONG_MODE_ALIAS_VIRTUAL_BASE ≤ mapping.(device_virtual_page) < LONG_MODE_ALIAS_VIRTUAL_END ∧
  mapping.(device_gpa) mod 4096 = 0 ∧ mapping.(device_gpa) + 4096 < 2 ^ 64 ∧
  ram_end ≤ mapping.(device_gpa).
Definition device_mapping_u64 (mapping : LongModeMmioPageMapping) : Prop :=
  u64 mapping.(device_virtual_page) ∧ u64 mapping.(device_gpa).
Definition mmio_layout_wf (layout : LongModeMmioBootLayout) : Prop :=
  layout_wf layout.(mmio_boot) ∧ layout.(mmio_boot).(page_mappings) = [] ∧
  layout.(device_mappings) ≠ [] ∧
  Forall (device_mapping_wf layout.(mmio_boot).(layout_memory).(region_size)) layout.(device_mappings) ∧
  NoDup (device_virtual_page <$> layout.(device_mappings)).
(** The device pages a page-table entry can address. *)
Definition addressable (layout : LongModeMmioBootLayout) : Prop :=
  Forall (λ mapping, mapping.(device_gpa) < 2 ^ 52) layout.(device_mappings).

Section checked.
Context (memory : GuestMemoryRegion).
Hypothesis memory_ok : region_wf memory.
Hypothesis memory_low : memory.(base) = 0.
Lemma check_device_mapping_ok previous u mapping u' :
  device_mapping_u64 mapping →
  check_device_mapping memory previous u mapping = Ok u' ↔
  device_mapping_wf memory.(region_size) mapping ∧
  Forall (λ p, p.(device_virtual_page) ≠ mapping.(device_virtual_page)) previous ∧ u' = tt.
Proof.
  intros [Hu1 Hu2]. unfold check_device_mapping, device_mapping_wf. cbv zeta.
  rewrite region_end_ok, memory_low by done.
  assert (existsb (λ e, device_virtual_page e =? device_virtual_page mapping) previous = false ↔
          Forall (λ p, device_virtual_page p ≠ device_virtual_page mapping) previous) as Hd.
  { rewrite <- not_true_iff_false, existsb_exists, Forall_forall. setoid_rewrite list_elem_of_In.
    setoid_rewrite Z.eqb_eq. naive_solver. }
  rewrite <- Hd. destruct u'. longmode_consts. split.
  - intros H. bind_inv H. arith_inv. naive_solver lia.
  - intros ((->&?&->&?&?)&->&_).
    rewrite (proj2 (checked_add_Some 64 (device_gpa mapping) 4096 _)) by (split; [done|lia]).
    zcmp. cbn -[Z.leb Z.ltb]. by zcmp.
Qed.
Lemma no_panic_check_device_mapping previous u mapping :
  no_panic (check_device_mapping memory previous u mapping).
Proof.
  unfold check_device_mapping. rewrite region_end_ok by done. cbv zeta.
  repeat (apply no_panic_bind; [auto with panics|intros]). auto with panics.
Qed.
Lemma validate_device_mappings_ok ms :
  Forall device_mapping_u64 ms →
  validate_device_mappings memory ms = Ok tt ↔
  ms ≠ [] ∧ Forall (device_mapping_wf memory.(region_size)) ms ∧ NoDup (device_virtual_page <$> ms).
Proof.
  intros Hms. unfold validate_device_mappings. rewrite <- NoDup_fmap_pairs.
  pose proof (for_enumerated_ok (check_device_mapping memory) device_mapping_u64
    (device_mapping_wf memory.(region_size)) (λ x y, device_virtual_page x ≠ device_virtual_page y)
    (λ _ _, tt) check_device_mapping_ok [] ms tt tt Hms) as Hok.
  destruct ms as [|mapping ms]; [by split; [|intros (?&_)]|]. cbn [err_if mbind res_bind].
  rewrite Hok. split; [naive_solver|]. intros (_&?&?). split_and!; [done..|constructor|].
  by destruct (fold_left _ _ _).
Qed.
End checked.

Lemma with_device_mappings_ok memory entry sp ms layout :
  region_wf memory → u64 entry → u64 sp → Forall device_mapping_u64 ms →
  with_device_mappings memory entry sp ms = Ok layout ↔
  layout = mkMmioLayout (mkLayout memory entry sp []) ms ∧ mmio_layout_wf layout.
Proof.
  intros Hr He Hsp Hms. unfold with_device_mappings. split.
  - intros H. apply bind_Ok_inv in H as (boot&H1&H).
    apply map_err_Ok_inv, layout_new_ok in H1 as [-> Hb]; [|done..].
    pose proof Hb as ((H0&_)&_). simpl in H0.
    apply bind_Ok_inv in H as ([]&Hv&[= <-]). apply validate_device_mappings_ok in Hv as (?&?&?); [|done..].
    split; [done|]. by split_and!.
  - intros [-> (Hb&_&Hne&Hwf&Hnd)]. simpl in *. pose proof Hb as ((H0&_)&_). simpl in H0.
    rewrite (proj2 (layout_new_ok memory entry sp _ Hr He Hsp) (conj eq_refl Hb)).
    cbn [map_err mbind res_bind].
    by rewrite (proj2 (validate_device_mappings_ok memory Hr H0 ms Hms)) by done.
Qed.
Lemma no_panic_with_device_mappings memory entry sp ms :
  region_wf memory → no_panic (with_device_mappings memory entry sp ms).
Proof.
  intros. unfold with_device_mappings, validate_device_mappings.
  apply no_panic_bind; [auto with panics|intros]. apply no_panic_bind; [|done].
  apply no_panic_bind; [auto with panics|intros]. apply no_panic_for_enumerated.
  intros. by apply no_panic_check_device_mapping.
Qed.

Lemma install_device_mappings_eq ms : install_device_mappings ms = install_mappings (as_page <$> ms).
Proof. induction ms as [|mapping ms IH]; [done|]. simpl. by rewrite IH. Qed.
Lemma device_pages_fit layout :
  mmio_layout_wf layout → mappings_fit (as_page <$> layout.(device_mappings)).
Proof.
  intros (((_&?&_)&_)&_&_&Hwf&Hnd). split.
  - apply Forall_fmap. eapply Forall_impl; [exact Hwf|]. intros mapping (?&?&?&?&?).
    unfold mapping_fits. simpl. longmode_consts. lia.
  - by rewrite <- list_fmap_compose.
Qed.
Lemma install_device_page_tables_ok layout m :
  mmio_layout_wf layout → memory_wf m → m.(region) = layout.(mmio_boot).(layout_memory) →
  install_device_page_tables layout m = (Ok tt, installed (as_page <$> layout.(device_mappings)) m).
Proof.
  intros Hl Hm Hr. pose proof (device_pages_fit _ Hl) as [Hfit _].
  destruct Hl as (Hb&Hpm&Hne&_). unfold install_device_page_tables.
  erewrite prog_bind_step by (unfold reading; by rewrite bool_decide_true by done).
  erewrite prog_bind_step by (by apply install_page_tables_ok). rewrite Hpm.
  change (installed [] m) with (base_tables m).
  assert (tables_fit (base_tables m)) as Hf.
  { eapply table_window_fit; [apply base_tables_window|].
    destruct Hb as ((?&?&_)&_). unfold tables_fit. by rewrite Hr. }
  erewrite prog_bind_step by (apply write_u64_ok; [done|vm_compute; congruence..]).
  rewrite install_device_mappings_eq, install_mappings_ok; [| |done].
  - by destruct (device_mappings layout).
  - eapply table_window_fit; [|exact Hf]. apply set_u64_window; vm_compute; congruence.
Qed.
Lemma lookup_device_page ms v p :
  lookup_page (as_page <$> ms) v = Some p → mkDeviceMapping v p ∈ ms.
Proof.
  induction ms as [|[v' p'] ms IH]; [done|]. rewrite fmap_cons, lookup_page_cons, elem_of_cons. simpl.
  destruct (decide _) as [->|]; [intros [= ->]; by left|auto].
Qed.

(** [LongModeMmioBootLayout::with_device_mappings] never panics and accepts
    exactly the layouts with at least one device page, aligned and distinct
    virtual pages of the alias window, and aligned device pages beyond the end
    of RAM.  Installing an accepted layout succeeds and writes only the
    page-table pages; walked as the processor walks them the tables send each
    device page to bits 51..12 of its device address and the low 2 MiB to
    themselves.  When every device address fits those bits, an access to a device
    page therefore leaves RAM and reaches the device. *)
Theorem device_pages_spec memory entry sp ms :
  region_wf memory → u64 entry → u64 sp → Forall device_mapping_u64 ms →
  no_panic (with_device_mappings memory entry sp ms) ∧
  (∀ layout, with_device_mappings memory entry sp ms = Ok layout ↔
     layout = mkMmioLayout (mkLayout memory entry sp []) ms ∧ mmio_layout_wf layout) ∧
  ∀ layout m, with_device_mappings memory entry sp ms = Ok layout →
    memory_wf m → m.(region) = memory →
    ∃ m', install_device_page_tables layout m = (Ok tt, m') ∧
      window LONG_MODE_PML4_ADDR LONG_MODE_PAGE_TABLE_END m m' ∧
      (∀ va, 0 ≤ va < 2 ^ 48 →
         walk m' LONG_MODE_PML4_ADDR va = translate (held_page <$> (as_page <$> ms)) va) ∧
      (addressable layout → ∀ va pa, LONG_MODE_IDENTITY_MAP_SIZE ≤ va < 2 ^ 48 →
         walk m' LONG_MODE_PML4_ADDR va = Some pa →
         memory.(region_size) ≤ pa ∧
         ∃ mapping, mapping ∈ ms ∧ va = mapping.(device_virtual_page) + va mod 4096 ∧
           pa = mapping.(device_gpa) + va mod 4096).
Proof.
  intros Hr He Hsp Hms. split_and!; [by apply no_panic_with_device_mappings| |].
  { intros layout. by apply with_device_mappings_ok. }
  intros layout m Hl Hm Hreg. apply with_device_mappings_ok in Hl as [-> Hl]; [|done..].
  pose proof (device_pages_fit _ Hl) as Hfit.
  pose proof (install_device_page_tables_ok _ m Hl Hm Hreg) as Hi. simpl in Hi, Hfit.
  eexists. split; [exact Hi|].
  assert (∀ va, 0 ≤ va < 2 ^ 48 → walk (installed (as_page <$> ms) m) LONG_MODE_PML4_ADDR va =
            translate (held_page <$> (as_page <$> ms)) va) as Hwalk.
  { intros. apply walk_held_tables; [by apply installed_tables_hold|apply Hfit|done]. }
  split_and!; [by apply table_window_window, installed_window, Hfit|done|].
  intros Ha va pa Hva. rewrite Hwalk by (longmode_consts; lia). unfold translate. zcmp.
  rewrite lookup_held_page. destruct (lookup_page _ _) as [p|] eqn:E; [|done]. intros [= <-].
  apply lookup_device_page in E. unfold addressable in Ha. rewrite Forall_forall in Ha.
  specialize (Ha _ E). destruct Hl as (_&_&_&Hwf&_). rewrite Forall_forall in Hwf.
  rewrite Forall_forall in Hms.
  destruct (Hwf _ E) as (_&_&_&_&Hram), (Hms _ E) as [_ ?]. simpl in *. rewrite Z.mod_small by ulia.
  split; [dlia|]. eexists. split_and!; [exact E|simpl; dlia|done].
Qed.
Lemma device_pages_spec_witness :
  ∃ layout m', mmio_layout_new boot_region 0x10000 0x1ff000 = Ok layout ∧
    install_device_page_tables layout boot_memory = (Ok tt, m') ∧
    walk m' LONG_MODE_PML4_ADDR 0x500010 = Some 0x10000010.
Proof.
  destruct (device_pages_spec boot_region 0x10000 0x1ff000 [mkDeviceMapping 0x500000 0x10000000])
    as (_&_&H); [by repeat split|ulia|ulia|repeat constructor; simpl; ulia|].
  edestruct H as (m'&Hi&_&Hw&_); [vm_compute; reflexivity|apply boot_memory_wf|reflexivity|].
  eexists _, m'. split; [vm_compute; reflexivity|]. split; [exact Hi|].
  rewrite Hw by lia. reflexivity.
Defined.

(** The bound on device addresses is needed: [validate_device_mappings] compares
    the device page with the end of RAM but not with the address bits of a
    page-table entry, so a device page at [2 ^ 52] is accepted as lying outside
    RAM and its virtual page then reads and writes RAM page zero. *)
Lemma device_page_reaches_ram :
  ∃ layout m', with_device_mappings boot_region 0x10000 0x1ff000 [mkDeviceMapping 0x500000 (2 ^ 52)] = Ok layout ∧
    install_device_page_tables layout boot_memory = (Ok tt, m') ∧
    walk m' LONG_MODE_PML4_ADDR 0x500000 = Some 0.
Proof.
  eexists _, _. split; [vm_compute; reflexivity|]. split.
  - apply surjective_pairing.
  - vm_compute. reflexivity.
Qed.
End DevicePages.

(** * Both tables: [LongModeMmioInterruptLayout] of [src/src/mmio/interrupt.rs] *)
Module DeviceInterrupts.
Import Gates DevicePages.

Inductive LongModeMmioInterruptConfigurationError :=
  | MmioError (error : LongModeMmioConfigurationError)
  | InterruptError (error : LongModeInterruptConfigurationError).

Record LongModeMmioInterruptLayout := mkMmioInterruptLayout {
  mmio_layout : LongModeMmioBootLayout;
  interrupt_layout : LongModeInterruptLayout
}.

(** [LongModeMmioInterruptLayout::new]. *)
Definition mmio_interrupt_layout_new (memory : GuestMemoryRegion) (entry : GuestPhysAddr) (sp vector : Z)
    (handler : GuestPhysAddr)
    : res LongModeMmioInterruptConfigurationError LongModeMmioInterruptLayout :=
  mmio ← map_err MmioError (mmio_layout_new memory entry sp);
  interrupt ← map_err InterruptError (interrupt_layout_new memory entry sp vector handler);
  Ok (mkMmioInterruptLayout mmio interrupt).

(** [LongModeMmioInterruptLayout::install_tables]. *)
Definition install_mmio_interrupt_tables (layout : LongModeMmioInterruptLayout)
    : prog GuestMemory Error unit :=
  _ ← install_tables layout.(interrupt_layout);
  install_device_page_tables layout.(mmio_layout).

(** ** The guests that are started on these tables *)
Definition LONG_MODE_MMIO_GUEST_BYTES : list Z :=
  [0x48; 0xbb; 0x00; 0x00; 0x50; 0x00; 0x00; 0x00; 0x00; 0x00; 0xc6; 0x03; 0x57; 0x8a; 0x03;
   0xe6; 0xe9; 0xb0; 0x36; 0xe6; 0xe9; 0xb0; 0x34; 0xe6; 0xe9; 0xb0; 0x4d; 0xe6; 0xe9; 0xf4].
Definition MMIO_INTERRUPT_GUEST_BYTES : list Z :=
  [0xfa; 0xb0; 0x11; 0xe6; 0x20; 0xe6; 0xa0; 0xb0; 0x40; 0xe6; 0x21; 0xb0; 0x48; 0xe6; 0xa1;
   0xb0; 0x04; 0xe6; 0x21; 0xb0; 0x02; 0xe6; 0xa1; 0xb0; 0x01; 0xe6; 0x21; 0xe6; 0xa1;
   0xb0; 0xfe; 0xe6; 0x21; 0xb0; 0xff; 0xe6; 0xa1; 0xfb; 0x90;
   0x48; 0xbb; 0x00; 0x00; 0x50; 0x00; 0x00; 0x00; 0x00; 0x00; 0xc6; 0x03; 0x57;
   0xb0; 0x41; 0xe6; 0xe9; 0xb0; 0x4d; 0xe6; 0xe9; 0xb0; 0x44; 0xe6; 0xe9; 0xf4].
Definition MMIO_INTERRUPT_HANDLER_BYTES : list Z :=
  [0xb0; 0x49; 0xe6; 0xe9; 0xb0; 0x20; 0xe6; 0x20; 0x48; 0xcf].

(** A step on the memory the harness owns, and [Result::expect] on a layout. *)
Definition on_memory (step : prog GuestMemory Error unit) (m : GuestMemory) : res Error GuestMemory :=
  match step m with (Ok _, m') => Ok m' | (Err e, _) => Err e | (Panic, _) => Panic end.
Definition expect_ok {E A} (r : res E A) : res Error A := match r with Ok a => Ok a | _ => Panic end.

(** [run_long_mode_interrupt_guest], [run_long_mode_mmio_guest] and
    [run_long_mode_mmio_interrupt_guest] up to [vm.register_guest_memory]; the
    KVM calls between these steps do not touch the memory. *)
Definition prepare_interrupt_guest (mmap : Z → res io_error store)
    : res Error (LongModeInterruptLayout * GuestMemory) :=
  guest ← flat_new LONG_MODE_INTERRUPT_GUEST_ENTRY LONG_MODE_INTERRUPT_GUEST_ENTRY
            LONG_MODE_INTERRUPT_GUEST_BYTES;
  handler ← flat_new LONG_MODE_INTERRUPT_HANDLER LONG_MODE_INTERRUPT_HANDLER
              LONG_MODE_INTERRUPT_HANDLER_BYTES;
  memory ← memory_new mmap 0 LONG_MODE_IDENTITY_MAP_SIZE;
  layout ← expect_ok (interrupt_layout_new memory.(region) guest.(flat_entry)
             LONG_MODE_INTERRUPT_STACK_POINTER LONG_MODE_INTERRUPT_VECTOR handler.(flat_entry));
  memory ← on_memory (install_tables layout) memory;
  memory ← flat_load guest memory;
  memory ← flat_load handler memory;
  Ok (layout, memory).
Definition prepare_mmio_guest (mmap : Z → res io_error store)
    : res Error (LongModeMmioBootLayout * GuestMemory) :=
  image ← flat_new LONG_MODE_MMIO_GUEST_ENTRY LONG_MODE_MMIO_GUEST_ENTRY LONG_MODE_MMIO_GUEST_BYTES;
  memory ← memory_new mmap 0 LONG_MODE_IDENTITY_MAP_SIZE;
  layout ← expect_ok (mmio_layout_new memory.(region) image.(flat_entry) LONG_MODE_MMIO_STACK_POINTER);
  memory ← on_memory (install_device_page_tables layout) memory;
  memory ← flat_load image memory;
  Ok (layout, memory).
Definition prepare_mmio_interrupt_guest (mmap : Z → res io_error store)
    : res Error (LongModeMmioInterruptLayout * GuestMemory) :=
  guest ← flat_new LONG_MODE_INTERRUPT_GUEST_ENTRY LONG_MODE_INTERRUPT_GUEST_ENTRY
            MMIO_INTERRUPT_GUEST_BYTES;
  handler ← flat_new LONG_MODE_INTERRUPT_HANDLER LONG_MODE_INTERRUPT_HANDLER
              MMIO_INTERRUPT_HANDLER_BYTES;
  memory ← memory_new mmap 0 LONG_MODE_IDENTITY_MAP_SIZE;
  layout ← expect_ok (mmio_interrupt_layout_new memory.(region) guest.(flat_entry)
             LONG_MODE_MMIO_STACK_POINTER LONG_MODE_INTERRUPT_VECTOR handler.(flat_entry));
  memory ← on_memory (install_mmio_interrupt_tables layout) memory;
  memory ← flat_load guest memory;
  memory ← flat_load handler memory;
  Ok (layout, memory).

(** ** Loading images over the tables *)
Lemma flat_load_fits a e bs m :
  tables_fit m → 0 ≤ a → a + len bs ≤ LONG_MODE_IDENTITY_MAP_SIZE →
  flat_load (mkFlat a e bs) m = Ok (mem_set m a bs).
Proof.
  intros (?&?&?) ??. unfold flat_load. apply write_ok; [done|]. unfold in_region. simpl.
  longmode_consts. lia.
Qed.
Lemma loaded_tables ms m a bs :
  LONG_MODE_PAGE_TABLE_END ≤ a → tables_hold ms m → tables_hold ms (mem_set m a bs).
Proof.
  intros Ha. apply tables_hold_ext; [apply mem_set_region|]. intros. apply byte_at_set_out. lia.
Qed.
Lemma loaded_idt m a bs limit v :
  LONG_MODE_INTERRUPT_TABLE_END ≤ a → 0 ≤ v ≤ 255 →
  idt_gate (mem_set m a bs) LONG_MODE_INTERRUPT_IDT_ADDR limit v =
  idt_gate m LONG_MODE_INTERRUPT_IDT_ADDR limit v.
Proof.
  unfold LONG_MODE_INTERRUPT_TABLE_END, idt_gate, LONG_MODE_INTERRUPT_IDT_ADDR. intros.
  by rewrite mem_get_set_disjoint by lia.
Qed.
Lemma guest_reads ms m va :
  tables_hold ms m → Forall mapping_fits ms → 0 ≤ va < LONG_MODE_IDENTITY_MAP_SIZE →
  guest_byte m va = Some (byte_at m va).
Proof.
  intros ???. unfold guest_byte. rewrite (walk_held_tables ms) by (longmode_consts; done || lia).
  unfold translate. by zcmp.
Qed.
Section started.
Context (ms : list LongModePageMapping) (m0 : GuestMemory) (code handler : list Z).
Hypothesis tables : tables_hold ms m0.
Hypothesis mappings : Forall mapping_fits ms.
Hypothesis code_fits : len code ≤ 4096.
Hypothesis handler_fits : len handler ≤ 4096.
(** The memory after both images are loaded. *)
Definition started : GuestMemory :=
  mem_set (mem_set m0 LONG_MODE_INTERRUPT_GUEST_ENTRY code) LONG_MODE_INTERRUPT_HANDLER handler.
(** [bs] is what the guest fetches from [va]. *)
Definition fetches (m : GuestMemory) (va : Z) (bs : list Z) : Prop :=
  ∀ i, 0 ≤ i < len bs → guest_byte m (va + i) = Some (nth (Z.to_nat i) bs 0).
Lemma started_tables : tables_hold ms started.
Proof. by do 2 (apply loaded_tables; [vm_compute; congruence|]). Qed.
Lemma started_idt limit v :
  0 ≤ v ≤ 255 → idt_gate started LONG_MODE_INTERRUPT_IDT_ADDR limit v =
                idt_gate m0 LONG_MODE_INTERRUPT_IDT_ADDR limit v.
Proof. intros. by unfold started; do 2 rewrite loaded_idt by (done || vm_compute; congruence). Qed.
Lemma started_code : fetches started LONG_MODE_INTERRUPT_GUEST_ENTRY code.
Proof.
  intros i Hi. rewrite (guest_reads ms); [|apply started_tables|done|].
  - unfold started. rewrite byte_at_set_out, byte_at_set_in by
      (unfold LONG_MODE_INTERRUPT_GUEST_ENTRY, LONG_MODE_INTERRUPT_HANDLER; lia).
    do 3 f_equal. lia.
  - unfold LONG_MODE_INTERRUPT_GUEST_ENTRY. longmode_consts. lia.
Qed.
Lemma started_handler : fetches started LONG_MODE_INTERRUPT_HANDLER handler.
Proof.
  intros i Hi. rewrite (guest_reads ms); [|apply started_tables|done|].
  - unfold started. rewrite byte_at_set_in by (unfold LONG_MODE_INTERRUPT_HANDLER; lia).
    do 3 f_equal. lia.
  - unfold LONG_MODE_INTERRUPT_HANDLER. longmode_consts. lia.
Qed.
End started.

Section prepared.
Context (mmap : Z → res io_error store) (contents : store).
Hypothesis mapped : mmap LONG_MODE_IDENTITY_MAP_SIZE = Ok contents.
Hypothesis contents_ok : store_ok contents.
Definition interrupt_fixture : LongModeInterruptLayout :=
  gates_layout boot_region LONG_MODE_INTERRUPT_GUEST_ENTRY LONG_MODE_INTERRUPT_STACK_POINTER
    [mkGate LONG_MODE_INTERRUPT_VECTOR LONG_MODE_INTERRUPT_HANDLER].
Definition mmio_fixture : LongModeMmioBootLayout :=
  mkMmioLayout (mkLayout boot_region LONG_MODE_MMIO_GUEST_ENTRY LONG_MODE_MMIO_STACK_POINTER [])
    [mkDeviceMapping LONG_MODE_MMIO_VIRTUAL_PAGE LONG_MODE_MMIO_DEVICE_GPA].
Lemma boot_region_wf : region_wf boot_region.
Proof. by repeat split. Qed.
Lemma fixture_gates_fit : Forall gate_fits interrupt_fixture.(gates).
Proof. repeat constructor; simpl; vm_compute; intuition congruence. Qed.
Lemma interrupt_fixture_wf : interrupt_layout_wf interrupt_fixture.
Proof.
  apply (with_gates_sound boot_region LONG_MODE_INTERRUPT_GUEST_ENTRY LONG_MODE_INTERRUPT_STACK_POINTER
    interrupt_fixture.(gates)); [apply boot_region_wf|vm_compute; intuition congruence..|
    apply fixture_gates_fit|reflexivity].
Qed.
Lemma mmio_fixture_wf : mmio_layout_wf mmio_fixture.
Proof.
  apply (with_device_mappings_ok boot_region LONG_MODE_MMIO_GUEST_ENTRY LONG_MODE_MMIO_STACK_POINTER
    mmio_fixture.(device_mappings)); [apply boot_region_wf|vm_compute; intuition congruence..| |reflexivity].
  repeat constructor; simpl; vm_compute; intuition congruence.
Qed.
Lemma fixture_memory :
  memory_new mmap 0 LONG_MODE_IDENTITY_MAP_SIZE = Ok (boot_ram contents).
Proof.
  apply memory_new_ok; [vm_compute; intuition congruence..|apply boot_region_wf|exact mapped].
Qed.
Definition fixture_pages : list LongModePageMapping := as_page <$> mmio_fixture.(device_mappings).
Lemma fixture_pages_fit : mappings_fit fixture_pages.
Proof. apply device_pages_fit, mmio_fixture_wf. Qed.
Definition fixture_tables : GuestMemory :=
  installed fixture_pages (gates_installed interrupt_fixture.(gates) (boot_ram contents)).
Lemma fixture_ram_fits : tables_fit (boot_ram contents).
Proof. split_and!; [by apply boot_ram_wf|reflexivity|apply Z.le_refl]. Qed.
Lemma fixture_installs :
  on_memory (install_mmio_interrupt_tables (mkMmioInterruptLayout mmio_fixture interrupt_fixture))
    (boot_ram contents) = Ok fixture_tables.
Proof.
  destruct (gates_installed_window interrupt_fixture.(gates) (boot_ram contents) fixture_gates_fit)
    as (Hr&Hw&_).
  unfold on_memory, install_mmio_interrupt_tables. cbn [interrupt_layout mmio_layout].
  erewrite prog_bind_step.
  2: { apply install_tables_ok; [apply interrupt_fixture_wf|apply fixture_gates_fit|
         by apply boot_ram_wf|done]. }
  by rewrite install_device_page_tables_ok; [|apply mmio_fixture_wf|apply Hw, boot_ram_wf|rewrite Hr].
Qed.
Lemma fixture_tables_fit : tables_fit fixture_tables.
Proof.
  eapply table_window_fit; [apply installed_window, fixture_pages_fit|].
  eapply window_fits; [apply gates_installed_window, fixture_gates_fit|apply fixture_ram_fits].
Qed.
Lemma fixture_idt v :
  0 ≤ v ≤ 255 →
  idt_gate fixture_tables LONG_MODE_INTERRUPT_IDT_ADDR interrupt_fixture.(idt_limit) v =
    (λ h, mkTarget 8 h 0xe 0 0) <$> gate_for interrupt_fixture.(gates) v.
Proof.
  intros. rewrite <- (idt_gate_installed _ (boot_ram contents)); [|apply interrupt_fixture_wf|
    apply fixture_gates_fit|done].
  unfold idt_gate. change (idt_limit interrupt_fixture) with
    (16 * max_vector (gates interrupt_fixture) + 15). case_match; [done|]. f_equal.
  eapply window_mem_get; [apply table_window_window, installed_window, fixture_pages_fit|done|].
  unfold LONG_MODE_INTERRUPT_IDT_ADDR. longmode_consts. lia.
Qed.
Lemma bind_Ok_intro {E A B} (m : res E A) (f : A → res E B) a b : m = Ok a → f a = Ok b → m ≫= f = Ok b.
Proof. by intros -> ?. Qed.
Lemma flat_fixture a bs :
  0 < len bs ≤ 4096 → 0 ≤ a ≤ LONG_MODE_IDENTITY_MAP_SIZE → flat_new a a bs = Ok (mkFlat a a bs).
Proof.
  intros. unfold flat_new. rewrite (proj2 (try_from_Some 64 (len bs) (len bs))) by (split; [done|lia]).
  longmode_consts. zcmp. cbn [err_if ok_or mbind res_bind].
  rewrite (proj2 (checked_add_Some 64 a (len bs) (a + len bs))) by (split; [done|lia]).
  cbn [err_if ok_or mbind res_bind]. by zcmp.
Qed.
Lemma fixture_layouts :
  expect_ok (mmio_interrupt_layout_new boot_region LONG_MODE_INTERRUPT_GUEST_ENTRY
    LONG_MODE_MMIO_STACK_POINTER LONG_MODE_INTERRUPT_VECTOR LONG_MODE_INTERRUPT_HANDLER) =
  Ok (mkMmioInterruptLayout mmio_fixture interrupt_fixture).
Proof. vm_compute. reflexivity. Qed.
Lemma fixture_loads m code handler :
  tables_fit m → len code ≤ 4096 → len handler ≤ 4096 → bytes_ok code →
  (memory ← flat_load (mkFlat LONG_MODE_INTERRUPT_GUEST_ENTRY LONG_MODE_INTERRUPT_GUEST_ENTRY code) m;
   flat_load (mkFlat LONG_MODE_INTERRUPT_HANDLER LONG_MODE_INTERRUPT_HANDLER handler) memory) =
  Ok (started m code handler).
Proof.
  intros Hfit ???.
  rewrite flat_load_fits by (done || unfold LONG_MODE_INTERRUPT_GUEST_ENTRY; longmode_consts; lia).
  cbn [mbind res_bind].
  apply flat_load_fits; [|unfold LONG_MODE_INTERRUPT_HANDLER; longmode_consts; lia..].
  eapply (window_fits 0x10000 0x11000); [|exact Hfit].
  apply window_set; [done|unfold LONG_MODE_INTERRUPT_GUEST_ENTRY; lia|done].
Qed.
Lemma prepared_mmio_interrupt :
  prepare_mmio_interrupt_guest mmap =
    Ok (mkMmioInterruptLayout mmio_fixture interrupt_fixture,
        started fixture_tables MMIO_INTERRUPT_GUEST_BYTES MMIO_INTERRUPT_HANDLER_BYTES).
Proof.
  pose proof (fixture_loads fixture_tables MMIO_INTERRUPT_GUEST_BYTES MMIO_INTERRUPT_HANDLER_BYTES
    fixture_tables_fit ltac:(vm_compute; congruence) ltac:(vm_compute; congruence)
    ltac:(repeat constructor; ulia)) as Hl.
  apply bind_Ok_inv in Hl as (m1&Hl1&Hl2).
  unfold prepare_mmio_interrupt_guest.
  do 2 (eapply bind_Ok_intro; [apply flat_fixture; vm_compute; intuition congruence|]).
  eapply bind_Ok_intro; [apply fixture_memory|].
  eapply bind_Ok_intro; [apply fixture_layouts|].
  eapply bind_Ok_intro; [apply fixture_installs|].
  eapply bind_Ok_intro; [exact Hl1|]. eapply bind_Ok_intro; [exact Hl2|reflexivity].
Qed.
(** The two simpler guests start from the same tables, less the device page or less the gates. *)
Lemma prepared_interrupt :
  prepare_interrupt_guest mmap =
    Ok (interrupt_fixture, started (gates_installed interrupt_fixture.(gates) (boot_ram contents))
          LONG_MODE_INTERRUPT_GUEST_BYTES LONG_MODE_INTERRUPT_HANDLER_BYTES).
Proof.
  set (m := gates_installed _ _).
  assert (tables_fit m) as Hfit.
  { eapply window_fits; [apply gates_installed_window, fixture_gates_fit|apply fixture_ram_fits]. }
  pose proof (fixture_loads m LONG_MODE_INTERRUPT_GUEST_BYTES LONG_MODE_INTERRUPT_HANDLER_BYTES
    Hfit ltac:(vm_compute; congruence) ltac:(vm_compute; congruence)
    ltac:(repeat constructor; ulia)) as Hl.
  apply bind_Ok_inv in Hl as (m1&Hl1&Hl2). unfold prepare_interrupt_guest.
  do 2 (eapply bind_Ok_intro; [apply flat_fixture; vm_compute; intuition congruence|]).
  eapply bind_Ok_intro; [apply fixture_memory|].
  eapply bind_Ok_intro; [instantiate (1 := interrupt_fixture); reflexivity|].
  eapply (bind_Ok_intro _ _ m).
  { unfold on_memory. rewrite install_tables_ok; [done|apply interrupt_fixture_wf|
      apply fixture_gates_fit|by apply boot_ram_wf|done]. }
  eapply bind_Ok_intro; [exact Hl1|]. eapply bind_Ok_intro; [exact Hl2|reflexivity].
Qed.
Lemma prepared_mmio :
  prepare_mmio_guest mmap =
    Ok (mmio_fixture, mem_set (installed fixture_pages (boot_ram contents))
          LONG_MODE_MMIO_GUEST_ENTRY LONG_MODE_MMIO_GUEST_BYTES).
Proof.
  unfold prepare_mmio_guest.
  eapply bind_Ok_intro; [apply flat_fixture; vm_compute; intuition congruence|].
  eapply bind_Ok_intro; [apply fixture_memory|].
  eapply bind_Ok_intro; [instantiate (1 := mmio_fixture); reflexivity|].
  eapply (bind_Ok_intro _ _ (installed fixture_pages (boot_ram contents))).
  { unfold on_memory. by rewrite install_device_page_tables_ok;
      [|apply mmio_fixture_wf|apply boot_ram_wf|]. }
  eapply bind_Ok_intro; [|reflexivity].
  apply flat_load_fits; [|vm_compute; congruence..].
  eapply table_window_fit; [apply installed_window, fixture_pages_fit|apply fixture_ram_fits].
Qed.
Lemma translate_fixture i :
  0 ≤ i < 4096 →
  translate (held_page <$> fixture_pages) (LONG_MODE_MMIO_VIRTUAL_PAGE + i) = Some (LONG_MODE_MMIO_DEVICE_GPA + i).
Proof.
  intros. unfold translate, LONG_MODE_MMIO_VIRTUAL_PAGE. longmode_consts. zcmp.
  replace ((5242880 + i) / 4096 * 4096) with 5242880 by dlia.
  replace ((5242880 + i) mod 4096) with i by dlia. reflexivity.
Qed.
End prepared.

(** The guest memory [run_long_mode_mmio_interrupt_guest] registers is ready
    for the scenario it stages.  Whatever bytes the host's mapping starts with,
    preparation succeeds, and in the memory it leaves the guest fetches its code
    from the entry point; vector 0x40, and no other vector, has a gate, whose
    target address holds the handler's code; and an access to the virtual device
    page 0x500000 leaves RAM at the device's address. *)
Theorem prepare_mmio_interrupt_guest_spec mmap contents :
  mmap LONG_MODE_IDENTITY_MAP_SIZE = Ok contents → store_ok contents →
  ∃ layout m, prepare_mmio_interrupt_guest mmap = Ok (layout, m) ∧
    fetches m layout.(interrupt_layout).(boot).(layout_entry) MMIO_INTERRUPT_GUEST_BYTES ∧
    (∀ v, 0 ≤ v ≤ 255 →
       match idt_gate m LONG_MODE_INTERRUPT_IDT_ADDR layout.(interrupt_layout).(idt_limit) v with
       | Some t => v = 0x40 ∧ t.(target_selector) = 8 ∧ fetches m t.(target_offset) MMIO_INTERRUPT_HANDLER_BYTES
       | None => v ≠ 0x40
       end) ∧
    ∀ i, 0 ≤ i < 4096 →
      walk m LONG_MODE_PML4_ADDR (LONG_MODE_MMIO_VIRTUAL_PAGE + i) = Some (LONG_MODE_MMIO_DEVICE_GPA + i).
Proof.
  intros Hmap Hok. eexists (mkMmioInterruptLayout mmio_fixture interrupt_fixture),
    (started (fixture_tables contents) MMIO_INTERRUPT_GUEST_BYTES MMIO_INTERRUPT_HANDLER_BYTES).
  assert (tables_hold fixture_pages (fixture_tables contents)) as Ht
    by apply installed_tables_hold, fixture_pages_fit.
  pose proof fixture_pages_fit as [Hf _]. split_and!.
  - by apply prepared_mmio_interrupt.
  - by apply (started_code fixture_pages).
  - intros v Hv. cbn [interrupt_layout]. rewrite started_idt, fixture_idt by done.
    change (gates interrupt_fixture) with [mkGate 0x40 LONG_MODE_INTERRUPT_HANDLER].
    rewrite gate_for_cons. cbn [gate_vector gate_handler].
    destruct (decide _) as [<-|]; [|by cbn]. cbn [fmap option_fmap option_map target_selector target_offset].
    split_and!; [done..|].
    by apply (started_handler fixture_pages).
  - intros i Hi. rewrite (walk_held_tables fixture_pages); [|by apply started_tables|done|].
    + rewrite translate_fixture by done. done.
    + unfold LONG_MODE_MMIO_VIRTUAL_PAGE. lia.
Qed.
Definition zeroed_mmap : Z → res io_error store := λ _, Ok (λ _, 0).
Lemma prepare_mmio_interrupt_guest_spec_witness :
  ∃ layout m, prepare_mmio_interrupt_guest zeroed_mmap = Ok (layout, m) ∧
    fetches m layout.(interrupt_layout).(boot).(layout_entry) MMIO_INTERRUPT_GUEST_BYTES.
Proof.
  destruct (prepare_mmio_interrupt_guest_spec zeroed_mmap (λ _, 0)) as (layout&m&H&Hf&_).
  - reflexivity.
  - intros o. ulia.
  - exists layout, m. split; [exact H|exact Hf].
Defined.
End DeviceInterrupts.

(** * Legacy PIC routes: [src/src/mmio/routing.rs] *)
Module Routing.

Definition LEGACY_PIC_MASTER_VECTOR_BASE : Z := 0x40.
Definition LEGACY_PIC_MASTER_GSI_COUNT : Z := 8.

Record LegacyPicMmioInterruptRoute := mkRoute { device_address : Z; route_gsi : Z; route_vector : Z }.

Inductive LegacyPicMmioInterruptRoutingError :=
  | NoRoutes
  | GsiOutsideMasterPic (gsi : Z)
  | DuplicateDeviceAddress (device_address : Z)
  | DuplicateGsi (gsi : Z).

(** [LegacyPicMmioInterruptRoute::new]. *)
Definition route_new (address gsi : Z)
    : res LegacyPicMmioInterruptRoutingError LegacyPicMmioInterruptRoute :=
  _ ← err_if (LEGACY_PIC_MASTER_GSI_COUNT <=? gsi) (GsiOutsideMasterPic gsi);
  offset ← expect (try_from 8 gsi);
  vector ← expect (checked_add 8 LEGACY_PIC_MASTER_VECTOR_BASE offset);
  Ok (mkRoute address gsi vector).

(** The inner loop of [LegacyPicMmioInterruptRoutes::new]. *)
Fixpoint check_against (existing : list LegacyPicMmioInterruptRoute) (route : LegacyPicMmioInterruptRoute)
    : res LegacyPicMmioInterruptRoutingError unit :=
  match existing with
  | [] => Ok tt
  | e :: existing =>
      _ ← err_if (e.(device_address) =? route.(device_address))
            (DuplicateDeviceAddress route.(device_address));
      _ ← err_if (e.(route_gsi) =? route.(route_gsi)) (DuplicateGsi route.(route_gsi));
      check_against existing route
  end.
(** [LegacyPicMmioInterruptRoutes::new] and [route_for_device]. *)
Definition routes_new (routes : list LegacyPicMmioInterruptRoute)
    : res LegacyPicMmioInterruptRoutingError (list LegacyPicMmioInterruptRoute) :=
  _ ← err_if (match routes with [] => true | _ => false end) NoRoutes;
  _ ← for_enumerated (λ previous _ route, check_against previous route) [] routes tt;
  Ok routes.
Fixpoint route_for_device (routes : list LegacyPicMmioInterruptRoute) (address : Z)
    : option LegacyPicMmioInterruptRoute :=
  match routes with
  | [] => None
  | route :: routes =>
      if route.(device_address) =? address then Some route else route_for_device routes address
  end.

Definition route_wf (route : LegacyPicMmioInterruptRoute) : Prop :=
  0 ≤ route.(route_gsi) < 8 ∧ route.(route_vector) = 0x40 + route.(route_gsi).
Lemma route_new_ok address gsi route :
  u32 gsi → route_new address gsi = Ok route ↔
  route = mkRoute address gsi (0x40 + gsi) ∧ gsi < 8.
Proof.
  intros Hg. unfold route_new, LEGACY_PIC_MASTER_GSI_COUNT, LEGACY_PIC_MASTER_VECTOR_BASE.
  destruct (Z.leb_spec 8 gsi); cbn [err_if mbind res_bind]; [split; [done|lia]|].
  rewrite (proj2 (try_from_Some 8 gsi gsi)) by (split; [done|lia]). cbn [expect mbind res_bind].
  rewrite (proj2 (checked_add_Some 8 0x40 gsi (0x40 + gsi))) by (split; [done|lia]). cbn.
  split; [by intros [= <-]|by intros [-> _]].
Qed.
Lemma no_panic_route_new address gsi : u32 gsi → no_panic (route_new address gsi).
Proof.
  intros Hg. destruct (decide (gsi < 8)) as [Hlt|].
  - by rewrite (proj2 (route_new_ok address gsi _ Hg) (conj eq_refl Hlt)).
  - unfold route_new, LEGACY_PIC_MASTER_GSI_COUNT. by zcmp.
Qed.
Lemma check_against_ok existing route u :
  check_against existing route = Ok u ↔
  Forall (λ e, e.(device_address) ≠ route.(device_address) ∧ e.(route_gsi) ≠ route.(route_gsi)) existing.
Proof.
  destruct u. induction existing as [|e existing IH]; [by split; [constructor|]|].
  rewrite Forall_cons, <- IH. cbn [check_against].
  destruct (Z.eqb_spec (device_address e) (device_address route)); [by split; [|intros [[]]]|].
  destruct (Z.eqb_spec (route_gsi e) (route_gsi route)); [by split; [|intros [[]]]|].
  cbn [err_if mbind res_bind]. naive_solver.
Qed.
Lemma no_panic_check_against existing route : no_panic (check_against existing route).
Proof.
  induction existing; [done|]. cbn [check_against].
  repeat (apply no_panic_bind; [auto with panics|intros]). done.
Qed.
Lemma ForallOrdPairs_and {A} (R S : A → A → Prop) l :
  ForallOrdPairs (λ x y, R x y ∧ S x y) l ↔ ForallOrdPairs R l ∧ ForallOrdPairs S l.
Proof.
  split.
  - induction 1 as [|x l H _ [??]]; [split; constructor|]. apply Forall_and in H as [??].
    by split; constructor.
  - intros [H1 H2]. induction H1 as [|x l H _ IH]; [constructor|]. inversion_clear H2.
    constructor; [by apply Forall_and|by apply IH].
Qed.
Lemma pairwise_ok {E A} (body : list A → unit → A → res E unit) (R : A → A → Prop) l :
  (∀ previous u a u', body previous u a = Ok u' ↔ Forall (λ p, R p a) previous) →
  for_enumerated body [] l tt = Ok tt ↔ ForallOrdPairs R l.
Proof.
  intros Hb. rewrite (for_enumerated_ok body (λ _, True) (λ _, True) R (λ _ _, tt)).
  - split; [naive_solver|]. intros. split_and!; [by apply Forall_true|done|constructor|].
    by destruct (fold_left _ _ _).
  - intros previous u a [] _. rewrite Hb. naive_solver.
  - by apply Forall_true.
Qed.
Lemma routes_new_ok routes routes' :
  routes_new routes = Ok routes' ↔
  routes' = routes ∧ routes ≠ [] ∧ NoDup (device_address <$> routes) ∧ NoDup (route_gsi <$> routes).
Proof.
  rewrite <- !NoDup_fmap_pairs, <- ForallOrdPairs_and. unfold routes_new.
  rewrite <- (pairwise_ok (E:=LegacyPicMmioInterruptRoutingError)
    (λ previous _ route, check_against previous route)) by (intros; apply check_against_ok).
  destruct routes as [|route routes]; [by split; [|intros (_&?&_)]|]. cbn [err_if mbind res_bind].
  destruct (for_enumerated _ _ _ _) as [[]| |]; cbn [mbind res_bind]; naive_solver.
Qed.
Lemma route_for_device_Some routes address route :
  NoDup (device_address <$> routes) →
  route_for_device routes address = Some route ↔ route ∈ routes ∧ route.(device_address) = address.
Proof.
  induction routes as [|r routes IH]; [by split; [|intros [?%not_elem_of_nil]]|].
  rewrite fmap_cons, NoDup_cons. intros [Hnew Hnd]. cbn [route_for_device]. rewrite elem_of_cons.
  destruct (Z.eqb_spec (device_address r) address) as [Heq|].
  - split; [intros [= <-]; by split; [left|]|]. intros [[->|Hin] Ha]; [done|].
    destruct Hnew. rewrite Heq, <- Ha. by apply list_elem_of_fmap_2.
  - rewrite IH by done. naive_solver.
Qed.
(** The gates that serve a set of routes, one handler per route. *)
Definition route_gates (routes : list LegacyPicMmioInterruptRoute) (handlers : list GuestPhysAddr)
    : list Gates.LongModeInterruptGate :=
  zip_with (λ route h, Gates.mkGate route.(route_vector) h) routes handlers.
Lemma route_gate_vectors routes handlers :
  length handlers = length routes →
  Gates.gate_vector <$> route_gates routes handlers = route_vector <$> routes.
Proof.
  revert handlers. induction routes as [|r routes IH]; intros [|h handlers] Hl; try done.
  cbn. f_equal. apply IH. by injection Hl.
Qed.
Lemma route_vectors routes : Forall route_wf routes → route_vector <$> routes = Z.add 0x40 <$> (route_gsi <$> routes).
Proof. induction 1 as [|r routes [_ Hr] _ IH]; [done|]. rewrite !fmap_cons, Hr. by f_equal. Qed.
Definition handler_ok (h : GuestPhysAddr) : Prop :=
  0 ≤ h < LONG_MODE_IDENTITY_MAP_SIZE ∧
  (h < LONG_MODE_PML4_ADDR ∨ Gates.LONG_MODE_INTERRUPT_TABLE_END ≤ h).
Lemma route_gates_ok routes handlers :
  Forall route_wf routes → Forall handler_ok handlers →
  Forall Gates.gate_wf (route_gates routes handlers) ∧ Forall Gates.gate_fits (route_gates routes handlers).
Proof.
  intros Hr Hh. apply Forall_and. revert handlers Hh.
  induction Hr as [|r routes [Hg Hv] _ IH]; intros handlers Hh; [constructor|].
  destruct Hh as [|h handlers Hh Hhs]; [constructor|]. destruct Hh as [??]. constructor; [|by apply IH].
  unfold Gates.gate_wf, Gates.gate_fits. cbn [Gates.gate_vector Gates.gate_handler]. rewrite Hv.
  longmode_consts. split_and!; ulia.
Qed.
Lemma devices_routes devices routes :
  Forall (λ d, u32 d.2) devices →
  Forall2 (λ d route, route_new d.1 d.2 = Ok route) devices routes →
  devices.*1 = device_address <$> routes ∧ devices.*2 = route_gsi <$> routes ∧ Forall route_wf routes.
Proof.
  intros Hd Hr. induction Hr as [|d r devices routes H _ IH]; [done|].
  inversion_clear Hd as [|?? Hg Hd']. destruct (IH Hd') as (?&?&?).
  apply route_new_ok in H as [-> ?]; [|done]. rewrite !fmap_cons. split_and!; [by f_equal..|].
  constructor; [|done]. unfold route_wf. simpl. ulia.
Qed.

(** Routes of devices to the master PIC.  [route_new] never panics, refuses
    exactly the GSIs beyond the eight of the master PIC and gives GSI [g] the
    vector [0x40 + g]; a set of such routes is accepted exactly when it is not
    empty and no device and no GSI occurs twice; the lookup then finds a
    device's own route and nothing else; and one gate per route, with a
    handler outside the tables, is a gate set [with_gates] accepts: distinct
    vectors, none of them an exception. *)
Theorem routes_spec (devices : list (Z * Z)) routes handlers :
  Forall (λ d, u32 d.2) devices →
  Forall2 (λ d route, route_new d.1 d.2 = Ok route) devices routes →
  Forall handler_ok handlers →
  length handlers = length routes →
  (∀ address gsi, u32 gsi → no_panic (route_new address gsi) ∧
     ∀ route, route_new address gsi = Ok route ↔
              route = mkRoute address gsi (0x40 + gsi) ∧ gsi < 8) ∧
  (is_ok (routes_new routes) = true ↔ routes ≠ [] ∧ NoDup devices.*1 ∧ NoDup devices.*2) ∧
  (is_ok (routes_new routes) = true →
     (∀ address route, route_for_device routes address = Some route ↔
        route ∈ routes ∧ route.(device_address) = address) ∧
     Gates.gates_wf (route_gates routes handlers) ∧
     Forall Gates.gate_fits (route_gates routes handlers)).
Proof.
  intros Hd Hr Hh Hl.
  assert (devices.*1 = device_address <$> routes ∧ devices.*2 = route_gsi <$> routes ∧
          Forall route_wf routes) as (->&->&Hwf) by (by apply devices_routes).
  assert (is_ok (routes_new routes) = true ↔
          routes ≠ [] ∧ NoDup (device_address <$> routes) ∧ NoDup (route_gsi <$> routes)) as Hiff.
  { split; [|intros; by rewrite (proj2 (routes_new_ok routes routes)) by done].
    destruct (routes_new routes) eqn:E; [|done..]. apply routes_new_ok in E. intros _. apply E. }
  split_and!; [intros; split; [by apply no_panic_route_new|intros; by apply route_new_ok]|done|].
  intros (Hne&Hda&Hdg)%Hiff. destruct (route_gates_ok routes handlers Hwf Hh) as [Hgw Hgf].
  split_and!; [intros; by apply route_for_device_Some| |done].
  assert (route_gates routes handlers ≠ []) by (by destruct routes, handlers; cbn).
  split_and!; [done..|].
  rewrite route_gate_vectors, route_vectors by done. by apply NoDup_fmap_2; [intros ???; lia|].
Qed.
Lemma routes_spec_witness :
  ∃ r1 r2, routes_new [r1; r2] = Ok [r1; r2] ∧
    route_for_device [r1; r2] 0x10001000 = Some r2 ∧ route_vector r2 = 0x41 ∧
    Gates.gates_wf (route_gates [r1; r2] [0x11000; 0x12000]).
Proof.
  destruct (routes_spec [(0x10000000, 0); (0x10001000, 1)]
    [mkRoute 0x10000000 0 0x40; mkRoute 0x10001000 1 0x41] [0x11000; 0x12000]) as (_&_&H).
  - repeat constructor; simpl; ulia.
  - repeat constructor.
  - repeat constructor; unfold Gates.LONG_MODE_INTERRUPT_TABLE_END; longmode_consts; lia.
  - reflexivity.
  - destruct H as (_&Hg&_); [vm_compute; reflexivity|].
    exists (mkRoute 0x10000000 0 0x40), (mkRoute 0x10001000 1 0x41). split; [vm_compute; reflexivity|]. split_and!; [reflexivity..|exact Hg].
Defined.
End Routing.
