(* ===== verification/Privilege.v ===== *)
(** Ring 3 and address spaces: the tables with which a guest runs user code
    ([src/src/privilege.rs]) and switches between two address spaces
    ([src/src/address_space.rs]).

    The page tables are checked against a reference walk that also looks at the
    user bit of every level; the GDT, IDT and TSS against reference decoders. *)

From S2P Require Import Prelude Errors Memory Loader LongMode Boot GuestTables.
Import Gates.

(** * Definitions: [src/src/privilege.rs] *)
Module Rings.
Definition PRIVILEGE_GDT_ADDR : GuestPhysAddr := 0x5000.
Definition PRIVILEGE_IDT_ADDR : GuestPhysAddr := 0x6000.
Definition PRIVILEGE_TSS_ADDR : GuestPhysAddr := 0x7000.
Definition PRIVILEGE_PT_ADDR : GuestPhysAddr := 0x8000.
Definition PRIVILEGE_TABLE_END : GuestPhysAddr := 0x9000.
Definition PRIVILEGE_OBSERVATION_ADDR : GuestPhysAddr := 0xa000.
Definition PRIVILEGE_KERNEL_ENTRY : GuestPhysAddr := 0x10000.
Definition PRIVILEGE_USER_ENTRY : GuestPhysAddr := 0x11000.
Definition PRIVILEGE_RETURN_HANDLER : GuestPhysAddr := 0x15000.
Definition PRIVILEGE_TERMINAL_HANDLER : GuestPhysAddr := 0x13000.
Definition PRIVILEGE_BOOT_STACK : Z := 0x1ff000.
Definition PRIVILEGE_TSS_RSP0 : Z := 0x1fe000.
Definition PRIVILEGE_USER_STACK : Z := 0x1fd000.
Definition PRIVILEGE_USER_CODE_SELECTOR : Z := 0x23.
Definition PRIVILEGE_USER_DATA_SELECTOR : Z := 0x1b.
Definition PRIVILEGE_TSS_SELECTOR : Z := 0x28.
Definition PRIVILEGE_RETURN_VECTOR : Z := 0x80.
Definition PRIVILEGE_TERMINAL_VECTOR : Z := 0x81.
Definition X86_PAGE_PRESENT : Z := 1.
Definition X86_PAGE_WRITABLE : Z := Z.shiftl 1 1.
Definition X86_PAGE_USER : Z := Z.shiftl 1 2.
Definition KERNEL_CODE_SELECTOR : Z := 0x08.
Definition GDT_LIMIT : Z := 55.
Definition IDT_LIMIT : Z := 0x081f.
Definition TSS_LIMIT : Z := 103.
Definition TSS_BYTES : Z := 104.
Definition TSS_IO_BITMAP_OFFSET : Z := 102.

Inductive PrivilegeConfigurationError :=
  | BootError (error : LongModeConfigurationError)
  | AddressOutsideIdentityMap (role : string) (address : Z)
  | AddressOverlapsTables (role : string) (address : Z)
  | StackOutsideIdentityMap (role : string) (stack : Z)
  | KernelAddressSharesUserPage (role : string) (address : Z).
Record LongModePrivilegeLayout := { privilege_boot : LongModeBootLayout }.

Definition page_start (address : Z) : Z := Z.land address (unot 64 (LONG_MODE_PAGE_SIZE - 1)).
Definition is_user_page (address : Z) : bool :=
  let page := page_start address in
  (page =? page_start PRIVILEGE_USER_ENTRY) || (page =? page_start PRIVILEGE_OBSERVATION_ADDR)
  || (page =? page_start (PRIVILEGE_USER_STACK - 1)).
Definition validate_address (role : string) (address : Z) : res PrivilegeConfigurationError unit :=
  err_if (LONG_MODE_IDENTITY_MAP_SIZE <=? address) (AddressOutsideIdentityMap role address);;
  err_if ((LONG_MODE_PML4_ADDR <=? address) && (address <? PRIVILEGE_TABLE_END)) (AddressOverlapsTables role address).
Definition validate_stack (role : string) (stack : Z) : res PrivilegeConfigurationError unit :=
  err_if ((stack =? 0) || (LONG_MODE_IDENTITY_MAP_SIZE <? stack)) (StackOutsideIdentityMap role stack).
Definition validate_kernel_page (role : string) (address : Z) : res PrivilegeConfigurationError unit :=
  err_if (is_user_page address) (KernelAddressSharesUserPage role address).
(** A [for] loop that returns on the first refusal. *)
Fixpoint validate_all {E} (validate : string → Z → res E unit) (roles : list (string * Z)) : res E unit :=
  match roles with
  | [] => Ok tt
  | (role, address) :: roles => validate role address;; validate_all validate roles
  end.
(** [LongModePrivilegeLayout::new]. *)
Definition privilege_layout_new (memory : GuestMemoryRegion) : res PrivilegeConfigurationError LongModePrivilegeLayout :=
  boot ← map_err BootError (layout_new memory PRIVILEGE_KERNEL_ENTRY PRIVILEGE_BOOT_STACK);
  validate_all validate_address
    [("kernel entry", PRIVILEGE_KERNEL_ENTRY); ("user entry", PRIVILEGE_USER_ENTRY);
     ("return handler", PRIVILEGE_RETURN_HANDLER); ("terminal handler", PRIVILEGE_TERMINAL_HANDLER);
     ("selector observation", PRIVILEGE_OBSERVATION_ADDR)];;
  validate_all validate_stack
    [("bootstrap", PRIVILEGE_BOOT_STACK); ("TSS RSP0", PRIVILEGE_TSS_RSP0); ("user", PRIVILEGE_USER_STACK)];;
  validate_all validate_kernel_page
    [("kernel entry", PRIVILEGE_KERNEL_ENTRY); ("return handler", PRIVILEGE_RETURN_HANDLER);
     ("terminal handler", PRIVILEGE_TERMINAL_HANDLER); ("bootstrap stack", PRIVILEGE_BOOT_STACK - 1);
     ("TSS kernel stack", PRIVILEGE_TSS_RSP0 - 1)];;
  mret {| privilege_boot := boot |}.

(** The loop over the 512 entries of a page table. *)
Fixpoint install_ptes (table : Z) (entry : Z → Z) (count : nat) (index : Z) : prog GuestMemory Error unit :=
  match count with
  | O => mret tt
  | S count =>
      write_u64 (table + index * 8) (entry index);;
      install_ptes table entry count (index + 1)
  end.
Definition page_flags (user : bool) : Z :=
  Z.lor (Z.lor X86_PAGE_PRESENT X86_PAGE_WRITABLE) (if user then X86_PAGE_USER else 0).
Definition privilege_pte (index : Z) : Z :=
  let address := index * LONG_MODE_PAGE_SIZE in Z.lor address (page_flags (is_user_page address)).
Definition install_privilege_page_tables : prog GuestMemory Error unit :=
  write_u64 LONG_MODE_PML4_ADDR (Z.lor LONG_MODE_PDPT_ADDR 7);;
  write_u64 LONG_MODE_PDPT_ADDR (Z.lor LONG_MODE_PD_ADDR 7);;
  write_u64 LONG_MODE_PD_ADDR (Z.lor PRIVILEGE_PT_ADDR 7);;
  install_ptes PRIVILEGE_PT_ADDR privilege_pte 512 0.

Definition encode_tss_descriptor (base : Z) : list Z :=
  let d := replicate 16 0 in
  let d := splice d 0 (to_le_bytes 2 (as_width 16 TSS_LIMIT)) in
  let d := splice d 2 (to_le_bytes 2 (as_width 16 base)) in
  let d := splice d 4 [as_width 8 (Z.shiftr base 16)] in
  let d := splice d 5 [0x89] in
  let d := splice d 6 [as_width 8 (Z.land (Z.shiftr TSS_LIMIT 16) 0x0f)] in
  let d := splice d 7 [as_width 8 (Z.shiftr base 24)] in
  splice d 8 (to_le_bytes 4 (as_width 32 (Z.shiftr base 32))).
Definition gdt_bytes : list Z :=
  let gdt := replicate 56 0 in
  let gdt := splice gdt 8 [0xff; 0xff; 0; 0; 0; 0x9b; 0xaf; 0] in
  let gdt := splice gdt 16 [0xff; 0xff; 0; 0; 0; 0x93; 0x8f; 0] in
  let gdt := splice gdt 24 [0xff; 0xff; 0; 0; 0; 0xf3; 0x8f; 0] in
  let gdt := splice gdt 32 [0xff; 0xff; 0; 0; 0; 0xfb; 0xaf; 0] in
  splice gdt 40 (encode_tss_descriptor PRIVILEGE_TSS_ADDR).
Definition encode_user_interrupt_gate (handler : Z) : list Z :=
  let gate := replicate 16 0 in
  let gate := splice gate 0 (to_le_bytes 2 (as_width 16 handler)) in
  let gate := splice gate 2 (to_le_bytes 2 KERNEL_CODE_SELECTOR) in
  let gate := splice gate 4 [0] in
  let gate := splice gate 5 [0xee] in
  let gate := splice gate 6 (to_le_bytes 2 (as_width 16 (Z.shiftr handler 16))) in
  splice gate 8 (to_le_bytes 4 (as_width 32 (Z.shiftr handler 32))).
Definition tss_bytes : list Z :=
  let tss := replicate (Z.to_nat TSS_BYTES) 0 in
  let tss := splice tss 4 (to_le_bytes 8 PRIVILEGE_TSS_RSP0) in
  splice tss TSS_IO_BITMAP_OFFSET (to_le_bytes 2 (as_width 16 TSS_BYTES)).
(** [LongModePrivilegeLayout::install_tables]. *)
Definition install_privilege_tables (self : LongModePrivilegeLayout) : prog GuestMemory Error unit :=
  reading (λ m, debug_assert (bool_decide (m.(region) = (privilege_boot self).(layout_memory))));;
  install_page_tables (privilege_boot self);;
  let zero_page := replicate (Z.to_nat LONG_MODE_PAGE_SIZE) 0 in
  write_mut PRIVILEGE_GDT_ADDR zero_page;;
  write_mut PRIVILEGE_IDT_ADDR zero_page;;
  write_mut PRIVILEGE_TSS_ADDR zero_page;;
  write_mut PRIVILEGE_PT_ADDR zero_page;;
  install_privilege_page_tables;;
  write_mut PRIVILEGE_GDT_ADDR gdt_bytes;;
  write_mut (PRIVILEGE_IDT_ADDR + PRIVILEGE_RETURN_VECTOR * X86_INTERRUPT_GATE_SIZE)
    (encode_user_interrupt_gate PRIVILEGE_RETURN_HANDLER);;
  write_mut (PRIVILEGE_IDT_ADDR + PRIVILEGE_TERMINAL_VECTOR * X86_INTERRUPT_GATE_SIZE)
    (encode_user_interrupt_gate PRIVILEGE_TERMINAL_HANDLER);;
  write_mut PRIVILEGE_TSS_ADDR tss_bytes.
End Rings.
Import Rings.

(** * Definitions: [src/src/address_space.rs] *)
Module Spaces.
Definition ADDRESS_SPACE_A_CR3 : GuestPhysAddr := LONG_MODE_PML4_ADDR.
Definition ADDRESS_SPACE_B_PML4_ADDR : GuestPhysAddr := 0xb000.
Definition ADDRESS_SPACE_B_PDPT_ADDR : GuestPhysAddr := 0xc000.
Definition ADDRESS_SPACE_B_PD_ADDR : GuestPhysAddr := 0xd000.
Definition ADDRESS_SPACE_B_PT_ADDR : GuestPhysAddr := 0xe000.
Definition ADDRESS_SPACE_CR3_OBSERVATION_ADDR : GuestPhysAddr := 0xf000.
Definition ADDRESS_SPACE_B_USER_CODE_BACKING : GuestPhysAddr := 0x20000.
Definition ADDRESS_SPACE_B_USER_DATA_BACKING : GuestPhysAddr := 0x21000.
Definition ADDRESS_SPACE_B_USER_STACK_BACKING : GuestPhysAddr := 0x22000.
Inductive AddressSpaceConfigurationError :=
  | PrivilegeError (error : PrivilegeConfigurationError)
  | AddressOutsideMemory (role : string) (address : Z)
  | MisalignedAddress (role : string) (address : Z)
  | DuplicateReservedPage (first second : string) (address : Z).
Record AddressSpaceSwitchLayout := { space_privilege : LongModePrivilegeLayout; space_memory : GuestMemoryRegion }.
Definition reserved_pages : list (string * Z) :=
  [("B PML4", ADDRESS_SPACE_B_PML4_ADDR); ("B PDPT", ADDRESS_SPACE_B_PDPT_ADDR); ("B PD", ADDRESS_SPACE_B_PD_ADDR);
   ("B PT", ADDRESS_SPACE_B_PT_ADDR); ("CR3 observation", ADDRESS_SPACE_CR3_OBSERVATION_ADDR);
   ("B user code backing", ADDRESS_SPACE_B_USER_CODE_BACKING);
   ("B user data backing", ADDRESS_SPACE_B_USER_DATA_BACKING);
   ("B user stack backing", ADDRESS_SPACE_B_USER_STACK_BACKING)].
Definition validate_reserved (memory : GuestMemoryRegion) (role : string) (address : Z)
    : res AddressSpaceConfigurationError unit :=
  err_if (negb (address mod LONG_MODE_PAGE_SIZE =? 0)) (MisalignedAddress role address);;
  outside ← (if address <? base memory then Ok true
             else match region_end memory with
                  | Ok memory_end => Ok (memory_end <? address + LONG_MODE_PAGE_SIZE)
                  | _ => Panic
                  end);
  err_if outside (AddressOutsideMemory role address).
(** The inner and outer loop over pairs of reserved pages. *)
Fixpoint against_later (first : string) (first_address : Z) (later : list (string * Z))
    : res AddressSpaceConfigurationError unit :=
  match later with
  | [] => Ok tt
  | (second, second_address) :: later =>
      err_if (first_address =? second_address) (DuplicateReservedPage first second first_address);;
      against_later first first_address later
  end.
Fixpoint check_distinct (reserved : list (string * Z)) : res AddressSpaceConfigurationError unit :=
  match reserved with
  | [] => Ok tt
  | (first, first_address) :: later =>
      against_later first first_address later;;
      check_distinct later
  end.
(** [AddressSpaceSwitchLayout::new]. *)
Definition space_layout_new (memory : GuestMemoryRegion) : res AddressSpaceConfigurationError AddressSpaceSwitchLayout :=
  privilege ← map_err PrivilegeError (privilege_layout_new memory);
  validate_all (validate_reserved memory) reserved_pages;;
  check_distinct reserved_pages;;
  mret {| space_privilege := privilege; space_memory := memory |}.

Definition is_user_virtual_page (address : Z) : bool :=
  let page := page_start address in
  (page =? page_start PRIVILEGE_USER_ENTRY) || (page =? 0xa000) || (page =? page_start (PRIVILEGE_USER_STACK - 1)).
Definition second_physical (virtual_address : Z) : Z :=
  if virtual_address =? 0xa000 then ADDRESS_SPACE_B_USER_DATA_BACKING
  else if virtual_address =? PRIVILEGE_USER_ENTRY then ADDRESS_SPACE_B_USER_CODE_BACKING
  else if virtual_address =? page_start (PRIVILEGE_USER_STACK - 1) then ADDRESS_SPACE_B_USER_STACK_BACKING
  else virtual_address.
Definition second_pte (index : Z) : Z :=
  let virtual_address := index * LONG_MODE_PAGE_SIZE in
  Z.lor (second_physical virtual_address) (page_flags (is_user_virtual_page virtual_address)).
Definition install_second_root : prog GuestMemory Error unit :=
  write_u64 ADDRESS_SPACE_B_PML4_ADDR (Z.lor ADDRESS_SPACE_B_PDPT_ADDR 7);;
  write_u64 ADDRESS_SPACE_B_PDPT_ADDR (Z.lor ADDRESS_SPACE_B_PD_ADDR 7);;
  write_u64 ADDRESS_SPACE_B_PD_ADDR (Z.lor ADDRESS_SPACE_B_PT_ADDR 7);;
  install_ptes ADDRESS_SPACE_B_PT_ADDR second_pte 512 0.
Fixpoint zero_pages (pages : list Z) : prog GuestMemory Error unit :=
  match pages with
  | [] => mret tt
  | page :: pages => write_mut page (replicate (Z.to_nat LONG_MODE_PAGE_SIZE) 0);; zero_pages pages
  end.
(** [AddressSpaceSwitchLayout::install_tables]. *)
Definition install_space_tables (self : AddressSpaceSwitchLayout) : prog GuestMemory Error unit :=
  reading (λ m, debug_assert (bool_decide (m.(region) = space_memory self)));;
  install_privilege_tables (space_privilege self);;
  zero_pages [ADDRESS_SPACE_B_PML4_ADDR; ADDRESS_SPACE_B_PDPT_ADDR; ADDRESS_SPACE_B_PD_ADDR;
              ADDRESS_SPACE_B_PT_ADDR; ADDRESS_SPACE_CR3_OBSERVATION_ADDR];;
  install_second_root.
End Spaces.
Import Spaces.

(** ** The reference: a page walk by user code

    As [walk], but every level must have the user bit. *)
Definition entry_user (e : Z) : bool := Z.odd (e / 4).
Definition user_walk (m : GuestMemory) (cr3 va : Z) : option Z :=
  let usable e := entry_present e && entry_user e in
  let pml4e := table_entry m (entry_address cr3) (va / 2 ^ 39 mod 512) in
  if negb (usable pml4e) then None else
  let pdpte := table_entry m (entry_address pml4e) (va / 2 ^ 30 mod 512) in
  if negb (usable pdpte) then None else
  if entry_large pdpte then Some (pdpte mod 2 ^ 52 / 2 ^ 30 * 2 ^ 30 + va mod 2 ^ 30) else
  let pde := table_entry m (entry_address pdpte) (va / 2 ^ 21 mod 512) in
  if negb (usable pde) then None else
  if entry_large pde then Some (entry_address_2m pde + va mod 2 ^ 21) else
  let pte := table_entry m (entry_address pde) (va / 4096 mod 512) in
  if negb (usable pte) then None else
  Some (entry_address pte + va mod 4096).

(** ** The reference: how the processor reads the GDT

    A selector's two low bits are its requested privilege level and bit 2 picks
    the table; the rest is the offset of the descriptor. *)
Record SegmentRights := mkRights { rights_dpl : Z; rights_code : bool; rights_long : bool }.
Definition segment_rights (m : GuestMemory) (gdt limit selector : Z) : option SegmentRights :=
  let offset := selector / 8 * 8 in
  let d := u64_at m (gdt + offset) in
  if (offset + 7 <=? limit) && Z.testbit d 47 && Z.testbit d 44
  then Some (mkRights (d / 2 ^ 45 mod 4) (Z.testbit d 43) (Z.testbit d 53)) else None.
(** The base and limit of an available 64-bit TSS. *)
Definition tss_segment (m : GuestMemory) (gdt limit selector : Z) : option (Z * Z) :=
  let offset := selector / 8 * 8 in
  let d := u64_at m (gdt + offset) in
  let upper := u64_at m (gdt + offset + 8) in
  if (offset + 15 <=? limit) && (d / 2 ^ 40 mod 256 =? 0x89)
  then Some (d / 2 ^ 16 mod 2 ^ 24 + 2 ^ 24 * (d / 2 ^ 56 mod 2 ^ 8) + 2 ^ 32 * (upper mod 2 ^ 32),
             d mod 2 ^ 16 + 2 ^ 16 * (d / 2 ^ 48 mod 16))
  else None.
(** * Facts *)

(** ** Tables as functions of the index *)
Definition table_is (m : GuestMemory) (table : Z) (f : Z → Z) : Prop :=
  ∀ i, 0 ≤ i < 512 → table_entry m table i = f i.
Definition only_first (v : Z) (i : Z) : Z := if i =? 0 then v else 0.
Lemma u64_at_window lo hi m m' a : window lo hi m m' → a + 8 ≤ lo ∨ hi ≤ a → u64_at m' a = u64_at m a.
Proof. intros Hw Ha. unfold u64_at. by erewrite window_mem_get by (done || lia). Qed.
Lemma table_is_window lo hi m m' table f :
  window lo hi m m' → table + 4096 ≤ lo ∨ hi ≤ table → table_is m table f → table_is m' table f.
Proof. intros Hw Ht Hf i Hi. rewrite <- Hf by done. eapply u64_at_window; [done|lia]. Qed.
Lemma table_is_zero m a : table_is (zero_page_at m a) a (λ _, 0).
Proof.
  intros i Hi. unfold table_entry. rewrite u64_at_zero_page by lia. by zcmp.
Qed.
Lemma table_is_first m a v f : u64 v → table_is m a f → table_is (set_u64 m a v) a (λ i, if i =? 0 then v else f i).
Proof.
  intros Hv Hf i Hi. unfold table_entry. rewrite u64_at_set_u64 by (done || lia).
  destruct (Z.eqb_spec i 0) as [->|]; [by rewrite Z.mul_0_r, Z.add_0_r, Z.eqb_refl|].
  rewrite (proj2 (Z.eqb_neq _ _)) by lia. by apply Hf.
Qed.
Lemma table_is_ext m a f g : (∀ i, 0 ≤ i < 512 → f i = g i) → table_is m a f → table_is m a g.
Proof. intros Hfg Hf i Hi. rewrite <- Hfg by done. by apply Hf. Qed.

(** Writes into low memory, as steps. *)
Lemma set_u64_in lo hi m a v : lo ≤ a → a + 8 ≤ hi → window lo hi m (set_u64 m a v).
Proof. intros. apply window_set; autorewrite with bytes; eauto with bytes. Qed.
Lemma runs_u64 m a v (Q : GuestMemory → Prop) :
  tables_fit m → 0 ≤ a → a + 8 ≤ LONG_MODE_IDENTITY_MAP_SIZE → Q (set_u64 m a v) →
  runs (write_u64 a v) m (λ _, Q) (λ _ _, False).
Proof.
  intros Hf Ha Hb HQ. unfold runs, write_u64. rewrite write_fits; [done..|]. by autorewrite with bytes.
Qed.
Lemma runs_bytes m a bs (Q : GuestMemory → Prop) :
  tables_fit m → 0 ≤ a → a + len bs ≤ LONG_MODE_IDENTITY_MAP_SIZE → Q (mem_set m a bs) →
  runs (write_mut a bs) m (λ _, Q) (λ _ _, False).
Proof. intros Hf Ha Hb HQ. unfold runs. by rewrite write_fits. Qed.
Lemma runs_zero_page m a (Q : GuestMemory → Prop) :
  tables_fit m → 0 ≤ a → a + 4096 ≤ LONG_MODE_IDENTITY_MAP_SIZE → Q (zero_page_at m a) →
  runs (write_mut a (replicate (Z.to_nat LONG_MODE_PAGE_SIZE) 0)) m (λ _, Q) (λ _ _, False).
Proof. intros. apply runs_bytes; rewrite ?len_zero_page; done. Qed.
(** The loop over a page table. *)
Lemma install_ptes_runs table entry count : ∀ index m,
  tables_fit m → 0 ≤ table → 0 ≤ index → table + (index + Z.of_nat count) * 8 ≤ LONG_MODE_IDENTITY_MAP_SIZE →
  (∀ i, index ≤ i < index + Z.of_nat count → u64 (entry i)) →
  runs (install_ptes table entry count index) m
    (λ _ m', window (table + index * 8) (table + (index + Z.of_nat count) * 8) m m' ∧
       ∀ i, index ≤ i < index + Z.of_nat count → u64_at m' (table + 8 * i) = entry i)
    (λ _ _, False).
Proof.
  induction count as [|count IH]; intros index m Hf Ht Hi Hend Hu.
  { apply runs_ret. split; [done|]. intros i Hi'. lia. }
  cbn [install_ptes]. apply runs_bind, runs_u64; [done|lia|lia|].
  assert (window (table + index * 8) (table + (index + Z.of_nat (S count)) * 8) m
            (set_u64 m (table + index * 8) (entry index))) as Hw by (apply set_u64_in; lia).
  eapply runs_mono; [apply IH|..]; [by eapply window_fits|done|lia|lia|intros; apply Hu; lia| |done].
  intros _ m' [Hw' He]. split.
  - etrans; [exact Hw|]. eapply window_widen; [| |exact Hw']; lia.
  - intros i Hi'. destruct (decide (i = index)) as [->|]; [|apply He; lia].
    erewrite u64_at_window; [|exact Hw'|lia]. rewrite (Z.mul_comm 8), u64_at_set_u64 by (lia || apply Hu; lia).
    by rewrite Z.eqb_refl.
Qed.
Lemma install_table_runs table entry m :
  tables_fit m → 0 ≤ table → table + 4096 ≤ LONG_MODE_IDENTITY_MAP_SIZE → (∀ i, 0 ≤ i < 512 → u64 (entry i)) →
  runs (install_ptes table entry 512 0) m
    (λ _ m', window table (table + 4096) m m' ∧ table_is m' table entry) (λ _ _, False).
Proof.
  intros. eapply runs_mono; [apply install_ptes_runs; try done; lia| |done].
  intros _ m' [Hw He]. replace (table + 0 * 8) with table in Hw by lia.
  replace (table + (0 + Z.of_nat 512) * 8) with (table + 4096) in Hw by lia. split; [done|]. intros i Hi. by apply He.
Qed.

(** ** Walking four levels of which only the last has more than one entry *)
Definition page_at (p : Z) : Prop := p mod 4096 = 0 ∧ 0 ≤ p < 2 ^ 52.
Lemma link_fields p :
  page_at p → entry_present (p + 7) = true ∧ entry_user (p + 7) = true ∧ entry_large (p + 7) = false ∧
    entry_address (p + 7) = p.
Proof.
  intros [Hp Hb]. unfold entry_present, entry_user, entry_large, entry_address. rewrite !Zodd_mod.
  split_and!; [apply Z.eqb_eq; dlia|apply Z.eqb_eq; dlia|apply Z.eqb_neq; dlia|dlia].
Qed.
Record four_levels (m : GuestMemory) (root pdpt pd pt : Z) (f : Z → Z) : Prop := {
  level4 : table_is m root (only_first (pdpt + 7)); level3 : table_is m pdpt (only_first (pd + 7));
  level2 : table_is m pd (only_first (pt + 7)); level1 : table_is m pt f
}.
Section four.
Context (m : GuestMemory) (root pdpt pd pt : Z) (f : Z → Z).
Context (Htables : four_levels m root pdpt pd pt f).
Context (Hroot : page_at root) (Hpdpt : page_at pdpt) (Hpd : page_at pd) (Hpt : page_at pt).
Lemma four_root : entry_address root = root.
Proof. destruct Hroot. unfold entry_address. dlia. Qed.
Lemma walk_four va :
  0 ≤ va < 2 ^ 48 →
  walk m root va =
    if (va <? LONG_MODE_IDENTITY_MAP_SIZE) && entry_present (f (va / 4096))
    then Some (entry_address (f (va / 4096)) + va mod 4096) else None.
Proof.
  intros Hva. unfold walk. destruct Htables as [H4 H3 H2 H1]. cbv zeta.
  destruct (link_fields pdpt Hpdpt) as (P4&_&_&A4), (link_fields pd Hpd) as (P3&_&L3&A3), (link_fields pt Hpt) as (P2&_&L2&A2).
  rewrite four_root, (H4 (va / 2 ^ 39 mod 512)) by dlia. unfold only_first. longmode_consts.
  destruct (Z.eqb_spec (va / 2 ^ 39 mod 512) 0) as [E4|E4]; [|cbn; by rewrite (proj2 (Z.ltb_ge _ _)) by dlia].
  rewrite P4, A4. cbn [negb]. rewrite (H3 (va / 2 ^ 30 mod 512)) by dlia. unfold only_first.
  destruct (Z.eqb_spec (va / 2 ^ 30 mod 512) 0) as [E3|E3]; [|cbn; by rewrite (proj2 (Z.ltb_ge _ _)) by dlia].
  rewrite P3, L3, A3. cbn [negb]. rewrite (H2 (va / 2 ^ 21 mod 512)) by dlia. unfold only_first.
  destruct (Z.eqb_spec (va / 2 ^ 21 mod 512) 0) as [E2|E2]; [|cbn; by rewrite (proj2 (Z.ltb_ge _ _)) by dlia].
  rewrite P2, L2, A2. cbn [negb]. rewrite (H1 (va / 4096 mod 512)) by dlia.
  replace (va / 4096 mod 512) with (va / 4096) by dlia. rewrite (proj2 (Z.ltb_lt _ _)) by dlia. cbn [andb].
  by destruct (entry_present (f (va / 4096))).
Qed.
Lemma user_walk_four va :
  0 ≤ va < 2 ^ 48 →
  user_walk m root va =
    if (va <? LONG_MODE_IDENTITY_MAP_SIZE) && (entry_present (f (va / 4096)) && entry_user (f (va / 4096)))
    then Some (entry_address (f (va / 4096)) + va mod 4096) else None.
Proof.
  intros Hva. unfold user_walk. destruct Htables as [H4 H3 H2 H1]. cbv zeta.
  destruct (link_fields pdpt Hpdpt) as (P4&U4&_&A4), (link_fields pd Hpd) as (P3&U3&L3&A3),
    (link_fields pt Hpt) as (P2&U2&L2&A2).
  rewrite four_root, (H4 (va / 2 ^ 39 mod 512)) by dlia. unfold only_first. longmode_consts.
  destruct (Z.eqb_spec (va / 2 ^ 39 mod 512) 0) as [E4|E4]; [|cbn; by rewrite (proj2 (Z.ltb_ge _ _)) by dlia].
  rewrite P4, U4, A4. cbn [negb andb]. rewrite (H3 (va / 2 ^ 30 mod 512)) by dlia. unfold only_first.
  destruct (Z.eqb_spec (va / 2 ^ 30 mod 512) 0) as [E3|E3]; [|cbn; by rewrite (proj2 (Z.ltb_ge _ _)) by dlia].
  rewrite P3, U3, L3, A3. cbn [negb andb]. rewrite (H2 (va / 2 ^ 21 mod 512)) by dlia. unfold only_first.
  destruct (Z.eqb_spec (va / 2 ^ 21 mod 512) 0) as [E2|E2]; [|cbn; by rewrite (proj2 (Z.ltb_ge _ _)) by dlia].
  rewrite P2, U2, L2, A2. cbn [negb andb]. rewrite (H1 (va / 4096 mod 512)) by dlia.
  replace (va / 4096 mod 512) with (va / 4096) by dlia. rewrite (proj2 (Z.ltb_lt _ _)) by dlia. cbn [andb].
  by destruct (entry_present (f (va / 4096)) && entry_user (f (va / 4096))).
Qed.
End four.

(** ** The entries of the two page tables

    A table has 512 entries, so what each of them says is decided by evaluation. *)
Definition all_indices (P : Z → bool) : bool := forallb (λ n, P (Z.of_nat n)) (seq 0 512).
Lemma all_indices_spec P : all_indices P = true → ∀ i, 0 ≤ i < 512 → P i = true.
Proof.
  unfold all_indices. rewrite forallb_forall. intros H i Hi.
  specialize (H (Z.to_nat i)). rewrite Z2Nat.id in H by lia. apply H, in_seq. lia.
Qed.
Definition user_page_index (i : Z) : bool := (i =? 0x11) || (i =? 0xa) || (i =? 0x1fc).
Definition second_page (i : Z) : Z :=
  if i =? 0x11 then 0x20 else if i =? 0xa then 0x21 else if i =? 0x1fc then 0x22 else i.
Definition entry_is (e page : Z) (user : bool) : bool :=
  (0 <=? e) && (e <? 2 ^ 64) && entry_present e && eqb (entry_user e) user && (entry_address e =? page * 4096).
Lemma entry_is_fields e page user :
  entry_is e page user = true →
  u64 e ∧ entry_present e = true ∧ entry_user e = user ∧ entry_address e = page * 4096.
Proof.
  unfold entry_is. intros (((( ?%Z.leb_le&?%Z.ltb_lt)%andb_prop&?)%andb_prop&?%eqb_prop)%andb_prop&?%Z.eqb_eq)%andb_prop.
  split_and!; [ulia|done..].
Qed.
Lemma privilege_pte_fields i :
  0 ≤ i < 512 →
  u64 (privilege_pte i) ∧ entry_present (privilege_pte i) = true ∧
  entry_user (privilege_pte i) = user_page_index i ∧ entry_address (privilege_pte i) = i * 4096.
Proof.
  intros Hi. apply entry_is_fields. revert i Hi.
  apply (all_indices_spec (λ i, entry_is (privilege_pte i) i (user_page_index i))). vm_compute. reflexivity.
Qed.
Lemma second_pte_fields i :
  0 ≤ i < 512 →
  u64 (second_pte i) ∧ entry_present (second_pte i) = true ∧
  entry_user (second_pte i) = user_page_index i ∧ entry_address (second_pte i) = second_page i * 4096.
Proof.
  intros Hi. apply entry_is_fields. revert i Hi.
  apply (all_indices_spec (λ i, entry_is (second_pte i) (second_page i) (user_page_index i))).
  vm_compute. reflexivity.
Qed.

(** ** The memory the installers leave *)
Definition privilege_gate (v : Z) : list Z :=
  if v =? 0x80 then encode_user_interrupt_gate PRIVILEGE_RETURN_HANDLER
  else if v =? 0x81 then encode_user_interrupt_gate PRIVILEGE_TERMINAL_HANDLER else replicate 16 0.
Record rings_installed (m : GuestMemory) : Prop := {
  rings_pages : four_levels m 0x1000 0x2000 0x3000 0x8000 privilege_pte;
  rings_gdt : mem_get m 0x5000 56 = gdt_bytes;
  rings_idt : ∀ v, 0 ≤ v ≤ 255 → mem_get m (0x6000 + 16 * v) 16 = privilege_gate v;
  rings_tss : mem_get m 0x7000 104 = tss_bytes
}.
Lemma four_levels_window lo hi m m' root pdpt pd pt f :
  window lo hi m m' → Forall (λ t, t + 4096 ≤ lo ∨ hi ≤ t) [root; pdpt; pd; pt] →
  four_levels m root pdpt pd pt f → four_levels m' root pdpt pd pt f.
Proof.
  intros Hw Hall [H4 H3 H2 H1].
  assert (∀ t, t ∈ [root; pdpt; pd; pt] → t + 4096 ≤ lo ∨ hi ≤ t) as Ht by (by apply Forall_forall).
  split; (eapply table_is_window; [exact Hw|apply Ht; set_solver|done]).
Qed.
Lemma rings_installed_window lo hi m m' :
  window lo hi m m' → 0x9000 ≤ lo → rings_installed m → rings_installed m'.
Proof.
  intros Hw Hlo [Hp Hg Hi Ht]. split.
  - eapply four_levels_window; [exact Hw| |done]. repeat (constructor; [lia|]). constructor.
  - erewrite window_mem_get; [done|exact Hw|lia|lia].
  - intros v Hv. erewrite window_mem_get; [by apply Hi|exact Hw|lia|lia].
  - erewrite window_mem_get; [done|exact Hw|lia|lia].
Qed.
(** Three links and a page table, over three pages whose other entries are zero. *)
Lemma install_links_runs root pdpt pd pt f m :
  tables_fit m → 0 ≤ root → root + 4096 ≤ pdpt → pdpt + 4096 ≤ pd → pd + 4096 ≤ pt →
  pt + 4096 ≤ LONG_MODE_IDENTITY_MAP_SIZE → Forall page_at [root; pdpt; pd; pt] →
  (∀ i, 0 ≤ i < 512 → u64 (f i)) →
  Forall (λ t, ∃ v, table_is m t (only_first v)) [root; pdpt; pd] →
  runs (write_u64 root (Z.lor pdpt 7);; write_u64 pdpt (Z.lor pd 7);; write_u64 pd (Z.lor pt 7);;
        install_ptes pt f 512 0) m
    (λ _ m', window root (pt + 4096) m m' ∧
       (∀ x, pd + 4096 ≤ x < pt → byte_at m' x = byte_at m x) ∧ four_levels m' root pdpt pd pt f)
    (λ _ _, False).
Proof.
  intros Hfit Hr H1 H2 H3 H4 Hpages Hf Hz.
  assert (∀ t, t ∈ [root; pdpt; pd; pt] → Z.lor t 7 = t + 7) as Hlor.
  { intros t Ht. rewrite Forall_forall in Hpages. apply (lor_low_flags 12); [lia|apply Hpages, Ht|lia]. }
  rewrite !Hlor by set_solver.
  rewrite !Forall_cons in Hz. destruct Hz as ([v4 T4]&[v3 T3]&[v2 T2]&_).
  assert (LONG_MODE_IDENTITY_MAP_SIZE = 2097152) as E by done.
  apply runs_bind, runs_u64; [done|lia|lia|]. set (m1 := set_u64 m root (pdpt + 7)).
  assert (window root (root + 8) m m1) as W1 by (apply set_u64_in; lia).
  apply runs_bind, runs_u64; [by eapply window_fits|lia|lia|]. set (m2 := set_u64 m1 pdpt (pd + 7)).
  assert (window pdpt (pdpt + 8) m1 m2) as W2 by (apply set_u64_in; lia).
  assert (tables_fit m2) as Hf2 by (do 2 (eapply window_fits; [eassumption|]); done).
  apply runs_bind, runs_u64; [done|lia|lia|]. set (m3 := set_u64 m2 pd (pt + 7)).
  assert (window pd (pd + 8) m2 m3) as W3 by (apply set_u64_in; lia).
  eapply runs_mono; [apply install_table_runs; [by eapply window_fits|lia|lia|done]| |done].
  intros _ m' [W4 T1]. split_and!.
  - repeat (etrans; [|eapply window_widen; [| |eassumption]; lia]). done.
  - intros x Hx. destruct W1 as (_&_&W1), W2 as (_&_&W2), W3 as (_&_&W3), W4 as (_&_&W4).
    rewrite W4, W3, W2, W1 by lia. done.
  - assert (∀ v w i, (if i =? 0 then w else only_first v i) = only_first w i) as Eo.
    { intros v w i. unfold only_first. by destruct (i =? 0). }
    split; [| | |done].
    + eapply table_is_window; [exact W4|lia|]. eapply table_is_window; [exact W3|lia|].
      eapply table_is_window; [exact W2|lia|].
      eapply table_is_ext; [intros; apply (Eo v4)|]. by apply table_is_first; [ulia|].
    + eapply table_is_window; [exact W4|lia|]. eapply table_is_window; [exact W3|lia|].
      eapply table_is_ext; [intros; apply (Eo v3)|]. apply table_is_first; [ulia|].
      eapply table_is_window; [exact W1|lia|done].
    + eapply table_is_window; [exact W4|lia|].
      eapply table_is_ext; [intros; apply (Eo v2)|]. apply table_is_first; [ulia|].
      eapply table_is_window; [exact W2|lia|]. eapply table_is_window; [exact W1|lia|done].
Qed.
Lemma bytes_ok_dec bs : forallb (λ b, (0 <=? b) && (b <? 256)) bs = true → bytes_ok bs.
Proof.
  rewrite forallb_forall. intros H. apply Forall_forall. intros b Hb%list_elem_of_In.
  apply H in Hb as [?%Z.leb_le ?%Z.ltb_lt]%andb_prop. ulia.
Qed.
(** The descriptors, over zeroed pages. *)
Definition gate_slot (v : Z) : Z := 0x6000 + v * X86_INTERRUPT_GATE_SIZE.
Definition descriptors (m : GuestMemory) : GuestMemory :=
  let m := mem_set m 0x5000 gdt_bytes in
  let m := mem_set m (gate_slot 0x80) (encode_user_interrupt_gate PRIVILEGE_RETURN_HANDLER) in
  let m := mem_set m (gate_slot 0x81) (encode_user_interrupt_gate PRIVILEGE_TERMINAL_HANDLER) in
  mem_set m 0x7000 tss_bytes.
Lemma descriptors_runs m (Q : GuestMemory → Prop) :
  tables_fit m → Q (descriptors m) →
  runs (write_mut PRIVILEGE_GDT_ADDR gdt_bytes;;
        write_mut (PRIVILEGE_IDT_ADDR + PRIVILEGE_RETURN_VECTOR * X86_INTERRUPT_GATE_SIZE)
          (encode_user_interrupt_gate PRIVILEGE_RETURN_HANDLER);;
        write_mut (PRIVILEGE_IDT_ADDR + PRIVILEGE_TERMINAL_VECTOR * X86_INTERRUPT_GATE_SIZE)
          (encode_user_interrupt_gate PRIVILEGE_TERMINAL_HANDLER);;
        write_mut PRIVILEGE_TSS_ADDR tss_bytes) m (λ _, Q) (λ _ _, False).
Proof.
  intros Hf HQ.
  assert (∀ m a bs, tables_fit m → forallb (λ b, (0 <=? b) && (b <? 256)) bs = true → tables_fit (mem_set m a bs)) as Hset.
  { intros m0 a bs Hf0 Hok. eapply window_fits; [|exact Hf0].
    apply (window_set a (a + len bs)); [lia|lia|by apply bytes_ok_dec]. }
  do 3 (apply runs_bind, runs_bytes; [repeat apply Hset; done|vm_compute; congruence..|]).
  apply runs_bytes; [repeat apply Hset; done|vm_compute; congruence..|]. exact HQ.
Qed.
Lemma descriptors_window m : window 0x5000 0x8000 m (descriptors m).
Proof.
  unfold descriptors. cbv zeta.
  do 4 (etrans; [|apply window_set; [vm_compute; congruence|vm_compute; congruence|by apply bytes_ok_dec]]). done.
Qed.
Lemma descriptors_gdt m : mem_get (descriptors m) 0x5000 56 = gdt_bytes.
Proof.
  unfold descriptors. cbv zeta.
  do 3 (rewrite mem_get_set_disjoint by (vm_compute; intuition congruence)). by apply mem_get_set_len.
Qed.
Lemma descriptors_tss m : mem_get (descriptors m) 0x7000 104 = tss_bytes.
Proof. by apply mem_get_set_len. Qed.
Lemma len_user_gate h : len (encode_user_interrupt_gate h) = 16.
Proof. unfold encode_user_interrupt_gate. cbv zeta. by autorewrite with bytes. Qed.
Lemma descriptors_idt m v :
  0 ≤ v ≤ 255 → mem_get m (0x6000 + 16 * v) 16 = replicate 16 0 →
  mem_get (descriptors m) (0x6000 + 16 * v) 16 = privilege_gate v.
Proof.
  intros Hv Hz. unfold descriptors, gate_slot, X86_INTERRUPT_GATE_SIZE, privilege_gate. cbv zeta.
  rewrite mem_get_set_disjoint by (change (len tss_bytes) with 104; lia).
  destruct (Z.eqb_spec v 0x81) as [->|].
  { apply mem_get_set_len, len_user_gate. }
  rewrite mem_get_set_disjoint by (rewrite ?len_user_gate; lia).
  destruct (Z.eqb_spec v 0x80) as [->|]; [apply mem_get_set_len, len_user_gate|].
  rewrite mem_get_set_disjoint by (rewrite ?len_user_gate; lia).
  by rewrite mem_get_set_disjoint by (change (len gdt_bytes) with 56; lia).
Qed.
Lemma table_is_base m m' t v :
  tables_hold [] m → window 0x5000 0x9000 m m' → In (t, v) [(0x1000, 0x2003); (0x2000, 0x3003); (0x3000, 0x83)] →
  table_is m' t (only_first v).
Proof.
  intros Ht Hw Hin. eapply table_is_window; [exact Hw|simpl in Hin; intuition (simplify_eq; lia)|].
  intros i Hi. unfold only_first. destruct Hin as [|[|[|[]]]]; simplify_eq.
  - by apply (pml4_entry []).
  - by apply (pdpt_entry []).
  - rewrite (pd_entry []) by done. by destruct (i =? 0), (i =? 2).
Qed.
Lemma install_privilege_tables_runs layout m :
  layout_wf (privilege_boot layout) → page_mappings (privilege_boot layout) = [] → memory_wf m →
  m.(region) = layout_memory (privilege_boot layout) →
  runs (install_privilege_tables layout) m
    (λ _ m', window 0x1000 0x9000 m m' ∧ rings_installed m') (λ _ _, False).
Proof.
  intros Hl Hpm Hm Hr. pose proof Hl as ((?&?&_)&_).
  assert (tables_fit m) as Hfit by (unfold tables_fit; by rewrite Hr).
  unfold install_privilege_tables. apply runs_bind, runs_reading; rewrite bool_decide_true by done; [done| |done].
  intros _ _. apply runs_bind. unfold runs at 1. rewrite install_page_tables_ok, Hpm by done.
  set (m0 := installed [] m).
  assert (table_window m m0) as W0 by (apply installed_window; constructor).
  assert (tables_hold [] m0) as T0 by (apply installed_tables_hold; split; constructor).
  assert (tables_fit m0) as F0 by (by eapply table_window_fit). cbv zeta.
  apply runs_bind, runs_zero_page; [done|vm_compute; congruence..|].
  apply runs_bind, runs_zero_page; [eapply (window_fits 0x5000 0x9000); [apply zero_page_in; vm_compute; congruence|done]|vm_compute; congruence..|].
  set (m2 := zero_page_at (zero_page_at m0 _) _).
  assert (window 0x5000 0x9000 m0 m2) as W2 by (do 2 (etrans; [|apply zero_page_in; vm_compute; congruence]); done).
  apply runs_bind, runs_zero_page; [by eapply window_fits|vm_compute; congruence..|].
  set (m3 := zero_page_at m2 _).
  assert (window 0x7000 0x9000 m2 m3) as W3 by (apply zero_page_in; vm_compute; congruence).
  apply runs_bind, runs_zero_page; [do 2 (eapply window_fits; [eassumption|]); done|vm_compute; congruence..|].
  set (m4 := zero_page_at m3 _).
  assert (window 0x7000 0x9000 m2 m4) as W4 by (etrans; [exact W3|apply zero_page_in; vm_compute; congruence]).
  assert (window 0x5000 0x9000 m0 m4) as W04 by (etrans; [exact W2|eapply window_widen; [| |exact W4]; lia]).
  unfold install_privilege_page_tables. apply runs_bind. eapply runs_mono;
    [apply (install_links_runs LONG_MODE_PML4_ADDR LONG_MODE_PDPT_ADDR LONG_MODE_PD_ADDR PRIVILEGE_PT_ADDR privilege_pte)|..];
    [by eapply window_fits|vm_compute; congruence..| | | | |].
  - repeat (constructor; [split; [done|vm_compute; intuition congruence]|]). constructor.
  - intros i Hi. by apply privilege_pte_fields.
  - repeat (constructor; [eexists; eapply table_is_base; [done|exact W04|simpl; tauto]|]). constructor.
  - intros _ m5 (W5&Hkeep&H5). change (window 0x1000 0x9000 m4 m5) in W5.
    change (∀ x, 0x4000 ≤ x < 0x8000 → byte_at m5 x = byte_at m4 x) in Hkeep.
    change (four_levels m5 0x1000 0x2000 0x3000 0x8000 privilege_pte) in H5.
    assert (window 0x1000 0x9000 m m4) as W.
    { etrans; [eapply window_widen; [| |apply (table_window_window _ _ W0)]; vm_compute; congruence|].
      eapply window_widen; [| |exact W04]; lia. }
    assert (window 0x1000 0x9000 m m5) as W' by (etrans; [exact W|eapply window_widen; [| |exact W5]; lia]).
    apply descriptors_runs; [by eapply window_fits|]. split.
    { etrans; [exact W'|]. eapply window_widen; [| |apply descriptors_window]; lia. }
    split; [|apply descriptors_gdt| |apply descriptors_tss].
    + eapply four_levels_window; [apply descriptors_window| |exact H5].
      repeat (constructor; [lia|]). constructor.
    + intros v Hv. apply descriptors_idt; [done|]. destruct W5 as (R5&_&_).
      rewrite (mem_get_ext m5 m4) by (first [done|lia|intros; apply Hkeep; lia]).
      erewrite window_mem_get; [|exact W4|lia|lia].
      apply (mem_get_set_zeros _ _ _ _ 16); unfold PRIVILEGE_IDT_ADDR, LONG_MODE_PAGE_SIZE; lia.
  - done.
Qed.
Lemma zero_pages_runs pages : ∀ m,
  tables_fit m → Forall (λ p, 0xb000 ≤ p ∧ p + 4096 ≤ 0x10000) pages →
  (∀ p q, p ∈ pages → q ∈ pages → p = q ∨ p + 4096 ≤ q ∨ q + 4096 ≤ p) →
  runs (zero_pages pages) m
    (λ _ m', window 0xb000 0x10000 m m' ∧
       ∀ p, (p ∈ pages ∨ ((∀ q, q ∈ pages → p + 4096 ≤ q ∨ q + 4096 ≤ p) ∧ table_is m p (λ _, 0))) → table_is m' p (λ _, 0))
    (λ _ _, False).
Proof.
  induction pages as [|a pages IH]; intros m Hf Hall Hdisj; cbn [zero_pages].
  { apply runs_ret. split; [done|]. intros p [[]%elem_of_nil|[_ ?]]. done. }
  apply Forall_cons in Hall as [[Ha1 Ha2] Hall].
  apply runs_bind, runs_zero_page; [done|lia|longmode_consts; lia|].
  assert (window 0xb000 0x10000 m (zero_page_at m a)) as W by (by apply zero_page_in).
  eapply runs_mono; [apply IH|..]; [by eapply window_fits|done|set_solver| |done].
  intros _ m' [W' Hz]. split; [by etrans|]. intros p Hp. apply Hz.
  destruct (decide (p ∈ pages)) as [|Hn]; [by left|]. right. destruct Hp as [Hp|[Hq Ht]].
  - apply elem_of_cons in Hp as [->|]; [|done]. split; [|apply table_is_zero].
    intros q Hq. destruct (Hdisj a q) as [->|]; set_solver.
  - split; [set_solver|]. eapply (table_is_window a (a + 4096)); [by apply zero_page_in|..|done].
    destruct (Hq a); [set_solver|lia..].
Qed.
Ltac spaces_consts :=
  unfold ADDRESS_SPACE_B_PML4_ADDR, ADDRESS_SPACE_B_PDPT_ADDR, ADDRESS_SPACE_B_PD_ADDR, ADDRESS_SPACE_B_PT_ADDR,
    ADDRESS_SPACE_CR3_OBSERVATION_ADDR in *.
Lemma install_space_tables_runs layout m :
  layout_wf (privilege_boot (space_privilege layout)) → page_mappings (privilege_boot (space_privilege layout)) = [] →
  memory_wf m → m.(region) = layout_memory (privilege_boot (space_privilege layout)) → m.(region) = space_memory layout →
  runs (install_space_tables layout) m
    (λ _ m', (m'.(region) = m.(region) ∧ (memory_wf m → memory_wf m') ∧
              (∀ x, x < 0x1000 ∨ 0x9000 ≤ x < 0xb000 ∨ 0x10000 ≤ x → byte_at m' x = byte_at m x)) ∧
       rings_installed m' ∧ four_levels m' 0xb000 0xc000 0xd000 0xe000 second_pte) (λ _ _, False).
Proof.
  intros Hl Hpm Hm Hr Hs. pose proof Hl as ((?&?&_)&_).
  assert (tables_fit m) as Hfit by (unfold tables_fit; by rewrite Hr).
  unfold install_space_tables. apply runs_bind, runs_reading; rewrite bool_decide_true by done; [done| |done].
  intros _ _. apply runs_bind. eapply runs_mono; [by apply install_privilege_tables_runs| |done].
  intros _ m1 [W1 R1]. assert (tables_fit m1) as F1 by (by eapply window_fits).
  apply runs_bind. eapply runs_mono; [apply zero_pages_runs; [done| |]| |done].
  { repeat (constructor; [vm_compute; intuition congruence|]). constructor. }
  { intros p q Hp Hq. rewrite !elem_of_cons, elem_of_nil in Hp, Hq. spaces_consts. lia. }
  intros _ m2 [W2 Z2]. assert (tables_fit m2) as F2 by (by eapply window_fits).
  unfold install_second_root. eapply runs_mono;
    [apply (install_links_runs ADDRESS_SPACE_B_PML4_ADDR ADDRESS_SPACE_B_PDPT_ADDR ADDRESS_SPACE_B_PD_ADDR
              ADDRESS_SPACE_B_PT_ADDR second_pte)|..];
    [done|vm_compute; congruence..| | | | |done].
  - repeat (constructor; [split; [done|vm_compute; intuition congruence]|]). constructor.
  - intros i Hi. by apply second_pte_fields.
  - repeat (constructor; [exists 0; eapply table_is_ext; [|apply Z2; left; set_solver]; intros i _; unfold only_first;
      by destruct (i =? 0)|]). constructor.
  - intros _ m3 (W3&_&H3). change (window 0xb000 0xf000 m2 m3) in W3.
    assert (window 0xb000 0x10000 m1 m3) as W by (etrans; [exact W2|eapply window_widen; [| |exact W3]; lia]).
    split_and!; [destruct W1 as (E1&_), W as (E&_); congruence|destruct W1 as (_&?&_), W as (_&?&_); auto|..].
    + intros x Hx. destruct W1 as (_&_&W1), W as (_&_&W). rewrite W, W1 by lia. done.
    + eapply rings_installed_window; [exact W|lia|done].
    + exact H3.
Qed.

(** ** What the processor finds *)
Lemma rings_walk m va :
  rings_installed m → 0 ≤ va < 2 ^ 48 →
  walk m LONG_MODE_PML4_ADDR va = (if va <? LONG_MODE_IDENTITY_MAP_SIZE then Some va else None) ∧
  user_walk m LONG_MODE_PML4_ADDR va =
    (if (va <? LONG_MODE_IDENTITY_MAP_SIZE) && user_page_index (va / 4096) then Some va else None).
Proof.
  intros [H _ _ _] Hva.
  rewrite (walk_four m LONG_MODE_PML4_ADDR 0x2000 0x3000 0x8000 privilege_pte),
    (user_walk_four m LONG_MODE_PML4_ADDR 0x2000 0x3000 0x8000 privilege_pte) by done.
  destruct (Z.ltb_spec va LONG_MODE_IDENTITY_MAP_SIZE); [|done]. longmode_consts.
  destruct (privilege_pte_fields (va / 4096)) as (_&->&->&->); [dlia|]. cbn [andb].
  replace (va / 4096 * 4096 + va mod 4096) with va by dlia. done.
Qed.
Lemma second_walk m va :
  four_levels m 0xb000 0xc000 0xd000 0xe000 second_pte → 0 ≤ va < 2 ^ 48 →
  let target := second_page (va / 4096) * 4096 + va mod 4096 in
  walk m ADDRESS_SPACE_B_PML4_ADDR va = (if va <? LONG_MODE_IDENTITY_MAP_SIZE then Some target else None) ∧
  user_walk m ADDRESS_SPACE_B_PML4_ADDR va =
    (if (va <? LONG_MODE_IDENTITY_MAP_SIZE) && user_page_index (va / 4096) then Some target else None).
Proof.
  intros H Hva. cbv zeta.
  rewrite (walk_four m ADDRESS_SPACE_B_PML4_ADDR 0xc000 0xd000 0xe000 second_pte),
    (user_walk_four m ADDRESS_SPACE_B_PML4_ADDR 0xc000 0xd000 0xe000 second_pte) by done.
  destruct (Z.ltb_spec va LONG_MODE_IDENTITY_MAP_SIZE); [|done]. longmode_consts.
  by destruct (second_pte_fields (va / 4096)) as (_&->&->&->); [dlia|].
Qed.
Lemma u64_of_bytes m a n bs b :
  mem_get m a n = bs → len bs = n → a ≤ b → b + 8 ≤ a + n → u64_at m b = from_le_bytes (take 8 (drop (Z.to_nat (b - a)) bs)).
Proof.
  intros <- Hl ??. unfold u64_at. f_equal. apply list_eq. intros i.
  destruct (decide (i < 8)%nat) as [Hi|Hi].
  - rewrite mem_get_lookup, lookup_take_lt, lookup_drop, mem_get_lookup by lia. do 2 f_equal. lia.
  - rewrite !lookup_ge_None_2; [done|rewrite length_take; lia|unfold mem_get; rewrite length_store_read; lia].
Qed.
Lemma rings_idt_gate m v :
  rings_installed m → 0 ≤ v ≤ 255 →
  idt_gate m PRIVILEGE_IDT_ADDR IDT_LIMIT v =
    if v =? 0x80 then Some (mkTarget 8 PRIVILEGE_RETURN_HANDLER 0xe 3 0)
    else if v =? 0x81 then Some (mkTarget 8 PRIVILEGE_TERMINAL_HANDLER 0xe 3 0) else None.
Proof.
  intros [_ _ H _] Hv. unfold idt_gate, PRIVILEGE_IDT_ADDR, IDT_LIMIT. rewrite H by done. unfold privilege_gate.
  destruct (Z.eqb_spec v 0x80) as [->|]; [reflexivity|].
  destruct (Z.eqb_spec v 0x81) as [->|]; [reflexivity|]. by case_match.
Qed.
Lemma rings_gdt_u64 m b :
  rings_installed m → 0x5000 ≤ b → b + 8 ≤ 0x5038 →
  u64_at m b = from_le_bytes (take 8 (drop (Z.to_nat (b - 0x5000)) gdt_bytes)).
Proof. intros [_ H _ _] ??. apply (u64_of_bytes m 0x5000 56); [done|done|lia|lia]. Qed.
Lemma rings_segments m :
  rings_installed m →
  segment_rights m PRIVILEGE_GDT_ADDR GDT_LIMIT KERNEL_CODE_SELECTOR = Some (mkRights 0 true true) ∧
  segment_rights m PRIVILEGE_GDT_ADDR GDT_LIMIT PRIVILEGE_USER_CODE_SELECTOR = Some (mkRights 3 true true) ∧
  segment_rights m PRIVILEGE_GDT_ADDR GDT_LIMIT PRIVILEGE_USER_DATA_SELECTOR = Some (mkRights 3 false false) ∧
  tss_segment m PRIVILEGE_GDT_ADDR GDT_LIMIT PRIVILEGE_TSS_SELECTOR = Some (PRIVILEGE_TSS_ADDR, TSS_LIMIT) ∧
  u64_at m (PRIVILEGE_TSS_ADDR + 4) = PRIVILEGE_TSS_RSP0.
Proof.
  intros H. unfold segment_rights, tss_segment. cbv zeta.
  rewrite !(rings_gdt_u64 m) by (first [done|vm_compute; congruence]).
  split_and!; try reflexivity. destruct H as [_ _ _ H].
  rewrite (u64_of_bytes m 0x7000 104 tss_bytes) by (first [done|vm_compute; congruence]). reflexivity.
Qed.
Lemma user_pages_low va :
  0 ≤ va → (if (va <? LONG_MODE_IDENTITY_MAP_SIZE) && user_page_index (va / 4096) then Some va else None) =
  if bool_decide (va / 4096 ∈ [PRIVILEGE_USER_ENTRY / 4096; PRIVILEGE_OBSERVATION_ADDR / 4096;
                               (PRIVILEGE_USER_STACK - 1) / 4096]) then Some va else None.
Proof.
  intros Hva. change (PRIVILEGE_USER_ENTRY / 4096) with 0x11. change (PRIVILEGE_OBSERVATION_ADDR / 4096) with 0xa.
  change ((PRIVILEGE_USER_STACK - 1) / 4096) with 0x1fc. unfold user_page_index. longmode_consts.
  case_bool_decide as Hin; rewrite !elem_of_cons, elem_of_nil in Hin.
  - rewrite (proj2 (Z.ltb_lt _ _)) by dlia.
    destruct Hin as [->|[->|[->|[]]]]; reflexivity.
  - destruct (Z.eqb_spec (va / 4096) 0x11), (Z.eqb_spec (va / 4096) 0xa), (Z.eqb_spec (va / 4096) 0x1fc);
      try tauto. cbn [orb]. by rewrite andb_false_r.
Qed.
Lemma runs_total {S E A} (m : prog S E A) s Q : runs m s Q (λ _ _, False) → ∃ a s', m s = (Ok a, s') ∧ Q a s'.
Proof. unfold runs. destruct (m s) as [[a| |] s']; [eauto|done|done]. Qed.

(** ** Which memories the layouts accept *)
Definition privilege_layout (memory : GuestMemoryRegion) : LongModePrivilegeLayout :=
  {| privilege_boot := mkLayout memory PRIVILEGE_KERNEL_ENTRY PRIVILEGE_BOOT_STACK [] |}.
Definition low_memory (memory : GuestMemoryRegion) : Prop :=
  memory.(base) = 0 ∧ LONG_MODE_IDENTITY_MAP_SIZE ≤ memory.(region_size).
Lemma privilege_boot_wf memory : layout_wf (privilege_boot (privilege_layout memory)) ↔ low_memory memory.
Proof.
  unfold layout_wf, memory_and_stack_wf, entry_wf, low_memory. simpl. split; [tauto|]. intros [??].
  split_and!; [done|done|done|vm_compute; congruence|right; done|split; constructor|].
  left. split; [|right]; vm_compute; congruence.
Qed.
Lemma privilege_layout_new_eq memory :
  privilege_layout_new memory =
    boot ← map_err BootError (layout_new memory PRIVILEGE_KERNEL_ENTRY PRIVILEGE_BOOT_STACK); mret {| privilege_boot := boot |}.
Proof. unfold privilege_layout_new. by destruct (layout_new _ _ _). Qed.
Lemma privilege_layout_new_ok memory layout :
  region_wf memory →
  privilege_layout_new memory = Ok layout ↔ layout = privilege_layout memory ∧ low_memory memory.
Proof.
  intros Hr. rewrite privilege_layout_new_eq, <- privilege_boot_wf.
  assert (∀ boot, layout_new memory PRIVILEGE_KERNEL_ENTRY PRIVILEGE_BOOT_STACK = Ok boot ↔
            boot = privilege_boot (privilege_layout memory) ∧ layout_wf boot) as Hnew
    by (intros; apply layout_new_ok; [done|split; vm_compute; congruence..]).
  destruct (layout_new memory _ _) as [boot| |] eqn:E; cbn; (split; [intros H; simplify_eq|intros [-> Hwf]]).
  - destruct (proj1 (Hnew boot) eq_refl) as [-> ?]. by injection H as <-.
  - by destruct (proj1 (Hnew boot) eq_refl) as [-> ?].
  - by pose proof (proj2 (Hnew _) (conj eq_refl Hwf)).
  - by pose proof (proj2 (Hnew _) (conj eq_refl Hwf)).
Qed.
Lemma no_panic_privilege_layout_new memory : no_panic (privilege_layout_new memory).
Proof. rewrite privilege_layout_new_eq. pose proof (no_panic_layout_new memory PRIVILEGE_KERNEL_ENTRY PRIVILEGE_BOOT_STACK). by destruct (layout_new _ _ _). Qed.
Definition space_layout (memory : GuestMemoryRegion) : AddressSpaceSwitchLayout :=
  {| space_privilege := privilege_layout memory; space_memory := memory |}.
Lemma validate_reserved_low memory role address :
  region_wf memory → low_memory memory → address mod 4096 = 0 → 0 ≤ address → address + 4096 ≤ LONG_MODE_IDENTITY_MAP_SIZE →
  validate_reserved memory role address = Ok tt.
Proof.
  intros Hr [Hb Hs] Ha ??. unfold validate_reserved, LONG_MODE_PAGE_SIZE. rewrite Ha, Hb. cbn -[Z.ltb].
  rewrite (proj2 (Z.ltb_ge _ _)) by lia. rewrite region_end_ok by done. cbn -[Z.ltb].
  by rewrite (proj2 (Z.ltb_ge _ _)) by lia.
Qed.
Lemma space_layout_new_ok memory layout :
  region_wf memory → space_layout_new memory = Ok layout ↔ layout = space_layout memory ∧ low_memory memory.
Proof.
  intros Hr. unfold space_layout_new. split.
  - intros H. apply bind_Ok_inv in H as (privilege&Hp&H). 
    destruct (privilege_layout_new memory) as [p| |] eqn:E; simplify_eq/=.
    apply privilege_layout_new_ok in E as [-> Hl]; [|done].
    apply bind_Ok_inv in H as ([]&_&[= <-]). done.
  - intros [-> Hl]. rewrite (proj2 (privilege_layout_new_ok memory _ Hr)) by done. cbn -[validate_all reserved_pages].
    assert (validate_all (validate_reserved memory) reserved_pages = Ok tt) as ->; [|done].
    unfold reserved_pages. cbn [validate_all].
    rewrite !validate_reserved_low by (first [done|vm_compute; congruence]). done.
Qed.

(** C32: a ring-3 guest starts with the tables its layout promises.
    [LongModePrivilegeLayout::new] never panics and accepts exactly the memories
    that start at zero and cover the 2 MiB identity map; installing its tables
    succeeds and writes only the page-table, GDT, IDT, TSS and PT pages.  In the
    result the kernel's walk is the identity on the low 2 MiB and nothing above,
    user code reaches exactly the user code, observation and user stack pages;
    the processor finds gates only for the two software-interrupt vectors, both
    callable from ring 3 and entering the kernel code segment; the user
    selectors name ring-3 segments, the kernel selector a ring-0 64-bit code
    segment, and the TSS selector a 64-bit TSS whose RSP0 is the kernel stack,
    which user code cannot reach. *)
Theorem privilege_tables_spec memory m :
  region_wf memory → memory_wf m → m.(region) = memory →
  no_panic (privilege_layout_new memory) ∧
  (is_ok (privilege_layout_new memory) = true ↔ low_memory memory) ∧
  ∀ layout, privilege_layout_new memory = Ok layout →
  ∃ m', install_privilege_tables layout m = (Ok tt, m') ∧
    window LONG_MODE_PML4_ADDR PRIVILEGE_TABLE_END m m' ∧
    (∀ va, 0 ≤ va < 2 ^ 48 →
       walk m' LONG_MODE_PML4_ADDR va = (if va <? LONG_MODE_IDENTITY_MAP_SIZE then Some va else None) ∧
       user_walk m' LONG_MODE_PML4_ADDR va =
         if bool_decide (va / 4096 ∈ [PRIVILEGE_USER_ENTRY / 4096; PRIVILEGE_OBSERVATION_ADDR / 4096;
                                      (PRIVILEGE_USER_STACK - 1) / 4096]) then Some va else None) ∧
    (∀ v, 0 ≤ v ≤ 255 →
       idt_gate m' PRIVILEGE_IDT_ADDR IDT_LIMIT v =
         if v =? PRIVILEGE_RETURN_VECTOR then Some (mkTarget KERNEL_CODE_SELECTOR PRIVILEGE_RETURN_HANDLER 0xe 3 0)
         else if v =? PRIVILEGE_TERMINAL_VECTOR
         then Some (mkTarget KERNEL_CODE_SELECTOR PRIVILEGE_TERMINAL_HANDLER 0xe 3 0) else None) ∧
    segment_rights m' PRIVILEGE_GDT_ADDR GDT_LIMIT KERNEL_CODE_SELECTOR = Some (mkRights 0 true true) ∧
    segment_rights m' PRIVILEGE_GDT_ADDR GDT_LIMIT PRIVILEGE_USER_CODE_SELECTOR = Some (mkRights 3 true true) ∧
    segment_rights m' PRIVILEGE_GDT_ADDR GDT_LIMIT PRIVILEGE_USER_DATA_SELECTOR = Some (mkRights 3 false false) ∧
    tss_segment m' PRIVILEGE_GDT_ADDR GDT_LIMIT PRIVILEGE_TSS_SELECTOR = Some (PRIVILEGE_TSS_ADDR, TSS_LIMIT) ∧
    u64_at m' (PRIVILEGE_TSS_ADDR + 4) = PRIVILEGE_TSS_RSP0.
Proof.
  intros Hr Hm Hreg. split_and!.
  - apply no_panic_privilege_layout_new.
  - pose proof (λ layout, privilege_layout_new_ok memory layout Hr) as Hnew.
    destruct (privilege_layout_new memory) as [layout| |]; (split; [intros H|intros H]); try done.
    + by apply (Hnew layout).
    + by pose proof (proj2 (Hnew _) (conj eq_refl H)).
    + by pose proof (proj2 (Hnew _) (conj eq_refl H)).
  - intros layout [-> Hl]%privilege_layout_new_ok; [|done].
    destruct (runs_total _ _ _ (install_privilege_tables_runs (privilege_layout memory) m
      (proj2 (privilege_boot_wf memory) Hl) eq_refl Hm Hreg)) as ([]&m'&E&W&R).
    exists m'. split_and!; [done|exact W| |intros; by apply rings_idt_gate|by apply rings_segments..].
    intros va Hva. destruct (rings_walk m' va R Hva) as [-> ->]. split; [done|]. apply user_pages_low; lia.
Qed.
Lemma privilege_tables_spec_witness :
  ∃ m', install_privilege_tables (privilege_layout boot_region) boot_memory = (Ok tt, m') ∧
    user_walk m' LONG_MODE_PML4_ADDR PRIVILEGE_USER_ENTRY = Some PRIVILEGE_USER_ENTRY ∧
    user_walk m' LONG_MODE_PML4_ADDR PRIVILEGE_KERNEL_ENTRY = None.
Proof.
  destruct (privilege_tables_spec boot_region boot_memory) as (_&_&H).
  - by repeat split.
  - apply boot_memory_wf.
  - reflexivity.
  - destruct (H (privilege_layout boot_region)) as (m'&?&_&Hw&_); [vm_compute; reflexivity|].
    exists m'. split; [done|]. split.
    + exact (proj2 (Hw 0x11000 ltac:(lia))).
    + exact (proj2 (Hw 0x10000 ltac:(lia))).
Defined.
Lemma user_page_cases va :
  (va <? LONG_MODE_IDENTITY_MAP_SIZE) && user_page_index (va / 4096) = true →
  (va / 4096 = 0x11 ∧ second_page (va / 4096) = 0x20) ∨ (va / 4096 = 0xa ∧ second_page (va / 4096) = 0x21) ∨
  (va / 4096 = 0x1fc ∧ second_page (va / 4096) = 0x22).
Proof.
  intros [_ H]%andb_prop. unfold user_page_index in H.
  apply orb_prop in H as [[E%Z.eqb_eq|E%Z.eqb_eq]%orb_prop|E%Z.eqb_eq]; rewrite E; auto.
Qed.
Lemma second_page_private i : second_page i ≠ 0x11 ∧ second_page i ≠ 0xa ∧ second_page i ≠ 0x1fc.
Proof.
  unfold second_page. destruct (Z.eqb_spec i 0x11); [lia|]. destruct (Z.eqb_spec i 0xa); [lia|].
  destruct (Z.eqb_spec i 0x1fc); lia.
Qed.

(** C4: the two address spaces are isolated.
    [AddressSpaceSwitchLayout::new] accepts exactly the memories that start at
    zero and cover the 2 MiB identity map, and installing its tables succeeds and
    leaves every byte outside [0x1000, 0x9000) and [0xb000, 0x10000) alone.  In
    the result, user code in space A and user code in space B never reach the same
    physical byte; neither reaches a page table, the GDT, the IDT, the TSS or the
    CR3 observation page, so user code cannot change what it may reach; not even
    the kernel, while in space B, reaches A's user pages; and at every address
    that is not a user page the two spaces agree, so a handler runs unchanged
    under either root. *)
Theorem address_space_isolation memory m :
  region_wf memory → memory_wf m → m.(region) = memory →
  (is_ok (space_layout_new memory) = true ↔ low_memory memory) ∧
  ∀ layout, space_layout_new memory = Ok layout →
  ∃ m', install_space_tables layout m = (Ok tt, m') ∧
    (∀ x, x < 0x1000 ∨ PRIVILEGE_TABLE_END ≤ x < ADDRESS_SPACE_B_PML4_ADDR ∨ 0x10000 ≤ x →
       byte_at m' x = byte_at m x) ∧
    (∀ va vb p q, 0 ≤ va < 2 ^ 48 → 0 ≤ vb < 2 ^ 48 →
       user_walk m' ADDRESS_SPACE_A_CR3 va = Some p → user_walk m' ADDRESS_SPACE_B_PML4_ADDR vb = Some q → p ≠ q) ∧
    (∀ root va p, root = ADDRESS_SPACE_A_CR3 ∨ root = ADDRESS_SPACE_B_PML4_ADDR → 0 ≤ va < 2 ^ 48 →
       user_walk m' root va = Some p →
       ¬ LONG_MODE_PML4_ADDR ≤ p < PRIVILEGE_TABLE_END ∧
       ¬ ADDRESS_SPACE_B_PML4_ADDR ≤ p < ADDRESS_SPACE_CR3_OBSERVATION_ADDR + LONG_MODE_PAGE_SIZE) ∧
    (∀ va vb p, 0 ≤ va < 2 ^ 48 → 0 ≤ vb < 2 ^ 48 →
       user_walk m' ADDRESS_SPACE_A_CR3 va = Some p → walk m' ADDRESS_SPACE_B_PML4_ADDR vb ≠ Some p) ∧
    (∀ va, 0 ≤ va < 2 ^ 48 → user_walk m' ADDRESS_SPACE_A_CR3 va = None →
       user_walk m' ADDRESS_SPACE_B_PML4_ADDR va = None ∧
       walk m' ADDRESS_SPACE_B_PML4_ADDR va = walk m' ADDRESS_SPACE_A_CR3 va).
Proof.
  intros Hr Hm Hreg. split.
  { pose proof (λ layout, space_layout_new_ok memory layout Hr) as Hnew.
    destruct (space_layout_new memory) as [layout| |]; (split; [intros H|intros H]); try done.
    - by apply (Hnew layout).
    - by pose proof (proj2 (Hnew _) (conj eq_refl H)).
    - by pose proof (proj2 (Hnew _) (conj eq_refl H)). }
  intros layout [-> Hl]%space_layout_new_ok; [|done].
  destruct (runs_total _ _ _ (install_space_tables_runs (space_layout memory) m
    (proj2 (privilege_boot_wf memory) Hl) eq_refl Hm Hreg Hreg)) as ([]&m'&E&(_&_&W)&R&B).
  exists m'. split; [done|]. split; [exact W|].
  pose proof (λ va H, rings_walk m' va R H) as HA. pose proof (λ va H, second_walk m' va B H) as HB. cbv zeta in HB.
  unfold ADDRESS_SPACE_A_CR3. split_and!.
  - intros va vb p q Hva Hvb. rewrite (proj2 (HA va Hva)), (proj2 (HB vb Hvb)).
    intros Hp Hq. case_match eqn:Ca; [|done]. case_match eqn:Cb; [|done]. injection Hp as <-. injection Hq as <-.
    pose proof (user_page_cases va ltac:(done)). pose proof (user_page_cases vb ltac:(done)). dlia.
  - intros root va p [-> | ->] Hva; [rewrite (proj2 (HA va Hva))|rewrite (proj2 (HB va Hva))]; intros Hp;
      case_match eqn:Ca; [|done| |done]; injection Hp as <-; pose proof (user_page_cases va Ca);
      unfold PRIVILEGE_TABLE_END, LONG_MODE_PAGE_SIZE; spaces_consts; longmode_consts; dlia.
  - intros va vb p Hva Hvb. rewrite (proj2 (HA va Hva)), (proj1 (HB vb Hvb)). intros Hp Hq.
    case_match eqn:Ca; [|done]. case_match eqn:Cb; [|done]. injection Hp as <-. injection Hq as Hq.
    pose proof (user_page_cases va ltac:(done)). pose proof (second_page_private (vb / 4096)). dlia.
  - intros va Hva. destruct (HA va Hva) as [-> ->], (HB va Hva) as [-> ->]. intros Hn.
    destruct (va <? LONG_MODE_IDENTITY_MAP_SIZE); [|done]. cbn [andb] in *.
    destruct (user_page_index (va / 4096)) eqn:Eu; [done|]. split; [done|]. f_equal.
    replace (second_page (va / 4096)) with (va / 4096); [dlia|]. unfold user_page_index in Eu. unfold second_page.
    by destruct (va / 4096 =? 0x11), (va / 4096 =? 0xa), (va / 4096 =? 0x1fc).
Qed.
Lemma address_space_isolation_witness :
  ∃ m', install_space_tables (space_layout boot_region) boot_memory = (Ok tt, m') ∧
    (∀ va vb p q, 0 ≤ va < 2 ^ 48 → 0 ≤ vb < 2 ^ 48 →
       user_walk m' ADDRESS_SPACE_A_CR3 va = Some p → user_walk m' ADDRESS_SPACE_B_PML4_ADDR vb = Some q → p ≠ q).
Proof.
  destruct (address_space_isolation boot_region boot_memory) as (_&H).
  - by repeat split.
  - apply boot_memory_wf.
  - reflexivity.
  - destruct (H (space_layout boot_region)) as (m'&?&_&Hw&_); [vm_compute; reflexivity|].
    exists m'. by split.
Defined.
