(* ===== verification/X86.v ===== *)
(** The processor the guest kernels run on: decoding and execution of the
    x86-64 instructions that the hand-assembled guests under [src/src] consist of.

    This is the reference for those byte arrays, as [walk] is for the page tables.
    [step] executes one instruction over a translation of its data accesses: the identity
    for the interrupt handlers of [Tasks], which use pages that both address spaces map
    to themselves ([exec]), and an arbitrary one, which may refuse an address with a page fault, for
    the services of [UserCopy], which follow pointers of the user ([exec_in]).
    An instruction or operand form outside the subset is [Undefined], never skipped. *)

From S2P Require Import Prelude Errors Memory LongMode Boot GuestTables Privilege.

(** * Instructions *)

(** A register is its number, [RAX] = 0 to [R15] = 15; CR2 counts as the next one. *)
Definition RAX : Z := 0.
Definition RCX : Z := 1.
Definition RBX : Z := 3.
Definition RSP : Z := 4.
Definition RSI : Z := 6.
Definition RDI : Z := 7.
Definition R11 : Z := 11.
Definition R12 : Z := 12.
Definition CR2 : Z := 16.
(** A memory operand has a base, an index of scale one and a displacement. *)
Inductive Operand := Reg (r : Z) | Mem (base index : option Z) (disp : Z).
Inductive Instr :=
  | CmpB (o : Operand) (imm : Z)      (* cmp r/m8, imm8 *)
  | CmpQ (o : Operand) (imm : Z)      (* cmp r/m64, imm *)
  | CmpR (o : Operand) (r : Z)        (* cmp r/m64, r64 *)
  | CmpM (r : Z) (o : Operand)        (* cmp r64, r/m64 *)
  | TestQ (o : Operand) (r : Z)       (* test r/m64, r64 *)
  | AddQ (o : Operand) (imm : Z)      (* add r/m64, imm8 *)
  | XorD (o : Operand) (r : Z)        (* xor r/m32, r32 *)
  | MovB (o : Operand) (imm : Z)      (* mov r/m8, imm8 *)
  | MovQ (o : Operand) (imm : Z)      (* mov r/m64, imm32 *)
  | MovI (r : Z) (imm : Z)            (* mov r64, imm64; mov r32, imm32 *)
  | MovAl (imm : Z)                   (* mov al, imm8 *)
  | MovAx (imm : Z)                   (* mov ax, imm16 *)
  | Load (r : Z) (o : Operand)        (* mov r64, r/m64 *)
  | Store (o : Operand) (r : Z)       (* mov r/m64, r64 *)
  | StoreB (o : Operand) (r : Z)      (* mov r/m8, r8 *)
  | StoreW (o : Operand) (r : Z)      (* mov r/m16, r16 *)
  | LoadZx (r : Z) (o : Operand)      (* movzx r32, r/m8 *)
  | IncB (o : Operand) | IncQ (o : Operand)
  | Push (imm : Z) | PushR (r : Z) | PopR (r : Z) | Pushf
  | ReadCs (r : Z) | ReadSs (r : Z)
  | ReadCr2 (r : Z) | ReadCr3 (r : Z) | WriteCr3 (r : Z) | Ltr
  | Je (d : Z) | Jne (d : Z) | Ja (d : Z) | Jb (d : Z) | Jmp (d : Z)
  | OutAl (port : Z) | Int (v : Z) | Iretq | Syscall | Sysretq | Hlt | Sti | Cli | Nop.

Definition sext (w v : Z) : Z := if v <? 2 ^ (w - 1) then v else v - 2 ^ w.
Definition imm8 (bs : list Z) : Z := from_le_bytes (take 1 bs).
Definition imm16 (bs : list Z) : Z := from_le_bytes (take 2 bs).
Definition imm32 (bs : list Z) : Z := from_le_bytes (take 4 bs).
Record Rex := mkRex { rex_any : bool; rex_w : bool; rex_r : Z; rex_x : Z; rex_b : Z }.
Definition no_rex : Rex := mkRex false false 0 0 0.
(** The reg field, the operand of the rm field and the number of bytes the two take.
    Scaled indices, 32-bit displacements from a register and rip-relative operands are
    outside the subset. *)
Definition modrm (rex : Rex) (bs : list Z) : option (Z * Operand * nat) :=
  match bs with
  | [] => None
  | byte :: rest =>
      let md := byte / 64 in
      let reg := byte / 8 mod 8 + 8 * rex_r rex in
      let rm := byte mod 8 in
      if md =? 3 then Some (reg, Reg (rm + 8 * rex_b rex), 1%nat)
      else if rm =? 4 then
        match rest with
        | [] => None
        | sib :: rest =>
            let b := sib mod 8 in
            let i := sib / 8 mod 8 + 8 * rex_x rex in
            let index := if i =? 4 then None else Some i in
            if negb (sib / 64 =? 0) then None
            else if md =? 0
            then if b =? 5 then Some (reg, Mem None index (sext 32 (imm32 rest)), 6%nat)
                 else Some (reg, Mem (Some (b + 8 * rex_b rex)) index 0, 2%nat)
            else if md =? 1 then Some (reg, Mem (Some (b + 8 * rex_b rex)) index (sext 8 (imm8 rest)), 3%nat)
            else None
        end
      else if md =? 0 then if rm =? 5 then None else Some (reg, Mem (Some (rm + 8 * rex_b rex)) None 0, 1%nat)
      else if md =? 1 then Some (reg, Mem (Some (rm + 8 * rex_b rex)) None (sext 8 (imm8 rest)), 2%nat)
      else None
  end.
Definition with_modrm (rex : Rex) (bs : list Z) (imm : nat)
    (f : Z → Operand → list Z → option Instr) : option (Instr * nat) :=
  '(reg, o, n) ← modrm rex bs;
  i ← f reg o (drop n bs);
  Some (i, n + imm)%nat.
Definition grow (n : nat) (r : option (Instr * nat)) : option (Instr * nat) :=
  match r with Some (i, k) => Some (i, n + k)%nat | None => None end.
(** An opcode extension in the reg field. *)
Definition digit (d reg : Z) (i : Instr) : option Instr := if reg mod 8 =? d then Some i else None.
(** The two-byte opcodes, after 0x0f. *)
Definition decode_0f (rex : Rex) (bs : list Z) : option (Instr * nat) :=
  match bs with
  | [] => None
  | op :: rest =>
      if (op =? 0x20) || (op =? 0x22) then
        match rest with
        | mr :: _ =>
            let r := mr mod 8 + 8 * rex_b rex in
            if negb (mr / 64 =? 3) then None
            else if (op =? 0x20) && (mr / 8 mod 8 =? 2) then Some (ReadCr2 r, 2%nat)
            else if (op =? 0x20) && (mr / 8 mod 8 =? 3) then Some (ReadCr3 r, 2%nat)
            else if (op =? 0x22) && (mr / 8 mod 8 =? 3) then Some (WriteCr3 r, 2%nat)
            else None
        | [] => None
        end
      else if op =? 0x84 then Some (Je (sext 32 (imm32 rest)), 5%nat)
      else if op =? 0x85 then Some (Jne (sext 32 (imm32 rest)), 5%nat)
      else if op =? 0x05 then Some (Syscall, 1%nat)
      else if op =? 0x07 then if rex_w rex then Some (Sysretq, 1%nat) else None
      else if op =? 0x00 then match rest with 0xd8 :: _ => Some (Ltr, 2%nat) | _ => None end
      else if op =? 0xb6 then if rex_w rex then None else grow 1 (with_modrm rex rest 0 (λ reg o _, Some (LoadZx reg o)))
      else None
  end.
(** One instruction after its prefixes, with the length of what follows them. *)
Definition decode_opcode (rex : Rex) (bs : list Z) : option (Instr * nat) :=
  let long {A} (x : option A) := if rex_w rex then x else None in
  match bs with
  | [] => None
  | op :: rest =>
      if op =? 0x0f then grow 1 (decode_0f rex rest)
      else if op =? 0x74 then Some (Je (sext 8 (imm8 rest)), 2%nat)
      else if op =? 0x75 then Some (Jne (sext 8 (imm8 rest)), 2%nat)
      else if op =? 0x77 then Some (Ja (sext 8 (imm8 rest)), 2%nat)
      else if op =? 0x72 then Some (Jb (sext 8 (imm8 rest)), 2%nat)
      else if op =? 0xeb then Some (Jmp (sext 8 (imm8 rest)), 2%nat)
      else if op =? 0xe9 then Some (Jmp (sext 32 (imm32 rest)), 5%nat)
      else if op =? 0x80 then grow 1 (with_modrm rex rest 1 (λ reg o bs, digit 7 reg (CmpB o (imm8 bs))))
      else if op =? 0x88 then grow 1 (with_modrm rex rest 0 (λ reg o _, if rex_any rex || (reg <? 4) then Some (StoreB o reg) else None))
      else if op =? 0x8c then
        if rex_any rex then None
        else grow 1 (with_modrm rex rest 0 (λ reg o _,
          match o with
          | Reg r => if reg =? 1 then Some (ReadCs r) else if reg =? 2 then Some (ReadSs r) else None
          | Mem _ _ _ => None
          end))
      else if op =? 0xc6 then grow 1 (with_modrm rex rest 1 (λ reg o bs, digit 0 reg (MovB o (imm8 bs))))
      else if op =? 0xfe then grow 1 (with_modrm rex rest 0 (λ reg o _, digit 0 reg (IncB o)))
      else if op =? 0xb0 then if rex_b rex =? 0 then Some (MovAl (imm8 rest), 2%nat) else None
      else if op =? 0xe6 then Some (OutAl (imm8 rest), 2%nat)
      else if op =? 0xcd then Some (Int (imm8 rest), 2%nat)
      else if op =? 0xf4 then Some (Hlt, 1%nat)
      else if op =? 0xfb then Some (Sti, 1%nat)
      else if op =? 0xfa then Some (Cli, 1%nat)
      else if op =? 0x90 then if rex_b rex =? 0 then Some (Nop, 1%nat) else None
      else if op =? 0x9c then Some (Pushf, 1%nat)
      else if op =? 0x6a then Some (Push (sext 8 (imm8 rest) mod 2 ^ 64), 2%nat)
      else if op =? 0x68 then Some (Push (sext 32 (imm32 rest) mod 2 ^ 64), 5%nat)
      else if (0x50 <=? op) && (op <? 0x58) then Some (PushR (op - 0x50 + 8 * rex_b rex), 1%nat)
      else if (0x58 <=? op) && (op <? 0x60) then Some (PopR (op - 0x58 + 8 * rex_b rex), 1%nat)
      else if op =? 0x31 then if rex_w rex then None else grow 1 (with_modrm rex rest 0 (λ reg o _, Some (XorD o reg)))
      else if (0xb8 <=? op) && (op <? 0xc0) then
        if rex_w rex then Some (MovI (op - 0xb8 + 8 * rex_b rex) (from_le_bytes (take 8 rest)), 9%nat)
        else Some (MovI (op - 0xb8 + 8 * rex_b rex) (imm32 rest), 5%nat)
      else long (
        if op =? 0x81 then grow 1 (with_modrm rex rest 4 (λ reg o bs, digit 7 reg (CmpQ o (sext 32 (imm32 bs) mod 2 ^ 64))))
        else if op =? 0x83 then grow 1 (with_modrm rex rest 1 (λ reg o bs,
          let imm := sext 8 (imm8 bs) mod 2 ^ 64 in
          if reg mod 8 =? 0 then Some (AddQ o imm) else digit 7 reg (CmpQ o imm)))
        else if op =? 0x3d then Some (CmpQ (Reg RAX) (sext 32 (imm32 rest) mod 2 ^ 64), 5%nat)
        else if op =? 0x39 then grow 1 (with_modrm rex rest 0 (λ reg o _, Some (CmpR o reg)))
        else if op =? 0x3b then grow 1 (with_modrm rex rest 0 (λ reg o _, Some (CmpM reg o)))
        else if op =? 0x85 then grow 1 (with_modrm rex rest 0 (λ reg o _, Some (TestQ o reg)))
        else if op =? 0x89 then grow 1 (with_modrm rex rest 0 (λ reg o _, Some (Store o reg)))
        else if op =? 0x8b then grow 1 (with_modrm rex rest 0 (λ reg o _, Some (Load reg o)))
        else if op =? 0xc7 then grow 1 (with_modrm rex rest 4 (λ reg o bs, digit 0 reg (MovQ o (sext 32 (imm32 bs) mod 2 ^ 64))))
        else if op =? 0xff then grow 1 (with_modrm rex rest 0 (λ reg o _, digit 0 reg (IncQ o)))
        else if op =? 0xcf then Some (Iretq, 1%nat)
        else None)
  end.
(** The operand-size prefix is in the subset for [mov ax, imm16] and [mov r/m16, r16]. *)
Definition decode_16 (bs : list Z) : option (Instr * nat) :=
  match bs with
  | 0xb8 :: rest => Some (MovAx (imm16 rest), 3%nat)
  | 0x89 :: rest => grow 1 (with_modrm no_rex rest 0 (λ reg o _, Some (StoreW o reg)))
  | _ => None
  end.
Definition decode_instr (bs : list Z) : option (Instr * nat) :=
  match bs with
  | [] => None
  | byte :: rest =>
      if byte =? 0x66 then grow 1 (decode_16 rest)
      else if (0x40 <=? byte) && (byte <? 0x50)
      then grow 1 (decode_opcode (mkRex true (byte / 8 mod 2 =? 1) (byte / 4 mod 2) (byte / 2 mod 2) (byte mod 2)) rest)
      else decode_opcode no_rex bs
  end.

(** * The machine *)
Record Frame := mkFrame { frame_rip : Z; frame_cs : Z; frame_rflags : Z; frame_rsp : Z; frame_ss : Z }.
(** The zero flag, and the other status flags at their places in rflags. *)
Record Flags := mkFlags { zf : bool; status : Z }.
Record Cpu := mkCpu {
  cpu_rip : Z; cpu_regs : Z → Z; cpu_cr3 : Z; cpu_flags : Flags;
  (** The bytes written to ports, in order. *)
  cpu_out : list (Z * Z);
  cpu_ram : GuestMemory
}.
Definition upd (f : Z → Z) (i v : Z) : Z → Z := λ j, if j =? i then v else f j.
(** Data accesses and data comparisons, which symbolic execution leaves in place. *)
Definition rd8 (m : GuestMemory) (a : Z) : Z := byte_at m a.
Definition wr8 (m : GuestMemory) (a v : Z) : GuestMemory := mem_set m a [v].
Definition wr16 (m : GuestMemory) (a v : Z) : GuestMemory := mem_set m a (to_le_bytes 2 v).
Definition rd64 (m : GuestMemory) (a : Z) : Z := u64_at m a.
Definition wr64 (m : GuestMemory) (a v : Z) : GuestMemory := set_u64 m a v.
Definition same (x y : Z) : bool := x =? y.
Definition inc8 (x : Z) : Z := (x + 1) mod 2 ^ 8.
Definition inc64 (x : Z) : Z := (x + 1) mod 2 ^ 64.
Definition set_al (rax v : Z) : Z := rax / 256 * 256 + v.
Definition set_ax (rax v : Z) : Z := rax / 65536 * 65536 + v.
Definition low8 (x : Z) : Z := x mod 256.
Definition low32 (x : Z) : Z := x mod 2 ^ 32.

(** ** Status flags *)
Definition flag (b : bool) (at_ : Z) : Z := if b then 2 ^ at_ else 0.
Definition even_parity (x : Z) : bool :=
  negb (foldr (λ i p, xorb (Z.testbit x i) p) false [0; 1; 2; 3; 4; 5; 6; 7]).
Definition status_of (cy ac ov : bool) (w r : Z) : Z :=
  flag cy 0 + flag (even_parity r) 2 + flag ac 4 + flag (Z.testbit r (w - 1)) 7 + flag ov 11.
Definition sub_status (w x y : Z) : Z :=
  let r := (x - y) mod 2 ^ w in
  let sign z := Z.testbit z (w - 1) in
  status_of (x <? y) (x mod 16 <? y mod 16) (xorb (sign x) (sign y) && xorb (sign x) (sign r)) w r.
Definition add_status (w x y : Z) : Z :=
  let r := (x + y) mod 2 ^ w in
  let sign z := Z.testbit z (w - 1) in
  status_of (2 ^ w <=? x + y) (16 <=? x mod 16 + y mod 16) (eqb (sign x) (sign y) && xorb (sign x) (sign r)) w r.
(** [inc] leaves the carry flag alone; the logical operations clear carry and
    overflow and leave the auxiliary carry undefined: clear here. *)
Definition inc_status (w x old : Z) : Z :=
  let r := (x + 1) mod 2 ^ w in status_of (Z.odd old) (x mod 16 =? 15) (r =? 2 ^ (w - 1)) w r.
Definition logic_status (w r : Z) : Z := status_of false false false w r.
Definition carry (f : Flags) : bool := Z.odd (status f).

Definition operand_address (c : Cpu) (b i : option Z) (disp : Z) : Z :=
  match b, i with
  | Some r, Some x => (cpu_regs c r + cpu_regs c x + disp) mod 2 ^ 64
  | Some r, None => (cpu_regs c r + disp) mod 2 ^ 64
  | None, Some x => (cpu_regs c x + disp) mod 2 ^ 64
  | None, None => disp mod 2 ^ 64
  end.
Definition with_ram (c : Cpu) (m : GuestMemory) : Cpu :=
  mkCpu (cpu_rip c) (cpu_regs c) (cpu_cr3 c) (cpu_flags c) (cpu_out c) m.
Definition with_reg (c : Cpu) (r v : Z) : Cpu :=
  mkCpu (cpu_rip c) (upd (cpu_regs c) r v) (cpu_cr3 c) (cpu_flags c) (cpu_out c) (cpu_ram c).
Definition with_rip (c : Cpu) (a : Z) : Cpu :=
  mkCpu a (cpu_regs c) (cpu_cr3 c) (cpu_flags c) (cpu_out c) (cpu_ram c).
Definition with_flags (c : Cpu) (f : Flags) : Cpu :=
  mkCpu (cpu_rip c) (cpu_regs c) (cpu_cr3 c) f (cpu_out c) (cpu_ram c).
Definition jump_if (b : bool) (d : Z) (c : Cpu) : Cpu := if b then with_rip c (cpu_rip c + d) else c.

Inductive Stop :=
  | Halted | Trapped (v : Z) | Returned (f : Frame) | SysCalled | SysReturned (rip rflags : Z)
  | Faulted (write : bool) (address : Z) | Left | Undefined.
(** An access the translation refuses is a page fault at its linear address. *)
Inductive Outcome := Next (c : Cpu) | Stopped (s : Stop) (c : Cpu) | PageFault (write : bool) (address : Z).
(** [tr write size address] is the physical address of an access. *)
Definition Translation : Type := bool → Z → Z → option Z.
Definition identity : Translation := λ _ _ a, Some a.
Section step.
Context (tr : Translation).
Definition access (write : bool) (size a : Z) (k : Z → Outcome) : Outcome :=
  match tr write size a with Some p => k p | None => PageFault write a end.
(** [c] has its [rip] behind the instruction already. *)
Definition step (i : Instr) (c : Cpu) : Outcome :=
  let reg := cpu_regs c in
  let m := cpu_ram c in
  let push v := let s := (reg RSP - 8) mod 2 ^ 64 in
    access true 8 s (λ p, Next (with_ram (with_reg c RSP s) (wr64 m p v))) in
  let cmp w x y := with_flags c (mkFlags (same x y) (sub_status w x y)) in
  match i with
  | CmpB (Mem b x d) imm => access false 1 (operand_address c b x d) (λ p, Next (cmp 8 (rd8 m p) imm))
  | CmpQ (Reg r) imm => Next (cmp 64 (reg r) imm)
  | CmpQ (Mem b x d) imm => access false 8 (operand_address c b x d) (λ p, Next (cmp 64 (rd64 m p) imm))
  | CmpR (Reg r) r' => Next (cmp 64 (reg r) (reg r'))
  | CmpM r (Mem b x d) => access false 8 (operand_address c b x d) (λ p, Next (cmp 64 (reg r) (rd64 m p)))
  | TestQ (Reg r) r' =>
      let v := Z.land (reg r) (reg r') in Next (with_flags c (mkFlags (same v 0) (logic_status 64 v)))
  | AddQ (Reg r) imm =>
      let v := (reg r + imm) mod 2 ^ 64 in
      Next (with_flags (with_reg c r v) (mkFlags (same v 0) (add_status 64 (reg r) imm)))
  | XorD (Reg r) r' =>
      let v := Z.lxor (low32 (reg r)) (low32 (reg r')) in
      Next (with_flags (with_reg c r v) (mkFlags (same v 0) (logic_status 32 v)))
  | MovB (Mem b x d) imm => access true 1 (operand_address c b x d) (λ p, Next (with_ram c (wr8 m p imm)))
  | MovQ (Reg r) imm => Next (with_reg c r imm)
  | MovQ (Mem b x d) imm => access true 8 (operand_address c b x d) (λ p, Next (with_ram c (wr64 m p imm)))
  | MovI r imm => Next (with_reg c r imm)
  | MovAl imm => Next (with_reg c RAX (set_al (reg RAX) imm))
  | MovAx imm => Next (with_reg c RAX (set_ax (reg RAX) imm))
  | Load r (Reg r') => Next (with_reg c r (reg r'))
  | Load r (Mem b x d) => access false 8 (operand_address c b x d) (λ p, Next (with_reg c r (rd64 m p)))
  | Store (Reg r) r' => Next (with_reg c r (reg r'))
  | Store (Mem b x d) r => access true 8 (operand_address c b x d) (λ p, Next (with_ram c (wr64 m p (reg r))))
  | StoreB (Reg r) r' => Next (with_reg c r (set_al (reg r) (low8 (reg r'))))
  | StoreB (Mem b x d) r => access true 1 (operand_address c b x d) (λ p, Next (with_ram c (wr8 m p (low8 (reg r)))))
  | StoreW (Mem b x d) r => access true 2 (operand_address c b x d) (λ p, Next (with_ram c (wr16 m p (reg r mod 2 ^ 16))))
  | LoadZx r (Mem b x d) => access false 1 (operand_address c b x d) (λ p, Next (with_reg c r (rd8 m p)))
  | IncB (Mem b x d) =>
      access true 1 (operand_address c b x d) (λ p,
        let v := inc8 (rd8 m p) in
        Next (with_flags (with_ram c (wr8 m p v)) (mkFlags (same v 0) (inc_status 8 (rd8 m p) (status (cpu_flags c))))))
  | IncQ (Reg r) =>
      let v := inc64 (reg r) in
      Next (with_flags (with_reg c r v) (mkFlags (same v 0) (inc_status 64 (reg r) (status (cpu_flags c)))))
  | IncQ (Mem b x d) =>
      access true 8 (operand_address c b x d) (λ p,
        let v := inc64 (rd64 m p) in
        Next (with_flags (with_ram c (wr64 m p v)) (mkFlags (same v 0) (inc_status 64 (rd64 m p) (status (cpu_flags c))))))
  | Push imm => push imm
  | PushR r => push (reg r)
  | PopR r =>
      access false 8 (reg RSP) (λ p, Next (with_reg (with_reg c RSP ((reg RSP + 8) mod 2 ^ 64)) r (rd64 m p)))
  | ReadCr2 r => Next (with_reg c r (reg CR2))
  | ReadCr3 r => Next (with_reg c r (cpu_cr3 c))
  | WriteCr3 r => Next (mkCpu (cpu_rip c) reg (reg r) (cpu_flags c) (cpu_out c) m)
  | Je d => Next (jump_if (zf (cpu_flags c)) d c)
  | Jne d => Next (if zf (cpu_flags c) then c else with_rip c (cpu_rip c + d))
  | Ja d => Next (jump_if (negb (zf (cpu_flags c)) && negb (carry (cpu_flags c))) d c)
  | Jb d => Next (jump_if (carry (cpu_flags c)) d c)
  | Jmp d => Next (with_rip c (cpu_rip c + d))
  | OutAl port =>
      Next (mkCpu (cpu_rip c) reg (cpu_cr3 c) (cpu_flags c) (cpu_out c ++ [(port, low8 (reg RAX))]) m)
  | Int v => Stopped (Trapped v) c
  | Iretq =>
      let s := reg RSP in
      access false 40 s (λ s,
        Stopped (Returned (mkFrame (rd64 m s) (rd64 m (s + 8)) (rd64 m (s + 16)) (rd64 m (s + 24)) (rd64 m (s + 32)))) c)
  | Syscall => Stopped SysCalled c
  | Sysretq => Stopped (SysReturned (reg RCX) (reg R11)) c
  | Hlt => Stopped Halted c
  | Sti | Cli | Ltr | Nop => Next c
  | _ => Stopped Undefined c
  end.
End step.
(** What is at [rip] of the code loaded at [base]: [None] outside of it. *)
Definition fetch (base : Z) (code : list Z) (rip : Z) : option (option (Instr * nat)) :=
  let offset := rip - base in
  if (offset <? 0) || (len code <=? offset) then None
  else Some (decode_instr (drop (Z.to_nat offset) code)).
(** Runs the code loaded at [base] until it stops, faults, or leaves it by a jump.  The
    instruction bytes are those of the handler: nothing here writes to them. *)
Fixpoint exec_in (tr : Translation) (fuel : nat) (base : Z) (code : list Z) (c : Cpu) : option (Stop * Cpu) :=
  match fuel with
  | O => None
  | S fuel =>
      match fetch base code (cpu_rip c) with
      | None => Some (Left, c)
      | Some None => Some (Undefined, c)
      | Some (Some (i, n)) =>
          match step tr i (with_rip c (cpu_rip c + Z.of_nat n)) with
          | Next c => exec_in tr fuel base code c
          | Stopped s c => Some (s, c)
          | PageFault write a => Some (Faulted write a, c)
          end
      end
  end.
Abbreviation exec := (exec_in identity).
(** The processor takes an interrupt from ring 3 (an interrupt gate): the frame
    goes on the stack of the TSS and the handler starts. *)
Definition interrupt (handler rsp0 : Z) (f : Frame) (c : Cpu) : Cpu :=
  let s := rsp0 - 40 in
  let m := cpu_ram c in
  let m := wr64 m (s + 32) (frame_ss f) in
  let m := wr64 m (s + 24) (frame_rsp f) in
  let m := wr64 m (s + 16) (frame_rflags f) in
  let m := wr64 m (s + 8) (frame_cs f) in
  let m := wr64 m s (frame_rip f) in
  mkCpu handler (upd (cpu_regs c) RSP s) (cpu_cr3 c) (cpu_flags c) (cpu_out c) m.

(** * Symbolic execution *)
Arguments exec_in : simpl never.
Arguments fetch : simpl never.
Lemma exec_at tr fuel base code rip regs cr3 zf out m i n :
  fetch base code rip = Some (Some (i, n)) →
  exec_in tr (S fuel) base code (mkCpu rip regs cr3 zf out m) =
    match step tr i (mkCpu (rip + Z.of_nat n) regs cr3 zf out m) with
    | Next c => exec_in tr fuel base code c
    | Stopped s c => Some (s, c)
    | PageFault write a => Some (Faulted write a, mkCpu rip regs cr3 zf out m)
    end.
Proof. intros H. unfold exec_in at 1. fold exec_in. cbn [cpu_rip]. by rewrite H. Qed.
Lemma exec_left tr fuel base code rip regs cr3 zf out m :
  fetch base code rip = None →
  exec_in tr (S fuel) base code (mkCpu rip regs cr3 zf out m) = Some (Left, mkCpu rip regs cr3 zf out m).
Proof. intros H. unfold exec_in at 1. fold exec_in. cbn [cpu_rip]. by rewrite H. Qed.
Lemma rd8_wr8 m a v b : rd8 (wr8 m a v) b = if b =? a then v else rd8 m b.
Proof.
  unfold rd8, wr8. destruct (Z.eqb_spec b a) as [->|].
  - rewrite byte_at_set_in by (rewrite len_cons; change (len []) with 0; lia). by rewrite Z.sub_diag.
  - apply byte_at_set_out. rewrite len_cons. change (len []) with 0. lia.
Qed.
Lemma rd64_wr64 m a v b :
  u64 v → b = a ∨ b + 8 ≤ a ∨ a + 8 ≤ b → rd64 (wr64 m a v) b = if b =? a then v else rd64 m b.
Proof. apply u64_at_set_u64. Qed.
Lemma low8_set_al x v : 0 ≤ v < 256 → low8 (set_al x v) = v.
Proof. intros. unfold low8, set_al. dlia. Qed.

(** A sum of numerals. *)
Ltac closed_sum x :=
  lazymatch x with
  | Z0 => idtac | Zpos _ => idtac | Zneg _ => idtac
  | ?a + ?b => closed_sum a; closed_sum b
  | ?a - ?b => closed_sum a; closed_sum b
  end.
(** [literal t k] continues with the value of a closed integer. *)
Ltac literal t k := let v := eval vm_compute in t in match v with Z0 => k v | Zpos _ => k v | Zneg _ => k v end.
Ltac upd_simpl :=
  repeat match goal with
  | |- context [upd ?f ?i ?v ?j] =>
      let b := eval vm_compute in (Z.eqb j i) in
      match b with true => change (upd f i v j) with v | false => change (upd f i v j) with (f j) end
  end.
Ltac address_simpl :=
  repeat match goal with
  | |- context [(?x mod 2 ^ 64)] => closed_sum x; literal (x mod 2 ^ 64) ltac:(fun v => progress change (x mod 2 ^ 64) with v)
  | |- context [rd64 ?m (?x + ?y)] => closed_sum (x + y); literal (x + y) ltac:(fun v => change (rd64 m (x + y)) with (rd64 m v))
  | |- context [mkCpu (?x + ?y)] => closed_sum (x + y); literal (x + y) ltac:(fun v => change (mkCpu (x + y)) with (mkCpu v))
  end.
Ltac memory_simpl :=
  repeat first
    [ rewrite rd8_wr8
    | rewrite low8_set_al by lia
    | match goal with
      | |- context [if (?x =? ?y) then _ else _] =>
          let b := eval vm_compute in (x =? y) in
          match b with true => change (x =? y) with true | false => change (x =? y) with false end; cbn match
      end ].
(** One instruction of the handler, and what remains of its outcome. *)
Ltac x86_step :=
  match goal with
  | |- context [exec_in ?tr (S ?n) ?base ?code (mkCpu ?rip ?regs ?cr3 ?zf ?out ?m)] =>
      let f := eval vm_compute in (fetch base code rip) in
      match f with
      | Some (Some (?i, ?k)) =>
          rewrite (exec_at tr n base code rip regs cr3 zf out m i k) by (vm_compute; reflexivity)
      | None => rewrite (exec_left tr n base code rip regs cr3 zf out m) by (vm_compute; reflexivity)
      end
  end;
  cbv beta iota zeta delta [step access identity jump_if with_rip with_ram with_reg with_flags operand_address cpu_rip cpu_regs cpu_cr3 cpu_flags zf cpu_out
    cpu_ram Z.of_nat Pos.of_succ_nat Pos.succ];
  upd_simpl; address_simpl.
