(* ===== verification/Tasks.v ===== *)
(** The task-switching guest kernels: the models and host-side checks of
    [src/src/task.rs], [src/src/task/runnable_queue.rs] and
    [src/src/task/wait_channel.rs], and the interrupt handlers they install, which are
    byte arrays of machine code.

    [X86] executes the handlers; the theorems relate what they do to guest memory to
    the models the host compares it with.  The [run_*_guest] functions, which drive the guest
    through KVM with a timer thread, are not modelled. *)

From S2P Require Import Prelude Errors Memory LongMode Boot GuestTables Privilege X86.
Import Rings Spaces.

(** * Definitions *)
Definition verification_error (stage detail : string) : Error :=
  HostEnvironment (VcpuOperation 0 stage (Custom InvalidData (Message detail))).
Definition read_byte (m : GuestMemory) (address : GuestPhysAddr) : res Error Z :=
  bs ← read m address 1;
  index bs 0.

(** ** Task contexts: [src/src/task.rs] *)
Definition TASK_CONTEXT_PAGE_ADDR : GuestPhysAddr := 0x30000.
Definition TASK_A_CONTEXT_ADDR : GuestPhysAddr := TASK_CONTEXT_PAGE_ADDR.
Definition TASK_B_CONTEXT_ADDR : GuestPhysAddr := 0x30040.
Definition TASK_TERMINAL_OBSERVATION_ADDR : GuestPhysAddr := 0x30080.
Definition TASK_A_INITIAL_RSP : Z := 0x1fcff0.
Definition TASK_A_R12 : Z := 0x1111.
Definition TASK_B_SAVED_R12 : Z := 0x2223.
Definition TASK_TERMINAL_USER_RIP : Z := 0x11013.
Definition TASK_CONTEXT_BYTES : Z := 48.
Definition TASK_TERMINAL_OBSERVATION_BYTES : Z := 32.
Definition SCHEDULER_HANDLER_BYTES : list Z :=
  [0x0f; 0x20; 0xdb; 0x48; 0x81; 0xfb; 0x00; 0x10; 0x00; 0x00; 0x74; 0x0e; 0x48; 0x81; 0xfb; 0x00;
   0xb0; 0x00; 0x00; 0x74; 0x2c; 0xe9; 0xa5; 0x00; 0x00; 0x00; 0x48; 0xbf; 0x00; 0x00; 0x03; 0x00;
   0x00; 0x00; 0x00; 0x00; 0x48; 0xbe; 0x40; 0x00; 0x03; 0x00; 0x00; 0x00; 0x00; 0x00; 0x49; 0x81;
   0xfc; 0x11; 0x11; 0x00; 0x00; 0x0f; 0x85; 0x84; 0x00; 0x00; 0x00; 0xb0; 0x41; 0xe6; 0xe9; 0xeb;
   0x21; 0x48; 0xbf; 0x40; 0x00; 0x03; 0x00; 0x00; 0x00; 0x00; 0x00; 0x48; 0xbe; 0x00; 0x00; 0x03;
   0x00; 0x00; 0x00; 0x00; 0x00; 0x49; 0x81; 0xfc; 0x23; 0x22; 0x00; 0x00; 0x75; 0x61; 0xb0; 0x42;
   0xe6; 0xe9; 0x48; 0x89; 0x1f; 0x48; 0x8b; 0x04; 0x24; 0x48; 0x89; 0x47; 0x08; 0x48; 0x8b; 0x44;
   0x24; 0x18; 0x48; 0x89; 0x47; 0x10; 0x48; 0x8b; 0x44; 0x24; 0x10; 0x48; 0x89; 0x47; 0x18; 0x4c;
   0x89; 0x67; 0x20; 0x48; 0xff; 0x47; 0x28; 0x48; 0x8b; 0x46; 0x08; 0x48; 0x89; 0x04; 0x24; 0x48;
   0xc7; 0x44; 0x24; 0x08; 0x23; 0x00; 0x00; 0x00; 0x48; 0x8b; 0x46; 0x18; 0x48; 0x89; 0x44; 0x24;
   0x10; 0x48; 0x8b; 0x46; 0x10; 0x48; 0x89; 0x44; 0x24; 0x18; 0x48; 0xc7; 0x44; 0x24; 0x20; 0x1b;
   0x00; 0x00; 0x00; 0x4c; 0x8b; 0x66; 0x20; 0x48; 0x8b; 0x06; 0x0f; 0x22; 0xd8; 0x48; 0xcf; 0xb0;
   0x46; 0xe6; 0xe9; 0xf4].
Definition TERMINAL_HANDLER_BYTES : list Z :=
  [0x0f; 0x20; 0xdb; 0x48; 0x81; 0xfb; 0x00; 0x10; 0x00; 0x00; 0x75; 0x4d; 0x49; 0x81; 0xfc; 0x11;
   0x11; 0x00; 0x00; 0x75; 0x44; 0x48; 0x8b; 0x04; 0x24; 0x48; 0x3d; 0x13; 0x10; 0x01; 0x00; 0x75;
   0x38; 0x48; 0x8b; 0x44; 0x24; 0x18; 0x48; 0x3d; 0xf0; 0xcf; 0x1f; 0x00; 0x75; 0x2b; 0x48; 0xbf;
   0x80; 0x00; 0x03; 0x00; 0x00; 0x00; 0x00; 0x00; 0x48; 0x89; 0x1f; 0x48; 0x8b; 0x04; 0x24; 0x48;
   0x89; 0x47; 0x08; 0x48; 0x8b; 0x44; 0x24; 0x18; 0x48; 0x89; 0x47; 0x10; 0x4c; 0x89; 0x67; 0x18;
   0xb0; 0x52; 0xe6; 0xe9; 0xb0; 0x44; 0xe6; 0xe9; 0xf4; 0xb0; 0x46; 0xe6; 0xe9; 0xf4].
Record TaskContextSnapshot := mkContext {
  ctx_cr3 : Z; ctx_rip : Z; ctx_rsp : Z; ctx_rflags : Z; ctx_r12 : Z; ctx_save_count : Z
}.
Record TaskTerminalObservation := mkTerminal { term_cr3 : Z; term_rip : Z; term_rsp : Z; term_r12 : Z }.
(** The loop of [write_context] over the six fields. *)
Fixpoint write_fields (address index : Z) (values : list Z) : prog GuestMemory Error unit :=
  match values with
  | [] => mret tt
  | value :: values =>
      write_mut (address + index * 8) (to_le_bytes 8 value);;
      write_fields address (index + 1) values
  end.
Definition write_context (address : GuestPhysAddr) (context : TaskContextSnapshot) : prog GuestMemory Error unit :=
  write_fields address 0
    [ctx_cr3 context; ctx_rip context; ctx_rsp context; ctx_rflags context; ctx_r12 context; ctx_save_count context].
Definition field (bytes : list Z) (offset : Z) : res Error Z :=
  bs ← slice bytes offset (offset + 8);
  Ok (from_le_bytes bs).
Definition read_context (m : GuestMemory) (address : GuestPhysAddr) : res Error TaskContextSnapshot :=
  bytes ← read m address TASK_CONTEXT_BYTES;
  cr3 ← field bytes 0;
  rip ← field bytes 8;
  rsp ← field bytes 16;
  rflags ← field bytes 24;
  r12 ← field bytes 32;
  save_count ← field bytes 40;
  Ok (mkContext cr3 rip rsp rflags r12 save_count).
Definition read_terminal_observation (m : GuestMemory) : res Error TaskTerminalObservation :=
  bytes ← read m TASK_TERMINAL_OBSERVATION_ADDR TASK_TERMINAL_OBSERVATION_BYTES;
  cr3 ← field bytes 0;
  rip ← field bytes 8;
  rsp ← field bytes 16;
  r12 ← field bytes 24;
  Ok (mkTerminal cr3 rip rsp r12).

(** ** The runnable queue: [src/src/task/runnable_queue.rs] *)
Inductive TaskRunState := Blocked | Runnable.
Inductive RunnableTaskId := TaskA | TaskB.
#[global] Instance task_run_state_eq_dec : EqDecision TaskRunState.
Proof. solve_decision. Defined.
#[global] Instance runnable_task_id_eq_dec : EqDecision RunnableTaskId.
Proof. solve_decision. Defined.
Definition state_u8 (s : TaskRunState) : Z := match s with Blocked => 0 | Runnable => 1 end.
Definition task_u8 (t : RunnableTaskId) : Z := match t with TaskA => 0 | TaskB => 1 end.
Definition TASK_BLOCK_HANDLER : GuestPhysAddr := 0x14000.
Definition TASK_WAKE_ARM_HANDLER : GuestPhysAddr := 0x16000.
Definition TASK_WAKE_TIMER_HANDLER : GuestPhysAddr := 0x17000.
Definition TASK_QUEUE_HANDLER : GuestPhysAddr := 0x18000.
Definition TASK_QUEUE_A_STATE_ADDR : GuestPhysAddr := 0x300c0.
Definition TASK_QUEUE_B_STATE_ADDR : GuestPhysAddr := 0x300c1.
Definition TASK_QUEUE_ENTRY0_ADDR : GuestPhysAddr := 0x300c8.
Definition TASK_QUEUE_ENTRY1_ADDR : GuestPhysAddr := 0x300c9.
Definition TASK_QUEUE_HEAD_ADDR : GuestPhysAddr := 0x300ca.
Definition TASK_QUEUE_SELECTED_ADDR : GuestPhysAddr := 0x300cb.
Definition TASK_QUEUE_SKIP_COUNT_ADDR : GuestPhysAddr := 0x300cc.
Definition QUEUE_BLOCK_HANDLER_BYTES : list Z :=
  [0xc6; 0x04; 0x25; 0xc0; 0x00; 0x03; 0x00; 0x00; 0xb0; 0x4b; 0xe6; 0xe9; 0xe9; 0xef; 0x3f; 0x00;
   0x00].
Definition QUEUE_WAKE_ARM_HANDLER_BYTES : list Z :=
  [0xb0; 0x50; 0xe6; 0xe9; 0xfb; 0xf4; 0x80; 0x3c; 0x25; 0xc0; 0x00; 0x03; 0x00; 0x01; 0x75; 0x05;
   0xe9; 0xeb; 0x1f; 0x00; 0x00; 0xb0; 0x46; 0xe6; 0xe9; 0xf4].
Definition QUEUE_WAKE_TIMER_HANDLER_BYTES : list Z :=
  [0xc6; 0x04; 0x25; 0xc0; 0x00; 0x03; 0x00; 0x01; 0xb0; 0x57; 0xe6; 0xe9; 0xb0; 0x20; 0xe6; 0x20;
   0x48; 0xcf].
Definition QUEUE_HANDLER_BYTES : list Z :=
  [0x80; 0x3c; 0x25; 0xc8; 0x00; 0x03; 0x00; 0x00; 0x0f; 0x85; 0xd6; 0x00; 0x00; 0x00; 0x80; 0x3c;
   0x25; 0xc9; 0x00; 0x03; 0x00; 0x01; 0x0f; 0x85; 0xc8; 0x00; 0x00; 0x00; 0x80; 0x3c; 0x25; 0xca;
   0x00; 0x03; 0x00; 0x00; 0x0f; 0x84; 0x2f; 0x00; 0x00; 0x00; 0x80; 0x3c; 0x25; 0xca; 0x00; 0x03;
   0x00; 0x01; 0x0f; 0x85; 0xac; 0x00; 0x00; 0x00; 0x80; 0x3c; 0x25; 0xc1; 0x00; 0x03; 0x00; 0x01;
   0x0f; 0x84; 0x75; 0x00; 0x00; 0x00; 0x80; 0x3c; 0x25; 0xc0; 0x00; 0x03; 0x00; 0x01; 0x0f; 0x84;
   0x26; 0x00; 0x00; 0x00; 0xe9; 0x8b; 0x00; 0x00; 0x00; 0x80; 0x3c; 0x25; 0xc0; 0x00; 0x03; 0x00;
   0x01; 0x0f; 0x84; 0x2b; 0x00; 0x00; 0x00; 0x80; 0x3c; 0x25; 0xc1; 0x00; 0x03; 0x00; 0x01; 0x0f;
   0x84; 0x11; 0x00; 0x00; 0x00; 0xe9; 0x6a; 0x00; 0x00; 0x00; 0xfe; 0x04; 0x25; 0xcc; 0x00; 0x03;
   0x00; 0xe9; 0x0c; 0x00; 0x00; 0x00; 0xfe; 0x04; 0x25; 0xcc; 0x00; 0x03; 0x00; 0xe9; 0x29; 0x00;
   0x00; 0x00; 0xc6; 0x04; 0x25; 0xcb; 0x00; 0x03; 0x00; 0x00; 0xc6; 0x04; 0x25; 0xca; 0x00; 0x03;
   0x00; 0x01; 0x0f; 0x20; 0xdb; 0x48; 0x81; 0xfb; 0x00; 0xb0; 0x00; 0x00; 0x0f; 0x85; 0x32; 0x00;
   0x00; 0x00; 0xb0; 0x30; 0xe6; 0xe9; 0xe9; 0x45; 0xcf; 0xff; 0xff; 0xc6; 0x04; 0x25; 0xcb; 0x00;
   0x03; 0x00; 0x01; 0xc6; 0x04; 0x25; 0xca; 0x00; 0x03; 0x00; 0x00; 0x0f; 0x20; 0xdb; 0x48; 0x81;
   0xfb; 0x00; 0x10; 0x00; 0x00; 0x0f; 0x85; 0x09; 0x00; 0x00; 0x00; 0xb0; 0x31; 0xe6; 0xe9; 0xe9;
   0x1c; 0xcf; 0xff; 0xff; 0xb0; 0x46; 0xe6; 0xe9; 0xf4].
Record RunnableQueueSnapshot := mkQueueSnapshot {
  snap_entry0 : RunnableTaskId; snap_entry1 : RunnableTaskId; snap_head : Z; snap_selected : RunnableTaskId;
  snap_skip_count : Z; snap_a_state : TaskRunState; snap_b_state : TaskRunState
}.
#[global] Instance runnable_queue_snapshot_eq_dec : EqDecision RunnableQueueSnapshot.
Proof. solve_decision. Defined.
Record QueueModel := mkQueue { queue_entries : list RunnableTaskId; queue_head : Z }.
Record QueueSelection := mkSelection { selection_task : RunnableTaskId; selection_skipped : Z }.
Definition queue_new (entry0 entry1 : RunnableTaskId) : res Error QueueModel :=
  err_if (bool_decide (entry0 = entry1))
    (verification_error "bounded runnable queue configuration"
       "duplicate task IDs are not allowed in the two-entry queue");;
  Ok (mkQueue [entry0; entry1] 0).
(** The loop of [select_next]; [tries] counts the entries still to be looked at. *)
Fixpoint select_from (tries : nat) (states : list TaskRunState) (skipped : Z) : prog QueueModel Error QueueSelection :=
  match tries with
  | O => throw (verification_error "bounded runnable queue selection" "no runnable task exists in the bounded queue")
  | S tries =>
      self ← get;
      task ← lift (index (queue_entries self) (queue_head self));
      head ← lift (uadd 64 (queue_head self) 1);
      put (mkQueue (queue_entries self) (head mod len (queue_entries self)));;
      state ← lift (index states (task_u8 task));
      if bool_decide (state = Runnable) then mret (mkSelection task skipped)
      else
        skipped ← lift (expect (checked_add 8 skipped 1));
        select_from tries states skipped
  end.
Definition select_next (task_a_state task_b_state : TaskRunState) : prog QueueModel Error QueueSelection := λ self,
  select_from (length (queue_entries self)) [task_a_state; task_b_state] 0 self.

Definition initialize_queue_metadata : prog GuestMemory Error unit :=
  model ← lift (queue_new TaskA TaskB);
  entry0 ← lift (index (queue_entries model) 0);
  entry1 ← lift (index (queue_entries model) 1);
  write_mut TASK_QUEUE_A_STATE_ADDR [state_u8 Runnable];;
  write_mut TASK_QUEUE_B_STATE_ADDR [state_u8 Runnable];;
  write_mut TASK_QUEUE_ENTRY0_ADDR [task_u8 entry0];;
  write_mut TASK_QUEUE_ENTRY1_ADDR [task_u8 entry1];;
  write_mut TASK_QUEUE_HEAD_ADDR [as_width 8 (queue_head model)];;
  write_mut TASK_QUEUE_SELECTED_ADDR [0xff];;
  write_mut TASK_QUEUE_SKIP_COUNT_ADDR [0].
Definition read_queue_state (m : GuestMemory) (address : GuestPhysAddr) : res Error TaskRunState :=
  value ← read_byte m address;
  if value =? 0 then Ok Blocked else if value =? 1 then Ok Runnable
  else Err (verification_error "bounded runnable queue state encoding" "unexpected task run-state value").
Definition read_queue_task_id (m : GuestMemory) (address : GuestPhysAddr) : res Error RunnableTaskId :=
  value ← read_byte m address;
  if value =? 0 then Ok TaskA else if value =? 1 then Ok TaskB
  else Err (verification_error "bounded runnable queue task-id encoding" "unexpected task ID").
Definition read_queue_snapshot (m : GuestMemory) : res Error RunnableQueueSnapshot :=
  entry0 ← read_queue_task_id m TASK_QUEUE_ENTRY0_ADDR;
  entry1 ← read_queue_task_id m TASK_QUEUE_ENTRY1_ADDR;
  head ← read_byte m TASK_QUEUE_HEAD_ADDR;
  selected ← read_queue_task_id m TASK_QUEUE_SELECTED_ADDR;
  skip_count ← read_byte m TASK_QUEUE_SKIP_COUNT_ADDR;
  task_a_state ← read_queue_state m TASK_QUEUE_A_STATE_ADDR;
  task_b_state ← read_queue_state m TASK_QUEUE_B_STATE_ADDR;
  Ok (mkQueueSnapshot entry0 entry1 head selected skip_count task_a_state task_b_state).
Definition require_first_queue_selection (snapshot : RunnableQueueSnapshot) : res Error unit :=
  model ← queue_new TaskA TaskB;
  let '(expected, model) := select_next Blocked Runnable model in
  expected ← expected;
  err_if (bool_decide (snapshot ≠ mkQueueSnapshot TaskA TaskB (as_width 8 (queue_head model)) (selection_task expected)
                                    (selection_skipped expected) Blocked Runnable))
    (verification_error "bounded runnable queue first selection" "unexpected first queue snapshot").
Definition require_second_queue_selection (snapshot : RunnableQueueSnapshot) : res Error unit :=
  model ← queue_new TaskA TaskB;
  let '(first, model) := select_next Blocked Runnable model in
  first ← first;
  let '(second, model) := select_next Runnable Runnable model in
  second ← second;
  expected_skips ← expect (checked_add 8 (selection_skipped first) (selection_skipped second));
  err_if (bool_decide (snapshot ≠ mkQueueSnapshot TaskA TaskB (as_width 8 (queue_head model)) (selection_task second)
                                    expected_skips Runnable Runnable))
    (verification_error "bounded runnable queue second selection" "unexpected second queue snapshot").

(** ** Wait channels: [src/src/task/wait_channel.rs] *)
Definition TASK_WAIT_CHANNEL_ADDR : GuestPhysAddr := 0x300d0.
Definition TASK_WAIT_MISMATCH_COUNT_ADDR : GuestPhysAddr := 0x300d1.
Definition TASK_WAIT_WAKE_COUNT_ADDR : GuestPhysAddr := 0x300d2.
Definition TASK_WAIT_LAST_ATTEMPT_ADDR : GuestPhysAddr := 0x300d3.
Definition TASK_WAIT_CHANNEL_NONE : Z := 0.
Definition TASK_WAIT_CHANNEL_A : Z := 0x11.
Definition TASK_WAIT_WRONG_CHANNEL : Z := 0x22.
Definition WAIT_BLOCK_HANDLER_BYTES : list Z :=
  [0xc6; 0x04; 0x25; 0xc0; 0x00; 0x03; 0x00; 0x00; 0xc6; 0x04; 0x25; 0xd0; 0x00; 0x03; 0x00; 0x11;
   0xb0; 0x4b; 0xe6; 0xe9; 0xe9; 0xe7; 0x3f; 0x00; 0x00].
Definition WAIT_WAKE_ARM_HANDLER_BYTES : list Z :=
  [0xc6; 0x04; 0x25; 0xd3; 0x00; 0x03; 0x00; 0x22; 0x80; 0x3c; 0x25; 0xd0; 0x00; 0x03; 0x00; 0x22;
   0x0f; 0x84; 0x4e; 0x00; 0x00; 0x00; 0xfe; 0x04; 0x25; 0xd1; 0x00; 0x03; 0x00; 0x80; 0x3c; 0x25;
   0xc0; 0x00; 0x03; 0x00; 0x00; 0x0f; 0x85; 0x39; 0x00; 0x00; 0x00; 0x80; 0x3c; 0x25; 0xd0; 0x00;
   0x03; 0x00; 0x11; 0x0f; 0x85; 0x2b; 0x00; 0x00; 0x00; 0xb0; 0x58; 0xe6; 0xe9; 0xb0; 0x50; 0xe6;
   0xe9; 0xfb; 0xf4; 0x80; 0x3c; 0x25; 0xc0; 0x00; 0x03; 0x00; 0x01; 0x0f; 0x85; 0x13; 0x00; 0x00;
   0x00; 0x80; 0x3c; 0x25; 0xd0; 0x00; 0x03; 0x00; 0x00; 0x0f; 0x85; 0x05; 0x00; 0x00; 0x00; 0xe9;
   0x9c; 0x1f; 0x00; 0x00; 0xb0; 0x46; 0xe6; 0xe9; 0xf4].
Definition WAIT_WAKE_TIMER_HANDLER_BYTES : list Z :=
  [0xc6; 0x04; 0x25; 0xd3; 0x00; 0x03; 0x00; 0x11; 0x80; 0x3c; 0x25; 0xd0; 0x00; 0x03; 0x00; 0x11;
   0x0f; 0x85; 0x21; 0x00; 0x00; 0x00; 0xc6; 0x04; 0x25; 0xc0; 0x00; 0x03; 0x00; 0x01; 0xc6; 0x04;
   0x25; 0xd0; 0x00; 0x03; 0x00; 0x00; 0xfe; 0x04; 0x25; 0xd2; 0x00; 0x03; 0x00; 0xb0; 0x57; 0xe6;
   0xe9; 0xb0; 0x20; 0xe6; 0x20; 0x48; 0xcf; 0xb0; 0x46; 0xe6; 0xe9; 0xb0; 0x20; 0xe6; 0x20; 0x48;
   0xcf].
Record WaitChannelModel := mkWait {
  wait_state : TaskRunState; wait_owner : Z; wait_mismatch_count : Z; wait_wake_count : Z; wait_last_attempt : Z
}.
#[global] Instance wait_channel_model_eq_dec : EqDecision WaitChannelModel.
Proof. solve_decision. Defined.
Definition wait_new : WaitChannelModel := mkWait Runnable TASK_WAIT_CHANNEL_NONE 0 0 TASK_WAIT_CHANNEL_NONE.
Definition wait_block (channel : Z) : prog WaitChannelModel Error unit :=
  lift (err_if (channel =? TASK_WAIT_CHANNEL_NONE)
    (verification_error "bounded wait-channel block" "channel zero is reserved for no owner"));;
  self ← get;
  lift (err_if (bool_decide (wait_state self ≠ Runnable) || negb (wait_owner self =? TASK_WAIT_CHANNEL_NONE))
    (verification_error "bounded wait-channel block" "task must be runnable and unowned before blocking"));;
  put (mkWait Blocked channel (wait_mismatch_count self) (wait_wake_count self) (wait_last_attempt self)).
Definition wait_wake (channel : Z) : prog WaitChannelModel Error bool :=
  lift (err_if (channel =? TASK_WAIT_CHANNEL_NONE)
    (verification_error "bounded wait-channel wake" "channel zero cannot wake a task"));;
  self ← get;
  lift (err_if (bool_decide (wait_state self ≠ Blocked) || (wait_owner self =? TASK_WAIT_CHANNEL_NONE))
    (verification_error "bounded wait-channel wake" "wake requires a blocked task with an owning channel"));;
  put (mkWait (wait_state self) (wait_owner self) (wait_mismatch_count self) (wait_wake_count self) channel);;
  if negb (wait_owner self =? channel) then
    count ← lift (ok_or (checked_add 8 (wait_mismatch_count self) 1)
      (verification_error "bounded wait-channel wake" "mismatch count overflow"));
    put (mkWait (wait_state self) (wait_owner self) count (wait_wake_count self) channel);;
    mret false
  else
    put (mkWait Runnable TASK_WAIT_CHANNEL_NONE (wait_mismatch_count self) (wait_wake_count self) channel);;
    count ← lift (ok_or (checked_add 8 (wait_wake_count self) 1)
      (verification_error "bounded wait-channel wake" "wake count overflow"));
    put (mkWait Runnable TASK_WAIT_CHANNEL_NONE (wait_mismatch_count self) count channel);;
    mret true.
(** [WaitChannelSnapshot] has the fields of the model, under other names. *)
Abbreviation WaitChannelSnapshot := WaitChannelModel.
Definition initialize_wait_channel_metadata : prog GuestMemory Error unit :=
  write_mut TASK_WAIT_CHANNEL_ADDR [0; 0; 0; 0].
Definition read_wait_channel_snapshot (m : GuestMemory) : res Error WaitChannelSnapshot :=
  task_a_state ← read_queue_state m TASK_QUEUE_A_STATE_ADDR;
  owner ← read_byte m TASK_WAIT_CHANNEL_ADDR;
  mismatch_count ← read_byte m TASK_WAIT_MISMATCH_COUNT_ADDR;
  wake_count ← read_byte m TASK_WAIT_WAKE_COUNT_ADDR;
  last_attempt ← read_byte m TASK_WAIT_LAST_ATTEMPT_ADDR;
  Ok (mkWait task_a_state owner mismatch_count wake_count last_attempt).
Definition require_wait_snapshot (stage : string) (actual expected : WaitChannelSnapshot) : res Error unit :=
  err_if (bool_decide (actual ≠ expected)) (verification_error stage "unexpected wait snapshot").
Definition require_wait_blocked (actual : WaitChannelSnapshot) : res Error unit :=
  let '(r, model) := wait_block TASK_WAIT_CHANNEL_A wait_new in
  r;;
  require_wait_snapshot "wait-channel blocked ownership" actual model.
Definition require_wait_mismatch (actual : WaitChannelSnapshot) : res Error unit :=
  let '(r, model) := wait_block TASK_WAIT_CHANNEL_A wait_new in
  r;;
  let '(woken, model) := wait_wake TASK_WAIT_WRONG_CHANNEL model in
  woken ← woken;
  err_if woken (verification_error "wait-channel model mismatch" "wrong channel unexpectedly woke the task");;
  require_wait_snapshot "wait-channel mismatch ownership" actual model.
Definition require_wait_woken (actual : WaitChannelSnapshot) : res Error unit :=
  let '(r, model) := wait_block TASK_WAIT_CHANNEL_A wait_new in
  r;;
  let '(wrong, model) := wait_wake TASK_WAIT_WRONG_CHANNEL model in
  _ ← wrong;
  let '(woken, model) := wait_wake TASK_WAIT_CHANNEL_A model in
  woken ← woken;
  err_if (negb woken) (verification_error "wait-channel model wake" "owning channel failed to wake the task");;
  require_wait_snapshot "wait-channel successful wake ownership" actual model.

(** * Facts *)

(** ** The queue in guest memory *)
Definition DEBUG_OUT : Z := 0xe9.
Record queue_holds (m : GuestMemory) (model : QueueModel) (a b : TaskRunState) (skips : Z) : Prop := {
  holds_entries : queue_entries model = [TaskA; TaskB];
  holds_head : queue_head model = 0 ∨ queue_head model = 1;
  mem_a_state : rd8 m 0x300c0 = state_u8 a;
  mem_b_state : rd8 m 0x300c1 = state_u8 b;
  mem_entry0 : rd8 m 0x300c8 = 0;
  mem_entry1 : rd8 m 0x300c9 = 1;
  mem_head : rd8 m 0x300ca = queue_head model;
  mem_skips : rd8 m 0x300cc = skips
}.
(** The space a task runs in; the handler switches from the other one. *)
Definition space_of (t : RunnableTaskId) : Z :=
  match t with TaskA => ADDRESS_SPACE_A_CR3 | TaskB => ADDRESS_SPACE_B_PML4_ADDR end.
Definition other_task (t : RunnableTaskId) : RunnableTaskId := match t with TaskA => TaskB | TaskB => TaskA end.
Definition digit_of (t : RunnableTaskId) : Z := match t with TaskA => 0x30 | TaskB => 0x31 end.
Lemma wr8_window m a v : 0 ≤ v < 256 → window a (a + 1) m (wr8 m a v).
Proof. intros. apply window_set; [lia|rewrite len_cons; change (len []) with 0; lia|]. constructor; [ulia|constructor]. Qed.
Lemma same_refl x : same x x = true.
Proof. apply Z.eqb_refl. Qed.
Lemma same_spec x y : reflect (x = y) (same x y).
Proof. apply Z.eqb_spec. Qed.

(** What the selection handler does from each place it can be entered in. *)
Definition queue_outcome (m : GuestMemory) (cr3 : Z) (out : list (Z * Z)) (model : QueueModel) (a b : TaskRunState)
    (skips : Z) (r : res Error QueueSelection * QueueModel) (s : Stop) (c : Cpu) : Prop :=
  match r with
  | (Ok sel, model') =>
      queue_holds (cpu_ram c) model' a b ((skips + selection_skipped sel) mod 2 ^ 8) ∧
      rd8 (cpu_ram c) TASK_QUEUE_SELECTED_ADDR = task_u8 (selection_task sel) ∧
      window TASK_QUEUE_HEAD_ADDR (TASK_QUEUE_SKIP_COUNT_ADDR + 1) m (cpu_ram c) ∧ cpu_cr3 c = cr3 ∧
      (if bool_decide (cr3 = space_of (other_task (selection_task sel)))
       then s = Left ∧ cpu_rip c = PRIVILEGE_RETURN_HANDLER ∧
            cpu_out c = out ++ [(DEBUG_OUT, digit_of (selection_task sel))]
       else s = Halted ∧ cpu_out c = out ++ [(DEBUG_OUT, 0x46)])
  | (Err _, model') => model' = model ∧ cpu_ram c = m ∧ s = Halted ∧ cpu_out c = out ++ [(DEBUG_OUT, 0x46)]
  | (Panic, _) => False
  end.
Lemma inc8_range x : 0 ≤ inc8 x < 256.
Proof. unfold inc8. apply Z.mod_pos_bound. lia. Qed.
Lemma inc8_byte x k : x = k → inc8 x = (k + 1) mod 2 ^ 8.
Proof. by intros ->. Qed.
(** Writes inside a window. *)
Ltac wr8_windows :=
  repeat (etrans; [|eapply window_widen; [| |apply wr8_window]; [vm_compute; congruence|vm_compute; congruence|
    first [lia|apply inc8_range]]]); reflexivity.
Ltac cpu_fields := cbv beta iota delta [cpu_rip cpu_regs cpu_cr3 cpu_flags cpu_out cpu_ram].
Ltac read_back := rewrite ?rd8_wr8; memory_simpl; first [done|by apply inc8_byte|by rewrite Z.add_0_r, Z.mod_small by lia].
Ltac decide_same :=
  match goal with
  | H : ?x = ?y |- context [same ?x ?k] =>
      rewrite H; let b := eval vm_compute in (same y k) in
      match b with true => change (same y k) with true | false => change (same y k) with false end; cbn match
  end.
Ltac queue_run := repeat (first [progress (cbn match)|decide_same|x86_step]).
Lemma queue_handler_runs m regs cr3 zf out model a b skips :
  queue_holds m model a b skips → 0 ≤ skips < 256 →
  ∃ s c, exec 40 TASK_QUEUE_HANDLER QUEUE_HANDLER_BYTES (mkCpu TASK_QUEUE_HANDLER regs cr3 zf out m) = Some (s, c) ∧
    queue_outcome m cr3 out model a b skips (select_next a b model) s c.
Proof.
  intros [He Hh Ha Hb H0 H1 Hm Hs] Hskips. destruct model as [entries head]. simpl in *. subst entries.
  destruct Hh as [-> | ->], a, b; simpl in Ha, Hb; unfold TASK_QUEUE_HANDLER.
  all: queue_run.
  all: try (match goal with |- context [same ?x ?k] => is_var x; destruct (same_spec x k) end; queue_run).
  all: eexists _, _; split; [reflexivity|].
  all: match goal with
       | |- context [select_next ?a ?b ?q] => let v := eval vm_compute in (select_next a b q) in change (select_next a b q) with v
       end.
  all: cbv beta iota delta [queue_outcome selection_task selection_skipped]; cpu_fields; rewrite ?low8_set_al by lia.
  all: first [by split_and!|refine (conj _ (conj _ (conj _ (conj eq_refl _))))].
  all: lazymatch goal with
       | |- queue_holds _ _ _ _ _ => split; simpl; first [done|tauto|read_back]
       | |- window _ _ _ _ => wr8_windows
       | |- rd8 _ _ = _ => by (rewrite ?rd8_wr8; memory_simpl)
       | |- _ => case_bool_decide; first [by split_and!|done|exfalso; by auto]
       end.
Qed.

(** The other handlers of the queue. *)
Definition at_handler (handler : Z) (regs : Z → Z) (cr3 : Z) (zf : Flags) (out : list (Z * Z)) (m : GuestMemory) : Cpu :=
  mkCpu handler regs cr3 zf out m.
Ltac handler_run :=
  unfold at_handler, TASK_BLOCK_HANDLER, TASK_WAKE_TIMER_HANDLER, TASK_WAKE_ARM_HANDLER, TASK_QUEUE_HANDLER; queue_run;
  rewrite ?low8_set_al by lia.
Lemma queue_block_runs regs cr3 zf out m :
  ∃ regs', exec 40 TASK_BLOCK_HANDLER QUEUE_BLOCK_HANDLER_BYTES (at_handler TASK_BLOCK_HANDLER regs cr3 zf out m) =
    Some (Left, mkCpu TASK_QUEUE_HANDLER regs' cr3 zf (out ++ [(DEBUG_OUT, 0x4b)]) (wr8 m 0x300c0 0)).
Proof. eexists. handler_run. reflexivity. Qed.
Lemma queue_timer_runs regs cr3 zf out m :
  ∃ f regs', exec 40 TASK_WAKE_TIMER_HANDLER QUEUE_WAKE_TIMER_HANDLER_BYTES (at_handler TASK_WAKE_TIMER_HANDLER regs cr3 zf out m) =
    Some (Returned f, mkCpu (TASK_WAKE_TIMER_HANDLER + 18) regs' cr3 zf ((out ++ [(DEBUG_OUT, 0x57)]) ++ [(0x20, 0x20)]) (wr8 m 0x300c0 1)).
Proof. do 2 eexists. handler_run. reflexivity. Qed.
Lemma queue_arm_waits regs cr3 zf out m :
  ∃ regs', exec 40 TASK_WAKE_ARM_HANDLER QUEUE_WAKE_ARM_HANDLER_BYTES (at_handler TASK_WAKE_ARM_HANDLER regs cr3 zf out m) =
    Some (Halted, mkCpu (TASK_WAKE_ARM_HANDLER + 6) regs' cr3 zf (out ++ [(DEBUG_OUT, 0x50)]) m).
Proof. eexists. handler_run. reflexivity. Qed.
Lemma queue_arm_resumes regs cr3 zf out m :
  rd8 m 0x300c0 = 1 →
  ∃ zf', exec 40 TASK_WAKE_ARM_HANDLER QUEUE_WAKE_ARM_HANDLER_BYTES (at_handler (TASK_WAKE_ARM_HANDLER + 6) regs cr3 zf out m) =
    Some (Left, mkCpu TASK_QUEUE_HANDLER regs cr3 zf' out m).
Proof.
  intros H. eexists. unfold at_handler. change (TASK_WAKE_ARM_HANDLER + 6) with 0x16006. handler_run. reflexivity.
Qed.

(** ** Reading the queue back *)
Lemma read_byte_fits m a : tables_fit m → 0 ≤ a < LONG_MODE_IDENTITY_MAP_SIZE → read_byte m a = Ok (rd8 m a).
Proof.
  intros (Hwf&Hb&Hs) Ha. unfold read_byte. rewrite read_ok; [|done|lia|unfold in_region; longmode_consts; lia].
  unfold mem_get, rd8, byte_at. change (Z.to_nat 1) with 1%nat. reflexivity.
Qed.
Lemma write_byte_fits m a v :
  tables_fit m → 0 ≤ a < LONG_MODE_IDENTITY_MAP_SIZE → write_mut a [v] m = (Ok tt, wr8 m a v).
Proof. intros. apply write_fits; [done|lia|rewrite len_cons; change (len []) with 0; lia]. Qed.
Lemma wr8_fits m a v : 0 ≤ v < 256 → tables_fit m → tables_fit (wr8 m a v).
Proof. intros. eapply window_fits; [by apply wr8_window|done]. Qed.
Lemma queue_snapshot m model a b skips selected :
  tables_fit m → queue_holds m model a b skips → rd8 m TASK_QUEUE_SELECTED_ADDR = task_u8 selected →
  read_queue_snapshot m = Ok (mkQueueSnapshot TaskA TaskB (queue_head model) selected skips a b).
Proof.
  intros Hf [_ _ Ha Hb H0 H1 Hh Hs] Hsel.
  unfold read_queue_snapshot, read_queue_task_id, read_queue_state. rewrite !read_byte_fits by (done || by vm_compute).
  unfold TASK_QUEUE_ENTRY0_ADDR, TASK_QUEUE_ENTRY1_ADDR, TASK_QUEUE_HEAD_ADDR, TASK_QUEUE_SKIP_COUNT_ADDR,
    TASK_QUEUE_A_STATE_ADDR, TASK_QUEUE_B_STATE_ADDR.
  rewrite H0, H1, Hh, Hsel, Hs, Ha, Hb. by destruct a, b, selected.
Qed.
Definition initial_queue (m : GuestMemory) : GuestMemory :=
  foldl (λ m '(a, v), wr8 m a v) m
    [(0x300c0, 1); (0x300c1, 1); (0x300c8, 0); (0x300c9, 1); (0x300ca, 0); (0x300cb, 0xff); (0x300cc, 0)].
Ltac fits := repeat apply wr8_fits; first [done|lia|vm_compute; intuition congruence].
Lemma queue_initialized m :
  tables_fit m → initialize_queue_metadata m = (Ok tt, initial_queue m) ∧ window 0x300c0 0x300cd m (initial_queue m) ∧
    queue_holds (initial_queue m) (mkQueue [TaskA; TaskB] 0) Runnable Runnable 0.
Proof.
  intros Hf. unfold initial_queue. cbn [foldl]. split; [|split].
  - unfold initialize_queue_metadata. do 3 (erewrite prog_bind_step by reflexivity).
    do 6 (erewrite prog_bind_step by (apply write_byte_fits; fits)).
    apply write_byte_fits; fits.
  - wr8_windows.
  - split; simpl; first [done|tauto|read_back].
Qed.

(** Two memories that agree on the scheduler's bytes: what happens to the rest of the
    guest between two handlers. *)
Definition agree (m m' : GuestMemory) : Prop := tables_fit m' ∧ ∀ a, 0x300c0 ≤ a < 0x300d4 → rd8 m' a = rd8 m a.
Lemma queue_holds_agree m m' model a b skips :
  agree m m' → queue_holds m model a b skips → queue_holds m' model a b skips.
Proof. intros [_ H] []. split; rewrite ?H by lia; assumption. Qed.
Lemma state_u8_inj a b : state_u8 a = state_u8 b → a = b.
Proof. by destruct a, b. Qed.
(** A write to one byte of the wait channel leaves the queue alone. *)
Lemma queue_holds_wr8 m model a b skips x v :
  0x300cd ≤ x → queue_holds m model a b skips → queue_holds (wr8 m x v) model a b skips.
Proof. intros Hx []. split; rewrite ?rd8_wr8; try (rewrite (proj2 (Z.eqb_neq _ x)) by lia); done. Qed.
Lemma queue_holds_state m model a b skips s :
  queue_holds m model a b skips → queue_holds (wr8 m 0x300c0 (state_u8 s)) model s b skips.
Proof. intros []. split; rewrite ?rd8_wr8; memory_simpl; done. Qed.

(** ** The wait channel in guest memory *)
Record wait_holds (m : GuestMemory) (w : WaitChannelModel) : Prop := {
  mem_state : rd8 m 0x300c0 = state_u8 (wait_state w);
  mem_owner : rd8 m 0x300d0 = wait_owner w;
  mem_mismatch : rd8 m 0x300d1 = wait_mismatch_count w;
  mem_wake : rd8 m 0x300d2 = wait_wake_count w;
  mem_last : rd8 m 0x300d3 = wait_last_attempt w
}.
Lemma wait_holds_agree m m' w : agree m m' → wait_holds m w → wait_holds m' w.
Proof. intros [_ H] []. split; rewrite ?H by lia; assumption. Qed.
Lemma wait_snapshot m w : tables_fit m → wait_holds m w → read_wait_channel_snapshot m = Ok w.
Proof.
  intros Hf [Hs Ho Hm Hw Hl]. unfold read_wait_channel_snapshot, read_queue_state.
  rewrite !read_byte_fits by (done || by vm_compute).
  unfold TASK_QUEUE_A_STATE_ADDR, TASK_WAIT_CHANNEL_ADDR, TASK_WAIT_MISMATCH_COUNT_ADDR, TASK_WAIT_WAKE_COUNT_ADDR,
    TASK_WAIT_LAST_ATTEMPT_ADDR.
  rewrite Hs, Ho, Hm, Hw, Hl. by destruct w as [[] ? ? ? ?].
Qed.
(** The states of the model: blocked exactly when a channel owns the task. *)
Definition wait_ok (w : WaitChannelModel) : Prop :=
  (wait_state w = Blocked ↔ wait_owner w ≠ TASK_WAIT_CHANNEL_NONE) ∧
  u8 (wait_mismatch_count w) ∧ u8 (wait_wake_count w).
Inductive wait_reachable : WaitChannelModel → Prop :=
  | wait_start : wait_reachable wait_new
  | wait_blocks w channel : wait_reachable w → wait_reachable (snd (wait_block channel w))
  | wait_wakes w channel : wait_reachable w → wait_reachable (snd (wait_wake channel w)).
Lemma u8_succ n c : u8 n → checked_add 8 n 1 = Some c → u8 c ∧ c = inc8 n.
Proof. intros Hn [-> H]%checked_add_Some. unfold inc8. rewrite Z.mod_small by ulia. split; [ulia|done]. Qed.
(** Both operations, on every branch. *)
Lemma wait_block_cases channel w :
  let w' := snd (wait_block channel w) in
  match fst (wait_block channel w) with
  | Ok _ => channel ≠ 0 ∧ wait_state w = Runnable ∧ wait_owner w = 0 ∧
      w' = mkWait Blocked channel (wait_mismatch_count w) (wait_wake_count w) (wait_last_attempt w)
  | Err _ => w' = w
  | Panic => False
  end.
Proof.
  destruct w as [st ow mc wc la]. unfold wait_block, TASK_WAIT_CHANNEL_NONE. rewrite prog_bind_err_if.
  destruct (Z.eqb_spec channel 0); [done|]. unfold get. erewrite prog_bind_step by done. rewrite prog_bind_err_if. simpl.
  case_bool_decide as Hst; [done|]. destruct (Z.eqb_spec ow 0); [|done]. simpl. by destruct st.
Qed.
Lemma wait_wake_cases channel w :
  let w' := snd (wait_wake channel w) in
  match fst (wait_wake channel w) with
  | Ok true => wait_state w = Blocked ∧ channel ≠ 0 ∧ wait_owner w = channel ∧
      (∃ n, checked_add 8 (wait_wake_count w) 1 = Some n ∧ w' = mkWait Runnable 0 (wait_mismatch_count w) n channel)
  | Ok false => wait_state w = Blocked ∧ channel ≠ 0 ∧ wait_owner w ≠ channel ∧ wait_owner w ≠ 0 ∧
      (∃ n, checked_add 8 (wait_mismatch_count w) 1 = Some n ∧
         w' = mkWait Blocked (wait_owner w) n (wait_wake_count w) channel)
  | Err _ => w' = w ∨
      (wait_state w = Blocked ∧ wait_owner w ≠ channel ∧ wait_owner w ≠ 0 ∧ checked_add 8 (wait_mismatch_count w) 1 = None ∧
         w' = mkWait Blocked (wait_owner w) (wait_mismatch_count w) (wait_wake_count w) channel) ∨
      (wait_state w = Blocked ∧ wait_owner w = channel ∧ channel ≠ 0 ∧ checked_add 8 (wait_wake_count w) 1 = None ∧
         w' = mkWait Runnable 0 (wait_mismatch_count w) (wait_wake_count w) channel)
  | Panic => False
  end.
Proof.
  destruct w as [st ow mc wc la]. unfold wait_wake, TASK_WAIT_CHANNEL_NONE. rewrite prog_bind_err_if.
  destruct (Z.eqb_spec channel 0); [by left|]. unfold get. erewrite prog_bind_step by done. rewrite prog_bind_err_if. simpl.
  case_bool_decide as Hst; [by left|]. assert (st = Blocked) as -> by by destruct st.
  destruct (Z.eqb_spec ow 0); [by left|]. simpl. unfold put at 1 4. erewrite !prog_bind_step by done.
  destruct (Z.eqb_spec ow channel); cbn [negb].
  - subst. unfold put at 1 3. erewrite !prog_bind_step by done. rewrite prog_bind_lift.
    destruct (checked_add 8 wc 1) eqn:E; simpl; [eauto 10|right; right; done].
  - rewrite prog_bind_lift. destruct (checked_add 8 mc 1) eqn:E; simpl; [eauto 10|right; left; done].
Qed.
Lemma wait_reachable_ok w : wait_reachable w → wait_ok w.
Proof.
  induction 1 as [|w ch _ IH|w ch _ IH].
  - split; [done|]. split; simpl; ulia.
  - pose proof (wait_block_cases ch w) as H. simpl in H. destruct (fst (wait_block ch w)); [|by rewrite H|done].
    destruct H as (?&?&?&->), IH as (?&?&?). done.
  - pose proof (wait_wake_cases ch w) as H. simpl in H. destruct IH as (Hi&Hm&Hw), (fst (wait_wake ch w)) as [[]| |]; [| | |done].
    + destruct H as (?&?&?&n&[? ->]%u8_succ&->); done.
    + destruct H as (?&?&?&?&n&[? ->]%u8_succ&->); done.
    + destruct H as [->|[(?&?&?&?&->)|(?&?&?&?&->)]]; done.
Qed.

(** The handlers: what each prints and where it stops. *)
Lemma wait_block_runs regs cr3 zf out m :
  ∃ regs', exec 40 TASK_BLOCK_HANDLER WAIT_BLOCK_HANDLER_BYTES (at_handler TASK_BLOCK_HANDLER regs cr3 zf out m) =
    Some (Left, mkCpu TASK_QUEUE_HANDLER regs' cr3 zf (out ++ [(DEBUG_OUT, 0x4b)]) (wr8 (wr8 m 0x300c0 0) 0x300d0 0x11)).
Proof. eexists. handler_run. reflexivity. Qed.
Lemma wait_timer_runs regs cr3 zf out m :
  ∃ f c, exec 40 TASK_WAKE_TIMER_HANDLER WAIT_WAKE_TIMER_HANDLER_BYTES (at_handler TASK_WAKE_TIMER_HANDLER regs cr3 zf out m) =
    Some (Returned f, c) ∧ cpu_cr3 c = cr3 ∧
    if same (rd8 m 0x300d0) 0x11
    then cpu_out c = (out ++ [(DEBUG_OUT, 0x57)]) ++ [(0x20, 0x20)] ∧
         cpu_ram c = wr8 (wr8 (wr8 (wr8 m 0x300d3 0x11) 0x300c0 1) 0x300d0 0) 0x300d2 (inc8 (rd8 m 0x300d2))
    else cpu_out c = (out ++ [(DEBUG_OUT, 0x46)]) ++ [(0x20, 0x20)] ∧ cpu_ram c = wr8 m 0x300d3 0x11.
Proof.
  handler_run. memory_simpl. destruct (same _ _) eqn:E; queue_run; memory_simpl; eexists _, _; split; done.
Qed.
Lemma wait_arm_runs regs cr3 zf out m :
  ∃ c, exec 40 TASK_WAKE_ARM_HANDLER WAIT_WAKE_ARM_HANDLER_BYTES (at_handler TASK_WAKE_ARM_HANDLER regs cr3 zf out m) =
    Some (Halted, c) ∧ cpu_cr3 c = cr3 ∧
    if same (rd8 m 0x300d0) 0x11 && same (rd8 m 0x300c0) 0
    then cpu_out c = (out ++ [(DEBUG_OUT, 0x58)]) ++ [(DEBUG_OUT, 0x50)] ∧ cpu_rip c = TASK_WAKE_ARM_HANDLER + 0x43 ∧
         cpu_ram c = wr8 (wr8 m 0x300d3 0x22) 0x300d1 (inc8 (rd8 m 0x300d1))
    else cpu_out c = out ++ [(DEBUG_OUT, 0x46)].
Proof.
  handler_run. memory_simpl. destruct (same_spec (rd8 m 0x300d0) 0x22) as [H|H]; queue_run; memory_simpl.
  { eexists _; split; done. }
  destruct (same (rd8 m 0x300c0) 0); queue_run; memory_simpl.
  2: { rewrite andb_false_r. eexists _; split; done. }
  rewrite andb_true_r. destruct (same (rd8 m 0x300d0) 0x11); queue_run; memory_simpl; eexists _; split; done.
Qed.
Lemma wait_arm_resumes regs cr3 zf out m :
  rd8 m 0x300c0 = 1 → rd8 m 0x300d0 = 0 →
  ∃ zf', exec 40 TASK_WAKE_ARM_HANDLER WAIT_WAKE_ARM_HANDLER_BYTES (at_handler (TASK_WAKE_ARM_HANDLER + 0x43) regs cr3 zf out m) =
    Some (Left, mkCpu TASK_QUEUE_HANDLER regs cr3 zf' out m).
Proof.
  intros H H'. eexists. unfold at_handler. change (TASK_WAKE_ARM_HANDLER + 0x43) with 0x16043. handler_run. reflexivity.
Qed.

(** ** Stages of a guest

    A run of one entry of the kernel, from any registers and from any memory that
    agrees with [m] on the scheduler's bytes: it stops as [ends] says, prints [text] and leaves
    a memory [P] holds of, where the next stage may start. *)
Definition stage (run : Cpu → option (Stop * Cpu)) (start cr3 : Z) (ends : Stop → Cpu → Prop) (text : list (Z * Z))
    (m : GuestMemory) (P : GuestMemory → Prop) : Prop :=
  ∀ m1 regs zf out, agree m m1 →
    ∃ s c, run (mkCpu start regs cr3 zf out m1) = Some (s, c) ∧ ends s c ∧ cpu_cr3 c = cr3 ∧
      cpu_out c = out ++ text ∧ P (cpu_ram c).
(** A handler that hands over to the selection handler. *)
Definition then_queue (handler : Z) (code : list Z) (c : Cpu) : option (Stop * Cpu) :=
  match exec 40 handler code c with
  | Some (Left, c) => exec 40 TASK_QUEUE_HANDLER QUEUE_HANDLER_BYTES c
  | r => r
  end.
Definition to_scheduler (s : Stop) (c : Cpu) : Prop := s = Left ∧ cpu_rip c = PRIVILEGE_RETURN_HANDLER.
Definition waits_at (rip : Z) (s : Stop) (c : Cpu) : Prop := s = Halted ∧ cpu_rip c = rip.
Definition returns (s : Stop) (c : Cpu) : Prop := ∃ f, s = Returned f.
Definition prints (text : list Z) : list (Z * Z) := map (pair DEBUG_OUT) text.
Definition EOI : list (Z * Z) := [(0x20, 0x20)].
Definition CR3_A : Z := ADDRESS_SPACE_A_CR3.
Definition CR3_B : Z := ADDRESS_SPACE_B_PML4_ADDR.
(** The host's check of a stage: the snapshot reads back and the model accepts it. *)
Definition accepted {A} (read : GuestMemory → res Error A) (require : A → res Error unit) (m : GuestMemory) : Prop :=
  (x ← read m; require x) = Ok tt.
Lemma window_rd8 lo hi m m' a : window lo hi m m' → a < lo ∨ hi ≤ a → rd8 m' a = rd8 m a.
Proof. intros (_&_&H). apply H. Qed.
(** The selection, entered from a handler that left the queue as [model] says. *)
Lemma queue_selects m regs zf out model a b skips sel model' :
  tables_fit m → queue_holds m model a b skips → 0 ≤ skips < 256 → select_next a b model = (Ok sel, model') →
  ∃ c, exec 40 TASK_QUEUE_HANDLER QUEUE_HANDLER_BYTES
         (mkCpu TASK_QUEUE_HANDLER regs (space_of (other_task (selection_task sel))) zf out m) = Some (Left, c) ∧
    to_scheduler Left c ∧ cpu_cr3 c = space_of (other_task (selection_task sel)) ∧
    cpu_out c = out ++ prints [digit_of (selection_task sel)] ∧
    queue_holds (cpu_ram c) model' a b ((skips + selection_skipped sel) mod 2 ^ 8) ∧
    read_queue_snapshot (cpu_ram c) =
      Ok (mkQueueSnapshot TaskA TaskB (queue_head model') (selection_task sel) ((skips + selection_skipped sel) mod 2 ^ 8) a b) ∧
    window 0x300ca 0x300cd m (cpu_ram c).
Proof.
  intros Hf Hq Hs Hsel.
  destruct (queue_handler_runs m regs (space_of (other_task (selection_task sel))) zf out _ _ _ _ Hq Hs) as (s&c&He&Ho).
  rewrite Hsel in Ho. destruct Ho as (Hq'&Hb&Hw&Hc&Ho). rewrite bool_decide_true in Ho by done. destruct Ho as (->&Hr&Ho).
  exists c. split_and!; try done. apply queue_snapshot; [by eapply window_fits|done|done].
Qed.
(** The stage of a handler that sets task A's state and goes on to the selection. *)
Lemma queue_stage handler code start text P m model a b skips sel model' :
  (∀ m1 regs zf out, agree m m1 → ∃ regs' zf' m2,
     exec 40 handler code (mkCpu start regs (space_of (other_task (selection_task sel))) zf out m1) =
       Some (Left, mkCpu TASK_QUEUE_HANDLER regs' (space_of (other_task (selection_task sel))) zf' (out ++ text) m2) ∧
     tables_fit m2 ∧ queue_holds m2 model a b skips ∧
     ∀ m3, window 0x300ca 0x300cd m2 m3 → queue_holds m3 model' a b ((skips + selection_skipped sel) mod 2 ^ 8) →
       read_queue_snapshot m3 =
         Ok (mkQueueSnapshot TaskA TaskB (queue_head model') (selection_task sel)
               ((skips + selection_skipped sel) mod 2 ^ 8) a b) → P m3) →
  0 ≤ skips < 256 → select_next a b model = (Ok sel, model') →
  stage (then_queue handler code) start (space_of (other_task (selection_task sel))) to_scheduler
    (text ++ prints [digit_of (selection_task sel)]) m P.
Proof.
  intros Hrun Hs Hsel m1 regs zf out Ha. destruct (Hrun m1 regs zf out Ha) as (regs'&zf'&m2&He&Hf&Hq&HP).
  destruct (queue_selects m2 regs' zf' (out ++ text) _ _ _ _ _ _ Hf Hq Hs Hsel) as (c&Hc&Hto&Hcr&Ho&Hq'&Hr&Hw).
  exists Left, c. unfold then_queue. rewrite He. rewrite app_assoc. eauto 10.
Qed.

(** C8: the runnable queue.  The machine code of the selection handler implements
    [QueueModel::select_next]: for every content of the queue's bytes that encodes
    a model and every pair of task states, running [QUEUE_HANDLER_BYTES] ends; where the model
    selects a task the handler leaves in memory the head the model has, the task the
    model selected and the skip count advanced by what the model skipped (modulo 256), writes nothing
    else, prints the task's digit and jumps to the scheduler if it was entered from the other task's
    address space, and halts after an F otherwise; where the model finds no runnable
    task the handler halts after an F and memory is unchanged.
    And the guest does what the host requires of it: from the memory
    [initialize_queue_metadata] leaves, the stages of the guest print K1, P, W and 0, and
    the snapshots the host takes after the first and the second selection pass
    [require_first_queue_selection] and [require_second_queue_selection], whatever else happens to the rest
    of memory between the stages. *)
Theorem runnable_queue_spec :
  (∀ m regs cr3 zf out model a b skips,
     queue_holds m model a b skips → 0 ≤ skips < 256 →
     ∃ s c, exec 40 TASK_QUEUE_HANDLER QUEUE_HANDLER_BYTES (mkCpu TASK_QUEUE_HANDLER regs cr3 zf out m) = Some (s, c) ∧
       queue_outcome m cr3 out model a b skips (select_next a b model) s c) ∧
  (∀ m, tables_fit m →
     ∃ m0, initialize_queue_metadata m = (Ok tt, m0) ∧
     stage (then_queue TASK_BLOCK_HANDLER QUEUE_BLOCK_HANDLER_BYTES) TASK_BLOCK_HANDLER CR3_A to_scheduler
       (prints [0x4b; 0x31]) m0 (λ m1, accepted read_queue_snapshot require_first_queue_selection m1 ∧
     stage (exec 40 TASK_WAKE_ARM_HANDLER QUEUE_WAKE_ARM_HANDLER_BYTES) TASK_WAKE_ARM_HANDLER CR3_B
       (waits_at (TASK_WAKE_ARM_HANDLER + 6)) (prints [0x50]) m1 (λ m2,
     stage (exec 40 TASK_WAKE_TIMER_HANDLER QUEUE_WAKE_TIMER_HANDLER_BYTES) TASK_WAKE_TIMER_HANDLER CR3_B returns
       (prints [0x57] ++ EOI) m2 (λ m3,
     stage (then_queue TASK_WAKE_ARM_HANDLER QUEUE_WAKE_ARM_HANDLER_BYTES) (TASK_WAKE_ARM_HANDLER + 6) CR3_B to_scheduler
       (prints [0x30]) m3 (accepted read_queue_snapshot require_second_queue_selection))))).
Proof.
  split; [intros; by apply queue_handler_runs|]. intros m Hf.
  destruct (queue_initialized m Hf) as (Hi&Hw&Hq). exists (initial_queue m). split; [done|].
  apply (queue_stage _ _ _ [(DEBUG_OUT, 0x4b)] _ _ (mkQueue [TaskA; TaskB] 0) Blocked Runnable 0
    (mkSelection TaskB 1) (mkQueue [TaskA; TaskB] 0)); [|lia|reflexivity].
  intros m1 regs zf out Ha. destruct (queue_block_runs regs CR3_A zf out m1) as [regs' He].
  eexists _, _, _. split; [exact He|]. split; [apply wr8_fits; [lia|apply Ha]|].
  split; [by apply (queue_holds_state _ _ Runnable _ _ Blocked), queue_holds_agree with (initial_queue m)|].
  intros m3 _ Hq3 Hr3. split; [unfold accepted; by rewrite Hr3|].
  intros m4 regs4 zf4 out4 Ha4. destruct (queue_arm_waits regs4 CR3_B zf4 out4 m4) as [regs5 He5].
  eexists _, _. split; [exact He5|]. do 3 (split; [done|]). simpl.
  intros m6 regs6 zf6 out6 Ha6. destruct (queue_timer_runs regs6 CR3_B zf6 out6 m6) as (f&regs7&He7).
  eexists _, _. split; [exact He7|]. split; [by eexists|]. split; [done|]. split; [by rewrite <- app_assoc|]. simpl.
  apply (queue_stage _ _ _ [] _ _ (mkQueue [TaskA; TaskB] 0) Runnable Runnable 1
    (mkSelection TaskA 0) (mkQueue [TaskA; TaskB] 1)); [|lia|reflexivity].
  intros m8 regs8 zf8 out8 Ha8. rewrite app_nil_r.
  assert (queue_holds m8 (mkQueue [TaskA; TaskB] 0) Runnable Runnable 1) as Hq8.
  { eapply queue_holds_agree, (queue_holds_state _ _ Blocked _ _ Runnable); [done|].
    by eapply queue_holds_agree, queue_holds_agree. }
  destruct (queue_arm_resumes regs8 CR3_B zf8 out8 m8 (mem_a_state _ _ _ _ _ Hq8)) as [zf9 He9].
  eexists _, _, _. split; [exact He9|]. split; [apply Ha8|]. split; [done|].
  intros m10 _ _ Hr. unfold accepted. by rewrite Hr.
Qed.
Lemma boot_fits : tables_fit boot_memory.
Proof. split; [apply boot_memory_wf|by split]. Qed.
Lemma runnable_queue_spec_witness :
  (∃ s c, exec 40 TASK_QUEUE_HANDLER QUEUE_HANDLER_BYTES
            (mkCpu TASK_QUEUE_HANDLER (λ _, 0) CR3_B (mkFlags false 0) [] (initial_queue boot_memory)) = Some (s, c) ∧
     rd8 (cpu_ram c) TASK_QUEUE_SELECTED_ADDR = 0 ∧ s = Left) ∧
  ∃ m0, initialize_queue_metadata boot_memory = (Ok tt, m0).
Proof.
  destruct runnable_queue_spec as [H G]. split.
  - destruct (H (initial_queue boot_memory) (λ _, 0) CR3_B (mkFlags false 0) [] (mkQueue [TaskA; TaskB] 0) Runnable Runnable 0)
      as (s&c&E&Ho); [exact (proj2 (proj2 (queue_initialized _ boot_fits)))|by split|].
    exists s, c. split; [exact E|]. destruct Ho as (_&Hs&_&_&Hd). split; [exact Hs|].
    rewrite bool_decide_true in Hd by reflexivity. exact (proj1 Hd).
  - destruct (G boot_memory boot_fits) as (m0&E&_). exists m0. exact E.
Defined.
(** ** Stages of the wait channel *)
Definition to_queue (s : Stop) (c : Cpu) : Prop := s = Left ∧ cpu_rip c = TASK_QUEUE_HANDLER.
(** The model's state is in memory, and the queue's own bytes are those of [m]. *)
Definition wait_post (m : GuestMemory) (w : WaitChannelModel) (m' : GuestMemory) : Prop :=
  tables_fit m' ∧ wait_holds m' w ∧ ∀ a, 0x300c1 ≤ a < 0x300cd → rd8 m' a = rd8 m a.
Lemma wait_post_queue m w m' model a b skips :
  wait_post m w m' → queue_holds m model a b skips → queue_holds m' model (wait_state w) b skips.
Proof. intros (_&[]&H) []. split; rewrite ?H by lia; assumption. Qed.
Ltac wait_post_tac Ha :=
  split; [repeat apply wr8_fits; first [apply Ha|apply inc8_range|lia]|];
  split; [split; simpl; rewrite ?rd8_wr8; memory_simpl; first [reflexivity|congruence]|];
  intros x Hx; rewrite ?rd8_wr8, ?(proj2 (Z.eqb_neq x _)) by lia; apply Ha; lia.
Lemma wait_block_stage m cr3 w w' :
  wait_holds m w → wait_block TASK_WAIT_CHANNEL_A w = (Ok tt, w') →
  stage (exec 40 TASK_BLOCK_HANDLER WAIT_BLOCK_HANDLER_BYTES) TASK_BLOCK_HANDLER cr3 to_queue (prints [0x4b]) m
    (wait_post m w').
Proof.
  intros Hw Hb m1 regs zf out Ha. destruct (wait_block_runs regs cr3 zf out m1) as [regs' He].
  pose proof (wait_block_cases TASK_WAIT_CHANNEL_A w) as H. rewrite Hb in H. destruct H as (_&_&_&H). simpl in H. subst w'.
  eexists _, _. split; [exact He|]. do 3 (split; [done|]). destruct (wait_holds_agree _ _ _ Ha Hw).
  cbn [cpu_ram]. wait_post_tac Ha.
Qed.
Lemma wait_arm_stage m cr3 w w' :
  wait_holds m w → wait_owner w = TASK_WAIT_CHANNEL_A → u8 (wait_mismatch_count w) →
  wait_wake TASK_WAIT_WRONG_CHANNEL w = (Ok false, w') →
  stage (exec 40 TASK_WAKE_ARM_HANDLER WAIT_WAKE_ARM_HANDLER_BYTES) TASK_WAKE_ARM_HANDLER cr3
    (waits_at (TASK_WAKE_ARM_HANDLER + 0x43)) (prints [0x58; 0x50]) m (wait_post m w').
Proof.
  intros Hw Ho Hu Hb m1 regs zf out Ha. destruct (wait_arm_runs regs cr3 zf out m1) as (c&He&Hc&H).
  pose proof (wait_wake_cases TASK_WAIT_WRONG_CHANNEL w) as Hk. rewrite Hb in Hk.
  destruct Hk as (Hst&_&_&_&n&[_ ->]%u8_succ&Hk); [|done]. simpl in Hk. subst w'.
  destruct (wait_holds_agree _ _ _ Ha Hw) as [Hs Hown Hm Hwk Hl]. rewrite Hst in Hs. simpl in Hs. rewrite Hown, Hs, Ho in H. destruct H as (Ht&Hr&H).
  eexists _, _. split; [exact He|]. split; [done|]. split; [done|]. rewrite <- app_assoc in Ht. split; [done|].
  rewrite H. wait_post_tac Ha.
Qed.
Lemma wait_arm_refuses m cr3 w :
  wait_holds m w → wait_owner w ≠ TASK_WAIT_CHANNEL_A ∨ wait_state w ≠ Blocked →
  stage (exec 40 TASK_WAKE_ARM_HANDLER WAIT_WAKE_ARM_HANDLER_BYTES) TASK_WAKE_ARM_HANDLER cr3
    (λ s _, s = Halted) (prints [0x46]) m (λ _, True).
Proof.
  intros Hw Hor m1 regs zf out Ha. destruct (wait_arm_runs regs cr3 zf out m1) as (c&He&Hc&H).
  destruct (wait_holds_agree _ _ _ Ha Hw) as [Hs Hown _ _ _]. rewrite Hown, Hs in H.
  assert (same (wait_owner w) 17 && same (state_u8 (wait_state w)) 0 = false) as E.
  { destruct Hor as [Hor|Hor]; [destruct (same_spec (wait_owner w) 17); done|].
    destruct (wait_state w); [done|]. apply andb_false_r. }
  rewrite E in H. eexists _, _. split; [exact He|]. done.
Qed.
Lemma wait_timer_stage m cr3 w w' :
  wait_holds m w → u8 (wait_wake_count w) → wait_wake TASK_WAIT_CHANNEL_A w = (Ok true, w') →
  stage (exec 40 TASK_WAKE_TIMER_HANDLER WAIT_WAKE_TIMER_HANDLER_BYTES) TASK_WAKE_TIMER_HANDLER cr3 returns
    (prints [0x57] ++ EOI) m (wait_post m w').
Proof.
  intros Hw Hu Hb m1 regs zf out Ha. destruct (wait_timer_runs regs cr3 zf out m1) as (f&c&He&Hc&H).
  pose proof (wait_wake_cases TASK_WAIT_CHANNEL_A w) as Hk. rewrite Hb in Hk.
  destruct Hk as (Hst&_&Ho&n&[_ ->]%u8_succ&Hk); [|done]. simpl in Hk. subst w'.
  destruct (wait_holds_agree _ _ _ Ha Hw) as [Hs Hown Hm Hwk Hl]. rewrite Hown, Ho in H. destruct H as [Ht H].
  eexists _, _. split; [exact He|]. split; [by eexists|]. split; [done|]. rewrite <- app_assoc in Ht. split; [done|].
  rewrite H. wait_post_tac Ha.
Qed.
Lemma wait_timer_refuses m cr3 w :
  wait_holds m w → wait_owner w ≠ TASK_WAIT_CHANNEL_A →
  stage (exec 40 TASK_WAKE_TIMER_HANDLER WAIT_WAKE_TIMER_HANDLER_BYTES) TASK_WAKE_TIMER_HANDLER cr3 returns
    (prints [0x46] ++ EOI) m
    (wait_post m (mkWait (wait_state w) (wait_owner w) (wait_mismatch_count w) (wait_wake_count w) TASK_WAIT_CHANNEL_A)).
Proof.
  intros Hw Ho m1 regs zf out Ha. destruct (wait_timer_runs regs cr3 zf out m1) as (f&c&He&Hc&H).
  destruct (wait_holds_agree _ _ _ Ha Hw) as [Hs Hown Hm Hwk Hl]. rewrite Hown in H.
  destruct (same_spec (wait_owner w) 17); [done|]. destruct H as [Ht H].
  eexists _, _. split; [exact He|]. split; [by eexists|]. split; [done|]. rewrite <- app_assoc in Ht. split; [done|].
  rewrite H. wait_post_tac Ha.
Qed.
Lemma wait_resume_stage m cr3 w :
  wait_holds m w → wait_state w = Runnable → wait_owner w = TASK_WAIT_CHANNEL_NONE →
  stage (exec 40 TASK_WAKE_ARM_HANDLER WAIT_WAKE_ARM_HANDLER_BYTES) (TASK_WAKE_ARM_HANDLER + 0x43) cr3 to_queue [] m
    (wait_post m w).
Proof.
  intros Hw Hs Ho m1 regs zf out Ha. destruct (wait_holds_agree _ _ _ Ha Hw) as [Hs1 Ho1 Hm Hwk Hl].
  rewrite Hs in Hs1. destruct (wait_arm_resumes regs cr3 zf out m1 Hs1) as [zf' He]; [by rewrite Ho1|].
  eexists _, _. split; [exact He|]. do 2 (split; [done|]). split; [by rewrite app_nil_r|].
  split; [apply Ha|]. split; [by eapply wait_holds_agree|]. intros. apply Ha. lia.
Qed.
(** The selection, after a handler of the wait channel. *)
Definition select_post (m : GuestMemory) (model : QueueModel) (a b : TaskRunState) (skips : Z) (selected : RunnableTaskId)
    (m' : GuestMemory) : Prop :=
  queue_holds m' model a b skips ∧
  read_queue_snapshot m' = Ok (mkQueueSnapshot TaskA TaskB (queue_head model) selected skips a b) ∧
  ∀ w, wait_holds m w → wait_holds m' w.
Lemma queue_select_stage m model a b skips sel model' :
  queue_holds m model a b skips → 0 ≤ skips < 256 → select_next a b model = (Ok sel, model') →
  stage (exec 40 TASK_QUEUE_HANDLER QUEUE_HANDLER_BYTES) TASK_QUEUE_HANDLER (space_of (other_task (selection_task sel)))
    to_scheduler (prints [digit_of (selection_task sel)]) m
    (select_post m model' a b ((skips + selection_skipped sel) mod 2 ^ 8) (selection_task sel)).
Proof.
  intros Hq Hs Hsel m1 regs zf out Ha.
  destruct (queue_selects m1 regs zf out _ _ _ _ _ _ (proj1 Ha) (queue_holds_agree _ _ _ _ _ _ Ha Hq) Hs Hsel)
    as (c&Hc&Hto&Hcr&Ho&Hq'&Hr&Hw).
  exists Left, c. split_and!; try done. split_and!; [done|done|]. intros w Hh.
  destruct (wait_holds_agree _ _ _ Ha Hh). split; rewrite (window_rd8 _ _ _ _ _ Hw) by lia; assumption.
Qed.
Lemma wait_initialized m :
  tables_fit m → ∃ m0, (initialize_queue_metadata;; initialize_wait_channel_metadata) m = (Ok tt, m0) ∧
    queue_holds m0 (mkQueue [TaskA; TaskB] 0) Runnable Runnable 0 ∧ wait_holds m0 wait_new.
Proof.
  intros Hf. destruct (queue_initialized m Hf) as (Hi&Hw&Hq). pose proof (window_fits _ _ _ _ Hw Hf) as Hf'.
  exists (mem_set (initial_queue m) 0x300d0 [0; 0; 0; 0]).
  assert (∀ x, x < 0x300d0 → rd8 (mem_set (initial_queue m) 0x300d0 [0; 0; 0; 0]) x = rd8 (initial_queue m) x) as Hout
    by (intros; apply byte_at_set_out; lia).
  assert (∀ x, 0x300d0 ≤ x < 0x300d4 → rd8 (mem_set (initial_queue m) 0x300d0 [0; 0; 0; 0]) x = 0) as Hin.
  { intros x Hx. unfold rd8. rewrite byte_at_set_in by (change (len [0; 0; 0; 0]) with 4; lia).
    assert (x = 0x300d0 ∨ x = 0x300d1 ∨ x = 0x300d2 ∨ x = 0x300d3) as [-> | [-> | [-> | ->]]] by lia; done. }
  split; [|split].
  - erewrite prog_bind_step by exact Hi. unfold initialize_wait_channel_metadata.
    apply write_fits; [done|by vm_compute|by vm_compute].
  - destruct Hq. split; rewrite ?Hout by lia; assumption.
  - split; [rewrite Hout by lia; apply Hq|rewrite Hin by lia; done..].
Qed.
Lemma wait_keeps_owner channel w :
  wait_owner w ≠ channel → wait_ok w →
  wait_state (snd (wait_wake channel w)) = wait_state w ∧ wait_owner (snd (wait_wake channel w)) = wait_owner w.
Proof.
  intros Hch _. pose proof (wait_wake_cases channel w) as H. simpl in H.
  destruct (fst (wait_wake channel w)) as [[]| |]; [| | |done].
  - by destruct H as (_&_&?&_).
  - destruct H as (->&_&_&_&n&_&->). done.
  - destruct H as [->|[(->&_&_&_&->)|(_&?&_)]]; done.
Qed.
Lemma stage_mono run start cr3 ends text m (P Q : GuestMemory → Prop) :
  stage run start cr3 ends text m P → (∀ m', P m' → Q m') → stage run start cr3 ends text m Q.
Proof. intros H HPQ m1 regs zf out Ha. destruct (H m1 regs zf out Ha) as (s&c&?&?&?&?&?). eauto 10. Qed.
Lemma wait_post_accepted m w m' require :
  wait_post m w m' → require w = Ok tt → accepted read_wait_channel_snapshot require m'.
Proof. intros (Hf&Hw&_) H. unfold accepted. by rewrite (wait_snapshot m' w). Qed.
Lemma select_post_accepted m model a b skips t m' require :
  select_post m model a b skips t m' →
  require (mkQueueSnapshot TaskA TaskB (queue_head model) t skips a b) = Ok tt → accepted read_queue_snapshot require m'.
Proof. intros (_&Hr&_) H. unfold accepted. by rewrite Hr. Qed.
(** The stages of the guest one after the other, and the host's check of each. *)
Definition wait_guest_woken (m : GuestMemory) : Prop :=
  stage (exec 40 TASK_WAKE_ARM_HANDLER WAIT_WAKE_ARM_HANDLER_BYTES) TASK_WAKE_ARM_HANDLER CR3_B
    (waits_at (TASK_WAKE_ARM_HANDLER + 0x43)) (prints [0x58; 0x50]) m (λ m3,
    accepted read_wait_channel_snapshot require_wait_mismatch m3 ∧
  stage (exec 40 TASK_WAKE_TIMER_HANDLER WAIT_WAKE_TIMER_HANDLER_BYTES) TASK_WAKE_TIMER_HANDLER CR3_B returns
    (prints [0x57] ++ EOI) m3 (λ m4, accepted read_wait_channel_snapshot require_wait_woken m4 ∧
  stage (exec 40 TASK_WAKE_ARM_HANDLER WAIT_WAKE_ARM_HANDLER_BYTES) (TASK_WAKE_ARM_HANDLER + 0x43) CR3_B to_queue
    [] m4 (λ m5,
  stage (exec 40 TASK_QUEUE_HANDLER QUEUE_HANDLER_BYTES) TASK_QUEUE_HANDLER CR3_B to_scheduler
    (prints [0x30]) m5 (accepted read_queue_snapshot require_second_queue_selection)))).
Definition wait_guest (m0 : GuestMemory) : Prop :=
  stage (exec 40 TASK_BLOCK_HANDLER WAIT_BLOCK_HANDLER_BYTES) TASK_BLOCK_HANDLER CR3_A to_queue
    (prints [0x4b]) m0 (λ m1, accepted read_wait_channel_snapshot require_wait_blocked m1 ∧
  stage (exec 40 TASK_QUEUE_HANDLER QUEUE_HANDLER_BYTES) TASK_QUEUE_HANDLER CR3_A to_scheduler
    (prints [0x31]) m1 (λ m2, accepted read_queue_snapshot require_first_queue_selection m2 ∧
  wait_guest_woken m2)).
Lemma wait_guest_second_half m w :
  wait_holds m w → w = mkWait Blocked 0x11 0 0 0 → queue_holds m (mkQueue [TaskA; TaskB] 0) Blocked Runnable 1 →
  wait_guest_woken m.
Proof.
  intros Hw -> Hq. eapply stage_mono; [eapply wait_arm_stage; [done|done|by split|reflexivity]|].
  intros m3 H3. split; [by eapply wait_post_accepted|].
  eapply stage_mono; [eapply wait_timer_stage; [apply H3|by split|reflexivity]|].
  intros m4 H4. split; [by eapply wait_post_accepted|].
  eapply stage_mono; [by eapply wait_resume_stage; [apply H4| |]|].
  intros m5 H5. pose proof (wait_post_queue _ _ _ _ _ _ _ H5 (wait_post_queue _ _ _ _ _ _ _ H4 (wait_post_queue _ _ _ _ _ _ _ H3 Hq))) as Hq5.
  eapply stage_mono; [eapply (queue_select_stage _ _ _ _ _ (mkSelection TaskA 0)); [exact Hq5|lia|reflexivity]|].
  intros m6 H6. by eapply select_post_accepted.
Qed.
Lemma wait_guest_runs m0 :
  queue_holds m0 (mkQueue [TaskA; TaskB] 0) Runnable Runnable 0 → wait_holds m0 wait_new →
  wait_guest m0.
Proof.
  intros Hq Hw. eapply stage_mono; [eapply wait_block_stage; [done|reflexivity]|].
  intros m1 H1. split; [by eapply wait_post_accepted|]. pose proof (wait_post_queue _ _ _ _ _ _ _ H1 Hq) as Hq1.
  eapply stage_mono; [eapply (queue_select_stage _ _ _ _ _ (mkSelection TaskB 1)); [exact Hq1|lia|reflexivity]|].
  intros m2 H2. split; [by eapply select_post_accepted|].
  eapply wait_guest_second_half; [apply H2, H1|done|apply H2].
Qed.

(** C13: wait channels.  [WaitChannelModel] keeps its invariant along every sequence of
    [block] and [wake] calls, the failing ones included: the task is blocked exactly when a channel
    owns it, and the counts stay bytes; and a wake by a channel that does not own the
    task neither releases it nor changes its owner.
    The three handlers of the guest refine the model at every state they find in memory: the block handler does
    [block], the arm handler does the failing [wake] of the wrong channel and the timer handler the
    successful [wake] of the owner, leaving in memory exactly the fields of the
    model, the queue's bytes untouched; where the channel does not own the task they print F and
    release nothing.
    The guest then passes every check of the host: from the memory the two
    initialisers leave, the stages print K, 1, XP, W and 0, and the snapshots pass
    [require_wait_blocked], [require_first_queue_selection], [require_wait_mismatch], [require_wait_woken]
    and [require_second_queue_selection]. *)
Theorem wait_channel_spec :
  (∀ w, wait_reachable w →
     (wait_state w = Blocked ↔ wait_owner w ≠ TASK_WAIT_CHANNEL_NONE) ∧ u8 (wait_mismatch_count w) ∧ u8 (wait_wake_count w) ∧
     (∀ channel, wait_owner w ≠ channel →
        wait_state (snd (wait_wake channel w)) = wait_state w ∧ wait_owner (snd (wait_wake channel w)) = wait_owner w)) ∧
  (∀ m cr3 w w', wait_holds m w → wait_reachable w →
     (wait_block TASK_WAIT_CHANNEL_A w = (Ok tt, w') →
      stage (exec 40 TASK_BLOCK_HANDLER WAIT_BLOCK_HANDLER_BYTES) TASK_BLOCK_HANDLER cr3 to_queue (prints [0x4b]) m
        (wait_post m w')) ∧
     (wait_owner w = TASK_WAIT_CHANNEL_A → wait_wake TASK_WAIT_WRONG_CHANNEL w = (Ok false, w') →
      stage (exec 40 TASK_WAKE_ARM_HANDLER WAIT_WAKE_ARM_HANDLER_BYTES) TASK_WAKE_ARM_HANDLER cr3
        (waits_at (TASK_WAKE_ARM_HANDLER + 0x43)) (prints [0x58; 0x50]) m (wait_post m w')) ∧
     (wait_wake TASK_WAIT_CHANNEL_A w = (Ok true, w') →
      stage (exec 40 TASK_WAKE_TIMER_HANDLER WAIT_WAKE_TIMER_HANDLER_BYTES) TASK_WAKE_TIMER_HANDLER cr3 returns
        (prints [0x57] ++ EOI) m (wait_post m w')) ∧
     (wait_owner w ≠ TASK_WAIT_CHANNEL_A →
      stage (exec 40 TASK_WAKE_ARM_HANDLER WAIT_WAKE_ARM_HANDLER_BYTES) TASK_WAKE_ARM_HANDLER cr3
        (λ s _, s = Halted) (prints [0x46]) m (λ _, True) ∧
      stage (exec 40 TASK_WAKE_TIMER_HANDLER WAIT_WAKE_TIMER_HANDLER_BYTES) TASK_WAKE_TIMER_HANDLER cr3 returns
        (prints [0x46] ++ EOI) m
        (wait_post m (mkWait (wait_state w) (wait_owner w) (wait_mismatch_count w) (wait_wake_count w) TASK_WAIT_CHANNEL_A)))) ∧
  (∀ m, tables_fit m →
     ∃ m0, (initialize_queue_metadata;; initialize_wait_channel_metadata) m = (Ok tt, m0) ∧
  wait_guest m0).
Proof.
  split; [|split].
  - intros w Hr. destruct (wait_reachable_ok w Hr) as (?&?&?). split_and!; [by auto..|]. intros ch Hch.
    apply wait_keeps_owner; [done|by apply wait_reachable_ok].
  - intros m cr3 w w' Hw Hr. destruct (wait_reachable_ok w Hr) as (?&?&?).
    split_and!; intros; [by apply wait_block_stage with w|by apply wait_arm_stage with w|by apply wait_timer_stage with w|].
    split; [apply wait_arm_refuses with w; auto|by apply wait_timer_refuses].
  - intros m Hf. destruct (wait_initialized m Hf) as (m0&Hi&Hq&Hw). exists m0. split; [done|]. by apply wait_guest_runs.
Qed.
Lemma wait_channel_spec_witness :
  (wait_state (snd (wait_wake 0x22 (snd (wait_block 0x11 wait_new)))) = Blocked) ∧
  ∃ m0, (initialize_queue_metadata;; initialize_wait_channel_metadata) boot_memory = (Ok tt, m0) ∧ wait_guest m0.
Proof.
  destruct wait_channel_spec as (H&_&G). split.
  - destruct (H (snd (wait_block 0x11 wait_new))) as (_&_&_&K); [apply wait_blocks, wait_start|].
    exact (proj1 (K 0x22 ltac:(discriminate))).
  - exact (G boot_memory boot_fits).
Defined.
