(* ===== verification/TaskSwitch.v ===== *)
(** Switching between the two tasks of the guest kernels: the scheduler and terminal
    handlers of [src/src/task.rs], the contexts they keep in guest memory and the checks of
    the host, which the runners of [src/src/task/] repeat. *)

From S2P Require Import Prelude Errors Memory LongMode Boot GuestTables Privilege X86 Tasks.
Import Rings Spaces.

(** * Definitions *)
Definition TASK_B_INITIAL_RSP : Z := 0x1fcfd0.
Definition TASK_B_INITIAL_R12 : Z := 0x2222.
Definition TASK_A_STACK_MARKER_PHYS : GuestPhysAddr := 0x1fcfe8.
Definition TASK_B_STACK_MARKER_PHYS : GuestPhysAddr := 0x22fc8.
Definition TASK_A_SAVED_RIP : Z := 0x11011.
Definition TASK_B_SAVED_RIP : Z := 0x11013.
Definition TASK_USER_RFLAGS : Z := 0x202.
Definition X86_PAGE_ADDRESS_MASK : Z := 0x000ffffffffff000.
#[global] Instance context_eq_dec : EqDecision TaskContextSnapshot.
Proof. solve_decision. Defined.
#[global] Instance terminal_eq_dec : EqDecision TaskTerminalObservation.
Proof. solve_decision. Defined.
Definition read_pte (m : GuestMemory) (table : GuestPhysAddr) (virtual_address : Z) : res Error Z :=
  let index := Z.land virtual_address (unot 64 (LONG_MODE_PAGE_SIZE - 1)) / LONG_MODE_PAGE_SIZE in
  offset ← umul 64 index 8;
  address ← uadd 64 table offset;
  bs ← read m address 8;
  Ok (from_le_bytes bs).
Definition expected_a : TaskContextSnapshot :=
  mkContext ADDRESS_SPACE_A_CR3 TASK_A_SAVED_RIP TASK_A_INITIAL_RSP TASK_USER_RFLAGS TASK_A_R12 1.
Definition expected_b : TaskContextSnapshot :=
  mkContext ADDRESS_SPACE_B_PML4_ADDR TASK_B_SAVED_RIP TASK_B_INITIAL_RSP TASK_USER_RFLAGS TASK_B_SAVED_R12 1.
Definition expected_terminal : TaskTerminalObservation :=
  mkTerminal ADDRESS_SPACE_A_CR3 TASK_TERMINAL_USER_RIP TASK_A_INITIAL_RSP TASK_A_R12.
(** The body of [validate_queue_context_state]; the runners differ in the names of the stages. *)
Definition validate_contexts (ownership registers stacks ptes : string) (task_a task_b : TaskContextSnapshot)
    (terminal : TaskTerminalObservation) (final_cr3 final_r12 task_a_stack_marker task_b_stack_marker first_context_pte
     second_context_pte : Z) : res Error unit :=
  let pte_ok pte :=
    (Z.land pte X86_PAGE_ADDRESS_MASK =? TASK_CONTEXT_PAGE_ADDR) &&
    (Z.land pte (Z.lor X86_PAGE_PRESENT X86_PAGE_WRITABLE) =? Z.lor X86_PAGE_PRESENT X86_PAGE_WRITABLE) &&
    (Z.land pte X86_PAGE_USER =? 0) in
  err_if (bool_decide (task_a ≠ expected_a) || bool_decide (task_b ≠ expected_b) || bool_decide (terminal ≠ expected_terminal))
    (verification_error ownership "unexpected contexts");;
  err_if (negb (final_cr3 =? ADDRESS_SPACE_A_CR3) || negb (final_r12 =? TASK_A_R12))
    (verification_error registers "unexpected registers");;
  err_if (negb (task_a_stack_marker =? 0x61) || negb (task_b_stack_marker =? 0x62))
    (verification_error stacks "unexpected stack markers");;
  err_if (negb (pte_ok first_context_pte)) (verification_error ptes "A task-context page");;
  err_if (negb (pte_ok second_context_pte)) (verification_error ptes "B task-context page").
Definition validate_queue_context_state :=
  validate_contexts "bounded runnable queue context ownership" "bounded runnable queue final registers"
    "bounded runnable queue stack ownership" "bounded runnable queue context PTE".
Definition validate_wakeup_task_state :=
  validate_contexts "task block/wakeup context ownership" "task block/wakeup final registers"
    "task block/wakeup stack ownership" "task block/wakeup context PTE".
Definition validate_preemption_state :=
  validate_contexts "timer task preemption context ownership" "timer task preemption final registers"
    "timer task preemption stack ownership" "timer task preemption context PTE".
(** The handlers that reach the scheduler without the queue, of [src/src/task/wakeup.rs] and
    [src/src/task/preemption.rs]. *)
Definition BLOCK_HANDLER_BYTES : list Z :=
  [0xc6; 0x04; 0x25; 0xc0; 0x00; 0x03; 0x00; 0x00; 0xb0; 0x4b; 0xe6; 0xe9; 0xe9; 0xef; 0x0f; 0x00; 0x00].
Definition WAKE_ARM_HANDLER_BYTES : list Z :=
  [0xb0; 0x50; 0xe6; 0xe9; 0xfb; 0xf4; 0x80; 0x3c; 0x25; 0xc0; 0x00; 0x03; 0x00; 0x01; 0x75; 0x05;
   0xe9; 0xeb; 0xef; 0xff; 0xff; 0xb0; 0x46; 0xe6; 0xe9; 0xf4].
Definition WAKE_TIMER_HANDLER_BYTES : list Z :=
  [0xc6; 0x04; 0x25; 0xc0; 0x00; 0x03; 0x00; 0x01; 0xb0; 0x57; 0xe6; 0xe9; 0xb0; 0x20; 0xe6; 0x20; 0x48; 0xcf].
Definition PREEMPT_ARM_HANDLER_BYTES : list Z :=
  [0xb0; 0x50; 0xe6; 0xe9; 0xfb; 0xf4; 0xb0; 0x46; 0xe6; 0xe9; 0xf4].
Definition PREEMPT_TIMER_WRAPPER_BYTES : list Z :=
  [0xb0; 0x20; 0xe6; 0x20; 0x48; 0x8b; 0x64; 0x24; 0x18; 0xe9; 0xf2; 0xef; 0xff; 0xff].
Definition TASK_PREEMPTION_ARM_HANDLER : GuestPhysAddr := 0x14000.
Definition TASK_PREEMPTION_TIMER_WRAPPER : GuestPhysAddr := 0x16000.

(** * Facts *)
Definition slot_of_task (t : RunnableTaskId) : Z := match t with TaskA => 0x30000 | TaskB => 0x30040 end.
Definition r12_of (t : RunnableTaskId) : Z := match t with TaskA => 0x1111 | TaskB => 0x2223 end.
Definition letter_of (t : RunnableTaskId) : Z := match t with TaskA => 0x41 | TaskB => 0x42 end.
Definition context_at (m : GuestMemory) (a : Z) : TaskContextSnapshot :=
  mkContext (rd64 m a) (rd64 m (a + 8)) (rd64 m (a + 16)) (rd64 m (a + 24)) (rd64 m (a + 32)) (rd64 m (a + 40)).
Definition frame_wf (f : Frame) : Prop :=
  u64 (frame_rip f) ∧ u64 (frame_cs f) ∧ u64 (frame_rflags f) ∧ u64 (frame_rsp f) ∧ u64 (frame_ss f).
(** The kernel stack of an interrupt from ring 3. *)
Definition in_kernel_frame (a : Z) : Prop := 0x1fdfd8 ≤ a < 0x1fe000.
Lemma rd64_u64 m a : memory_wf m → u64 (rd64 m a).
Proof.
  intros H. pose proof (from_le_bytes_bound _ (mem_get_ok m a 8 H)) as Hb. unfold rd64, u64_at.
  assert (len (mem_get m a 8) = 8) as E by (rewrite len_mem_get; lia). rewrite E in Hb. exact Hb.
Qed.
Lemma inc64_u64 x : u64 (inc64 x).
Proof. unfold inc64, in_width. apply Z.mod_pos_bound. lia. Qed.
Ltac u64_tac := first [assumption|apply inc64_u64|apply rd64_u64; assumption|ulia].
Ltac rd64_simpl :=
  repeat (rewrite rd64_wr64 by lazymatch goal with |- in_width _ _ => u64_tac | |- _ => lia end;
    match goal with
    | |- context [if (?x =? ?y) then _ else _] =>
        let b := eval vm_compute in (x =? y) in
        match b with true => change (x =? y) with true | false => change (x =? y) with false end; cbn match
    end).
Ltac numeral x := lazymatch x with Z0 => idtac | Zpos _ => idtac end.
Ltac closed_same :=
  match goal with
  | |- context [same ?x ?y] =>
      numeral x; numeral y;
      let b := eval vm_compute in (same x y) in
      match b with true => change (same x y) with true | false => change (same x y) with false end
  end.
Ltac switch_run := repeat (first [progress (cbn match)|closed_same|decide_same|x86_step; rd64_simpl]).
Lemma rd8_wr64_out m a v x : x < a ∨ a + 8 ≤ x → rd8 (wr64 m a v) x = rd8 m x.
Proof. intros. apply byte_at_set_out. autorewrite with bytes. lia. Qed.
Lemma wr64_fits m a v : tables_fit m → tables_fit (wr64 m a v).
Proof. intros. eapply window_fits; [|done]. apply (set_u64_in a (a + 8)); lia. Qed.
(** What a handler may write: the frame of the interrupt and [len] bytes at [a]. *)
Definition writes_only (a n : Z) (m m' : GuestMemory) : Prop :=
  tables_fit m' ∧ ∀ x, ¬ in_kernel_frame x → x < a ∨ a + n ≤ x → rd8 m' x = rd8 m x.
Ltac writes_only_tac :=
  split; [repeat apply wr64_fits; assumption|];
  intros x Hx Hs; unfold in_kernel_frame in Hx; rewrite ?rd8_wr64_out by lia; reflexivity.
Ltac exec_run E tac :=
  match goal with |- context [exec_in ?tr ?n ?b ?code ?c] => eassert (exec_in tr n b code c = _) as E end;
    [unfold ADDRESS_SPACE_A_CR3, ADDRESS_SPACE_B_PML4_ADDR, LONG_MODE_PML4_ADDR;
     cbn [cpu_rip cpu_regs cpu_cr3 cpu_flags cpu_out cpu_ram frame_rip frame_cs frame_rflags frame_rsp frame_ss];
     tac; reflexivity|].
(** The handler as the processor enters it from ring 3. *)
Definition scheduler_run (f : Frame) (c : Cpu) : option (Stop * Cpu) :=
  exec 60 PRIVILEGE_RETURN_HANDLER SCHEDULER_HANDLER_BYTES (interrupt PRIVILEGE_RETURN_HANDLER PRIVILEGE_TSS_RSP0 f c).
Lemma scheduler_runs t m rip regs zf out f :
  tables_fit m → frame_wf f → regs R12 = r12_of t →
  let other := context_at m (slot_of_task (other_task t)) in
  ∃ c, scheduler_run f (mkCpu rip regs (space_of t) zf out m) =
       Some (Returned (mkFrame (ctx_rip other) 0x23 (ctx_rflags other) (ctx_rsp other) 0x1b), c) ∧
    cpu_cr3 c = ctx_cr3 other ∧ cpu_regs c R12 = ctx_r12 other ∧ cpu_out c = out ++ prints [letter_of t] ∧
    context_at (cpu_ram c) (slot_of_task t) =
      mkContext (space_of t) (frame_rip f) (frame_rsp f) (frame_rflags f) (r12_of t)
        (inc64 (ctx_save_count (context_at m (slot_of_task t)))) ∧
    context_at (cpu_ram c) (slot_of_task (other_task t)) = other ∧ writes_only (slot_of_task t) 48 m (cpu_ram c).
Proof.
  intros Hf (H1&H2&H3&H4&H5) Hr. destruct f as [frip fcs frfl frsp fss]. simpl in H1, H2, H3, H4, H5.
  assert (memory_wf m) as Hm by apply Hf.
  assert (u64 (regs 12)) as Hu by (unfold R12 in Hr; rewrite Hr; by destruct t; split).
  cbv zeta. unfold scheduler_run, interrupt, PRIVILEGE_TSS_RSP0, PRIVILEGE_RETURN_HANDLER.
  destruct t; unfold R12 in Hr; cbn [r12_of space_of other_task slot_of_task letter_of] in *.
  all: exec_run E switch_run.
  all: eexists; split; [exact E|]; clear E.
  all: unfold context_at; cbn [cpu_rip cpu_regs cpu_cr3 cpu_flags cpu_out cpu_ram]; upd_simpl; address_simpl; rd64_simpl.
  all: unfold prints; rewrite ?low8_set_al, ?Hr by lia; split_and!; [done..|writes_only_tac].
Qed.
Ltac refuse_tac :=
  switch_run; eexists; split; [reflexivity|]; cbn [cpu_out cpu_ram]; rewrite low8_set_al by lia; split; [done|writes_only_tac].
(** Entered with a register the space does not go with, or from another space, the handler halts. *)
Lemma scheduler_refuses m rip regs cr3 zf out f :
  tables_fit m → (∀ t, ¬ (cr3 = space_of t ∧ regs R12 = r12_of t)) →
  ∃ c, scheduler_run f (mkCpu rip regs cr3 zf out m) = Some (Halted, c) ∧
    cpu_out c = out ++ prints [0x46] ∧ writes_only 0 0 m (cpu_ram c).
Proof.
  intros Hf Hn. unfold scheduler_run, interrupt, PRIVILEGE_TSS_RSP0, PRIVILEGE_RETURN_HANDLER.
  pose proof (Hn TaskA) as HA. pose proof (Hn TaskB) as HB. clear Hn. unfold R12 in *.
  cbn [space_of r12_of] in *. unfold ADDRESS_SPACE_A_CR3, ADDRESS_SPACE_B_PML4_ADDR, LONG_MODE_PML4_ADDR in *.
  cbn [cpu_rip cpu_regs cpu_cr3 cpu_flags cpu_out cpu_ram].
  switch_run. destruct (same_spec cr3 4096) as [->|]; switch_run.
  - destruct (same_spec (regs 12) 4369) as [E|]; [by destruct HA|refuse_tac].
  - destruct (same_spec cr3 45056) as [->|]; switch_run.
    + destruct (same_spec (regs 12) 8739) as [E|]; [by destruct HB|refuse_tac].
    + refuse_tac.
Qed.
Lemma slice_mem_get {E} m a n o k :
  0 ≤ o → 0 ≤ k → o + k ≤ n → slice (E:=E) (mem_get m a n) o (o + k) = Ok (mem_get m (a + o) k).
Proof.
  intros Ho Hk Hn. unfold slice. rewrite len_mem_get by lia.
  rewrite (proj2 (Z.leb_le _ _)), (proj2 (Z.leb_le _ _)) by lia. cbn [andb]. f_equal. unfold mem_get.
  replace (o + k - o) with k by lia.
  replace (Z.to_nat n) with (Z.to_nat o + (Z.to_nat k + Z.to_nat (n - o - k)))%nat by lia.
  rewrite !store_read_app, drop_app_length', take_app_length' by (by rewrite length_store_read).
  f_equal. lia.
Qed.
Lemma field_at m a n o : 0 ≤ o → o + 8 ≤ n → field (mem_get m a n) o = Ok (rd64 m (a + o)).
Proof. intros. unfold field. by rewrite slice_mem_get by lia. Qed.
Lemma read_fits m a n :
  tables_fit m → 0 ≤ a → 0 ≤ n → a + n ≤ LONG_MODE_IDENTITY_MAP_SIZE → read m a n = Ok (mem_get m a n).
Proof. intros (Hwf&Hb&Hs) ???. apply read_ok; [done|done|]. unfold in_region. rewrite Hb. lia. Qed.
Lemma read_context_at m a :
  tables_fit m → 0 ≤ a → a + 48 ≤ LONG_MODE_IDENTITY_MAP_SIZE → read_context m a = Ok (context_at m a).
Proof.
  intros. unfold read_context, TASK_CONTEXT_BYTES. rewrite read_fits by lia || done.
  cbn [mbind res_bind]. rewrite !field_at by lia. cbn [mbind res_bind]. by rewrite Z.add_0_r.
Qed.
Definition terminal_at (m : GuestMemory) : TaskTerminalObservation :=
  mkTerminal (rd64 m 0x30080) (rd64 m 0x30088) (rd64 m 0x30090) (rd64 m 0x30098).
Lemma read_terminal_at m : tables_fit m → read_terminal_observation m = Ok (terminal_at m).
Proof.
  intros. unfold read_terminal_observation, TASK_TERMINAL_OBSERVATION_BYTES, TASK_TERMINAL_OBSERVATION_ADDR.
  rewrite read_fits by (done || (unfold LONG_MODE_IDENTITY_MAP_SIZE; lia)).
  cbn [mbind res_bind]. by rewrite !field_at by lia.
Qed.
Definition terminal_run (f : Frame) (c : Cpu) : option (Stop * Cpu) :=
  exec 60 PRIVILEGE_TERMINAL_HANDLER TERMINAL_HANDLER_BYTES (interrupt PRIVILEGE_TERMINAL_HANDLER PRIVILEGE_TSS_RSP0 f c).
Definition TASK_TERMINAL_RIP : Z := 0x13059.
Lemma terminal_runs m rip regs zf out f :
  tables_fit m → frame_wf f → regs R12 = TASK_A_R12 → frame_rip f = TASK_TERMINAL_USER_RIP →
  frame_rsp f = TASK_A_INITIAL_RSP →
  ∃ c, terminal_run f (mkCpu rip regs ADDRESS_SPACE_A_CR3 zf out m) = Some (Halted, c) ∧ cpu_rip c = TASK_TERMINAL_RIP ∧
    cpu_cr3 c = ADDRESS_SPACE_A_CR3 ∧ cpu_regs c R12 = TASK_A_R12 ∧
    cpu_out c = out ++ prints [0x52; 0x44] ∧ terminal_at (cpu_ram c) = expected_terminal ∧
    writes_only 0x30080 32 m (cpu_ram c).
Proof.
  intros Hf (H1&H2&H3&H4&H5) Hr Hrip Hrsp. destruct f as [frip fcs frfl frsp fss]. simpl in H1, H2, H3, H4, H5, Hrip, Hrsp.
  assert (memory_wf m) as Hm by apply Hf. unfold R12, TASK_A_R12, TASK_TERMINAL_USER_RIP, TASK_A_INITIAL_RSP in *. subst frip frsp.
  assert (u64 (regs 12)) as Hu by (rewrite Hr; ulia).
  unfold terminal_run, interrupt, PRIVILEGE_TSS_RSP0, PRIVILEGE_TERMINAL_HANDLER.
  exec_run E switch_run. eexists; split; [exact E|]; clear E.
  unfold terminal_at; cbn [cpu_rip cpu_regs cpu_cr3 cpu_flags cpu_out cpu_ram]; upd_simpl; address_simpl; rd64_simpl.
  rewrite !low8_set_al, Hr, <- app_assoc by lia. split_and!; [done..|writes_only_tac].
Qed.
Lemma terminal_refuses m rip regs cr3 zf out f :
  tables_fit m → frame_wf f →
  ¬ (cr3 = ADDRESS_SPACE_A_CR3 ∧ regs R12 = TASK_A_R12 ∧ frame_rip f = TASK_TERMINAL_USER_RIP ∧ frame_rsp f = TASK_A_INITIAL_RSP) →
  ∃ c, terminal_run f (mkCpu rip regs cr3 zf out m) = Some (Halted, c) ∧
    cpu_out c = out ++ prints [0x46] ∧ writes_only 0 0 m (cpu_ram c).
Proof.
  intros Hf (H1&H2&H3&H4&H5) Hn. destruct f as [frip fcs frfl frsp fss]. simpl in H1, H2, H3, H4, H5, Hn.
  assert (memory_wf m) as Hm by apply Hf.
  unfold R12, TASK_A_R12, TASK_TERMINAL_USER_RIP, TASK_A_INITIAL_RSP, ADDRESS_SPACE_A_CR3, LONG_MODE_PML4_ADDR in *.
  unfold terminal_run, interrupt, PRIVILEGE_TSS_RSP0, PRIVILEGE_TERMINAL_HANDLER.
  cbn [cpu_rip cpu_regs cpu_cr3 cpu_flags cpu_out cpu_ram frame_rip frame_cs frame_rflags frame_rsp frame_ss].
  switch_run. destruct (same_spec cr3 4096) as [->|]; [|refuse_tac]. switch_run.
  destruct (same_spec (regs 12) 4369); [|refuse_tac]. switch_run.
  destruct (same_spec frip 69651); [|refuse_tac]. switch_run.
  destruct (same_spec frsp 2084848); [tauto|refuse_tac].
Qed.

(** ** The whole guest

    Between two traps the user code runs: any memory that keeps the kernel's pages. *)
Definition kernel_page (x : Z) : Prop := 0x1000 ≤ x < 0x10000 ∨ 0x30000 ≤ x < 0x31000.
Definition kept (m m' : GuestMemory) : Prop := tables_fit m' ∧ ∀ x, kernel_page x → rd8 m' x = rd8 m x.
Lemma rd64_agree m m' a :
  tables_fit m → tables_fit m' → (∀ x, a ≤ x < a + 8 → rd8 m' x = rd8 m x) → rd64 m' a = rd64 m a.
Proof.
  intros (_&Hb&_) (_&Hb'&_) H. unfold rd64, u64_at, mem_get. rewrite Hb, Hb'. f_equal. apply store_read_ext.
  intros o Ho. specialize (H o). unfold rd8, byte_at in H. rewrite Hb, Hb', Z.sub_0_r in H. apply H. lia.
Qed.
Lemma kept_rd64 m m' a :
  tables_fit m → kept m m' → 0x1000 ≤ a ∧ a + 8 ≤ 0x10000 ∨ 0x30000 ≤ a ∧ a + 8 ≤ 0x31000 → rd64 m' a = rd64 m a.
Proof. intros Hf [Hf' H] Ha. apply rd64_agree; [done..|]. intros. apply H. unfold kernel_page. lia. Qed.
Lemma kept_context m m' t : tables_fit m → kept m m' → context_at m' (slot_of_task t) = context_at m (slot_of_task t).
Proof. intros. unfold context_at. by destruct t; cbn [slot_of_task]; rewrite !(kept_rd64 m m') by (done || lia). Qed.
Lemma writes_only_kept a n m m' x :
  writes_only a n m m' → kernel_page x → x < a ∨ a + n ≤ x → rd8 m' x = rd8 m x.
Proof. intros [_ H] Hk Hx. apply H; [|done]. unfold kernel_page, in_kernel_frame in *. lia. Qed.
Lemma writes_only_rd64 a n m m' b :
  tables_fit m → writes_only a n m m' → 0x1000 ≤ b ∧ b + 8 ≤ 0x10000 ∨ 0x30000 ≤ b ∧ b + 8 ≤ 0x31000 →
  b + 8 ≤ a ∨ a + n ≤ b → rd64 m' b = rd64 m b.
Proof.
  intros Hf Hw Hb Ha. apply rd64_agree; [done|apply Hw|]. intros x Hx. eapply writes_only_kept; [done| |lia].
  unfold kernel_page. lia.
Qed.
(** The tables of the two address spaces, as [address_space_isolation] finds them installed. *)
Definition spaces_installed (m : GuestMemory) : Prop :=
  table_is m 0x8000 privilege_pte ∧ table_is m 0xe000 second_pte.
Lemma read_pte_at m table :
  tables_fit m → 0 ≤ table ≤ 0xe000 → read_pte m table TASK_CONTEXT_PAGE_ADDR = Ok (rd64 m (table + 0x180)).
Proof.
  intros Hf Ht. unfold read_pte. change (Z.land _ _ / _) with 0x30.
  rewrite umul_ok by lia. cbn [mbind res_bind]. rewrite uadd_ok by lia. cbn [mbind res_bind].
  by rewrite read_fits; [|done|lia|lia|unfold LONG_MODE_IDENTITY_MAP_SIZE; lia].
Qed.
Definition trap_stage (run : Frame → Cpu → option (Stop * Cpu)) (f : Frame) (cr3 r12 : Z) (m : GuestMemory)
    (post : Stop → Cpu → list (Z * Z) → Prop) : Prop :=
  ∀ m1 rip regs zf out, kept m m1 → regs R12 = r12 →
    ∃ s c, run f (mkCpu rip regs cr3 zf out m1) = Some (s, c) ∧ post s c out.
Definition user_frame (rip rsp : Z) : Frame := mkFrame rip PRIVILEGE_USER_CODE_SELECTOR TASK_USER_RFLAGS rsp PRIVILEGE_USER_DATA_SELECTOR.
Lemma user_frame_wf rip rsp : u64 rip → u64 rsp → frame_wf (user_frame rip rsp).
Proof. intros. split_and!; [done|by split|by split|done|by split]. Qed.
(** What the host reads when the guest has stopped, and its verdict, given the markers the two user
    programs leave on their stacks. *)
Definition host_accepts (c : Cpu) : Prop :=
  let m := cpu_ram c in
  rd8 m TASK_A_STACK_MARKER_PHYS = 0x61 → rd8 m TASK_B_STACK_MARKER_PHYS = 0x62 →
  (task_a ← read_context m TASK_A_CONTEXT_ADDR;
   task_b ← read_context m TASK_B_CONTEXT_ADDR;
   terminal ← read_terminal_observation m;
   first ← read_pte m PRIVILEGE_PT_ADDR TASK_CONTEXT_PAGE_ADDR;
   second ← read_pte m ADDRESS_SPACE_B_PT_ADDR TASK_CONTEXT_PAGE_ADDR;
   marker_a ← read_byte m TASK_A_STACK_MARKER_PHYS;
   marker_b ← read_byte m TASK_B_STACK_MARKER_PHYS;
   validate_queue_context_state task_a task_b terminal (cpu_cr3 c) (cpu_regs c R12) marker_a marker_b first second) = Ok tt.
Definition context_guest (m0 : GuestMemory) : Prop :=
  trap_stage scheduler_run (user_frame TASK_A_SAVED_RIP TASK_A_INITIAL_RSP) CR3_A TASK_A_R12 m0 (λ s c out,
    s = Returned (user_frame PRIVILEGE_USER_ENTRY TASK_B_INITIAL_RSP) ∧ cpu_cr3 c = CR3_B ∧
    cpu_regs c R12 = TASK_B_INITIAL_R12 ∧ cpu_out c = out ++ prints [0x41] ∧
  trap_stage scheduler_run (user_frame TASK_B_SAVED_RIP TASK_B_INITIAL_RSP) CR3_B TASK_B_SAVED_R12 (cpu_ram c) (λ s c out,
    s = Returned (user_frame TASK_A_SAVED_RIP TASK_A_INITIAL_RSP) ∧ cpu_cr3 c = CR3_A ∧
    cpu_regs c R12 = TASK_A_R12 ∧ cpu_out c = out ++ prints [0x42] ∧
  trap_stage terminal_run (user_frame TASK_TERMINAL_USER_RIP TASK_A_INITIAL_RSP) CR3_A TASK_A_R12 (cpu_ram c) (λ s c out,
    s = Halted ∧ cpu_rip c = TASK_TERMINAL_RIP ∧ cpu_out c = out ++ prints [0x52; 0x44] ∧ host_accepts c))).
(** [scheduler_runs] from a memory that keeps the kernel's pages of [m]. *)
Lemma scheduler_kept t m m1 rip regs zf out f :
  tables_fit m → kept m m1 → frame_wf f → regs R12 = r12_of t →
  let other := context_at m (slot_of_task (other_task t)) in
  ∃ c, scheduler_run f (mkCpu rip regs (space_of t) zf out m1) =
       Some (Returned (mkFrame (ctx_rip other) 0x23 (ctx_rflags other) (ctx_rsp other) 0x1b), c) ∧
    cpu_cr3 c = ctx_cr3 other ∧ cpu_regs c R12 = ctx_r12 other ∧ cpu_out c = out ++ prints [letter_of t] ∧
    context_at (cpu_ram c) (slot_of_task t) =
      mkContext (space_of t) (frame_rip f) (frame_rsp f) (frame_rflags f) (r12_of t)
        (inc64 (ctx_save_count (context_at m (slot_of_task t)))) ∧
    context_at (cpu_ram c) (slot_of_task (other_task t)) = other ∧ writes_only (slot_of_task t) 48 m1 (cpu_ram c).
Proof.
  intros Hm Hk Hf Hr. pose proof (scheduler_runs t m1 rip regs zf out f (proj1 Hk) Hf Hr) as H. cbv zeta in *.
  by rewrite !(kept_context m m1 _ Hm Hk) in H.
Qed.
Lemma writes_only_context a n m m' t :
  tables_fit m → writes_only a n m m' → slot_of_task t + 48 ≤ a ∨ a + n ≤ slot_of_task t →
  context_at m' (slot_of_task t) = context_at m (slot_of_task t).
Proof.
  intros. unfold context_at. by destruct t; cbn [slot_of_task] in *; rewrite !(writes_only_rd64 a n m m') by (done || lia).
Qed.
(** The entries of the context page survive what keeps the kernel's pages. *)
Lemma spaces_kept m m1 a n m' :
  tables_fit m → kept m m1 → writes_only a n m1 m' → 0x30000 ≤ a →
  (rd64 m (0x8000 + 0x180) = privilege_pte 0x30 ∧ rd64 m (0xe000 + 0x180) = second_pte 0x30) →
  rd64 m' (0x8000 + 0x180) = privilege_pte 0x30 ∧ rd64 m' (0xe000 + 0x180) = second_pte 0x30.
Proof.
  intros Hf Hk Hw Ha [H1 H2]. rewrite !(writes_only_rd64 a n m1 m') by (first [apply Hk|done|lia]).
  by rewrite !(kept_rd64 m m1) by (done || lia).
Qed.
Lemma host_accepts_expected c :
  tables_fit (cpu_ram c) → context_at (cpu_ram c) (slot_of_task TaskA) = expected_a →
  context_at (cpu_ram c) (slot_of_task TaskB) = expected_b → terminal_at (cpu_ram c) = expected_terminal →
  cpu_cr3 c = ADDRESS_SPACE_A_CR3 → cpu_regs c R12 = TASK_A_R12 →
  (rd64 (cpu_ram c) (0x8000 + 0x180) = privilege_pte 0x30 ∧ rd64 (cpu_ram c) (0xe000 + 0x180) = second_pte 0x30) →
  host_accepts c.
Proof.
  intros Hf Ha Hb Ht Hc Hr [H1 H2] Hma Hmb. cbv zeta in *.
  change TASK_A_CONTEXT_ADDR with 0x30000. change TASK_B_CONTEXT_ADDR with 0x30040.
  unfold PRIVILEGE_PT_ADDR, ADDRESS_SPACE_B_PT_ADDR.
  rewrite !read_context_at, read_terminal_at, !read_pte_at, !read_byte_fits, Hma, Hmb by (done || lia || (unfold LONG_MODE_IDENTITY_MAP_SIZE; lia)).
  cbn [slot_of_task] in *. cbn [mbind res_bind]. rewrite Ha, Hb, Ht, Hc, Hr, H1, H2. vm_compute. reflexivity.
Qed.
Lemma context_guest_runs m0 :
  tables_fit m0 → spaces_installed m0 → ctx_save_count (context_at m0 (slot_of_task TaskA)) = 0 →
  context_at m0 (slot_of_task TaskB) =
    mkContext CR3_B PRIVILEGE_USER_ENTRY TASK_B_INITIAL_RSP TASK_USER_RFLAGS TASK_B_INITIAL_R12 0 →
  context_guest m0.
Proof.
  intros Hf [H8 He] HA HB m1 rip1 regs1 zf1 out1 K1 R1.
  destruct (scheduler_kept TaskA m0 m1 rip1 regs1 zf1 out1 (user_frame TASK_A_SAVED_RIP TASK_A_INITIAL_RSP))
    as (c1&E1&C1&X1&O1&A1&B1&W1); [done|done|by apply user_frame_wf; split|done|]. cbn [other_task] in *. rewrite HB in *.
  pose proof (spaces_kept m0 m1 _ _ _ Hf K1 W1 ltac:(done) (conj (H8 0x30 ltac:(lia)) (He 0x30 ltac:(lia)))) as T1.
  eexists _, _. split; [exact E1|]. do 4 (split; [done|]). pose proof (proj1 W1) as F1.
  intros m2 rip2 regs2 zf2 out2 K2 R2.
  destruct (scheduler_kept TaskB (cpu_ram c1) m2 rip2 regs2 zf2 out2 (user_frame TASK_B_SAVED_RIP TASK_B_INITIAL_RSP))
    as (c2&E2&C2&X2&O2&A2&B2&W2); [done|done|by apply user_frame_wf; split|done|]. cbn [other_task] in *. rewrite A1, B1 in *.
  pose proof (spaces_kept _ m2 _ _ _ F1 K2 W2 ltac:(done) T1) as T2.
  eexists _, _. split; [exact E2|]. do 4 (split; [done|]). pose proof (proj1 W2) as F2.
  intros m3 rip3 regs3 zf3 out3 K3 R3.
  destruct (terminal_runs m3 rip3 regs3 zf3 out3 (user_frame TASK_TERMINAL_USER_RIP TASK_A_INITIAL_RSP))
    as (c3&E3&P3&C3&X3&O3&T3&W3); [apply K3|by apply user_frame_wf; split|done|done|done|].
  eexists _, _. split; [exact E3|]. do 3 (split; [done|]).
  apply host_accepts_expected; [apply W3| | |done|done|done|].
  - rewrite (writes_only_context _ _ m3 _ TaskA (proj1 K3) W3), (kept_context _ m3 TaskA F2 K3), B2 by (cbn; lia).
    rewrite HA. reflexivity.
  - rewrite (writes_only_context _ _ m3 _ TaskB (proj1 K3) W3), (kept_context _ m3 TaskB F2 K3), A2 by (cbn; lia). reflexivity.
  - exact (spaces_kept _ m3 _ _ _ F2 K3 W3 ltac:(done) T2).
Qed.
Definition context_wf (x : TaskContextSnapshot) : Prop :=
  u64 (ctx_cr3 x) ∧ u64 (ctx_rip x) ∧ u64 (ctx_rsp x) ∧ u64 (ctx_rflags x) ∧ u64 (ctx_r12 x) ∧ u64 (ctx_save_count x).
Definition set_context (m : GuestMemory) (a : Z) (x : TaskContextSnapshot) : GuestMemory :=
  wr64 (wr64 (wr64 (wr64 (wr64 (wr64 m a (ctx_cr3 x)) (a + 8) (ctx_rip x)) (a + 16) (ctx_rsp x)) (a + 24) (ctx_rflags x))
    (a + 32) (ctx_r12 x)) (a + 40) (ctx_save_count x).
Lemma write_word_fits m a v :
  tables_fit m → 0 ≤ a → a + 8 ≤ LONG_MODE_IDENTITY_MAP_SIZE → write_mut a (to_le_bytes 8 v) m = (Ok tt, wr64 m a v).
Proof. intros. apply write_fits; [done|done|]. autorewrite with bytes. lia. Qed.
Lemma write_context_runs m a x :
  tables_fit m → 0 ≤ a → a + 48 ≤ LONG_MODE_IDENTITY_MAP_SIZE → write_context a x m = (Ok tt, set_context m a x).
Proof.
  intros Hf Ha Hs. unfold write_context, set_context. cbn [write_fields]. rewrite Z.add_0_r.
  do 6 (erewrite prog_bind_step by (apply write_word_fits; [repeat apply wr64_fits; done|lia|lia])). reflexivity.
Qed.
Ltac eqb_lia :=
  match goal with
  | |- context [?x =? ?y] =>
      first [rewrite (proj2 (Z.eqb_neq x y)) by lia|rewrite (proj2 (Z.eqb_eq x y)) by lia]; cbn match
  end.
Lemma context_at_set m a x : context_wf x → context_at (set_context m a x) a = x.
Proof.
  intros (?&?&?&?&?&?). destruct x. unfold context_at, set_context. cbn in *.
  repeat (rewrite rd64_wr64 by (assumption || lia); eqb_lia). done.
Qed.
Lemma set_context_other m a x b :
  context_wf x → b + 48 ≤ a ∨ a + 48 ≤ b → context_at (set_context m a x) b = context_at m b.
Proof.
  intros (?&?&?&?&?&?) Hb. destruct x. unfold context_at, set_context. cbn in *.
  repeat (rewrite rd64_wr64 by (assumption || lia); eqb_lia). done.
Qed.
Lemma set_context_fits m a x : tables_fit m → tables_fit (set_context m a x).
Proof. intros. unfold set_context. by repeat apply wr64_fits. Qed.
Definition initial_b : TaskContextSnapshot :=
  mkContext ADDRESS_SPACE_B_PML4_ADDR PRIVILEGE_USER_ENTRY TASK_B_INITIAL_RSP TASK_USER_RFLAGS TASK_B_INITIAL_R12 0.
(** How the runners leave the context page: zeroes, and task B ready to start. *)
Definition prepare_contexts : prog GuestMemory Error unit :=
  write_mut TASK_CONTEXT_PAGE_ADDR (replicate (Z.to_nat LONG_MODE_PAGE_SIZE) 0);;
  write_context TASK_B_CONTEXT_ADDR initial_b.
Lemma initial_b_wf : context_wf initial_b.
Proof. by repeat split. Qed.
Lemma prepare_contexts_runs m :
  tables_fit m → spaces_installed m → ∃ m0, prepare_contexts m = (Ok tt, m0) ∧ context_guest m0.
Proof.
  intros Hf [H8 He]. set (z := zero_page_at m 0x30000).
  assert (window 0x30000 0x31000 m z) as Hz by (apply Gates.zero_page_in; lia).
  pose proof (window_fits _ _ _ _ Hz Hf) as Hfz.
  exists (set_context z 0x30040 initial_b). split.
  { unfold prepare_contexts. erewrite prog_bind_step.
    - apply write_context_runs; [done|by vm_compute|by vm_compute].
    - apply write_fits; [done|by vm_compute|rewrite Gates.len_zero_page; by vm_compute]. }
  assert (window 0x30000 0x31000 m (set_context z 0x30040 initial_b)) as Hw.
  { etrans; [exact Hz|]. unfold set_context. do 6 (etrans; [|apply set_u64_in; lia]). reflexivity. }
  apply context_guest_runs; [by apply set_context_fits| | |].
  - split; intros i Hi; unfold table_entry; rewrite (u64_at_window _ _ _ _ _ Hw) by lia; [by apply H8|by apply He].
  - cbn [slot_of_task]. rewrite set_context_other by (apply initial_b_wf || lia). unfold context_at. cbn [ctx_save_count].
    unfold rd64, z. rewrite u64_at_zero_page by lia. done.
  - cbn [slot_of_task]. by apply context_at_set, initial_b_wf.
Qed.

