(* ===== verification/VirtioCommon.v ===== *)
(** The virtio-pci modern transport shared by the virtio-rng and virtio-blk
    functions ([src/src/pci/virtio.rs] and [src/src/pci/virtio_blk.rs]).  The two
    sources write out the same common-configuration register file, differing
    in their error type, the features they offer and accept, and the block
    device's configuration word; [VirtioFunction] is that difference, and the
    register file is modelled and verified once against it. *)

From S2P Require Import Prelude Errors Memory.

Definition VIRTIO_F_VERSION_1 : Z := Z.shiftl 1 32.
Definition VIRTIO_NOTIFY_OFFSET : Z := 0x100.
Definition VIRTIO_ISR_OFFSET : Z := 0x200.
Definition VIRTIO_ISR_QUEUE_INTERRUPT : Z := 1.
Definition VIRTIO_QUEUE_MAX_SIZE : Z := 8.
Definition VIRTQ_DESC_F_NEXT : Z := 1.
Definition VIRTQ_DESC_F_WRITE : Z := 2.
Definition VIRTQ_DESC_F_INDIRECT : Z := 4.
Definition VIRTIO_STATUS_ACKNOWLEDGE : Z := 1.
Definition VIRTIO_STATUS_DRIVER : Z := 2.
Definition VIRTIO_STATUS_DRIVER_OK : Z := 4.
Definition VIRTIO_STATUS_FEATURES_OK : Z := 8.
Definition VIRTIO_STATUS_FAILED : Z := 0x80.
Definition VIRTIO_STATUS_KNOWN : Z :=
  Z.lor (Z.lor (Z.lor (Z.lor VIRTIO_STATUS_ACKNOWLEDGE VIRTIO_STATUS_DRIVER)
                 VIRTIO_STATUS_DRIVER_OK) VIRTIO_STATUS_FEATURES_OK) VIRTIO_STATUS_FAILED.
Definition COMMON_DEVICE_FEATURE_SELECT : Z := 0x00.
Definition COMMON_DEVICE_FEATURE : Z := 0x04.
Definition COMMON_DRIVER_FEATURE_SELECT : Z := 0x08.
Definition COMMON_DRIVER_FEATURE : Z := 0x0c.
Definition COMMON_CONFIG_MSIX_VECTOR : Z := 0x10.
Definition COMMON_NUM_QUEUES : Z := 0x12.
Definition COMMON_DEVICE_STATUS : Z := 0x14.
Definition COMMON_CONFIG_GENERATION : Z := 0x15.
Definition COMMON_QUEUE_SELECT : Z := 0x16.
Definition COMMON_QUEUE_SIZE : Z := 0x18.
Definition COMMON_QUEUE_MSIX_VECTOR : Z := 0x1a.
Definition COMMON_QUEUE_ENABLE : Z := 0x1c.
Definition COMMON_QUEUE_NOTIFY_OFF : Z := 0x1e.
Definition COMMON_QUEUE_DESC : Z := 0x20.
Definition COMMON_QUEUE_DESC_HIGH : Z := 0x24.
Definition COMMON_QUEUE_DRIVER : Z := 0x28.
Definition COMMON_QUEUE_DRIVER_HIGH : Z := 0x2c.
Definition COMMON_QUEUE_DEVICE : Z := 0x30.
Definition COMMON_QUEUE_DEVICE_HIGH : Z := 0x34.

(** The register and queue state of [VirtioRngDevice] and [VirtioBlkDevice]. *)
Record VirtioRegs := mkRegs {
  bar0 : Z;
  device_feature_select : Z;
  driver_feature_select : Z;
  driver_features : Z;
  status : Z;
  queue_select : Z;
  queue_size : Z;
  queue_enabled : bool;
  queue_desc : Z;
  queue_driver : Z;
  queue_device : Z;
  notify_pending : bool;
  last_avail_idx : Z;
  last_used_idx : Z;
  isr_status : Z
}.

Definition set_device_feature_select (v : Z) (d : VirtioRegs) : VirtioRegs :=
  mkRegs d.(bar0) v d.(driver_feature_select) d.(driver_features) d.(status) d.(queue_select)
    d.(queue_size) d.(queue_enabled) d.(queue_desc) d.(queue_driver) d.(queue_device)
    d.(notify_pending) d.(last_avail_idx) d.(last_used_idx) d.(isr_status).
Definition set_driver_feature_select (v : Z) (d : VirtioRegs) : VirtioRegs :=
  mkRegs d.(bar0) d.(device_feature_select) v d.(driver_features) d.(status) d.(queue_select)
    d.(queue_size) d.(queue_enabled) d.(queue_desc) d.(queue_driver) d.(queue_device)
    d.(notify_pending) d.(last_avail_idx) d.(last_used_idx) d.(isr_status).
Definition set_driver_features (v : Z) (d : VirtioRegs) : VirtioRegs :=
  mkRegs d.(bar0) d.(device_feature_select) d.(driver_feature_select) v d.(status)
    d.(queue_select) d.(queue_size) d.(queue_enabled) d.(queue_desc) d.(queue_driver)
    d.(queue_device) d.(notify_pending) d.(last_avail_idx) d.(last_used_idx) d.(isr_status).
Definition set_status (v : Z) (d : VirtioRegs) : VirtioRegs :=
  mkRegs d.(bar0) d.(device_feature_select) d.(driver_feature_select) d.(driver_features) v
    d.(queue_select) d.(queue_size) d.(queue_enabled) d.(queue_desc) d.(queue_driver)
    d.(queue_device) d.(notify_pending) d.(last_avail_idx) d.(last_used_idx) d.(isr_status).
Definition set_queue_select (v : Z) (d : VirtioRegs) : VirtioRegs :=
  mkRegs d.(bar0) d.(device_feature_select) d.(driver_feature_select) d.(driver_features)
    d.(status) v d.(queue_size) d.(queue_enabled) d.(queue_desc) d.(queue_driver)
    d.(queue_device) d.(notify_pending) d.(last_avail_idx) d.(last_used_idx) d.(isr_status).
Definition set_queue_size (v : Z) (d : VirtioRegs) : VirtioRegs :=
  mkRegs d.(bar0) d.(device_feature_select) d.(driver_feature_select) d.(driver_features)
    d.(status) d.(queue_select) v d.(queue_enabled) d.(queue_desc) d.(queue_driver)
    d.(queue_device) d.(notify_pending) d.(last_avail_idx) d.(last_used_idx) d.(isr_status).
Definition set_queue_enabled (v : bool) (d : VirtioRegs) : VirtioRegs :=
  mkRegs d.(bar0) d.(device_feature_select) d.(driver_feature_select) d.(driver_features)
    d.(status) d.(queue_select) d.(queue_size) v d.(queue_desc) d.(queue_driver)
    d.(queue_device) d.(notify_pending) d.(last_avail_idx) d.(last_used_idx) d.(isr_status).
Definition set_queue_desc (v : Z) (d : VirtioRegs) : VirtioRegs :=
  mkRegs d.(bar0) d.(device_feature_select) d.(driver_feature_select) d.(driver_features)
    d.(status) d.(queue_select) d.(queue_size) d.(queue_enabled) v d.(queue_driver)
    d.(queue_device) d.(notify_pending) d.(last_avail_idx) d.(last_used_idx) d.(isr_status).
Definition set_queue_driver (v : Z) (d : VirtioRegs) : VirtioRegs :=
  mkRegs d.(bar0) d.(device_feature_select) d.(driver_feature_select) d.(driver_features)
    d.(status) d.(queue_select) d.(queue_size) d.(queue_enabled) d.(queue_desc) v
    d.(queue_device) d.(notify_pending) d.(last_avail_idx) d.(last_used_idx) d.(isr_status).
Definition set_queue_device (v : Z) (d : VirtioRegs) : VirtioRegs :=
  mkRegs d.(bar0) d.(device_feature_select) d.(driver_feature_select) d.(driver_features)
    d.(status) d.(queue_select) d.(queue_size) d.(queue_enabled) d.(queue_desc) d.(queue_driver)
    v d.(notify_pending) d.(last_avail_idx) d.(last_used_idx) d.(isr_status).
Definition set_notify_pending (v : bool) (d : VirtioRegs) : VirtioRegs :=
  mkRegs d.(bar0) d.(device_feature_select) d.(driver_feature_select) d.(driver_features)
    d.(status) d.(queue_select) d.(queue_size) d.(queue_enabled) d.(queue_desc) d.(queue_driver)
    d.(queue_device) v d.(last_avail_idx) d.(last_used_idx) d.(isr_status).
Definition set_last_avail_idx (v : Z) (d : VirtioRegs) : VirtioRegs :=
  mkRegs d.(bar0) d.(device_feature_select) d.(driver_feature_select) d.(driver_features)
    d.(status) d.(queue_select) d.(queue_size) d.(queue_enabled) d.(queue_desc) d.(queue_driver)
    d.(queue_device) d.(notify_pending) v d.(last_used_idx) d.(isr_status).
Definition set_last_used_idx (v : Z) (d : VirtioRegs) : VirtioRegs :=
  mkRegs d.(bar0) d.(device_feature_select) d.(driver_feature_select) d.(driver_features)
    d.(status) d.(queue_select) d.(queue_size) d.(queue_enabled) d.(queue_desc) d.(queue_driver)
    d.(queue_device) d.(notify_pending) d.(last_avail_idx) v d.(isr_status).
Definition set_isr_status (v : Z) (d : VirtioRegs) : VirtioRegs :=
  mkRegs d.(bar0) d.(device_feature_select) d.(driver_feature_select) d.(driver_features)
    d.(status) d.(queue_select) d.(queue_size) d.(queue_enabled) d.(queue_desc) d.(queue_driver)
    d.(queue_device) d.(notify_pending) d.(last_avail_idx) d.(last_used_idx) v.

(** What distinguishes one virtio function from another. *)
Class VirtioFunction (E : Type) := {
  UnsupportedRegisterAccess (offset length : Z) (write : bool) : E;
  InvalidRegisterPayload (offset expected actual : Z) : E;
  InvalidDeviceStatus (current requested : Z) : E;
  UnsupportedQueue (queue : Z) : E;
  InvalidQueueSize (size maximum : Z) : E;
  QueueConfigurationLocked : E;
  QueueNotReady : E;
  UnexpectedQueueNotification (queue : Z) : E;
  AddressOverflow (base offset : Z) : E;
  (** The feature words offered, by select register. *)
  offered_feature_word (select : Z) : Z;
  (** Whether the features the driver wrote complete the negotiation. *)
  features_valid (driver_features : Z) : bool;
  (** The device-specific configuration registers. *)
  config_register (offset length : Z) : option (list Z)
}.

Inductive VirtioEvent := QueueNotified (queue : Z).

Definition virtio_new (bar : Z) : VirtioRegs :=
  mkRegs bar 0 0 0 0 0 VIRTIO_QUEUE_MAX_SIZE false 0 0 0 false 0 0 0.

(** [reset]: everything but the BAR address. *)
Definition reset (d : VirtioRegs) : VirtioRegs := virtio_new d.(bar0).

(** [replace_low_u32] and [replace_high_u32]. *)
Definition replace_low_u32 (original value : Z) : Z :=
  Z.lor (Z.land original 0xffffffff00000000) value.
Definition replace_high_u32 (original value : Z) : Z :=
  Z.lor (Z.land original 0x00000000ffffffff) (Z.shiftl value 32).

(** A match arm [(register, n)]. *)
Definition arm (offset length register n : Z) : bool := (offset =? register) && (length =? n).

Section transport.
Context {E : Type} `{!VirtioFunction E}.
Abbreviation M := (prog VirtioRegs E).

Definition read_u16 (offset : Z) (payload : list Z) : res E Z :=
  if len payload =? 2 then Ok (from_le_bytes payload)
  else Err (InvalidRegisterPayload offset 2 (len payload)).
Definition read_u32 (offset : Z) (payload : list Z) : res E Z :=
  if len payload =? 4 then Ok (from_le_bytes payload)
  else Err (InvalidRegisterPayload offset 4 (len payload)).

Definition driver_feature_word (d : VirtioRegs) : Z :=
  if d.(driver_feature_select) =? 0 then as_width 32 d.(driver_features)
  else if d.(driver_feature_select) =? 1 then as_width 32 (Z.shiftr d.(driver_features) 32)
  else 0.
Definition selected_queue_size (d : VirtioRegs) : Z :=
  if d.(queue_select) =? 0 then d.(queue_size) else 0.
Definition ensure_selected_queue (d : VirtioRegs) : res E unit :=
  err_if (negb (d.(queue_select) =? 0)) (UnsupportedQueue d.(queue_select)).
Definition ensure_queue_unlocked (d : VirtioRegs) : res E unit :=
  _ ← ensure_selected_queue d;
  err_if d.(queue_enabled) QueueConfigurationLocked.
Definition ensure_queue_ready (d : VirtioRegs) : res E unit :=
  err_if ((Z.land d.(status) VIRTIO_STATUS_DRIVER_OK =? 0)
          || (Z.land d.(status) VIRTIO_STATUS_FEATURES_OK =? 0)
          || negb (features_valid d.(driver_features))
          || negb d.(queue_enabled)
          || (d.(queue_desc) =? 0) || (d.(queue_driver) =? 0) || (d.(queue_device) =? 0))
    QueueNotReady.

Definition write_driver_feature_word (value : Z) : M unit :=
  d ← get;
  _ ← lift (err_if (negb (Z.land d.(status) VIRTIO_STATUS_FEATURES_OK =? 0))
              (InvalidDeviceStatus d.(status) d.(status)));
  if d.(driver_feature_select) =? 0 then
    modify (set_driver_features
      (Z.lor (Z.land d.(driver_features) (unot 64 0xffffffff)) value))
  else if d.(driver_feature_select) =? 1 then
    modify (set_driver_features
      (Z.lor (Z.land d.(driver_features) 0xffffffff) (Z.shiftl value 32)))
  else if value =? 0 then mret tt
  else throw (InvalidDeviceStatus d.(status) d.(status)).

Definition write_status (requested : Z) : M unit :=
  if requested =? 0 then modify reset else
  d ← get;
  let invalid := InvalidDeviceStatus d.(status) requested in
  _ ← lift (err_if (negb (Z.land requested (unot 8 VIRTIO_STATUS_KNOWN) =? 0)
                    || negb (Z.land requested d.(status) =? d.(status))) invalid);
  _ ← lift (err_if (negb (Z.land requested VIRTIO_STATUS_DRIVER =? 0)
                    && (Z.land requested VIRTIO_STATUS_ACKNOWLEDGE =? 0)) invalid);
  let wants_features := negb (Z.land requested VIRTIO_STATUS_FEATURES_OK =? 0) in
  _ ← lift (err_if (wants_features &&
        negb (Z.land requested (Z.lor VIRTIO_STATUS_ACKNOWLEDGE VIRTIO_STATUS_DRIVER) =?
              Z.lor VIRTIO_STATUS_ACKNOWLEDGE VIRTIO_STATUS_DRIVER)) invalid);
  if wants_features && negb (features_valid d.(driver_features)) then
    modify (set_status (Z.land requested (unot 8 VIRTIO_STATUS_FEATURES_OK)))
  else
    _ ← lift (err_if (negb (Z.land requested VIRTIO_STATUS_DRIVER_OK =? 0)
                      && ((Z.land requested VIRTIO_STATUS_FEATURES_OK =? 0)
                          || negb d.(queue_enabled))) invalid);
    modify (set_status requested).

Definition write_queue_size (size : Z) : M unit :=
  _ ← reading ensure_selected_queue;
  _ ← reading ensure_queue_unlocked;
  _ ← lift (err_if ((size =? 0) || (VIRTIO_QUEUE_MAX_SIZE <? size)
                    || negb (is_power_of_two size))
              (InvalidQueueSize size VIRTIO_QUEUE_MAX_SIZE));
  modify (set_queue_size size).

Definition write_queue_enable (value : Z) : M unit :=
  _ ← reading ensure_selected_queue;
  d ← get;
  if value =? 0 then modify (set_queue_enabled false)
  else if value =? 1 then
    _ ← lift (err_if ((d.(queue_desc) =? 0) || (d.(queue_driver) =? 0)
                      || (d.(queue_device) =? 0)) QueueNotReady);
    modify (set_queue_enabled true)
  else throw QueueNotReady.

(** The register arms of [read]; the ISR register is cleared by its read. *)
Definition virtio_read (offset length : Z) : M (list Z) :=
  d ← get;
  let at_ := arm offset length in
  if at_ COMMON_DEVICE_FEATURE_SELECT 4 then mret (to_le_bytes 4 d.(device_feature_select))
  else if at_ COMMON_DEVICE_FEATURE 4 then
    mret (to_le_bytes 4 (offered_feature_word d.(device_feature_select)))
  else if at_ COMMON_DRIVER_FEATURE_SELECT 4 then
    mret (to_le_bytes 4 d.(driver_feature_select))
  else if at_ COMMON_DRIVER_FEATURE 4 then mret (to_le_bytes 4 (driver_feature_word d))
  else if at_ COMMON_CONFIG_MSIX_VECTOR 2 then mret (to_le_bytes 2 U16_MAX)
  else if at_ COMMON_NUM_QUEUES 2 then mret (to_le_bytes 2 1)
  else if at_ COMMON_DEVICE_STATUS 1 then mret [d.(status)]
  else if at_ COMMON_CONFIG_GENERATION 1 then mret [0]
  else if at_ COMMON_QUEUE_SELECT 2 then mret (to_le_bytes 2 d.(queue_select))
  else if at_ COMMON_QUEUE_SIZE 2 then mret (to_le_bytes 2 (selected_queue_size d))
  else if at_ COMMON_QUEUE_MSIX_VECTOR 2 then mret (to_le_bytes 2 U16_MAX)
  else if at_ COMMON_QUEUE_ENABLE 2 then
    mret (to_le_bytes 2 (if d.(queue_enabled) then 1 else 0))
  else if at_ COMMON_QUEUE_NOTIFY_OFF 2 then mret (to_le_bytes 2 0)
  else if at_ COMMON_QUEUE_DESC 4 then mret (to_le_bytes 4 (as_width 32 d.(queue_desc)))
  else if at_ COMMON_QUEUE_DESC_HIGH 4 then
    mret (to_le_bytes 4 (as_width 32 (Z.shiftr d.(queue_desc) 32)))
  else if at_ COMMON_QUEUE_DRIVER 4 then mret (to_le_bytes 4 (as_width 32 d.(queue_driver)))
  else if at_ COMMON_QUEUE_DRIVER_HIGH 4 then
    mret (to_le_bytes 4 (as_width 32 (Z.shiftr d.(queue_driver) 32)))
  else if at_ COMMON_QUEUE_DEVICE 4 then mret (to_le_bytes 4 (as_width 32 d.(queue_device)))
  else if at_ COMMON_QUEUE_DEVICE_HIGH 4 then
    mret (to_le_bytes 4 (as_width 32 (Z.shiftr d.(queue_device) 32)))
  else if at_ VIRTIO_ISR_OFFSET 1 then
    _ ← modify (set_isr_status 0);
    mret [d.(isr_status)]
  else match config_register offset length with
  | Some bytes => mret bytes
  | None => throw (UnsupportedRegisterAccess offset length false)
  end.

(** A write to one half of a queue address register. *)
Definition write_queue_address (setter : Z → VirtioRegs → VirtioRegs)
    (replace : Z → Z → Z) (field : VirtioRegs → Z) (offset : Z) (payload : list Z)
    : M (option VirtioEvent) :=
  _ ← reading ensure_queue_unlocked;
  value ← lift (read_u32 offset payload);
  _ ← modify (λ d, setter (replace (field d) value) d);
  mret None.

Definition virtio_write (offset : Z) (payload : list Z) : M (option VirtioEvent) :=
  let at_ := arm offset (len payload) in
  if at_ COMMON_DEVICE_FEATURE_SELECT 4 then
    value ← lift (read_u32 offset payload);
    _ ← modify (set_device_feature_select value); mret None
  else if at_ COMMON_DRIVER_FEATURE_SELECT 4 then
    value ← lift (read_u32 offset payload);
    _ ← modify (set_driver_feature_select value); mret None
  else if at_ COMMON_DRIVER_FEATURE 4 then
    value ← lift (read_u32 offset payload);
    _ ← write_driver_feature_word value; mret None
  else if at_ COMMON_DEVICE_STATUS 1 then
    value ← lift (index payload 0);
    _ ← write_status value; mret None
  else if at_ COMMON_QUEUE_SELECT 2 then
    value ← lift (read_u16 offset payload);
    _ ← modify (set_queue_select value); mret None
  else if at_ COMMON_QUEUE_SIZE 2 then
    value ← lift (read_u16 offset payload);
    _ ← write_queue_size value; mret None
  else if at_ COMMON_QUEUE_ENABLE 2 then
    value ← lift (read_u16 offset payload);
    _ ← write_queue_enable value; mret None
  else if at_ COMMON_QUEUE_DESC 4 then
    write_queue_address set_queue_desc replace_low_u32 queue_desc offset payload
  else if at_ COMMON_QUEUE_DESC_HIGH 4 then
    write_queue_address set_queue_desc replace_high_u32 queue_desc offset payload
  else if at_ COMMON_QUEUE_DRIVER 4 then
    write_queue_address set_queue_driver replace_low_u32 queue_driver offset payload
  else if at_ COMMON_QUEUE_DRIVER_HIGH 4 then
    write_queue_address set_queue_driver replace_high_u32 queue_driver offset payload
  else if at_ COMMON_QUEUE_DEVICE 4 then
    write_queue_address set_queue_device replace_low_u32 queue_device offset payload
  else if at_ COMMON_QUEUE_DEVICE_HIGH 4 then
    write_queue_address set_queue_device replace_high_u32 queue_device offset payload
  else if at_ VIRTIO_NOTIFY_OFFSET 2 then
    queue ← lift (read_u16 offset payload);
    _ ← lift (err_if (negb (queue =? 0)) (UnexpectedQueueNotification queue));
    _ ← reading ensure_queue_ready;
    _ ← modify (set_notify_pending true);
    mret (Some (QueueNotified queue))
  else throw (UnsupportedRegisterAccess offset (len payload) true).

Definition checked_add (base offset : Z) : res E Z :=
  ok_or (Prelude.checked_add 64 base offset) (AddressOverflow base offset).
End transport.

(** ** The invariant of the register file

    Bits of [status]: 0 ACKNOWLEDGE, 1 DRIVER, 2 DRIVER_OK, 3 FEATURES_OK,
    7 FAILED. *)
Definition status_bit (s k : Z) : bool := Z.testbit s k.
Arguments status_bit : simpl never.
#[global] Arguments Z.testbit : simpl never.

Record regs_wf `{!VirtioFunction E} (d : VirtioRegs) : Prop := {
  wf_device_feature_select : u32 d.(device_feature_select);
  wf_driver_feature_select : u32 d.(driver_feature_select);
  wf_driver_features : u64 d.(driver_features);
  wf_status : u8 d.(status);
  wf_queue_select : u16 d.(queue_select);
  wf_queue_desc : u64 d.(queue_desc);
  wf_queue_driver : u64 d.(queue_driver);
  wf_queue_device : u64 d.(queue_device);
  wf_last_avail_idx : u16 d.(last_avail_idx);
  wf_last_used_idx : u16 d.(last_used_idx);
  wf_isr_status : d.(isr_status) = 0 ∨ d.(isr_status) = VIRTIO_ISR_QUEUE_INTERRUPT;
  (** The ring size is a power of two up to the maximum, never zero. *)
  wf_queue_size : d.(queue_size) ∈ [1; 2; 4; 8];
  (** Only known status bits are ever set. *)
  wf_status_known : Z.land d.(status) (unot 8 VIRTIO_STATUS_KNOWN) = 0;
  (** DRIVER is only set with ACKNOWLEDGE. *)
  wf_driver : status_bit d.(status) 1 = true → status_bit d.(status) 0 = true;
  (** FEATURES_OK is only set after both, and freezes a valid negotiation. *)
  wf_features_ok : status_bit d.(status) 3 = true →
    status_bit d.(status) 1 = true ∧ features_valid d.(driver_features) = true;
  (** An enabled queue has its three ring addresses. *)
  wf_queue_enabled : d.(queue_enabled) = true →
    d.(queue_desc) ≠ 0 ∧ d.(queue_driver) ≠ 0 ∧ d.(queue_device) ≠ 0;
  (** A notification is only pending on a device the driver brought up. *)
  wf_notify_pending : d.(notify_pending) = true →
    status_bit d.(status) 2 = true ∧ status_bit d.(status) 3 = true
}.
Arguments regs_wf {E _} d.

Lemma virtio_new_wf `{!VirtioFunction E} bar : regs_wf (virtio_new bar).
Proof.
  split; simpl; try done; try ulia; try (left; done).
  unfold VIRTIO_QUEUE_MAX_SIZE. do 3 apply list_elem_of_further. apply list_elem_of_here.
Qed.

(** * Bit-level facts *)
Lemma land_flag_eqb x k : 0 ≤ k → (Z.land x (2 ^ k) =? 0) = negb (Z.testbit x k).
Proof.
  intros Hk. destruct (Z.eqb_spec (Z.land x (2 ^ k)) 0) as [H|H].
  - assert (Z.testbit (Z.land x (2 ^ k)) k = false) as Hb by (rewrite H; apply Z.bits_0).
    rewrite Z.land_spec, Z.pow2_bits_true, andb_true_r in Hb by done. by rewrite Hb.
  - destruct (Z.testbit x k) eqn:E; [done|]. destruct H. apply Z.bits_inj'. intros i Hi.
    rewrite Z.land_spec, Z.bits_0. destruct (Z.eq_dec i k) as [->|].
    + by rewrite E.
    + by rewrite Z.pow2_bits_false, andb_false_r by congruence.
Qed.
Lemma land_submask x y k : Z.land x y = y → Z.testbit y k = true → Z.testbit x k = true.
Proof.
  intros H Hy. rewrite <- H, Z.land_spec in Hy. by apply andb_true_iff in Hy as [? _].
Qed.
Lemma land_clear w x f i : 0 ≤ i < w → Z.testbit (Z.land x (unot w f)) i = Z.testbit x i && negb (Z.testbit f i).
Proof. intros. by rewrite Z.land_spec, unot_testbit. Qed.
Lemma land_bound w x y : 0 ≤ w → in_width w x → 0 ≤ y → in_width w (Z.land x y).
Proof.
  intros Hw Hx Hy. split; [apply Z.land_nonneg; ulia|].
  destruct (Z.eq_dec (Z.land x y) 0) as [->|]; [lia|].
  assert (0 < Z.land x y) by (pose proof (proj2 (Z.land_nonneg x y)); ulia).
  apply Z.log2_lt_pow2; [done|].
  pose proof (Z.log2_land x y). destruct Hx as [Hx0 Hx1].
  destruct (Z.eq_dec x 0) as [->|]; [by rewrite Z.land_0_l in *|].
  apply Z.log2_lt_pow2 in Hx1; lia.
Qed.
Lemma lor_bound w x y : 0 ≤ w → in_width w x → in_width w y → in_width w (Z.lor x y).
Proof.
  intros Hw [Hx0 Hx1] [Hy0 Hy1]. split; [by apply Z.lor_nonneg|].
  destruct (Z.eq_dec (Z.lor x y) 0) as [->|]; [lia|].
  assert (0 < Z.lor x y) by (pose proof (proj2 (Z.lor_nonneg x y)); lia).
  apply Z.log2_lt_pow2; [done|]. rewrite Z.log2_lor by done.
  destruct (Z.eq_dec x 0) as [->|], (Z.eq_dec y 0) as [->|]; try (by rewrite Z.lor_0_l in *).
  - change (Z.log2 0) with 0. apply Z.log2_lt_pow2 in Hy1; [|lia]. pose proof (Z.log2_nonneg y). lia.
  - change (Z.log2 0) with 0. apply Z.log2_lt_pow2 in Hx1; [|lia]. pose proof (Z.log2_nonneg x). lia.
  - apply Z.log2_lt_pow2 in Hx1, Hy1; lia.
Qed.
Lemma unot_nonneg w a : 0 ≤ w → 0 ≤ a → 0 ≤ unot w a.
Proof. intros. unfold unot. apply Z.lxor_nonneg. rewrite Z.ones_equiv.
  pose proof (Z.pow_pos_nonneg 2 w). lia.
Qed.
Lemma shiftl_u32 v : u32 v → u64 (Z.shiftl v 32).
Proof. intros. rewrite Z.shiftl_mul_pow2 by lia. ulia. Qed.
Lemma replace_low_u32_bound x v : u64 x → u32 v → u64 (replace_low_u32 x v).
Proof. intros. apply lor_bound; [lia|apply land_bound; done || lia|ulia]. Qed.
Lemma replace_high_u32_bound x v : u64 x → u32 v → u64 (replace_high_u32 x v).
Proof. intros. apply lor_bound; [lia|apply land_bound; done || lia|by apply shiftl_u32]. Qed.
Lemma in_width_mono w w' x : w ≤ w' → in_width w x → in_width w' x.
Proof. intros Hw [??]. split; [done|]. pose proof (Z.pow_le_mono_r 2 w w'). lia. Qed.
#[export] Hint Resolve replace_low_u32_bound replace_high_u32_bound shiftl_u32 : bits.

(** * Every register access keeps the invariant *)
Section transport_proofs.
Context {E : Type} `{!VirtioFunction E}.

(** [safe m]: run on a well-formed device, [m] does not panic and leaves a
    well-formed device, whether it succeeds or fails. *)
Definition safe {A} (m : prog VirtioRegs E A) : Prop :=
  ∀ d, regs_wf d → regs_wf (m d).2 ∧ no_panic (m d).1.

Lemma safe_bind {A B} (m : prog VirtioRegs E A) (f : A → prog VirtioRegs E B) :
  safe m → (∀ a, safe (f a)) → safe (m ≫= f).
Proof.
  intros Hm Hf d Hd. destruct (Hm d Hd) as [Hd' Hp]. unfold mbind, prog_bind.
  destruct (m d) as [[a|e|] d']; simpl in *; [by apply Hf|done|done].
Qed.
Lemma safe_bind_lift {A B} (x : res E A) (f : A → prog VirtioRegs E B) :
  no_panic x → (∀ a, x = Ok a → safe (f a)) → safe (lift x ≫= f).
Proof. intros Hx Hf d Hd. rewrite prog_bind_lift. destruct x; [by apply Hf|done|done]. Qed.
Lemma safe_get {B} (f : VirtioRegs → prog VirtioRegs E B) :
  (∀ d, regs_wf d → regs_wf (f d d).2 ∧ no_panic (f d d).1) → safe (get ≫= f).
Proof. intros H d Hd. by apply H. Qed.
Lemma safe_ret {A} (a : A) : safe (mret a).
Proof. by intros d Hd. Qed.
Lemma safe_throw {A} (e : E) : safe (A:=A) (throw e).
Proof. by intros d Hd. Qed.
Lemma safe_reading {A} (f : VirtioRegs → res E A) : (∀ d, no_panic (f d)) → safe (reading f).
Proof. intros H d Hd. by split; [|apply H]. Qed.
Lemma safe_modify f : (∀ d, regs_wf d → regs_wf (f d)) → safe (modify f).
Proof. intros H d Hd. split; [by apply H|done]. Qed.

Lemma no_panic_read_u16 o p : no_panic (read_u16 o p).
Proof. unfold read_u16. by case_match. Qed.
Lemma no_panic_read_u32 o p : no_panic (read_u32 o p).
Proof. unfold read_u32. by case_match. Qed.
Lemma payload_u16_inv o p v : bytes_ok p → read_u16 o p = Ok v → u16 v.
Proof.
  unfold read_u16. intros Hp. case_match eqn:Hl; [|done]. intros [= <-]. res_simplify.
  apply from_le_bytes_bound in Hp. by rewrite Hl in Hp.
Qed.
Lemma payload_u32_inv o p v : bytes_ok p → read_u32 o p = Ok v → u32 v.
Proof.
  unfold read_u32. intros Hp. case_match eqn:Hl; [|done]. intros [= <-]. res_simplify.
  apply from_le_bytes_bound in Hp. by rewrite Hl in Hp.
Qed.
Lemma no_panic_ensure_selected_queue d : no_panic (ensure_selected_queue d).
Proof. apply no_panic_err_if. Qed.
Lemma no_panic_ensure_queue_unlocked d : no_panic (ensure_queue_unlocked d).
Proof. apply no_panic_bind; intros; apply no_panic_err_if. Qed.
Lemma no_panic_ensure_queue_ready d : no_panic (ensure_queue_ready d).
Proof. apply no_panic_err_if. Qed.

(** A ready queue: DRIVER_OK and FEATURES_OK over a valid negotiation, and
    an enabled queue with its three ring addresses. *)
Definition queue_ready (d : VirtioRegs) : Prop :=
  status_bit d.(status) 2 = true ∧ status_bit d.(status) 3 = true ∧
  features_valid d.(driver_features) = true ∧ d.(queue_enabled) = true ∧
  d.(queue_desc) ≠ 0 ∧ d.(queue_driver) ≠ 0 ∧ d.(queue_device) ≠ 0.
Lemma ensure_queue_ready_ok d : ensure_queue_ready d = Ok tt ↔ queue_ready d.
Proof.
  unfold ensure_queue_ready, queue_ready, status_bit.
  change VIRTIO_STATUS_DRIVER_OK with (2 ^ 2). change VIRTIO_STATUS_FEATURES_OK with (2 ^ 3).
  rewrite !land_flag_eqb by lia. unfold err_if.
  destruct (Z.testbit (status d) 2), (Z.testbit (status d) 3), (features_valid _),
    (queue_enabled d), (Z.eqb_spec (queue_desc d) 0), (Z.eqb_spec (queue_driver d) 0),
    (Z.eqb_spec (queue_device d) 0); simpl; naive_solver.
Qed.

Lemma write_driver_feature_word_safe v : u32 v → safe (write_driver_feature_word v).
Proof.
  intros Hv. apply safe_get. intros d Hd. rewrite prog_bind_lift.
  change VIRTIO_STATUS_FEATURES_OK with (2 ^ 3). rewrite land_flag_eqb by lia.
  destruct (Z.testbit (status d) 3) eqn:Hf; [done|]. cbn [negb err_if].
  assert (∀ x, u64 x → regs_wf (set_driver_features x d)) as Hset.
  { intros x Hx. destruct Hd. split; simpl; try done. unfold status_bit. intros; congruence. }
  pose proof (wf_driver_features _ Hd).
  repeat case_match; try done; (split; [apply Hset|done]).
  - apply lor_bound; [lia|apply land_bound; [lia|done|by apply unot_nonneg]|ulia].
  - apply lor_bound; [lia|by apply land_bound|by apply shiftl_u32].
Qed.

Lemma set_status_wf d s :
  regs_wf d → u8 s → Z.land s (unot 8 VIRTIO_STATUS_KNOWN) = 0 →
  (Z.testbit s 1 = true → Z.testbit s 0 = true) →
  (Z.testbit s 3 = true → Z.testbit s 1 = true ∧ features_valid d.(driver_features) = true) →
  (d.(notify_pending) = true → Z.testbit s 2 = true ∧ Z.testbit s 3 = true) →
  regs_wf (set_status s d).
Proof. intros [] ?????. by split. Qed.

Lemma write_status_safe v : u8 v → safe (write_status v).
Proof.
  intros Hv. unfold write_status. case_match.
  { apply safe_modify. intros. apply virtio_new_wf. }
  apply safe_get. intros d Hd. cbv zeta.
  change VIRTIO_STATUS_DRIVER_OK with (2 ^ 2). change VIRTIO_STATUS_FEATURES_OK with (2 ^ 3).
  change VIRTIO_STATUS_DRIVER with (2 ^ 1). change VIRTIO_STATUS_ACKNOWLEDGE with (2 ^ 0).
  rewrite !land_flag_eqb by lia. rewrite prog_bind_err_if.
  case_match eqn:Hmask; [done|]. apply orb_false_iff in Hmask as [Hknown Hmono]. res_simplify.
  rewrite prog_bind_err_if. case_match eqn:Hack; [done|].
  rewrite prog_bind_err_if. case_match eqn:Hboth; [done|].
  assert (Z.testbit v 1 = true → Z.testbit v 0 = true) as H10.
  { intros H1. rewrite H1 in Hack. by destruct (Z.testbit v 0). }
  assert (Z.testbit v 3 = true → Z.testbit v 1 = true) as H31.
  { intros H3. rewrite H3 in Hboth. cbn [negb andb] in Hboth. res_simplify.
    by apply (land_submask v (Z.lor (2 ^ 0) (2 ^ 1))). }
  assert (∀ k, Z.testbit (status d) k = true → Z.testbit v k = true) as Hm
    by (intros k; by apply land_submask).
  case_match eqn:Hfeat; res_simplify.
  - split; [|done]. apply set_status_wf; [done|apply land_bound; [lia|done|by apply unot_nonneg]|..].
    + by rewrite (Z.land_comm v), <- Z.land_assoc, Hknown, Z.land_0_r.
    + rewrite !land_clear by lia. change (Z.testbit (2 ^ 3) 1) with false.
      change (Z.testbit (2 ^ 3) 0) with false. by rewrite !andb_true_r.
    + rewrite land_clear by lia. change (Z.testbit (2 ^ 3) 3) with true. by rewrite andb_false_r.
    + intros Hn. exfalso. destruct (wf_notify_pending _ Hd Hn) as [_ H3].
      apply (wf_features_ok _ Hd) in H3 as [_ ?]. congruence.
  - rewrite prog_bind_err_if. case_match; [done|]. split; [|done].
    apply set_status_wf; [done|done|done|done| |].
    + intros H3. split; [auto|]. rewrite negb_involutive, H3 in Hfeat. cbn [andb] in Hfeat.
      by apply negb_false_iff in Hfeat.
    + intros Hn. apply (wf_notify_pending _ Hd) in Hn as [??]. split; by apply Hm.
Qed.

Lemma write_queue_size_safe v : u16 v → safe (write_queue_size v).
Proof.
  intros Hv. apply safe_bind; [apply safe_reading, no_panic_ensure_selected_queue|intros _].
  apply safe_bind; [apply safe_reading, no_panic_ensure_queue_unlocked|intros _].
  apply safe_bind_lift; [apply no_panic_err_if|]. intros [] H. res_simplify.
  unfold VIRTIO_QUEUE_MAX_SIZE in *.
  assert (v ∈ [1; 2; 4; 8]) as Hin.
  { assert (v = 1 ∨ v = 2 ∨ v = 3 ∨ v = 4 ∨ v = 5 ∨ v = 6 ∨ v = 7 ∨ v = 8) as Hc by ulia.
    rewrite !elem_of_cons. destruct Hc as [->|[->|[->|[->|[->|[->|[->| ->]]]]]]];
      try (by vm_compute in H); auto. }
  apply safe_modify. intros d []. by split.
Qed.
Lemma write_queue_enable_safe v : safe (write_queue_enable v).
Proof.
  apply safe_bind; [apply safe_reading, no_panic_ensure_selected_queue|intros _].
  apply safe_get. intros d Hd. case_match; [split; [destruct Hd; by split|done]|].
  case_match; [|done]. rewrite prog_bind_err_if. case_match eqn:Hz; [done|].
  split; [|done]. res_simplify. destruct Hd; split; try done.
Qed.
Lemma write_queue_address_safe setter replace field o p :
  bytes_ok p →
  (∀ d v, regs_wf d → d.(queue_enabled) = false → u32 v → regs_wf (setter (replace (field d) v) d)) →
  safe (write_queue_address setter replace field o p).
Proof.
  intros Hp Hset d Hd. unfold write_queue_address, mbind, prog_bind, reading, lift.
  destruct (ensure_queue_unlocked d) as [[]| |] eqn:Hu; [|done|].
  2: { by destruct (no_panic_ensure_queue_unlocked d). }
  destruct (read_u32 o p) as [v| |] eqn:Hr; [|done|by destruct (no_panic_read_u32 o p)].
  simpl. split; [|done]. apply payload_u32_inv in Hr; [|done]. apply Hset; [done| |done].
  unfold ensure_queue_unlocked in Hu. by bind_inv Hu.
Qed.

Lemma virtio_write_safe offset payload : bytes_ok payload → safe (virtio_write offset payload).
Proof.
  intros Hp. unfold virtio_write. cbv zeta.
  assert (∀ {B} (f : Z → prog VirtioRegs E B), (∀ v, u16 v → safe (f v)) →
    safe (lift (read_u16 offset payload) ≫= f)) as H16.
  { intros B f Hf. apply safe_bind_lift; [apply no_panic_read_u16|].
    intros v Hv. apply payload_u16_inv in Hv; [|done]. by apply Hf. }
  assert (∀ {B} (f : Z → prog VirtioRegs E B), (∀ v, u32 v → safe (f v)) →
    safe (lift (read_u32 offset payload) ≫= f)) as H32.
  { intros B f Hf. apply safe_bind_lift; [apply no_panic_read_u32|].
    intros v Hv. apply payload_u32_inv in Hv; [|done]. by apply Hf. }
  assert (∀ (m : prog VirtioRegs E unit), safe m → safe (_ ← m; mret (None : option VirtioEvent)))
    as Hend by (intros m Hm; apply safe_bind; [done|intros; apply safe_ret]).
  case_match. { apply H32. intros v Hv. apply Hend, safe_modify. intros d []; by split. }
  case_match. { apply H32. intros v Hv. apply Hend, safe_modify. intros d []; by split. }
  case_match. { apply H32. intros v Hv. by apply Hend, write_driver_feature_word_safe. }
  case_match eqn:Hst.
  { unfold arm in Hst. res_simplify. apply safe_bind_lift.
    - destruct (index_ok (E:=E) payload 0) as (x&->&_); [lia|done].
    - intros v Hv. apply Hend, write_status_safe. unfold index in Hv. case_match; [|done].
      apply expect_Ok_inv in Hv. by apply (Forall_lookup_1 _ _ _ _ Hp Hv). }
  case_match. { apply H16. intros v Hv. apply Hend, safe_modify. intros d []; by split. }
  case_match. { apply H16. intros v Hv. by apply Hend, write_queue_size_safe. }
  case_match. { apply H16. intros v Hv. by apply Hend, write_queue_enable_safe. }
  do 6 (case_match;
    [apply write_queue_address_safe; [done|];
     intros d v [] He Hv; split; simpl; eauto with bits; congruence|]).
  case_match; [|apply safe_throw].
  apply H16. intros q Hq. apply safe_bind_lift; [apply no_panic_err_if|intros _ _].
  intros d Hd. unfold mbind, prog_bind, reading.
  destruct (ensure_queue_ready d) as [[]| |] eqn:Hr; [|done|by destruct (no_panic_ensure_queue_ready d)].
  simpl. split; [|done]. apply ensure_queue_ready_ok in Hr as (?&?&_). destruct Hd; by split.
Qed.

Lemma enable_write_ok d :
  d.(queue_select) = 0 → d.(queue_desc) ≠ 0 → d.(queue_driver) ≠ 0 → d.(queue_device) ≠ 0 →
  virtio_write COMMON_QUEUE_ENABLE (to_le_bytes 2 1) d = (Ok None, set_queue_enabled true d).
Proof.
  intros Hs H1 H2 H3.
  change (virtio_write COMMON_QUEUE_ENABLE (to_le_bytes 2 1) d)
    with ((_ ← write_queue_enable 1; mret (None : option VirtioEvent)) d).
  erewrite prog_bind_step; [done|]. unfold write_queue_enable.
  erewrite prog_bind_step by (unfold reading, ensure_selected_queue; by rewrite Hs).
  erewrite prog_bind_step by done. cbv beta. change (1 =? 0) with false. cbv iota.
  change (1 =? 1) with true. cbv iota. rewrite prog_bind_err_if. by zcmp.
Qed.
Lemma notify_write_ok d :
  queue_ready d →
  virtio_write VIRTIO_NOTIFY_OFFSET (to_le_bytes 2 0) d =
    (Ok (Some (QueueNotified 0)), set_notify_pending true d).
Proof.
  intros Hr%ensure_queue_ready_ok.
  change (virtio_write VIRTIO_NOTIFY_OFFSET (to_le_bytes 2 0) d)
    with ((_ ← reading ensure_queue_ready; _ ← modify (set_notify_pending true);
           mret (Some (QueueNotified 0))) d).
  erewrite prog_bind_step by (unfold reading; by rewrite Hr). done.
Qed.

Lemma virtio_read_safe offset length : safe (virtio_read offset length).
Proof.
  apply safe_get. intros d Hd. cbv zeta. repeat case_match; try done.
  split; [|done]. destruct Hd; split; simpl; auto.
Qed.
End transport_proofs.

(** * Devices with guest memory

    Queue processing runs on a device and the guest RAM together. *)
Section guest_access.
Context {D E : Type} (inject : Error → E).

(** [memory.write(..)?] of a processing function. *)
Definition guest_write (a : Z) (bs : list Z) : prog (D * GuestMemory) E unit := λ s,
  match write s.2 a bs with
  | Ok m' => (Ok tt, (s.1, m'))
  | Err e => (Err (inject e), s)
  | Panic => (Panic, s)
  end.
(** [read_guest_u16]. *)
Definition read_guest_u16 (m : GuestMemory) (a : Z) : res E Z :=
  from_le_bytes <$> map_err inject (read m a 2).

Lemma runs_guest_write d m a bs Q X :
  memory_wf m → 0 ≤ a → bytes_ok bs →
  (in_region m.(region) a (len bs) → Q tt (d, mem_set m a bs)) →
  (∀ e, ¬ in_region m.(region) a (len bs) → X (inject e) (d, m)) →
  runs (guest_write a bs) (d, m) Q X.
Proof.
  intros Hm Ha Hbs HQ HX. unfold runs, guest_write. cbn [fst snd].
  pose proof (no_panic_write m a bs Hm) as Hnp.
  destruct (write m a bs) as [m1|e|] eqn:Hw; [|apply HX|done].
  - apply write_inv in Hw as [Hin ->]; auto.
  - intros Hin. by rewrite write_ok in Hw.
Qed.
Lemma guest_write_ok d m a bs :
  memory_wf m → in_region m.(region) a (len bs) →
  guest_write a bs (d, m) = (Ok tt, (d, mem_set m a bs)).
Proof. intros Hm Hin. unfold guest_write. simpl. by rewrite write_ok. Qed.
Lemma no_panic_read_guest_u16 m a : memory_wf m → no_panic (read_guest_u16 m a).
Proof.
  intros Hm. unfold read_guest_u16. pose proof (no_panic_read m a 2 Hm ltac:(lia)).
  by destruct (read m a 2).
Qed.
Lemma read_guest_u16_inv m a v :
  memory_wf m → 0 ≤ a → read_guest_u16 m a = Ok v →
  u16 v ∧ in_region m.(region) a 2 ∧ v = from_le_bytes (mem_get m a 2).
Proof.
  intros Hm Ha H. unfold read_guest_u16 in H. bind_inv H.
  apply read_inv in H as [Hin ->]; [|done|done|lia]. subst v.
  split; [|done]. pose proof (mem_get_ok m a 2 Hm) as Hok.
  apply from_le_bytes_bound in Hok. by rewrite len_mem_get in Hok by lia.
Qed.
Lemma read_guest_u16_ok m a :
  memory_wf m → in_region m.(region) a 2 →
  read_guest_u16 m a = Ok (from_le_bytes (mem_get m a 2)).
Proof. intros. unfold read_guest_u16. by rewrite read_ok by (done || lia). Qed.
End guest_access.
#[export] Hint Resolve no_panic_read_guest_u16 : panics.

(** A ring slot is inside the ring, and ring sizes divide the index space. *)
Lemma ring_slot_bound i n : n ∈ [1; 2; 4; 8] → 0 ≤ i → 0 ≤ i mod n < n ∧ 0 < n ≤ 8.
Proof.
  rewrite !elem_of_cons, elem_of_nil. intros [->|[->|[->|[->|[]]]]] ?; split; try lia; dlia.
Qed.
Lemma wrapping_succ_u16 i : u16 (wrapping_add 16 i 1).
Proof. unfold wrapping_add. pose proof (Z.mod_pos_bound (i + 1) (2 ^ 16)). ulia. Qed.

(** The end of a completed request: indices, notification and interrupt. *)
Definition complete_request (avail_idx next_used : Z) (d : VirtioRegs) : VirtioRegs :=
  set_isr_status (Z.lor d.(isr_status) VIRTIO_ISR_QUEUE_INTERRUPT)
    (set_notify_pending false (set_last_used_idx next_used (set_last_avail_idx avail_idx d))).
Lemma complete_request_wf `{!VirtioFunction E} d a n :
  regs_wf d → u16 a → u16 n → regs_wf (complete_request a n d).
Proof.
  intros [] Ha Hn. split; simpl; try done.
  destruct wf_isr_status0 as [->| ->]; by right.
Qed.

(** * Reasoning about ring accesses *)
Lemma virtio_checked_add_inv {E} `{!VirtioFunction E} b o a :
  checked_add b o = Ok a → a = b + o ∧ b + o < 2 ^ 64.
Proof. intros H%ok_or_Ok_inv. by apply checked_add_Some. Qed.
Lemma from_le_slice_bound {E} bs a b v :
  bytes_ok bs → 0 ≤ a → from_le_bytes <$> slice (E:=E) bs a b = Ok v → in_width (8 * (b - a)) v.
Proof.
  intros Hbs Ha H. bind_inv H. subst v. pose proof (bytes_ok_slice _ _ _ _ Hbs H) as Hok.
  apply len_slice in H; [|done]. apply from_le_bytes_bound in Hok. by rewrite H in Hok.
Qed.
#[export] Hint Extern 3 (no_panic (ensure_queue_ready _)) =>
  apply no_panic_ensure_queue_ready : panics.
#[export] Hint Extern 3 (no_panic (checked_add _ _)) => apply no_panic_ok_or : panics.
#[export] Hint Extern 3 (no_panic (read _ _ _)) => apply no_panic_read; [assumption|np_side] : panics.
#[export] Hint Extern 4 (no_panic (slice (mem_get _ _ _) _ _)) =>
  apply no_panic_slice; rewrite ?len_mem_get; np_side : panics.

(** [guest_inv] turns successful guest reads into what they read, [regs_facts]
    states the integer types of a device's queue registers and the bounds of
    its ring slots, and [np_guest] is [np_step] with both. *)
Ltac guest_inv :=
  repeat match goal with
  | H : checked_add _ _ = Ok _ |- _ => apply virtio_checked_add_inv in H as [? ?]; subst
  | H : read_guest_u16 _ _ _ = Ok _ |- _ =>
      apply read_guest_u16_inv in H as (?&?&?); [|assumption|ulia]
  | H : map_err _ _ = Ok _ |- _ => apply map_err_Ok_inv in H
  | H : ensure_queue_ready _ = Ok _ |- _ => apply ensure_queue_ready_ok in H
  | H : read _ _ _ = Ok _ |- _ => apply read_inv in H as [? ->]; [|assumption|ulia|lia]
  end.
Ltac regs_facts Hd :=
  pose proof (wf_queue_device _ Hd); pose proof (wf_queue_driver _ Hd);
  pose proof (wf_queue_desc _ Hd); pose proof (wf_last_avail_idx _ Hd);
  pose proof (wf_last_used_idx _ Hd);
  let d := lazymatch type of Hd with regs_wf ?d => d end in
  destruct (ring_slot_bound d.(last_avail_idx) d.(queue_size) (wf_queue_size _ Hd))
    as [? ?]; [ulia|];
  destruct (ring_slot_bound d.(last_used_idx) d.(queue_size) (wf_queue_size _ Hd))
    as [? _]; [ulia|].
Ltac np_guest := np_step; guest_inv.
