(* ===== verification/VirtioRng.v ===== *)
(** The virtio-rng function of [src/src/pci/virtio.rs]: its register file is an
    instance of the shared transport; its request queue fills one guest
    buffer per notification. *)

From S2P Require Import Prelude Errors Memory VirtioCommon.

Definition VIRTIO_RNG_TEST_PAYLOAD : list Z := [0x52; 0x4e; 0x47; 0x44; 0x41; 0x54; 0x41; 0x21].

(** [device_feature_word]. *)
Definition rng_device_feature_word (select : Z) : Z :=
  if select =? 1 then as_width 32 (Z.shiftr VIRTIO_F_VERSION_1 32) else 0.

#[global] Instance rng_function : VirtioFunction VirtioRngError := {|
  UnsupportedRegisterAccess := RngUnsupportedRegisterAccess;
  InvalidRegisterPayload := RngInvalidRegisterPayload;
  InvalidDeviceStatus := RngInvalidDeviceStatus;
  UnsupportedQueue := RngUnsupportedQueue;
  InvalidQueueSize := RngInvalidQueueSize;
  QueueConfigurationLocked := RngQueueConfigurationLocked;
  QueueNotReady := RngQueueNotReady;
  UnexpectedQueueNotification := RngUnexpectedQueueNotification;
  AddressOverflow := RngAddressOverflow;
  offered_feature_word := rng_device_feature_word;
  features_valid := λ f, f =? VIRTIO_F_VERSION_1;
  config_register := λ _ _, None
|}.

(** [VirtioRngDevice]. *)
Abbreviation VirtioRngDevice := VirtioRegs (only parsing).
Definition rng_new : Z → VirtioRngDevice := virtio_new.
Definition rng_read : Z → Z → prog VirtioRngDevice VirtioRngError (list Z) := virtio_read.
Definition rng_write : Z → list Z → prog VirtioRngDevice VirtioRngError (option VirtioEvent) :=
  virtio_write.

Inductive VirtioRngProcessError :=
  | RngDevice (e : VirtioRngError)
  | RngMemory (e : Error).

Record VirtioRngQueueCompletion := mkRngCompletion {
  rng_descriptor_id : Z;
  rng_length : Z
}.

(** The checks of [process_notified_queue] up to its first write: the
    available index, the descriptor head and the buffer it describes. *)
Definition rng_take_request (d : VirtioRngDevice) (m : GuestMemory)
    : res VirtioRngProcessError (Z * Z * Z) :=
  _ ← map_err RngDevice (ensure_queue_ready d);
  _ ← err_if (negb d.(notify_pending)) (RngDevice RngQueueNotReady);
  avail_address ← map_err RngDevice (checked_add d.(queue_driver) 2);
  avail_idx ← read_guest_u16 RngMemory m avail_address;
  let expected_avail := wrapping_add 16 d.(last_avail_idx) 1 in
  _ ← err_if (negb (avail_idx =? expected_avail))
        (RngDevice (RngUnexpectedAvailIndex expected_avail avail_idx));
  slot ← urem d.(last_avail_idx) d.(queue_size);
  ring_offset ← umul 64 2 slot;
  ring_offset ← uadd 64 4 ring_offset;
  head_address ← map_err RngDevice (checked_add d.(queue_driver) ring_offset);
  head ← read_guest_u16 RngMemory m head_address;
  _ ← err_if (d.(queue_size) <=? head)
        (RngDevice (RngDescriptorIndexOutOfRange head d.(queue_size)));
  scaled ← umul 64 16 head;
  descriptor_address ← map_err RngDevice (checked_add d.(queue_desc) scaled);
  descriptor ← map_err RngMemory (read m descriptor_address 16);
  buffer_address ← from_le_bytes <$> slice descriptor 0 8;
  buffer_length ← from_le_bytes <$> slice descriptor 8 12;
  flags ← from_le_bytes <$> slice descriptor 12 14;
  _ ← err_if (negb (flags =? VIRTQ_DESC_F_WRITE)) (RngDevice (RngUnsupportedDescriptorFlags flags));
  required ← expect (try_from 32 (len VIRTIO_RNG_TEST_PAYLOAD));
  _ ← err_if (buffer_length <? required) (RngDevice (RngDescriptorTooSmall buffer_length required));
  used_address ← map_err RngDevice (checked_add d.(queue_device) 2);
  used_idx ← read_guest_u16 RngMemory m used_address;
  _ ← err_if (negb (used_idx =? d.(last_used_idx)))
        (RngDevice (RngUnexpectedUsedIndex d.(last_used_idx) used_idx));
  Ok (avail_idx, head, buffer_address).

(** [VirtioRngDevice::process_notified_queue]. *)
Definition rng_process_notified_queue
    : prog (VirtioRngDevice * GuestMemory) VirtioRngProcessError VirtioRngQueueCompletion :=
  '(d, m) ← get;
  '(avail_idx, head, buffer_address) ← lift (rng_take_request d m);
  let required := len VIRTIO_RNG_TEST_PAYLOAD in
  _ ← guest_write RngMemory buffer_address VIRTIO_RNG_TEST_PAYLOAD;
  used_slot ← lift (urem d.(last_used_idx) d.(queue_size));
  scaled ← lift (umul 64 8 used_slot);
  scaled ← lift (uadd 64 4 scaled);
  used_element ← lift (map_err RngDevice (checked_add d.(queue_device) scaled));
  _ ← guest_write RngMemory used_element (to_le_bytes 4 head ++ to_le_bytes 4 required);
  let next_used := wrapping_add 16 d.(last_used_idx) 1 in
  used_address ← lift (map_err RngDevice (checked_add d.(queue_device) 2));
  _ ← guest_write RngMemory used_address (to_le_bytes 2 next_used);
  _ ← modify (λ s, (complete_request avail_idx next_used s.1, s.2));
  mret (mkRngCompletion head required).

(** * Processing a request *)

#[local] Hint Extern 3 (no_panic (expect (try_from 32 (len VIRTIO_RNG_TEST_PAYLOAD)))) =>
  done : panics.

Lemma no_panic_rng_take_request d m :
  regs_wf d → memory_wf m → no_panic (rng_take_request d m).
Proof.
  intros Hd Hm. unfold rng_take_request.
  regs_facts Hd. do 4 np_guest. cbv zeta. repeat np_guest. done.
Qed.

(** What a request that passes the checks looks like. *)
Definition rng_request_ok (d : VirtioRngDevice) (m : GuestMemory) (avail_idx head buffer : Z)
    : Prop :=
  queue_ready d ∧ d.(notify_pending) = true ∧
  avail_idx = wrapping_add 16 d.(last_avail_idx) 1 ∧ 0 ≤ head < d.(queue_size) ∧ u64 buffer ∧
  from_le_bytes (mem_get m (d.(queue_device) + 2) 2) = d.(last_used_idx) ∧
  in_region m.(region) (d.(queue_device) + 2) 2.

Lemma rng_take_request_inv d m a h b :
  regs_wf d → memory_wf m → rng_take_request d m = Ok (a, h, b) → rng_request_ok d m a h b.
Proof.
  intros Hd Hm H. unfold rng_take_request in H. regs_facts Hd. bind_inv H. arith_inv.
  guest_inv. simplify_eq. unfold rng_request_ok. split_and!; try done; try ulia; try congruence.
  all: match goal with H : _ <$> slice _ 0 8 = Ok _ |- _ =>
    apply from_le_slice_bound in H; [ulia|by apply mem_get_ok|lia] end.
Qed.

(** The guest RAM after a completed request. *)
Definition rng_completed_memory (d : VirtioRngDevice) (m : GuestMemory) (head buffer : Z)
    : GuestMemory :=
  mem_set
    (mem_set (mem_set m buffer VIRTIO_RNG_TEST_PAYLOAD)
       (d.(queue_device) + (4 + 8 * (d.(last_used_idx) mod d.(queue_size))))
       (to_le_bytes 4 head ++ to_le_bytes 4 (len VIRTIO_RNG_TEST_PAYLOAD)))
    (d.(queue_device) + 2) (to_le_bytes 2 (wrapping_add 16 d.(last_used_idx) 1)).

(** Memory that may only have changed at the request's buffer and used ring. *)
Definition rng_touches (d : VirtioRngDevice) (buffer x : Z) : Prop :=
  buffer ≤ x < buffer + 8 ∨
  d.(queue_device) + 2 ≤ x < d.(queue_device) + 4 + 8 * d.(queue_size).

Lemma rng_process_runs d m :
  regs_wf d → memory_wf m →
  runs rng_process_notified_queue (d, m)
    (λ c '(d', m'), ∃ avail_idx buffer,
       rng_request_ok d m avail_idx c.(rng_descriptor_id) buffer ∧
       c.(rng_length) = len VIRTIO_RNG_TEST_PAYLOAD ∧
       m' = rng_completed_memory d m c.(rng_descriptor_id) buffer ∧ memory_wf m' ∧
       d' = complete_request avail_idx (wrapping_add 16 d.(last_used_idx) 1) d ∧ regs_wf d' ∧
       read_guest_u16 RngMemory m' (d.(queue_device) + 2) = Ok d'.(last_used_idx))
    (λ e '(d', m'), d' = d ∧ memory_wf m' ∧ m'.(region) = m.(region) ∧
       (m' = m ∨ ∃ avail_idx head buffer, rng_request_ok d m avail_idx head buffer ∧
          ∀ x, ¬ rng_touches d buffer x → byte_at m' x = byte_at m x)).
Proof.
  intros Hd Hm. regs_facts Hd. unfold rng_process_notified_queue.
  apply runs_bind, runs_get, runs_bind, runs_lift; [by apply no_panic_rng_take_request| |].
  2: { intros; by eauto. }
  intros [[avail head] buffer] Hreq%rng_take_request_inv; [|done|done].
  pose proof Hreq as (_&_&_&Hhead&Hbuf&_&Hin2).
  assert (bytes_ok VIRTIO_RNG_TEST_PAYLOAD) as Hpay by (repeat constructor; ulia).
  change (len VIRTIO_RNG_TEST_PAYLOAD) with 8 in *.
  apply runs_bind, runs_guest_write; [done|ulia|done|intros Hin1|by eauto].
  eapply runs_lift_ok; [apply urem_ok; lia|].
  eapply runs_lift_ok; [apply umul_ok; lia|].
  eapply runs_lift_ok; [apply uadd_ok; lia|].
  set (m1 := mem_set m buffer VIRTIO_RNG_TEST_PAYLOAD).
  assert (memory_wf m1) as Hm1 by (by apply mem_set_wf).
  assert (∀ x, ¬ rng_touches d buffer x → byte_at m1 x = byte_at m x) as Hout1.
  { intros x Hx. unfold rng_touches in Hx. apply byte_at_set_out.
    change (len VIRTIO_RNG_TEST_PAYLOAD) with 8. lia. }
  apply runs_bind, runs_lift; [auto with panics| |].
  2: { intros e He. split_and!; [done|done|by unfold m1; rewrite mem_set_region|].
       right. by exists avail, head, buffer. }
  intros used_element Hu. guest_inv.
  set (element := to_le_bytes 4 head ++ to_le_bytes 4 8).
  apply runs_bind, runs_guest_write; [done|ulia|apply bytes_ok_app; apply to_le_bytes_ok|intros Hin3|].
  2: { intros e He. split_and!; [done|done|by unfold m1; rewrite mem_set_region|].
       right. by exists avail, head, buffer. }
  unfold m1 in Hin3. rewrite mem_set_region in Hin3. fold m1 in Hin3.
  set (m2 := mem_set m1 _ _).
  assert (memory_wf m2) as Hm2 by (apply mem_set_wf; [done|apply bytes_ok_app; apply to_le_bytes_ok]).
  apply runs_bind, runs_lift; [auto with panics| |].
  2: { intros e He. exfalso. apply map_err_Err_inv in He as (e'&He&_).
       unfold checked_add in He. unfold in_region in Hin2. destruct Hm as [(?&?&?&?&?) _].
       rewrite (proj2 (checked_add_Some 64 (queue_device d) 2 _)) in He by (split; [done|lia]).
       done. }
  intros used_address Hu. guest_inv.
  apply runs_bind. unfold runs.
  rewrite guest_write_ok;
    [|done|unfold m2, m1; rewrite !mem_set_region; by rewrite len_to_le_bytes].
  cbn [modify mbind prog_bind mret prog_ret fst snd].
  exists avail, buffer. cbn [rng_descriptor_id rng_length fst snd].
  split_and!; try done.
  - apply mem_set_wf; [done|apply to_le_bytes_ok].
  - apply complete_request_wf; [done| |apply wrapping_succ_u16].
    destruct Hreq as (_&_&->&_). apply wrapping_succ_u16.
  - cbn [fst snd]. rewrite read_guest_u16_ok.
    + rewrite mem_get_set_len by apply len_to_le_bytes.
      rewrite from_to_le_bytes; [done|apply wrapping_succ_u16].
    + apply mem_set_wf; [done|apply to_le_bytes_ok].
    + unfold m2, m1. by rewrite !mem_set_region.
Qed.


(** A concrete request: one descriptor for an eight-byte buffer at 0x200300. *)
Definition rng_demo_device : VirtioRngDevice :=
  mkRegs 0x10000000 0 1 VIRTIO_F_VERSION_1 15 0 8 true 0x200000 0x200100 0x200200 true 0 0 0.
Definition rng_demo_memory : GuestMemory :=
  mem_set (mem_set example_memory 0x200000
             (to_le_bytes 8 0x200300 ++ to_le_bytes 4 8 ++ to_le_bytes 2 2 ++ to_le_bytes 2 0))
    0x200102 (to_le_bytes 2 1).
Lemma rng_demo_device_wf : regs_wf rng_demo_device.
Proof.
  split; simpl; try done; try ulia; try (by left); try (by split_and!); try (by vm_compute).
  do 3 apply list_elem_of_further. apply list_elem_of_here.
Qed.
Lemma rng_demo_memory_wf : memory_wf rng_demo_memory.
Proof. repeat (apply mem_set_wf; [|eauto with bytes]). apply example_memory_wf. Qed.


(** * The driver's side: bring-up *)

(** A sequence of register writes, stopping at the first error. *)
Fixpoint rng_writes (ws : list (Z * list Z)) : prog VirtioRngDevice VirtioRngError unit :=
  match ws with
  | [] => mret tt
  | (offset, payload) :: ws =>
      _ ← rng_write offset payload;
      rng_writes ws
  end.

(** The writes of a driver that resets the device, negotiates VERSION_1,
    programs queue 0 and notifies it. *)
Definition rng_negotiate : list (Z * list Z) :=
  [(COMMON_DEVICE_STATUS, [0]); (COMMON_DEVICE_STATUS, [1]); (COMMON_DEVICE_STATUS, [3]);
   (COMMON_DRIVER_FEATURE_SELECT, to_le_bytes 4 1); (COMMON_DRIVER_FEATURE, to_le_bytes 4 1);
   (COMMON_DEVICE_STATUS, [11]); (COMMON_QUEUE_SELECT, to_le_bytes 2 0)].
Definition rng_program (desc driver device : Z) : list (Z * list Z) :=
  [(COMMON_QUEUE_DESC, to_le_bytes 4 (desc mod 2 ^ 32));
   (COMMON_QUEUE_DESC_HIGH, to_le_bytes 4 (desc / 2 ^ 32));
   (COMMON_QUEUE_DRIVER, to_le_bytes 4 (driver mod 2 ^ 32));
   (COMMON_QUEUE_DRIVER_HIGH, to_le_bytes 4 (driver / 2 ^ 32));
   (COMMON_QUEUE_DEVICE, to_le_bytes 4 (device mod 2 ^ 32));
   (COMMON_QUEUE_DEVICE_HIGH, to_le_bytes 4 (device / 2 ^ 32))].
Definition rng_start : list (Z * list Z) :=
  [(COMMON_QUEUE_ENABLE, to_le_bytes 2 1); (COMMON_DEVICE_STATUS, [15]);
   (VIRTIO_NOTIFY_OFFSET, to_le_bytes 2 0)].

Lemma rng_writes_app ws ws' d d' :
  rng_writes ws d = (Ok tt, d') → rng_writes (ws ++ ws') d = rng_writes ws' d'.
Proof.
  revert d. induction ws as [|[o p] ws IH]; intros d H; [by injection H as <-|].
  cbn [app rng_writes] in *. apply prog_bind_Ok_inv in H as (a&d1&H1&H).
  rewrite (prog_bind_step _ _ _ _ _ H1). by apply IH.
Qed.

Lemma write_queue_address_ok setter replace field o v (d : VirtioRngDevice) :
  u32 v → d.(queue_select) = 0 → d.(queue_enabled) = false →
  write_queue_address setter replace field o (to_le_bytes 4 v) d =
    (Ok None, setter (replace (field d) v) d).
Proof.
  intros Hv Hs He. unfold write_queue_address, mbind, prog_bind, reading, lift, modify.
  unfold ensure_queue_unlocked, ensure_selected_queue. rewrite Hs, He.
  unfold read_u32. rewrite len_to_le_bytes. cbn -[from_le_bytes to_le_bytes].
  by rewrite from_to_le_bytes.
Qed.
Lemma replace_low_zero v : u32 v → replace_low_u32 0 v = v.
Proof. done. Qed.
Lemma replace_high_low lo hi :
  u32 lo → u32 hi → replace_high_u32 lo hi = lo + hi * 2 ^ 32.
Proof.
  intros Hlo Hhi. unfold replace_high_u32. change 0xffffffff with (Z.ones 32).
  rewrite Z.land_ones, Z.mod_small by (ulia || lia). rewrite Z.shiftl_mul_pow2 by lia.
  rewrite Z.lor_comm, (lor_low_flags 32); [lia|lia|by apply Z.mod_mul|done].
Qed.
Lemma split_u64 x : u64 x → u32 (x mod 2 ^ 32) ∧ u32 (x / 2 ^ 32) ∧ x mod 2 ^ 32 + x / 2 ^ 32 * 2 ^ 32 = x.
Proof. intros. split_and!; dlia. Qed.

(** The device after [rng_negotiate], its queue addresses given. *)
Definition rng_negotiated (bar desc driver device : Z) : VirtioRngDevice :=
  mkRegs bar 0 1 VIRTIO_F_VERSION_1 11 0 VIRTIO_QUEUE_MAX_SIZE false desc driver device false 0 0 0.

Lemma rng_negotiate_ok (d : VirtioRngDevice) :
  rng_writes rng_negotiate d = (Ok tt, rng_negotiated d.(bar0) 0 0 0).
Proof. reflexivity. Qed.
Lemma rng_program_ok bar desc driver device :
  u64 desc → u64 driver → u64 device →
  rng_writes (rng_program desc driver device) (rng_negotiated bar 0 0 0) =
    (Ok tt, rng_negotiated bar desc driver device).
Proof.
  intros (?&?&Hd1)%split_u64 (?&?&Hd2)%split_u64 (?&?&Hd3)%split_u64.
  unfold rng_program. cbn [rng_writes].
  assert (∀ setter replace field o v d,
    rng_write o (to_le_bytes 4 v) d = write_queue_address setter replace field o (to_le_bytes 4 v) d →
    u32 v → d.(queue_select) = 0 → d.(queue_enabled) = false →
    rng_write o (to_le_bytes 4 v) d = (Ok None, setter (replace (field d) v) d)) as Hstep
    by (intros * -> ???; by apply write_queue_address_ok).
  erewrite prog_bind_step by (apply (Hstep set_queue_desc replace_low_u32 queue_desc); done).
  erewrite prog_bind_step by (apply (Hstep set_queue_desc replace_high_u32 queue_desc); done).
  erewrite prog_bind_step by (apply (Hstep set_queue_driver replace_low_u32 queue_driver); done).
  erewrite prog_bind_step by (apply (Hstep set_queue_driver replace_high_u32 queue_driver); done).
  erewrite prog_bind_step by (apply (Hstep set_queue_device replace_low_u32 queue_device); done).
  erewrite prog_bind_step by (apply (Hstep set_queue_device replace_high_u32 queue_device); done).
  cbn -[Z.modulo Z.div Z.pow replace_high_u32 replace_low_u32].
  rewrite !replace_low_zero, !replace_high_low, Hd1, Hd2, Hd3 by done. done.
Qed.

(** C26: the bring-up sequence of a conforming driver is accepted from every
    device state.  Whatever the device was doing, the driver's reset,
    VERSION_1 negotiation, queue programming with any non-zero ring
    addresses, enable, DRIVER_OK and notify writes all succeed and leave a
    ready device with exactly those addresses and one notification pending. *)
Theorem rng_bring_up d desc driver device :
  u64 desc → u64 driver → u64 device → desc ≠ 0 → driver ≠ 0 → device ≠ 0 →
  ∃ d', rng_writes (rng_negotiate ++ rng_program desc driver device ++ rng_start) d = (Ok tt, d') ∧
    queue_ready d' ∧ d'.(notify_pending) = true ∧
    d'.(queue_desc) = desc ∧ d'.(queue_driver) = driver ∧ d'.(queue_device) = device ∧
    d'.(last_avail_idx) = 0 ∧ d'.(last_used_idx) = 0 ∧ d'.(isr_status) = 0.
Proof.
  intros H1 H2 H3 Hz1 Hz2 Hz3.
  rewrite (rng_writes_app _ _ _ _ (rng_negotiate_ok d)).
  rewrite (rng_writes_app _ _ _ _ (rng_program_ok _ _ _ _ H1 H2 H3)).
  exists (mkRegs d.(bar0) 0 1 VIRTIO_F_VERSION_1 15 0 VIRTIO_QUEUE_MAX_SIZE true desc driver device
            true 0 0 0).
  split; [|by repeat split].
  unfold rng_start. cbn [rng_writes].
  erewrite prog_bind_step by (by apply enable_write_ok).
  erewrite prog_bind_step by reflexivity.
  erewrite prog_bind_step by (apply notify_write_ok; by repeat split). done.
Qed.

Lemma rng_bring_up_witness :
  ∃ d', rng_writes (rng_negotiate ++ rng_program 0x8000 0x9000 0xa000 ++ rng_start)
          (rng_new 0x10000000) = (Ok tt, d') ∧ queue_ready d' ∧ d'.(queue_driver) = 0x9000.
Proof.
  destruct (rng_bring_up (rng_new 0x10000000) 0x8000 0x9000 0xa000) as (d'&?&?&_&_&?&_);
    [ulia|ulia|ulia|lia|lia|lia|].
  exists d'. split; [assumption|]. split; assumption.
Defined.

(** * Reachable states *)

(** What can happen to a device and its guest: register accesses, queue
    processing, and anything the guest does to its own RAM. *)
Inductive rng_step : VirtioRngDevice * GuestMemory → VirtioRngDevice * GuestMemory → Prop :=
  | rng_step_read d m offset length :
      rng_step (d, m) ((rng_read offset length d).2, m)
  | rng_step_write d m offset payload :
      bytes_ok payload → rng_step (d, m) ((rng_write offset payload d).2, m)
  | rng_step_process s : rng_step s (rng_process_notified_queue s).2
  | rng_step_guest d m m' :
      memory_wf m' → m'.(region) = m.(region) → rng_step (d, m) (d, m').

Definition rng_state_wf (s : VirtioRngDevice * GuestMemory) : Prop :=
  regs_wf s.1 ∧ memory_wf s.2.

Lemma rng_process_wf s :
  rng_state_wf s →
  rng_state_wf (rng_process_notified_queue s).2 ∧ no_panic (rng_process_notified_queue s).1.
Proof.
  destruct s as [d m]. intros [Hd Hm]. pose proof (rng_process_runs d m Hd Hm) as Hr.
  pose proof (runs_no_panic _ _ _ _ Hr) as Hnp. split; [|done].
  destruct (rng_process_notified_queue (d, m)) as [[c|e|] [d' m']] eqn:Hrun; [| |by destruct Hnp].
  - by apply (runs_Ok _ _ _ _ _ _ Hr) in Hrun as (?&?&_&_&_&?&_&?&_).
  - by apply (runs_Err _ _ _ _ _ _ Hr) in Hrun as (->&?&_).
Qed.
Lemma rng_step_wf s s' : rng_step s s' → rng_state_wf s → rng_state_wf s'.
Proof.
  intros [d m o n|d m o p Hp|s1|d m m' Hm Hr] Hs.
  - split; [by apply virtio_read_safe, Hs|apply Hs].
  - split; [by apply virtio_write_safe, Hs|apply Hs].
  - by apply rng_process_wf.
  - split; [apply Hs|done].
Qed.

Lemma rng_steps_wf s s' : rtc rng_step s s' → rng_state_wf s → rng_state_wf s'.
Proof. induction 1; eauto using rng_step_wf. Qed.

(** No sequence of guest actions breaks the virtio-rng device.  In every
    state reachable from a new device by register reads and writes of any
    offset and payload, queue processing and arbitrary changes of guest RAM,
    the register invariant holds: ring size a power of two up to eight,
    FEATURES_OK only over an accepted negotiation, an enabled queue with its
    three ring addresses, a notification pending only while the driver is up.
    From such a state no access and no processing panics. *)
Theorem rng_reachable_safe bar m0 d m :
  memory_wf m0 → rtc rng_step (rng_new bar, m0) (d, m) →
  regs_wf d ∧ memory_wf m ∧
  (∀ offset length, no_panic (rng_read offset length d).1) ∧
  (∀ offset payload, bytes_ok payload → no_panic (rng_write offset payload d).1) ∧
  no_panic (rng_process_notified_queue (d, m)).1.
Proof.
  intros Hm Hrtc.
  assert (rng_state_wf (d, m)) as Hs.
  { eapply rng_steps_wf; [done|]. split; [apply virtio_new_wf|done]. }
  pose proof Hs as [Hd Hm']. split_and!; [done|done| | |].
  - intros. by apply virtio_read_safe.
  - intros. by apply virtio_write_safe.
  - by apply rng_process_wf.
Qed.

Lemma rng_reachable_safe_witness :
  regs_wf (rng_write COMMON_DEVICE_STATUS [1] (rng_new 0x10000000)).2 ∧
  no_panic (rng_process_notified_queue
              ((rng_write COMMON_DEVICE_STATUS [1] (rng_new 0x10000000)).2, example_memory)).1.
Proof.
  assert (rtc rng_step (rng_new 0x10000000, example_memory)
            ((rng_write COMMON_DEVICE_STATUS [1] (rng_new 0x10000000)).2, example_memory)) as H.
  { apply rtc_once. apply rng_step_write. repeat constructor; ulia. }
  destruct (rng_reachable_safe _ _ _ _ example_memory_wf H) as (H1&_&_&_&H2).
  exact (conj H1 H2).
Defined.

(** The status handshake has a gap.  A driver that writes FEATURES_OK
    and DRIVER_OK together while its features are unacceptable is not refused:
    the device drops FEATURES_OK but keeps DRIVER_OK, a combination that the
    same function rejects when it is requested directly.  The queue is still
    not ready in that state. *)
Theorem rng_driver_ok_without_features :
  ∃ d, rng_writes [(COMMON_DEVICE_STATUS, [1]); (COMMON_DEVICE_STATUS, [3]);
                   (COMMON_DEVICE_STATUS, [15])] (rng_new 0x10000000) = (Ok tt, d) ∧
    status_bit d.(status) 2 = true ∧ status_bit d.(status) 3 = false ∧
    ensure_queue_ready d = Err RngQueueNotReady ∧
    is_ok (rng_writes [(COMMON_DEVICE_STATUS, [1]); (COMMON_DEVICE_STATUS, [7])]
             (rng_new 0x10000000)).1 = false.
Proof. eexists. split; [vm_compute; reflexivity|]. by vm_compute. Qed.
