(* ===== verification/VirtioBlk.v ===== *)
(** The virtio-blk function: [src/src/pci/virtio_blk.rs] with its request-chain
    resolution ([virtio_blk_indirect.rs]), backing store
    ([virtio_blk_backing.rs], [virtio_blk_file_backed.rs]) and the atomic
    read/write processing ([virtio_blk_write_readback.rs]). *)

From S2P Require Import Prelude Errors Memory VirtioCommon.

Definition VIRTIO_BLK_BAR_SIZE : Z := 0x1000.
Definition VIRTIO_BLK_SECTOR_SIZE : Z := 512.
Definition VIRTIO_BLK_CAPACITY_SECTORS : Z := 4.
Definition VIRTIO_BLK_BACKING_SIZE : Z := VIRTIO_BLK_SECTOR_SIZE * VIRTIO_BLK_CAPACITY_SECTORS.
Definition VIRTIO_BLK_CONFIG_OFFSET : Z := 0x300.
Definition VIRTIO_BLK_T_IN : Z := 0.
Definition VIRTIO_BLK_T_OUT : Z := 1.
Definition VIRTIO_BLK_S_OK : Z := 0.
Definition VIRTIO_RING_F_INDIRECT_DESC : Z := Z.shiftl 1 28.
Definition VIRTIO_BLK_SUPPORTED_FEATURES : Z :=
  Z.lor VIRTIO_F_VERSION_1 VIRTIO_RING_F_INDIRECT_DESC.
Definition DESCRIPTOR_SIZE : Z := 16.
Definition MIN_REQUEST_DESCRIPTORS : Z := 3.
Definition MAX_INDIRECT_DESCRIPTORS : Z := U16_MAX + 1.

(** [device_feature_word]. *)
Definition blk_device_feature_word (select : Z) : Z :=
  if select =? 0 then as_width 32 VIRTIO_BLK_SUPPORTED_FEATURES
  else if select =? 1 then as_width 32 (Z.shiftr VIRTIO_BLK_SUPPORTED_FEATURES 32)
  else 0.
Definition negotiated_features_valid (driver_features : Z) : bool :=
  (Z.land driver_features VIRTIO_F_VERSION_1 =? VIRTIO_F_VERSION_1)
  && (Z.land driver_features (unot 64 VIRTIO_BLK_SUPPORTED_FEATURES) =? 0).

#[global] Instance blk_function : VirtioFunction VirtioBlkError := {|
  UnsupportedRegisterAccess := BlkUnsupportedRegisterAccess;
  InvalidRegisterPayload := BlkInvalidRegisterPayload;
  InvalidDeviceStatus := BlkInvalidDeviceStatus;
  UnsupportedQueue := BlkUnsupportedQueue;
  InvalidQueueSize := BlkInvalidQueueSize;
  QueueConfigurationLocked := BlkQueueConfigurationLocked;
  QueueNotReady := BlkQueueNotReady;
  UnexpectedQueueNotification := BlkUnexpectedQueueNotification;
  AddressOverflow := BlkAddressOverflow;
  offered_feature_word := blk_device_feature_word;
  features_valid := negotiated_features_valid;
  config_register := λ offset length,
    if arm offset length VIRTIO_BLK_CONFIG_OFFSET 8
    then Some (to_le_bytes 8 VIRTIO_BLK_CAPACITY_SECTORS) else None
|}.

(** [VirtioBlkDevice]: the transport registers, the backing store and the
    path of the file that mirrors it, if any. *)
Record VirtioBlkDevice := mkBlk {
  regs : VirtioRegs;
  backing : list Z;
  persistent_backing : option string
}.
Definition set_regs (r : VirtioRegs) (d : VirtioBlkDevice) : VirtioBlkDevice :=
  mkBlk r d.(backing) d.(persistent_backing).
Definition set_backing (b : list Z) (d : VirtioBlkDevice) : VirtioBlkDevice :=
  mkBlk d.(regs) b d.(persistent_backing).

(** A method of the transport, run on the block device. *)
Definition on_regs {A} (m : prog VirtioRegs VirtioBlkError A)
    : prog VirtioBlkDevice VirtioBlkError A := λ d,
  let '(r, regs') := m d.(regs) in (r, set_regs regs' d).
Definition blk_read (offset length : Z) : prog VirtioBlkDevice VirtioBlkError (list Z) :=
  on_regs (virtio_read offset length).
Definition blk_write (offset : Z) (payload : list Z)
    : prog VirtioBlkDevice VirtioBlkError (option VirtioEvent) :=
  on_regs (virtio_write offset payload).

Inductive VirtioBlkProcessError :=
  | BlkDevice (e : VirtioBlkError)
  | BlkMemory (e : Error)
  | BlkBacking (e : Error).
Record VirtioBlkQueueCompletion := mkBlkCompletion {
  blk_descriptor_id : Z;
  blk_length : Z;
  blk_sector : Z
}.
Record Descriptor := mkDescriptor {
  desc_address : Z;
  desc_length : Z;
  desc_flags : Z;
  desc_next : Z
}.
Record ResolvedRequestChain := mkChain {
  header : Descriptor;
  data : Descriptor;
  data_index : Z;
  status_descriptor : Descriptor
}.

Abbreviation PE := VirtioBlkProcessError.
Abbreviation device_error := (map_err BlkDevice).

(** ** The backing store *)

(** [deterministic_sector]: the pattern of sector 0 with its markers. *)
Definition sector_pattern (sector index : Z) : Z :=
  wrapping_add 8 (wrapping_add 8 (wrapping_mul 8 (as_width 8 index) 17) 3)
    (wrapping_mul 8 (as_width 8 sector) 41).
Definition deterministic_sector : list Z :=
  let bytes := map (λ i, wrapping_add 8 (wrapping_mul 8 (as_width 8 (Z.of_nat i)) 17) 3)
                 (seq 0 (Z.to_nat VIRTIO_BLK_SECTOR_SIZE)) in
  let bytes := splice bytes 0
    [0x42; 0x4c; 0x4b; 0x2d; 0x53; 0x45; 0x43; 0x54; 0x4f; 0x52; 0x2d; 0x30; 0x30; 0x30; 0x30;
     0x21] in
  splice bytes (VIRTIO_BLK_SECTOR_SIZE - 8) [0x42; 0x4c; 0x4b; 0x45; 0x4e; 0x44; 0x21; 0x21].
(** [deterministic_backing]. *)
Definition deterministic_backing : list Z :=
  deterministic_sector ++
  concat (map (λ sector, map (λ i, sector_pattern (Z.of_nat sector) (Z.of_nat i))
                           (seq 0 (Z.to_nat VIRTIO_BLK_SECTOR_SIZE)))
            (seq 1 (Z.to_nat (VIRTIO_BLK_CAPACITY_SECTORS - 1)))).

Definition blk_new (bar : Z) : VirtioBlkDevice := mkBlk (virtio_new bar) deterministic_backing None.
(** [VirtioBlkDevice::with_backing]. *)
Definition with_backing (bar : Z) (contents : list Z) (path : option string) : VirtioBlkDevice :=
  mkBlk (virtio_new bar) contents path.

(** [request_backing_range]: start and end offsets. *)
Definition request_backing_range (sector data_length : Z) : res VirtioBlkError (Z * Z) :=
  _ ← err_if ((data_length =? 0) || negb (data_length mod VIRTIO_BLK_SECTOR_SIZE =? 0))
        (BlkInvalidDataLength data_length VIRTIO_BLK_SECTOR_SIZE);
  _ ← err_if (VIRTIO_BLK_CAPACITY_SECTORS <=? sector)
        (BlkSectorOutOfRange sector VIRTIO_BLK_CAPACITY_SECTORS);
  let out_of_range := BlkRequestRangeOutOfRange sector data_length VIRTIO_BLK_CAPACITY_SECTORS in
  start ← ok_or (checked_mul 64 sector VIRTIO_BLK_SECTOR_SIZE) out_of_range;
  end_ ← ok_or (Prelude.checked_add 64 start data_length) out_of_range;
  _ ← err_if (VIRTIO_BLK_BACKING_SIZE <? end_) out_of_range;
  start ← expect (try_from 64 start);
  end_ ← expect (try_from 64 end_);
  Ok (start, end_).
(** [backing_range]. *)
Definition backing_range (d : VirtioBlkDevice) (sector data_length : Z)
    : res VirtioBlkError (option (list Z)) :=
  match request_backing_range sector data_length with
  | Ok (start, end_) => Some <$> slice d.(backing) start end_
  | Err _ => Ok None
  | Panic => Panic
  end.

(** ** Request chains *)
Definition descriptor_of {E} (bytes : list Z) : res E Descriptor :=
  a ← from_le_bytes <$> slice bytes 0 8;
  l ← from_le_bytes <$> slice bytes 8 12;
  f ← from_le_bytes <$> slice bytes 12 14;
  n ← from_le_bytes <$> slice bytes 14 16;
  Ok (mkDescriptor a l f n).
Definition read_descriptor (d : VirtioBlkDevice) (m : GuestMemory) (index : Z)
    : res PE Descriptor :=
  scaled ← umul 64 16 index;
  address ← device_error (checked_add d.(regs).(queue_desc) scaled);
  bytes ← map_err BlkMemory (read m address 16);
  descriptor_of bytes.
Definition ensure_descriptor_index (d : VirtioBlkDevice) (index : Z) : res VirtioBlkError unit :=
  err_if (d.(regs).(queue_size) <=? index)
    (BlkDescriptorIndexOutOfRange index d.(regs).(queue_size)).
Definition require_flags (index actual expected : Z) : res VirtioBlkError unit :=
  err_if (negb (actual =? expected)) (BlkInvalidDescriptorFlags index expected actual).
Definition require_length (index length required : Z) : res VirtioBlkError unit :=
  err_if (length <? required) (BlkDescriptorTooSmall index length required).

Definition resolve_direct_request_chain (d : VirtioBlkDevice) (m : GuestMemory) (head : Z)
    (header : Descriptor) : res PE ResolvedRequestChain :=
  _ ← device_error (require_flags head header.(desc_flags) VIRTQ_DESC_F_NEXT);
  _ ← device_error (require_length head header.(desc_length) 16);
  let data_index := header.(desc_next) in
  _ ← device_error (ensure_descriptor_index d data_index);
  _ ← err_if (data_index =? head) (BlkDevice (BlkDescriptorChainCycle data_index));
  data ← read_descriptor d m data_index;
  let status_index := data.(desc_next) in
  _ ← device_error (ensure_descriptor_index d status_index);
  _ ← err_if ((status_index =? head) || (status_index =? data_index))
        (BlkDevice (BlkDescriptorChainCycle status_index));
  status ← read_descriptor d m status_index;
  _ ← device_error (require_flags status_index status.(desc_flags) VIRTQ_DESC_F_WRITE);
  _ ← device_error (require_length status_index status.(desc_length) 1);
  Ok (mkChain header data data_index status).

Definition read_indirect_descriptor (m : GuestMemory) (table entries index : Z)
    : res PE Descriptor :=
  _ ← err_if (entries <=? index) (BlkDevice (BlkIndirectDescriptorIndexOutOfRange index entries));
  scaled ← umul 64 DESCRIPTOR_SIZE index;
  address ← device_error (checked_add table scaled);
  bytes ← map_err BlkMemory (read m address 16);
  descriptor_of bytes.
Definition reject_nested_indirect (index flags : Z) : res VirtioBlkError unit :=
  err_if (negb (Z.land flags VIRTQ_DESC_F_INDIRECT =? 0)) (BlkNestedIndirectDescriptor index).

Definition resolve_indirect_request_chain (d : VirtioBlkDevice) (m : GuestMemory) (head : Z)
    (outer : Descriptor) : res PE ResolvedRequestChain :=
  _ ← err_if (Z.land d.(regs).(driver_features) VIRTIO_RING_F_INDIRECT_DESC =? 0)
        (BlkDevice BlkIndirectFeatureNotNegotiated);
  _ ← device_error (require_flags head outer.(desc_flags) VIRTQ_DESC_F_INDIRECT);
  _ ← err_if ((outer.(desc_length) <? MIN_REQUEST_DESCRIPTORS * DESCRIPTOR_SIZE)
              || negb (outer.(desc_length) mod DESCRIPTOR_SIZE =? 0))
        (BlkDevice (BlkInvalidIndirectTableLength outer.(desc_length) DESCRIPTOR_SIZE));
  let entries := outer.(desc_length) / DESCRIPTOR_SIZE in
  _ ← err_if (MAX_INDIRECT_DESCRIPTORS <? entries)
        (BlkDevice (BlkIndirectTableTooLarge entries MAX_INDIRECT_DESCRIPTORS));
  header ← read_indirect_descriptor m outer.(desc_address) entries 0;
  _ ← device_error (reject_nested_indirect 0 header.(desc_flags));
  _ ← device_error (require_flags 0 header.(desc_flags) VIRTQ_DESC_F_NEXT);
  _ ← device_error (require_length 0 header.(desc_length) 16);
  let data_index := header.(desc_next) in
  _ ← err_if (data_index =? 0) (BlkDevice (BlkDescriptorChainCycle data_index));
  data ← read_indirect_descriptor m outer.(desc_address) entries data_index;
  _ ← device_error (reject_nested_indirect data_index data.(desc_flags));
  let status_index := data.(desc_next) in
  _ ← err_if ((status_index =? 0) || (status_index =? data_index))
        (BlkDevice (BlkDescriptorChainCycle status_index));
  status ← read_indirect_descriptor m outer.(desc_address) entries status_index;
  _ ← device_error (reject_nested_indirect status_index status.(desc_flags));
  _ ← device_error (require_flags status_index status.(desc_flags) VIRTQ_DESC_F_WRITE);
  _ ← device_error (require_length status_index status.(desc_length) 1);
  Ok (mkChain header data data_index status).

Definition resolve_request_chain (d : VirtioBlkDevice) (m : GuestMemory) (head : Z)
    : res PE ResolvedRequestChain :=
  outer ← read_descriptor d m head;
  if negb (Z.land outer.(desc_flags) VIRTQ_DESC_F_INDIRECT =? 0)
  then resolve_indirect_request_chain d m head outer
  else resolve_direct_request_chain d m head outer.

(** The common start of both processing functions: the available index and
    the head of the request chain. *)
Definition blk_take_head (d : VirtioBlkDevice) (m : GuestMemory) : res PE (Z * Z) :=
  _ ← device_error (ensure_queue_ready d.(regs));
  _ ← err_if (negb d.(regs).(notify_pending)) (BlkDevice BlkQueueNotReady);
  avail_address ← device_error (checked_add d.(regs).(queue_driver) 2);
  avail_idx ← read_guest_u16 BlkMemory m avail_address;
  let expected_avail := wrapping_add 16 d.(regs).(last_avail_idx) 1 in
  _ ← err_if (negb (avail_idx =? expected_avail))
        (BlkDevice (BlkUnexpectedAvailIndex expected_avail avail_idx));
  slot ← urem d.(regs).(last_avail_idx) d.(regs).(queue_size);
  ring_offset ← umul 64 2 slot;
  ring_offset ← uadd 64 4 ring_offset;
  head_address ← device_error (checked_add d.(regs).(queue_driver) ring_offset);
  head ← read_guest_u16 BlkMemory m head_address;
  _ ← device_error (ensure_descriptor_index d head);
  Ok (avail_idx, head).

(** The request header of a chain: type, reserved field and sector. *)
Definition read_request (m : GuestMemory) (chain : ResolvedRequestChain) : res PE (Z * Z * Z) :=
  request ← map_err BlkMemory (read m chain.(header).(desc_address) 16);
  request_type ← from_le_bytes <$> slice request 0 4;
  reserved ← from_le_bytes <$> slice request 4 8;
  sector ← from_le_bytes <$> slice request 8 16;
  Ok (request_type, reserved, sector).

Definition check_used_idx (d : VirtioBlkDevice) (m : GuestMemory) : res PE Z :=
  used_address ← device_error (checked_add d.(regs).(queue_device) 2);
  used_idx ← read_guest_u16 BlkMemory m used_address;
  _ ← err_if (negb (used_idx =? d.(regs).(last_used_idx)))
        (BlkDevice (BlkUnexpectedUsedIndex d.(regs).(last_used_idx) used_idx));
  Ok used_address.
Definition used_element_address (d : VirtioBlkDevice) : res PE Z :=
  used_slot ← urem d.(regs).(last_used_idx) d.(regs).(queue_size);
  scaled ← umul 64 8 used_slot;
  scaled ← uadd 64 4 scaled;
  device_error (checked_add d.(regs).(queue_device) scaled).

(** ** Processing *)

(** A block device with the contents of its backing file. *)
Definition BlkWorld : Type := VirtioBlkDevice * list Z.
Abbreviation BlkState := (BlkWorld * GuestMemory)%type.

(** The update of the device at the end of a request. *)
Definition finish_request (avail_idx next_used : Z) (d : VirtioBlkDevice) : VirtioBlkDevice :=
  set_regs (complete_request avail_idx next_used d.(regs)) d.
Definition on_device (f : VirtioBlkDevice → VirtioBlkDevice) : prog BlkState PE unit :=
  modify (λ s, ((f s.1.1, s.1.2), s.2)).

(** [process_notified_queue]: reads only, writing as it goes. *)
Definition blk_process_notified_queue : prog BlkState PE VirtioBlkQueueCompletion :=
  s ← get;
  let d := s.1.1 in let m := s.2 in
  '(avail_idx, head) ← lift (blk_take_head d m);
  chain ← lift (resolve_request_chain d m head);
  _ ← lift (device_error (require_flags chain.(data_index) chain.(data).(desc_flags)
                            (Z.lor VIRTQ_DESC_F_NEXT VIRTQ_DESC_F_WRITE)));
  _ ← lift (device_error (require_length chain.(data_index) chain.(data).(desc_length)
                            VIRTIO_BLK_SECTOR_SIZE));
  '(request_type, reserved, sector) ← lift (read_request m chain);
  _ ← lift (err_if (negb (request_type =? VIRTIO_BLK_T_IN))
              (BlkDevice (BlkInvalidRequestType request_type)));
  _ ← lift (err_if (negb (reserved =? 0)) (BlkDevice (BlkInvalidRequestReserved reserved)));
  '(start, end_) ← lift (device_error (request_backing_range sector chain.(data).(desc_length)));
  _ ← lift (check_used_idx d m);
  contents ← lift (slice d.(backing) start end_);
  _ ← guest_write BlkMemory chain.(data).(desc_address) contents;
  _ ← guest_write BlkMemory chain.(status_descriptor).(desc_address) [VIRTIO_BLK_S_OK];
  written ← lift (uadd 32 chain.(data).(desc_length) 1);
  used_element ← lift (used_element_address d);
  _ ← guest_write BlkMemory used_element (to_le_bytes 4 head ++ to_le_bytes 4 written);
  let next_used := wrapping_add 16 d.(regs).(last_used_idx) 1 in
  used_address ← lift (device_error (checked_add d.(regs).(queue_device) 2));
  _ ← guest_write BlkMemory used_address (to_le_bytes 2 next_used);
  _ ← on_device (finish_request avail_idx next_used);
  mret (mkBlkCompletion head written sector).

(** [preflight_guest_output]. *)
Definition preflight_guest_output (m : GuestMemory) (a n : Z) : res PE unit :=
  _ ← map_err BlkMemory (read m a n);
  Ok tt.

(** What the checks of [process_notified_queue_atomic] establish before its
    first mutation. *)
Record BlkPlan := mkPlan {
  plan_avail_idx : Z;
  plan_head : Z;
  plan_chain : ResolvedRequestChain;
  plan_request_type : Z;
  plan_sector : Z;
  plan_start : Z;
  plan_end : Z;
  plan_used_idx_address : Z;
  plan_used_element : Z;
  outgoing_data : option (list Z)
}.
Definition blk_preflight (d : VirtioBlkDevice) (m : GuestMemory) : res PE BlkPlan :=
  '(avail_idx, head) ← blk_take_head d m;
  chain ← resolve_request_chain d m head;
  '(request_type, reserved, sector) ← read_request m chain;
  _ ← err_if (negb (request_type =? VIRTIO_BLK_T_IN) && negb (request_type =? VIRTIO_BLK_T_OUT))
        (BlkDevice (BlkInvalidRequestType request_type));
  _ ← err_if (negb (reserved =? 0)) (BlkDevice (BlkInvalidRequestReserved reserved));
  '(start, end_) ← device_error (request_backing_range sector chain.(data).(desc_length));
  let expected_data_flags :=
    if request_type =? VIRTIO_BLK_T_IN then Z.lor VIRTQ_DESC_F_NEXT VIRTQ_DESC_F_WRITE
    else VIRTQ_DESC_F_NEXT in
  _ ← device_error (require_flags chain.(data_index) chain.(data).(desc_flags) expected_data_flags);
  used_idx_address ← check_used_idx d m;
  used_element ← used_element_address d;
  outgoing ← (if request_type =? VIRTIO_BLK_T_OUT then
                Some <$> map_err BlkMemory
                           (read m chain.(data).(desc_address) chain.(data).(desc_length))
              else
                _ ← preflight_guest_output m chain.(data).(desc_address)
                      chain.(data).(desc_length);
                Ok None);
  _ ← preflight_guest_output m chain.(status_descriptor).(desc_address) 1;
  _ ← preflight_guest_output m used_element 8;
  _ ← preflight_guest_output m used_idx_address 2;
  Ok (mkPlan avail_idx head chain request_type sector start end_ used_idx_address used_element
        outgoing).

(** The end of [process_notified_queue_atomic], from the status byte on:
    [d] is the device as it was when the request was planned. *)
Definition blk_publish (d : VirtioBlkDevice) (plan : BlkPlan) (written : Z)
    : prog BlkState PE VirtioBlkQueueCompletion :=
  _ ← guest_write BlkMemory plan.(plan_chain).(status_descriptor).(desc_address)
        [VIRTIO_BLK_S_OK];
  _ ← guest_write BlkMemory plan.(plan_used_element)
        (to_le_bytes 4 plan.(plan_head) ++ to_le_bytes 4 written);
  let next_used := wrapping_add 16 d.(regs).(last_used_idx) 1 in
  _ ← guest_write BlkMemory plan.(plan_used_idx_address) (to_le_bytes 2 next_used);
  _ ← (match plan.(outgoing_data) with
       | Some bytes => on_device (λ d, set_backing (splice d.(backing) plan.(plan_start) bytes) d)
       | None => mret tt
       end);
  _ ← on_device (finish_request plan.(plan_avail_idx) next_used);
  mret (mkBlkCompletion plan.(plan_head) written plan.(plan_sector)).

Section processing.
(** The host file system under a file-backed device: open, seek, write and
    sync of [bytes] at [offset] into a file, with its outcome and the
    contents the file is left with. *)
Context (file_write : list Z → Z → list Z → res Error unit * list Z).

(** [persist_backing_range]. *)
Definition persist_backing_range (start end_ : Z) (bytes : list Z) : prog BlkState PE unit :=
  λ s,
    let '(d, disk) := s.1 in
    match d.(persistent_backing) with
    | None => (Ok tt, s)
    | Some _ =>
        if (VIRTIO_BLK_BACKING_SIZE <? end_) || negb (end_ - start =? len bytes) then
          (Err (BlkBacking (HostEnvironment (Io "validate virtio-blk file write range"
                  (Custom InvalidInput (Message "range does not match"))))), s)
        else
          let '(r, disk') := file_write disk start bytes in
          (map_err BlkBacking r, ((d, disk'), s.2))
    end.

(** [process_notified_queue_atomic]. *)
Definition process_notified_queue_atomic : prog BlkState PE VirtioBlkQueueCompletion :=
  s ← get;
  let d := s.1.1 in
  plan ← lift (blk_preflight d s.2);
  let chain := plan.(plan_chain) in
  _ ← (match plan.(outgoing_data) with
       | Some bytes => persist_backing_range plan.(plan_start) plan.(plan_end) bytes
       | None => mret tt
       end);
  written ← (if plan.(plan_request_type) =? VIRTIO_BLK_T_IN then
               contents ← lift (slice d.(backing) plan.(plan_start) plan.(plan_end));
               _ ← guest_write BlkMemory chain.(data).(desc_address) contents;
               lift (uadd 32 chain.(data).(desc_length) 1)
             else mret 1);
  blk_publish d plan written.
End processing.

(** ** Invariants *)
Definition blk_wf (d : VirtioBlkDevice) : Prop :=
  regs_wf d.(regs) ∧ bytes_ok d.(backing) ∧ len d.(backing) = VIRTIO_BLK_BACKING_SIZE.
(** A file-backed device mirrors its file. *)
Definition mirrored (w : BlkWorld) : Prop :=
  is_Some w.1.(persistent_backing) → w.2 = w.1.(backing).

(** * Descriptors and chains *)
Definition desc_wf (x : Descriptor) : Prop :=
  u64 x.(desc_address) ∧ u32 x.(desc_length) ∧ u16 x.(desc_flags) ∧ u16 x.(desc_next).
Definition chain_wf (c : ResolvedRequestChain) : Prop :=
  desc_wf c.(header) ∧ desc_wf c.(data) ∧ desc_wf c.(status_descriptor).

Lemma no_panic_descriptor_of {E} m a : no_panic (descriptor_of (E:=E) (mem_get m a 16)).
Proof. unfold descriptor_of. np. Qed.
Lemma descriptor_of_wf {E} bs x : bytes_ok bs → descriptor_of (E:=E) bs = Ok x → desc_wf x.
Proof.
  intros Hbs H. unfold descriptor_of in H.
  apply bind_Ok_inv in H as (a&Ha&H). apply bind_Ok_inv in H as (l&Hl&H).
  apply bind_Ok_inv in H as (f&Hf&H). apply bind_Ok_inv in H as (n&Hn&[= <-]).
  apply from_le_slice_bound in Ha, Hl, Hf, Hn; done || lia.
Qed.

Lemma no_panic_require_flags i a e : no_panic (require_flags i a e).
Proof. apply no_panic_err_if. Qed.
Lemma no_panic_require_length i a e : no_panic (require_length i a e).
Proof. apply no_panic_err_if. Qed.
Lemma no_panic_ensure_descriptor_index d i : no_panic (ensure_descriptor_index d i).
Proof. apply no_panic_err_if. Qed.
Lemma no_panic_reject_nested_indirect i f : no_panic (reject_nested_indirect i f).
Proof. apply no_panic_err_if. Qed.
#[local] Hint Resolve no_panic_descriptor_of no_panic_require_flags
  no_panic_require_length no_panic_ensure_descriptor_index no_panic_reject_nested_indirect : panics.

Lemma no_panic_read_descriptor d m i :
  regs_wf d.(regs) → memory_wf m → u16 i → no_panic (read_descriptor d m i).
Proof.
  intros Hd Hm Hi. unfold read_descriptor. regs_facts Hd. do 3 np_guest. np_leaf.
Qed.
Lemma no_panic_read_indirect_descriptor m t n i :
  memory_wf m → u64 t → u16 i → no_panic (read_indirect_descriptor m t n i).
Proof.
  intros Hm Ht Hi. unfold read_indirect_descriptor, DESCRIPTOR_SIZE. do 4 np_guest. np_leaf.
Qed.
Lemma read_descriptor_wf d m i x :
  regs_wf d.(regs) → memory_wf m → u16 i → read_descriptor d m i = Ok x → desc_wf x.
Proof.
  intros Hd Hm Hi H. unfold read_descriptor in H. regs_facts Hd. bind_inv H. arith_inv. guest_inv.
  apply descriptor_of_wf in H; [done|by apply mem_get_ok].
Qed.
Lemma read_indirect_descriptor_wf m t n i x :
  memory_wf m → u64 t → u16 i → read_indirect_descriptor m t n i = Ok x → desc_wf x.
Proof.
  intros Hm Ht Hi H. unfold read_indirect_descriptor, DESCRIPTOR_SIZE in H. bind_inv H.
  arith_inv. guest_inv. apply descriptor_of_wf in H; [done|by apply mem_get_ok].
Qed.
#[local] Hint Extern 4 (no_panic (read_descriptor _ _ _)) =>
  apply no_panic_read_descriptor; [assumption|assumption|np_side] : panics.
#[local] Hint Extern 4 (no_panic (read_indirect_descriptor _ _ _ _)) =>
  apply no_panic_read_indirect_descriptor; [assumption|np_side|np_side] : panics.

(** [desc_inv] keeps the field types of every descriptor read so far. *)
Ltac desc_inv :=
  repeat match goal with
  | H : read_descriptor _ _ _ = Ok _ |- _ =>
      apply read_descriptor_wf in H; [destruct H as (?&?&?&?)|assumption|assumption|np_side]
  | H : read_indirect_descriptor _ _ _ _ = Ok _ |- _ =>
      apply read_indirect_descriptor_wf in H; [destruct H as (?&?&?&?)|assumption|np_side|np_side]
  end.

Lemma resolve_request_chain_wf d m head c :
  regs_wf d.(regs) → memory_wf m → u16 head →
  resolve_request_chain d m head = Ok c → chain_wf c.
Proof.
  intros Hd Hm Hh H. unfold resolve_request_chain in H. apply bind_Ok_inv in H as (o&Ho&H).
  desc_inv. unfold chain_wf, desc_wf. case_match.
  - unfold resolve_indirect_request_chain in H. bind_inv H. desc_inv. by simpl.
  - unfold resolve_direct_request_chain in H. bind_inv H. desc_inv. by simpl.
Qed.
Lemma no_panic_resolve_request_chain d m head :
  regs_wf d.(regs) → memory_wf m → u16 head → no_panic (resolve_request_chain d m head).
Proof.
  intros Hd Hm Hh. unfold resolve_request_chain. np_step; desc_inv. case_match.
  - unfold resolve_indirect_request_chain. repeat (cbv zeta; np_step; desc_inv). done.
  - unfold resolve_direct_request_chain. repeat (cbv zeta; np_step; desc_inv). done.
Qed.

(** * The checks before processing *)
#[local] Hint Extern 4 (no_panic (resolve_request_chain _ _ _)) =>
  apply no_panic_resolve_request_chain; [assumption|assumption|np_side] : panics.

Lemma no_panic_blk_take_head d m :
  regs_wf d.(regs) → memory_wf m → no_panic (blk_take_head d m).
Proof.
  intros Hd Hm. unfold blk_take_head. regs_facts Hd. repeat (cbv zeta; np_guest). done.
Qed.
Lemma blk_take_head_inv d m a h :
  regs_wf d.(regs) → memory_wf m → blk_take_head d m = Ok (a, h) →
  queue_ready d.(regs) ∧ d.(regs).(notify_pending) = true ∧
  a = wrapping_add 16 d.(regs).(last_avail_idx) 1 ∧ u16 h ∧ h < d.(regs).(queue_size).
Proof.
  intros Hd Hm H. unfold blk_take_head, ensure_descriptor_index in H. regs_facts Hd. bind_inv H.
  arith_inv. guest_inv. res_simplify. simplify_eq. split_and!; try done; congruence.
Qed.
Lemma no_panic_read_request m c :
  memory_wf m → chain_wf c → no_panic (read_request m c).
Proof.
  intros Hm ((?&?&?&?)&_). unfold read_request. repeat np_guest. done.
Qed.
Lemma read_request_inv m c t r s :
  memory_wf m → chain_wf c → read_request m c = Ok (t, r, s) → u32 t ∧ u32 r ∧ u64 s.
Proof.
  intros Hm ((?&?&?&?)&_) Hrun. unfold read_request in Hrun.
  apply bind_Ok_inv in Hrun as (bs&Hbs&Hrun). apply bind_Ok_inv in Hrun as (t'&Ht&Hrun).
  apply bind_Ok_inv in Hrun as (r'&Hr&Hrun). apply bind_Ok_inv in Hrun as (s'&Hs&Hrun).
  injection Hrun as <- <- <-. guest_inv.
  apply from_le_slice_bound in Ht, Hr, Hs; done || lia || by apply mem_get_ok.
Qed.
Lemma no_panic_request_backing_range s n : no_panic (request_backing_range s n).
Proof.
  unfold request_backing_range, VIRTIO_BLK_BACKING_SIZE, VIRTIO_BLK_SECTOR_SIZE,
    VIRTIO_BLK_CAPACITY_SECTORS.
  repeat (cbv zeta; np_step). unfold try_from. by zcmp.
Qed.
Lemma request_backing_range_inv s n a b :
  0 ≤ s → 0 ≤ n → request_backing_range s n = Ok (a, b) →
  a = s * VIRTIO_BLK_SECTOR_SIZE ∧ b = a + n ∧ 0 ≤ a ∧ 0 < n ∧ n mod VIRTIO_BLK_SECTOR_SIZE = 0 ∧
  b ≤ VIRTIO_BLK_BACKING_SIZE.
Proof.
  intros Hs Hn H. unfold request_backing_range in H. bind_inv H. arith_inv. simplify_eq.
  unfold VIRTIO_BLK_SECTOR_SIZE in *. split_and!; done || lia.
Qed.
Lemma no_panic_check_used_idx d m :
  regs_wf d.(regs) → memory_wf m → no_panic (check_used_idx d m).
Proof. intros Hd Hm. unfold check_used_idx. regs_facts Hd. repeat np_guest. done. Qed.
Lemma check_used_idx_inv d m a :
  regs_wf d.(regs) → memory_wf m → check_used_idx d m = Ok a →
  a = d.(regs).(queue_device) + 2 ∧ in_region m.(region) a 2 ∧
  from_le_bytes (mem_get m a 2) = d.(regs).(last_used_idx).
Proof.
  intros Hd Hm H. unfold check_used_idx in H. regs_facts Hd. bind_inv H. guest_inv.
  simplify_eq. split_and!; try done; congruence.
Qed.
Lemma no_panic_used_element_address d : regs_wf d.(regs) → no_panic (used_element_address d).
Proof. intros Hd. unfold used_element_address. regs_facts Hd. repeat np_guest. np_leaf. Qed.
Lemma used_element_address_inv d a :
  regs_wf d.(regs) → used_element_address d = Ok a →
  a = d.(regs).(queue_device) + (4 + 8 * (d.(regs).(last_used_idx) mod d.(regs).(queue_size))) ∧
  u64 a.
Proof.
  intros Hd H. unfold used_element_address in H. regs_facts Hd. bind_inv H. arith_inv. guest_inv.
  split; [done|ulia].
Qed.
Lemma no_panic_preflight m a n : memory_wf m → 0 ≤ n → no_panic (preflight_guest_output m a n).
Proof. intros Hm Hn. unfold preflight_guest_output. np. Qed.
Lemma preflight_inv m a n u :
  memory_wf m → 0 ≤ a → 0 ≤ n → preflight_guest_output m a n = Ok u → in_region m.(region) a n.
Proof.
  intros Hm Ha Hn H. unfold preflight_guest_output in H. bind_inv H.
  by apply read_inv in Hstep as [? _].
Qed.
#[local] Hint Resolve no_panic_blk_take_head no_panic_read_request no_panic_request_backing_range
  no_panic_check_used_idx no_panic_used_element_address : panics.
#[local] Hint Extern 4 (no_panic (preflight_guest_output _ _ _)) =>
  apply no_panic_preflight; [assumption|np_side] : panics.

(** A request the preflight accepts: where it reads and writes, all inside
    guest RAM and the backing store. *)
Record plan_ok (d : VirtioBlkDevice) (m : GuestMemory) (p : BlkPlan) : Prop := {
  plan_ready : queue_ready d.(regs) ∧ d.(regs).(notify_pending) = true;
  plan_avail : p.(plan_avail_idx) = wrapping_add 16 d.(regs).(last_avail_idx) 1;
  plan_head_ok : u16 p.(plan_head) ∧ p.(plan_head) < d.(regs).(queue_size);
  plan_chain_ok : chain_wf p.(plan_chain);
  plan_type_ok : p.(plan_request_type) = VIRTIO_BLK_T_IN ∨ p.(plan_request_type) = VIRTIO_BLK_T_OUT;
  plan_range_ok : 0 ≤ p.(plan_start) ∧ p.(plan_start) = p.(plan_sector) * VIRTIO_BLK_SECTOR_SIZE ∧
    p.(plan_end) = p.(plan_start) + p.(plan_chain).(data).(desc_length) ∧
    0 < p.(plan_chain).(data).(desc_length) ∧ p.(plan_end) ≤ VIRTIO_BLK_BACKING_SIZE;
  plan_used_ok : p.(plan_used_idx_address) = d.(regs).(queue_device) + 2 ∧
    p.(plan_used_element) =
      d.(regs).(queue_device) + (4 + 8 * (d.(regs).(last_used_idx) mod d.(regs).(queue_size)));
  plan_data_in : in_region m.(region) p.(plan_chain).(data).(desc_address)
                   p.(plan_chain).(data).(desc_length);
  plan_status_in : in_region m.(region) p.(plan_chain).(status_descriptor).(desc_address) 1;
  plan_element_in : in_region m.(region) p.(plan_used_element) 8;
  plan_used_idx_in : in_region m.(region) p.(plan_used_idx_address) 2;
  plan_used_idx : from_le_bytes (mem_get m p.(plan_used_idx_address) 2) = d.(regs).(last_used_idx);
  plan_outgoing : p.(outgoing_data) =
    if p.(plan_request_type) =? VIRTIO_BLK_T_OUT
    then Some (mem_get m p.(plan_chain).(data).(desc_address) p.(plan_chain).(data).(desc_length))
    else None
}.

Lemma no_panic_blk_preflight d m : blk_wf d → memory_wf m → no_panic (blk_preflight d m).
Proof.
  intros (Hd&_&_) Hm. unfold blk_preflight.
  apply no_panic_bind; [auto with panics|].
  intros [a h] (?&?&?&?&?)%blk_take_head_inv; [|done|done].
  apply no_panic_bind; [auto with panics|].
  intros c Hc%resolve_request_chain_wf; [|done..].
  apply no_panic_bind; [auto with panics|].
  intros [[t r] s] (?&?&?)%read_request_inv; [|done|done].
  pose proof Hc as (_&(?&?&_&_)&(?&?&_&_)).
  do 2 np_step. apply no_panic_bind; [auto with panics|]. intros [x y] _. cbv zeta.
  np_step. apply no_panic_bind; [auto with panics|]. intros ? _.
  apply no_panic_bind; [auto with panics|]. intros ? _.
  apply no_panic_bind;
    [destruct (t =? VIRTIO_BLK_T_OUT); [apply no_panic_fmap|]; np|]. intros ? _.
  np.
Qed.
Lemma blk_preflight_ok d m p :
  blk_wf d → memory_wf m → blk_preflight d m = Ok p → plan_ok d m p.
Proof.
  intros (Hd&_&_) Hm H. unfold blk_preflight in H. regs_facts Hd.
  apply bind_Ok_inv in H as ([a h]&Hhead&H). apply blk_take_head_inv in Hhead as (?&?&?&?&?); [|done..].
  apply bind_Ok_inv in H as (c&Hc&H). apply resolve_request_chain_wf in Hc; [|done..].
  apply bind_Ok_inv in H as ([[t r] s]&Hr&H). apply read_request_inv in Hr as (?&?&?); [|done..].
  pose proof Hc as (_&(?&?&_&_)&(?&?&_&_)).
  apply bind_Ok_inv in H as ([]&Ht&H). apply bind_Ok_inv in H as ([]&_&H).
  apply bind_Ok_inv in H as ([st en]&Hrange&H). apply map_err_Ok_inv in Hrange.
  apply request_backing_range_inv in Hrange as (?&?&?&?&_&?); [|ulia|ulia].
  cbv zeta in H. apply bind_Ok_inv in H as ([]&_&H).
  apply bind_Ok_inv in H as (ua&Hua&H). apply check_used_idx_inv in Hua as (?&?&?); [|done..].
  apply bind_Ok_inv in H as (ue&Hue&H). apply used_element_address_inv in Hue as (?&?); [|done..].
  apply bind_Ok_inv in H as (out&Hout&H).
  apply bind_Ok_inv in H as ([]&Hs&H). apply preflight_inv in Hs; [|done|ulia|lia].
  apply bind_Ok_inv in H as ([]&He&H). apply preflight_inv in He; [|done|ulia|lia].
  apply bind_Ok_inv in H as ([]&Hi&[= <-]).
  apply err_if_Ok_inv, andb_false_iff in Ht. rewrite !negb_false_iff, !Z.eqb_eq in Ht.
  assert (in_region (region m) (desc_address (data c)) (desc_length (data c)) ∧
    out = if t =? VIRTIO_BLK_T_OUT
          then Some (mem_get m (desc_address (data c)) (desc_length (data c))) else None) as [? ?].
  { destruct (t =? VIRTIO_BLK_T_OUT); bind_inv Hout.
    - apply read_inv in Hout as [? ->]; [|done|ulia|ulia]. by subst.
    - by apply preflight_inv in Hstep; [|done|ulia|ulia]. }
  split; cbn; first [done|by split_and!].
Qed.

(** * Atomic processing *)

(** The bytes of the backing store a plan addresses. *)
Definition plan_contents (d : VirtioBlkDevice) (p : BlkPlan) : list Z :=
  take (Z.to_nat p.(plan_chain).(data).(desc_length)) (drop (Z.to_nat p.(plan_start)) d.(backing)).
Definition plan_written (p : BlkPlan) : Z :=
  if p.(plan_request_type) =? VIRTIO_BLK_T_IN then p.(plan_chain).(data).(desc_length) + 1 else 1.

(** What a request does, as a function of the state before it. *)
Definition published_memory (d : VirtioBlkDevice) (m : GuestMemory) (p : BlkPlan) : GuestMemory :=
  let m := mem_set m p.(plan_chain).(status_descriptor).(desc_address) [VIRTIO_BLK_S_OK] in
  let m := mem_set m p.(plan_used_element)
             (to_le_bytes 4 p.(plan_head) ++ to_le_bytes 4 (plan_written p)) in
  mem_set m p.(plan_used_idx_address)
    (to_le_bytes 2 (wrapping_add 16 d.(regs).(last_used_idx) 1)).
Definition planned_memory (d : VirtioBlkDevice) (m : GuestMemory) (p : BlkPlan) : GuestMemory :=
  published_memory d
    (if p.(plan_request_type) =? VIRTIO_BLK_T_IN
     then mem_set m p.(plan_chain).(data).(desc_address) (plan_contents d p) else m) p.
Definition planned_device (d : VirtioBlkDevice) (p : BlkPlan) : VirtioBlkDevice :=
  finish_request p.(plan_avail_idx) (wrapping_add 16 d.(regs).(last_used_idx) 1)
    (match p.(outgoing_data) with
     | Some bytes => set_backing (splice d.(backing) p.(plan_start) bytes) d
     | None => d
     end).

Lemma finish_request_wf d a n : blk_wf d → u16 a → u16 n → blk_wf (finish_request a n d).
Proof. intros (?&?&?) ??. split_and!; [by apply complete_request_wf|done|done]. Qed.
Lemma set_backing_wf d a bs :
  blk_wf d → bytes_ok bs → 0 ≤ a → a + len bs ≤ VIRTIO_BLK_BACKING_SIZE →
  blk_wf (set_backing (splice d.(backing) a bs) d).
Proof.
  intros (?&?&Hl) ???. split_and!; simpl; [done|eauto with bytes|].
  by rewrite len_splice by (done || lia).
Qed.
Lemma plan_contents_ok d m p :
  blk_wf d → plan_ok d m p →
  slice (E:=PE) d.(backing) p.(plan_start) p.(plan_end) = Ok (plan_contents d p) ∧
  len (plan_contents d p) = p.(plan_chain).(data).(desc_length) ∧ bytes_ok (plan_contents d p).
Proof.
  intros (_&Hb&Hl) Hp. destruct (plan_range_ok _ _ _ Hp) as (?&?&He&?&?).
  unfold plan_contents. split_and!; [|autorewrite with bytes; lia|eauto with bytes].
  rewrite slice_ok by lia. do 3 f_equal. lia.
Qed.
Lemma planned_device_wf d m p :
  blk_wf d → memory_wf m → plan_ok d m p → blk_wf (planned_device d p).
Proof.
  intros Hd Hm Hp. unfold planned_device.
  apply finish_request_wf; [|rewrite (plan_avail _ _ _ Hp)|]; [|apply wrapping_succ_u16..].
  rewrite (plan_outgoing _ _ _ Hp). destruct (_ =? _); [|done].
  destruct (plan_range_ok _ _ _ Hp) as (?&_&?&?&?).
  apply set_backing_wf; [done|by apply mem_get_ok|done|]. rewrite len_mem_get by lia. lia.
Qed.

(** [fits_after]: the output ranges of the plan still fit after earlier
    outputs, because writes keep the region. *)
Lemma in_region_set m a bs b n :
  in_region m.(region) b n → in_region (mem_set m a bs).(region) b n.
Proof. by rewrite mem_set_region. Qed.
#[local] Hint Resolve in_region_set : bytes.

Lemma runs_guest_write_in {D E} (inject : Error → E) (d : D) m a bs n (Q : unit → D * GuestMemory → Prop) X :
  memory_wf m → len bs = n → in_region m.(region) a n → Q tt (d, mem_set m a bs) →
  runs (guest_write inject a bs) (d, m) Q X.
Proof. intros Hm <- Hin HQ. unfold runs. by rewrite guest_write_ok. Qed.

Lemma blk_publish_runs d disk m m1 p (Q : VirtioBlkQueueCompletion → BlkState → Prop) X :
  plan_ok d m p → memory_wf m1 → m1.(region) = m.(region) →
  Q (mkBlkCompletion p.(plan_head) (plan_written p) p.(plan_sector))
    ((planned_device d p, disk), published_memory d m1 p) →
  runs (blk_publish d p (plan_written p)) ((d, disk), m1) Q X.
Proof.
  intros Hp Hm1 Hr1 HQ.
  assert (bytes_ok [VIRTIO_BLK_S_OK])
    by (apply Forall_singleton; unfold VIRTIO_BLK_S_OK; ulia).
  apply runs_bind. eapply runs_guest_write_in; [done|done|rewrite Hr1; apply Hp|].
  apply runs_bind. eapply runs_guest_write_in;
    [by apply mem_set_wf|by autorewrite with bytes|rewrite mem_set_region, Hr1; apply Hp|].
  cbv zeta. apply runs_bind. eapply runs_guest_write_in;
    [apply mem_set_wf; [by apply mem_set_wf|eauto with bytes]|apply len_to_le_bytes
    |rewrite !mem_set_region, Hr1; apply Hp|].
  unfold planned_device in HQ. by destruct (outgoing_data p).
Qed.

Section atomic.
Context (file_write : list Z → Z → list Z → res Error unit * list Z).
(** The host does not unwind, and a write it reports as done is in the file. *)
Hypothesis file_write_total : ∀ disk off bs, no_panic (file_write disk off bs).1.

(** The file after a request: what the host left for a write request of a
    file-backed device, untouched otherwise. *)
Definition disk_after (d : VirtioBlkDevice) (p : BlkPlan) (disk disk' : list Z) : Prop :=
  match p.(outgoing_data), d.(persistent_backing) with
  | Some bs, Some _ => file_write disk p.(plan_start) bs = (Ok tt, disk')
  | _, _ => disk' = disk
  end.

Lemma persist_runs d disk m p bs Q X :
  blk_wf d → memory_wf m → plan_ok d m p → p.(outgoing_data) = Some bs →
  (∀ disk', disk_after d p disk disk' → Q tt ((d, disk'), m)) →
  (∀ e disk', X (BlkBacking e) ((d, disk'), m)) →
  runs (persist_backing_range file_write p.(plan_start) p.(plan_end) bs) ((d, disk), m) Q X.
Proof.
  intros Hd Hm Hp Hout HQ HX. unfold runs, persist_backing_range. cbn [fst snd].
  unfold disk_after in HQ. rewrite Hout in HQ.
  destruct (persistent_backing d) as [path|] eqn:Hpath; [|by apply HQ].
  destruct (plan_range_ok _ _ _ Hp) as (?&_&?&?&?).
  rewrite (plan_outgoing _ _ _ Hp) in Hout.
  destruct (plan_request_type p =? VIRTIO_BLK_T_OUT); [|done]. injection Hout as <-.
  rewrite len_mem_get by lia. zcmp. cbn [orb negb].
  pose proof (file_write_total disk (plan_start p)
    (mem_get m (desc_address (data (plan_chain p))) (desc_length (data (plan_chain p))))) as Ht.
  destruct (file_write _ _ _) as [[[]|e|] disk'] eqn:Hw; [|apply HX|by destruct Ht].
  by apply HQ.
Qed.

Lemma process_atomic_runs d disk m :
  blk_wf d → memory_wf m →
  runs (process_notified_queue_atomic file_write) ((d, disk), m)
    (λ c s', ∃ p, plan_ok d m p ∧
       c = mkBlkCompletion p.(plan_head) (plan_written p) p.(plan_sector) ∧
       s'.1.1 = planned_device d p ∧ s'.2 = planned_memory d m p ∧ disk_after d p disk s'.1.2)
    (λ e s', s'.1.1 = d ∧ s'.2 = m ∧ (s'.1.2 = disk ∨ ∃ e', e = BlkBacking e')).
Proof.
  intros Hd Hm. unfold process_notified_queue_atomic.
  apply runs_bind, runs_get, runs_bind, runs_lift.
  { by apply no_panic_blk_preflight. }
  2: { intros e _. cbn. auto. }
  cbn [fst snd]. intros p Hpre. pose proof (blk_preflight_ok d m p Hd Hm Hpre) as Hp.
  destruct (plan_contents_ok d m p Hd Hp) as (Hslice&Hlen&Hok).
  set (Q := λ (c : VirtioBlkQueueCompletion) (s' : BlkState), ∃ p, _).
  set (X := λ (e : PE) (s' : BlkState), _ ∧ _).
  assert (∀ disk', disk_after d p disk disk' → runs
    (written ← (if p.(plan_request_type) =? VIRTIO_BLK_T_IN then
               contents ← lift (slice d.(backing) p.(plan_start) p.(plan_end));
               _ ← guest_write BlkMemory p.(plan_chain).(data).(desc_address) contents;
               lift (uadd 32 p.(plan_chain).(data).(desc_length) 1)
             else mret 1);
     blk_publish d p written) ((d, disk'), m) Q X) as Hcommit.
  { intros disk' Hdisk.
    assert (Q (mkBlkCompletion (plan_head p) (plan_written p) (plan_sector p))
              ((planned_device d p, disk'), planned_memory d m p)) as HQ by (by exists p).
    unfold planned_memory, plan_written in HQ.
    pose proof (blk_publish_runs d disk' m
      (if plan_request_type p =? VIRTIO_BLK_T_IN
       then mem_set m (desc_address (data (plan_chain p))) (plan_contents d p) else m) p Q X Hp)
      as Hpub.
    destruct (plan_range_ok _ _ _ Hp) as (?&_&?&?&?). unfold plan_written in Hpub.
    unfold VIRTIO_BLK_BACKING_SIZE, VIRTIO_BLK_SECTOR_SIZE, VIRTIO_BLK_CAPACITY_SECTORS in *.
    destruct (plan_request_type p =? VIRTIO_BLK_T_IN); apply runs_bind.
    - eapply runs_lift_ok; [exact Hslice|].
      apply runs_bind. eapply runs_guest_write_in; [done|exact Hlen|apply Hp|].
      unfold runs at 1, lift. rewrite uadd_ok by lia.
      apply Hpub; [by apply mem_set_wf|apply mem_set_region|done].
    - by apply runs_ret, Hpub. }
  cbv zeta. apply runs_bind. pose proof (persist_runs d disk m p) as Hpersist.
  unfold disk_after in Hcommit, Hpersist. destruct (outgoing_data p) as [bs|].
  - apply Hpersist; [done|done|done|done|exact Hcommit|].
    intros e disk'. unfold X. cbn. eauto 10.
  - by apply runs_ret, Hcommit.
Qed.
End atomic.

Lemma planned_memory_wf d m p :
  blk_wf d → memory_wf m → plan_ok d m p →
  memory_wf (planned_memory d m p) ∧ (planned_memory d m p).(region) = m.(region).
Proof.
  intros Hd Hm Hp. destruct (plan_contents_ok d m p Hd Hp) as (_&_&?).
  unfold planned_memory, published_memory. cbv zeta. rewrite !mem_set_region.
  assert (bytes_ok [VIRTIO_BLK_S_OK])
    by (apply Forall_singleton; unfold VIRTIO_BLK_S_OK; ulia).
  destruct (_ =? _); rewrite ?mem_set_region; (split; [|done]);
    repeat (apply mem_set_wf; [|eauto with bytes]); done.
Qed.
Lemma planned_memory_used_idx d m p :
  blk_wf d → memory_wf m → plan_ok d m p →
  read_guest_u16 BlkMemory (planned_memory d m p) (d.(regs).(queue_device) + 2) =
    Ok (planned_device d p).(regs).(last_used_idx).
Proof.
  intros Hd Hm Hp. destruct (planned_memory_wf d m p) as [Hw Hr]; [done..|].
  destruct (plan_used_ok _ _ _ Hp) as [Hu _].
  rewrite read_guest_u16_ok; [|done|rewrite Hr, <- Hu; apply Hp].
  unfold planned_memory, published_memory. rewrite <- Hu.
  rewrite mem_get_set_len by apply len_to_le_bytes.
  rewrite from_to_le_bytes by apply wrapping_succ_u16. done.
Qed.

Lemma disk_after_mirrored file_write d p disk disk' :
  (∀ disk off bs disk', file_write disk off bs = (Ok tt, disk') → disk' = splice disk off bs) →
  mirrored (d, disk) → disk_after file_write d p disk disk' → mirrored (planned_device d p, disk').
Proof.
  intros Hdur Hmir Hd [path Hpath]. unfold disk_after, planned_device, mirrored in *.
  destruct (outgoing_data p) as [bs|]; simpl in *; rewrite Hpath in *.
  - apply Hdur in Hd as ->. f_equal. by apply Hmir.
  - rewrite Hd. by apply Hmir.
Qed.


(** A concrete write request: three chained descriptors, one sector. *)
Definition blk_demo_device : VirtioBlkDevice :=
  mkBlk (mkRegs 0x10000000 0 1 VIRTIO_F_VERSION_1 15 0 8 true 0x200000 0x200100 0x200200 true 0 0 0)
    (replicate 2048 0) (Some "disk.img").
Definition demo_descriptor (a l f n : Z) : list Z :=
  to_le_bytes 8 a ++ to_le_bytes 4 l ++ to_le_bytes 2 f ++ to_le_bytes 2 n.
Definition blk_demo_rings (status_address : Z) (type data_flags : Z) : GuestMemory :=
  let m := mem_set example_memory 0x200000 (demo_descriptor 0x200300 16 1 1) in
  let m := mem_set m 0x200010 (demo_descriptor 0x200400 512 data_flags 2) in
  let m := mem_set m 0x200020 (demo_descriptor status_address 1 2 0) in
  let m := mem_set m 0x200102 (to_le_bytes 2 1) in
  let m := mem_set m 0x200300 (to_le_bytes 4 type ++ to_le_bytes 4 0 ++ to_le_bytes 8 2) in
  mem_set m 0x200400 (replicate 512 0x5a).
Definition blk_demo_file (disk : list Z) (off : Z) (bs : list Z) : res Error unit * list Z :=
  (Ok tt, splice disk off bs).

Lemma blk_demo_device_wf : blk_wf blk_demo_device.
Proof.
  split_and!; [|apply bytes_ok_replicate; ulia|reflexivity].
  split; simpl; try done; try ulia; try (by left); try (by split_and!); try (by vm_compute).
  do 3 apply list_elem_of_further. apply list_elem_of_here.
Qed.
Lemma blk_demo_rings_wf a t f : memory_wf (blk_demo_rings a t f).
Proof.
  unfold blk_demo_rings, demo_descriptor.
  repeat (apply mem_set_wf; [|repeat apply bytes_ok_app; try apply to_le_bytes_ok]).
  - apply example_memory_wf.
  - apply bytes_ok_replicate. ulia.
Qed.


(** * Reading back what was written *)

Lemma take_drop_splice (l k : list Z) a :
  0 ≤ a → a + len k ≤ len l →
  take (Z.to_nat (len k)) (drop (Z.to_nat a) (splice l a k)) = k.
Proof.
  intros Ha Hl. pose proof (len_nonneg k). unfold splice, len in *.
  rewrite drop_app_length' by (rewrite length_take; lia).
  by rewrite Nat2Z.id, take_app_length.
Qed.
Lemma take_drop_splice_disjoint (l k : list Z) a b n :
  0 ≤ a → a + len k ≤ len l → 0 ≤ b → 0 ≤ n → b + n ≤ len l → b + n ≤ a ∨ a + len k ≤ b →
  take (Z.to_nat n) (drop (Z.to_nat b) (splice l a k)) = take (Z.to_nat n) (drop (Z.to_nat b) l).
Proof.
  intros ?????? . pose proof (len_nonneg k). unfold splice.
  apply list_eq. intros i. destruct (decide (i < Z.to_nat n)%nat) as [Hi|Hi].
  2: { rewrite !lookup_ge_None_2; [done|rewrite length_take; lia..]. }
  rewrite !lookup_take_lt, !lookup_drop by done. unfold len in *.
  destruct (decide (Z.to_nat b + i < Z.to_nat a)%nat) as [Hlt|Hge].
  - rewrite lookup_app_l by (rewrite length_take; lia). by rewrite lookup_take_lt.
  - rewrite lookup_app_r by (rewrite length_take; lia). rewrite lookup_app_r.
    + rewrite lookup_drop, length_take. f_equal. lia.
    + rewrite length_take. lia.
Qed.

(** Register accesses, which leave the backing store alone. *)
Inductive blk_access : VirtioBlkDevice → VirtioBlkDevice → Prop :=
  | blk_access_read d offset length : blk_access d (blk_read offset length d).2
  | blk_access_write d offset payload : bytes_ok payload → blk_access d (blk_write offset payload d).2.
Lemma on_regs_backing {A} (m : prog VirtioRegs VirtioBlkError A) d :
  (on_regs m d).2.(backing) = d.(backing) ∧ (on_regs m d).2.(regs) = (m d.(regs)).2.
Proof. unfold on_regs. by destruct (m (regs d)) as [r regs']. Qed.
Lemma blk_access_wf d d' :
  blk_access d d' → blk_wf d → blk_wf d' ∧ d'.(backing) = d.(backing).
Proof.
  intros [? o n|? o p Hp] (Hr&Hb); unfold blk_wf.
  - destruct (on_regs_backing (virtio_read o n) d0) as [Hb' Hr'].
    unfold blk_read. rewrite Hb', Hr'. split; [|done]. split; [by apply virtio_read_safe|done].
  - destruct (on_regs_backing (virtio_write o p) d0) as [Hb' Hr'].
    unfold blk_write. rewrite Hb', Hr'. split; [|done]. split; [by apply virtio_write_safe|done].
Qed.
Lemma blk_accesses_wf d d' :
  rtc blk_access d d' → blk_wf d → blk_wf d' ∧ d'.(backing) = d.(backing).
Proof.
  induction 1 as [|d d1 d2 H _ IH]; intros Hd; [done|].
  apply blk_access_wf in H as [? <-]; [|done]. by apply IH.
Qed.



(** * Read-only processing *)

(** The state of a run of [blk_process_notified_queue] before its end: only
    guest memory has changed. *)
Definition memory_only (d : VirtioBlkDevice) (disk : list Z) (m : GuestMemory) (s : BlkState) : Prop :=
  s.1 = (d, disk) ∧ memory_wf s.2 ∧ s.2.(region) = m.(region).

Lemma blk_process_runs d disk m :
  blk_wf d → memory_wf m →
  runs blk_process_notified_queue ((d, disk), m)
    (λ c s', ∃ avail, s'.1 = (finish_request avail (wrapping_add 16 d.(regs).(last_used_idx) 1) d, disk) ∧
       u16 avail ∧ memory_wf s'.2 ∧ s'.2.(region) = m.(region))
    (λ _ s', memory_only d disk m s').
Proof.
  intros Hd Hm. pose proof Hd as (Hr&Hb&Hl). unfold blk_process_notified_queue.
  apply runs_bind, runs_get. cbv zeta. cbn [fst snd].
  assert (memory_only d disk m ((d, disk), m)) as H0 by done.
  apply runs_bind, runs_lift; [auto with panics| |done].
  intros [a h] (_&_&->&?&?)%blk_take_head_inv; [|done|done].
  apply runs_bind, runs_lift; [auto with panics| |done].
  intros c Hc%resolve_request_chain_wf; [|done..]. pose proof Hc as (_&(?&?&_&_)&(?&?&_&_)).
  do 2 (apply runs_bind, runs_lift; [auto with panics|intros ? _|done]).
  apply runs_bind, runs_lift; [auto with panics| |done].
  intros [[t r] s] (?&?&?)%read_request_inv; [|done|done].
  do 2 (apply runs_bind, runs_lift; [auto with panics|intros ? _|done]).
  apply runs_bind, runs_lift; [auto with panics| |done].
  intros [st en] Hrange%map_err_Ok_inv.
  apply request_backing_range_inv in Hrange as (?&?&?&?&_&?); [|ulia|ulia].
  apply runs_bind, runs_lift; [auto with panics| |done].
  intros ua (->&Hua&_)%check_used_idx_inv; [|done|done].
  eapply runs_lift_ok; [apply slice_ok; lia|]. set (contents := take _ _).
  apply runs_bind, runs_guest_write; [done|ulia|unfold contents; eauto with bytes| |done].
  intros _. set (m1 := mem_set m _ _).
  assert (memory_wf m1 ∧ m1.(region) = m.(region)) as [Hm1 Hr1]
    by (split; [apply mem_set_wf; unfold contents; eauto with bytes|apply mem_set_region]).
  apply runs_bind, runs_guest_write;
    [done|ulia|apply Forall_singleton; unfold VIRTIO_BLK_S_OK; ulia| |by intros; split_and!].
  intros _. set (m2 := mem_set m1 _ _).
  assert (memory_wf m2 ∧ m2.(region) = m.(region)) as [Hm2 Hr2].
  { split; [apply mem_set_wf; [done|apply Forall_singleton; unfold VIRTIO_BLK_S_OK; ulia]|].
    unfold m2. by rewrite mem_set_region. }
  unfold VIRTIO_BLK_BACKING_SIZE, VIRTIO_BLK_SECTOR_SIZE, VIRTIO_BLK_CAPACITY_SECTORS in *.
  eapply runs_lift_ok; [apply uadd_ok; lia|].
  apply runs_bind, runs_lift; [auto with panics| |by intros; split_and!].
  intros ue (?&?)%used_element_address_inv; [|done].
  apply runs_bind, runs_guest_write; [done|ulia|eauto with bytes| |by intros; split_and!].
  intros _. set (m3 := mem_set m2 _ _).
  assert (memory_wf m3 ∧ m3.(region) = m.(region)) as [Hm3 Hr3]
    by (split; [apply mem_set_wf; eauto with bytes|unfold m3; by rewrite mem_set_region]).
  apply runs_bind, runs_lift; [auto with panics| |by intros; split_and!].
  intros ua Hu. regs_facts Hr. guest_inv.
  apply runs_bind. eapply runs_guest_write_in; [done|apply len_to_le_bytes|by rewrite Hr3|].
  apply runs_bind. unfold on_device. apply runs_modify, runs_ret. cbn [fst snd].
  eexists. split_and!; [done|apply wrapping_succ_u16|apply mem_set_wf; eauto with bytes|].
  by rewrite mem_set_region.
Qed.

(** * Reachable states *)

Section reachable.
Context (file_write : list Z → Z → list Z → res Error unit * list Z).

(** Register accesses, both processing functions, and anything the guest
    does to its RAM. *)
Inductive blk_step : BlkState → BlkState → Prop :=
  | blk_step_access d d' disk m : blk_access d d' → blk_step ((d, disk), m) ((d', disk), m)
  | blk_step_process s : blk_step s (blk_process_notified_queue s).2
  | blk_step_atomic s : blk_step s (process_notified_queue_atomic file_write s).2
  | blk_step_guest w m m' :
      memory_wf m' → m'.(region) = m.(region) → blk_step (w, m) (w, m').

(** The parts of the state each step keeps well-formed. *)
Definition blk_state_wf (s : BlkState) : Prop := blk_wf s.1.1 ∧ memory_wf s.2.

Hypothesis file_write_total : ∀ disk off bs, no_panic (file_write disk off bs).1.

Lemma blk_process_wf s :
  blk_state_wf s →
  blk_state_wf (blk_process_notified_queue s).2 ∧ no_panic (blk_process_notified_queue s).1.
Proof.
  destruct s as [[d disk] m]. intros [Hd Hm]. pose proof (blk_process_runs d disk m Hd Hm) as Hr.
  unfold runs in Hr.
  destruct (blk_process_notified_queue _) as [[c|e|] [[d' disk'] m']]; [| |done].
  - destruct Hr as (a&[= -> ->]&?&?&_). split; [|done]. split; [|done].
    apply finish_request_wf; [done|done|apply wrapping_succ_u16].
  - destruct Hr as ([= -> ->]&?&_). by split.
Qed.

Lemma blk_atomic_wf s :
  blk_state_wf s →
  blk_state_wf (process_notified_queue_atomic file_write s).2 ∧
  no_panic (process_notified_queue_atomic file_write s).1.
Proof.
  destruct s as [[d disk] m]. intros [Hd Hm]. pose proof (process_atomic_runs file_write file_write_total d disk m Hd Hm) as Hr.
  unfold runs in Hr.
  destruct (process_notified_queue_atomic _ _) as [[c|e|] [[d' disk'] m']]; [| |done].
  - destruct Hr as (p&Hp&_&Hd'&Hm'&_). simpl in *. subst. split; [|done].
    split; [by apply (planned_device_wf d m)|by apply planned_memory_wf].
  - simpl in Hr. destruct Hr as (->&->&_). by split.
Qed.

Lemma blk_step_wf s s' : blk_step s s' → blk_state_wf s → blk_state_wf s'.
Proof.
  intros [d d' disk m Ha|s1|s1|w m m' Hm Hr] Hs.
  - split; [apply (blk_access_wf d); [done|apply Hs]|apply Hs].
  - by apply blk_process_wf.
  - by apply blk_atomic_wf.
  - split; [apply Hs|done].
Qed.
Lemma blk_steps_wf s s' : rtc blk_step s s' → blk_state_wf s → blk_state_wf s'.
Proof. induction 1; eauto using blk_step_wf. Qed.
End reachable.

Lemma bytes_ok_forallb bs : forallb (fits 8) bs = true → bytes_ok bs.
Proof.
  intros Hf. apply Forall_forall. intros x Hx%list_elem_of_In. rewrite forallb_forall in Hf.
  apply Hf in Hx. unfold fits in Hx. res_simplify. ulia.
Qed.
Lemma blk_new_wf bar : blk_wf (blk_new bar).
Proof.
  split_and!; [apply virtio_new_wf| |by vm_compute]. apply bytes_ok_forallb. by vm_compute.
Qed.

(** C23: no sequence of guest actions breaks the virtio-blk device.  In every
    state reachable from a new device by register accesses of any offset and
    payload, by both processing functions and by arbitrary changes of guest
    RAM, on any host that does not unwind, the register invariant holds and
    the backing store keeps its size and holds bytes; from such a state no
    access and no processing panics. *)
Theorem blk_reachable_safe file_write bar disk0 m0 d disk m :
  (∀ disk off bs, no_panic (file_write disk off bs).1) → memory_wf m0 →
  rtc (blk_step file_write) ((blk_new bar, disk0), m0) ((d, disk), m) →
  blk_wf d ∧ memory_wf m ∧
  (∀ offset length, no_panic (blk_read offset length d).1) ∧
  (∀ offset payload, bytes_ok payload → no_panic (blk_write offset payload d).1) ∧
  no_panic (blk_process_notified_queue ((d, disk), m)).1 ∧
  no_panic (process_notified_queue_atomic file_write ((d, disk), m)).1.
Proof.
  intros Ht Hm Hrtc.
  assert (blk_state_wf ((d, disk), m)) as Hs.
  { eapply blk_steps_wf; [done|done|]. split; [apply blk_new_wf|done]. }
  pose proof Hs as [Hd Hm']. split_and!; [done|done| | | |].
  - intros o n. unfold blk_read, on_regs. pose proof (virtio_read_safe o n (regs d) (proj1 Hd)) as [_ Hn].
    by destruct (virtio_read o n (regs d)).
  - intros o p Hp. unfold blk_write, on_regs.
    pose proof (virtio_write_safe o p Hp (regs d) (proj1 Hd)) as [_ Hn].
    by destruct (virtio_write o p (regs d)).
  - by apply blk_process_wf.
  - by apply blk_atomic_wf.
Qed.

Lemma blk_reachable_safe_witness :
  blk_wf (blk_write COMMON_DEVICE_STATUS [1] (blk_new 0x10000000)).2 ∧
  no_panic (process_notified_queue_atomic blk_demo_file
    (((blk_write COMMON_DEVICE_STATUS [1] (blk_new 0x10000000)).2, []), example_memory)).1.
Proof.
  assert (rtc (blk_step blk_demo_file) ((blk_new 0x10000000, []), example_memory)
    (((blk_write COMMON_DEVICE_STATUS [1] (blk_new 0x10000000)).2, []), example_memory)) as H.
  { apply rtc_once, blk_step_access, blk_access_write. repeat constructor; ulia. }
  destruct (blk_reachable_safe blk_demo_file _ _ _ _ _ _ (λ _ _ _, ltac:(done))
    example_memory_wf H) as (H1&_&_&_&_&H2).
  exact (conj H1 H2).
Defined.

(** Why the atomic variant exists.  For a read request whose status byte
    lies outside guest RAM both processing functions fail and leave the
    device unchanged, but the plain one has by then overwritten the guest's
    data buffer while the atomic one has changed no byte of RAM. *)
Theorem blk_plain_processing_not_atomic :
  let s := ((blk_demo_device, replicate 2048 0), blk_demo_rings 0x300000 0 3) in
  is_ok (blk_process_notified_queue s).1 = false ∧
  byte_at s.2 0x200400 = 0x5a ∧ byte_at (blk_process_notified_queue s).2.2 0x200400 = 0 ∧
  is_ok (process_notified_queue_atomic blk_demo_file s).1 = false ∧
  (process_notified_queue_atomic blk_demo_file s).2 = s.
Proof.
  cbv zeta. do 4 (split; [vm_compute; reflexivity|]).
  assert (is_ok (blk_preflight blk_demo_device (blk_demo_rings 0x300000 0 3)) = false) as Hpre
    by (vm_compute; reflexivity).
  unfold process_notified_queue_atomic. unfold mbind at 1, prog_bind at 1, get.
  rewrite prog_bind_lift. cbn [fst snd].
  by destruct (blk_preflight blk_demo_device (blk_demo_rings 0x300000 0 3)).
Qed.
