(* ===== verification/BlkCheckpoint.v ===== *)
(** Checkpointing the virtio-blk device: [src/src/pci/virtio_blk_checkpoint.rs].
    A device is captured as a semantic state, with a token when a completion
    or a notification is outstanding, and materialized from it. *)

From S2P Require Import Prelude Errors Memory VirtioCommon VirtioBlk.


Inductive VirtioBlkCheckpointStateError :=
  | ExternalBackingUnsupported
  | NotQuiescent
  | PendingCompletionWithoutToken (isr_status : Z)
  | InvalidPendingCompletionToken (bar0 queue last_avail_idx last_used_idx : Z)
  | InvalidPendingNotificationToken (bar0 queue last_avail_idx last_used_idx : Z)
  | MisalignedBar (bar0 : Z)
  | UnsupportedDriverFeatures (features : Z)
  | InvalidStatus (status : Z)
  | InvalidCheckpointQueueSize (size : Z)
  | QueueEnabledWithoutAddresses
  | DriverOkWithoutReadyQueue
  | InvalidIsrStatus (status : Z).

(** [VirtioBlkCheckpointState]: the registers but [notify_pending], and the
    backing store. *)
Record VirtioBlkCheckpointState := mkCheckpoint {
  ck_bar0 : Z;
  ck_device_feature_select : Z;
  ck_driver_feature_select : Z;
  ck_driver_features : Z;
  ck_status : Z;
  ck_queue_select : Z;
  ck_queue_size : Z;
  ck_queue_enabled : bool;
  ck_queue_desc : Z;
  ck_queue_driver : Z;
  ck_queue_device : Z;
  ck_last_avail_idx : Z;
  ck_last_used_idx : Z;
  ck_isr_status : Z;
  ck_backing : list Z
}.
(** The two token types have the same fields. *)
Record PendingToken := mkToken {
  token_bar0 : Z;
  token_queue : Z;
  token_last_avail_idx : Z;
  token_last_used_idx : Z
}.
Abbreviation CE := VirtioBlkCheckpointStateError.

(** ** Predicates of the device *)
Definition checkpoint_backing_portable (d : VirtioBlkDevice) : bool :=
  match d.(persistent_backing) with None => true | Some _ => false end.
Definition checkpoint_quiescent (d : VirtioBlkDevice) : bool := negb d.(regs).(notify_pending).
Definition checkpoint_fully_quiescent (d : VirtioBlkDevice) : bool :=
  negb d.(regs).(notify_pending) && (d.(regs).(isr_status) =? 0).
Definition checkpoint_completion_pending (d : VirtioBlkDevice) : bool :=
  negb d.(regs).(notify_pending) && (d.(regs).(isr_status) =? VIRTIO_ISR_QUEUE_INTERRUPT)
  && negb (d.(regs).(last_avail_idx) =? 0)
  && (d.(regs).(last_avail_idx) =? d.(regs).(last_used_idx)).
Definition checkpoint_notification_pending (d : VirtioBlkDevice) : bool :=
  d.(regs).(notify_pending) && (d.(regs).(isr_status) =? 0)
  && (d.(regs).(last_avail_idx) =? d.(regs).(last_used_idx)).

(** ** Validation *)
Definition checkpoint_validate (s : VirtioBlkCheckpointState) : res CE unit :=
  let f flag := negb (Z.land s.(ck_status) flag =? 0) in
  _ ← err_if (negb (s.(ck_bar0) mod VIRTIO_BLK_BAR_SIZE =? 0)) (MisalignedBar s.(ck_bar0));
  _ ← err_if (negb (Z.land s.(ck_driver_features) (unot 64 VIRTIO_BLK_SUPPORTED_FEATURES) =? 0))
        (UnsupportedDriverFeatures s.(ck_driver_features));
  _ ← err_if (f (unot 8 VIRTIO_STATUS_KNOWN)
              || (f VIRTIO_STATUS_DRIVER && negb (f VIRTIO_STATUS_ACKNOWLEDGE))
              || (f VIRTIO_STATUS_FEATURES_OK
                  && (negb (Z.land s.(ck_status)
                              (Z.lor VIRTIO_STATUS_ACKNOWLEDGE VIRTIO_STATUS_DRIVER) =?
                            Z.lor VIRTIO_STATUS_ACKNOWLEDGE VIRTIO_STATUS_DRIVER)
                      || (Z.land s.(ck_driver_features) VIRTIO_F_VERSION_1 =? 0))))
        (InvalidStatus s.(ck_status));
  _ ← err_if ((s.(ck_queue_size) =? 0) || (VIRTIO_QUEUE_MAX_SIZE <? s.(ck_queue_size))
              || negb (is_power_of_two s.(ck_queue_size)))
        (InvalidCheckpointQueueSize s.(ck_queue_size));
  _ ← err_if (s.(ck_queue_enabled)
              && ((s.(ck_queue_desc) =? 0) || (s.(ck_queue_driver) =? 0)
                  || (s.(ck_queue_device) =? 0))) QueueEnabledWithoutAddresses;
  _ ← err_if (f VIRTIO_STATUS_DRIVER_OK
              && (negb (f VIRTIO_STATUS_FEATURES_OK) || negb s.(ck_queue_enabled)
                  || (Z.land s.(ck_driver_features) VIRTIO_F_VERSION_1 =? 0)))
        DriverOkWithoutReadyQueue;
  err_if (negb (Z.land s.(ck_isr_status) (unot 8 VIRTIO_ISR_QUEUE_INTERRUPT) =? 0))
    (InvalidIsrStatus s.(ck_isr_status)).

Definition state_of (d : VirtioBlkDevice) : VirtioBlkCheckpointState :=
  let r := d.(regs) in
  mkCheckpoint r.(bar0) r.(device_feature_select) r.(driver_feature_select) r.(driver_features)
    r.(status) r.(queue_select) r.(queue_size) r.(queue_enabled) r.(queue_desc) r.(queue_driver)
    r.(queue_device) r.(last_avail_idx) r.(last_used_idx) r.(isr_status) d.(backing).
Definition capture_semantic (d : VirtioBlkDevice) : res CE VirtioBlkCheckpointState :=
  _ ← err_if (negb (checkpoint_backing_portable d)) ExternalBackingUnsupported;
  let state := state_of d in
  _ ← checkpoint_validate state;
  Ok state.
Definition capture (d : VirtioBlkDevice) : res CE VirtioBlkCheckpointState :=
  _ ← err_if (negb (checkpoint_backing_portable d)) ExternalBackingUnsupported;
  _ ← err_if (negb (checkpoint_quiescent d)) NotQuiescent;
  _ ← err_if (negb (checkpoint_fully_quiescent d))
        (PendingCompletionWithoutToken d.(regs).(isr_status));
  capture_semantic d.
Definition materialize (s : VirtioBlkCheckpointState) : res CE VirtioBlkDevice :=
  _ ← checkpoint_validate s;
  Ok (mkBlk (mkRegs s.(ck_bar0) s.(ck_device_feature_select) s.(ck_driver_feature_select)
               s.(ck_driver_features) s.(ck_status) s.(ck_queue_select) s.(ck_queue_size)
               s.(ck_queue_enabled) s.(ck_queue_desc) s.(ck_queue_driver) s.(ck_queue_device)
               false s.(ck_last_avail_idx) s.(ck_last_used_idx) s.(ck_isr_status))
        s.(ck_backing) None).

(** ** Tokens *)

(** [VirtioBlkPendingCompletionToken]. *)
Definition completion_invalid (t : PendingToken) : CE :=
  InvalidPendingCompletionToken t.(token_bar0) t.(token_queue) t.(token_last_avail_idx)
    t.(token_last_used_idx).
Definition completion_from_parts (bar0 queue last_avail_idx last_used_idx : Z)
    : res CE PendingToken :=
  let token := mkToken bar0 queue last_avail_idx last_used_idx in
  _ ← err_if (negb (queue =? 0) || (last_avail_idx =? 0)
              || negb (last_avail_idx =? last_used_idx)) (completion_invalid token);
  Ok token.
Definition completion_validate_device (t : PendingToken) (d : VirtioBlkDevice) : res CE unit :=
  err_if (negb (t.(token_bar0) =? d.(regs).(bar0)) || negb (t.(token_queue) =? 0)
          || negb (t.(token_last_avail_idx) =? d.(regs).(last_avail_idx))
          || negb (t.(token_last_used_idx) =? d.(regs).(last_used_idx))
          || negb (checkpoint_completion_pending d)) (completion_invalid t).
Definition completion_validate_state (t : PendingToken) (s : VirtioBlkCheckpointState)
    : res CE unit :=
  err_if (negb (t.(token_bar0) =? s.(ck_bar0)) || negb (t.(token_queue) =? 0)
          || negb (t.(token_last_avail_idx) =? s.(ck_last_avail_idx))
          || negb (t.(token_last_used_idx) =? s.(ck_last_used_idx))
          || negb (s.(ck_isr_status) =? VIRTIO_ISR_QUEUE_INTERRUPT)) (completion_invalid t).
Definition completion_capture (d : VirtioBlkDevice) : res CE PendingToken :=
  token ← completion_from_parts d.(regs).(bar0) 0 d.(regs).(last_avail_idx)
            d.(regs).(last_used_idx);
  _ ← completion_validate_device token d;
  Ok token.

(** [VirtioBlkPendingNotificationToken]. *)
Definition notification_invalid (t : PendingToken) : CE :=
  InvalidPendingNotificationToken t.(token_bar0) t.(token_queue) t.(token_last_avail_idx)
    t.(token_last_used_idx).
Definition notification_from_parts (bar0 queue last_avail_idx last_used_idx : Z)
    : res CE PendingToken :=
  let token := mkToken bar0 queue last_avail_idx last_used_idx in
  _ ← err_if (negb (queue =? 0) || negb (last_avail_idx =? last_used_idx))
        (notification_invalid token);
  Ok token.
Definition notification_validate_device (t : PendingToken) (d : VirtioBlkDevice) : res CE unit :=
  err_if (negb (t.(token_bar0) =? d.(regs).(bar0)) || negb (t.(token_queue) =? 0)
          || negb (t.(token_last_avail_idx) =? d.(regs).(last_avail_idx))
          || negb (t.(token_last_used_idx) =? d.(regs).(last_used_idx))
          || negb (checkpoint_notification_pending d)) (notification_invalid t).
Definition notification_validate_state (t : PendingToken) (s : VirtioBlkCheckpointState)
    : res CE unit :=
  err_if (negb (t.(token_bar0) =? s.(ck_bar0)) || negb (t.(token_queue) =? 0)
          || negb (t.(token_last_avail_idx) =? s.(ck_last_avail_idx))
          || negb (t.(token_last_used_idx) =? s.(ck_last_used_idx))
          || negb (s.(ck_isr_status) =? 0)) (notification_invalid t).
Definition notification_capture (d : VirtioBlkDevice) : res CE PendingToken :=
  token ← notification_from_parts d.(regs).(bar0) 0 d.(regs).(last_avail_idx)
            d.(regs).(last_used_idx);
  _ ← notification_validate_device token d;
  Ok token.

Definition capture_with_pending_completion (d : VirtioBlkDevice)
    : res CE (VirtioBlkCheckpointState * PendingToken) :=
  _ ← err_if (negb (checkpoint_backing_portable d)) ExternalBackingUnsupported;
  token ← completion_capture d;
  state ← capture_semantic d;
  _ ← completion_validate_state token state;
  Ok (state, token).
Definition capture_with_pending_notification (d : VirtioBlkDevice)
    : res CE (VirtioBlkCheckpointState * PendingToken) :=
  _ ← err_if (negb (checkpoint_backing_portable d)) ExternalBackingUnsupported;
  token ← notification_capture d;
  state ← capture_semantic d;
  _ ← notification_validate_state token state;
  Ok (state, token).
Definition materialize_with_pending_notification (s : VirtioBlkCheckpointState) (t : PendingToken)
    : res CE VirtioBlkDevice :=
  _ ← notification_validate_state t s;
  d ← materialize s;
  let d := set_regs (set_notify_pending true d.(regs)) d in
  _ ← notification_validate_device t d;
  Ok d.

(** * Round trips *)

Lemma validate_tt s u : checkpoint_validate s = Ok u → checkpoint_validate s = Ok tt.
Proof. by destruct u. Qed.
Lemma materialize_state_of d :
  d.(persistent_backing) = None → checkpoint_validate (state_of d) = Ok tt →
  materialize (state_of d) = Ok (set_regs (set_notify_pending false d.(regs)) d).
Proof.
  intros Hp Hv. unfold materialize. rewrite Hv. cbn [mbind res_bind].
  destruct d as [[] b [path|]]; [done|]. reflexivity.
Qed.
Lemma capture_semantic_inv d s :
  capture_semantic d = Ok s →
  s = state_of d ∧ d.(persistent_backing) = None ∧ checkpoint_validate (state_of d) = Ok tt.
Proof.
  intros H. unfold capture_semantic, checkpoint_backing_portable in H.
  apply bind_Ok_inv in H as ([]&Hp%err_if_Ok_inv&H). apply bind_Ok_inv in H as ([]&Hv&[= <-]).
  split; [done|]. split; [|done]. by destruct (persistent_backing d).
Qed.
Lemma set_notify_pending_same d b :
  d.(regs).(notify_pending) = b → set_regs (set_notify_pending b d.(regs)) d = d.
Proof. by destruct d as [[] bk pb]; simpl; intros ->. Qed.

(** Each way of capturing a device is undone by materializing. *)
Lemma capture_materialize d s : capture d = Ok s → materialize s = Ok d.
Proof.
  intros H. unfold capture, checkpoint_quiescent in H.
  apply bind_Ok_inv in H as ([]&_&H). apply bind_Ok_inv in H as ([]&Hq%err_if_Ok_inv&H).
  apply bind_Ok_inv in H as ([]&_&H). apply capture_semantic_inv in H as (->&?&?).
  rewrite materialize_state_of by done. f_equal. apply set_notify_pending_same.
  by destruct (notify_pending (regs d)).
Qed.
Lemma completion_materialize d s t :
  capture_with_pending_completion d = Ok (s, t) →
  materialize s = Ok d ∧ completion_validate_device t d = Ok tt.
Proof.
  intros H. unfold capture_with_pending_completion, completion_capture in H.
  apply bind_Ok_inv in H as ([]&_&H). apply bind_Ok_inv in H as (t'&Ht&H).
  apply bind_Ok_inv in H as (s'&Hs&H). apply bind_Ok_inv in H as ([]&_&[= <- <-]).
  apply bind_Ok_inv in Ht as (t''&_&Ht). apply bind_Ok_inv in Ht as ([]&Hv&[= <-]).
  apply capture_semantic_inv in Hs as (->&?&?). split; [|done].
  rewrite materialize_state_of by done. f_equal. apply set_notify_pending_same.
  apply err_if_Ok_inv, orb_false_iff in Hv as [_ Hv].
  unfold checkpoint_completion_pending in Hv. by destruct (notify_pending (regs d)).
Qed.
Lemma notification_materialize d s t :
  capture_with_pending_notification d = Ok (s, t) →
  materialize_with_pending_notification s t = Ok d ∧ notification_validate_device t d = Ok tt.
Proof.
  intros H. unfold capture_with_pending_notification, notification_capture in H.
  apply bind_Ok_inv in H as ([]&_&H). apply bind_Ok_inv in H as (t'&Ht&H).
  apply bind_Ok_inv in H as (s'&Hs&H). apply bind_Ok_inv in H as ([]&Hvs&[= <- <-]).
  apply bind_Ok_inv in Ht as (t''&_&Ht). apply bind_Ok_inv in Ht as ([]&Hv&[= <-]).
  apply capture_semantic_inv in Hs as (->&?&?). split; [|done].
  unfold materialize_with_pending_notification. rewrite Hvs. cbn [mbind res_bind].
  rewrite materialize_state_of by done. cbn [mbind res_bind].
  change (set_regs (set_notify_pending true _) _)
    with (set_regs (set_notify_pending true (regs d)) d).
  rewrite set_notify_pending_same; [by rewrite Hv|].
  apply err_if_Ok_inv, orb_false_iff in Hv as [_ Hv].
  unfold checkpoint_notification_pending in Hv. by destruct (notify_pending (regs d)).
Qed.

(** A checkpoint captures the whole device.  Whatever way a device is
    captured, quiescent, with a completion pending or with a notification
    pending, materializing the captured state (with its token when a
    notification is pending) succeeds and yields the very device that was
    captured, so that the resumed device processes the same requests. *)
Theorem checkpoint_roundtrip d :
  (∀ s, capture d = Ok s → materialize s = Ok d) ∧
  (∀ s t, capture_with_pending_completion d = Ok (s, t) →
     materialize s = Ok d ∧ completion_validate_device t d = Ok tt) ∧
  (∀ s t, capture_with_pending_notification d = Ok (s, t) →
     materialize_with_pending_notification s t = Ok d).
Proof.
  split_and!; [apply capture_materialize|apply completion_materialize|].
  intros s t H. by apply notification_materialize.
Qed.

Lemma checkpoint_roundtrip_witness :
  ∃ s t, capture_with_pending_notification (mkBlk blk_demo_device.(regs) [] None) = Ok (s, t) ∧
    materialize_with_pending_notification s t = Ok (mkBlk blk_demo_device.(regs) [] None).
Proof.
  destruct (checkpoint_roundtrip (mkBlk blk_demo_device.(regs) [] None)) as (_&_&H).
  eexists _, _. split; [vm_compute; reflexivity|]. apply H. vm_compute. reflexivity.
Defined.

(** * Validation against the device invariant *)

(** The integer types of a decoded checkpoint state. *)
Definition checkpoint_typed (s : VirtioBlkCheckpointState) : Prop :=
  u64 s.(ck_bar0) ∧ u32 s.(ck_device_feature_select) ∧ u32 s.(ck_driver_feature_select) ∧
  u64 s.(ck_driver_features) ∧ u8 s.(ck_status) ∧ u16 s.(ck_queue_select) ∧
  u16 s.(ck_queue_size) ∧ u64 s.(ck_queue_desc) ∧ u64 s.(ck_queue_driver) ∧
  u64 s.(ck_queue_device) ∧ u16 s.(ck_last_avail_idx) ∧ u16 s.(ck_last_used_idx) ∧
  u8 s.(ck_isr_status) ∧ bytes_ok s.(ck_backing) ∧ len s.(ck_backing) = VIRTIO_BLK_BACKING_SIZE.

(** The meaning of [checkpoint_validate], with [bit] the bits of the status. *)
Definition checkpoint_valid (s : VirtioBlkCheckpointState) : Prop :=
  let bit := Z.testbit s.(ck_status) in
  s.(ck_bar0) mod VIRTIO_BLK_BAR_SIZE = 0 ∧
  Z.land s.(ck_driver_features) (unot 64 VIRTIO_BLK_SUPPORTED_FEATURES) = 0 ∧
  Z.land s.(ck_status) (unot 8 VIRTIO_STATUS_KNOWN) = 0 ∧
  (bit 1 = true → bit 0 = true) ∧
  (bit 3 = true → bit 0 = true ∧ bit 1 = true ∧ Z.testbit s.(ck_driver_features) 32 = true) ∧
  s.(ck_queue_size) ∈ [1; 2; 4; 8] ∧
  (s.(ck_queue_enabled) = true →
     s.(ck_queue_desc) ≠ 0 ∧ s.(ck_queue_driver) ≠ 0 ∧ s.(ck_queue_device) ≠ 0) ∧
  (bit 2 = true → bit 3 = true ∧ s.(ck_queue_enabled) = true) ∧
  (s.(ck_isr_status) = 0 ∨ s.(ck_isr_status) = VIRTIO_ISR_QUEUE_INTERRUPT).

Lemma queue_size_valid n :
  u16 n → (n =? 0) || (VIRTIO_QUEUE_MAX_SIZE <? n) || negb (is_power_of_two n) = false ↔
          n ∈ [1; 2; 4; 8].
Proof.
  intros Hn. rewrite !elem_of_cons, elem_of_nil. unfold VIRTIO_QUEUE_MAX_SIZE. split.
  - intros H. res_simplify.
    assert (n = 1 ∨ n = 2 ∨ n = 3 ∨ n = 4 ∨ n = 5 ∨ n = 6 ∨ n = 7 ∨ n = 8) as Hc by ulia.
    destruct Hc as [->|[->|[->|[->|[->|[->|[->| ->]]]]]]]; try (by vm_compute in H); auto.
  - intros [->|[->|[->|[->|[]]]]]; reflexivity.
Qed.
Lemma isr_valid n :
  u8 n → negb (Z.land n (unot 8 VIRTIO_ISR_QUEUE_INTERRUPT) =? 0) = false ↔
         n = 0 ∨ n = VIRTIO_ISR_QUEUE_INTERRUPT.
Proof.
  intros Hn. unfold VIRTIO_ISR_QUEUE_INTERRUPT. change (unot 8 1) with (unot 8 (Z.ones 1)).
  rewrite (land_unot_ones 8 1) by (done || lia). rewrite negb_false_iff, Z.eqb_eq.
  change (2 ^ 1) with 2. split; intros; dlia.
Qed.
Lemma land_both v :
  (Z.land v (Z.lor (2 ^ 0) (2 ^ 1)) =? Z.lor (2 ^ 0) (2 ^ 1)) = Z.testbit v 0 && Z.testbit v 1.
Proof.
  change (Z.lor (2 ^ 0) (2 ^ 1)) with (Z.ones 2). rewrite Z.land_ones by lia.
  rewrite Z.bit0_odd. replace (Z.testbit v 1) with (Z.odd (v / 2)).
  2: { rewrite <- Z.bit0_odd. change 2 with (2 ^ 1) at 1. by rewrite Z.div_pow2_bits by lia. }
  rewrite !Zodd_mod. change (Z.ones 2) with 3. change (2 ^ 2) with 4.
  destruct (Z.eqb_spec (v mod 4) 3), (Z.eqb_spec (v mod 2) 1), (Z.eqb_spec ((v / 2) mod 2) 1);
    done || dlia.
Qed.

(** The clauses of [checkpoint_validate] as implications. *)
Lemma driver_needs_ack (b0 b1 : bool) :
  negb (negb b1) && negb (negb (negb b0)) = false ↔ (b1 = true → b0 = true).
Proof. destruct b0, b1; naive_solver. Qed.
Lemma features_need_all (b0 b1 b3 v1 : bool) :
  negb (negb b3) && (negb (b0 && b1) || negb v1) = false ↔
  (b3 = true → b0 = true ∧ b1 = true ∧ v1 = true).
Proof. destruct b0, b1, b3, v1; naive_solver. Qed.
Lemma enabled_needs_addresses (enabled : bool) x y z :
  enabled && ((x =? 0) || (y =? 0) || (z =? 0)) = false ↔
  (enabled = true → x ≠ 0 ∧ y ≠ 0 ∧ z ≠ 0).
Proof.
  destruct enabled, (Z.eqb_spec x 0), (Z.eqb_spec y 0), (Z.eqb_spec z 0); naive_solver.
Qed.

Lemma checkpoint_validate_ok s :
  checkpoint_typed s → checkpoint_validate s = Ok tt ↔ checkpoint_valid s.
Proof.
  intros (?&?&?&?&?&?&?&?&?&?&?&?&Hisr&_). unfold checkpoint_validate, checkpoint_valid. cbv zeta.
  rewrite <- queue_size_valid, <- isr_valid by done.
  change VIRTIO_STATUS_DRIVER_OK with (2 ^ 2). change VIRTIO_STATUS_FEATURES_OK with (2 ^ 3).
  change VIRTIO_STATUS_DRIVER with (2 ^ 1). change VIRTIO_STATUS_ACKNOWLEDGE with (2 ^ 0).
  change VIRTIO_F_VERSION_1 with (2 ^ 32). rewrite land_both, !land_flag_eqb by lia.
  rewrite !bind_err_if_Ok, err_if_Ok_iff, !negb_false_iff, !Z.eqb_eq.
  set (b0 := Z.testbit (ck_status s) 0). set (b1 := Z.testbit (ck_status s) 1).
  set (b2 := Z.testbit (ck_status s) 2). set (b3 := Z.testbit (ck_status s) 3).
  set (v1 := Z.testbit (ck_driver_features s) 32).
  set (known := Z.land (ck_status s) (unot 8 VIRTIO_STATUS_KNOWN)).
  rewrite (orb_false_iff (negb (known =? 0) || _)), (orb_false_iff (negb (known =? 0))),
    negb_false_iff, Z.eqb_eq.
  rewrite driver_needs_ack, features_need_all, enabled_needs_addresses.
  split.
  - intros (?&?&((?&?)&?)&?&?&Hok&?). split_and!; try done. intros Hb2. rewrite Hb2 in Hok.
    by destruct b3, (ck_queue_enabled s), v1.
  - intros (?&?&?&?&Hf&?&?&Hok&?). split_and!; try done.
    destruct b2; [|done]. destruct Hok as [Hb3 ->]; [done|]. rewrite Hb3 in *.
    destruct Hf as (_&_&->); done.
Qed.

Lemma features_valid_iff f :
  negotiated_features_valid f = true ↔
  Z.testbit f 32 = true ∧ Z.land f (unot 64 VIRTIO_BLK_SUPPORTED_FEATURES) = 0.
Proof.
  unfold negotiated_features_valid. rewrite andb_true_iff, !Z.eqb_eq.
  change VIRTIO_F_VERSION_1 with (2 ^ 32). split; intros [H1 H2]; (split; [|done]).
  - by apply (land_submask f (2 ^ 32)).
  - apply Z.bits_inj'. intros i Hi. rewrite Z.land_spec.
    destruct (Z.eq_dec i 32) as [->|]; [by rewrite H1|].
    by rewrite Z.pow2_bits_false, andb_false_r by congruence.
Qed.

Lemma materialize_inv s d :
  checkpoint_typed s → materialize s = Ok d → blk_wf d ∧ checkpoint_valid s ∧ s = state_of d.
Proof.
  intros Ht H. unfold materialize in H. apply bind_Ok_inv in H as ([]&Hv&[= <-]).
  apply checkpoint_validate_ok in Hv; [|done]. split_and!; [|done|by destruct s].
  destruct Ht as (?&?&?&?&?&?&?&?&?&?&?&?&?&?&?).
  destruct Hv as (?&Hfeat&?&?&Hfo&?&?&?&?). split_and!; [|done|done].
  split; simpl; try done.
  intros Hb3. destruct (Hfo Hb3) as (_&?&?). split; [done|]. by apply features_valid_iff.
Qed.
Lemma state_of_typed d : blk_wf d → u64 d.(regs).(bar0) → checkpoint_typed (state_of d).
Proof.
  intros (Hr&?&?) Hbar. unfold checkpoint_typed. simpl.
  pose proof (wf_queue_size _ Hr) as Hq. pose proof (wf_isr_status _ Hr) as Hi.
  rewrite !elem_of_cons, elem_of_nil in Hq. unfold VIRTIO_ISR_QUEUE_INTERRUPT in Hi.
  destruct Hr. split_and!; first [done|ulia].
Qed.

(** C38: checkpoint validation is exactly the device invariant plus what a
    checkpoint adds.  Every decoded state that materializes gives a
    well-formed device whose capture is that state again, so no corrupted
    checkpoint can put the device into a state its registers could not reach.
    Conversely a well-formed, quiescent, memory-backed device can be captured
    exactly when its BAR is aligned, its feature bits are supported ones, and
    DRIVER_OK stands over FEATURES_OK and an enabled queue: the two ways a
    guest can leave that last condition (disabling the queue after DRIVER_OK,
    or DRIVER_OK over a failed negotiation) make a device unsaveable. *)
Theorem checkpoint_validation s d :
  checkpoint_typed s → blk_wf d → u64 d.(regs).(bar0) →
  (∀ d', materialize s = Ok d' → blk_wf d' ∧ capture_semantic d' = Ok s) ∧
  (d.(persistent_backing) = None → d.(regs).(notify_pending) = false → d.(regs).(isr_status) = 0 →
   is_ok (capture d) = true ↔
     d.(regs).(bar0) mod VIRTIO_BLK_BAR_SIZE = 0 ∧
     Z.land d.(regs).(driver_features) (unot 64 VIRTIO_BLK_SUPPORTED_FEATURES) = 0 ∧
     (status_bit d.(regs).(status) 2 = true →
        status_bit d.(regs).(status) 3 = true ∧ d.(regs).(queue_enabled) = true)).
Proof.
  intros Hs Hd Hbar. split.
  - intros d' Hm. pose proof (materialize_inv s d' Hs Hm) as (Hwf&Hv&Heq). split; [done|].
    unfold capture_semantic, checkpoint_backing_portable.
    replace (persistent_backing d') with (@None string).
    2: { unfold materialize in Hm. by apply bind_Ok_inv in Hm as (?&_&[= <-]). }
    cbn [negb err_if mbind res_bind]. rewrite <- Heq.
    by rewrite (proj2 (checkpoint_validate_ok s Hs) Hv).
  - intros Hp Hn Hi. pose proof (state_of_typed d Hd Hbar) as Ht.
    unfold capture, capture_semantic, checkpoint_backing_portable, checkpoint_quiescent,
      checkpoint_fully_quiescent. rewrite Hp, Hn, Hi. cbn [negb err_if mbind res_bind andb Z.eqb].
    pose proof (checkpoint_validate_ok (state_of d) Ht) as Hv.
    destruct Hd as (Hr&_&_). unfold status_bit in *. split.
    + intros Hok. destruct (checkpoint_validate (state_of d)) as [[]| |]; [|done|done].
      destruct (proj1 Hv eq_refl) as (?&?&_&_&_&_&_&?&_). by split_and!.
    + intros (?&?&?). rewrite (proj2 Hv); [done|]. unfold checkpoint_valid; simpl.
      split_and!; try (done || apply Hr).
      intros Hb3. destruct (wf_features_ok _ Hr Hb3) as [Hb1 Hf%features_valid_iff].
      split_and!; [by apply (wf_driver _ Hr)|done|apply Hf].
Qed.

Lemma checkpoint_validation_witness :
  is_ok (capture (blk_new 0x10000000)) = true ∧
  ∃ d, materialize (state_of (blk_new 0x10000000)) = Ok d ∧ blk_wf d.
Proof.
  assert (u64 (blk_new 0x10000000).(regs).(bar0)) as Hbar by (unfold blk_new; simpl; ulia).
  pose proof (state_of_typed _ (blk_new_wf 0x10000000) Hbar) as Ht.
  destruct (checkpoint_validation (state_of (blk_new 0x10000000)) (blk_new 0x10000000) Ht
              (blk_new_wf _) Hbar) as [H1 H2].
  split.
  - apply H2; [reflexivity..|]. split; [reflexivity|]. split; [reflexivity|]. intros H. discriminate H.
  - eexists. split; [reflexivity|]. apply (H1 _ eq_refl).
Defined.
