(* ===== verification/Msr.v ===== *)
(** Model-specific registers: which MSRs a guest may own, with which values,
    and how captured values are compared ([src/src/kvm/msr.rs] and
    [src/src/kvm/msr/value_set.rs]).  The index list of the host comes from
    [KVM_GET_MSR_INDEX_LIST] and is an argument here. *)

From stdpp Require Import gmap.
From S2P Require Import Prelude.

(** [MsrIndex] wraps a [u32]. *)
Abbreviation MsrIndex := Z (only parsing).
Definition MSR_IA32_UCODE_REV : MsrIndex := 0x8b.

(** * Index lists reported by the kernel *)

(** [filter] with [seen.insert]: an index is kept at its first occurrence. *)
Fixpoint normalize_loop (seen : gset Z) (indices : list Z) : list MsrIndex :=
  match indices with
  | [] => []
  | index :: rest =>
      if decide (index ∈ seen) then normalize_loop seen rest
      else index :: normalize_loop ({[index]} ∪ seen) rest
  end.
Definition normalize_indices (indices : list Z) : list MsrIndex := normalize_loop ∅ indices.

Record HostMsrIndexList := { host_indices : list MsrIndex }.
Definition host_from_validated_raw {E} (indices : list Z) : res E HostMsrIndexList :=
  debug_assert (negb (len indices =? 0));;
  mret {| host_indices := normalize_indices indices |}.
Record HostMsrFeatureIndexList := { feature_indices : list MsrIndex }.
Definition feature_from_validated_raw (indices : list Z) : HostMsrFeatureIndexList :=
  {| feature_indices := normalize_indices indices |}.

(** * Feature values and the host model comparison *)
Inductive MsrFeatureStability := ModelImmutable | HostMutable.
#[global] Instance MsrFeatureStability_eq_dec : EqDecision MsrFeatureStability.
Proof. solve_decision. Defined.
Definition classify_feature_stability (index : MsrIndex) : MsrFeatureStability :=
  if index =? MSR_IA32_UCODE_REV then HostMutable else ModelImmutable.

Record MsrFeatureValue := {
  fv_index : MsrIndex; fv_value : Z; fv_stability : MsrFeatureStability
}.
Definition feature_value_new (index : MsrIndex) (value : Z) : MsrFeatureValue :=
  {| fv_index := index; fv_value := value; fv_stability := classify_feature_stability index |}.
(** [HostMsrFeatureValues] holds the observed values in the kernel's order. *)
Record HostMsrFeatureValues := { observed_values : list MsrFeatureValue }.
Definition model_immutable_values (o : HostMsrFeatureValues) : list MsrFeatureValue :=
  filter (λ v, fv_stability v = ModelImmutable) (observed_values o).
Definition host_mutable_values (o : HostMsrFeatureValues) : list MsrFeatureValue :=
  filter (λ v, fv_stability v = HostMutable) (observed_values o).

Record HostMsrModelCandidate := {
  source_observation : HostMsrFeatureValues;
  candidate_values : list MsrFeatureValue
}.
Definition from_observation {E} (o : HostMsrFeatureValues) : res E HostMsrModelCandidate :=
  debug_assert
    (forallb (λ v, bool_decide (fv_stability v = ModelImmutable)) (model_immutable_values o));;
  mret {| source_observation := o; candidate_values := model_immutable_values o |}.

Record MsrModelValueMismatch := {
  mm_index : MsrIndex; mm_reference_value : Z; mm_observed_value : Z
}.
Record HostMsrModelComparison := {
  cmp_reference : HostMsrModelCandidate;
  cmp_observed : HostMsrModelCandidate;
  missing_from_observed : list MsrFeatureValue;
  extra_in_observed : list MsrFeatureValue;
  model_value_mismatches : list MsrModelValueMismatch
}.

(** [values.iter().any(|v| v.index() == index)] and [values.iter().find(..)]. *)
Definition has_index (values : list MsrFeatureValue) (index : MsrIndex) : bool :=
  existsb (λ v, fv_index v =? index) values.
Definition find_index (values : list MsrFeatureValue) (index : MsrIndex) : option MsrFeatureValue :=
  List.find (λ v, fv_index v =? index) values.
Definition value_mismatch (observed : list MsrFeatureValue) (reference : MsrFeatureValue) :
  option MsrModelValueMismatch :=
  candidate ← find_index observed (fv_index reference);
  if fv_value candidate =? fv_value reference then None
  else Some {| mm_index := fv_index reference; mm_reference_value := fv_value reference;
               mm_observed_value := fv_value candidate |}.
Definition candidate_compare (self observed : HostMsrModelCandidate) : HostMsrModelComparison := {|
  cmp_reference := self;
  cmp_observed := observed;
  missing_from_observed :=
    filter (λ r, has_index (candidate_values observed) (fv_index r) = false) (candidate_values self);
  extra_in_observed :=
    filter (λ c, has_index (candidate_values self) (fv_index c) = false) (candidate_values observed);
  model_value_mismatches := omap (value_mismatch (candidate_values observed)) (candidate_values self)
|}.
Definition is_empty {A} (l : list A) : bool := match l with [] => true | _ => false end.
Definition model_is_exact_match (c : HostMsrModelComparison) : bool :=
  is_empty (missing_from_observed c) && is_empty (extra_in_observed c) &&
  is_empty (model_value_mismatches c).

(** * Guest access policy, value sets and snapshots *)
Inductive MsrAccessAuthority := ReadWrite.
#[global] Instance MsrAccessAuthority_eq_dec : EqDecision MsrAccessAuthority.
Proof. solve_decision. Defined.
Record GuestMsrAccess := { access_index : MsrIndex; access_authority : MsrAccessAuthority }.
#[global] Instance GuestMsrAccess_eq_dec : EqDecision GuestMsrAccess.
Proof. solve_decision. Defined.
Record GuestMsrAccessPolicy := { policy_entries : list GuestMsrAccess }.
#[global] Instance GuestMsrAccessPolicy_eq_dec : EqDecision GuestMsrAccessPolicy.
Proof. solve_decision. Defined.

Inductive GuestMsrPolicyError :=
  | UnsupportedIndex (index : MsrIndex) (position : nat)
  | PolicyDuplicateIndex (index : MsrIndex) (first_position duplicate_position : nat).

(** [GuestMsrAccessPolicy::from_host]: [seen] is the [HashMap] from an index
    to its first position. *)
Fixpoint from_host_loop (host : list MsrIndex) (seen : gmap Z nat) (position : nat)
    (requested : list MsrIndex) : res GuestMsrPolicyError (list GuestMsrAccess) :=
  match requested with
  | [] => Ok []
  | index :: rest =>
      match seen !! index with
      | Some first_position => Err (PolicyDuplicateIndex index first_position position)
      | None =>
          err_if (bool_decide (index ∉ host)) (UnsupportedIndex index position);;
          entries ← from_host_loop host (<[index := position]> seen) (S position) rest;
          mret ({| access_index := index; access_authority := ReadWrite |} :: entries)
      end
  end.
Definition from_host (host : HostMsrIndexList) (requested : list MsrIndex) :
  res GuestMsrPolicyError GuestMsrAccessPolicy :=
  entries ← from_host_loop (host_indices host) ∅ 0 requested;
  mret {| policy_entries := entries |}.

Record GuestMsrValue := { msr_index : MsrIndex; msr_value : Z }.
#[global] Instance GuestMsrValue_eq_dec : EqDecision GuestMsrValue.
Proof. solve_decision. Defined.
Record GuestMsrValueSet := { msr_values : list GuestMsrValue }.
#[global] Instance GuestMsrValueSet_eq_dec : EqDecision GuestMsrValueSet.
Proof. solve_decision. Defined.
Inductive GuestMsrValueSetError :=
  | UnauthorizedIndex (index : MsrIndex) (position : nat)
  | ValueDuplicateIndex (index : MsrIndex) (first_position duplicate_position : nat).

Definition authorized (policy : GuestMsrAccessPolicy) (index : MsrIndex) : bool :=
  existsb (λ e, (access_index e =? index) && bool_decide (access_authority e = ReadWrite))
    (policy_entries policy).
(** [GuestMsrValueSet::from_policy]. *)
Fixpoint from_policy_loop (policy : GuestMsrAccessPolicy) (seen : gmap Z nat) (position : nat)
    (requested : list (MsrIndex * Z)) : res GuestMsrValueSetError (list GuestMsrValue) :=
  match requested with
  | [] => Ok []
  | (index, value) :: rest =>
      match seen !! index with
      | Some first_position => Err (ValueDuplicateIndex index first_position position)
      | None =>
          err_if (negb (authorized policy index)) (UnauthorizedIndex index position);;
          values ← from_policy_loop policy (<[index := position]> seen) (S position) rest;
          mret ({| msr_index := index; msr_value := value |} :: values)
      end
  end.
Definition from_policy (policy : GuestMsrAccessPolicy) (requested : list (MsrIndex * Z)) :
  res GuestMsrValueSetError GuestMsrValueSet :=
  values ← from_policy_loop policy ∅ 0 requested;
  mret {| msr_values := values |}.

Record GuestMsrSnapshot := { snap_policy : GuestMsrAccessPolicy; snap_values : GuestMsrValueSet }.
Inductive GuestMsrSnapshotError :=
  | CoverageMismatch (policy_entries value_entries : Z)
  | IndexMismatch (position : nat) (policy_index value_index : MsrIndex).

Fixpoint from_capture_loop (position : nat) (pairs : list (GuestMsrAccess * GuestMsrValue)) :
  res GuestMsrSnapshotError unit :=
  match pairs with
  | [] => Ok tt
  | (entry, value) :: rest =>
      err_if (negb (access_index entry =? msr_index value))
        (IndexMismatch position (access_index entry) (msr_index value));;
      from_capture_loop (S position) rest
  end.
Definition from_capture (policy : GuestMsrAccessPolicy) (values : GuestMsrValueSet) :
  res GuestMsrSnapshotError GuestMsrSnapshot :=
  err_if (negb (len (policy_entries policy) =? len (msr_values values)))
    (CoverageMismatch (len (policy_entries policy)) (len (msr_values values)));;
  from_capture_loop 0 (zip (policy_entries policy) (msr_values values));;
  mret {| snap_policy := policy; snap_values := values |}.

Record GuestMsrSnapshotValueMismatch := {
  sm_position : nat; sm_index : MsrIndex; sm_reference_value : Z; sm_observed_value : Z
}.
Record GuestMsrSnapshotComparison := {
  sc_reference : GuestMsrSnapshot;
  sc_observed : GuestMsrSnapshot;
  policy_matches : bool;
  value_mismatches : list GuestMsrSnapshotValueMismatch
}.
Definition snapshot_mismatch (position : nat) (pair : GuestMsrValue * GuestMsrValue) :
  option GuestMsrSnapshotValueMismatch :=
  let '(reference, candidate) := pair in
  if msr_value reference =? msr_value candidate then None
  else Some {| sm_position := position; sm_index := msr_index reference;
               sm_reference_value := msr_value reference;
               sm_observed_value := msr_value candidate |}.
Definition msr_compare (self observed : GuestMsrSnapshot) : GuestMsrSnapshotComparison :=
  let matches := bool_decide (snap_policy self = snap_policy observed) in {|
    sc_reference := self;
    sc_observed := observed;
    policy_matches := matches;
    value_mismatches :=
      if matches then
        omap id (imap snapshot_mismatch
          (zip (msr_values (snap_values self)) (msr_values (snap_values observed))))
      else []
  |}.
Definition msr_is_exact_match (c : GuestMsrSnapshotComparison) : bool :=
  policy_matches c && is_empty (value_mismatches c).

(** * Facts *)
Lemma normalize_loop_spec indices seen :
  NoDup (normalize_loop seen indices) ∧
  (∀ i, i ∈ normalize_loop seen indices ↔ i ∈ indices ∧ i ∉ seen) ∧
  normalize_loop seen indices `sublist_of` indices.
Proof.
  revert seen. induction indices as [|x l IH]; intros seen; simpl.
  - split_and!; [constructor| |constructor]. intros i. set_solver.
  - case_decide as Hx.
    + destruct (IH seen) as (Hn&Hi&Hs). split_and!; [done| |by constructor].
      intros i. rewrite Hi. clear IH Hn Hs Hi. set_solver.
    + destruct (IH ({[x]} ∪ seen)) as (Hn&Hi&Hs). clear IH. split_and!; [| |by constructor].
      * constructor; [|done]. rewrite Hi. clear Hi Hn Hs. set_solver.
      * intros i. rewrite elem_of_cons, Hi. clear Hi Hn Hs.
        destruct (decide (i = x)) as [->|]; set_solver.
Qed.

Lemma is_empty_true {A} (l : list A) : is_empty l = true ↔ l = [].
Proof. by destruct l. Qed.
Lemma forall_not_elem_nil {A} (l : list A) : (∀ x, x ∉ l) ↔ l = [].
Proof.
  split; [|intros ->; set_solver]. destruct l as [|x l]; [done|]. intros H.
  exfalso. apply (H x). set_solver.
Qed.

(** The positions recorded in [seen] are those of the elements scanned. *)
Definition seen_ok (seen : gmap Z nat) (scanned : list Z) : Prop :=
  ∀ i p, seen !! i = Some p ↔ scanned !! p = Some i.
Lemma seen_ok_empty : seen_ok ∅ [].
Proof. intros i p. by rewrite lookup_empty, lookup_nil. Qed.
Lemma seen_ok_snoc seen scanned i :
  seen_ok seen scanned → seen !! i = None →
  seen_ok (<[i := length scanned]> seen) (scanned ++ [i]).
Proof.
  intros Hs Hi j p. rewrite lookup_insert_Some, lookup_app_Some, list_lookup_singleton_Some.
  assert (seen !! j = Some p ↔ scanned !! p = Some j) as -> by apply Hs.
  assert (∀ q, scanned !! q ≠ Some i) as Hni.
  { intros q Hq. apply Hs in Hq. congruence. }
  split.
  - intros [[-> <-]|[Hne Hj]]; [right; split; [lia|split; [lia|done]]|by left].
  - intros [Hj|(Hp&Hp0&<-)]; [|left; split; [done|lia]].
    right. split; [|done]. intros ->. by apply (Hni p).
Qed.
Lemma seen_ok_NoDup seen scanned : seen_ok seen scanned → NoDup scanned.
Proof.
  intros Hs. apply NoDup_alt. intros p q i Hp%Hs Hq%Hs. congruence.
Qed.
Lemma seen_ok_None seen scanned i : seen_ok seen scanned → seen !! i = None ↔ i ∉ scanned.
Proof.
  intros Hs. rewrite eq_None_not_Some. apply not_iff_compat.
  rewrite list_elem_of_lookup. unfold is_Some. split; intros [p Hp]; exists p; by apply Hs.
Qed.

(** What [from_host] returns when it has scanned [scanned] and goes on with
    the rest: the entries of the rest, or the first position that is a
    repetition or is not offered by the host. *)
Definition policy_outcome (host all scanned rest : list MsrIndex)
    (r : res GuestMsrPolicyError (list GuestMsrAccess)) : Prop :=
  match r with
  | Ok entries =>
      NoDup all ∧ rest ⊆ host ∧
      entries = ((λ i, {| access_index := i; access_authority := ReadWrite |}) <$> rest)
  | Err (UnsupportedIndex i p) =>
      (length scanned ≤ p)%nat ∧ all !! p = Some i ∧ (i ∉ host) ∧ NoDup (take p all) ∧
      drop (length scanned) (take p all) ⊆ host
  | Err (PolicyDuplicateIndex i p q) =>
      (length scanned ≤ q)%nat ∧ (p < q)%nat ∧ all !! p = Some i ∧ all !! q = Some i ∧
      NoDup (take q all) ∧ drop (length scanned) (take q all) ⊆ host
  | Panic => False
  end.
Lemma from_host_loop_spec host rest : ∀ scanned seen,
  seen_ok seen scanned →
  policy_outcome host (scanned ++ rest) scanned rest
    (from_host_loop host seen (length scanned) rest).
Proof.
  induction rest as [|i rest IH]; intros scanned seen Hs; simpl.
  { rewrite app_nil_r. split_and!; [by eapply seen_ok_NoDup|set_solver|done]. }
  destruct (seen !! i) as [p|] eqn:Hi; simpl.
  { pose proof (proj1 (Hs _ _) Hi) as Hp. pose proof (lookup_lt_Some _ _ _ Hp).
    rewrite take_app_length, drop_all. split_and!; [lia|lia| | |by eapply seen_ok_NoDup|set_solver].
    - by rewrite lookup_app_l by lia.
    - by rewrite list_lookup_middle. }
  destruct (bool_decide_reflect (i ∉ host)) as [Hh|Hh]; simpl.
  { rewrite take_app_length, drop_all.
    split_and!; [lia|by rewrite list_lookup_middle|done|by eapply seen_ok_NoDup|set_solver]. }
  apply dec_stable in Hh.
  specialize (IH (scanned ++ [i]) (<[i:=length scanned]> seen) (seen_ok_snoc _ _ _ Hs Hi)).
  rewrite <- app_assoc, length_app, Nat.add_1_r in IH. simpl in IH.
  assert (∀ q, (S (length scanned) ≤ q)%nat → drop (S (length scanned)) (take q (scanned ++ i :: rest)) ⊆ host →
    drop (length scanned) (take q (scanned ++ i :: rest)) ⊆ host) as Hext.
  { intros q Hq Hsub. erewrite drop_S; [intros j [->|Hj]%elem_of_cons; [done|by apply Hsub]|].
    rewrite lookup_take_lt by lia. by rewrite list_lookup_middle. }
  destruct (from_host_loop _ _ _ rest) as [es|[j p|j p q]|]; simpl in *;
    rewrite ?length_app in IH; simpl in IH; try done.
  - destruct IH as (?&?&->). split_and!; [done|set_solver|done].
  - destruct IH as (?&?&?&?&?). split_and!; try done; [lia|]. apply Hext; [lia|].
    by replace (S (length scanned)) with (length scanned + 1)%nat by lia.
  - destruct IH as (?&?&?&?&?&?). split_and!; try done; [lia|]. apply Hext; [lia|].
    by replace (S (length scanned)) with (length scanned + 1)%nat by lia.
Qed.

(** A request is granted exactly when it has no repetition and the host
    offers every index. *)
Lemma from_host_Ok host requested p :
  from_host host requested = Ok p ↔
  NoDup requested ∧ requested ⊆ host_indices host ∧
  policy_entries p = ((λ i, {| access_index := i; access_authority := ReadWrite |}) <$> requested).
Proof.
  unfold from_host.
  pose proof (from_host_loop_spec (host_indices host) requested [] ∅ seen_ok_empty) as H.
  simpl in H.
  destruct (from_host_loop _ _ _ _) as [es|[i q|i q r]|]; simpl in *; try done.
  - destruct H as (?&?&->). split; [intros [= <-]; done|].
    intros (_&_&Hp). destruct p; simpl in *; by subst.
  - destruct H as (_&Hq&Hi&_). split; [done|]. intros (_&Hsub&_).
    destruct Hi. apply Hsub. by eapply list_elem_of_lookup_2.
  - destruct H as (_&Hlt&Hq&Hr&_). split; [done|]. intros (Hnd&_).
    pose proof (NoDup_lookup _ _ _ _ Hnd Hq Hr). lia.
Qed.

Lemma authorized_spec p i :
  authorized p i = true ↔ i ∈ access_index <$> policy_entries p.
Proof.
  unfold authorized. rewrite existsb_exists, list_elem_of_fmap. split.
  - intros (e&He&Heq). res_simplify. exists e. split; [done|by apply list_elem_of_In].
  - intros (e&->&He). exists e. split; [by apply list_elem_of_In|].
    rewrite Z.eqb_refl. by destruct e as [? []].
Qed.
Lemma from_policy_loop_ok policy rest : ∀ scanned seen,
  seen_ok seen scanned → NoDup (scanned ++ rest.*1) →
  rest.*1 ⊆ access_index <$> policy_entries policy →
  from_policy_loop policy seen (length scanned) rest =
    Ok ((λ '(i, v), {| msr_index := i; msr_value := v |}) <$> rest).
Proof.
  induction rest as [|[i v] rest IH]; intros scanned seen Hs Hnd Hsub; simpl; [done|].
  simpl in *. pose proof (proj1 (NoDup_app _ _) Hnd) as (_&Hi&_).
  assert (seen !! i = None) as Hn.
  { apply (seen_ok_None _ _ _ Hs). intros Hin. apply (Hi i Hin). set_solver. }
  rewrite Hn, (proj2 (authorized_spec _ _)) by set_solver. simpl.
  specialize (IH (scanned ++ [i]) (<[i:=length scanned]> seen) (seen_ok_snoc _ _ _ Hs Hn)).
  rewrite <- app_assoc, length_app, Nat.add_1_r in IH. rewrite IH; [done|done|set_solver].
Qed.
Lemma from_policy_loop_Ok policy rest : ∀ scanned seen values,
  seen_ok seen scanned → from_policy_loop policy seen (length scanned) rest = Ok values →
  NoDup (scanned ++ rest.*1) ∧
  values = ((λ '(i, v), {| msr_index := i; msr_value := v |}) <$> rest).
Proof.
  induction rest as [|[i v] rest IH]; intros scanned seen values Hs H; simpl in *.
  { res_simplify. rewrite app_nil_r. split; [by eapply seen_ok_NoDup|done]. }
  destruct (seen !! i) eqn:Hi; [done|]. bind_inv H. subst.
  pose proof (seen_ok_snoc _ _ _ Hs Hi) as Hs'.
  destruct (IH (scanned ++ [i]) (<[i:=length scanned]> seen) a0 Hs') as [Hnd ->].
  { rewrite length_app, Nat.add_1_r. done. }
  by rewrite <- app_assoc in Hnd.
Qed.
Lemma from_policy_Ok_inv policy requested values :
  from_policy policy requested = Ok values →
  NoDup requested.*1 ∧
  msr_values values = ((λ '(i, v), {| msr_index := i; msr_value := v |}) <$> requested).
Proof.
  unfold from_policy. intros H. bind_inv H.
  by destruct (from_policy_loop_Ok _ _ [] ∅ _ seen_ok_empty Hstep).
Qed.
Lemma from_capture_loop_ok vs : ∀ n,
  from_capture_loop n
    (zip ((λ v, {| access_index := msr_index v; access_authority := ReadWrite |}) <$> vs) vs) = Ok tt.
Proof.
  induction vs as [|v vs IH]; intros n; simpl; [done|]. by rewrite Z.eqb_refl, IH.
Qed.

(** The three constructors compose: a request the host can serve yields a
    policy, the value set of the pairs and a snapshot that covers the policy. *)
Lemma snapshot_of_pairs host (pairs : list (Z * Z)) policy :
  from_host host pairs.*1 = Ok policy →
  ∃ values, from_policy policy pairs = Ok values ∧
    msr_values values = ((λ '(i, v), {| msr_index := i; msr_value := v |}) <$> pairs) ∧
    from_capture policy values = Ok {| snap_policy := policy; snap_values := values |}.
Proof.
  intros (Hnd&Hsub&He)%from_host_Ok.
  eexists. split_and!.
  - unfold from_policy.
    rewrite (from_policy_loop_ok _ _ [] ∅ seen_ok_empty Hnd); [done|].
    rewrite He, <- list_fmap_compose. unfold compose; simpl. by rewrite list_fmap_id.
  - done.
  - unfold from_capture. simpl. rewrite He. unfold len. rewrite !length_fmap, Z.eqb_refl. simpl.
    set (vs := _ <$> pairs).
    replace ((λ i, _) <$> pairs.*1) with
      ((λ v, {| access_index := msr_index v; access_authority := ReadWrite |}) <$> vs).
    + by rewrite from_capture_loop_ok.
    + subst vs. rewrite <- !list_fmap_compose. apply list_fmap_ext. by intros ? [??] ?.
Qed.

(** A snapshot [from_capture] can return: the values cover the policy. *)
Definition snapshot_wf (s : GuestMsrSnapshot) : Prop :=
  msr_index <$> msr_values (snap_values s) = access_index <$> policy_entries (snap_policy s).
Lemma from_capture_loop_Ok es : ∀ vs n,
  length es = length vs →
  from_capture_loop n (zip es vs) = Ok tt ↔ msr_index <$> vs = access_index <$> es.
Proof.
  induction es as [|e es IH]; intros [|v vs] n Hl; simplify_eq/=; [done|].
  rewrite bind_err_if_Ok, negb_false_iff, Z.eqb_eq, IH by done. split; [intros [-> ->]; done|by intros [= -> ->]].
Qed.
Lemma from_capture_Ok policy values s :
  from_capture policy values = Ok s ↔
  s = {| snap_policy := policy; snap_values := values |} ∧ snapshot_wf s.
Proof.
  unfold from_capture. rewrite bind_err_if_Ok, negb_false_iff, Z.eqb_eq.
  unfold len. rewrite Nat2Z.inj_iff. split.
  - intros [Hl H]. apply bind_Ok_inv in H as ([]&H&[= <-]).
    split; [done|]. by apply (from_capture_loop_Ok _ _ 0).
  - intros [-> Hwf]. unfold snapshot_wf in Hwf. simpl in Hwf.
    assert (length (policy_entries policy) = length (msr_values values)) as Hl.
    { by rewrite <- (length_fmap access_index), <- Hwf, length_fmap. }
    split; [done|]. by rewrite (proj2 (from_capture_loop_Ok _ _ 0 Hl) Hwf).
Qed.

Lemma snapshot_mismatches_nil vs : ∀ vs' n,
  msr_index <$> vs = msr_index <$> vs' →
  omap id (imap (λ i, snapshot_mismatch (n + i)) (zip vs vs')) = [] ↔ vs = vs'.
Proof.
  induction vs as [|[i v] vs IH]; intros [|[i' v'] vs'] n H; simplify_eq/=; [done|].
  destruct (Z.eqb_spec v v') as [->|Hv]; simpl.
  - setoid_rewrite (imap_ext _ (λ j, snapshot_mismatch (S n + j))).
    2:{ intros. simpl. by rewrite Nat.add_succ_r. }
    rewrite (IH vs' (S n)) by done. split; [by intros ->|by intros [= ->]].
  - split; [done|]. intros [= ? ?]. done.
Qed.
Lemma msr_compare_exact s s' :
  snapshot_wf s → snapshot_wf s' → msr_is_exact_match (msr_compare s s') = true ↔ s = s'.
Proof.
  destruct s as [p [vs]], s' as [p' [vs']]. unfold snapshot_wf; simpl. intros Hs Hs'.
  unfold msr_is_exact_match, msr_compare. simpl. case_bool_decide as Hp; simpl.
  - subst p'. rewrite is_empty_true.
    pose proof (snapshot_mismatches_nil vs vs' 0) as Hnil. simpl in Hnil.
    etransitivity; [apply Hnil; congruence|]. naive_solver.
  - split; [done|]. intros [= ? ?]. done.
Qed.

(** * Model comparison as equality of finite maps *)
Definition model_map (values : list MsrFeatureValue) : gmap Z Z :=
  list_to_map ((λ v, (fv_index v, fv_value v)) <$> values).
Lemma model_map_lookup values i : model_map values !! i = fv_value <$> find_index values i.
Proof.
  unfold model_map, find_index. induction values as [|v l IH]; simpl; [apply lookup_empty|].
  rewrite lookup_insert. destruct (Z.eqb_spec (fv_index v) i) as [->|].
  - by rewrite decide_True.
  - by rewrite decide_False.
Qed.
Lemma has_index_find values i : has_index values i = bool_decide (is_Some (find_index values i)).
Proof.
  unfold has_index, find_index. induction values as [|v l IH]; simpl; [done|].
  destruct (fv_index v =? i); [done|apply IH].
Qed.
Lemma find_index_Some values i v :
  find_index values i = Some v → v ∈ values ∧ fv_index v = i.
Proof.
  unfold find_index. intros [Hin Heq]%List.find_some.
  split; [by apply list_elem_of_In|by apply Z.eqb_eq].
Qed.
Lemma find_index_elem values v :
  NoDup (fv_index <$> values) → v ∈ values → find_index values (fv_index v) = Some v.
Proof.
  unfold find_index. induction values as [|w l IH]; simpl; [set_solver|].
  intros [Hni Hnd]%NoDup_cons [->|Hin]%elem_of_cons; [by rewrite Z.eqb_refl|].
  destruct (Z.eqb_spec (fv_index w) (fv_index v)) as [Heq|]; [|by apply IH].
  destruct Hni. rewrite Heq. by apply list_elem_of_fmap_2.
Qed.
Lemma filter_nil_iff {A} (P : A → Prop) `{∀ x, Decision (P x)} l :
  filter P l = [] ↔ ∀ x, x ∈ l → ¬ P x.
Proof.
  rewrite <- forall_not_elem_nil. setoid_rewrite list_elem_of_filter. naive_solver.
Qed.
Lemma sublist_fmap {A B} (f : A → B) l k : l `sublist_of` k → f <$> l `sublist_of` f <$> k.
Proof. induction 1; simpl; by constructor. Qed.
Lemma model_exact_iff a b :
  NoDup (fv_index <$> candidate_values a) →
  model_is_exact_match (candidate_compare a b) = true ↔
  model_map (candidate_values a) = model_map (candidate_values b).
Proof.
  intros Hnd. unfold model_is_exact_match, candidate_compare; simpl.
  rewrite !andb_true_iff, !is_empty_true, !filter_nil_iff.
  setoid_rewrite has_index_find. setoid_rewrite bool_decide_eq_false.
  split.
  - intros [[Hmiss Hextra] Hval]. apply map_eq. intros i. rewrite !model_map_lookup.
    destruct (find_index (candidate_values a) i) as [r|] eqn:Hr.
    + pose proof (find_index_Some _ _ _ Hr) as [Hin <-].
      specialize (Hmiss r Hin). apply dec_stable in Hmiss as [c Hc]. rewrite Hc. simpl.
      assert (value_mismatch (candidate_values b) r = None) as Hn.
      { destruct (value_mismatch _ r) as [m|] eqn:Hm; [|done]. exfalso.
        assert (m ∈ omap (value_mismatch (candidate_values b)) (candidate_values a)) as Hbad
          by (apply list_elem_of_omap; eauto).
        rewrite Hval in Hbad. set_solver. }
      unfold value_mismatch in Hn. rewrite Hc in Hn. simpl in Hn.
      destruct (Z.eqb_spec (fv_value c) (fv_value r)) as [->|]; done.
    + destruct (find_index (candidate_values b) i) as [c|] eqn:Hc; [|done]. exfalso.
      pose proof (find_index_Some _ _ _ Hc) as [Hin <-].
      apply (Hextra c Hin). rewrite Hr. by intros [? ?].
  - intros Heq.
    assert (∀ i, fv_value <$> find_index (candidate_values a) i =
                 fv_value <$> find_index (candidate_values b) i) as Hfind.
    { intros i. rewrite <- !model_map_lookup. by rewrite Heq. }
    split_and!.
    + intros r Hin Hno. apply Hno. specialize (Hfind (fv_index r)).
      rewrite find_index_elem in Hfind by done. destruct (find_index _ _); [by eexists|done].
    + intros c Hin Hno. specialize (Hfind (fv_index c)).
      destruct (find_index (candidate_values a) _) eqn:Ha; [apply Hno; by eexists|].
      destruct (find_index (candidate_values b) _) eqn:Hb; [done|].
      apply list_elem_of_In in Hin. pose proof (List.find_none _ _ Hb c Hin) as Hf.
      cbv beta in Hf. by rewrite Z.eqb_refl in Hf.
    + apply forall_not_elem_nil. intros m (r&Hin&Hm)%list_elem_of_omap.
      specialize (Hfind (fv_index r)). rewrite find_index_elem in Hfind by done.
      unfold value_mismatch in Hm. destruct (find_index (candidate_values b) _); [|done].
      simplify_eq/=. by rewrite Hfind, Z.eqb_refl in Hm.
Qed.

(** * Properties *)

(** C37: [GuestMsrAccessPolicy::from_host] grants a request exactly when it has
    no repeated index and every index is offered by the host; the policy then
    lists the request in order.  Otherwise the error names the first offending
    position: a repetition with the position it repeats, or an index the host
    does not offer, every earlier position being acceptable. *)
Theorem msr_policy_spec host requested :
  match from_host host requested with
  | Ok p =>
      NoDup requested ∧ requested ⊆ host_indices host ∧
      policy_entries p = ((λ i, {| access_index := i; access_authority := ReadWrite |}) <$> requested)
  | Err (UnsupportedIndex i p) =>
      requested !! p = Some i ∧ (i ∉ host_indices host) ∧
      NoDup (take p requested) ∧ take p requested ⊆ host_indices host
  | Err (PolicyDuplicateIndex i p q) =>
      (p < q)%nat ∧ requested !! p = Some i ∧ requested !! q = Some i ∧
      NoDup (take q requested) ∧ take q requested ⊆ host_indices host
  | Panic => False
  end.
Proof.
  pose proof (from_host_loop_spec (host_indices host) requested [] ∅ seen_ok_empty) as H.
  unfold from_host. simpl in H.
  destruct (from_host_loop _ _ _ _) as [es|[i p|i p q]|]; simpl in *; naive_solver.
Qed.

(** The MSR snapshot of a checkpoint is exact.  Values for the indices of a
    granted policy always form a value set and a snapshot; [from_capture] accepts
    precisely the value sets that cover the policy index by index; and
    [compare] reports an exact match precisely for equal snapshots. *)
Theorem msr_snapshot_spec :
  (∀ host pairs policy, from_host host pairs.*1 = Ok policy →
    ∃ values, from_policy policy pairs = Ok values ∧
      msr_values values = ((λ '(i, v), {| msr_index := i; msr_value := v |}) <$> pairs) ∧
      is_ok (from_capture policy values) = true) ∧
  (∀ policy values s, from_capture policy values = Ok s ↔
    s = {| snap_policy := policy; snap_values := values |} ∧
    msr_index <$> msr_values values = access_index <$> policy_entries policy) ∧
  (∀ p v p' v' s s', from_capture p v = Ok s → from_capture p' v' = Ok s' →
    msr_is_exact_match (msr_compare s s') = true ↔ s = s').
Proof.
  split_and!.
  - intros host pairs policy (vs&?&?&Hc)%snapshot_of_pairs. exists vs. by rewrite Hc.
  - intros policy values s. rewrite from_capture_Ok. split; intros [-> ?]; done.
  - intros p v p' v' s s' [-> ?]%from_capture_Ok [-> ?]%from_capture_Ok. by apply msr_compare_exact.
Qed.
Lemma msr_snapshot_spec_witness :
  ∃ policy values, from_host {| host_indices := [0x10; 0x1b] |} [0x1b] = Ok policy ∧
    from_policy policy [(0x1b, 7)] = Ok values ∧
    is_ok (from_capture policy values) = true.
Proof.
  destruct (from_host {| host_indices := [0x10; 0x1b] |} [0x1b]) as [policy| |] eqn:H;
    [|vm_compute in H; discriminate|vm_compute in H; discriminate].
  destruct (proj1 msr_snapshot_spec {| host_indices := [0x10; 0x1b] |} [(0x1b, 7)] policy H)
    as (vs&H1&_&H2).
  exists policy, vs. done.
Defined.

(** The comparison of two host MSR models is exact precisely when the
    immutable feature MSRs of both hosts form the same finite map from index to
    value; mutable MSRs (the microcode revision) never take part, and the
    comparison of a model taken from an observation never panics. *)
Theorem msr_model_comparison_spec (o o' : HostMsrFeatureValues) :
  NoDup (fv_index <$> observed_values o) →
  ∃ a b : HostMsrModelCandidate,
    from_observation (E:=unit) o = Ok a ∧ from_observation (E:=unit) o' = Ok b ∧
    (model_is_exact_match (candidate_compare a b) = true ↔
     model_map (model_immutable_values o) = model_map (model_immutable_values o')).
Proof.
  intros Hnd.
  assert (∀ o, from_observation (E:=unit) o = Ok {| source_observation := o;
    candidate_values := model_immutable_values o |}) as Hobs.
  { intros x. unfold from_observation. rewrite (proj2 (forallb_forall _ _)); [done|].
    intros v Hv. apply list_elem_of_In, list_elem_of_filter in Hv as [Hv _].
    by apply bool_decide_eq_true. }
  do 2 eexists. split_and!; [apply Hobs|apply Hobs|].
  apply model_exact_iff. simpl. eapply sublist_NoDup; [done|].
  apply sublist_fmap, sublist_filter.
Qed.
Lemma msr_model_comparison_spec_witness :
  ∃ a b : HostMsrModelCandidate,
    from_observation (E:=unit)
      {| observed_values := [feature_value_new 0x8b 1; feature_value_new 0x10a 5] |} = Ok a ∧
    from_observation (E:=unit)
      {| observed_values := [feature_value_new 0x10a 5; feature_value_new 0x8b 2] |} = Ok b ∧
    model_is_exact_match (candidate_compare a b) = true.
Proof.
  destruct (msr_model_comparison_spec
    {| observed_values := [feature_value_new 0x8b 1; feature_value_new 0x10a 5] |}
    {| observed_values := [feature_value_new 0x10a 5; feature_value_new 0x8b 2] |})
    as (a&b&Ha&Hb&Hex).
  { apply (bool_decide_unpack (NoDup [0x8b; 0x10a])). vm_compute. exact I. }
  exists a, b. split_and!; [exact Ha|exact Hb|]. apply Hex. reflexivity.
Defined.
