(* ===== verification/CpuPolicy.v ===== *)
(** The CPUID entries a guest is given and their comparison
    ([src/src/kvm/cpu.rs]).

    [GuestCpuPolicy::from_host] copies the host's entries and changes the ones
    the VMM cannot support; [GuestCpuPolicy::compare] compares two policies
    entry by entry, in any order. *)

From S2P Require Import Prelude VirtioCommon Msr.

Definition CPUID_FEATURES : Z := 1.
Definition CPUID_FEATURE_X2APIC : Z := Z.shiftl 1 21.
Definition CPUID_FEATURE_TSC_DEADLINE : Z := Z.shiftl 1 24.
Definition CPUID_XSTATE : Z := 13.
Definition CPUID_XSTATE_CONTROL : Z := 0.
Definition CPUID_XSTATE_FEATURES : Z := 1.
Definition CPUID_XSTATE_XSAVEC : Z := Z.shiftl 1 1.
Definition CPUID_XSTATE_XSAVES : Z := Z.shiftl 1 3.
Definition RESET_XSAVE_AREA_SIZE : Z := 576.
Definition KVM_CPUID_FEATURES : Z := 0x40000001.
Definition KVM_FEATURE_PV_UNHALT : Z := Z.shiftl 1 7.

Record CpuidEntry := mkCpuid {
  cpuid_function : Z; cpuid_index : Z; cpuid_flags : Z; cpuid_eax : Z; cpuid_ebx : Z; cpuid_ecx : Z; cpuid_edx : Z
}.
#[global] Instance CpuidEntry_eq_dec : EqDecision CpuidEntry.
Proof. solve_decision. Defined.
Record CpuidPolicyKey := mkCpuidKey { key_function : Z; key_index : Z }.
#[global] Instance CpuidPolicyKey_eq_dec : EqDecision CpuidPolicyKey.
Proof. solve_decision. Defined.
Definition cpuid_key (e : CpuidEntry) : CpuidPolicyKey := mkCpuidKey (cpuid_function e) (cpuid_index e).
Record HostCpuid := { host_cpuid_entries : list CpuidEntry }.
Record GuestCpuPolicy := { cpu_policy_entries : list CpuidEntry }.

Definition with_eax (e : CpuidEntry) (x : Z) : CpuidEntry :=
  mkCpuid (cpuid_function e) (cpuid_index e) (cpuid_flags e) x (cpuid_ebx e) (cpuid_ecx e) (cpuid_edx e).
Definition with_ebx (e : CpuidEntry) (x : Z) : CpuidEntry :=
  mkCpuid (cpuid_function e) (cpuid_index e) (cpuid_flags e) (cpuid_eax e) x (cpuid_ecx e) (cpuid_edx e).
Definition with_ecx (e : CpuidEntry) (x : Z) : CpuidEntry :=
  mkCpuid (cpuid_function e) (cpuid_index e) (cpuid_flags e) (cpuid_eax e) (cpuid_ebx e) x (cpuid_edx e).
(** The [match] of [GuestCpuPolicy::from_host] on one entry. *)
Definition guest_cpuid_entry (e : CpuidEntry) : CpuidEntry :=
  if cpuid_function e =? CPUID_FEATURES then
    with_ecx e (Z.land (cpuid_ecx e) (unot 32 (Z.lor CPUID_FEATURE_X2APIC CPUID_FEATURE_TSC_DEADLINE)))
  else if (cpuid_function e =? CPUID_XSTATE) && (cpuid_index e =? CPUID_XSTATE_CONTROL) then
    with_ebx e RESET_XSAVE_AREA_SIZE
  else if (cpuid_function e =? CPUID_XSTATE) && (cpuid_index e =? CPUID_XSTATE_FEATURES)
          && negb (Z.land (cpuid_eax e) (Z.lor CPUID_XSTATE_XSAVEC CPUID_XSTATE_XSAVES) =? 0) then
    with_ebx e RESET_XSAVE_AREA_SIZE
  else if cpuid_function e =? KVM_CPUID_FEATURES then
    with_eax e (Z.land (cpuid_eax e) (unot 32 KVM_FEATURE_PV_UNHALT))
  else e.
Definition cpu_policy_from_host (host : HostCpuid) : GuestCpuPolicy :=
  {| cpu_policy_entries := guest_cpuid_entry <$> host_cpuid_entries host |}.

(** ** Comparison *)
Inductive CpuidPolicyField := Flags | Eax | Ebx | Ecx | Edx.
Record CpuidPolicyEntryMismatch := {
  em_key : CpuidPolicyKey; em_reference : CpuidEntry; em_observed : CpuidEntry;
  em_fields : list CpuidPolicyField
}.
Definition differing_fields (reference observed : CpuidEntry) : list CpuidPolicyField :=
  (if cpuid_flags reference =? cpuid_flags observed then [] else [Flags]) ++
  (if cpuid_eax reference =? cpuid_eax observed then [] else [Eax]) ++
  (if cpuid_ebx reference =? cpuid_ebx observed then [] else [Ebx]) ++
  (if cpuid_ecx reference =? cpuid_ecx observed then [] else [Ecx]) ++
  (if cpuid_edx reference =? cpuid_edx observed then [] else [Edx]).
(** [CpuidPolicyEntryMismatch::between]; its callers have equal keys. *)
Definition mismatch_between (reference observed : CpuidEntry) : option CpuidPolicyEntryMismatch :=
  let fields := differing_fields reference observed in
  if is_empty fields then None
  else Some {| em_key := cpuid_key reference; em_reference := reference; em_observed := observed; em_fields := fields |}.
Definition has_key (entries : list CpuidEntry) (key : CpuidPolicyKey) : bool :=
  existsb (λ e, bool_decide (cpuid_key e = key)) entries.
Definition find_key (entries : list CpuidEntry) (key : CpuidPolicyKey) : option CpuidEntry :=
  List.find (λ e, bool_decide (cpuid_key e = key)) entries.
Record GuestCpuPolicyComparison := {
  cp_reference : GuestCpuPolicy; cp_observed : GuestCpuPolicy;
  cp_missing_from_observed : list CpuidEntry; cp_extra_in_observed : list CpuidEntry;
  cp_entry_mismatches : list CpuidPolicyEntryMismatch
}.
Definition cpu_policy_compare (self observed : GuestCpuPolicy) : GuestCpuPolicyComparison := {|
  cp_reference := self; cp_observed := observed;
  cp_missing_from_observed :=
    List.filter (λ e, negb (has_key (cpu_policy_entries observed) (cpuid_key e))) (cpu_policy_entries self);
  cp_extra_in_observed :=
    List.filter (λ e, negb (has_key (cpu_policy_entries self) (cpuid_key e))) (cpu_policy_entries observed);
  cp_entry_mismatches :=
    omap (λ e, candidate ← find_key (cpu_policy_entries observed) (cpuid_key e); mismatch_between e candidate)
      (cpu_policy_entries self) |}.
Definition cpu_policy_is_exact_match (c : GuestCpuPolicyComparison) : bool :=
  is_empty (cp_missing_from_observed c) && is_empty (cp_extra_in_observed c) && is_empty (cp_entry_mismatches c).

(** * Facts *)
Definition cpuid_entry_wf (e : CpuidEntry) : Prop :=
  in_width 32 (cpuid_function e) ∧ in_width 32 (cpuid_index e) ∧ in_width 32 (cpuid_flags e) ∧
  in_width 32 (cpuid_eax e) ∧ in_width 32 (cpuid_ebx e) ∧ in_width 32 (cpuid_ecx e) ∧ in_width 32 (cpuid_edx e).
(** Clearing bits of a 32-bit value. *)
Lemma clear_bits x f i :
  in_width 32 x → Z.testbit (Z.land x (unot 32 f)) i = Z.testbit x i && negb (Z.testbit f i).
Proof.
  intros Hx. destruct (decide (0 ≤ i < 32)); [by apply land_clear|]. rewrite Z.land_spec.
  destruct (decide (i < 0)); [by rewrite !Z.testbit_neg_r by lia|].
  by rewrite (in_width_testbit 32 x) by (done || lia).
Qed.
Lemma pow_testbit k i : 0 ≤ k → 0 ≤ i → Z.testbit (Z.shiftl 1 k) i = (i =? k).
Proof.
  intros. rewrite Z.shiftl_spec by done. destruct (Z.eqb_spec i k) as [->|]; [by rewrite Z.sub_diag|].
  destruct (decide (i < k)); [by rewrite Z.testbit_neg_r by lia|]. apply (in_width_testbit 1); [by cbv|lia].
Qed.
(** Which entries get the size of the reset XSAVE area. *)
Definition xsave_size_owned (e : CpuidEntry) : bool :=
  (cpuid_function e =? CPUID_XSTATE) &&
  ((cpuid_index e =? 0) || ((cpuid_index e =? 1) && (Z.testbit (cpuid_eax e) 1 || Z.testbit (cpuid_eax e) 3))).
(** What the guest's entry has, bit by bit. *)
Definition guest_entry_of (e e' : CpuidEntry) : Prop :=
  cpuid_key e' = cpuid_key e ∧ cpuid_flags e' = cpuid_flags e ∧ cpuid_edx e' = cpuid_edx e ∧
  (∀ i, 0 ≤ i → Z.testbit (cpuid_eax e') i =
     Z.testbit (cpuid_eax e) i && negb ((cpuid_function e =? KVM_CPUID_FEATURES) && (i =? 7))) ∧
  (∀ i, 0 ≤ i → Z.testbit (cpuid_ecx e') i =
     Z.testbit (cpuid_ecx e) i && negb ((cpuid_function e =? CPUID_FEATURES) && ((i =? 21) || (i =? 24)))) ∧
  cpuid_ebx e' = if xsave_size_owned e then RESET_XSAVE_AREA_SIZE else cpuid_ebx e.
Lemma compacted_xsave x :
  (Z.land x (Z.lor CPUID_XSTATE_XSAVEC CPUID_XSTATE_XSAVES) =? 0) = negb (Z.testbit x 1 || Z.testbit x 3).
Proof.
  rewrite Z.land_lor_distr_r. change CPUID_XSTATE_XSAVEC with (2 ^ 1). change CPUID_XSTATE_XSAVES with (2 ^ 3).
  rewrite negb_orb, <- !land_flag_eqb by done. apply eq_true_iff_eq.
  by rewrite andb_true_iff, !Z.eqb_eq, Z.lor_eq_0_iff.
Qed.
Lemma guest_entry_spec e : cpuid_entry_wf e → guest_entry_of e (guest_cpuid_entry e).
Proof.
  intros (_&_&_&Ha&_&Hc&_). unfold guest_cpuid_entry, guest_entry_of, xsave_size_owned. rewrite compacted_xsave.
  change CPUID_XSTATE_CONTROL with 0. change CPUID_XSTATE_FEATURES with 1. rewrite negb_involutive.
  destruct (Z.eqb_spec (cpuid_function e) CPUID_FEATURES) as [->|]; cbn.
  { split_and!; [done..| | |done]; intros i Hi.
    - by rewrite andb_true_r.
    - rewrite clear_bits, Z.lor_spec by done. unfold CPUID_FEATURE_X2APIC, CPUID_FEATURE_TSC_DEADLINE.
      by rewrite !pow_testbit by lia. }
  destruct (Z.eqb_spec (cpuid_function e) CPUID_XSTATE) as [->|]; cbn.
  { destruct (Z.eqb_spec (cpuid_index e) 0); cbn; [split_and!; [done..| | |done]; intros; by rewrite andb_true_r|].
    destruct (Z.eqb_spec (cpuid_index e) 1); cbn;
      [destruct (Z.testbit _ 1 || Z.testbit _ 3)|]; cbn; split_and!; try done; intros; by rewrite andb_true_r. }
  destruct (Z.eqb_spec (cpuid_function e) KVM_CPUID_FEATURES); cbn; split_and!; try done; intros i Hi;
    rewrite ?andb_true_r; [|done..].
  rewrite clear_bits by done. unfold KVM_FEATURE_PV_UNHALT. by rewrite pow_testbit.
Qed.
Lemma guest_entry_idemp e : guest_cpuid_entry (guest_cpuid_entry e) = guest_cpuid_entry e.
Proof.
  unfold guest_cpuid_entry at 2 3.
  destruct (cpuid_function e =? CPUID_FEATURES) eqn:H1.
  { unfold guest_cpuid_entry. cbn. rewrite H1. by rewrite <- Z.land_assoc, Z.land_diag. }
  destruct (_ && (cpuid_index e =? CPUID_XSTATE_CONTROL)) eqn:H2.
  { unfold guest_cpuid_entry. cbn. by rewrite H1, H2. }
  destruct (_ && _ && _) eqn:H3.
  { unfold guest_cpuid_entry. cbn. by rewrite H1, H2, H3. }
  destruct (cpuid_function e =? KVM_CPUID_FEATURES) eqn:H4; unfold guest_cpuid_entry; cbn; rewrite H1.
  - apply Z.eqb_eq in H4. rewrite H4. cbn. by rewrite <- Z.land_assoc, Z.land_diag.
  - by rewrite H2, H3, H4.
Qed.

(** ** The comparison *)
Lemma has_key_true l k : has_key l k = true ↔ ∃ e, e ∈ l ∧ cpuid_key e = k.
Proof.
  unfold has_key. rewrite existsb_exists. setoid_rewrite bool_decide_eq_true. by setoid_rewrite list_elem_of_In.
Qed.
Lemma find_key_Some l e :
  NoDup (cpuid_key <$> l) → find_key l (cpuid_key e) = Some e ↔ e ∈ l.
Proof.
  intros Hn. unfold find_key. split; [by intros [H _]%find_some; apply list_elem_of_In|]. intros He.
  destruct (List.find _ l) as [c|] eqn:Hf.
  - apply find_some in Hf as [Hc%list_elem_of_In Hk%bool_decide_eq_true]. f_equal.
    apply list_elem_of_lookup in Hc as [i Hi]. apply list_elem_of_lookup in He as [j Hj].
    assert (i = j) as ->; [|congruence]. eapply NoDup_lookup; [exact Hn|..]; rewrite list_lookup_fmap.
    + by rewrite Hi.
    + rewrite Hj. cbn. by rewrite Hk.
  - apply list_elem_of_In in He. pose proof (find_none _ _ Hf _ He) as H. by rewrite bool_decide_eq_false in H.
Qed.
Lemma differing_fields_nil a b : cpuid_key a = cpuid_key b → differing_fields a b = [] ↔ a = b.
Proof.
  intros [= Hf Hi]. unfold differing_fields. split; [|by intros ->; rewrite !Z.eqb_refl].
  rewrite !app_nil. intros (H1&H2&H3&H4&H5).
  assert (∀ (x y : Z) (f : CpuidPolicyField), (if x =? y then [] else [f]) = [] → x = y) as Heq.
  { intros x y f. by destruct (Z.eqb_spec x y). }
  apply Heq in H1, H2, H3, H4, H5. destruct a, b. cbn in *. congruence.
Qed.
Lemma filter_nil {A} (f : A → bool) l : List.filter f l = [] ↔ ∀ x, x ∈ l → f x = false.
Proof.
  induction l as [|x l IH]; cbn; [set_solver|]. destruct (f x) eqn:Hx.
  - split; [done|]. intros H. rewrite (H x) in Hx; [done|set_solver].
  - rewrite IH. set_solver.
Qed.
Lemma omap_nil {A B} (f : A → option B) l : omap f l = [] ↔ ∀ x, x ∈ l → f x = None.
Proof.
  induction l as [|x l IH]; cbn; [set_solver|]. destruct (f x) eqn:Hx.
  - split; [done|]. intros H. rewrite (H x) in Hx; [done|set_solver].
  - rewrite IH. set_solver.
Qed.
Lemma mismatch_None a b : cpuid_key a = cpuid_key b → mismatch_between a b = None ↔ a = b.
Proof.
  intros Hk. rewrite <- (differing_fields_nil a b Hk). unfold mismatch_between.
  by destruct (differing_fields a b).
Qed.

(** * Properties *)

(** The CPUID policy of a guest hides exactly what the VMM cannot run.  The policy has the host's
    entries in the host's order.  In every entry function, index, flags and EDX are the host's; ECX is the
    host's without x2APIC and TSC-deadline in leaf 1; EAX is the host's without PV-unhalt in the KVM leaf;
    EBX is the host's except for the two XSAVE sizes KVM computes, which are those of a reset vCPU.  Making
    a policy of a policy changes nothing. *)
Theorem cpu_policy_spec (host : HostCpuid) :
  Forall cpuid_entry_wf (host_cpuid_entries host) →
  Forall2 guest_entry_of (host_cpuid_entries host) (cpu_policy_entries (cpu_policy_from_host host)) ∧
  cpu_policy_from_host {| host_cpuid_entries := cpu_policy_entries (cpu_policy_from_host host) |} =
    cpu_policy_from_host host.
Proof.
  intros Hwf. split.
  - cbn. apply Forall2_fmap_r. induction Hwf; constructor; [by apply guest_entry_spec|done].
  - unfold cpu_policy_from_host. cbn. f_equal. rewrite <- list_fmap_compose. apply list_fmap_ext.
    intros i e _. apply guest_entry_idemp.
Qed.
(** On a host with all the masked features in one entry. *)
Lemma cpu_policy_spec_witness :
  Forall2 guest_entry_of [mkCpuid 1 0 0 0 0 0x1200001 0]
    (cpu_policy_entries (cpu_policy_from_host {| host_cpuid_entries := [mkCpuid 1 0 0 0 0 0x1200001 0] |})) ∧
  cpu_policy_entries (cpu_policy_from_host {| host_cpuid_entries := [mkCpuid 1 0 0 0 0 0x1200001 0] |}) =
    [mkCpuid 1 0 0 0 0 1 0].
Proof.
  split; [|reflexivity]. refine (proj1 (cpu_policy_spec {| host_cpuid_entries := [mkCpuid 1 0 0 0 0 0x1200001 0] |} _)).
  repeat constructor; cbn; lia.
Defined.

(** Comparing two CPUID policies tells whether they are the same entries.  When no policy has two
    entries for one function and index, the comparison is an exact match precisely when the policies
    are permutations of each other. *)
Theorem cpu_policy_compare_spec (reference observed : GuestCpuPolicy) :
  NoDup (cpuid_key <$> cpu_policy_entries reference) → NoDup (cpuid_key <$> cpu_policy_entries observed) →
  cpu_policy_is_exact_match (cpu_policy_compare reference observed) = true ↔
    cpu_policy_entries reference ≡ₚ cpu_policy_entries observed.
Proof.
  destruct reference as [p], observed as [q]. cbn. intros Hp Hq.
  unfold cpu_policy_is_exact_match, cpu_policy_compare.
  cbn [cp_missing_from_observed cp_extra_in_observed cp_entry_mismatches cpu_policy_entries].
  rewrite !andb_true_iff, !is_empty_true, !filter_nil, omap_nil. setoid_rewrite negb_false_iff. split.
  - intros [[Hmiss Hextra] Hdiff].
    assert (∀ e, e ∈ p → e ∈ q) as Hsub.
    { intros e He. destruct (proj1 (has_key_true _ _) (Hmiss e He)) as (c&Hc&Hk). specialize (Hdiff e He).
      rewrite <- Hk, (proj2 (find_key_Some q c Hq) Hc) in Hdiff. cbn in Hdiff.
      apply mismatch_None in Hdiff as ->; done. }
    apply NoDup_Permutation; [by eapply NoDup_fmap_1|by eapply NoDup_fmap_1|]. intros e. split; [apply Hsub|].
    intros He. destruct (proj1 (has_key_true _ _) (Hextra e He)) as (c&Hc&Hk).
    pose proof (proj2 (find_key_Some q c Hq) (Hsub c Hc)) as Hf. rewrite Hk in Hf.
    rewrite (proj2 (find_key_Some q e Hq) He) in Hf. by injection Hf as ->.
  - intros Hperm. split_and!.
    + intros e He. apply has_key_true. exists e. by rewrite <- Hperm.
    + intros e He. apply has_key_true. exists e. by rewrite Hperm.
    + intros e He. rewrite (proj2 (find_key_Some q e Hq)) by (by rewrite <- Hperm). by apply mismatch_None.
Qed.
Lemma cpu_policy_compare_spec_witness :
  cpu_policy_is_exact_match (cpu_policy_compare
    {| cpu_policy_entries := [mkCpuid 1 0 0 5 0 0 0; mkCpuid 7 0 0 6 0 0 0] |}
    {| cpu_policy_entries := [mkCpuid 7 0 0 6 0 0 0; mkCpuid 1 0 0 5 0 0 0] |}) = true.
Proof.
  apply cpu_policy_compare_spec; cbn.
  - repeat constructor; set_solver.
  - repeat constructor; set_solver.
  - apply Permutation_swap.
Defined.
