(* ===== verification/VcpuState.v ===== *)
(** vCPU state snapshots: the general and special registers and the MSRs of a
    vCPU, how they are captured, restored and compared field by field
    ([src/src/state_snapshot.rs], [src/src/vcpu/register_snapshot.rs],
    [src/src/vcpu/special_register_snapshot.rs],
    [src/src/vcpu/special_register_restore.rs], [src/src/vcpu/msr_readback.rs],
    [src/src/vcpu/msr_write.rs], [src/src/vcpu/snapshot_verify.rs]).

    The KVM ioctls are the interface [KvmVcpu]; [KvmVcpuLaws] states what the
    restore path relies on: a register block that was set is read back.  Texts
    of formatted [io::Error] messages are kept up to the numbers in them. *)

From stdpp Require Import gmap.
From S2P Require Import Prelude Errors Msr.

(** * The register structures of [kvm/sys.rs] *)
Record U64x4 := { word0 : Z; word1 : Z; word2 : Z; word3 : Z }.
Module sys.
Record KvmRegs := {
  rax : Z; rbx : Z; rcx : Z; rdx : Z; rsi : Z; rdi : Z; rsp : Z; rbp : Z;
  r8 : Z; r9 : Z; r10 : Z; r11 : Z; r12 : Z; r13 : Z; r14 : Z; r15 : Z;
  rip : Z; rflags : Z
}.
Record KvmSegment := {
  base : Z; limit : Z; selector : Z; type_ : Z; present : Z; dpl : Z; db : Z; s : Z;
  l : Z; g : Z; avl : Z; unusable : Z; padding : Z
}.
Record KvmDtable := { dt_base : Z; dt_limit : Z; dt_padding : list Z }.
Record KvmSregs := {
  cs : KvmSegment; ds : KvmSegment; es : KvmSegment; fs : KvmSegment; gs : KvmSegment;
  ss : KvmSegment; tr : KvmSegment; ldt : KvmSegment; gdt : KvmDtable; idt : KvmDtable;
  cr0 : Z; cr2 : Z; cr3 : Z; cr4 : Z; cr8 : Z; efer : Z; apic_base : Z;
  interrupt_bitmap : U64x4
}.
End sys.

(** * Snapshots *)
Record VcpuRegisterSnapshot := {
  rax : Z; rbx : Z; rcx : Z; rdx : Z; rsi : Z; rdi : Z; rsp : Z; rbp : Z;
  r8 : Z; r9 : Z; r10 : Z; r11 : Z; r12 : Z; r13 : Z; r14 : Z; r15 : Z;
  rip : Z; rflags : Z
}.
Definition from_kvm_regs (regs : sys.KvmRegs) : VcpuRegisterSnapshot := {|
  rax := sys.rax regs; rbx := sys.rbx regs; rcx := sys.rcx regs; rdx := sys.rdx regs;
  rsi := sys.rsi regs; rdi := sys.rdi regs; rsp := sys.rsp regs; rbp := sys.rbp regs;
  r8 := sys.r8 regs; r9 := sys.r9 regs; r10 := sys.r10 regs; r11 := sys.r11 regs;
  r12 := sys.r12 regs; r13 := sys.r13 regs; r14 := sys.r14 regs; r15 := sys.r15 regs;
  rip := sys.rip regs; rflags := sys.rflags regs
|}.
Definition to_kvm_regs (r : VcpuRegisterSnapshot) : sys.KvmRegs := {|
  sys.rax := rax r; sys.rbx := rbx r; sys.rcx := rcx r; sys.rdx := rdx r;
  sys.rsi := rsi r; sys.rdi := rdi r; sys.rsp := rsp r; sys.rbp := rbp r;
  sys.r8 := r8 r; sys.r9 := r9 r; sys.r10 := r10 r; sys.r11 := r11 r;
  sys.r12 := r12 r; sys.r13 := r13 r; sys.r14 := r14 r; sys.r15 := r15 r;
  sys.rip := rip r; sys.rflags := rflags r
|}.

Inductive VcpuRegisterField :=
  | Rax | Rbx | Rcx | Rdx | Rsi | Rdi | Rsp | Rbp
  | R8 | R9 | R10 | R11 | R12 | R13 | R14 | R15 | Rip | Rflags.
Definition REGISTER_FIELDS : list VcpuRegisterField :=
  [Rax; Rbx; Rcx; Rdx; Rsi; Rdi; Rsp; Rbp; R8; R9; R10; R11; R12; R13; R14; R15; Rip; Rflags].
Definition register_value (r : VcpuRegisterSnapshot) (field : VcpuRegisterField) : Z :=
  match field with
  | Rax => rax r | Rbx => rbx r | Rcx => rcx r | Rdx => rdx r
  | Rsi => rsi r | Rdi => rdi r | Rsp => rsp r | Rbp => rbp r
  | R8 => r8 r | R9 => r9 r | R10 => r10 r | R11 => r11 r
  | R12 => r12 r | R13 => r13 r | R14 => r14 r | R15 => r15 r
  | Rip => rip r | Rflags => rflags r
  end.

(** A mismatch names the field and both values. *)
Record Mismatch (F : Type) := { field : F; reference_value : Z; observed_value : Z }.
Arguments field {F}. Arguments reference_value {F}. Arguments observed_value {F}.
Definition push_mismatch_if_different {F} (f : F) (reference observed : Z) : list (Mismatch F) :=
  if reference =? observed then []
  else [{| field := f; reference_value := reference; observed_value := observed |}].

Record VcpuRegisterSnapshotComparison := {
  regs_reference : VcpuRegisterSnapshot;
  regs_observed : VcpuRegisterSnapshot;
  regs_mismatches : list (Mismatch VcpuRegisterField)
}.
Definition regs_compare (self observed : VcpuRegisterSnapshot) : VcpuRegisterSnapshotComparison := {|
  regs_reference := self;
  regs_observed := observed;
  regs_mismatches := REGISTER_FIELDS ≫= (λ f,
    push_mismatch_if_different f (register_value self f) (register_value observed f))
|}.
Definition regs_is_exact_match (c : VcpuRegisterSnapshotComparison) : bool :=
  is_empty (regs_mismatches c).

Definition SEGMENT_TYPE_BIT_ZERO : Z := 1.
(** The type nibble of an unusable segment is inactive; KVM may clear its bit
    zero across a set/get round trip. *)
Definition canonical_segment_type (segment_type unusable : Z) : Z :=
  if unusable =? 0 then segment_type
  else Z.land segment_type (unot 8 SEGMENT_TYPE_BIT_ZERO).

Record VcpuSegmentState := {
  seg_base : Z; seg_limit : Z; seg_selector : Z; segment_type : Z; seg_present : Z;
  seg_dpl : Z; seg_db : Z; seg_s : Z; seg_l : Z; seg_g : Z; seg_avl : Z; seg_unusable : Z
}.
Definition from_kvm_segment (segment : sys.KvmSegment) : VcpuSegmentState := {|
  seg_base := sys.base segment; seg_limit := sys.limit segment;
  seg_selector := sys.selector segment;
  segment_type := canonical_segment_type (sys.type_ segment) (sys.unusable segment);
  seg_present := sys.present segment; seg_dpl := sys.dpl segment; seg_db := sys.db segment;
  seg_s := sys.s segment; seg_l := sys.l segment; seg_g := sys.g segment;
  seg_avl := sys.avl segment; seg_unusable := sys.unusable segment
|}.
Record VcpuDescriptorTableState := { table_base : Z; table_limit : Z }.
Definition from_kvm_dtable (table : sys.KvmDtable) : VcpuDescriptorTableState := {|
  table_base := sys.dt_base table; table_limit := sys.dt_limit table
|}.

Record VcpuSpecialRegisterSnapshot := {
  cs : VcpuSegmentState; ds : VcpuSegmentState; es : VcpuSegmentState; fs : VcpuSegmentState;
  gs : VcpuSegmentState; ss : VcpuSegmentState; tr : VcpuSegmentState; ldt : VcpuSegmentState;
  gdt : VcpuDescriptorTableState; idt : VcpuDescriptorTableState;
  cr0 : Z; cr2 : Z; cr3 : Z; cr4 : Z; cr8 : Z; efer : Z; apic_base : Z;
  interrupt_bitmap : U64x4
}.
Definition from_kvm_sregs (sregs : sys.KvmSregs) : VcpuSpecialRegisterSnapshot := {|
  cs := from_kvm_segment (sys.cs sregs); ds := from_kvm_segment (sys.ds sregs);
  es := from_kvm_segment (sys.es sregs); fs := from_kvm_segment (sys.fs sregs);
  gs := from_kvm_segment (sys.gs sregs); ss := from_kvm_segment (sys.ss sregs);
  tr := from_kvm_segment (sys.tr sregs); ldt := from_kvm_segment (sys.ldt sregs);
  gdt := from_kvm_dtable (sys.gdt sregs); idt := from_kvm_dtable (sys.idt sregs);
  cr0 := sys.cr0 sregs; cr2 := sys.cr2 sregs; cr3 := sys.cr3 sregs; cr4 := sys.cr4 sregs;
  cr8 := sys.cr8 sregs; efer := sys.efer sregs; apic_base := sys.apic_base sregs;
  interrupt_bitmap := sys.interrupt_bitmap sregs
|}.

(** [SegmentEncoding], [DescriptorTableEncoding] and [encode_snapshot]. *)
Definition into_kvm_segment (state : VcpuSegmentState) : sys.KvmSegment := {|
  sys.base := seg_base state; sys.limit := seg_limit state; sys.selector := seg_selector state;
  sys.type_ := segment_type state; sys.present := seg_present state; sys.dpl := seg_dpl state;
  sys.db := seg_db state; sys.s := seg_s state; sys.l := seg_l state; sys.g := seg_g state;
  sys.avl := seg_avl state; sys.unusable := seg_unusable state; sys.padding := 0
|}.
Definition into_kvm_dtable (state : VcpuDescriptorTableState) : sys.KvmDtable := {|
  sys.dt_base := table_base state; sys.dt_limit := table_limit state; sys.dt_padding := [0; 0; 0]
|}.
Definition encode_snapshot (snapshot : VcpuSpecialRegisterSnapshot) : sys.KvmSregs := {|
  sys.cs := into_kvm_segment (cs snapshot); sys.ds := into_kvm_segment (ds snapshot);
  sys.es := into_kvm_segment (es snapshot); sys.fs := into_kvm_segment (fs snapshot);
  sys.gs := into_kvm_segment (gs snapshot); sys.ss := into_kvm_segment (ss snapshot);
  sys.tr := into_kvm_segment (tr snapshot); sys.ldt := into_kvm_segment (ldt snapshot);
  sys.gdt := into_kvm_dtable (gdt snapshot); sys.idt := into_kvm_dtable (idt snapshot);
  sys.cr0 := cr0 snapshot; sys.cr2 := cr2 snapshot; sys.cr3 := cr3 snapshot;
  sys.cr4 := cr4 snapshot; sys.cr8 := cr8 snapshot; sys.efer := efer snapshot;
  sys.apic_base := apic_base snapshot; sys.interrupt_bitmap := interrupt_bitmap snapshot
|}.

(** ** Field-by-field comparison of the special registers *)
Inductive VcpuSegmentRegister := Cs | Ds | Es | Fs | Gs | Ss | Tr | Ldt.
Definition SEGMENT_REGISTERS : list VcpuSegmentRegister := [Cs; Ds; Es; Fs; Gs; Ss; Tr; Ldt].
Inductive VcpuSegmentField :=
  | Base | Limit | Selector | SegmentType | Present | Dpl | Db | SegS | SegL | SegG | Avl | Unusable.
Definition SEGMENT_FIELDS : list VcpuSegmentField :=
  [Base; Limit; Selector; SegmentType; Present; Dpl; Db; SegS; SegL; SegG; Avl; Unusable].
Inductive VcpuDescriptorTableRegister := Gdt | Idt.
Definition DESCRIPTOR_TABLE_REGISTERS : list VcpuDescriptorTableRegister := [Gdt; Idt].
Inductive VcpuDescriptorTableField := TableBase | TableLimit.
Definition DESCRIPTOR_TABLE_FIELDS : list VcpuDescriptorTableField := [TableBase; TableLimit].
Inductive VcpuInterruptBitmapWord := Word0 | Word1 | Word2 | Word3.
Definition INTERRUPT_BITMAP_WORDS : list VcpuInterruptBitmapWord := [Word0; Word1; Word2; Word3].
Inductive VcpuSpecialRegisterField :=
  | Segment (register : VcpuSegmentRegister) (f : VcpuSegmentField)
  | DescriptorTable (register : VcpuDescriptorTableRegister) (f : VcpuDescriptorTableField)
  | Cr0 | Cr2 | Cr3 | Cr4 | Cr8 | Efer | ApicBase
  | InterruptBitmap (word : VcpuInterruptBitmapWord).

Definition segment_value (state : VcpuSegmentState) (f : VcpuSegmentField) : Z :=
  match f with
  | Base => seg_base state | Limit => seg_limit state | Selector => seg_selector state
  | SegmentType => segment_type state | Present => seg_present state | Dpl => seg_dpl state
  | Db => seg_db state | SegS => seg_s state | SegL => seg_l state | SegG => seg_g state
  | Avl => seg_avl state | Unusable => seg_unusable state
  end.
Definition table_value (state : VcpuDescriptorTableState) (f : VcpuDescriptorTableField) : Z :=
  match f with TableBase => table_base state | TableLimit => table_limit state end.
Definition segment (r : VcpuSpecialRegisterSnapshot) (register : VcpuSegmentRegister) :
  VcpuSegmentState :=
  match register with
  | Cs => cs r | Ds => ds r | Es => es r | Fs => fs r
  | Gs => gs r | Ss => ss r | Tr => tr r | Ldt => ldt r
  end.
Definition descriptor_table (r : VcpuSpecialRegisterSnapshot)
    (register : VcpuDescriptorTableRegister) : VcpuDescriptorTableState :=
  match register with Gdt => gdt r | Idt => idt r end.
Definition bitmap_word (b : U64x4) (word : VcpuInterruptBitmapWord) : Z :=
  match word with Word0 => word0 b | Word1 => word1 b | Word2 => word2 b | Word3 => word3 b end.

Record VcpuSpecialRegisterSnapshotComparison := {
  sregs_reference : VcpuSpecialRegisterSnapshot;
  sregs_observed : VcpuSpecialRegisterSnapshot;
  sregs_mismatches : list (Mismatch VcpuSpecialRegisterField)
}.
Definition sregs_compare (self observed : VcpuSpecialRegisterSnapshot) :
  VcpuSpecialRegisterSnapshotComparison := {|
  sregs_reference := self;
  sregs_observed := observed;
  sregs_mismatches :=
    (SEGMENT_REGISTERS ≫= (λ register, SEGMENT_FIELDS ≫= (λ f,
       push_mismatch_if_different (Segment register f)
         (segment_value (segment self register) f)
         (segment_value (segment observed register) f)))) ++
    (DESCRIPTOR_TABLE_REGISTERS ≫= (λ register, DESCRIPTOR_TABLE_FIELDS ≫= (λ f,
       push_mismatch_if_different (DescriptorTable register f)
         (table_value (descriptor_table self register) f)
         (table_value (descriptor_table observed register) f)))) ++
    ([(Cr0, cr0 self, cr0 observed); (Cr2, cr2 self, cr2 observed);
      (Cr3, cr3 self, cr3 observed); (Cr4, cr4 self, cr4 observed);
      (Cr8, cr8 self, cr8 observed); (Efer, efer self, efer observed);
      (ApicBase, apic_base self, apic_base observed)] ≫= (λ '(f, r, o),
       push_mismatch_if_different f r o)) ++
    (INTERRUPT_BITMAP_WORDS ≫= (λ word,
       push_mismatch_if_different (InterruptBitmap word)
         (bitmap_word (interrupt_bitmap self) word) (bitmap_word (interrupt_bitmap observed) word)))
|}.
Definition sregs_is_exact_match (c : VcpuSpecialRegisterSnapshotComparison) : bool :=
  is_empty (sregs_mismatches c).

(** ** The whole snapshot *)
Record VcpuStateSnapshot := {
  registers : VcpuRegisterSnapshot;
  special_registers : VcpuSpecialRegisterSnapshot;
  msrs : GuestMsrSnapshot
}.
Record VcpuStateSnapshotComparison := {
  cmp_registers : VcpuRegisterSnapshotComparison;
  cmp_special_registers : VcpuSpecialRegisterSnapshotComparison;
  cmp_msrs : GuestMsrSnapshotComparison
}.
Definition state_compare (self observed : VcpuStateSnapshot) : VcpuStateSnapshotComparison := {|
  cmp_registers := regs_compare (registers self) (registers observed);
  cmp_special_registers := sregs_compare (special_registers self) (special_registers observed);
  cmp_msrs := msr_compare (msrs self) (msrs observed)
|}.
Definition state_is_exact_match (c : VcpuStateSnapshotComparison) : bool :=
  regs_is_exact_match (cmp_registers c) && sregs_is_exact_match (cmp_special_registers c) &&
  msr_is_exact_match (cmp_msrs c).

(** * The KVM vCPU file descriptor

    The state [V] is what the kernel keeps for the vCPU.  A set ioctl may
    fail; [KVM_SET_MSRS] and [KVM_GET_MSRS] return how many entries they
    processed, the latter with the entries filled in. *)
Class KvmVcpu (V : Type) := {
  ioctl_get_regs : V → res io_error sys.KvmRegs;
  ioctl_set_regs : sys.KvmRegs → prog V io_error unit;
  ioctl_get_sregs : V → res io_error sys.KvmSregs;
  ioctl_set_sregs : sys.KvmSregs → prog V io_error unit;
  ioctl_get_msrs : list Z → V → res io_error (Z * list (Z * Z));
  ioctl_set_msrs : list (Z * Z) → prog V io_error Z
}.

Definition vcpu_operation (id : Z) (operation : string) (source : io_error) : Error :=
  HostEnvironment (VcpuOperation id operation source).
Definition io_invalid_data (text : string) : io_error := Custom InvalidData (Message text).

Definition VCPU_MSR_READBACK_CAPACITY : Z := 1024.
Definition VCPU_MSR_WRITE_CAPACITY : Z := 1024.

Definition policy_msr_indices (policy : GuestMsrAccessPolicy) : list MsrIndex :=
  access_index <$> policy_entries policy.

(** The entries carry the index; [data] and [reserved] start as zero. *)
Definition prepare_vcpu_msr_request (indices : list MsrIndex) : res io_error (list Z) :=
  err_if (VCPU_MSR_READBACK_CAPACITY <? len indices)
    (Custom InvalidInput (Message "vCPU KVM_GET_MSRS request count exceeds bounded capacity"));;
  nmsrs ← expect (try_from 32 (len indices));
  mret (take (Z.to_nat nmsrs) indices).

Fixpoint decode_msr_entries (pairs : list (MsrIndex * (Z * Z))) : res io_error (list (MsrIndex * Z)) :=
  match pairs with
  | [] => Ok []
  | (expected_index, (index, data)) :: rest =>
      err_if (negb (index =? expected_index))
        (io_invalid_data "KVM_GET_MSRS changed vCPU MSR index");;
      values ← decode_msr_entries rest;
      mret ((expected_index, data) :: values)
  end.
Definition decode_vcpu_msr_response (expected : list MsrIndex) (returned : Z)
    (entries : list (Z * Z)) : res io_error (list (MsrIndex * Z)) :=
  (if returned =? len expected then Ok tt
   else if returned <? len expected then
     index expected returned ≫= λ _ : Z,
       Err (io_invalid_data "KVM_GET_MSRS returned fewer vCPU MSRs than requested")
   else Err (io_invalid_data "KVM_GET_MSRS returned more vCPU MSRs than requested"));;
  err_if (len entries <? len expected)
    (io_invalid_data "KVM_GET_MSRS response buffer has too few entries");;
  decode_msr_entries (zip expected entries).

Fixpoint check_capture_order (pairs : list (GuestMsrAccess * (MsrIndex * Z))) : res io_error unit :=
  match pairs with
  | [] => Ok tt
  | (entry, (captured_index, _)) :: rest =>
      err_if (negb (access_index entry =? captured_index))
        (io_invalid_data "guest MSR capture changed index");;
      check_capture_order rest
  end.
Definition materialize_policy_capture (policy : GuestMsrAccessPolicy)
    (captured : list (MsrIndex * Z)) : res io_error GuestMsrValueSet :=
  err_if (negb (len captured =? len (policy_entries policy)))
    (io_invalid_data "guest MSR capture does not cover the policy");;
  check_capture_order (zip (policy_entries policy) captured);;
  map_err (λ _, io_invalid_data "guest MSR value set") (from_policy policy captured).

Definition prepare_vcpu_msr_write_request (values : GuestMsrValueSet) :
  res io_error (option (list (Z * Z))) :=
  let values := msr_values values in
  if is_empty values then Ok None
  else
    err_if (VCPU_MSR_WRITE_CAPACITY <? len values)
      (Custom InvalidInput (Message "vCPU KVM_SET_MSRS request count exceeds bounded capacity"));;
    nmsrs ← expect (try_from 32 (len values));
    mret (Some (take (Z.to_nat nmsrs) ((λ v, (msr_index v, msr_value v)) <$> values))).
Definition validate_vcpu_msr_write_completion (id : Z) (values : GuestMsrValueSet) (processed : Z) :
  res Error unit :=
  let requested := len (msr_values values) in
  if processed =? requested then Ok tt
  else if processed <? requested then
    v ← index (msr_values values) processed;
    Err (HostEnvironment (VcpuMsrPartialWrite id requested processed (msr_index v)))
  else Err (HostEnvironment (VcpuMsrInvalidWriteCompletion id requested processed)).

Section vcpu.
Context {V : Type} `{!KvmVcpu V} (id : Z).

Definition capture_register_snapshot (v : V) : res Error VcpuRegisterSnapshot :=
  regs ← map_err (vcpu_operation id "KVM_GET_REGS") (ioctl_get_regs v);
  mret (from_kvm_regs regs).
Definition restore_register_snapshot (snapshot : VcpuRegisterSnapshot) : prog V Error unit :=
  pmap_err (vcpu_operation id "KVM_SET_REGS") (ioctl_set_regs (to_kvm_regs snapshot)).
Definition capture_special_register_snapshot (v : V) : res Error VcpuSpecialRegisterSnapshot :=
  sregs ← map_err (vcpu_operation id "KVM_GET_SREGS") (ioctl_get_sregs v);
  mret (from_kvm_sregs sregs).
Definition restore_special_register_snapshot (snapshot : VcpuSpecialRegisterSnapshot) :
  prog V Error unit :=
  pmap_err (vcpu_operation id "KVM_SET_SREGS") (ioctl_set_sregs (encode_snapshot snapshot)).

Definition vcpu_msrs (indices : list MsrIndex) (v : V) : res Error (list (MsrIndex * Z)) :=
  if is_empty indices then Ok []
  else
    request ← map_err (vcpu_operation id "validate KVM_GET_MSRS request")
      (prepare_vcpu_msr_request indices);
    '(returned, entries) ← map_err (vcpu_operation id "KVM_GET_MSRS") (ioctl_get_msrs request v);
    map_err (vcpu_operation id "validate KVM_GET_MSRS response")
      (decode_vcpu_msr_response indices returned entries).
Definition capture_msrs (policy : GuestMsrAccessPolicy) (v : V) : res Error GuestMsrValueSet :=
  let indices := policy_msr_indices policy in
  if is_empty indices then
    map_err (vcpu_operation id "materialize guest MSR capture") (materialize_policy_capture policy [])
  else
    captured ← vcpu_msrs indices v;
    map_err (vcpu_operation id "materialize guest MSR capture")
      (materialize_policy_capture policy captured).
Definition capture_msr_snapshot (policy : GuestMsrAccessPolicy) (v : V) :
  res Error GuestMsrSnapshot :=
  values ← capture_msrs policy v;
  map_err (λ _, vcpu_operation id "validate full guest MSR snapshot"
    (io_invalid_data "full guest MSR snapshot")) (from_capture policy values).
Definition set_msrs (values : GuestMsrValueSet) : prog V Error unit :=
  request ← lift (map_err (vcpu_operation id "validate KVM_SET_MSRS request")
    (prepare_vcpu_msr_write_request values));
  match request with
  | None => mret tt
  | Some request =>
      processed ← pmap_err (vcpu_operation id "KVM_SET_MSRS") (ioctl_set_msrs request);
      lift (validate_vcpu_msr_write_completion id values processed)
  end.
Definition restore_msr_snapshot (snapshot : GuestMsrSnapshot) : prog V Error unit :=
  set_msrs (snap_values snapshot).

Definition capture_state_snapshot (policy : GuestMsrAccessPolicy) (v : V) :
  res Error VcpuStateSnapshot :=
  regs ← capture_register_snapshot v;
  sregs ← capture_special_register_snapshot v;
  captured ← capture_msr_snapshot policy v;
  mret {| registers := regs; special_registers := sregs; msrs := captured |}.
Definition verify_state_snapshot (snapshot : VcpuStateSnapshot) (v : V) :
  res Error VcpuStateSnapshotComparison :=
  observed ← capture_state_snapshot (snap_policy (msrs snapshot)) v;
  mret (state_compare snapshot observed).
Definition restore_state_snapshot (snapshot : VcpuStateSnapshot) : prog V Error unit :=
  restore_special_register_snapshot (special_registers snapshot);;
  restore_register_snapshot (registers snapshot);;
  restore_msr_snapshot (msrs snapshot);;
  mret tt.
Definition restore_and_verify_state_snapshot (snapshot : VcpuStateSnapshot) :
  prog V Error VcpuStateSnapshotComparison :=
  restore_state_snapshot snapshot;;
  observed ← reading (capture_state_snapshot (snap_policy (msrs snapshot)));
  mret (state_compare snapshot observed).
End vcpu.

(** * Facts about comparisons *)
Lemma push_mismatch_nil {F} (f : F) a b : push_mismatch_if_different f a b = [] ↔ a = b.
Proof. unfold push_mismatch_if_different. destruct (Z.eqb_spec a b); naive_solver. Qed.
Lemma mbind_nil {A B} (f : A → list B) l : l ≫= f = [] ↔ Forall (λ x, f x = []) l.
Proof.
  induction l as [|x l IH]; simpl; [by split; [constructor|]|].
  rewrite app_nil, Forall_cons. by rewrite IH.
Qed.
Lemma Forall_iff_ext {A} (P Q : A → Prop) l : (∀ x, P x ↔ Q x) → Forall P l ↔ Forall Q l.
Proof. intros H. split; intros Hl; (eapply Forall_impl; [exact Hl|]); intros; by apply H. Qed.
Lemma regs_exact a b : regs_is_exact_match (regs_compare a b) = true ↔ a = b.
Proof.
  unfold regs_is_exact_match, regs_compare. cbn [regs_mismatches].
  rewrite is_empty_true, mbind_nil, (Forall_iff_ext _ _ _ (λ f, push_mismatch_nil f _ _)).
  split; [|intros ->; by apply Forall_true].
  intros H. unfold REGISTER_FIELDS in H. rewrite !Forall_cons in H. simpl in H.
  destruct a, b. simpl in H. f_equal; tauto.
Qed.
Lemma segment_exact (a b : VcpuSegmentState) :
  Forall (λ f, segment_value a f = segment_value b f) SEGMENT_FIELDS ↔ a = b.
Proof.
  split; [|intros ->; by apply Forall_true].
  intros H. unfold SEGMENT_FIELDS in H. rewrite !Forall_cons in H. simpl in H.
  destruct a, b. simpl in H. f_equal; tauto.
Qed.
Lemma table_exact (a b : VcpuDescriptorTableState) :
  Forall (λ f, table_value a f = table_value b f) DESCRIPTOR_TABLE_FIELDS ↔ a = b.
Proof.
  split; [|intros ->; by apply Forall_true].
  intros H. unfold DESCRIPTOR_TABLE_FIELDS in H. rewrite !Forall_cons in H. simpl in H.
  destruct a, b. simpl in H. f_equal; tauto.
Qed.
Lemma sregs_exact a b : sregs_is_exact_match (sregs_compare a b) = true ↔ a = b.
Proof.
  unfold sregs_is_exact_match, sregs_compare. cbn [sregs_mismatches].
  rewrite is_empty_true, !app_nil, !mbind_nil.
  rewrite (Forall_iff_ext _ (λ r, segment a r = segment b r)).
  2:{ intros r. rewrite mbind_nil, <- segment_exact.
      apply Forall_iff_ext. intros f. apply push_mismatch_nil. }
  rewrite (Forall_iff_ext (λ x : VcpuDescriptorTableRegister, _) (λ r, descriptor_table a r = descriptor_table b r)).
  2:{ intros r. rewrite mbind_nil, <- table_exact.
      apply Forall_iff_ext. intros f. apply push_mismatch_nil. }
  rewrite !Forall_cons, !push_mismatch_nil.
  unfold SEGMENT_REGISTERS, DESCRIPTOR_TABLE_REGISTERS, INTERRUPT_BITMAP_WORDS.
  rewrite !Forall_cons, !push_mismatch_nil. simpl.
  split; [|intros ->; repeat split; constructor].
  destruct a as [????????????????? []], b as [????????????????? []]. simpl. intros H.
  f_equal; [..|f_equal]; tauto.
Qed.
Lemma state_exact a b :
  snapshot_wf (msrs a) → snapshot_wf (msrs b) →
  state_is_exact_match (state_compare a b) = true ↔ a = b.
Proof.
  intros Ha Hb. unfold state_is_exact_match, state_compare. simpl.
  rewrite !andb_true_iff, regs_exact, sregs_exact, msr_compare_exact by done.
  destruct a, b. simpl. split; [intros [[-> ->] ->]; done|by intros [= -> -> ->]].
Qed.

(** A snapshot only ever holds canonical segment types: restoring it asks KVM
    for exactly the values it compares with. *)
Definition segment_canonical (s : VcpuSegmentState) : Prop :=
  canonical_segment_type (segment_type s) (seg_unusable s) = segment_type s.
Definition sregs_canonical (r : VcpuSpecialRegisterSnapshot) : Prop :=
  ∀ register, segment_canonical (segment r register).
Lemma canonical_segment_type_idemp t u :
  canonical_segment_type (canonical_segment_type t u) u = canonical_segment_type t u.
Proof.
  unfold canonical_segment_type. destruct (u =? 0); [done|].
  by rewrite <- Z.land_assoc, Z.land_diag.
Qed.
Lemma from_kvm_sregs_canonical s : sregs_canonical (from_kvm_sregs s).
Proof. intros []; apply canonical_segment_type_idemp. Qed.
Lemma from_into_kvm_segment s : segment_canonical s → from_kvm_segment (into_kvm_segment s) = s.
Proof. destruct s. unfold segment_canonical, from_kvm_segment. simpl. by intros ->. Qed.
Lemma from_kvm_encode_snapshot r : sregs_canonical r → from_kvm_sregs (encode_snapshot r) = r.
Proof.
  intros H. pose proof (λ x, from_into_kvm_segment _ (H x)) as Hs.
  destruct r as [? ? ? ? ? ? ? ? [] [] ? ? ? ? ? ? ? ?].
  unfold from_kvm_sregs, encode_snapshot, from_kvm_dtable, into_kvm_dtable. simpl.
  f_equal; [exact (Hs Cs)|exact (Hs Ds)|exact (Hs Es)|exact (Hs Fs)|exact (Hs Gs)
    |exact (Hs Ss)|exact (Hs Tr)|exact (Hs Ldt)].
Qed.
Lemma from_to_kvm_regs r : from_kvm_regs (to_kvm_regs r) = r.
Proof. by destruct r. Qed.

Lemma decode_msr_entries_Ok pairs values :
  decode_msr_entries pairs = Ok values → values = pairs.*2 ∧ pairs.*1 = pairs.*2.*1.
Proof.
  revert values. induction pairs as [|[e [i d]] pairs IH]; intros values H; simpl in *.
  { by res_simplify. }
  bind_inv H. subst. destruct (IH a0 Hstep0) as [-> Heq]. simpl. split; [done|by f_equal].
Qed.
Lemma decode_msr_entries_ok es : decode_msr_entries (zip es.*1 es) = Ok es.
Proof. induction es as [|[i d] es IH]; [done|]. csimpl. by rewrite Z.eqb_refl, IH. Qed.
Lemma len_fmap {A B} (f : A → B) l : len (f <$> l) = len l.
Proof. unfold len. by rewrite length_fmap. Qed.
Lemma decode_vcpu_msr_response_ok es : decode_vcpu_msr_response es.*1 (len es) es = Ok es.
Proof.
  unfold decode_vcpu_msr_response. rewrite len_fmap, Z.eqb_refl, Z.ltb_irrefl. simpl.
  apply decode_msr_entries_ok.
Qed.
Lemma prepare_vcpu_msr_request_ok indices :
  len indices ≤ VCPU_MSR_READBACK_CAPACITY → prepare_vcpu_msr_request indices = Ok indices.
Proof.
  unfold prepare_vcpu_msr_request, VCPU_MSR_READBACK_CAPACITY, try_from. intros H.
  zcmp. simpl. unfold len. by rewrite Nat2Z.id, firstn_all.
Qed.
Lemma check_capture_order_ok es vs :
  access_index <$> es = vs.*1 → check_capture_order (zip es vs) = Ok tt.
Proof.
  revert vs. induction es as [|e es IH]; intros [|[i d] vs] H; simplify_eq/=; [done|].
  rewrite (proj2 (Z.eqb_eq _ _)) by done. by apply IH.
Qed.
Lemma check_capture_order_Ok es vs :
  length es = length vs → check_capture_order (zip es vs) = Ok tt → access_index <$> es = vs.*1.
Proof.
  revert vs. induction es as [|e es IH]; intros [|[i d] vs] Hl H; simplify_eq/=; [done|].
  bind_inv H. subst. f_equal. by apply IH.
Qed.
Lemma materialize_policy_capture_Ok policy captured values :
  materialize_policy_capture policy captured = Ok values →
  policy_msr_indices policy = captured.*1 ∧ NoDup captured.*1 ∧
  msr_values values = ((λ '(i, v), {| msr_index := i; msr_value := v |}) <$> captured).
Proof.
  unfold materialize_policy_capture. intros H. bind_inv H.
  apply from_policy_Ok_inv in H as [Hnd Hv]. split; [|done].
  apply check_capture_order_Ok; [unfold len in *; lia|done].
Qed.

Section capture.
Context {V : Type} `{!KvmVcpu V} (id : Z).

Lemma capture_msr_snapshot_Ok policy (v : V) snap :
  capture_msr_snapshot id policy v = Ok snap →
  snap_policy snap = policy ∧ snapshot_wf snap ∧ NoDup (policy_msr_indices policy) ∧
  len (policy_msr_indices policy) ≤ VCPU_MSR_READBACK_CAPACITY ∧
  from_policy policy ((λ x, (msr_index x, msr_value x)) <$> msr_values (snap_values snap)) =
    Ok (snap_values snap).
Proof.
  unfold capture_msr_snapshot. intros H. bind_inv H.
  apply from_capture_Ok in H as [-> Hwf]. unfold capture_msrs in Hstep.
  assert (∃ captured, materialize_policy_capture policy captured = Ok a ∧
    len captured ≤ VCPU_MSR_READBACK_CAPACITY) as (captured&Hm&Hlen).
  { destruct (is_empty _) eqn:He.
    - exists []. res_simplify. done.
    - bind_inv Hstep. exists a0. split; [done|]. unfold vcpu_msrs in Hstep0. rewrite He in Hstep0.
      bind_inv Hstep0. destruct a2 as [n es]. res_simplify.
      unfold prepare_vcpu_msr_request in Hstep1. bind_inv Hstep1.
      unfold decode_vcpu_msr_response in Hstep0. bind_inv Hstep0.
      apply decode_msr_entries_Ok in Hstep0 as [-> _]. unfold len in *.
      rewrite length_fmap, length_zip. lia. }
  pose proof (materialize_policy_capture_Ok _ _ _ Hm) as (Hi&Hnd&Hv).
  split_and!; [done|done|by rewrite Hi|by rewrite Hi; unfold len in *; rewrite length_fmap|].
  simpl. rewrite Hv, <- list_fmap_compose.
  replace (_ <$> captured) with captured.
  - unfold materialize_policy_capture in Hm. by bind_inv Hm.
  - rewrite <- (list_fmap_id captured) at 1. apply list_fmap_ext. by intros ? [??] ?.
Qed.
Lemma capture_state_Ok policy (v : V) snap :
  capture_state_snapshot id policy v = Ok snap →
  capture_msr_snapshot id policy v = Ok (msrs snap) ∧
  sregs_canonical (special_registers snap).
Proof.
  unfold capture_state_snapshot, capture_register_snapshot, capture_special_register_snapshot.
  intros H. bind_inv H. bind_inv Hstep0. split; [done|apply from_kvm_sregs_canonical].
Qed.
End capture.

(** * What the restore path relies on

    [apart i] holds for the MSRs that KVM stores apart from the register
    blocks (unlike EFER, which [KVM_SET_SREGS] also writes).  A get ioctl
    returns what the last set ioctl stored, for the special registers up to
    padding and the inactive type bit of unusable segments. *)
Class KvmVcpuLaws (V : Type) `{!KvmVcpu V} (apart : Z → Prop) := {
  get_regs_total (v : V) : no_panic (ioctl_get_regs v);
  get_sregs_total (v : V) : no_panic (ioctl_get_sregs v);
  set_sregs_law s (v : V) :
    runs (ioctl_set_sregs s) v
      (λ _ v', ∃ s', ioctl_get_sregs v' = Ok s' ∧ from_kvm_sregs s' = from_kvm_sregs s)
      (λ _ _, True);
  set_regs_law r (v : V) :
    runs (ioctl_set_regs r) v
      (λ _ v', ioctl_get_regs v' = Ok r ∧ ioctl_get_sregs v' = ioctl_get_sregs v)
      (λ _ _, True);
  set_msrs_law es (v : V) :
    NoDup es.*1 → Forall apart es.*1 →
    runs (ioctl_set_msrs es) v
      (λ n v', 0 ≤ n ∧ ioctl_get_regs v' = ioctl_get_regs v ∧
         ioctl_get_sregs v' = ioctl_get_sregs v ∧
         (n = len es → ioctl_get_msrs es.*1 v' = Ok (len es, es)))
      (λ _ _, True)
}.

Section restore.
Context {V : Type} `{!KvmVcpu V} {apart : Z → Prop} `{!KvmVcpuLaws V apart} (id : Z).

(** The [(index, value)] pairs of a snapshot. *)
Definition snapshot_pairs (snap : GuestMsrSnapshot) : list (Z * Z) :=
  (λ x, (msr_index x, msr_value x)) <$> msr_values (snap_values snap).
Lemma snapshot_pairs_fst snap :
  snapshot_wf snap → (snapshot_pairs snap).*1 = policy_msr_indices (snap_policy snap).
Proof.
  unfold policy_msr_indices, snapshot_pairs. intros <-. by rewrite <- list_fmap_compose.
Qed.
(** The snapshots [capture_msr_snapshot] returns. *)
Definition msrs_restorable (snap : GuestMsrSnapshot) : Prop :=
  snapshot_wf snap ∧ NoDup (policy_msr_indices (snap_policy snap)) ∧
  len (policy_msr_indices (snap_policy snap)) ≤ VCPU_MSR_READBACK_CAPACITY ∧
  from_policy (snap_policy snap) (snapshot_pairs snap) = Ok (snap_values snap) ∧
  Forall apart (policy_msr_indices (snap_policy snap)).

Lemma capture_msr_snapshot_stored snap (v : V) :
  msrs_restorable snap →
  (policy_msr_indices (snap_policy snap) = [] ∨
   ioctl_get_msrs (policy_msr_indices (snap_policy snap)) v =
     Ok (len (snapshot_pairs snap), snapshot_pairs snap)) →
  capture_msr_snapshot id (snap_policy snap) v = Ok snap.
Proof.
  intros (Hwf&Hnd&Hlen&Hfp&_) Hget. pose proof (snapshot_pairs_fst _ Hwf) as Hfst.
  assert (len (snapshot_pairs snap) = len (policy_entries (snap_policy snap))) as Hl.
  { rewrite <- (len_fmap fst), Hfst. apply len_fmap. }
  assert (materialize_policy_capture (snap_policy snap) (snapshot_pairs snap) =
    Ok (snap_values snap)) as Hm.
  { unfold materialize_policy_capture. rewrite Hl, Z.eqb_refl. simpl.
    rewrite check_capture_order_ok by done. simpl. by rewrite Hfp. }
  assert (capture_msrs id (snap_policy snap) v = Ok (snap_values snap)) as Hc.
  { unfold capture_msrs. destruct Hget as [He|Hget].
    - rewrite He. simpl. rewrite <- Hfst in He. apply fmap_nil_inv in He.
      rewrite He in Hm. by rewrite Hm.
    - unfold vcpu_msrs. destruct (is_empty _) eqn:He.
      { rewrite <- Hfst in He. apply is_empty_true, fmap_nil_inv in He.
        rewrite He in Hm. by rewrite Hm. }
      rewrite prepare_vcpu_msr_request_ok by done. simpl. rewrite Hget. simpl.
      rewrite <- Hfst, decode_vcpu_msr_response_ok. simpl. by rewrite Hm. }
  unfold capture_msr_snapshot. rewrite Hc. simpl.
  rewrite (proj2 (from_capture_Ok _ _ snap)); [done|]. by destruct snap.
Qed.

Lemma set_msrs_runs snap (v : V) :
  msrs_restorable snap →
  runs (set_msrs id (snap_values snap)) v
    (λ _ v', ioctl_get_regs v' = ioctl_get_regs v ∧ ioctl_get_sregs v' = ioctl_get_sregs v ∧
       capture_msr_snapshot id (snap_policy snap) v' = Ok snap) (λ _ _, True).
Proof.
  intros Hr. pose proof Hr as (Hwf&Hnd&Hlen&_&Hap). pose proof (snapshot_pairs_fst _ Hwf) as Hfst.
  assert (len (msr_values (snap_values snap)) = len (policy_msr_indices (snap_policy snap))) as Hl.
  { rewrite <- Hfst. unfold snapshot_pairs. by rewrite !len_fmap. }
  unfold set_msrs, prepare_vcpu_msr_write_request.
  destruct (is_empty (msr_values (snap_values snap))) eqn:He.
  - eapply runs_lift_ok; [done|]. apply runs_ret. split_and!; [done|done|].
    apply capture_msr_snapshot_stored; [done|]. left.
    apply is_empty_true in He. rewrite He in Hl. unfold len in Hl. simpl in Hl.
    apply nil_length_inv. lia.
  - unfold VCPU_MSR_READBACK_CAPACITY in Hlen. eapply runs_lift_ok.
    { unfold VCPU_MSR_WRITE_CAPACITY, try_from. zcmp. simpl. unfold len. rewrite Nat2Z.id, firstn_all2 by (by rewrite length_fmap). done. }
    cbv beta iota. apply runs_bind, runs_pmap_err. fold (snapshot_pairs snap).
    eapply runs_mono; [apply set_msrs_law; rewrite Hfst; done| |done].
    intros n v' (Hn0&Hregs&Hsregs&Hget). cbv beta.
    assert (len (snapshot_pairs snap) = len (msr_values (snap_values snap))) as Hpl.
    { apply len_fmap. }
    unfold validate_vcpu_msr_write_completion.
    destruct (Z.eqb_spec n (len (msr_values (snap_values snap)))) as [->|Hne]; simpl.
    + split_and!; [done|done|]. apply capture_msr_snapshot_stored; [done|]. right.
      rewrite <- Hfst. apply Hget. by rewrite Hpl.
    + destruct (Z.ltb_spec n (len (msr_values (snap_values snap)))); [|done].
      destruct (index_ok (E:=Error) (msr_values (snap_values snap)) n) as (x&Hx&_); [lia|].
      by rewrite Hx.
Qed.

(** Restoring a captured snapshot, whatever the vCPU did in between: either
    an ioctl fails, or the vCPU is back in the captured state. *)
Lemma restore_state_runs snap (v : V) :
  sregs_canonical (special_registers snap) → msrs_restorable (msrs snap) →
  runs (restore_state_snapshot id snap) v
    (λ _ v', capture_state_snapshot id (snap_policy (msrs snap)) v' = Ok snap) (λ _ _, True).
Proof.
  intros Hcan Hr. unfold restore_state_snapshot.
  apply runs_bind, runs_pmap_err. eapply runs_mono; [apply set_sregs_law| |done].
  intros _ v1 (s'&Hs'&Heq). cbv beta. apply runs_bind, runs_pmap_err.
  eapply runs_mono; [apply set_regs_law| |done]. intros _ v2 [Hregs Hsregs]. cbv beta.
  apply runs_bind. eapply runs_mono; [by apply set_msrs_runs| |done].
  intros _ v3 (Hregs'&Hsregs'&Hmsrs). cbv beta. apply runs_ret.
  unfold capture_state_snapshot, capture_register_snapshot, capture_special_register_snapshot.
  rewrite Hregs', Hregs, Hsregs', Hsregs, Hs'. simpl. rewrite Hmsrs. simpl.
  rewrite Heq, from_to_kvm_regs, from_kvm_encode_snapshot by done. by destruct snap.
Qed.
End restore.

(** * A vCPU that stores what it is given

    An instance of the interface whose ioctls never fail; it clears the
    inactive type bit of unusable segments on [KVM_SET_SREGS], as hosts do. *)
Record stored_vcpu := {
  stored_regs : sys.KvmRegs; stored_sregs : sys.KvmSregs; stored_msrs : gmap Z Z
}.
Definition stored_msr (v : stored_vcpu) (i : Z) : Z := default 0 (stored_msrs v !! i).
#[global] Instance stored_kvm : KvmVcpu stored_vcpu := {|
  ioctl_get_regs v := Ok (stored_regs v);
  ioctl_set_regs r v := (Ok tt, {| stored_regs := r; stored_sregs := stored_sregs v;
    stored_msrs := stored_msrs v |});
  ioctl_get_sregs v := Ok (stored_sregs v);
  ioctl_set_sregs s v := (Ok tt, {| stored_regs := stored_regs v;
    stored_sregs := encode_snapshot (from_kvm_sregs s); stored_msrs := stored_msrs v |});
  ioctl_get_msrs indices v := Ok (len indices, (λ i, (i, stored_msr v i)) <$> indices);
  ioctl_set_msrs es v := (Ok (len es), {| stored_regs := stored_regs v;
    stored_sregs := stored_sregs v; stored_msrs := list_to_map es ∪ stored_msrs v |})
|}.
#[global] Instance stored_kvm_laws : KvmVcpuLaws stored_vcpu (λ _, True).
Proof.
  split; try done.
  - intros s v. unfold runs. simpl. eexists. split; [done|].
    apply from_kvm_encode_snapshot, from_kvm_sregs_canonical.
  - intros es v Hnd _. unfold runs. simpl. split_and!; [apply len_nonneg|done|done|].
    intros _. rewrite len_fmap. do 2 f_equal. rewrite <- list_fmap_compose.
    etransitivity; [|apply list_fmap_id]. apply list_fmap_ext. intros k [i d] Hk. simpl. f_equal.
    unfold stored_msr. simpl.
    rewrite (lookup_union_Some_l _ _ _ d); [done|].
    by apply elem_of_list_to_map, list_elem_of_lookup_2 with k.
Qed.

(** Restoring and verifying a captured snapshot. *)
Lemma restore_and_verify_runs {V} `{!KvmVcpu V} (apart : Z → Prop) `{!KvmVcpuLaws V apart}
    (id : Z) policy (v0 v : V) snap :
  capture_state_snapshot id policy v0 = Ok snap →
  Forall apart (policy_msr_indices policy) →
  runs (restore_and_verify_state_snapshot id snap) v
    (λ c v', state_is_exact_match c = true ∧ capture_state_snapshot id policy v' = Ok snap)
    (λ _ _, True).
Proof.
  intros [(Hp&Hwf&Hnd&Hlen&Hfp)%capture_msr_snapshot_Ok Hcan]%capture_state_Ok Hap. subst policy.
  unfold restore_and_verify_state_snapshot. apply runs_bind.
  eapply runs_mono; [apply (restore_state_runs (apart:=apart))|intros ? v'; cbv beta|done].
  { done. }
  { by repeat split. }
  intros Hcap. apply runs_bind. apply runs_reading; rewrite Hcap; [done| |done].
  intros ? [= <-]. apply runs_ret. split; [by apply state_exact|done].
Qed.

(** The verdict of a comparison is exact. *)
Lemma state_verdict {V} `{!KvmVcpu V} (id : Z) policy (v0 v : V) snap c :
  capture_state_snapshot id policy v0 = Ok snap →
  verify_state_snapshot id snap v = Ok c →
  state_is_exact_match c = true ↔ capture_state_snapshot id policy v = Ok snap.
Proof.
  intros [Hm0 _]%capture_state_Ok Hv.
  unfold verify_state_snapshot in Hv. bind_inv Hv.
  apply capture_msr_snapshot_Ok in Hm0 as (Hp&Hwf&_). rewrite Hp in Hstep.
  pose proof (capture_state_Ok _ _ _ _ Hstep) as [(Hp'&Hwf'&_)%capture_msr_snapshot_Ok _].
  rewrite state_exact, Hstep by done. split; [by intros ->|by intros [= ->]].
Qed.

(** * Properties *)

(** The verdict of [verify_state_snapshot] is exact: for any snapshot a vCPU
    produced, the comparison with the vCPU's present state reports an exact match
    precisely when capturing that state again would give the same snapshot;
    nothing is assumed of KVM. *)
Theorem state_verify_spec {V} `{!KvmVcpu V} (id : Z) policy (v0 v : V) snap c :
  capture_state_snapshot id policy v0 = Ok snap →
  verify_state_snapshot id snap v = Ok c →
  state_is_exact_match c = true ↔ capture_state_snapshot id policy v = Ok snap.
Proof. exact (state_verdict id policy v0 v snap c). Qed.
Definition zero_regs : sys.KvmRegs := to_kvm_regs {|
  rax := 0; rbx := 0; rcx := 0; rdx := 0; rsi := 0; rdi := 0; rsp := 0; rbp := 0; r8 := 0; r9 := 0;
  r10 := 0; r11 := 0; r12 := 0; r13 := 0; r14 := 0; r15 := 0; rip := 0; rflags := 2 |}.
Definition zero_segment : VcpuSegmentState := {|
  seg_base := 0; seg_limit := 0; seg_selector := 0; segment_type := 0; seg_present := 0;
  seg_dpl := 0; seg_db := 0; seg_s := 0; seg_l := 0; seg_g := 0; seg_avl := 0; seg_unusable := 0 |}.
Definition zero_sregs : sys.KvmSregs := encode_snapshot {|
  cs := zero_segment; ds := zero_segment; es := zero_segment; fs := zero_segment;
  gs := zero_segment; ss := zero_segment; tr := zero_segment; ldt := zero_segment;
  gdt := {| table_base := 0; table_limit := 0 |}; idt := {| table_base := 0; table_limit := 0 |};
  cr0 := 0; cr2 := 0; cr3 := 0; cr4 := 0; cr8 := 0; efer := 0; apic_base := 0;
  interrupt_bitmap := {| word0 := 0; word1 := 0; word2 := 0; word3 := 0 |} |}.
Definition sample_vcpu (tsc : Z) : stored_vcpu :=
  {| stored_regs := zero_regs; stored_sregs := zero_sregs; stored_msrs := {[0x10 := tsc]} |}.
Definition sample_policy : GuestMsrAccessPolicy :=
  {| policy_entries := [{| access_index := 0x10; access_authority := ReadWrite |}] |}.
Lemma state_verify_spec_witness :
  ∃ snap c, capture_state_snapshot 0 sample_policy (sample_vcpu 7) = Ok snap ∧
    verify_state_snapshot 0 snap (sample_vcpu 8) = Ok c ∧
    (state_is_exact_match c = true ↔
     capture_state_snapshot 0 sample_policy (sample_vcpu 8) = Ok snap).
Proof.
  eexists _, _. split; [reflexivity|]. split; [reflexivity|].
  eapply (state_verify_spec 0 sample_policy (sample_vcpu 7)); reflexivity.
Defined.

(** [restore_and_verify_state_snapshot] brings a vCPU back.  On a KVM that
    keeps what it is given, for a snapshot captured from any vCPU state and
    restored into any other, either an ioctl reports an error or the comparison is
    an exact match and the vCPU again captures as that snapshot; no step panics. *)
Theorem state_restore_spec {V} `{!KvmVcpu V} (apart : Z → Prop) `{!KvmVcpuLaws V apart}
    (id : Z) policy (v0 v : V) snap :
  capture_state_snapshot id policy v0 = Ok snap →
  Forall apart (policy_msr_indices policy) →
  runs (restore_and_verify_state_snapshot id snap) v
    (λ c v', state_is_exact_match c = true ∧ capture_state_snapshot id policy v' = Ok snap)
    (λ _ _, True).
Proof. exact (restore_and_verify_runs apart id policy v0 v snap). Qed.
Lemma state_restore_spec_witness :
  ∃ snap, capture_state_snapshot 0 sample_policy (sample_vcpu 7) = Ok snap ∧
    runs (restore_and_verify_state_snapshot 0 snap) (sample_vcpu 8)
      (λ c v', state_is_exact_match c = true ∧
         capture_state_snapshot 0 sample_policy v' = Ok snap) (λ _ _, True).
Proof.
  eexists. split; [reflexivity|].
  apply (state_restore_spec (λ _, True) 0 sample_policy (sample_vcpu 7)); [reflexivity|].
  repeat constructor.
Defined.
