(* ===== verification/SchemaV1.v ===== *)
(** Version 1 of the portable checkpoint format: the byte cursor, the codecs of
    the register blocks, pages and MSR records, the page/vCPU checkpoint
    ([src/src/state_snapshot/page_set/schema_v1/] [types.rs], [codec.rs],
    [encoding.rs], [cursor_tests.rs]) and the stand-alone vCPU state
    ([vcpu_state.rs]). *)

From stdpp Require Import sorting.
From S2P Require Import Prelude LongMode Msr VcpuState.

Definition BOUNDED_CHECKPOINT_PAGE_SET_LIMIT : Z := 8.
Definition VERSIONED_PAGE_VCPU_CHECKPOINT_MAGIC : list Z := [77; 72; 86; 67; 75; 80; 84; 0].
Definition VERSIONED_PAGE_VCPU_CHECKPOINT_VERSION : Z := 1.
Definition VERSIONED_PAGE_VCPU_CHECKPOINT_ARCH_X86_64 : Z := 1.
Definition VERSIONED_PAGE_VCPU_CHECKPOINT_MSR_LIMIT : Z := 256.
Definition HEADER_LEN : Z := 40.
Definition REGISTER_BLOCK_LEN : Z := 18 * 8.
Definition SEGMENT_BLOCK_LEN : Z := 24.
Definition DTABLE_BLOCK_LEN : Z := 16.
Definition SPECIAL_REGISTER_BLOCK_LEN : Z := 8 * SEGMENT_BLOCK_LEN + 2 * DTABLE_BLOCK_LEN + 11 * 8.
Definition PAGE_RECORD_LEN : Z := 8 + LONG_MODE_PAGE_SIZE.
Definition MSR_RECORD_LEN : Z := 16.

(** The three variants that wrap a rendered MSR error keep the error itself. *)
Inductive SchemaError :=
  | InvalidMagic
  | UnsupportedVersion (version : Z)
  | UnsupportedArchitecture (architecture : Z)
  | InvalidHeaderLength (length : Z)
  | InvalidTotalLength (declared actual : Z)
  | InvalidPageSize (size : Z)
  | InvalidPageCount (count : Z)
  | InvalidMsrCount (count : Z)
  | NonZeroFlags (flags : Z)
  | NonZeroReserved (field : string) (value : Z)
  | LengthOverflow
  | Truncated (offset needed remaining : Z)
  | UnalignedPage (address : Z)
  | PageAddressOverflow (address : Z)
  | NonCanonicalPageOrder (previous current : Z)
  | InvalidPageLength (address length : Z)
  | InvalidSegmentField (segment : Z) (field : string) (value : Z)
  | NonCanonicalMsrOrder (previous current : Z)
  | HostMsrIncompatible (detail : GuestMsrPolicyError)
  | MsrValueSet (detail : GuestMsrValueSetError)
  | MsrSnapshot (detail : GuestMsrSnapshotError).

(** * The cursor *)
Record Cursor := { cur_bytes : list Z; cur_offset : Z }.
Definition cursor_new (bytes : list Z) : Cursor := {| cur_bytes := bytes; cur_offset := 0 |}.
(** [saturating_sub]. *)
Definition remaining (c : Cursor) : Z := 0 `max` (len (cur_bytes c) - cur_offset c).
Definition cursor_take (length : Z) : prog Cursor SchemaError (list Z) :=
  c ← get;
  lift (err_if (remaining c <? length) (Truncated (cur_offset c) length (remaining c)));;
  offset ← lift (uadd 64 (cur_offset c) length);
  put {| cur_bytes := cur_bytes c; cur_offset := offset |};;
  lift (slice (cur_bytes c) (cur_offset c) offset).
(** [cursor.take(n)?.try_into().expect(..)] followed by [from_le_bytes]. *)
Definition cursor_uint (n : nat) : prog Cursor SchemaError Z :=
  bytes ← cursor_take (Z.of_nat n);
  array ← lift (expect (if len bytes =? Z.of_nat n then Some bytes else None));
  mret (from_le_bytes array).
Definition cursor_u8 : prog Cursor SchemaError Z :=
  bytes ← cursor_take 1; lift (index bytes 0).
Definition cursor_u16 := cursor_uint 2.
Definition cursor_u32 := cursor_uint 4.
Definition cursor_u64 := cursor_uint 8.

Definition push_u16 (value : Z) : list Z := to_le_bytes 2 value.
Definition push_u32 (value : Z) : list Z := to_le_bytes 4 value.
Definition push_u64 (value : Z) : list Z := to_le_bytes 8 value.

(** * Register blocks *)
Definition encode_registers (r : VcpuRegisterSnapshot) : list Z :=
  [rax r; rbx r; rcx r; rdx r; rsi r; rdi r; rsp r; rbp r; r8 r; r9 r; r10 r; r11 r; r12 r;
   r13 r; r14 r; r15 r; rip r; rflags r] ≫= push_u64.
Definition decode_registers : prog Cursor SchemaError sys.KvmRegs :=
  rax ← cursor_u64; rbx ← cursor_u64; rcx ← cursor_u64; rdx ← cursor_u64;
  rsi ← cursor_u64; rdi ← cursor_u64; rsp ← cursor_u64; rbp ← cursor_u64;
  r8 ← cursor_u64; r9 ← cursor_u64; r10 ← cursor_u64; r11 ← cursor_u64;
  r12 ← cursor_u64; r13 ← cursor_u64; r14 ← cursor_u64; r15 ← cursor_u64;
  rip ← cursor_u64; rflags ← cursor_u64;
  mret {| sys.rax := rax; sys.rbx := rbx; sys.rcx := rcx; sys.rdx := rdx; sys.rsi := rsi;
    sys.rdi := rdi; sys.rsp := rsp; sys.rbp := rbp; sys.r8 := r8; sys.r9 := r9; sys.r10 := r10;
    sys.r11 := r11; sys.r12 := r12; sys.r13 := r13; sys.r14 := r14; sys.r15 := r15;
    sys.rip := rip; sys.rflags := rflags |}.

Definition encode_segment (s : VcpuSegmentState) : list Z :=
  push_u64 (seg_base s) ++ push_u32 (seg_limit s) ++ push_u16 (seg_selector s) ++
  [segment_type s; seg_present s; seg_dpl s; seg_db s; seg_s s; seg_l s; seg_g s; seg_avl s;
   seg_unusable s; 0].
(** [for (field, value) in [..] { if value > 1 { return Err(..) } }]. *)
Fixpoint check_flag_fields (segment : Z) (fields : list (string * Z)) : res SchemaError unit :=
  match fields with
  | [] => Ok tt
  | (field, value) :: rest =>
      err_if (1 <? value) (InvalidSegmentField segment field value);;
      check_flag_fields segment rest
  end.
Definition decode_segment (segment : Z) : prog Cursor SchemaError sys.KvmSegment :=
  base ← cursor_u64; limit ← cursor_u32; selector ← cursor_u16; type_ ← cursor_u8;
  present ← cursor_u8; dpl ← cursor_u8; db ← cursor_u8; s ← cursor_u8; l ← cursor_u8;
  g ← cursor_u8; avl ← cursor_u8; unusable ← cursor_u8; reserved ← cursor_u8;
  lift (err_if (0x0f <? type_) (InvalidSegmentField segment "type" type_));;
  lift (err_if (3 <? dpl) (InvalidSegmentField segment "dpl" dpl));;
  lift (check_flag_fields segment [("present"%string, present); ("db"%string, db);
    ("s"%string, s); ("l"%string, l); ("g"%string, g); ("avl"%string, avl);
    ("unusable"%string, unusable)]);;
  lift (err_if (negb (reserved =? 0)) (NonZeroReserved "segment.reserved" reserved));;
  mret {| sys.base := base; sys.limit := limit; sys.selector := selector; sys.type_ := type_;
    sys.present := present; sys.dpl := dpl; sys.db := db; sys.s := s; sys.l := l; sys.g := g;
    sys.avl := avl; sys.unusable := unusable; sys.padding := 0 |}.

Definition encode_dtable (t : VcpuDescriptorTableState) : list Z :=
  push_u64 (table_base t) ++ push_u16 (table_limit t) ++ replicate 6 0.
(** The reserved bytes are reported as a little-endian value. *)
Definition decode_dtable (reserved_field : string) : prog Cursor SchemaError sys.KvmDtable :=
  base ← cursor_u64; limit ← cursor_u16; reserved ← cursor_take 6;
  lift (err_if (existsb (λ byte, negb (byte =? 0)) reserved)
    (NonZeroReserved reserved_field
      (foldl (λ acc '(index, byte), Z.lor acc (Z.shiftl byte (8 * index))) 0
        (zip (Z.of_nat <$> seq 0 (length reserved)) reserved))));;
  mret {| sys.dt_base := base; sys.dt_limit := limit; sys.dt_padding := [0; 0; 0] |}.

Definition encode_special_registers (r : VcpuSpecialRegisterSnapshot) : list Z :=
  ([cs r; ds r; es r; fs r; gs r; ss r; tr r; ldt r] ≫= encode_segment) ++
  encode_dtable (gdt r) ++ encode_dtable (idt r) ++
  ([cr0 r; cr2 r; cr3 r; cr4 r; cr8 r; efer r; apic_base r; word0 (interrupt_bitmap r);
    word1 (interrupt_bitmap r); word2 (interrupt_bitmap r); word3 (interrupt_bitmap r)]
     ≫= push_u64).
Definition decode_special_registers : prog Cursor SchemaError sys.KvmSregs :=
  cs ← decode_segment 0; ds ← decode_segment 1; es ← decode_segment 2; fs ← decode_segment 3;
  gs ← decode_segment 4; ss ← decode_segment 5; tr ← decode_segment 6; ldt ← decode_segment 7;
  gdt ← decode_dtable "gdt.reserved"; idt ← decode_dtable "idt.reserved";
  cr0 ← cursor_u64; cr2 ← cursor_u64; cr3 ← cursor_u64; cr4 ← cursor_u64; cr8 ← cursor_u64;
  efer ← cursor_u64; apic_base ← cursor_u64;
  w0 ← cursor_u64; w1 ← cursor_u64; w2 ← cursor_u64; w3 ← cursor_u64;
  mret {| sys.cs := cs; sys.ds := ds; sys.es := es; sys.fs := fs; sys.gs := gs; sys.ss := ss;
    sys.tr := tr; sys.ldt := ldt; sys.gdt := gdt; sys.idt := idt; sys.cr0 := cr0; sys.cr2 := cr2;
    sys.cr3 := cr3; sys.cr4 := cr4; sys.cr8 := cr8; sys.efer := efer; sys.apic_base := apic_base;
    sys.interrupt_bitmap := {| word0 := w0; word1 := w1; word2 := w2; word3 := w3 |} |}.

(** * Pages and MSR records *)
Record BoundedCheckpointPage := { page_address : Z; page_bytes : list Z }.
Record VersionedPageVcpuCheckpointV1 := {
  ck_pages : list BoundedCheckpointPage;
  ck_registers : VcpuRegisterSnapshot;
  ck_special_registers : VcpuSpecialRegisterSnapshot;
  ck_msrs : list (MsrIndex * Z)
}.

Definition encoded_length (page_count msr_count : Z) : res SchemaError Z :=
  pages ← ok_or (checked_mul 64 PAGE_RECORD_LEN page_count) LengthOverflow;
  msrs ← ok_or (checked_mul 64 MSR_RECORD_LEN msr_count) LengthOverflow;
  ok_or (a ← checked_add 64 HEADER_LEN pages;
         b ← checked_add 64 a REGISTER_BLOCK_LEN;
         c ← checked_add 64 b SPECIAL_REGISTER_BLOCK_LEN;
         checked_add 64 c msrs) LengthOverflow.

Definition validate_page_address (address : Z) : res SchemaError unit :=
  r ← urem address LONG_MODE_PAGE_SIZE;
  err_if (negb (r =? 0)) (UnalignedPage address);;
  ok_or (checked_add 64 address LONG_MODE_PAGE_SIZE) (PageAddressOverflow address);;
  mret tt.
(** [if let Some(previous) = previous { if address <= previous { .. } }]. *)
Definition check_page_order (previous : option Z) (address : Z) : res SchemaError unit :=
  match previous with
  | Some p => err_if (address <=? p) (NonCanonicalPageOrder p address)
  | None => Ok tt
  end.
Fixpoint validate_pages_loop (previous : option Z) (pages : list BoundedCheckpointPage) :
  res SchemaError unit :=
  match pages with
  | [] => Ok tt
  | page :: rest =>
      let address := page_address page in
      validate_page_address address;;
      err_if (negb (len (page_bytes page) =? LONG_MODE_PAGE_SIZE))
        (InvalidPageLength address (len (page_bytes page)));;
      check_page_order previous address;;
      validate_pages_loop (Some address) rest
  end.
(** [u16::try_from(n).unwrap_or(u16::MAX)]. *)
Definition count_u16 (n : Z) : Z := default U16_MAX (try_from 16 n).
Definition validate_pages (pages : list BoundedCheckpointPage) : res SchemaError unit :=
  err_if ((len pages =? 0) || (BOUNDED_CHECKPOINT_PAGE_SET_LIMIT <? len pages))
    (InvalidPageCount (count_u16 (len pages)));;
  validate_pages_loop None pages.

Definition check_msr_order (previous : option Z) (index : Z) : res SchemaError unit :=
  match previous with
  | Some p => err_if (index <=? p) (NonCanonicalMsrOrder p index)
  | None => Ok tt
  end.
Fixpoint validate_msr_order_loop (previous : option Z) (msrs : list (MsrIndex * Z)) :
  res SchemaError unit :=
  match msrs with
  | [] => Ok tt
  | (current, _) :: rest =>
      check_msr_order previous current;; validate_msr_order_loop (Some current) rest
  end.
Definition validate_msr_order (msrs : list (MsrIndex * Z)) : res SchemaError unit :=
  validate_msr_order_loop None msrs.
(** [sort_unstable_by_key]; equal keys are refused by [validate_msr_order]
    whatever their order. *)
Definition index_le (a b : MsrIndex * Z) : Prop := a.1 ≤ b.1.
#[global] Instance index_le_dec a b : Decision (index_le a b).
Proof. unfold index_le. solve_decision. Defined.
Definition sort_by_index (msrs : list (MsrIndex * Z)) : list (MsrIndex * Z) :=
  merge_sort index_le msrs.

Definition encode_page (page : BoundedCheckpointPage) : list Z :=
  push_u64 (page_address page) ++ page_bytes page.
Definition encode_msr (msr : MsrIndex * Z) : list Z :=
  push_u32 msr.1 ++ push_u32 0 ++ push_u64 msr.2.
Fixpoint decode_pages (count : nat) (previous : option Z) :
  prog Cursor SchemaError (list BoundedCheckpointPage) :=
  match count with
  | O => mret []
  | S count =>
      address ← cursor_u64;
      lift (validate_page_address address);;
      lift (check_page_order previous address);;
      bytes ← cursor_take LONG_MODE_PAGE_SIZE;
      pages ← decode_pages count (Some address);
      mret ({| page_address := address; page_bytes := bytes |} :: pages)
  end.
Fixpoint decode_msrs (reserved_field : string) (count : nat) (previous : option Z) :
  prog Cursor SchemaError (list (MsrIndex * Z)) :=
  match count with
  | O => mret []
  | S count =>
      index ← cursor_u32;
      reserved ← cursor_u32;
      lift (err_if (negb (reserved =? 0)) (NonZeroReserved reserved_field reserved));;
      lift (check_msr_order previous index);;
      value ← cursor_u64;
      msrs ← decode_msrs reserved_field count (Some index);
      mret ((index, value) :: msrs)
  end.

(** * The page/vCPU checkpoint *)
Definition snapshot_values (snap : GuestMsrSnapshot) : list (MsrIndex * Z) :=
  (λ v, (msr_index v, msr_value v)) <$> msr_values (snap_values snap).
Record BoundedVcpuPageSetCheckpoint := {
  set_pages : list BoundedCheckpointPage; set_vcpu : VcpuStateSnapshot
}.
Definition from_checkpoint (checkpoint : BoundedVcpuPageSetCheckpoint) :
  res SchemaError VersionedPageVcpuCheckpointV1 :=
  validate_pages (set_pages checkpoint);;
  let values := snapshot_values (msrs (set_vcpu checkpoint)) in
  err_if (VERSIONED_PAGE_VCPU_CHECKPOINT_MSR_LIMIT <? len values)
    (InvalidMsrCount (count_u16 (len values)));;
  let sorted := sort_by_index values in
  validate_msr_order sorted;;
  mret {| ck_pages := set_pages checkpoint;
          ck_registers := registers (set_vcpu checkpoint);
          ck_special_registers := special_registers (set_vcpu checkpoint);
          ck_msrs := sorted |}.

Definition encode_header (page_count msr_count total_len : Z) : list Z :=
  VERSIONED_PAGE_VCPU_CHECKPOINT_MAGIC ++
  push_u16 VERSIONED_PAGE_VCPU_CHECKPOINT_VERSION ++
  push_u16 VERSIONED_PAGE_VCPU_CHECKPOINT_ARCH_X86_64 ++
  push_u32 HEADER_LEN ++ push_u64 total_len ++ push_u32 LONG_MODE_PAGE_SIZE ++
  push_u16 page_count ++ push_u16 msr_count ++ push_u32 0 ++ push_u32 0.
Definition encode (self : VersionedPageVcpuCheckpointV1) : res SchemaError (list Z) :=
  validate_pages (ck_pages self);;
  validate_msr_order (ck_msrs self);;
  err_if (VERSIONED_PAGE_VCPU_CHECKPOINT_MSR_LIMIT <? len (ck_msrs self))
    (InvalidMsrCount (count_u16 (len (ck_msrs self))));;
  total_len ← encoded_length (len (ck_pages self)) (len (ck_msrs self));
  page_count ← expect (try_from 16 (len (ck_pages self)));
  msr_count ← expect (try_from 16 (len (ck_msrs self)));
  let bytes := encode_header page_count msr_count total_len ++
    (ck_pages self ≫= encode_page) ++ encode_registers (ck_registers self) ++
    encode_special_registers (ck_special_registers self) ++ (ck_msrs self ≫= encode_msr) in
  debug_assert (len bytes =? total_len);;
  mret bytes.

(** The header up to the two counts it announces. *)
Definition decode_header (bytes : list Z) : prog Cursor SchemaError (Z * Z * Z) :=
  magic ← cursor_take 8;
  lift (err_if (bool_decide (magic ≠ VERSIONED_PAGE_VCPU_CHECKPOINT_MAGIC)) InvalidMagic);;
  version ← cursor_u16;
  lift (err_if (negb (version =? VERSIONED_PAGE_VCPU_CHECKPOINT_VERSION))
    (UnsupportedVersion version));;
  architecture ← cursor_u16;
  lift (err_if (negb (architecture =? VERSIONED_PAGE_VCPU_CHECKPOINT_ARCH_X86_64))
    (UnsupportedArchitecture architecture));;
  header_len ← cursor_u32;
  lift (err_if (negb (header_len =? HEADER_LEN)) (InvalidHeaderLength header_len));;
  declared_total ← cursor_u64;
  lift (err_if (negb (declared_total =? len bytes)) (InvalidTotalLength declared_total (len bytes)));;
  page_size ← cursor_u32;
  lift (err_if (negb (page_size =? LONG_MODE_PAGE_SIZE)) (InvalidPageSize page_size));;
  page_count ← cursor_u16;
  lift (err_if ((page_count =? 0) || (BOUNDED_CHECKPOINT_PAGE_SET_LIMIT <? page_count))
    (InvalidPageCount page_count));;
  msr_count ← cursor_u16;
  lift (err_if (VERSIONED_PAGE_VCPU_CHECKPOINT_MSR_LIMIT <? msr_count) (InvalidMsrCount msr_count));;
  flags ← cursor_u32;
  lift (err_if (negb (flags =? 0)) (NonZeroFlags flags));;
  reserved ← cursor_u32;
  lift (err_if (negb (reserved =? 0)) (NonZeroReserved "header.reserved" reserved));;
  mret (declared_total, page_count, msr_count).
Definition decode_cursor (bytes : list Z) : prog Cursor SchemaError VersionedPageVcpuCheckpointV1 :=
  '(declared_total, page_count, msr_count) ← decode_header bytes;
  expected_len ← lift (encoded_length page_count msr_count);
  lift (err_if (negb (expected_len =? len bytes)) (InvalidTotalLength declared_total expected_len));;
  pages ← decode_pages (Z.to_nat page_count) None;
  regs ← decode_registers;
  sregs ← decode_special_registers;
  msrs ← decode_msrs "msr.reserved" (Z.to_nat msr_count) None;
  c ← get;
  lift (err_if (negb (remaining c =? 0)) (InvalidTotalLength declared_total (cur_offset c)));;
  mret {| ck_pages := pages; ck_registers := from_kvm_regs regs;
          ck_special_registers := from_kvm_sregs sregs; ck_msrs := msrs |}.
Definition decode (bytes : list Z) : res SchemaError VersionedPageVcpuCheckpointV1 :=
  (decode_cursor bytes (cursor_new bytes)).1.

(** The MSR part of [materialize], shared with the vCPU-state format. *)
Definition materialize_msrs (host : HostMsrIndexList) (values : list (MsrIndex * Z)) :
  res SchemaError GuestMsrSnapshot :=
  policy ← map_err HostMsrIncompatible (from_host host values.*1);
  value_set ← map_err MsrValueSet (from_policy policy values);
  map_err MsrSnapshot (from_capture policy value_set).
Definition materialize_checkpoint (host : HostMsrIndexList) (self : VersionedPageVcpuCheckpointV1) :
  res SchemaError BoundedVcpuPageSetCheckpoint :=
  validate_pages (ck_pages self);;
  validate_msr_order (ck_msrs self);;
  snapshot ← materialize_msrs host (ck_msrs self);
  mret {| set_pages := ck_pages self;
          set_vcpu := {| registers := ck_registers self;
                         special_registers := ck_special_registers self;
                         msrs := snapshot |} |}.

(** * Codec laws

    [reads dec enc valid]: the decoder [dec] and the encoder [enc] agree.  On
    success [dec] has consumed exactly [enc a] for a valid [a] and moved on in
    the same buffer; and where the unread bytes start with [enc a] for a valid
    [a], [dec] returns [a].  It never panics. *)
Definition cursor_wf (c : Cursor) : Prop :=
  0 ≤ cur_offset c ≤ len (cur_bytes c) ∧ usize (len (cur_bytes c)) ∧ bytes_ok (cur_bytes c).
Definition rest (c : Cursor) : list Z := drop (Z.to_nat (cur_offset c)) (cur_bytes c).
Definition follows (c c' : Cursor) : Prop := cursor_wf c' ∧ cur_bytes c' = cur_bytes c.
Definition yields {E A} (m : prog Cursor E A) (c : Cursor) (a : A) (r : list Z) : Prop :=
  ∃ c', m c = (Ok a, c') ∧ follows c c' ∧ rest c' = r.
Definition reads {E A} (dec : prog Cursor E A) (enc : A → list Z) (valid : A → Prop) : Prop :=
  (∀ c, cursor_wf c →
    runs dec c (λ a c', follows c c' ∧ valid a ∧ rest c = enc a ++ rest c') (λ _ _, True)) ∧
  (∀ c a r, cursor_wf c → valid a → rest c = enc a ++ r → yields dec c a r).

Lemma rest_len c : cursor_wf c → len (rest c) = len (cur_bytes c) - cur_offset c.
Proof. intros (?&?&?). unfold rest. autorewrite with bytes. lia. Qed.
Lemma remaining_rest c : cursor_wf c → remaining c = len (rest c).
Proof. intros H. rewrite (rest_len _ H). destruct H as (?&?&?). unfold remaining. lia. Qed.
Lemma follows_trans c c' c'' : follows c c' → follows c' c'' → follows c c''.
Proof. intros [??] [??]. split; [done|congruence]. Qed.

Lemma reads_sound {E A B} (d : prog Cursor E A) enc valid (f : A → prog Cursor E B) c Q :
  reads d enc valid → cursor_wf c →
  (∀ a c', cursor_wf c' → follows c c' → valid a → rest c = enc a ++ rest c' →
     runs (f a) c' Q (λ _ _, True)) →
  runs (d ≫= f) c Q (λ _ _, True).
Proof.
  intros [Hs _] Hwf Hf. apply runs_bind. eapply runs_mono; [by apply Hs| |done].
  intros a c' (Hc&Hv&Hr). apply Hf; [apply Hc|done..].
Qed.
Lemma reads_complete {E A B} (d : prog Cursor E A) enc valid a
    (f : A → prog Cursor E B) c b r r' :
  reads d enc valid → cursor_wf c → rest c = enc a ++ r → valid a →
  (∀ c', cursor_wf c' → follows c c' → rest c' = r → yields (f a) c' b r') →
  yields (d ≫= f) c b r'.
Proof.
  intros [_ Hc] Hwf Hr Hv Hf. destruct (Hc c a r Hwf Hv Hr) as (c'&Hd&Hfo&Hr').
  destruct (Hf c') as (c''&Hf''&Hfo'&Hr''); [apply Hfo|done|done|].
  exists c''. split_and!; [by erewrite prog_bind_step|by eapply follows_trans|done].
Qed.
Lemma guard_sound {E B} b (e : E) (f : unit → prog Cursor E B) c Q :
  (b = false → runs (f tt) c Q (λ _ _, True)) → runs (lift (err_if b e) ≫= f) c Q (λ _ _, True).
Proof. intros H. apply runs_bind. destruct b; [done|]. by apply H. Qed.
Lemma guard_complete {E B} b (e : E) (f : unit → prog Cursor E B) c a r :
  b = false → yields (f tt) c a r → yields (lift (err_if b e) ≫= f) c a r.
Proof. by intros ->. Qed.
Lemma lift_sound {E A B} (m : res E A) (f : A → prog Cursor E B) c Q :
  no_panic m → (∀ a, m = Ok a → runs (f a) c Q (λ _ _, True)) →
  runs (lift m ≫= f) c Q (λ _ _, True).
Proof. intros Hm H. apply runs_bind. destruct m; [by apply H|done|by destruct Hm]. Qed.
Lemma lift_complete {E A B} (m : res E A) x (f : A → prog Cursor E B) c a r :
  m = Ok x → yields (f x) c a r → yields (lift m ≫= f) c a r.
Proof. by intros ->. Qed.
Lemma ret_complete {E A} c (a : A) r : cursor_wf c → rest c = r → yields (E:=E) (mret a) c a r.
Proof. intros. by exists c. Qed.
(** The [From] conversion of an error does not change what is read. *)
Lemma reads_pmap_err {E F A} (g : E → F) (d : prog Cursor E A) enc valid :
  reads d enc valid → reads (pmap_err g d) enc valid.
Proof.
  intros [Hs Hc]. split.
  - intros c Hwf. apply runs_pmap_err. eapply runs_mono; [by apply Hs|done|done].
  - intros c a r Hwf Hv Hr. destruct (Hc c a r Hwf Hv Hr) as (c'&Hd&Hf&Hr').
    exists c'. split_and!; [|done|done]. unfold pmap_err. by rewrite Hd.
Qed.

Lemma cursor_take_reads n :
  0 ≤ n → reads (cursor_take n) id (λ bs, len bs = n ∧ bytes_ok bs).
Proof.
  intros Hn. split.
  - intros c Hwf. pose proof Hwf as (Ho&Hu&Hb). unfold cursor_take.
    apply runs_bind, runs_get. apply guard_sound. intros Hr. rewrite remaining_rest in Hr by done.
    rewrite (rest_len _ Hwf) in Hr. res_simplify.
    eapply runs_lift_ok; [apply uadd_ok; ulia|].
    apply runs_bind. unfold runs, put. rewrite (slice_ok) by lia.
    set (c' := {| cur_bytes := cur_bytes c; cur_offset := cur_offset c + n |}).
    assert (cursor_wf c') by (unfold cursor_wf; simpl; split_and!; [lia|lia|done..]).
    replace (cur_offset c + n - cur_offset c) with n by lia.
    split_and!; [by split| |eauto with bytes|].
    + autorewrite with bytes. lia.
    + unfold rest, id. simpl. replace (Z.to_nat (cur_offset c + n)) with
        (Z.to_nat (cur_offset c) + Z.to_nat n)%nat by lia.
      by rewrite <- drop_drop, take_drop.
  - intros c bs r Hwf [Hl Hbs] Hr. unfold id in Hr. pose proof Hwf as (Ho&Hu&Hb).
    pose proof (rest_len _ Hwf) as Hrl. rewrite Hr, len_app in Hrl. pose proof (len_nonneg r).
    exists {| cur_bytes := cur_bytes c; cur_offset := cur_offset c + n |}.
    split_and!.
    + unfold cursor_take, get, put, lift, mbind, prog_bind.
      rewrite remaining_rest, Hr, len_app by done. zcmp. simpl.
      rewrite uadd_ok by ulia. rewrite slice_ok by lia. unfold rest in Hr. do 2 f_equal.
      replace (cur_offset c + n - cur_offset c) with n by lia. rewrite Hr.
      rewrite take_app_le by (unfold len in *; lia). apply firstn_all2. unfold len in *. lia.
    + split; [|done]. unfold cursor_wf. simpl. split_and!; [lia|lia|done..].
    + unfold rest in *. simpl. replace (Z.to_nat (cur_offset c + n)) with
        (Z.to_nat (cur_offset c) + Z.to_nat n)%nat by lia.
      rewrite <- drop_drop, Hr. rewrite drop_app_ge by (unfold len in *; lia).
      by replace (Z.to_nat n - length bs)%nat with 0%nat by (unfold len in *; lia).
Qed.
Lemma cursor_uint_reads n :
  reads (cursor_uint n) (to_le_bytes n) (in_width (8 * Z.of_nat n)).
Proof.
  pose proof (cursor_take_reads (Z.of_nat n) ltac:(lia)) as Ht. split.
  - intros c Hwf. unfold cursor_uint. eapply reads_sound; [done|done|].
    intros bs c' Hwf' Hf [Hl Hb] Hr. rewrite Hl, Z.eqb_refl. simpl.
    apply runs_ret. split_and!; [done|..].
    + rewrite <- Hl. by apply from_le_bytes_bound.
    + rewrite from_le_bytes_to; [done|done|unfold len in *; lia].
  - intros c a r Hwf Hv Hr. unfold cursor_uint.
    eapply (reads_complete _ _ _ (to_le_bytes n a)); [done|done|done| |].
    { split; [by autorewrite with bytes|eauto with bytes]. }
    intros c' Hwf' Hf Hr'. rewrite len_to_le_bytes, Z.eqb_refl. simpl.
    exists c'. split_and!; [|split; [done|done]|done].
    unfold mbind, prog_bind, lift. simpl. by rewrite from_to_le_bytes by done.
Qed.
Lemma cursor_u8_reads : reads cursor_u8 (λ b, [b]) u8.
Proof.
  pose proof (cursor_take_reads 1 ltac:(lia)) as Ht. split.
  - intros c Hwf. unfold cursor_u8. eapply reads_sound; [done|done|].
    intros bs c' Hwf' Hf [Hl Hb] Hr. destruct bs as [|b [|b' bs]]; simpl in Hl; try (unfold len in *; simpl in *; lia).
    apply Forall_cons in Hb as [Hb _]. unfold runs, lift. simpl. done.
  - intros c a r Hwf Hv Hr. unfold cursor_u8.
    eapply (reads_complete _ _ _ [a]); [done|done|done| |].
    { split; [done|by apply Forall_singleton]. }
    intros c' Hwf' Hf Hr'. by exists c'.
Qed.
Lemma cursor_u8_complete {B} a (f : Z → prog Cursor SchemaError B) c b r r' :
  cursor_wf c → rest c = a :: r → u8 a →
  (∀ c', cursor_wf c' → follows c c' → rest c' = r → yields (f a) c' b r') →
  yields (cursor_u8 ≫= f) c b r'.
Proof.
  intros Hwf Hr Ha Hf. exact (reads_complete _ _ _ a f c b r r' cursor_u8_reads Hwf Hr Ha Hf).
Qed.
Lemma cursor_u16_reads : reads cursor_u16 push_u16 u16.
Proof. apply (cursor_uint_reads 2). Qed.
Lemma cursor_u32_reads : reads cursor_u32 push_u32 u32.
Proof. apply (cursor_uint_reads 4). Qed.
Lemma cursor_u64_reads : reads cursor_u64 push_u64 u64.
Proof. apply (cursor_uint_reads 8). Qed.
Create HintDb reads.
#[export] Hint Resolve cursor_u8_reads cursor_u16_reads cursor_u32_reads cursor_u64_reads : reads.

#[global] Opaque push_u16 push_u32 push_u64.

(** [read_sound] and [read_complete] walk through a decoder; the first collects
    what each field consumed, the second feeds it the bytes of an encoding. *)
Ltac read_sound_step :=
  eapply reads_sound; [solve [eauto with reads]|eassumption|intros ? ? ? ? ? ?].
Ltac read_complete_step :=
  first [eapply cursor_u8_complete; [eassumption|eassumption|eassumption|]
    |eapply reads_complete;
      [solve [eauto with reads]|eassumption|rewrite <- ?app_assoc in *; eassumption|eassumption|]];
  intros ? ? ? ?; cbv beta.
Ltac follow_trans :=
  repeat match goal with
  | H : follows ?a ?b |- follows ?a ?c => first [exact H|eapply follows_trans; [exact H|]; clear H]
  end.
(** Replaces the unread bytes of each cursor by what was consumed of them. *)
Ltac chain_rest :=
  repeat match goal with
  | H : rest ?c = _ ++ rest _ |- context [rest ?c] => rewrite H; clear H
  end; rewrite <- ?app_assoc.

(** ** The bytes of KVM's register structures *)
Definition wire_regs (r : sys.KvmRegs) : list Z := encode_registers (from_kvm_regs r).
Definition kvm_regs_ok (r : sys.KvmRegs) : Prop :=
  Forall (λ f, u64 (register_value (from_kvm_regs r) f)) REGISTER_FIELDS.
Definition wire_segment (s : sys.KvmSegment) : list Z :=
  push_u64 (sys.base s) ++ push_u32 (sys.limit s) ++ push_u16 (sys.selector s) ++
  [sys.type_ s; sys.present s; sys.dpl s; sys.db s; sys.s s; sys.l s; sys.g s; sys.avl s;
   sys.unusable s; 0].
Definition kvm_segment_ok (s : sys.KvmSegment) : Prop :=
  u64 (sys.base s) ∧ u32 (sys.limit s) ∧ u16 (sys.selector s) ∧ 0 ≤ sys.type_ s ≤ 15 ∧
  0 ≤ sys.dpl s ≤ 3 ∧
  Forall (λ b, 0 ≤ b ≤ 1) [sys.present s; sys.db s; sys.s s; sys.l s; sys.g s; sys.avl s;
    sys.unusable s] ∧ sys.padding s = 0.
Definition wire_dtable (t : sys.KvmDtable) : list Z :=
  push_u64 (sys.dt_base t) ++ push_u16 (sys.dt_limit t) ++ replicate 6 0.
Definition kvm_dtable_ok (t : sys.KvmDtable) : Prop :=
  u64 (sys.dt_base t) ∧ u16 (sys.dt_limit t) ∧ sys.dt_padding t = [0; 0; 0].
Definition sregs_segments (s : sys.KvmSregs) : list sys.KvmSegment :=
  [sys.cs s; sys.ds s; sys.es s; sys.fs s; sys.gs s; sys.ss s; sys.tr s; sys.ldt s].
Definition sregs_words (s : sys.KvmSregs) : list Z :=
  [sys.cr0 s; sys.cr2 s; sys.cr3 s; sys.cr4 s; sys.cr8 s; sys.efer s; sys.apic_base s;
   word0 (sys.interrupt_bitmap s); word1 (sys.interrupt_bitmap s);
   word2 (sys.interrupt_bitmap s); word3 (sys.interrupt_bitmap s)].
Definition wire_sregs (s : sys.KvmSregs) : list Z :=
  (sregs_segments s ≫= wire_segment) ++ wire_dtable (sys.gdt s) ++ wire_dtable (sys.idt s) ++
  (sregs_words s ≫= push_u64).
Definition kvm_sregs_ok (s : sys.KvmSregs) : Prop :=
  Forall kvm_segment_ok (sregs_segments s) ∧ kvm_dtable_ok (sys.gdt s) ∧
  kvm_dtable_ok (sys.idt s) ∧ Forall u64 (sregs_words s).

Lemma decode_registers_reads : reads decode_registers wire_regs kvm_regs_ok.
Proof.
  unfold kvm_regs_ok, wire_regs, encode_registers, REGISTER_FIELDS. split.
  - intros c Hwf. unfold decode_registers. do 18 read_sound_step. apply runs_ret. split_and!.
    + follow_trans.
    + repeat (constructor; [done|]). constructor.
    + cbn [mbind list_bind from_kvm_regs VcpuState.rax VcpuState.rbx]. chain_rest. reflexivity.
  - intros c [] r Hwf. rewrite !Forall_cons. cbn [register_value from_kvm_regs]. intros H Hr.
    destruct_and!. cbn [mbind list_bind] in Hr. simpl in * |-.
    unfold decode_registers. do 18 read_complete_step. by apply ret_complete.
Qed.

Lemma check_flag_fields_Ok segment fields :
  check_flag_fields segment fields = Ok tt ↔ Forall (λ fv, fv.2 ≤ 1) fields.
Proof.
  induction fields as [|[f v] fields IH]; simpl; [by split|].
  rewrite bind_err_if_Ok, IH, Forall_cons, Z.ltb_ge. done.
Qed.
Lemma no_panic_check_flag_fields segment fields : no_panic (check_flag_fields segment fields).
Proof. induction fields as [|[f v] fields IH]; simpl; [done|]. by destruct (1 <? v). Qed.
#[export] Hint Resolve no_panic_check_flag_fields : panics.

Lemma decode_segment_reads i : reads (decode_segment i) wire_segment kvm_segment_ok.
Proof.
  unfold decode_segment. split.
  - intros c Hwf. do 13 read_sound_step. do 2 (apply guard_sound; intros ?).
    apply lift_sound; [auto with panics|intros [] Hflags]. apply guard_sound; intros ?.
    res_simplify. subst. apply check_flag_fields_Ok in Hflags. rewrite !Forall_cons in Hflags.
    simpl in Hflags. apply runs_ret. split_and!; [follow_trans| |].
    + unfold kvm_segment_ok. rewrite !Forall_cons. simpl. unfold in_width in *.
      change (2 ^ 8) with 256 in *. split_and!; try constructor; intuition lia.
    + unfold wire_segment. cbn [sys.base sys.limit sys.selector sys.type_ sys.present sys.dpl
        sys.db sys.s sys.l sys.g sys.avl sys.unusable]. chain_rest. reflexivity.
  - intros c [] r Hwf. unfold kvm_segment_ok, wire_segment. rewrite !Forall_cons.
    intros Hv Hr. simpl in Hv, Hr. rewrite <- !app_assoc in Hr. simpl in Hr.
    assert (Forall u8 [type_; present; dpl; db; s; l; g; avl; unusable; 0]) as H8.
    { rewrite !Forall_cons. unfold in_width. change (2 ^ 8) with 256.
      split_and!; try constructor; intuition lia. }
    rewrite !Forall_cons in H8. destruct_and!. subst.
    do 13 read_complete_step. do 2 (apply guard_complete; [zcmp; done|]).
    eapply lift_complete; [apply check_flag_fields_Ok; rewrite !Forall_cons; simpl;
      split_and!; try constructor; lia|].
    apply guard_complete; [done|]. by apply ret_complete.
Qed.

Lemma existsb_nonzero_replicate bs :
  existsb (λ byte, negb (byte =? 0)) bs = false ↔ bs = replicate (length bs) 0.
Proof.
  induction bs as [|b bs IH]; simpl; [done|]. rewrite orb_false_iff, IH, negb_false_iff, Z.eqb_eq.
  split; [intros [-> ->]; by rewrite !length_replicate|by intros [= ->]].
Qed.
Lemma decode_dtable_reads f : reads (decode_dtable f) wire_dtable kvm_dtable_ok.
Proof.
  pose proof (cursor_take_reads 6 ltac:(lia)) as H6. unfold decode_dtable. split.
  - intros c Hwf. do 2 read_sound_step.
    eapply reads_sound; [exact H6|eassumption|intros bs c3 ? ? [Hl Hb] Hr3].
    apply guard_sound. intros Hz%existsb_nonzero_replicate. apply runs_ret.
    split_and!; [follow_trans|by split_and!|].
    unfold wire_dtable. cbn [sys.dt_base sys.dt_limit]. chain_rest. unfold id. rewrite Hz.
    do 3 f_equal. unfold len in Hl. by replace (length bs) with 6%nat by lia.
  - intros c [] r Hwf (Hb&Hl&Hp) Hr. simpl in *. subst. unfold wire_dtable in Hr.
    rewrite <- !app_assoc in Hr. cbn [sys.dt_base sys.dt_limit] in Hr.
    do 2 read_complete_step.
    eapply (reads_complete _ _ _ (replicate 6 0)); [exact H6|eassumption|eassumption| |].
    { split; [done|]. apply bytes_ok_replicate. ulia. }
    intros ? ? ? ?. apply guard_complete; [done|]. by apply ret_complete.
Qed.
#[export] Hint Resolve decode_registers_reads decode_segment_reads decode_dtable_reads : reads.

Lemma decode_special_registers_reads : reads decode_special_registers wire_sregs kvm_sregs_ok.
Proof.
  unfold decode_special_registers. split.
  - intros c Hwf. do 21 read_sound_step. apply runs_ret. split_and!; [follow_trans| |].
    + unfold kvm_sregs_ok, sregs_segments, sregs_words. rewrite !Forall_cons. simpl.
      split_and!; first [assumption|apply Forall_nil_2].
    + unfold wire_sregs, sregs_segments, sregs_words. cbn [mbind list_bind].
      cbn [sys.cs sys.ds sys.es sys.fs sys.gs sys.ss sys.tr sys.ldt sys.gdt sys.idt sys.cr0
        sys.cr2 sys.cr3 sys.cr4 sys.cr8 sys.efer sys.apic_base sys.interrupt_bitmap word0 word1
        word2 word3]. chain_rest. reflexivity.
  - intros c [????????????????? [w0 w1 w2 w3]] r Hwf.
    unfold kvm_sregs_ok, wire_sregs, sregs_segments, sregs_words.
    rewrite !Forall_cons. cbn [mbind list_bind].
      cbn [sys.cs sys.ds sys.es sys.fs sys.gs sys.ss sys.tr sys.ldt sys.gdt sys.idt sys.cr0
        sys.cr2 sys.cr3 sys.cr4 sys.cr8 sys.efer sys.apic_base sys.interrupt_bitmap word0 word1
        word2 word3]. intros Hv Hr. rewrite <- !app_assoc in Hr. destruct_and!.
    do 21 read_complete_step. by apply ret_complete.
Qed.
#[export] Hint Resolve decode_special_registers_reads : reads.

(** ** Pages and MSR records *)
Lemma no_panic_validate_page_address a : no_panic (validate_page_address a).
Proof.
  unfold validate_page_address, LONG_MODE_PAGE_SIZE. rewrite urem_ok by done.
  apply no_panic_bind; [done|]. intros. np.
Qed.
Lemma validate_page_address_Ok a :
  validate_page_address a = Ok tt ↔
  a mod LONG_MODE_PAGE_SIZE = 0 ∧ a + LONG_MODE_PAGE_SIZE < 2 ^ 64.
Proof.
  unfold validate_page_address. rewrite urem_ok by done. unfold mbind at 1, res_bind at 1.
  rewrite bind_err_if_Ok, negb_false_iff, Z.eqb_eq. unfold checked_add.
  destruct (Z.ltb_spec (a + LONG_MODE_PAGE_SIZE) (2 ^ 64)); simpl; naive_solver lia.
Qed.
Lemma no_panic_check_page_order p a : no_panic (check_page_order p a).
Proof. destruct p; simpl; auto with panics. Qed.
Lemma no_panic_check_msr_order p a : no_panic (check_msr_order p a).
Proof. destruct p; simpl; auto with panics. Qed.
#[export] Hint Resolve no_panic_validate_page_address no_panic_check_page_order
  no_panic_check_msr_order : panics.

Definition page_typed (p : BoundedCheckpointPage) : Prop :=
  u64 (page_address p) ∧ bytes_ok (page_bytes p).
Definition msr_typed (m : MsrIndex * Z) : Prop := u32 m.1 ∧ u64 m.2.
Definition pages_from (count : nat) (previous : option Z) (pages : list BoundedCheckpointPage) : Prop :=
  length pages = count ∧ validate_pages_loop previous pages = Ok tt ∧ Forall page_typed pages.
Definition msrs_from (count : nat) (previous : option Z) (values : list (MsrIndex * Z)) : Prop :=
  length values = count ∧ validate_msr_order_loop previous values = Ok tt ∧ Forall msr_typed values.

Lemma pages_from_cons count previous p pages :
  pages_from (S count) previous (p :: pages) ↔
  page_typed p ∧ validate_page_address (page_address p) = Ok tt ∧
  len (page_bytes p) = LONG_MODE_PAGE_SIZE ∧
  check_page_order previous (page_address p) = Ok tt ∧
  pages_from count (Some (page_address p)) pages.
Proof.
  unfold pages_from. simpl. rewrite Forall_cons. split.
  - intros (Hl&Hv&Hp&Ht). bind_inv Hv. repeat split; try done; try apply Hp. lia.
  - intros (Hp&Ha&Hb&Ho&Hl&Hv&Ht). rewrite Ha, Hb, Z.eqb_refl. simpl. rewrite Ho. simpl.
    split_and!; [by rewrite Hl|done..].
Qed.
Lemma msrs_from_cons count previous i v values :
  msrs_from (S count) previous ((i, v) :: values) ↔
  u32 i ∧ u64 v ∧ check_msr_order previous i = Ok tt ∧ msrs_from count (Some i) values.
Proof.
  unfold msrs_from. simpl. rewrite Forall_cons. split.
  - intros (Hl&Hv&Hm&Ht). bind_inv Hv. destruct Hm. split_and!; try done. lia.
  - intros (Hi&Hv&Ho&Hl&Hvl&Ht). rewrite Ho. simpl. split_and!; [by rewrite Hl|done..].
Qed.

Lemma decode_pages_reads count previous :
  reads (decode_pages count previous) (λ ps, ps ≫= encode_page) (pages_from count previous).
Proof.
  pose proof (cursor_take_reads LONG_MODE_PAGE_SIZE ltac:(done)) as Hpage.
  revert previous. induction count as [|count IH]; intros previous; cbn [decode_pages]; split.
  - intros c Hwf. apply runs_ret. by split_and!.
  - intros c ps r Hwf (Hl&_) Hr. apply nil_length_inv in Hl as ->. by apply ret_complete.
  - intros c Hwf. read_sound_step. apply lift_sound; [auto with panics|intros [] Ha].
    apply lift_sound; [auto with panics|intros [] Ho].
    eapply reads_sound; [exact Hpage|eassumption|intros bs c2 ? ? [Hl Hb] Hr2].
    eapply reads_sound; [apply IH|eassumption|intros ps c3 ? ? Hps Hr3].
    apply runs_ret. split_and!; [follow_trans| |].
    + rewrite pages_from_cons. by split_and!.
    + cbn [mbind list_bind]. unfold encode_page at 1. cbn [page_address page_bytes]. chain_rest. done.
  - intros c [|[a bs] ps] r Hwf Hps Hr; [by destruct Hps|].
    apply pages_from_cons in Hps as ([Hta Htb]&Ha&Hb&Ho&Hps).
    cbn [mbind list_bind] in Hr. unfold encode_page at 1 in Hr.
    cbn [page_address page_bytes] in *. rewrite <- !app_assoc in Hr.
    read_complete_step. eapply lift_complete; [done|]. eapply lift_complete; [done|].
    eapply (reads_complete _ _ _ bs); [exact Hpage|eassumption|eassumption|done|intros ? ? ? ?].
    eapply (reads_complete _ _ _ ps); [apply IH|eassumption|eassumption|done|intros ? ? ? ?].
    by apply ret_complete.
Qed.
Lemma decode_msrs_reads field count previous :
  reads (decode_msrs field count previous) (λ ms, ms ≫= encode_msr) (msrs_from count previous).
Proof.
  revert previous. induction count as [|count IH]; intros previous; cbn [decode_msrs]; split.
  - intros c Hwf. apply runs_ret. by split_and!.
  - intros c ms r Hwf (Hl&_) Hr. apply nil_length_inv in Hl as ->. by apply ret_complete.
  - intros c Hwf. do 2 read_sound_step. apply guard_sound. intros Hz. res_simplify. subst.
    apply lift_sound; [auto with panics|intros [] Ho]. read_sound_step.
    eapply reads_sound; [apply IH|eassumption|intros ms c3 ? ? Hms Hr3].
    apply runs_ret. split_and!; [follow_trans| |].
    + rewrite msrs_from_cons. by split_and!.
    + cbn [mbind list_bind]. unfold encode_msr at 1. cbn [fst snd]. chain_rest. done.
  - intros c [|[i v] ms] r Hwf Hms Hr; [by destruct Hms|].
    apply msrs_from_cons in Hms as (Hi&Hv&Ho&Hms).
    cbn [mbind list_bind] in Hr. unfold encode_msr at 1 in Hr. cbn [fst snd] in *.
    rewrite <- !app_assoc in Hr. assert (u32 0) by ulia.
    do 2 read_complete_step. apply guard_complete; [done|].
    eapply lift_complete; [done|]. read_complete_step.
    eapply (reads_complete _ _ _ ms); [apply IH|eassumption|eassumption|done|intros ? ? ? ?].
    by apply ret_complete.
Qed.
#[export] Hint Resolve decode_pages_reads decode_msrs_reads : reads.
