(* ===== verification/PageCheckpoint.v ===== *)
(** The page/vCPU checkpoint end to end: the portable form decodes to exactly
    what was encoded, every accepted byte string is a well-formed checkpoint,
    and a checkpoint survives the way through bytes back into a page set and a
    vCPU snapshot ([src/src/state_snapshot/page_set/schema_v1/codec.rs],
    [src/src/state_snapshot/page_set/schema_v1/vcpu_state.rs],
    [src/src/state_snapshot/page_set.rs]). *)

From stdpp Require Import sorting.
From S2P Require Import Prelude Errors Memory LongMode Msr VcpuState SchemaV1.

(** * The checkpoint as a whole *)
Definition total_length (page_count msr_count : Z) : Z :=
  HEADER_LEN + PAGE_RECORD_LEN * page_count + REGISTER_BLOCK_LEN + SPECIAL_REGISTER_BLOCK_LEN +
  MSR_RECORD_LEN * msr_count.
Definition header_ok (bytes : list Z) (h : Z * Z * Z) : Prop :=
  let '(total, page_count, msr_count) := h in
  total = len bytes ∧ u64 total ∧ 1 ≤ page_count ≤ BOUNDED_CHECKPOINT_PAGE_SET_LIMIT ∧
  0 ≤ msr_count ≤ VERSIONED_PAGE_VCPU_CHECKPOINT_MSR_LIMIT.
Lemma encoded_length_ok page_count msr_count :
  0 ≤ page_count ≤ BOUNDED_CHECKPOINT_PAGE_SET_LIMIT →
  0 ≤ msr_count ≤ VERSIONED_PAGE_VCPU_CHECKPOINT_MSR_LIMIT →
  encoded_length page_count msr_count = Ok (total_length page_count msr_count).
Proof.
  unfold encoded_length, total_length, checked_mul, checked_add, BOUNDED_CHECKPOINT_PAGE_SET_LIMIT,
    VERSIONED_PAGE_VCPU_CHECKPOINT_MSR_LIMIT, PAGE_RECORD_LEN, LONG_MODE_PAGE_SIZE, MSR_RECORD_LEN,
    HEADER_LEN, REGISTER_BLOCK_LEN, SPECIAL_REGISTER_BLOCK_LEN, SEGMENT_BLOCK_LEN, DTABLE_BLOCK_LEN.
  intros. simpl. do 5 (zcmp; simpl). done.
Qed.
Lemma decode_header_reads bytes :
  reads (decode_header bytes) (λ '(total, pages, msrs), encode_header pages msrs total)
    (header_ok bytes).
Proof.
  pose proof (cursor_take_reads 8 ltac:(done)) as Hm. unfold decode_header. split.
  - intros c Hwf. eapply reads_sound; [exact Hm|eassumption|intros magic c1 ? ? [? ?] ?].
    apply guard_sound. intros Hmagic%bool_decide_eq_false%dec_stable. subst magic.
    do 5 (read_sound_step; apply guard_sound; intros ?).
    do 4 (read_sound_step; apply guard_sound; intros ?).
    apply runs_ret. res_simplify. subst.
    split_and!; [follow_trans|unfold header_ok; split_and!; ulia|].
    unfold encode_header. chain_rest. unfold id.
    repeat match goal with H : _ = len bytes |- _ => rewrite <- H end. done.
  - intros c [[total pages] msrs] r Hwf (Ht&Hu&Hp&Hmc) Hr.
    unfold encode_header in Hr. rewrite <- !app_assoc in Hr.
    unfold BOUNDED_CHECKPOINT_PAGE_SET_LIMIT, VERSIONED_PAGE_VCPU_CHECKPOINT_MSR_LIMIT in *.
    assert (u16 VERSIONED_PAGE_VCPU_CHECKPOINT_VERSION ∧
      u16 VERSIONED_PAGE_VCPU_CHECKPOINT_ARCH_X86_64 ∧ u32 HEADER_LEN ∧ u32 LONG_MODE_PAGE_SIZE ∧
      u16 pages ∧ u16 msrs ∧ u32 0) as Hw.
    { unfold in_width, HEADER_LEN, LONG_MODE_PAGE_SIZE, VERSIONED_PAGE_VCPU_CHECKPOINT_VERSION,
        VERSIONED_PAGE_VCPU_CHECKPOINT_ARCH_X86_64. simpl. lia. }
    destruct_and! Hw.
    eapply reads_complete; [exact Hm|eassumption|eassumption| |intros ? ? ? ?].
    { split; [done|]. repeat (constructor; [ulia|]). constructor. }
    apply guard_complete; [apply bool_decide_eq_false; by intros []|].
    do 9 (read_complete_step; apply guard_complete; [subst; by zcmp|]).
    by apply ret_complete.
Qed.
#[export] Hint Resolve decode_header_reads : reads.

Lemma len_push_u16 x : len (push_u16 x) = 2.
Proof. apply (len_to_le_bytes 2). Qed.
Lemma len_push_u32 x : len (push_u32 x) = 4.
Proof. apply (len_to_le_bytes 4). Qed.
Lemma len_push_u64 x : len (push_u64 x) = 8.
Proof. apply (len_to_le_bytes 8). Qed.
#[export] Hint Rewrite len_push_u16 len_push_u32 len_push_u64 : bytes.
(** The total length of records of one length. *)
Lemma len_mbind {A B} (f : A → list B) n l :
  Forall (λ x, len (f x) = n) l → len (l ≫= f) = n * len l.
Proof.
  induction 1 as [|x l Hx _ IH]; csimpl; [by rewrite Z.mul_0_r|].
  rewrite len_app, Hx, len_cons, IH. lia.
Qed.
Lemma len_mbind_all {A B} (f : A → list B) n l : (∀ x, len (f x) = n) → len (l ≫= f) = n * len l.
Proof. intros H. apply len_mbind, Forall_forall. intros; apply H. Qed.
Lemma len_encode_registers r : len (encode_registers r) = REGISTER_BLOCK_LEN.
Proof. unfold encode_registers. by rewrite (len_mbind_all _ 8) by apply len_push_u64. Qed.
Lemma len_encode_segment s : len (encode_segment s) = SEGMENT_BLOCK_LEN.
Proof. unfold encode_segment. autorewrite with bytes. done. Qed.
Lemma len_encode_dtable t : len (encode_dtable t) = DTABLE_BLOCK_LEN.
Proof. unfold encode_dtable. autorewrite with bytes. done. Qed.
Lemma len_encode_special_registers r :
  len (encode_special_registers r) = SPECIAL_REGISTER_BLOCK_LEN.
Proof.
  unfold encode_special_registers. rewrite !len_app, !len_encode_dtable.
  rewrite (len_mbind_all _ _ _ len_encode_segment), (len_mbind_all _ 8) by apply len_push_u64. done.
Qed.
Lemma len_encode_msr m : len (encode_msr m) = MSR_RECORD_LEN.
Proof. unfold encode_msr. autorewrite with bytes. done. Qed.
Lemma len_encode_header p m t : len (encode_header p m t) = HEADER_LEN.
Proof. unfold encode_header. autorewrite with bytes. done. Qed.

(** The encoder of a snapshot is the byte image of the structure KVM gets. *)
Lemma encode_registers_wire r : encode_registers r = wire_regs (to_kvm_regs r).
Proof. unfold wire_regs. by rewrite from_to_kvm_regs. Qed.
Lemma encode_special_registers_wire r : encode_special_registers r = wire_sregs (encode_snapshot r).
Proof. done. Qed.

(** ** Declarative well-formedness *)
Definition page_wf (p : BoundedCheckpointPage) : Prop :=
  page_address p mod LONG_MODE_PAGE_SIZE = 0 ∧ 0 ≤ page_address p ∧
  page_address p + LONG_MODE_PAGE_SIZE < 2 ^ 64 ∧
  len (page_bytes p) = LONG_MODE_PAGE_SIZE ∧ bytes_ok (page_bytes p).
Definition above (previous : option Z) (a : Z) : Prop :=
  match previous with Some p => p < a | None => True end.
Lemma check_page_order_Ok previous a : check_page_order previous a = Ok tt ↔ above previous a.
Proof. destruct previous; simpl; [by rewrite err_if_Ok_iff, Z.leb_gt|done]. Qed.
Lemma check_msr_order_Ok previous a : check_msr_order previous a = Ok tt ↔ above previous a.
Proof. destruct previous; simpl; [by rewrite err_if_Ok_iff, Z.leb_gt|done]. Qed.
(** A strictly increasing list that starts above [previous]. *)
Definition increasing (previous : option Z) (l : list Z) : Prop :=
  StronglySorted Z.lt l ∧ Forall (above previous) l.
Lemma increasing_cons previous a l :
  increasing previous (a :: l) ↔ above previous a ∧ increasing (Some a) l.
Proof.
  unfold increasing. rewrite StronglySorted_cons, Forall_cons. simpl. split; [naive_solver|].
  intros (Ha&Hs&Hl). split_and!; [done|done|done|].
  eapply Forall_impl; [exact Hl|]. destruct previous; simpl in *; [intros; lia|done].
Qed.
Lemma validate_pages_loop_Ok pages previous :
  Forall page_typed pages →
  validate_pages_loop previous pages = Ok tt ↔
  Forall page_wf pages ∧ increasing previous (page_address <$> pages).
Proof.
  revert previous. induction pages as [|p pages IH]; intros previous Ht; csimpl.
  { split; [|done]. intros _. by repeat constructor. }
  apply Forall_cons in Ht as [[Hta Htb] Ht]. rewrite Forall_cons, increasing_cons.
  pose proof (pages_from_cons (length pages) previous p pages) as Hc.
  unfold pages_from in Hc. rewrite Forall_cons in Hc. simpl in Hc.
  rewrite validate_page_address_Ok, check_page_order_Ok, IH in Hc by done.
  unfold page_wf. split.
  - intros HV. destruct (proj1 Hc) as (_&[Hm He]&Hl&Ho&_&[Hp Hi]&_); [by split_and!|].
    split_and!; try done. ulia.
  - intros [[(Hm&H0&He&Hl&Hb) Hp] [Ho Hi]]. by apply Hc; split_and!.
Qed.
Lemma validate_msr_order_loop_Ok (values : list (Z * Z)) previous :
  validate_msr_order_loop previous values = Ok tt ↔ increasing previous values.*1.
Proof.
  revert previous. induction values as [|[i v] values IH]; intros previous; csimpl.
  { split; [|done]. intros _. by repeat constructor. }
  rewrite increasing_cons, <- check_msr_order_Ok, <- IH.
  destruct (check_msr_order previous i) as [[]| |]; simpl; naive_solver.
Qed.

Definition payload_wf (pages : list BoundedCheckpointPage) (values : list (Z * Z)) : Prop :=
  1 ≤ len pages ≤ BOUNDED_CHECKPOINT_PAGE_SET_LIMIT ∧ Forall page_wf pages ∧
  StronglySorted Z.lt (page_address <$> pages) ∧
  len values ≤ VERSIONED_PAGE_VCPU_CHECKPOINT_MSR_LIMIT ∧ Forall msr_typed values ∧
  StronglySorted Z.lt values.*1.
Definition ck_wf (ck : VersionedPageVcpuCheckpointV1) : Prop :=
  payload_wf (ck_pages ck) (ck_msrs ck) ∧
  kvm_regs_ok (to_kvm_regs (ck_registers ck)) ∧
  kvm_sregs_ok (encode_snapshot (ck_special_registers ck)) ∧
  sregs_canonical (ck_special_registers ck).
(** The byte image of a checkpoint whose registers are given as KVM structures. *)
Definition image (pages : list BoundedCheckpointPage) (regs : sys.KvmRegs) (sregs : sys.KvmSregs)
    (values : list (Z * Z)) : list Z :=
  encode_header (len pages) (len values) (total_length (len pages) (len values)) ++
  (pages ≫= encode_page) ++ wire_regs regs ++ wire_sregs sregs ++ (values ≫= encode_msr).

Lemma increasing_None l : increasing None l ↔ StronglySorted Z.lt l.
Proof. unfold increasing. split; [tauto|]. intros; split; [done|]. by apply Forall_true. Qed.
Lemma page_wf_typed p : page_wf p → page_typed p.
Proof. intros (?&?&?&?&?). split; [|done]. unfold in_width, LONG_MODE_PAGE_SIZE in *. lia. Qed.
Lemma validate_pages_Ok pages :
  Forall page_typed pages →
  validate_pages pages = Ok tt ↔
  1 ≤ len pages ≤ BOUNDED_CHECKPOINT_PAGE_SET_LIMIT ∧ Forall page_wf pages ∧
  StronglySorted Z.lt (page_address <$> pages).
Proof.
  intros Ht. unfold validate_pages. pose proof (len_nonneg pages).
  rewrite bind_err_if_Ok, validate_pages_loop_Ok, increasing_None by done.
  rewrite orb_false_iff, Z.eqb_neq, Z.ltb_ge. split; intros; destruct_and!; split_and!; done || lia.
Qed.
Lemma validate_msr_order_Ok values :
  validate_msr_order values = Ok tt ↔ StronglySorted Z.lt values.*1.
Proof. unfold validate_msr_order. by rewrite validate_msr_order_loop_Ok, increasing_None. Qed.
Lemma pages_from_wf pages :
  pages_from (length pages) None pages ↔
  Forall page_wf pages ∧ StronglySorted Z.lt (page_address <$> pages).
Proof.
  unfold pages_from. split.
  - intros (_&Hv&Ht). apply validate_pages_loop_Ok in Hv as [? ?%increasing_None]; done.
  - intros [Hw Hs]. assert (Forall page_typed pages) as Ht
      by (eapply Forall_impl; [exact Hw|apply page_wf_typed]).
    split_and!; [done| |done]. apply validate_pages_loop_Ok; [done|]. by rewrite increasing_None.
Qed.
Lemma msrs_from_wf (values : list (Z * Z)) :
  msrs_from (length values) None values ↔ Forall msr_typed values ∧ StronglySorted Z.lt values.*1.
Proof.
  unfold msrs_from. rewrite validate_msr_order_loop_Ok, increasing_None. tauto.
Qed.

Lemma len_pages pages :
  Forall page_wf pages → len (pages ≫= encode_page) = PAGE_RECORD_LEN * len pages.
Proof.
  intros Hp. apply len_mbind. eapply Forall_impl; [exact Hp|]. intros p (_&_&_&Hl&_).
  unfold encode_page. by rewrite len_app, len_push_u64, Hl.
Qed.
Lemma len_wire_sregs s : len (wire_sregs s) = SPECIAL_REGISTER_BLOCK_LEN.
Proof.
  unfold wire_sregs. rewrite !len_app.
  rewrite (len_mbind_all wire_segment SEGMENT_BLOCK_LEN), (len_mbind_all push_u64 8).
  - unfold wire_dtable. autorewrite with bytes. done.
  - apply len_push_u64.
  - intros x. unfold wire_segment. autorewrite with bytes. done.
Qed.
Lemma len_image pages regs sregs values :
  Forall page_wf pages →
  len (image pages regs sregs values) = total_length (len pages) (len values).
Proof.
  intros Hp. unfold image, total_length. rewrite !len_app, len_encode_header, len_pages by done.
  unfold wire_regs. rewrite len_encode_registers, len_wire_sregs.
  rewrite (len_mbind_all _ _ _ len_encode_msr). lia.
Qed.

Lemma encode_ok ck :
  payload_wf (ck_pages ck) (ck_msrs ck) →
  encode ck = Ok (image (ck_pages ck) (to_kvm_regs (ck_registers ck))
    (encode_snapshot (ck_special_registers ck)) (ck_msrs ck)).
Proof.
  intros (Hn&Hp&Hs&Hm&Ht&Hms). unfold encode. pose proof (len_nonneg (ck_msrs ck)).
  rewrite (proj2 (validate_pages_Ok _ (Forall_impl _ _ _ Hp page_wf_typed))) by done.
  cbn [mbind res_bind]. rewrite (proj2 (validate_msr_order_Ok _)) by done. cbn [mbind res_bind].
  rewrite (proj2 (Z.ltb_ge _ _)) by done. cbn [err_if mbind res_bind].
  rewrite encoded_length_ok by lia. cbn [mbind res_bind].
  unfold BOUNDED_CHECKPOINT_PAGE_SET_LIMIT, VERSIONED_PAGE_VCPU_CHECKPOINT_MSR_LIMIT in *.
  unfold try_from. rewrite !(proj2 (Z.ltb_lt _ _)) by lia. cbn [expect mbind res_bind].
  rewrite encode_registers_wire, encode_special_registers_wire.
  change (encode_header _ _ _ ++ _) with (image (ck_pages ck) (to_kvm_regs (ck_registers ck))
    (encode_snapshot (ck_special_registers ck)) (ck_msrs ck)).
  by rewrite len_image, Z.eqb_refl.
Qed.

Lemma cursor_new_wf bytes :
  bytes_ok bytes → usize (len bytes) → cursor_wf (cursor_new bytes) ∧ rest (cursor_new bytes) = bytes.
Proof.
  intros Hb Hu. split; [|done]. unfold cursor_wf. simpl. pose proof (len_nonneg bytes).
  split_and!; done || lia.
Qed.
Lemma len_nil_inv {A} (l : list A) : len l = 0 → l = [].
Proof. unfold len. intros. apply nil_length_inv. lia. Qed.
(** What a successful [decode] says about the bytes. *)
Definition decodes_to (bytes : list Z) (ck : VersionedPageVcpuCheckpointV1) : Prop :=
  ∃ regs sregs, payload_wf (ck_pages ck) (ck_msrs ck) ∧ kvm_regs_ok regs ∧ kvm_sregs_ok sregs ∧
    ck_registers ck = from_kvm_regs regs ∧ ck_special_registers ck = from_kvm_sregs sregs ∧
    bytes = image (ck_pages ck) regs sregs (ck_msrs ck).
Lemma decode_cursor_sound bytes :
  bytes_ok bytes → usize (len bytes) →
  runs (decode_cursor bytes) (cursor_new bytes) (λ ck _, decodes_to bytes ck) (λ _ _, True).
Proof.
  intros Hb Hu. destruct (cursor_new_wf bytes Hb Hu) as [Hwf Hr0]. unfold decode_cursor.
  eapply reads_sound; [apply decode_header_reads|exact Hwf|].
  intros [[total pc] mc] c1 Hwf1 Hf1 (Ht&_&Hpc&Hmc) Hr1. rewrite encoded_length_ok by lia.
  apply lift_sound; [done|]. intros _ [= <-]. apply guard_sound. intros Hlen. res_simplify.
  do 4 read_sound_step. apply runs_bind, runs_get. apply guard_sound. intros Hrem.
  res_simplify. rewrite remaining_rest in Hrem by done. apply len_nil_inv in Hrem.
  apply runs_ret. do 2 eexists. cbn [ck_pages ck_msrs ck_registers ck_special_registers].
  repeat match goal with
  | H : pages_from _ _ ?ps |- _ => pose proof (proj1 H) as Hpl;
      rewrite <- Hpl in H; apply pages_from_wf in H as [? ?]
  | H : msrs_from _ _ ?ms |- _ => pose proof (proj1 H) as Hml;
      rewrite <- Hml in H; apply msrs_from_wf in H as [? ?]
  end.
  assert (∀ {A} (l : list A) n, 0 ≤ n → length l = Z.to_nat n → len l = n) as Hz
    by (unfold len; lia).
  apply Hz in Hpl, Hml; [|lia..].
  split_and!; try done.
  - unfold payload_wf. split_and!; try done; lia.
  - unfold image. rewrite Hpl, Hml, Hlen, <- Ht.
    rewrite <- Hr0, Hr1. f_equal. chain_rest. rewrite Hrem. by rewrite app_nil_r.
Qed.
Lemma decode_cursor_complete bytes ck :
  bytes_ok bytes → usize (len bytes) → decodes_to bytes ck →
  yields (decode_cursor bytes) (cursor_new bytes) ck [].
Proof.
  intros Hb Hu (regs&sregs&Hp&Hregs&Hsregs&Hr&Hs&Himg).
  destruct (cursor_new_wf bytes Hb Hu) as [Hwf Hr0].
  destruct Hp as (Hn&Hpw&Hps&Hm&Hmt&Hms). pose proof (len_nonneg (ck_msrs ck)).
  pose proof (len_image (ck_pages ck) regs sregs (ck_msrs ck) Hpw) as Hlen. rewrite <- Himg in Hlen.
  rewrite Himg in Hr0 at 2. unfold image in Hr0. unfold decode_cursor.
  eapply (reads_complete _ _ _ (total_length (len (ck_pages ck)) (len (ck_msrs ck)),
    len (ck_pages ck), len (ck_msrs ck))); [apply decode_header_reads|exact Hwf|exact Hr0| |].
  { unfold header_ok. rewrite <- Hlen. split_and!; done || lia. }
  intros c1 Hwf1 Hf1 Hr1. rewrite encoded_length_ok by lia.
  eapply lift_complete; [done|]. apply guard_complete; [rewrite Hlen; by rewrite Z.eqb_refl|].
  eapply (reads_complete _ _ _ (ck_pages ck)); [apply decode_pages_reads|exact Hwf1|exact Hr1| |].
  { unfold len. rewrite Nat2Z.id. by apply pages_from_wf. }
  intros c2 Hwf2 Hf2 Hr2. do 2 read_complete_step.
  eapply (reads_complete _ _ _ (ck_msrs ck) _ _ _ []);
    [apply decode_msrs_reads|eassumption|rewrite app_nil_r; eassumption| |].
  { unfold len. rewrite Nat2Z.id. by apply msrs_from_wf. }
  intros c5 Hwf5 Hf5 Hr5. exists c5. split_and!; [|by split|done].
  unfold get, mbind at 1, prog_bind at 1. rewrite prog_bind_err_if, remaining_rest, Hr5 by done.
  simpl. rewrite <- Hr, <- Hs. by destruct ck.
Qed.
Lemma decode_Ok_iff bytes ck :
  bytes_ok bytes → usize (len bytes) → decode bytes = Ok ck ↔ decodes_to bytes ck.
Proof.
  intros Hb Hu. unfold decode. split.
  - intros H. pose proof (decode_cursor_sound bytes Hb Hu) as Hs. unfold runs in Hs.
    destruct (decode_cursor _ _) as [[] ?]; by simplify_eq/=.
  - intros (c'&H&_)%decode_cursor_complete; [|done..]. by rewrite H.
Qed.
Lemma decode_no_panic bytes : bytes_ok bytes → usize (len bytes) → no_panic (decode bytes).
Proof. intros. eapply runs_no_panic. by apply decode_cursor_sound. Qed.

(** ** Byte ranges *)
Lemma bytes_ok_push_u16 z : bytes_ok (push_u16 z).
Proof. apply (to_le_bytes_ok 2). Qed.
Lemma bytes_ok_push_u32 z : bytes_ok (push_u32 z).
Proof. apply (to_le_bytes_ok 4). Qed.
Lemma bytes_ok_push_u64 z : bytes_ok (push_u64 z).
Proof. apply (to_le_bytes_ok 8). Qed.
Lemma bytes_ok_mbind {A} (f : A → list Z) l :
  Forall (λ x, bytes_ok (f x)) l → bytes_ok (l ≫= f).
Proof. induction 1; csimpl; [constructor|by apply bytes_ok_app]. Qed.
#[export] Hint Resolve bytes_ok_push_u16 bytes_ok_push_u32 bytes_ok_push_u64 : bytes.
Lemma bytes_ok_words l : bytes_ok (l ≫= push_u64).
Proof. apply bytes_ok_mbind, Forall_true. auto with bytes. Qed.
Lemma bytes_ok_segment s : kvm_segment_ok s → bytes_ok (wire_segment s).
Proof.
  intros (_&_&_&Ht&Hd&Hf&_). unfold wire_segment. do 3 (apply bytes_ok_app; [auto with bytes|]).
  rewrite !Forall_cons in Hf. unfold bytes_ok. rewrite !Forall_cons. unfold in_width.
  change (2 ^ 8) with 256. split_and!; try constructor; intuition lia.
Qed.
Lemma bytes_ok_dtable t : bytes_ok (wire_dtable t).
Proof. unfold wire_dtable. do 2 (apply bytes_ok_app; [auto with bytes|]). apply bytes_ok_replicate. ulia. Qed.
Lemma bytes_ok_header p m t : bytes_ok (encode_header p m t).
Proof.
  unfold encode_header. apply bytes_ok_app; [|eauto 12 with bytes].
  repeat (constructor; [ulia|]). constructor.
Qed.
Lemma bytes_ok_image pages regs sregs values :
  Forall page_wf pages → kvm_sregs_ok sregs → bytes_ok (image pages regs sregs values).
Proof.
  intros Hp (Hs&_). unfold image, wire_regs, wire_sregs, encode_registers.
  apply bytes_ok_app; [apply bytes_ok_header|]. apply bytes_ok_app.
  { apply bytes_ok_mbind. eapply Forall_impl; [exact Hp|]. intros p (_&_&_&_&Hb).
    unfold encode_page. auto with bytes. }
  apply bytes_ok_app; [apply bytes_ok_words|]. apply bytes_ok_app.
  - apply bytes_ok_app; [|do 2 (apply bytes_ok_app; [apply bytes_ok_dtable|]); apply bytes_ok_words].
    apply bytes_ok_mbind. eapply Forall_impl; [exact Hs|]. apply bytes_ok_segment.
  - apply bytes_ok_mbind, Forall_true. intros [i v]. unfold encode_msr. auto with bytes.
Qed.

(** Going through a snapshot keeps the register structures in range. *)
Lemma kvm_regs_ok_snapshot r : kvm_regs_ok r → kvm_regs_ok (to_kvm_regs (from_kvm_regs r)).
Proof. by destruct r. Qed.
Lemma canonical_segment_type_range t u :
  0 ≤ t ≤ 15 → 0 ≤ canonical_segment_type t u ≤ 15.
Proof.
  intros Ht. unfold canonical_segment_type. destruct (u =? 0); [done|].
  change SEGMENT_TYPE_BIT_ZERO with (Z.ones 1). rewrite (land_unot_ones 8 1) by ulia. dlia.
Qed.
Lemma kvm_segment_ok_snapshot s :
  kvm_segment_ok s → kvm_segment_ok (into_kvm_segment (from_kvm_segment s)).
Proof.
  intros (?&?&?&Ht&[? ?]&?&?). unfold kvm_segment_ok. simpl.
  pose proof (canonical_segment_type_range _ (sys.unusable s) Ht) as [? ?]. by split_and!.
Qed.
Lemma kvm_sregs_ok_snapshot s : kvm_sregs_ok s → kvm_sregs_ok (encode_snapshot (from_kvm_sregs s)).
Proof.
  intros (Hs&(?&?&?)&(?&?&?)&Hw). unfold kvm_sregs_ok, sregs_segments in *.
  rewrite !Forall_cons in Hs. rewrite !Forall_cons. destruct_and! Hs.
  split_and!; try done; by apply kvm_segment_ok_snapshot.
Qed.
Lemma total_length_usize pages msrs :
  0 ≤ pages ≤ BOUNDED_CHECKPOINT_PAGE_SET_LIMIT →
  0 ≤ msrs ≤ VERSIONED_PAGE_VCPU_CHECKPOINT_MSR_LIMIT → usize (total_length pages msrs).
Proof.
  unfold total_length, BOUNDED_CHECKPOINT_PAGE_SET_LIMIT, VERSIONED_PAGE_VCPU_CHECKPOINT_MSR_LIMIT,
    PAGE_RECORD_LEN, LONG_MODE_PAGE_SIZE, MSR_RECORD_LEN, HEADER_LEN, REGISTER_BLOCK_LEN,
    SPECIAL_REGISTER_BLOCK_LEN, SEGMENT_BLOCK_LEN, DTABLE_BLOCK_LEN, in_width. intros. lia.
Qed.

(** A well-formed checkpoint encodes to bytes that decode to it. *)
Lemma codec_roundtrip ck :
  ck_wf ck → ∃ bytes, encode ck = Ok bytes ∧ bytes_ok bytes ∧
    len bytes = total_length (len (ck_pages ck)) (len (ck_msrs ck)) ∧ decode bytes = Ok ck.
Proof.
  intros (Hp&Hr&Hs&Hc). eexists. split; [by apply encode_ok|].
  pose proof Hp as (Hn&Hpw&_&Hm&_).
  assert (bytes_ok (image (ck_pages ck) (to_kvm_regs (ck_registers ck))
    (encode_snapshot (ck_special_registers ck)) (ck_msrs ck))) as Hb by (by apply bytes_ok_image).
  split_and!; [done|by apply len_image|]. apply decode_Ok_iff; [done|..].
  - rewrite len_image by done. apply total_length_usize; [lia|]. pose proof (len_nonneg (ck_msrs ck)). lia.
  - do 2 eexists. split_and!; try done; [by rewrite from_to_kvm_regs|].
    by rewrite from_kvm_encode_snapshot.
Qed.
Lemma decodes_to_wf bytes ck : decodes_to bytes ck → ck_wf ck.
Proof.
  intros (regs&sregs&Hp&Hr&Hs&Hregs&Hsregs&_). unfold ck_wf. rewrite Hregs, Hsregs.
  split_and!; [done|by apply kvm_regs_ok_snapshot|by apply kvm_sregs_ok_snapshot|].
  apply from_kvm_sregs_canonical.
Qed.

(** ** From and to a live checkpoint *)
Lemma sort_by_index_perm values : sort_by_index values ≡ₚ values.
Proof. apply merge_sort_Permutation. Qed.
Lemma sort_by_index_sorted (values : list (Z * Z)) :
  NoDup values.*1 → StronglySorted Z.lt (sort_by_index values).*1.
Proof.
  intros Hnd. assert (NoDup (sort_by_index values).*1) as Hnd'
    by (by rewrite sort_by_index_perm).
  assert (StronglySorted index_le (sort_by_index values)) as Hs.
  { apply Sorted_StronglySorted; [intros ? ? ?; unfold index_le; lia|].
    apply Sorted_merge_sort. intros ? ?. unfold index_le. lia. }
  induction Hs as [|[i v] l Hs IH Hall]; csimpl in *; [constructor|].
  apply NoDup_cons in Hnd' as [Hi Hnd']. constructor; [by apply IH|].
  apply Forall_fmap, Forall_forall. intros [j w] Hj. simpl.
  pose proof (proj1 (Forall_forall _ _) Hall _ Hj) as Hle. unfold index_le in Hle. simpl in Hle.
  assert (i ≠ j); [|lia]. intros ->. apply Hi. change j with (fst (j, w)).
  by apply list_elem_of_fmap_2.
Qed.
Lemma sorted_lt_NoDup (l : list Z) : StronglySorted Z.lt l → NoDup l.
Proof.
  induction 1 as [|x l Hs IH Hall]; constructor; [|done].
  intros Hx. pose proof (proj1 (Forall_forall _ _) Hall _ Hx). lia.
Qed.
(** A live checkpoint that [from_checkpoint] can put in portable form. *)
Definition live_wf (c : BoundedVcpuPageSetCheckpoint) : Prop :=
  1 ≤ len (set_pages c) ≤ BOUNDED_CHECKPOINT_PAGE_SET_LIMIT ∧ Forall page_wf (set_pages c) ∧
  StronglySorted Z.lt (page_address <$> set_pages c) ∧
  kvm_regs_ok (to_kvm_regs (registers (set_vcpu c))) ∧
  kvm_sregs_ok (encode_snapshot (special_registers (set_vcpu c))) ∧
  sregs_canonical (special_registers (set_vcpu c)) ∧
  len (snapshot_values (msrs (set_vcpu c))) ≤ VERSIONED_PAGE_VCPU_CHECKPOINT_MSR_LIMIT ∧
  Forall msr_typed (snapshot_values (msrs (set_vcpu c))) ∧
  NoDup (snapshot_values (msrs (set_vcpu c))).*1.
Lemma from_checkpoint_ok c :
  live_wf c → ∃ ck, from_checkpoint c = Ok ck ∧ ck_wf ck ∧ ck_pages ck = set_pages c ∧
    ck_registers ck = registers (set_vcpu c) ∧
    ck_special_registers ck = special_registers (set_vcpu c) ∧
    ck_msrs ck = sort_by_index (snapshot_values (msrs (set_vcpu c))).
Proof.
  intros (Hn&Hp&Hs&Hr&Hsr&Hc&Hm&Ht&Hnd). pose proof (sort_by_index_sorted _ Hnd) as Hsort.
  unfold from_checkpoint.
  rewrite (proj2 (validate_pages_Ok _ (Forall_impl _ _ _ Hp page_wf_typed))) by done.
  cbn [mbind res_bind]. rewrite (proj2 (Z.ltb_ge _ _)) by done. cbn [err_if mbind res_bind].
  rewrite (proj2 (validate_msr_order_Ok _)) by done. cbn [mbind res_bind].
  eexists. split; [done|]. split_and!; try done.
  unfold ck_wf, payload_wf. cbn [ck_pages ck_msrs ck_registers ck_special_registers].
  split_and!; try done; try lia.
  - unfold len. by rewrite sort_by_index_perm.
  - by rewrite sort_by_index_perm.
Qed.
Lemma materialize_msrs_ok host values :
  StronglySorted Z.lt values.*1 → values.*1 ⊆ host_indices host →
  ∃ snap, materialize_msrs host values = Ok snap ∧ snapshot_values snap = values ∧ snapshot_wf snap.
Proof.
  intros Hs Hsub. unfold materialize_msrs.
  set (policy := {| policy_entries :=
    (λ i, {| access_index := i; access_authority := ReadWrite |}) <$> values.*1 |}).
  assert (from_host host values.*1 = Ok policy) as Hp.
  { apply from_host_Ok. split_and!; [by apply sorted_lt_NoDup|done|done]. }
  destruct (snapshot_of_pairs _ _ _ Hp) as (vs&Hvs&Hv&Hc).
  rewrite Hp. simpl. rewrite Hvs. simpl. rewrite Hc. simpl. eexists. split; [done|].
  split; [|by apply from_capture_Ok in Hc as [_ ?]].
  unfold snapshot_values. simpl. rewrite Hv, <- list_fmap_compose.
  etransitivity; [|apply list_fmap_id]. apply list_fmap_ext. by intros ? [??] ?.
Qed.
Lemma materialize_checkpoint_ok host ck :
  ck_wf ck → (ck_msrs ck).*1 ⊆ host_indices host →
  ∃ c, materialize_checkpoint host ck = Ok c ∧ set_pages c = ck_pages ck ∧
    registers (set_vcpu c) = ck_registers ck ∧
    special_registers (set_vcpu c) = ck_special_registers ck ∧
    snapshot_values (msrs (set_vcpu c)) = ck_msrs ck ∧ snapshot_wf (msrs (set_vcpu c)).
Proof.
  intros ((Hn&Hp&Hs&_&_&Hms)&_) Hsub. unfold materialize_checkpoint.
  rewrite (proj2 (validate_pages_Ok _ (Forall_impl _ _ _ Hp page_wf_typed))) by done.
  cbn [mbind res_bind]. rewrite (proj2 (validate_msr_order_Ok _)) by done. cbn [mbind res_bind].
  destruct (materialize_msrs_ok host (ck_msrs ck) Hms Hsub) as (snap&->&Hv&Hwf).
  eexists. by split_and!.
Qed.

(** * Properties *)

(** A checkpoint of one page, with an unusable segment and one MSR. *)
Definition sample_page : BoundedCheckpointPage :=
  {| page_address := 0x1000; page_bytes := replicate (Z.to_nat LONG_MODE_PAGE_SIZE) 0 |}.
Definition sample_segment (t : Z) : sys.KvmSegment := {|
  sys.base := 0; sys.limit := 0; sys.selector := 0; sys.type_ := t; sys.present := 0;
  sys.dpl := 0; sys.db := 0; sys.s := 0; sys.l := 0; sys.g := 0; sys.avl := 0;
  sys.unusable := 1; sys.padding := 0 |}.
Definition sample_sregs (t : Z) : sys.KvmSregs := {|
  sys.cs := sample_segment t; sys.ds := sample_segment 2; sys.es := sample_segment 2;
  sys.fs := sample_segment 2; sys.gs := sample_segment 2; sys.ss := sample_segment 2;
  sys.tr := sample_segment 2; sys.ldt := sample_segment 2;
  sys.gdt := sys.gdt zero_sregs; sys.idt := sys.idt zero_sregs;
  sys.cr0 := 1; sys.cr2 := 0; sys.cr3 := 0x2000; sys.cr4 := 0x20; sys.cr8 := 0; sys.efer := 0x500;
  sys.apic_base := 0; sys.interrupt_bitmap := sys.interrupt_bitmap zero_sregs |}.
Definition sample_ck : VersionedPageVcpuCheckpointV1 := {|
  ck_pages := [sample_page]; ck_registers := from_kvm_regs zero_regs;
  ck_special_registers := from_kvm_sregs (sample_sregs 2); ck_msrs := [(0x10, 5)] |}.
Lemma sample_page_wf : page_wf sample_page.
Proof.
  unfold page_wf, sample_page. cbn [page_address page_bytes].
  split_and!; [done|done|done| |apply bytes_ok_replicate; ulia].
  rewrite len_replicate. by apply Z2Nat.id.
Qed.
Lemma sample_sregs_ok t : 0 ≤ t ≤ 15 → kvm_sregs_ok (sample_sregs t).
Proof.
  intros Ht. unfold kvm_sregs_ok, sregs_segments, sregs_words, kvm_segment_ok, kvm_dtable_ok.
  rewrite !Forall_cons. simpl. unfold in_width.
  split_and!; try apply Forall_nil_2; try done; lia.
Qed.
Lemma sample_ck_wf : ck_wf sample_ck.
Proof.
  unfold ck_wf, payload_wf, sample_ck. cbn [ck_pages ck_msrs ck_registers ck_special_registers].
  split_and!; try done.
  - apply Forall_singleton, sample_page_wf.
  - repeat constructor.
  - apply Forall_singleton. unfold msr_typed, in_width. simpl. lia.
  - repeat constructor.
  - unfold kvm_regs_ok, REGISTER_FIELDS. rewrite !Forall_cons. unfold in_width. simpl.
    split_and!; try apply Forall_nil_2; lia.
  - apply kvm_sregs_ok_snapshot, sample_sregs_ok. lia.
  - apply from_kvm_sregs_canonical.
Qed.

(** A well-formed checkpoint survives its portable form: [encode] succeeds, the
    bytes have the length the header announces, and [decode] returns the
    checkpoint with every page, register and MSR unchanged. *)
Theorem checkpoint_codec_roundtrip ck :
  ck_wf ck → ∃ bytes, encode ck = Ok bytes ∧
    len bytes = total_length (len (ck_pages ck)) (len (ck_msrs ck)) ∧ decode bytes = Ok ck.
Proof. intros (bs&?&_&?&?)%codec_roundtrip. by exists bs. Qed.
Lemma checkpoint_codec_roundtrip_witness :
  ∃ bytes, encode sample_ck = Ok bytes ∧
    len bytes = total_length (len (ck_pages sample_ck)) (len (ck_msrs sample_ck)) ∧
    decode bytes = Ok sample_ck.
Proof. exact (checkpoint_codec_roundtrip sample_ck sample_ck_wf). Defined.

(** [decode] is safe on arbitrary bytes: it never panics, and whatever it
    accepts is a well-formed checkpoint (between one and eight aligned pages in
    strictly increasing order, at most 256 MSRs in strictly increasing order,
    register fields in range) that [encode] accepts again, giving bytes of the
    same length that decode to the same checkpoint. *)
Theorem checkpoint_decode_spec bytes :
  bytes_ok bytes → usize (len bytes) →
  no_panic (decode bytes) ∧
  ∀ ck, decode bytes = Ok ck → ck_wf ck ∧
    ∃ bytes', encode ck = Ok bytes' ∧ len bytes' = len bytes ∧ decode bytes' = Ok ck.
Proof.
  intros Hb Hu. split; [by apply decode_no_panic|].
  intros ck H%decode_Ok_iff; [|done..]. pose proof (decodes_to_wf _ _ H) as Hwf. split; [done|].
  destruct (codec_roundtrip ck Hwf) as (bs&He&_&Hl&Hd). exists bs. split_and!; [done| |done].
  destruct H as (regs&sregs&(_&Hp&_)&_&_&_&_&->). by rewrite len_image.
Qed.
Lemma checkpoint_decode_spec_witness : no_panic (decode [77; 72; 86]).
Proof.
  apply (checkpoint_decode_spec [77; 72; 86]).
  - apply (Forall_impl (λ b, 0 ≤ b < 256)); [|intros; unfold in_width; lia].
    repeat (constructor; [lia|]). constructor.
  - split; [discriminate|reflexivity].
Defined.

(** The portable form is not canonical: there are two different byte strings
    that [decode] accepts as the same checkpoint, because the inactive type bit
    of an unusable segment is cleared after decoding and not refused. *)
Theorem checkpoint_decode_not_canonical :
  ∃ bytes bytes' ck, bytes ≠ bytes' ∧ len bytes = len bytes' ∧
    decode bytes = Ok ck ∧ decode bytes' = Ok ck ∧ encode ck = Ok bytes'.
Proof.
  set (img := λ t, image [sample_page] zero_regs (sample_sregs t) [(0x10, 5)]).
  assert (Forall page_wf [sample_page]) as Hp by (apply Forall_singleton, sample_page_wf).
  assert (∀ t, 2 ≤ t ≤ 3 → decode (img t) = Ok sample_ck) as Hdec.
  { intros t Ht. pose proof (sample_sregs_ok t ltac:(lia)) as Hs.
    assert (bytes_ok (img t)) as Hb by exact (bytes_ok_image _ _ _ _ Hp Hs).
    apply (decode_Ok_iff _ _ Hb).
    - unfold img. rewrite (len_image _ _ _ _ Hp). by apply total_length_usize.
    - exists zero_regs, (sample_sregs t). pose proof sample_ck_wf as (Hpay&Hregs&_).
      split; [exact Hpay|]. split; [exact Hregs|]. split; [exact Hs|]. split; [reflexivity|].
      split; [|reflexivity]. assert (t = 2 ∨ t = 3) as [->| ->] by lia; reflexivity. }
  exists (img 3), (img 2), sample_ck. split_and!.
  - unfold img, image. intros [Hh H]%app_inj_1; [|done]. apply app_inv_head, app_inv_head in H.
    unfold wire_sregs in H. rewrite <- !app_assoc in H. discriminate H.
  - unfold img. by rewrite !len_image.
  - by apply Hdec.
  - by apply Hdec.
  - rewrite encode_ok; [done|]. apply sample_ck_wf.
Qed.

(** A live checkpoint comes back from its portable form.  If the host offers the
    checkpoint's MSRs, then putting it in portable form, encoding, decoding and
    materializing all succeed, and the result has the same pages and registers and
    the same MSR values, ordered by index. *)
Theorem checkpoint_portable_roundtrip host c :
  live_wf c → (snapshot_values (msrs (set_vcpu c))).*1 ⊆ host_indices host →
  ∃ ck bytes c', from_checkpoint c = Ok ck ∧ encode ck = Ok bytes ∧ decode bytes = Ok ck ∧
    materialize_checkpoint host ck = Ok c' ∧ set_pages c' = set_pages c ∧
    registers (set_vcpu c') = registers (set_vcpu c) ∧
    special_registers (set_vcpu c') = special_registers (set_vcpu c) ∧
    snapshot_values (msrs (set_vcpu c')) ≡ₚ snapshot_values (msrs (set_vcpu c)) ∧
    StronglySorted Z.lt (snapshot_values (msrs (set_vcpu c'))).*1.
Proof.
  intros Hlive Hsub. destruct (from_checkpoint_ok c Hlive) as (ck&Hf&Hwf&Hp&Hr&Hs&Hm).
  destruct (codec_roundtrip ck Hwf) as (bs&He&_&_&Hd).
  destruct (materialize_checkpoint_ok host ck Hwf) as (c'&Hc&Hp'&Hr'&Hs'&Hm'&_).
  { rewrite Hm. intros i Hi. apply Hsub. by rewrite sort_by_index_perm in Hi. }
  exists ck, bs, c'. split_and!; try done; try congruence.
  - rewrite Hm', Hm. apply sort_by_index_perm.
  - rewrite Hm'. apply Hwf.
Qed.
Definition sample_live : BoundedVcpuPageSetCheckpoint := {|
  set_pages := [sample_page];
  set_vcpu := {| registers := from_kvm_regs zero_regs;
    special_registers := from_kvm_sregs (sample_sregs 2);
    msrs := {| snap_policy := sample_policy;
      snap_values := {| msr_values := [{| msr_index := 0x10; msr_value := 5 |}] |} |} |} |}.
Lemma sample_live_wf : live_wf sample_live.
Proof.
  pose proof sample_ck_wf as ((?&?&?&?&?&?)&?&?&?). unfold live_wf.
  do 8 (split; [assumption|]). apply NoDup_singleton.
Qed.
Lemma checkpoint_portable_roundtrip_witness :
  ∃ ck bytes c', from_checkpoint sample_live = Ok ck ∧ encode ck = Ok bytes ∧
    decode bytes = Ok ck ∧
    materialize_checkpoint {| host_indices := [0x10; 0x1b] |} ck = Ok c' ∧
    set_pages c' = set_pages sample_live.
Proof.
  destruct (checkpoint_portable_roundtrip {| host_indices := [0x10; 0x1b] |} sample_live
    sample_live_wf) as (ck&bs&c'&H1&H2&H3&H4&H5&_).
  { intros i Hi. cbn in Hi. cbn. apply elem_of_cons in Hi as [->|Hi]; [left|by apply elem_of_nil in Hi]. }
  exists ck, bs, c'. exact (conj H1 (conj H2 (conj H3 (conj H4 H5)))).
Defined.
