(* ===== verification/VcpuRun.v ===== *)
(** The shared [kvm_run] page: which exit KVM reports, the typed payload of each
    exit and the responses written back ([src/src/vcpu.rs] and
    [src/src/vcpu/mmio.rs], [kvm_unknown.rs], [exception.rs], [fail_entry.rs],
    [internal_error.rs], [system_event.rs]).

    The mapping is its bytes.  The [repr(C)] views the sources cast it to are
    reads of little-endian fields at their offsets; a read or a copy that is
    not inside the mapping is a [Panic] here, so that a proof that nothing
    panics is a proof that the unsafe blocks stay inside the mapping. *)

From S2P Require Import Prelude Errors.

(** * Exit reasons *)
Definition KVM_EXIT_UNKNOWN : Z := 0.
Definition KVM_EXIT_EXCEPTION : Z := 1.
Definition KVM_EXIT_IO : Z := 2.
Definition KVM_EXIT_DEBUG : Z := 4.
Definition KVM_EXIT_HLT : Z := 5.
Definition KVM_EXIT_MMIO : Z := 6.
Definition KVM_EXIT_SHUTDOWN : Z := 8.
Definition KVM_EXIT_FAIL_ENTRY : Z := 9.
Definition KVM_EXIT_INTERNAL_ERROR : Z := 17.
Definition KVM_EXIT_SYSTEM_EVENT : Z := 24.

Inductive VcpuExit :=
  | KvmUnknown | Exception | ExitDebug | Hlt | ExitIo | ExitMmio | Shutdown | FailEntry
  | InternalError | SystemEvent | ExitUnhandled (reason : Z).
Definition exit_from_raw (reason : Z) : VcpuExit :=
  if reason =? KVM_EXIT_UNKNOWN then KvmUnknown
  else if reason =? KVM_EXIT_EXCEPTION then Exception
  else if reason =? KVM_EXIT_DEBUG then ExitDebug
  else if reason =? KVM_EXIT_IO then ExitIo
  else if reason =? KVM_EXIT_HLT then Hlt
  else if reason =? KVM_EXIT_MMIO then ExitMmio
  else if reason =? KVM_EXIT_SHUTDOWN then Shutdown
  else if reason =? KVM_EXIT_FAIL_ENTRY then FailEntry
  else if reason =? KVM_EXIT_INTERNAL_ERROR then InternalError
  else if reason =? KVM_EXIT_SYSTEM_EVENT then SystemEvent
  else ExitUnhandled reason.
Definition exit_reason_of (exit : VcpuExit) : Z :=
  match exit with
  | KvmUnknown => KVM_EXIT_UNKNOWN
  | Exception => KVM_EXIT_EXCEPTION
  | ExitDebug => KVM_EXIT_DEBUG
  | ExitIo => KVM_EXIT_IO
  | Hlt => KVM_EXIT_HLT
  | ExitMmio => KVM_EXIT_MMIO
  | Shutdown => KVM_EXIT_SHUTDOWN
  | FailEntry => KVM_EXIT_FAIL_ENTRY
  | InternalError => KVM_EXIT_INTERNAL_ERROR
  | SystemEvent => KVM_EXIT_SYSTEM_EVENT
  | ExitUnhandled reason => reason
  end.

(** * The mapping *)
Abbreviation RunMapping := (list Z) (only parsing).
(** [size_of] of the typed prefixes: a 16-byte header, [cr8], [apic_base] and
    the exit payload at offset 32. *)
Definition PAYLOAD : Z := 32.
Definition IO_PREFIX_SIZE : Z := PAYLOAD + 16.
Definition UNKNOWN_PREFIX_SIZE : Z := PAYLOAD + 8.
Definition EXCEPTION_PREFIX_SIZE : Z := PAYLOAD + 8.
Definition FAIL_ENTRY_PREFIX_SIZE : Z := PAYLOAD + 16.
Definition INTERNAL_ERROR_PREFIX_SIZE : Z := PAYLOAD + 8 + 16 * 8.
Definition SYSTEM_EVENT_PREFIX_SIZE : Z := PAYLOAD + 8 + 16 * 8.
Definition MMIO_PREFIX_SIZE : Z := PAYLOAD + 24.
Definition required_kvm_run_prefix_size : Z :=
  foldl Z.max IO_PREFIX_SIZE [UNKNOWN_PREFIX_SIZE; EXCEPTION_PREFIX_SIZE; FAIL_ENTRY_PREFIX_SIZE;
    INTERNAL_ERROR_PREFIX_SIZE; SYSTEM_EVENT_PREFIX_SIZE; MMIO_PREFIX_SIZE].
(** [KvmRunMapping::map]: [pages] is what [mmap] returns for the length. *)
Definition run_map (mmap : Z → res io_error RunMapping) (length : Z) : res io_error RunMapping :=
  err_if (length <? required_kvm_run_prefix_size)
    (Custom InvalidInput (Message "kvm_run mmap length is smaller than the required x86 exit payload prefix"));;
  mmap length.

(** A little-endian field of [n] bytes. *)
Definition run_field (run : RunMapping) (offset n : Z) : res Error Z :=
  bytes ← slice run offset (offset + n); mret (from_le_bytes bytes).
Definition exit_reason (run : RunMapping) : res Error Z := run_field run 8 4.
(** The words of a fixed [u64] array. *)
Fixpoint run_words (run : RunMapping) (offset : Z) (n : nat) : res Error (list Z) :=
  match n with
  | O => mret []
  | S n => w ← run_field run offset 8; ws ← run_words run (offset + 8) n; mret (w :: ws)
  end.

(** [debug_assert!(self.len >= required_kvm_run_prefix_size())] of each view. *)
Definition view {A} (run : RunMapping) (size : Z) (m : res Error A) : res Error A :=
  debug_assert (size <=? len run);; m.
Definition require_reason (run : RunMapping) (expected : Z) (e : Z → VmExitError) : res Error unit :=
  reason ← exit_reason run;
  err_if (negb (reason =? expected)) (VmExit (e reason)).

(** * Port I/O *)
Inductive PortIoDirection := IoIn | IoOut.
#[global] Instance PortIoDirection_eq_dec : EqDecision PortIoDirection.
Proof. solve_decision. Defined.
Definition io_direction_raw (d : PortIoDirection) : Z := match d with IoIn => 0 | IoOut => 1 end.
Record PortIoExit := {
  io_direction : PortIoDirection; io_size : Z; io_port : Z; io_count : Z; output_data : list Z
}.
Record KvmRunIo := {
  raw_direction : Z; raw_size : Z; raw_port : Z; raw_count : Z; data_offset : Z
}.
Definition run_io (run : RunMapping) : res Error KvmRunIo :=
  direction ← run_field run 32 1; size ← run_field run 33 1; port ← run_field run 34 2;
  count ← run_field run 36 4; offset ← run_field run 40 8;
  mret {| raw_direction := direction; raw_size := size; raw_port := port; raw_count := count;
          data_offset := offset |}.
Definition port_io_direction (id raw : Z) : res Error PortIoDirection :=
  if raw =? 0 then Ok IoIn
  else if raw =? 1 then Ok IoOut
  else Err (VmExit (InvalidIoDirection id raw)).
Definition checked_io_data_range (id : Z) (io : KvmRunIo) (mapping_size : Z) : res Error (Z * Z) :=
  let invalid :=
    VmExit (InvalidIoDataRange id (data_offset io) (raw_size io) (raw_count io) mapping_size) in
  offset ← ok_or (try_from 64 (data_offset io)) invalid;
  count ← ok_or (try_from 64 (raw_count io)) invalid;
  length ← ok_or (checked_mul 64 (raw_size io) count) invalid;
  end_ ← ok_or (checked_add 64 offset length) invalid;
  err_if (mapping_size <? end_) invalid;;
  mret (offset, end_).
Definition checked_io_response_range (id : Z) (io : KvmRunIo) (mapping_size response_len : Z) :
  res Error (Z * Z) :=
  direction ← port_io_direction id (raw_direction io);
  err_if (bool_decide (direction ≠ IoIn)) (VmExit (IoResponseForNonInput id (raw_direction io)));;
  '(start, end_) ← checked_io_data_range id io mapping_size;
  err_if (negb (response_len =? end_ - start))
    (VmExit (InvalidIoResponseLength id (raw_port io) (end_ - start) response_len));;
  mret (start, end_).
Definition port_io_exit (id : Z) (run : RunMapping) : res Error PortIoExit :=
  require_reason run KVM_EXIT_IO (IoPayloadUnavailable id);;
  io ← run_io run;
  direction ← port_io_direction id (raw_direction io);
  '(start, end_) ← checked_io_data_range id io (len run);
  output ← (if decide (direction = IoOut) then slice run start end_ else Ok []);
  mret {| io_direction := direction; io_size := raw_size io; io_port := raw_port io;
          io_count := raw_count io; output_data := output |}.
(** [copy_nonoverlapping] into the mapping. *)
Definition run_copy (run : RunMapping) (start : Z) (bytes : list Z) : res Error RunMapping :=
  if start + len bytes <=? len run then Ok (splice run start bytes) else Panic.
Definition write_port_io_input (id : Z) (response : list Z) (run : RunMapping) :
  res Error RunMapping :=
  require_reason run KVM_EXIT_IO (IoPayloadUnavailable id);;
  io ← run_io run;
  '(start, _) ← checked_io_response_range id io (len run) (len response);
  if len response =? 0 then Ok run else run_copy run start response.

(** * MMIO *)
Definition KVM_MMIO_DATA_CAPACITY : Z := 8.
Inductive MmioDirection := MmioRead | MmioWrite.
#[global] Instance MmioDirection_eq_dec : EqDecision MmioDirection.
Proof. solve_decision. Defined.
Definition mmio_direction_raw (d : MmioDirection) : Z := match d with MmioRead => 0 | MmioWrite => 1 end.
Record MmioExit := {
  mmio_address : Z; mmio_direction : MmioDirection; mmio_length : Z; write_data : list Z
}.
Record KvmRunMmio := { phys_addr : Z; mmio_data : list Z; mmio_len : Z; is_write : Z }.
Definition run_mmio (run : RunMapping) : res Error KvmRunMmio :=
  address ← run_field run 32 8; data ← slice run 40 48; length ← run_field run 48 4;
  write ← run_field run 52 1;
  mret {| phys_addr := address; mmio_data := data; mmio_len := length; is_write := write |}.
Definition mmio_direction_of (id is_write : Z) : res Error MmioDirection :=
  if is_write =? 0 then Ok MmioRead
  else if is_write =? 1 then Ok MmioWrite
  else Err (VmExit (InvalidMmioDirection id is_write)).
Definition checked_mmio_length (id address length : Z) : res Error Z :=
  let invalid := VmExit (InvalidMmioLength id address length KVM_MMIO_DATA_CAPACITY) in
  length_usize ← ok_or (try_from 64 length) invalid;
  err_if ((length_usize =? 0) || (KVM_MMIO_DATA_CAPACITY <? length_usize)) invalid;;
  mret length_usize.
Definition decode_mmio (id : Z) (raw : KvmRunMmio) : res Error MmioExit :=
  direction ← mmio_direction_of id (is_write raw);
  length ← checked_mmio_length id (phys_addr raw) (mmio_len raw);
  data ← (if decide (direction = MmioWrite) then slice (mmio_data raw) 0 length else Ok []);
  mret {| mmio_address := phys_addr raw; mmio_direction := direction;
          mmio_length := mmio_len raw; write_data := data |}.
Definition mmio_exit (id : Z) (run : RunMapping) : res Error MmioExit :=
  require_reason run KVM_EXIT_MMIO (MmioPayloadUnavailable id);;
  view run MMIO_PREFIX_SIZE (raw ← run_mmio run; decode_mmio id raw).
Definition write_mmio_read_response (id : Z) (response : list Z) (run : RunMapping) :
  res Error RunMapping :=
  require_reason run KVM_EXIT_MMIO (MmioPayloadUnavailable id);;
  view run MMIO_PREFIX_SIZE (
    raw ← run_mmio run;
    direction ← mmio_direction_of id (is_write raw);
    err_if (bool_decide (direction ≠ MmioRead)) (VmExit (MmioResponseForWrite id (phys_addr raw)));;
    length ← checked_mmio_length id (phys_addr raw) (mmio_len raw);
    err_if (negb (len response =? length))
      (VmExit (InvalidMmioResponseLength id (phys_addr raw) length (len response)));;
    run_copy run 40 response).

(** * Exits that stop the run loop *)
Definition kvm_unknown_exit (id : Z) (run : RunMapping) : res Error Z :=
  require_reason run KVM_EXIT_UNKNOWN (KvmUnknownPayloadUnavailable id);;
  view run UNKNOWN_PREFIX_SIZE (run_field run 32 8).
Definition exception_exit (id : Z) (run : RunMapping) : res Error (Z * Z) :=
  require_reason run KVM_EXIT_EXCEPTION (ExceptionPayloadUnavailable id);;
  view run EXCEPTION_PREFIX_SIZE (
    exception ← run_field run 32 4; error_code ← run_field run 36 4; mret (exception, error_code)).
Definition fail_entry (id : Z) (run : RunMapping) : res Error (Z * Z) :=
  require_reason run KVM_EXIT_FAIL_ENTRY (FailEntryPayloadUnavailable id);;
  view run FAIL_ENTRY_PREFIX_SIZE (
    reason ← run_field run 32 8; cpu ← run_field run 40 4; mret (reason, cpu)).

(** ** Internal errors *)
Definition KVM_INTERNAL_ERROR_DATA_CAPACITY : Z := 16.
Definition KVM_INTERNAL_ERROR_EMULATION : Z := 1.
Definition KVM_INTERNAL_ERROR_EMULATION_FLAG_INSTRUCTION_BYTES : Z := 1.
Definition KVM_INTERNAL_ERROR_EMULATION_OVERLAY_WORDS : Z := 3.
Definition KVM_INTERNAL_ERROR_EMULATION_INSTRUCTION_BYTES_CAPACITY : Z := 15.
Inductive VcpuInternalErrorSuberror :=
  | Emulation | SimultaneousExceptions | DeliveryEvent | UnexpectedExitReason
  | UnknownSuberror (raw : Z).
#[global] Instance VcpuInternalErrorSuberror_eq_dec : EqDecision VcpuInternalErrorSuberror.
Proof. solve_decision. Defined.
Definition suberror_from_raw (raw : Z) : VcpuInternalErrorSuberror :=
  if raw =? 1 then Emulation
  else if raw =? 2 then SimultaneousExceptions
  else if raw =? 3 then DeliveryEvent
  else if raw =? 4 then UnexpectedExitReason
  else UnknownSuberror raw.
Definition suberror_raw (s : VcpuInternalErrorSuberror) : Z :=
  match s with
  | Emulation => 1 | SimultaneousExceptions => 2 | DeliveryEvent => 3
  | UnexpectedExitReason => 4 | UnknownSuberror raw => raw
  end.
Record VcpuInternalError := {
  suberror : Z; data_available : bool; data_count : Z; internal_data : list Z
}.
Definition internal_error_data (e : VcpuInternalError) : res Error (option (list Z)) :=
  if data_available e then Some <$> slice (internal_data e) 0 (data_count e) else Ok None.
Definition decode_internal_error_base (raw_suberror : Z) : VcpuInternalError :=
  {| suberror := raw_suberror; data_available := false; data_count := 0;
     internal_data := replicate 16 0 |}.
Definition decode_internal_error_with_data (id raw_suberror ndata : Z) (data : list Z) :
  res Error VcpuInternalError :=
  count ← expect (try_from 64 ndata);
  err_if (KVM_INTERNAL_ERROR_DATA_CAPACITY <? count)
    (VmExit (InvalidInternalErrorDataCount id raw_suberror ndata KVM_INTERNAL_ERROR_DATA_CAPACITY
      [KVM_EXIT_INTERNAL_ERROR]));;
  words ← slice data 0 count;
  mret {| suberror := raw_suberror; data_available := true; data_count := count;
          internal_data := splice (replicate 16 0) 0 words |}.
Definition internal_error (id : Z) (supports_optional_data : bool) (run : RunMapping) :
  res Error VcpuInternalError :=
  require_reason run KVM_EXIT_INTERNAL_ERROR (InternalErrorPayloadUnavailable id);;
  if supports_optional_data then
    view run INTERNAL_ERROR_PREFIX_SIZE (
      raw_suberror ← run_field run 32 4; ndata ← run_field run 36 4; data ← run_words run 40 16;
      decode_internal_error_with_data id raw_suberror ndata data)
  else
    view run (PAYLOAD + 8) (decode_internal_error_base <$> run_field run 32 4).
(** The instruction bytes KVM overlays on words 1 and 2 of an emulation failure. *)
Definition emulation_instruction_overlay (e : VcpuInternalError) : res Error (option (Z * list Z)) :=
  if decide (suberror_from_raw (suberror e) ≠ Emulation) then Ok None
  else
    data ← internal_error_data e;
    match data with
    | None => Ok None
    | Some data =>
        if len data <? KVM_INTERNAL_ERROR_EMULATION_OVERLAY_WORDS then Ok None
        else
          flags ← index data 0;
          if Z.land flags KVM_INTERNAL_ERROR_EMULATION_FLAG_INSTRUCTION_BYTES =? 0 then Ok None
          else
            first ← to_le_bytes 8 <$> index data 1;
            second ← to_le_bytes 8 <$> index data 2;
            size ← index first 0;
            tail ← slice first 1 8;
            mret (Some (size, tail ++ second))
    end.
Definition emulation_instruction_bytes (e : VcpuInternalError) : res Error (option (list Z)) :=
  overlay ← emulation_instruction_overlay e;
  match overlay with
  | None => Ok None
  | Some (size, bytes) =>
      if KVM_INTERNAL_ERROR_EMULATION_INSTRUCTION_BYTES_CAPACITY <? size then Ok None
      else Some <$> slice bytes 0 size
  end.

(** ** System events *)
Definition KVM_SYSTEM_EVENT_DATA_CAPACITY : Z := 16.
Inductive VcpuSystemEventType :=
  | EventShutdown | EventReset | EventCrash | EventWakeup | EventSuspend | EventSevTerm
  | EventTdxFatal | EventUnknown (raw : Z).
Definition system_event_type_from_raw (raw : Z) : VcpuSystemEventType :=
  if raw =? 1 then EventShutdown
  else if raw =? 2 then EventReset
  else if raw =? 3 then EventCrash
  else if raw =? 4 then EventWakeup
  else if raw =? 5 then EventSuspend
  else if raw =? 6 then EventSevTerm
  else if raw =? 7 then EventTdxFatal
  else EventUnknown raw.
Definition system_event_type_raw (t : VcpuSystemEventType) : Z :=
  match t with
  | EventShutdown => 1 | EventReset => 2 | EventCrash => 3 | EventWakeup => 4
  | EventSuspend => 5 | EventSevTerm => 6 | EventTdxFatal => 7 | EventUnknown raw => raw
  end.
Definition decode_system_event (id type_ ndata : Z) (data : list Z) :
  res Error (VcpuSystemEventType * list Z) :=
  count ← expect (try_from 64 ndata);
  err_if (KVM_SYSTEM_EVENT_DATA_CAPACITY <? count)
    (VmExit (InvalidSystemEventDataCount id ndata KVM_SYSTEM_EVENT_DATA_CAPACITY
      [KVM_EXIT_SYSTEM_EVENT]));;
  words ← slice data 0 count;
  mret (system_event_type_from_raw type_, words).
Definition system_event (id : Z) (run : RunMapping) : res Error (VcpuSystemEventType * list Z) :=
  require_reason run KVM_EXIT_SYSTEM_EVENT (SystemEventPayloadUnavailable id);;
  view run SYSTEM_EVENT_PREFIX_SIZE (
    type_ ← run_field run 32 4; ndata ← run_field run 36 4; data ← run_words run 40 16;
    decode_system_event id type_ ndata data).

(** * Facts *)
Definition run_wf (run : list Z) : Prop :=
  required_kvm_run_prefix_size ≤ len run ∧ usize (len run) ∧ bytes_ok run.
Definition field_at (run : list Z) (offset n : Z) : Z :=
  from_le_bytes (take (Z.to_nat n) (drop (Z.to_nat offset) run)).
Lemma run_field_ok run offset n :
  0 ≤ offset → 0 ≤ n → offset + n ≤ len run → run_field run offset n = Ok (field_at run offset n).
Proof.
  intros. unfold run_field, field_at. rewrite slice_ok by lia. simpl.
  by replace (offset + n - offset) with n by lia.
Qed.
Lemma field_at_bound run offset n :
  bytes_ok run → 0 ≤ n → 0 ≤ field_at run offset n < 2 ^ (8 * n).
Proof.
  intros Hb Hn. unfold field_at. set (bs := take _ _).
  assert (bytes_ok bs) as Hbs by (subst bs; eauto with bytes).
  pose proof (from_le_bytes_bound bs Hbs) as [H0 H1].
  split; [done|]. eapply Z.lt_le_trans; [exact H1|]. apply Z.pow_le_mono_r; [lia|].
  subst bs. autorewrite with bytes. lia.
Qed.
Lemma run_words_ok run n : ∀ offset,
  0 ≤ offset → offset + 8 * Z.of_nat n ≤ len run →
  ∃ ws, run_words run offset n = Ok ws ∧ len ws = Z.of_nat n ∧
    ∀ i : nat, (i < n)%nat → ws !! i = Some (field_at run (offset + 8 * Z.of_nat i) 8).
Proof.
  induction n as [|n IH]; intros offset H0 Hl; cbn [run_words].
  { exists []. split_and!; [done|done|lia]. }
  rewrite run_field_ok by lia. destruct (IH (offset + 8)) as (ws&->&Hlen&Hws); [lia|lia|].
  eexists. split_and!; [done|rewrite len_cons; lia|].
  intros [|i] Hi; simpl; [do 2 f_equal; lia|]. rewrite Hws by lia. do 2 f_equal. lia.
Qed.
Lemma required_size_val : required_kvm_run_prefix_size = 168.
Proof. done. Qed.

Section views.
Context (run : list Z) (Hwf : run_wf run).
Let Hlen : 168 ≤ len run := proj1 Hwf.

Lemma exit_reason_ok : exit_reason run = Ok (field_at run 8 4).
Proof using Hwf. apply run_field_ok; lia. Qed.
Lemma no_panic_field offset n :
  0 ≤ offset → 0 ≤ n → offset + n ≤ 168 → no_panic (run_field run offset n).
Proof using Hwf. intros. by rewrite run_field_ok by lia. Qed.
Lemma no_panic_words : no_panic (run_words run 40 16).
Proof using Hwf. destruct (run_words_ok run 16 40) as (ws&->&_); [lia|lia|done]. Qed.
Lemma no_panic_require expected e : no_panic (require_reason run expected e).
Proof using Hwf. unfold require_reason. rewrite exit_reason_ok. simpl. auto with panics. Qed.
Lemma view_ok {A} size (m : res Error A) : size ≤ 168 → view run size m = m.
Proof using Hwf. intros. unfold view. rewrite (proj2 (Z.leb_le _ _)) by lia. done. Qed.
Lemma require_reason_Ok expected e :
  require_reason run expected e = Ok tt ↔ field_at run 8 4 = expected.
Proof using Hwf.
  unfold require_reason. rewrite exit_reason_ok. unfold mbind, res_bind.
  rewrite err_if_Ok_iff, negb_false_iff. apply Z.eqb_eq.
Qed.
Lemma run_io_ok : run_io run = Ok {| raw_direction := field_at run 32 1;
  raw_size := field_at run 33 1; raw_port := field_at run 34 2; raw_count := field_at run 36 4;
  data_offset := field_at run 40 8 |}.
Proof using Hwf. unfold run_io. rewrite !run_field_ok by lia. done. Qed.
Lemma run_mmio_ok : run_mmio run = Ok {| phys_addr := field_at run 32 8;
  mmio_data := take 8 (drop 40 run); mmio_len := field_at run 48 4; is_write := field_at run 52 1 |}.
Proof using Hwf. unfold run_mmio. rewrite !run_field_ok, slice_ok by lia. done. Qed.
End views.

Lemma no_panic_io_direction id d : no_panic (port_io_direction id d).
Proof. unfold port_io_direction. by repeat case_match. Qed.
Lemma no_panic_io_range id io m : no_panic (checked_io_data_range id io m).
Proof. unfold checked_io_data_range. np. Qed.
Lemma no_panic_mmio_direction id d : no_panic (mmio_direction_of id d).
Proof. unfold mmio_direction_of. by repeat case_match. Qed.
Lemma no_panic_mmio_length id a l : no_panic (checked_mmio_length id a l).
Proof. unfold checked_mmio_length. np. Qed.
#[export] Hint Resolve no_panic_io_direction no_panic_io_range no_panic_mmio_direction
  no_panic_mmio_length no_panic_require no_panic_field no_panic_words : panics.

Lemma port_io_direction_Ok id raw d :
  port_io_direction id raw = Ok d ↔ raw = io_direction_raw d.
Proof.
  unfold port_io_direction. destruct (Z.eqb_spec raw 0) as [->|]; [by destruct d|].
  destruct (Z.eqb_spec raw 1) as [->|]; [by destruct d|]. destruct d; simpl; split; done.
Qed.
Lemma mmio_direction_Ok id raw d :
  mmio_direction_of id raw = Ok d ↔ raw = mmio_direction_raw d.
Proof.
  unfold mmio_direction_of. destruct (Z.eqb_spec raw 0) as [->|]; [by destruct d|].
  destruct (Z.eqb_spec raw 1) as [->|]; [by destruct d|]. destruct d; simpl; split; done.
Qed.
(** The window of the mapping that port I/O data occupies. *)
Lemma checked_io_data_range_Ok id io mapping_size r :
  0 ≤ data_offset io < 2 ^ 64 → 0 ≤ raw_size io → 0 ≤ raw_count io < 2 ^ 64 →
  mapping_size < 2 ^ 64 →
  checked_io_data_range id io mapping_size = Ok r ↔
  data_offset io + raw_size io * raw_count io ≤ mapping_size ∧
  r = (data_offset io, data_offset io + raw_size io * raw_count io).
Proof.
  intros Ho Hs Hc Hm. unfold checked_io_data_range, try_from, checked_mul, checked_add.
  assert (0 ≤ raw_size io * raw_count io) by nia.
  repeat (cbn [ok_or mbind res_bind]; match goal with
    | |- context [if ?a <? ?b then Some _ else _] => destruct (Z.ltb_spec a b) end);
    cbn [ok_or mbind res_bind]; try (split; [done|lia]); try lia.
  rewrite bind_err_if_Ok, Z.ltb_ge.
  split; intros [? Hr]; (split; [lia|]); [by injection Hr as <-|by rewrite Hr].
Qed.
Lemma checked_mmio_length_Ok id a l n :
  0 ≤ l < 2 ^ 64 → checked_mmio_length id a l = Ok n ↔ 1 ≤ l ≤ KVM_MMIO_DATA_CAPACITY ∧ n = l.
Proof.
  intros Hl. unfold checked_mmio_length, try_from. zcmp. cbn [ok_or mbind res_bind].
  rewrite bind_err_if_Ok, orb_false_iff, Z.eqb_neq, Z.ltb_ge.
  split; [intros [[? ?] [= <-]]; lia|]. intros [? ->]. split; [lia|done].
Qed.

Lemma port_io_exit_Ok run id e :
  run_wf run → port_io_exit id run = Ok e ↔
  field_at run 8 4 = KVM_EXIT_IO ∧
  field_at run 32 1 = io_direction_raw (io_direction e) ∧
  io_size e = field_at run 33 1 ∧ io_port e = field_at run 34 2 ∧ io_count e = field_at run 36 4 ∧
  field_at run 40 8 + io_size e * io_count e ≤ len run ∧
  output_data e = match io_direction e with
    | IoOut => take (Z.to_nat (io_size e * io_count e)) (drop (Z.to_nat (field_at run 40 8)) run)
    | IoIn => []
    end.
Proof.
  intros Hwf. pose proof Hwf as (Hl&Hu&Hb). rewrite required_size_val in Hl.
  pose proof (field_at_bound run 33 1 Hb ltac:(lia)). pose proof (field_at_bound run 36 4 Hb ltac:(lia)).
  pose proof (field_at_bound run 40 8 Hb ltac:(lia)).
  assert (0 ≤ field_at run 33 1 * field_at run 36 4) by nia.
  unfold port_io_exit. rewrite run_io_ok by done.
  destruct (require_reason run KVM_EXIT_IO _) as [[]|?|] eqn:Hreq; cbn [mbind res_bind].
  2,3: assert (field_at run 8 4 ≠ KVM_EXIT_IO)
    by (rewrite <- (require_reason_Ok run Hwf _ (IoPayloadUnavailable id)), Hreq; done); split; [done|naive_solver].
  rewrite require_reason_Ok in Hreq by done. cbn [raw_direction raw_size raw_port raw_count].
  destruct (port_io_direction id _) as [d|?|] eqn:Hd; cbn [mbind res_bind].
  2,3: split; [done|]; intros (_&Hx&_); rewrite <- (port_io_direction_Ok id), Hd in Hx; done.
  apply port_io_direction_Ok in Hd.
  destruct (checked_io_data_range id _ _) as [[s t]|?|] eqn:Hr; cbn [mbind res_bind].
  2,3: split; [done|]; intros (_&_&Hs&_&Hc&Hle&_); rewrite Hs, Hc in Hle;
    assert (Hok := proj2 (checked_io_data_range_Ok id {| raw_direction := field_at run 32 1;
      raw_size := field_at run 33 1; raw_port := field_at run 34 2; raw_count := field_at run 36 4;
      data_offset := field_at run 40 8 |} (len run) _ ltac:(simpl; lia) ltac:(simpl; lia)
      ltac:(simpl; lia) ltac:(ulia)) (conj Hle eq_refl)); rewrite Hr in Hok; done.
  apply checked_io_data_range_Ok in Hr as [Hle [= -> ->]]; simpl; [|lia..|ulia]. simpl in Hle.
  rewrite slice_ok by lia.
  replace (field_at run 40 8 + field_at run 33 1 * field_at run 36 4 - field_at run 40 8)
    with (field_at run 33 1 * field_at run 36 4) by lia.
  destruct e as [d' sz pt ct od]. simpl.
  destruct d; simpl; (split;
    [intros [= <- <- <- <- <-]; split_and!; done
    |intros (_&Hd'&->&->&->&_&->); destruct d'; solve [done|rewrite Hd in Hd'; done]]).
Qed.
Lemma require_reason_cases run expected e :
  run_wf run →
  (require_reason run expected e = Ok tt ∧ field_at run 8 4 = expected) ∨
  (∃ x, require_reason run expected e = Err x ∧ field_at run 8 4 ≠ expected).
Proof.
  intros Hwf. unfold require_reason. rewrite exit_reason_ok by done. unfold mbind, res_bind.
  destruct (Z.eqb_spec (field_at run 8 4) expected); [left|right; eexists]; done.
Qed.

(** ** Copies into the mapping *)
Lemma field_at_app_l (a b : list Z) offset n :
  0 ≤ offset → 0 ≤ n → offset + n ≤ len a → field_at (a ++ b) offset n = field_at a offset n.
Proof.
  intros. unfold field_at, len in *. rewrite drop_app_le by lia.
  rewrite take_app_le; [done|]. rewrite length_drop. lia.
Qed.
Lemma field_at_splice_before run a k offset n :
  0 ≤ offset → 0 ≤ n → offset + n ≤ a → a ≤ len run →
  field_at (splice run a k) offset n = field_at run offset n.
Proof.
  intros. unfold splice. rewrite field_at_app_l by (autorewrite with bytes; lia).
  rewrite <- (field_at_app_l _ (drop (Z.to_nat a) run)) by (autorewrite with bytes; lia).
  by rewrite take_drop.
Qed.
Lemma drop_splice_after {A} (l k : list A) a n :
  0 ≤ a → a + len k ≤ n → a + len k ≤ len l →
  drop (Z.to_nat n) (splice l a k) = drop (Z.to_nat n) l.
Proof.
  intros. unfold splice, len in *. rewrite drop_app_ge by (rewrite length_take; lia).
  rewrite length_take, drop_app_ge by lia. rewrite drop_drop. f_equal. lia.
Qed.
Lemma field_at_splice_after run a k offset n :
  0 ≤ a → a + len k ≤ offset → a + len k ≤ len run →
  field_at (splice run a k) offset n = field_at run offset n.
Proof. intros. unfold field_at. by rewrite drop_splice_after. Qed.
Lemma window_splice {A} (l k : list A) a :
  0 ≤ a → a + len k ≤ len l →
  take (Z.to_nat (len k)) (drop (Z.to_nat a) (splice l a k)) = k.
Proof.
  intros. unfold splice, len in *.
  rewrite drop_app_length' by (rewrite length_take; lia). by rewrite take_app_length' by lia.
Qed.
Lemma run_copy_ok run start bytes :
  start + len bytes ≤ len run → run_copy run start bytes = Ok (splice run start bytes).
Proof. intros. unfold run_copy. by rewrite (proj2 (Z.leb_le _ _)). Qed.
Lemma splice_nil {A} (l : list A) a : splice l a [] = l.
Proof. unfold splice, len. simpl. rewrite Z.add_0_r. apply take_drop. Qed.
Lemma run_wf_splice run start bytes :
  run_wf run → bytes_ok bytes → 0 ≤ start → start + len bytes ≤ len run →
  run_wf (splice run start bytes).
Proof.
  intros (?&?&?) ???. unfold run_wf. rewrite len_splice by lia. eauto with bytes.
Qed.

(** ** Responses *)
Definition io_view (run : list Z) : KvmRunIo := {|
  raw_direction := field_at run 32 1; raw_size := field_at run 33 1;
  raw_port := field_at run 34 2; raw_count := field_at run 36 4; data_offset := field_at run 40 8 |}.
Definition io_window (run : list Z) : Z := field_at run 33 1 * field_at run 36 4.
Lemma io_range_cases id run :
  run_wf run →
  (checked_io_data_range id (io_view run) (len run)
     = Ok (field_at run 40 8, field_at run 40 8 + io_window run) ∧
   0 ≤ io_window run ∧ 0 ≤ field_at run 40 8 ∧ field_at run 40 8 + io_window run ≤ len run) ∨
  (∃ x, checked_io_data_range id (io_view run) (len run) = Err x ∧
    len run < field_at run 40 8 + io_window run).
Proof.
  intros (Hl&Hu&Hb). unfold io_window.
  pose proof (field_at_bound run 33 1 Hb ltac:(lia)). pose proof (field_at_bound run 36 4 Hb ltac:(lia)).
  pose proof (field_at_bound run 40 8 Hb ltac:(lia)).
  assert (0 ≤ field_at run 33 1 * field_at run 36 4) by nia.
  assert (∀ r, checked_io_data_range id (io_view run) (len run) = Ok r ↔ _ ∧ r = _) as Hiff
    by (intros r; apply checked_io_data_range_Ok; simpl; [lia|lia|lia|ulia]). simpl in Hiff.
  destruct (Z.le_gt_cases (field_at run 40 8 + field_at run 33 1 * field_at run 36 4) (len run)).
  - left. split_and!; [by apply Hiff|lia..].
  - right. destruct (checked_io_data_range _ _ _) as [r|x|] eqn:Hr.
    + destruct (proj1 (Hiff r) eq_refl). lia.
    + exists x. split; [done|lia].
    + by destruct (no_panic_io_range id (io_view run) (len run)).
Qed.
(** The early return for an empty response is a copy of nothing. *)
Lemma copy_response run start response :
  start + len response ≤ len run →
  (if len response =? 0 then Ok run else run_copy run start response)
    = Ok (splice run start response).
Proof.
  intros. destruct (Z.eqb_spec (len response) 0) as [H0|]; [|by apply run_copy_ok].
  by rewrite (nil_length_inv response), splice_nil by (unfold len in H0; lia).
Qed.
Lemma write_port_io_input_cases id response run :
  run_wf run →
  match write_port_io_input id response run with
  | Ok run' => ∃ e, port_io_exit id run = Ok e ∧ io_direction e = IoIn ∧
      len response = io_size e * io_count e ∧ io_window run = len response ∧
      run' = splice run (field_at run 40 8) response
  | Err _ => ∀ e, port_io_exit id run = Ok e → io_direction e = IoIn →
      len response ≠ io_size e * io_count e
  | Panic => False
  end.
Proof.
  intros Hwf. unfold write_port_io_input, port_io_exit, checked_io_response_range.
  rewrite run_io_ok by done. fold (io_view run).
  destruct (require_reason_cases run KVM_EXIT_IO (IoPayloadUnavailable id) Hwf)
    as [[-> _]|(x&->&_)]; [|done]. cbn [mbind res_bind].
  destruct (port_io_direction id _) as [[]|?|] eqn:Hd; cbn [mbind res_bind];
    [| |done|].
  2: { intros e He. destruct (checked_io_data_range _ _ _) as [[]|?|]; [|done..].
    cbn [mbind res_bind] in He. bind_inv He. done. }
  2: { by destruct (no_panic_io_direction id (raw_direction (io_view run))). }
  rewrite bool_decide_eq_false_2 by auto. cbn [err_if mbind res_bind].
  destruct (io_range_cases id run Hwf) as [(->&Hw&Ho&Hle)|(x&->&_)]; cbn [mbind res_bind]; [|done].
  replace (field_at run 40 8 + io_window run - field_at run 40 8) with (io_window run) by lia.
  destruct (Z.eqb_spec (len response) (io_window run)) as [Heq|Hne]; cbn [negb err_if mbind res_bind].
  2: { by intros e [= <-] _. }
  cbn [mret res_ret mbind res_bind]. rewrite copy_response by (unfold io_window in *; lia).
  eexists. split_and!; done.
Qed.

Lemma mmio_exit_Ok id run e :
  run_wf run → mmio_exit id run = Ok e ↔
  field_at run 8 4 = KVM_EXIT_MMIO ∧
  field_at run 52 1 = mmio_direction_raw (mmio_direction e) ∧
  mmio_address e = field_at run 32 8 ∧ mmio_length e = field_at run 48 4 ∧
  1 ≤ mmio_length e ≤ KVM_MMIO_DATA_CAPACITY ∧
  write_data e = match mmio_direction e with
    | MmioWrite => take (Z.to_nat (mmio_length e)) (drop 40 run)
    | MmioRead => []
    end.
Proof.
  intros Hwf. pose proof Hwf as (Hl&Hu&Hb). rewrite required_size_val in Hl.
  pose proof (field_at_bound run 48 4 Hb ltac:(lia)). unfold mmio_exit, decode_mmio.
  rewrite view_ok, run_mmio_ok by done.
  destruct (require_reason_cases run KVM_EXIT_MMIO (MmioPayloadUnavailable id) Hwf)
    as [[-> ?]|(x&->&?)]; cbn [mbind res_bind phys_addr mmio_data mmio_len is_write]; [|naive_solver].
  destruct (mmio_direction_of id _) as [d|?|] eqn:Hd; cbn [mbind res_bind].
  2,3: split; [done|]; intros (_&Hx&_); rewrite <- (mmio_direction_Ok id), Hd in Hx; done.
  apply mmio_direction_Ok in Hd.
  destruct (checked_mmio_length id _ _) as [n|?|] eqn:Hn; cbn [mbind res_bind].
  2,3: split; [done|]; intros (_&_&_&Hx&Hr&_); rewrite Hx in Hr;
    rewrite (proj2 (checked_mmio_length_Ok id (field_at run 32 8) (field_at run 48 4) _
      ltac:(lia)) (conj Hr eq_refl)) in Hn; done.
  apply checked_mmio_length_Ok in Hn as [Hn ->]; [|lia].
  pose proof Hn as Hn'. unfold KVM_MMIO_DATA_CAPACITY in Hn'.
  rewrite slice_ok by (autorewrite with bytes; lia). rewrite Z.sub_0_r. cbn [Z.to_nat drop].
  rewrite drop_0, take_take, Nat.min_l by lia.
  destruct e as [ad d' ln wd]. simpl.
  destruct d; simpl; (split;
    [intros [= <- <- <- <-]; split_and!; done || lia
    |intros (_&Hd'&->&->&_&->); destruct d'; solve [done|rewrite Hd in Hd'; done]]).
Qed.
Lemma write_mmio_response_cases id response run :
  run_wf run →
  match write_mmio_read_response id response run with
  | Ok run' => ∃ e, mmio_exit id run = Ok e ∧ mmio_direction e = MmioRead ∧
      len response = mmio_length e ∧ run' = splice run 40 response
  | Err _ => ∀ e, mmio_exit id run = Ok e → mmio_direction e = MmioRead →
      len response ≠ mmio_length e
  | Panic => False
  end.
Proof.
  intros Hwf. pose proof Hwf as (Hl&Hu&Hb). rewrite required_size_val in Hl.
  pose proof (field_at_bound run 48 4 Hb ltac:(lia)).
  unfold write_mmio_read_response, mmio_exit, decode_mmio. rewrite !view_ok, run_mmio_ok by done.
  destruct (require_reason_cases run KVM_EXIT_MMIO (MmioPayloadUnavailable id) Hwf)
    as [[-> _]|(x&->&?)]; cbn [mbind res_bind phys_addr mmio_data mmio_len is_write]; [|done].
  destruct (mmio_direction_of id _) as [[]|?|] eqn:Hd; cbn [mbind res_bind]; [| |done|].
  2: { intros e He. bind_inv He. done. }
  2: { by destruct (no_panic_mmio_direction id (field_at run 52 1)). }
  rewrite bool_decide_eq_false_2 by auto. cbn [err_if mbind res_bind].
  destruct (checked_mmio_length id _ _) as [n|?|] eqn:Hn; cbn [mbind res_bind]; [|done|].
  2: { by destruct (no_panic_mmio_length id (field_at run 32 8) (field_at run 48 4)). }
  apply checked_mmio_length_Ok in Hn as [Hn ->]; [|lia]. unfold KVM_MMIO_DATA_CAPACITY in Hn.
  destruct (Z.eqb_spec (len response) (field_at run 48 4)) as [Heq|Hne];
    cbn [negb err_if mbind res_bind].
  - rewrite run_copy_ok by lia. eexists. by split_and!.
  - by intros e [= <-] _.
Qed.

(** ** The exits that only report *)
Lemma no_panic_port_io_exit id run : run_wf run → no_panic (port_io_exit id run).
Proof.
  intros Hwf. unfold port_io_exit. rewrite run_io_ok by done. fold (io_view run).
  apply no_panic_bind; [auto with panics|]. intros _ _.
  cbn [mbind res_bind]. apply no_panic_bind; [auto with panics|]. intros d _.
  destruct (io_range_cases id run Hwf) as [(->&?&?&?)|(x&->&_)]; cbn [mbind res_bind]; [|done].
  rewrite slice_ok by lia. by case_decide.
Qed.
Lemma no_panic_mmio_exit id run : run_wf run → no_panic (mmio_exit id run).
Proof.
  intros Hwf. pose proof Hwf as (Hl&Hu&Hb). rewrite required_size_val in Hl.
  pose proof (field_at_bound run 48 4 Hb ltac:(lia)).
  unfold mmio_exit, decode_mmio. rewrite view_ok, run_mmio_ok by done.
  apply no_panic_bind; [auto with panics|]. intros _ _. cbn [mbind res_bind].
  apply no_panic_bind; [auto with panics|]. intros d _.
  apply no_panic_bind; [auto with panics|]. intros n Hn. cbn [mmio_len] in Hn.
  apply checked_mmio_length_Ok in Hn as [Hn ->]; [|lia]. unfold KVM_MMIO_DATA_CAPACITY in Hn.
  cbn [mmio_data]. rewrite slice_ok by (autorewrite with bytes; lia). by case_decide.
Qed.
Lemma no_panic_small_view {A} run expected e size (m : res Error A) :
  run_wf run → size ≤ 168 → no_panic m →
  no_panic (require_reason run expected e;; view run size m).
Proof.
  intros Hwf ??. rewrite view_ok by done. apply no_panic_bind; [auto with panics|done].
Qed.
Definition internal_error_wf (e : VcpuInternalError) : Prop :=
  0 ≤ data_count e ≤ 16 ∧ len (internal_data e) = 16.
Lemma decode_internal_error_ok id raw ndata data :
  0 ≤ ndata < 2 ^ 64 → len data = 16 →
  no_panic (decode_internal_error_with_data id raw ndata data) ∧
  ∀ e, decode_internal_error_with_data id raw ndata data = Ok e → internal_error_wf e.
Proof.
  intros Hn Hd. unfold decode_internal_error_with_data, try_from.
  rewrite (proj2 (Z.ltb_lt _ _)) by lia. cbn [expect mbind res_bind].
  destruct (Z.ltb_spec KVM_INTERNAL_ERROR_DATA_CAPACITY ndata) as [|Hc];
    cbn [err_if mbind res_bind]; [done|]. unfold KVM_INTERNAL_ERROR_DATA_CAPACITY in Hc.
  rewrite slice_ok by lia. cbn [mbind res_bind]. split; [done|]. intros e [= <-].
  split; cbn [data_count internal_data]; [lia|].
  rewrite len_splice; autorewrite with bytes; lia.
Qed.
Lemma internal_error_ok id supports run :
  run_wf run → no_panic (internal_error id supports run) ∧
  ∀ e, internal_error id supports run = Ok e → internal_error_wf e.
Proof.
  intros Hwf. pose proof Hwf as (Hl&Hu&Hb). rewrite required_size_val in Hl.
  unfold internal_error. rewrite !view_ok, !run_field_ok by (done || lia).
  destruct (run_words_ok run 16 40) as (ws&->&Hws&_); [lia|lia|]. cbn [mbind res_bind].
  pose proof (field_at_bound run 36 4 Hb ltac:(lia)).
  destruct (decode_internal_error_ok id (field_at run 32 4) (field_at run 36 4) ws) as [Hnp Hok];
    [lia|done|].
  destruct (require_reason_cases run KVM_EXIT_INTERNAL_ERROR (InternalErrorPayloadUnavailable id) Hwf)
    as [[-> _]|(x&->&_)]; cbn [mbind res_bind]; [|done].
  destruct supports; [done|]. split; [done|]. intros e [= <-]. by split; simpl.
Qed.
Lemma emulation_bytes_ok e :
  internal_error_wf e →
  no_panic (internal_error_data e) ∧ no_panic (emulation_instruction_bytes e).
Proof.
  intros [Hc Hd]. unfold emulation_instruction_bytes, emulation_instruction_overlay, internal_error_data.
  rewrite slice_ok by lia. split; [by case_match|]. case_decide; [done|].
  destruct (data_available e); [|done]. cbn [fmap res_fmap mbind res_bind].
  set (data := take _ _). destruct (Z.ltb_spec (len data) KVM_INTERNAL_ERROR_EMULATION_OVERLAY_WORDS)
    as [|H3]; [done|]. unfold KVM_INTERNAL_ERROR_EMULATION_OVERLAY_WORDS in H3.
  destruct (index_ok (E:=Error) data 0) as (w0&->&_); [lia|].
  destruct (index_ok (E:=Error) data 1) as (w1&->&_); [lia|].
  destruct (index_ok (E:=Error) data 2) as (w2&->&_); [lia|]. cbn [fmap res_fmap mbind res_bind].
  case_match; [done|].
  destruct (index_ok (E:=Error) (to_le_bytes 8 w1) 0) as (size&->&Hsize);
    [rewrite len_to_le_bytes; lia|]. cbn [mbind res_bind].
  rewrite slice_ok by (rewrite ?len_to_le_bytes; lia). cbn [mret res_ret mbind res_bind].
  pose proof (Forall_lookup_1 _ _ _ _ (to_le_bytes_ok 8 w1) Hsize) as Hs8.
  destruct (Z.ltb_spec KVM_INTERNAL_ERROR_EMULATION_INSTRUCTION_BYTES_CAPACITY size) as [|H15]; [done|].
  unfold KVM_INTERNAL_ERROR_EMULATION_INSTRUCTION_BYTES_CAPACITY in H15.
  apply no_panic_fmap, no_panic_slice; [ulia|]. autorewrite with bytes. lia.
Qed.
Lemma no_panic_system_event id run : run_wf run → no_panic (system_event id run).
Proof.
  intros Hwf. pose proof Hwf as (Hl&Hu&Hb). rewrite required_size_val in Hl.
  pose proof (field_at_bound run 36 4 Hb ltac:(lia)).
  apply no_panic_small_view; [done|done|]. rewrite !run_field_ok by lia.
  destruct (run_words_ok run 16 40) as (ws&->&Hws&_); [lia|lia|]. cbn [mbind res_bind].
  unfold decode_system_event, try_from. rewrite (proj2 (Z.ltb_lt _ _)) by lia.
  cbn [expect mbind res_bind].
  apply no_panic_bind; [auto with panics|]. intros _ Hc%err_if_Ok_inv%Z.ltb_ge.
  unfold KVM_SYSTEM_EVENT_DATA_CAPACITY in Hc. rewrite slice_ok by lia. done.
Qed.

(** * Properties *)

(** A page KVM could hand over: port [out 0x3f8] of the three bytes [65 66 67]. *)
Definition sample_run (reason : Z) (payload : list Z) : list Z :=
  let bytes := replicate 8 0 ++ to_le_bytes 4 reason ++ replicate 20 0 ++ payload in
  bytes ++ replicate (256 - length bytes) 0.
Definition sample_io (direction : Z) : list Z :=
  sample_run KVM_EXIT_IO ([direction; 1] ++ to_le_bytes 2 0x3f8 ++ to_le_bytes 4 3
    ++ to_le_bytes 8 64 ++ replicate 16 0 ++ [65; 66; 67]).
Definition sample_mmio (write : Z) : list Z :=
  sample_run KVM_EXIT_MMIO (to_le_bytes 8 0xd0000000 ++ [1; 2; 3; 4; 0; 0; 0; 0]
    ++ to_le_bytes 4 4 ++ [write]).
Lemma sample_run_wf reason payload :
  bytes_ok payload → len payload ≤ 200 → run_wf (sample_run reason payload).
Proof.
  intros Hb Hl. unfold sample_run, run_wf. rewrite required_size_val.
  assert (len (sample_run reason payload) = 256) as Hlen.
  { unfold sample_run. autorewrite with bytes. unfold len in *. autorewrite with bytes.
    rewrite !length_app, !length_replicate, length_to_le_bytes. lia. }
  unfold sample_run in Hlen. rewrite Hlen. split; [done|]. split; [done|].
  repeat apply bytes_ok_app; try apply bytes_ok_replicate; auto with bytes; done.
Qed.
Ltac bytes_auto := repeat first [apply Forall_nil_2 | apply to_le_bytes_ok | apply bytes_ok_replicate
  | apply Forall_cons_2 | apply bytes_ok_app]; try done.
Lemma sample_io_wf d : u8 d → run_wf (sample_io d).
Proof. intros Hd. apply sample_run_wf; [bytes_auto|done]. Qed.
Lemma sample_mmio_wf d : u8 d → run_wf (sample_mmio d).
Proof. intros Hd. apply sample_run_wf; [bytes_auto|done]. Qed.

(** C27: every access to the shared page stays inside it.  Whatever KVM wrote there
    (any payload lengths, offsets, counts, directions and exit reason), once the
    page is as long as [KvmRunMapping::map] requires no decoder and no response
    writer reads or copies outside the mapping or indexes out of range, and a
    response leaves a page that still satisfies this. *)
Theorem run_views_safe id run response supports :
  run_wf run → bytes_ok response →
  no_panic (exit_reason run) ∧
  no_panic (port_io_exit id run) ∧ no_panic (mmio_exit id run) ∧
  no_panic (kvm_unknown_exit id run) ∧ no_panic (exception_exit id run) ∧
  no_panic (fail_entry id run) ∧ no_panic (system_event id run) ∧
  no_panic (internal_error id supports run) ∧
  (∀ e, internal_error id supports run = Ok e →
    no_panic (internal_error_data e) ∧ no_panic (emulation_instruction_bytes e)) ∧
  (∀ run', write_port_io_input id response run = Ok run' ∨
           write_mmio_read_response id response run = Ok run' → run_wf run') ∧
  no_panic (write_port_io_input id response run) ∧
  no_panic (write_mmio_read_response id response run).
Proof.
  intros Hwf Hr. pose proof Hwf as (Hl&_&Hb). rewrite required_size_val in Hl.
  destruct (internal_error_ok id supports run Hwf) as [Hi1 Hi2].
  pose proof (write_port_io_input_cases id response run Hwf) as Hp.
  pose proof (write_mmio_response_cases id response run Hwf) as Hm.
  pose proof (field_at_bound run 40 8 Hb ltac:(lia)) as Ho.
  split_and!; try (apply no_panic_small_view; [done|done|]; rewrite ?run_field_ok by lia; done).
  - by rewrite exit_reason_ok.
  - by apply no_panic_port_io_exit.
  - by apply no_panic_mmio_exit.
  - by apply no_panic_system_event.
  - done.
  - intros e He. by apply emulation_bytes_ok, Hi2.
  - intros run' [H|H]; rewrite H in *.
    + destruct Hp as (e&He&_&Hlen&_&->). apply port_io_exit_Ok in He as (_&_&_&_&_&Hle&_); [|done].
      apply run_wf_splice; [done|done|lia|]. lia.
    + destruct Hm as (e&He&_&Hlen&->). apply mmio_exit_Ok in He as (_&_&_&_&Hle&_); [|done].
      unfold KVM_MMIO_DATA_CAPACITY in Hle. apply run_wf_splice; [done|done|lia|lia].
  - by destruct (write_port_io_input id response run).
  - by destruct (write_mmio_read_response id response run).
Qed.
Lemma run_views_safe_witness :
  no_panic (port_io_exit 0 (sample_io 1)) ∧
  is_ok (write_port_io_input 0 [7; 8; 9] (sample_io 0)) = true.
Proof.
  destruct (run_views_safe 0 (sample_io 1) [] true) as (_&H&_).
  - by apply sample_io_wf.
  - constructor.
  - split; [exact H|vm_compute; reflexivity].
Defined.

(** Port I/O exits.  A page decodes as a port I/O exit exactly when it reports
    one, its direction byte is 0 or 1 and its data window lies in the page; the
    exit carries the page's size, port and count and, for an [out], exactly the
    window's bytes.  A response is accepted exactly for an [in] exit and a buffer of
    [size * count] bytes; it then is what the window holds, every byte outside the
    window is unchanged, and when the window lies behind the exit payload the
    page still decodes as the same exit. *)
Theorem port_io_spec id run response :
  run_wf run →
  (∀ e, port_io_exit id run = Ok e ↔
    field_at run 8 4 = KVM_EXIT_IO ∧
    field_at run 32 1 = io_direction_raw (io_direction e) ∧
    io_size e = field_at run 33 1 ∧ io_port e = field_at run 34 2 ∧ io_count e = field_at run 36 4 ∧
    field_at run 40 8 + io_size e * io_count e ≤ len run ∧
    output_data e = match io_direction e with
      | IoOut => take (Z.to_nat (io_size e * io_count e)) (drop (Z.to_nat (field_at run 40 8)) run)
      | IoIn => []
      end) ∧
  match write_port_io_input id response run with
  | Ok run' => ∃ e, port_io_exit id run = Ok e ∧ io_direction e = IoIn ∧
      len response = io_size e * io_count e ∧ len run' = len run ∧
      let start := Z.to_nat (field_at run 40 8) in
      take (Z.to_nat (len response)) (drop start run') = response ∧
      take start run' = take start run ∧
      drop (Z.to_nat (field_at run 40 8 + len response)) run'
        = drop (Z.to_nat (field_at run 40 8 + len response)) run ∧
      (IO_PREFIX_SIZE ≤ field_at run 40 8 → bytes_ok response → port_io_exit id run' = Ok e)
  | Err _ => ∀ e, port_io_exit id run = Ok e → io_direction e = IoIn →
      len response ≠ io_size e * io_count e
  | Panic => False
  end.
Proof.
  intros Hwf. split; [intros e; by apply port_io_exit_Ok|].
  pose proof (write_port_io_input_cases id response run Hwf) as Hp.
  destruct (write_port_io_input id response run) as [run'|?|]; [|done..].
  destruct Hp as (e&He&Hd&Hlen&_&->). exists e.
  pose proof He as (Hr&Hd'&Hs&Hpt&Hc&Hle&Hdata)%port_io_exit_Ok; [|done].
  pose proof Hwf as (Hl&_&Hb). rewrite required_size_val in Hl.
  pose proof (field_at_bound run 40 8 Hb ltac:(lia)) as Ho.
  split_and!; [done|done|done|by apply len_splice; lia|cbv zeta; split_and!].
  - apply window_splice; lia.
  - unfold splice. rewrite take_app_le, take_take, Nat.min_id; [done|].
    rewrite length_take. unfold len in *. lia.
  - apply drop_splice_after; lia.
  - unfold IO_PREFIX_SIZE, PAYLOAD. intros Hpre Hbr.
    apply port_io_exit_Ok; [by apply run_wf_splice; (done || lia)|].
    pose proof (len_nonneg response). rewrite len_splice, !field_at_splice_before by lia. rewrite Hd in *. by split_and!.
Qed.
Lemma port_io_spec_witness :
  port_io_exit 0 (sample_io 1) = Ok {| io_direction := IoOut; io_size := 1; io_port := 0x3f8;
    io_count := 3; output_data := [65; 66; 67] |} ∧
  (∃ run', write_port_io_input 0 [7; 8; 9] (sample_io 0) = Ok run' ∧
     take 3 (drop 64 run') = [7; 8; 9]) ∧
  is_ok (write_port_io_input 0 [7] (sample_io 0)) = false.
Proof.
  destruct (port_io_spec 0 (sample_io 1) [] (sample_io_wf 1 ltac:(done))) as [Hd _].
  destruct (port_io_spec 0 (sample_io 0) [7; 8; 9] (sample_io_wf 0 ltac:(done))) as [_ Hw].
  split; [apply Hd; vm_compute; split_and!; done|]. split; [|vm_compute; reflexivity].
  destruct (write_port_io_input 0 [7; 8; 9] (sample_io 0)) as [run'|?|] eqn:E.
  - exists run'. split; [done|]. destruct Hw as (e&_&_&_&_&Hw&_). exact Hw.
  - vm_compute in E. discriminate.
  - destruct Hw.
Defined.

(** MMIO exits.  A page decodes as an MMIO exit exactly when it reports one, its
    direction byte is 0 or 1 and its length is between 1 and 8; the exit carries
    the page's address and length and, for a write, exactly the data bytes.  A read
    response is accepted exactly for a read exit and a buffer of the exit's length;
    the data field then starts with it and the page still decodes as that exit. *)
Theorem mmio_exit_spec id run response :
  run_wf run →
  (∀ e, mmio_exit id run = Ok e ↔
    field_at run 8 4 = KVM_EXIT_MMIO ∧
    field_at run 52 1 = mmio_direction_raw (mmio_direction e) ∧
    mmio_address e = field_at run 32 8 ∧ mmio_length e = field_at run 48 4 ∧
    1 ≤ mmio_length e ≤ KVM_MMIO_DATA_CAPACITY ∧
    write_data e = match mmio_direction e with
      | MmioWrite => take (Z.to_nat (mmio_length e)) (drop 40 run)
      | MmioRead => []
      end) ∧
  match write_mmio_read_response id response run with
  | Ok run' => ∃ e, mmio_exit id run = Ok e ∧ mmio_direction e = MmioRead ∧
      len response = mmio_length e ∧ len run' = len run ∧
      take (Z.to_nat (len response)) (drop 40 run') = response ∧
      (bytes_ok response → mmio_exit id run' = Ok e)
  | Err _ => ∀ e, mmio_exit id run = Ok e → mmio_direction e = MmioRead →
      len response ≠ mmio_length e
  | Panic => False
  end.
Proof.
  intros Hwf. split; [intros e; by apply mmio_exit_Ok|].
  pose proof (write_mmio_response_cases id response run Hwf) as Hp.
  destruct (write_mmio_read_response id response run) as [run'|?|]; [|done..].
  destruct Hp as (e&He&Hd&Hlen&->). exists e.
  pose proof He as (Hr&Hd'&Ha&Hl&Hle&Hdata)%mmio_exit_Ok; [|done].
  pose proof Hwf as (Hsz&_&Hb). rewrite required_size_val in Hsz.
  pose proof Hle as Hle'. unfold KVM_MMIO_DATA_CAPACITY in Hle'.
  split_and!; [done|done|done|by apply len_splice; lia|by apply (window_splice run response 40); lia|].
  intros Hbr. apply mmio_exit_Ok; [by apply run_wf_splice; (done || lia)|].
  rewrite (field_at_splice_before _ _ _ 8), (field_at_splice_before _ _ _ 32) by lia.
  rewrite (field_at_splice_after _ _ _ 48), (field_at_splice_after _ _ _ 52) by lia.
  rewrite Hd in *. split_and!; (done || lia).
Qed.
Lemma mmio_exit_spec_witness :
  mmio_exit 0 (sample_mmio 1) = Ok {| mmio_address := 0xd0000000; mmio_direction := MmioWrite;
    mmio_length := 4; write_data := [1; 2; 3; 4] |} ∧
  (∃ run', write_mmio_read_response 0 [9; 8; 7; 6] (sample_mmio 0) = Ok run' ∧
     take 4 (drop 40 run') = [9; 8; 7; 6]).
Proof.
  destruct (mmio_exit_spec 0 (sample_mmio 1) [] (sample_mmio_wf 1 ltac:(done))) as [Hd _].
  destruct (mmio_exit_spec 0 (sample_mmio 0) [9; 8; 7; 6] (sample_mmio_wf 0 ltac:(done))) as [_ Hw].
  split; [apply Hd; vm_compute; split_and!; done|].
  destruct (write_mmio_read_response 0 [9; 8; 7; 6] (sample_mmio 0)) as [run'|?|] eqn:E.
  - exists run'. split; [done|]. destruct Hw as (e&_&_&_&_&Hw&_). exact Hw.
  - vm_compute in E. discriminate.
  - destruct Hw.
Defined.
