(* ===== verification/Vm.v ===== *)
(** The KVM backend, its virtual machines and their memory slots
    ([src/src/kvm/mod.rs], [create_vm_with_irqchip] of [src/src/kvm/irqchip.rs] and
    [src/src/kvm/dirty_log.rs]).

    The host kernel is a parameter ([KvmHost]): every ioctl, [open], [mmap] and
    [munmap] of these files is one of its operations.  A descriptor or mapping the
    code owns is released where Rust drops its owner.  Numbers interpolated into
    messages are left out of them. *)

From stdpp Require Import gmap.
From S2P Require Import Prelude Errors Memory Msr CpuPolicy VcpuState VcpuRun.

Definition EXPECTED_KVM_API_VERSION : Z := 12.
Definition KVM_CAP_IRQCHIP : Z := 0.
Definition KVM_CAP_USER_MEMORY : Z := 3.
Definition KVM_CAP_SET_TSS_ADDR : Z := 4.
Definition KVM_CAP_EXT_CPUID : Z := 7.
Definition KVM_CAP_SET_IDENTITY_MAP_ADDR : Z := 37.
Definition KVM_CAP_INTERNAL_ERROR_DATA : Z := 40.
Definition KVM_CAP_GET_MSR_FEATURES : Z := 153.
Definition KVM_IDENTITY_MAP_ADDR : Z := 0xfeffc000.
Definition KVM_TSS_ADDR : Z := KVM_IDENTITY_MAP_ADDR + KVM_MEMORY_ALIGNMENT.
Definition KVM_RESERVED_X86_SIZE : Z := 4 * KVM_MEMORY_ALIGNMENT.
Definition KVM_MAX_SUPPORTED_CPUID_ENTRIES : Z := 256.
Definition KVM_MAX_MSR_INDEX_LIST_ENTRIES : Z := 1024.
Definition REQUIRED_EXTENSIONS : list (string * Z) :=
  [("KVM_CAP_USER_MEMORY", KVM_CAP_USER_MEMORY); ("KVM_CAP_SET_TSS_ADDR", KVM_CAP_SET_TSS_ADDR);
   ("KVM_CAP_EXT_CPUID", KVM_CAP_EXT_CPUID); ("KVM_CAP_SET_IDENTITY_MAP_ADDR", KVM_CAP_SET_IDENTITY_MAP_ADDR);
   ("KVM_CAP_GET_MSR_FEATURES", KVM_CAP_GET_MSR_FEATURES)].
Definition OPTIONAL_EXTENSIONS : list (string * Z) := [("KVM_CAP_INTERNAL_ERROR_DATA", KVM_CAP_INTERNAL_ERROR_DATA)].

Definition host_io (operation : string) (source : io_error) : Error := HostEnvironment (Io operation source).
Definition vm_operation_error (operation : string) (source : io_error) : Error :=
  HostEnvironment (VmOperation operation source).

(** ** Capabilities *)
Record Capability := mkCapability { cap_name : string; cap_id : Z; cap_value : Z }.
Record HostCapabilities := { api_version : Z; vcpu_mmap_size : Z; extensions : list Capability }.
Definition internal_error_data_capability (self : HostCapabilities) : option Capability :=
  List.find (λ c, cap_id c =? KVM_CAP_INTERNAL_ERROR_DATA) (extensions self).
Definition supports_internal_error_data (self : HostCapabilities) : bool :=
  match internal_error_data_capability self with Some c => 0 <? cap_value c | None => false end.
Definition extension_available (self : HostCapabilities) (id : Z) : bool :=
  existsb (λ c, (cap_id c =? id) && (0 <? cap_value c)) (extensions self).
Fixpoint require_extensions (self : HostCapabilities) (required : list (string * Z)) : res Error unit :=
  match required with
  | [] => Ok tt
  | (name, id) :: required =>
      err_if (negb (extension_available self id)) (KvmCapability (MissingExtension name id));;
      require_extensions self required
  end.
Definition capabilities_validate (self : HostCapabilities) : res Error unit :=
  err_if (negb (api_version self =? EXPECTED_KVM_API_VERSION))
    (KvmCapability (UnsupportedApiVersion EXPECTED_KVM_API_VERSION (api_version self)));;
  err_if (vcpu_mmap_size self <=? 0) (KvmCapability (InvalidVcpuMmapSize (vcpu_mmap_size self)));;
  require_extensions self REQUIRED_EXTENSIONS.

(** ** What is passed to the kernel *)
(** [sys::KvmCpuidEntry2]. *)
Record KvmCpuidEntry2 := { kvm_cpuid : CpuidEntry; kvm_cpuid_padding : list Z }.
Definition cpuid_entry_from_kvm (entry : KvmCpuidEntry2) : CpuidEntry := kvm_cpuid entry.
Definition cpuid_entry_to_kvm (entry : CpuidEntry) : KvmCpuidEntry2 :=
  {| kvm_cpuid := entry; kvm_cpuid_padding := [0; 0; 0] |}.
Record KvmUserspaceMemoryRegion := {
  slot : Z; slot_flags : Z; guest_phys_addr : Z; memory_size : Z; userspace_addr : Z
}.
Definition ram_slot0 (guest_phys_addr memory_size userspace_addr : Z) : KvmUserspaceMemoryRegion :=
  {| slot := 0; slot_flags := 0; guest_phys_addr := guest_phys_addr; memory_size := memory_size;
     userspace_addr := userspace_addr |}.
Definition unregister_slot0 : KvmUserspaceMemoryRegion :=
  {| slot := 0; slot_flags := 0; guest_phys_addr := 0; memory_size := 0; userspace_addr := 0 |}.
Definition KVM_MEM_LOG_DIRTY_PAGES : Z := Z.shiftl 1 0.
Definition DIRTY_LOG_SLOT : Z := 0.

(** The system calls.  The first argument of an ioctl is the descriptor.  A call that
    fills a buffer takes its capacity and returns the count the kernel stored and the
    buffer, also when the call fails ([buffer_call]). *)
Definition buffer_call (H A : Type) : Type := Z → Z → H → (res io_error unit * (Z * list A)) * H.
Class KvmHost (H : Type) := {
  open_dev_kvm : prog H io_error Z;
  host_close : Z → H → H;
  host_munmap : Z → H → H;
  ioctl_api_version : Z → prog H io_error Z;
  ioctl_vcpu_mmap_size : Z → prog H io_error Z;
  ioctl_check_extension : Z → Z → prog H io_error Z;
  ioctl_supported_cpuid : buffer_call H KvmCpuidEntry2;
  ioctl_msr_index_list : buffer_call H Z;
  ioctl_msr_feature_index_list : buffer_call H Z;
  ioctl_system_get_msrs : Z → list Z → prog H io_error (Z * list (Z * Z));
  ioctl_create_vm : Z → prog H io_error Z;
  ioctl_set_identity_map_addr : Z → Z → prog H io_error unit;
  ioctl_set_tss_addr : Z → Z → prog H io_error unit;
  ioctl_create_irqchip : Z → prog H io_error Z;
  ioctl_set_user_memory_region : Z → KvmUserspaceMemoryRegion → prog H io_error unit;
  ioctl_get_dirty_log : Z → Z → prog H io_error (list Z);
  ioctl_create_vcpu : Z → Z → prog H io_error Z;
  ioctl_set_cpuid2 : Z → list KvmCpuidEntry2 → prog H io_error unit;
  ioctl_get_cpuid2 : buffer_call H KvmCpuidEntry2;
  mmap_run : Z → Z → prog H io_error (list Z)
}.

Record KvmBackend := {
  backend_fd : Z; capabilities : HostCapabilities; host_cpuid : HostCpuid;
  host_msr_indices : HostMsrIndexList; host_msr_feature_indices : HostMsrFeatureIndexList;
  host_msr_feature_values : HostMsrFeatureValues; backend_cpu_policy : GuestCpuPolicy
}.
(** The guest RAM a VM owns, with the address it is mapped at. *)
Record MappedMemory := { mapped_memory : GuestMemory; mapped_at : Z }.
Record Vm := mkVm {
  vm_fd : Z; vm_guest_memory : option MappedMemory; vm_mmap_size : Z; vm_cpu_policy : GuestCpuPolicy;
  vm_supports_internal_error_data : bool
}.
(** The handle [create_vcpu] returns. *)
Record VcpuHandle := { vcpu_id : Z; vcpu_fd_raw : Z; vcpu_run : list Z; vcpu_internal_error_data : bool }.

(** ** Counts reported by the kernel *)
(** [usize::try_from] of an [i32]. *)
Definition usize_from_i32 (a : Z) : option Z := if a <? 0 then None else Some a.
Definition invalid_data (text : string) : io_error := Custom InvalidData (Message text).
Definition malformed_supported_cpuid : Error :=
  host_io "validate KVM_GET_SUPPORTED_CPUID response" (invalid_data "KVM reported an unexpected number of supported CPUID entries").
Definition malformed_msr_index_count : Error :=
  host_io "validate KVM_GET_MSR_INDEX_LIST response" (invalid_data "KVM reported an unexpected number of MSR indices").
Definition malformed_msr_feature_index_count : Error :=
  host_io "validate KVM_GET_MSR_FEATURE_INDEX_LIST response"
    (invalid_data "KVM reported an unexpected number of MSR feature indices").
Definition malformed_vcpu_cpuid (id : Z) : Error :=
  HostEnvironment (VcpuOperation id "validate KVM_GET_CPUID2 response"
    (invalid_data "KVM reported an unexpected number of vCPU CPUID entries")).
(** The count as [usize], if it is at least [least] and at most [capacity]. *)
Definition validate_count (least capacity : Z) (malformed : Error) (reported : Z) : res Error Z :=
  count ← ok_or (try_from 64 reported) malformed;
  err_if ((count <? least) || (capacity <? count)) malformed;;
  mret count.
Definition validate_supported_cpuid_count (reported capacity : Z) : res Error Z :=
  validate_count 1 capacity malformed_supported_cpuid reported.
Definition validate_msr_index_count (reported capacity : Z) : res Error Z :=
  validate_count 1 capacity malformed_msr_index_count reported.
Definition validate_msr_feature_index_count (reported capacity : Z) : res Error Z :=
  validate_count 0 capacity malformed_msr_feature_index_count reported.
Definition validate_vcpu_cpuid_count (id reported capacity : Z) : res Error Z :=
  validate_count 1 capacity (malformed_vcpu_cpuid id) reported.

(** ** Memory registration *)
Definition reserved_kvm_x86_region : res Error GuestMemoryRegion :=
  match region_new KVM_IDENTITY_MAP_ADDR KVM_RESERVED_X86_SIZE with
  | Ok r => Ok r
  | Err _ | Panic => Panic
  end.
Definition validate_guest_memory_registration (r : GuestMemoryRegion) : res Error unit :=
  reserved ← reserved_kvm_x86_region;
  overlap ← overlaps r reserved;
  err_if overlap (GuestMemoryErr (ReservedRangeOverlap (base r) (region_size r) (base reserved) (region_size reserved))).
Definition classify_open_error (source : io_error) : Error :=
  match io_kind source with
  | NotFound => HostEnvironment (KvmUnavailable source)
  | KindPermissionDenied => HostEnvironment (PermissionDenied source)
  | _ => host_io "open /dev/kvm" source
  end.
Definition E2BIG : Z := 7.
Definition is_too_big (source : io_error) : bool :=
  match source with OsError errno _ => errno =? E2BIG | Custom _ _ => false end.

(** ** The dirty log *)
Record DirtyLogSlot0 := { page_count : Z; bitmap_words : Z }.
Definition for_region (r : GuestMemoryRegion) : res Error DirtyLogSlot0 :=
  rest ← urem (region_size r) KVM_MEMORY_ALIGNMENT;
  debug_assert (rest =? 0);;
  pages ← udiv (region_size r) KVM_MEMORY_ALIGNMENT;
  let words := pages / 64 + (if pages mod 64 =? 0 then 0 else 1) in
  words ← expect (try_from 64 words);
  mret {| page_count := pages; bitmap_words := words |}.
(** [mask_unused_bitmap_bits]: the bits of the last word that stand for no page are cleared. *)
Definition mask_unused_bitmap_bits (bitmap : list Z) (pages : Z) : list Z :=
  let used_in_last := pages mod 64 in
  if used_in_last =? 0 then bitmap
  else match last bitmap with
       | None => bitmap
       | Some word => take (length bitmap - 1) bitmap ++ [Z.land word (Z.shiftl 1 used_in_last - 1)]
       end.

Section host.
Context {H : Type} `{!KvmHost H}.

(** [m] run by the owner of descriptor [fd], which is dropped when [m] fails. *)
Definition releasing {E A} (fd : Z) (m : prog H E A) : prog H E A := λ h,
  match m h with
  | (Ok a, h) => (Ok a, h)
  | (r, h) => (r, host_close fd h)
  end.
(** A buffer call of which only success is of interest. *)
Definition fill {A} (call : buffer_call H A) (fd capacity : Z) : prog H io_error (Z * list A) := λ h,
  let '(r, buffer, h) := call fd capacity h in (u ← r; mret buffer, h).

(** ** Opening the backend *)
Definition host_check_extension (fd : Z) (name : string) (id : Z) : prog H Error Capability :=
  value ← pmap_err (host_io "KVM_CHECK_EXTENSION") (ioctl_check_extension fd id);
  mret (mkCapability name id value).
Fixpoint check_extensions (fd : Z) (names : list (string * Z)) : prog H Error (list Capability) :=
  match names with
  | [] => mret []
  | (name, id) :: names =>
      capability ← host_check_extension fd name id;
      capabilities ← check_extensions fd names;
      mret (capability :: capabilities)
  end.
Definition query_host_cpuid (fd : Z) : prog H Error HostCpuid :=
  '(nent, entries) ← pmap_err (host_io "KVM_GET_SUPPORTED_CPUID")
                       (fill ioctl_supported_cpuid fd KVM_MAX_SUPPORTED_CPUID_ENTRIES);
  count ← lift (validate_supported_cpuid_count nent KVM_MAX_SUPPORTED_CPUID_ENTRIES);
  entries ← lift (slice entries 0 count);
  mret {| host_cpuid_entries := cpuid_entry_from_kvm <$> entries |}.
(** The probe with an empty buffer: [E2BIG] is expected. *)
Definition probe (call : buffer_call H Z) (operation : string) (fd : Z) : prog H Error Z := λ h,
  match call fd 0 h with
  | (Err source, (nmsrs, _), h) => (if is_too_big source then Ok nmsrs else Err (host_io operation source), h)
  | (Ok _, (nmsrs, _), h) => (Ok nmsrs, h)
  | (Panic, _, h) => (Panic, h)
  end.
(** Probe and query of one of the two MSR lists: the raw indices. *)
Definition query_msr_list (call : buffer_call H Z) (operation probing : string) (validate : Z → Z → res Error Z)
    (fd : Z) : prog H Error (list Z) :=
  nmsrs ← probe call probing fd;
  _ ← lift (validate nmsrs KVM_MAX_MSR_INDEX_LIST_ENTRIES);
  '(nmsrs, indices) ← pmap_err (host_io operation) (fill call fd KVM_MAX_MSR_INDEX_LIST_ENTRIES);
  count ← lift (validate nmsrs KVM_MAX_MSR_INDEX_LIST_ENTRIES);
  lift (slice indices 0 count).
Definition query_host_msr_indices (fd : Z) : prog H Error HostMsrIndexList :=
  raw ← query_msr_list ioctl_msr_index_list "KVM_GET_MSR_INDEX_LIST" "KVM_GET_MSR_INDEX_LIST probe"
          validate_msr_index_count fd;
  lift (host_from_validated_raw raw).
Definition query_host_msr_feature_indices (fd : Z) : prog H Error HostMsrFeatureIndexList :=
  raw ← query_msr_list ioctl_msr_feature_index_list "KVM_GET_MSR_FEATURE_INDEX_LIST"
          "KVM_GET_MSR_FEATURE_INDEX_LIST probe" validate_msr_feature_index_count fd;
  mret (feature_from_validated_raw raw).
(** [sys::get_msrs] on a buffer of [capacity] entries. *)
Definition sys_get_msrs (fd capacity : Z) (requested : list Z) : prog H io_error (Z * list (Z * Z)) :=
  lift (err_if (capacity <? len requested)
    (Custom InvalidInput (Message "KVM MSR request count exceeds buffer capacity")));;
  '(returned, entries) ← ioctl_system_get_msrs fd requested;
  count ← lift (ok_or (usize_from_i32 returned) (invalid_data "KVM_GET_MSRS returned a negative success count"));
  mret (count, entries).
Fixpoint decode_feature_entries (pairs : list (Z * (Z * Z))) : res io_error (list MsrFeatureValue) :=
  match pairs with
  | [] => Ok []
  | (expected_index, (index, data)) :: rest =>
      err_if (negb (index =? expected_index)) (invalid_data "KVM_GET_MSRS changed feature index");;
      values ← decode_feature_entries rest;
      mret (feature_value_new expected_index data :: values)
  end.
Definition decode_host_msr_feature_values (expected : list Z) (returned : Z) (entries : list (Z * Z))
    : res Error HostMsrFeatureValues :=
  map_err (host_io "validate KVM_GET_MSRS feature response") (
    (if returned =? len expected then Ok tt
     else if returned <? len expected then
       index expected returned ≫= λ _ : Z,
         Err (invalid_data "KVM_GET_MSRS returned fewer feature MSRs than requested")
     else Err (invalid_data "KVM_GET_MSRS returned more feature MSRs than requested"));;
    err_if (len entries <? len expected) (invalid_data "KVM_GET_MSRS response buffer has too few entries");;
    values ← decode_feature_entries (zip expected entries);
    mret {| observed_values := values |}).
Definition query_host_msr_feature_values (fd : Z) (indices : HostMsrFeatureIndexList)
    : prog H Error HostMsrFeatureValues :=
  let expected := feature_indices indices in
  if is_empty expected then mret {| observed_values := [] |}
  else
    lift (debug_assert (len expected <=? KVM_MAX_MSR_INDEX_LIST_ENTRIES));;
    _ ← lift (expect (try_from 32 (len expected)));
    '(returned, entries) ← pmap_err (host_io "KVM_GET_MSRS feature values")
                             (sys_get_msrs fd KVM_MAX_MSR_INDEX_LIST_ENTRIES expected);
    entries ← lift (slice entries 0 (len expected));
    lift (decode_host_msr_feature_values expected returned entries).
Definition open_path : prog H Error KvmBackend :=
  fd ← pmap_err classify_open_error open_dev_kvm;
  releasing fd (
    api ← pmap_err (host_io "KVM_GET_API_VERSION") (ioctl_api_version fd);
    mmap_size ← pmap_err (host_io "KVM_GET_VCPU_MMAP_SIZE") (ioctl_vcpu_mmap_size fd);
    required ← check_extensions fd REQUIRED_EXTENSIONS;
    optional ← check_extensions fd OPTIONAL_EXTENSIONS;
    let caps := {| api_version := api; vcpu_mmap_size := mmap_size; extensions := required ++ optional |} in
    lift (capabilities_validate caps);;
    cpuid ← query_host_cpuid fd;
    msr_indices ← query_host_msr_indices fd;
    feature_indices ← query_host_msr_feature_indices fd;
    feature_values ← query_host_msr_feature_values fd feature_indices;
    mret {| backend_fd := fd; capabilities := caps; host_cpuid := cpuid; host_msr_indices := msr_indices;
            host_msr_feature_indices := feature_indices; host_msr_feature_values := feature_values;
            backend_cpu_policy := cpu_policy_from_host cpuid |}).

(** ** Virtual machines *)
Definition create_vm (self : KvmBackend) : prog H Error Vm :=
  fd ← pmap_err (λ source, HostEnvironment (VmCreation source)) (ioctl_create_vm (backend_fd self));
  releasing fd (
    pmap_err (vm_operation_error "KVM_SET_IDENTITY_MAP_ADDR") (ioctl_set_identity_map_addr fd KVM_IDENTITY_MAP_ADDR);;
    pmap_err (vm_operation_error "KVM_SET_TSS_ADDR") (ioctl_set_tss_addr fd KVM_TSS_ADDR);;
    mmap_size ← lift (expect (usize_from_i32 (vcpu_mmap_size (capabilities self))));
    mret (mkVm fd None mmap_size (backend_cpu_policy self) (supports_internal_error_data (capabilities self)))).
Definition unregister_guest_memory (self : Vm) : prog H io_error unit :=
  ioctl_set_user_memory_region (vm_fd self) unregister_slot0.
(** [Vm::drop] and then the drop of its fields: the descriptor, then the memory that is left. *)
Definition drop_vm (self : Vm) (h : H) : H :=
  match vm_guest_memory self with
  | None => host_close (vm_fd self) h
  | Some memory =>
      match unregister_guest_memory self h with
      | (Ok _, h) => host_munmap (mapped_at memory) (host_close (vm_fd self) h)
      | (_, h) => host_close (vm_fd self) h
      end
  end.
Definition require_irqchip_capability (self : KvmBackend) : prog H Error unit :=
  value ← pmap_err (host_io "KVM_CHECK_EXTENSION KVM_CAP_IRQCHIP")
            (ioctl_check_extension (backend_fd self) KVM_CAP_IRQCHIP);
  lift (err_if (value <=? 0) (KvmCapability (MissingExtension "KVM_CAP_IRQCHIP" KVM_CAP_IRQCHIP))).
(** The irqchip of a new VM, which is dropped when the ioctl fails. *)
Definition with_irqchip (vm : Vm) : prog H Error Vm := λ h,
  match ioctl_create_irqchip (vm_fd vm) h with
  | (Ok _, h) => (Ok vm, h)
  | (Err source, h) => (Err (vm_operation_error "KVM_CREATE_IRQCHIP" source), drop_vm vm h)
  | (Panic, h) => (Panic, drop_vm vm h)
  end.
Definition create_vm_with_irqchip (self : KvmBackend) : prog H Error Vm :=
  require_irqchip_capability self;;
  vm ← create_vm self;
  with_irqchip vm.

(** ** Guest memory: the VM is changed in place; a memory that is refused is dropped *)
Definition register_with (flags : Z) (memory : MappedMemory) : prog (Vm * H) Error unit := λ s,
  let '(self, h) := s in
  let region := region (mapped_memory memory) in
  let refuse e := (Err e, (self, host_munmap (mapped_at memory) h)) in
  match vm_guest_memory self with
  | Some _ => refuse (GuestMemoryErr AlreadyRegistered)
  | None =>
      match validate_guest_memory_registration region with
      | Ok _ =>
          let request := {| slot := 0; slot_flags := flags; guest_phys_addr := base region;
                            memory_size := region_size region; userspace_addr := mapped_at memory |} in
          match ioctl_set_user_memory_region (vm_fd self) request h with
          | (Ok _, h) =>
              (Ok tt, (mkVm (vm_fd self) (Some memory) (vm_mmap_size self) (vm_cpu_policy self)
                         (vm_supports_internal_error_data self), h))
          | (Err source, h) =>
              (Err (GuestMemoryErr (Registration source)), (self, host_munmap (mapped_at memory) h))
          | (Panic, h) => (Panic, (self, h))
          end
      | Err e => refuse e
      | Panic => (Panic, (self, h))
      end
  end.
Definition register_guest_memory : MappedMemory → prog (Vm * H) Error unit := register_with 0.
Definition register_guest_memory_with_dirty_log (memory : MappedMemory) : prog (Vm * H) Error DirtyLogSlot0 :=
  register_with KVM_MEM_LOG_DIRTY_PAGES memory;;
  lift (for_region (region (mapped_memory memory))).
(** [harvest_dirty_log]; the bitmap has [bitmap_words] words before and after the ioctl. *)
Definition harvest_dirty_log (dirty : DirtyLogSlot0) (self : Vm) : prog H Error (list Z) :=
  lift (err_if (match vm_guest_memory self with None => true | Some _ => false end)
    (vm_operation_error "KVM_GET_DIRTY_LOG"
       (Custom InvalidInput (Message "dirty-log harvest requires registered guest memory"))));;
  lift (debug_assert (negb (bitmap_words dirty =? 0)));;
  bitmap ← pmap_err (vm_operation_error "KVM_GET_DIRTY_LOG") (ioctl_get_dirty_log (vm_fd self) (bitmap_words dirty));
  mret (mask_unused_bitmap_bits bitmap (page_count dirty)).

(** ** vCPUs *)
Definition apply_cpu_policy (policy : GuestCpuPolicy) (id fd : Z) : prog H Error unit :=
  let entries := cpu_policy_entries policy in
  lift (debug_assert (len entries <=? KVM_MAX_SUPPORTED_CPUID_ENTRIES));;
  _ ← lift (expect (try_from 32 (len entries)));
  pmap_err (λ source, HostEnvironment (VcpuOperation id "KVM_SET_CPUID2" source))
    (ioctl_set_cpuid2 fd (cpuid_entry_to_kvm <$> entries)).
Definition read_vcpu_cpuid (id fd : Z) : prog H Error (list CpuidEntry) :=
  '(nent, entries) ← pmap_err (λ source, HostEnvironment (VcpuOperation id "KVM_GET_CPUID2" source))
                       (fill ioctl_get_cpuid2 fd KVM_MAX_SUPPORTED_CPUID_ENTRIES);
  count ← lift (validate_vcpu_cpuid_count id nent KVM_MAX_SUPPORTED_CPUID_ENTRIES);
  entries ← lift (slice entries 0 count);
  mret (cpuid_entry_from_kvm <$> entries).
Definition verify_cpu_policy_readback (policy : GuestCpuPolicy) (id : Z) (actual : list CpuidEntry) : res Error unit :=
  err_if (negb (bool_decide (cpu_policy_entries policy = actual)))
    (HostEnvironment (VcpuOperation id "verify KVM_GET_CPUID2 policy"
       (invalid_data "KVM CPUID read-back differs from the policy"))).
(** [Vcpu::from_kvm_fd] of [src/src/vcpu.rs]. *)
Definition from_kvm_fd (id fd run_mmap_size : Z) (internal_error_data : bool) : prog H Error VcpuHandle :=
  lift (map_err (λ source, HostEnvironment (VcpuRunMapping id source))
    (err_if (run_mmap_size <? required_kvm_run_prefix_size) (Custom InvalidInput
       (Message "kvm_run mmap length is smaller than the required x86 exit payload prefix"))));;
  run ← pmap_err (λ source, HostEnvironment (VcpuRunMapping id source)) (mmap_run fd run_mmap_size);
  mret {| vcpu_id := id; vcpu_fd_raw := fd; vcpu_run := run; vcpu_internal_error_data := internal_error_data |}.
Definition create_vcpu (self : Vm) (id : Z) : prog H Error VcpuHandle :=
  fd ← pmap_err (λ source, HostEnvironment (VcpuCreation id source)) (ioctl_create_vcpu (vm_fd self) id);
  releasing fd (
    apply_cpu_policy (vm_cpu_policy self) id fd;;
    readback ← read_vcpu_cpuid id fd;
    lift (verify_cpu_policy_readback (vm_cpu_policy self) id readback);;
    from_kvm_fd id fd (vm_mmap_size self) (vm_supports_internal_error_data self)).
End host.

(** * Facts *)

(** ** Registration and the reserved range *)
Definition reserved_region : GuestMemoryRegion := mkRegion KVM_IDENTITY_MAP_ADDR KVM_RESERVED_X86_SIZE.
Lemma reserved_region_wf : region_wf reserved_region.
Proof. by vm_compute. Qed.
Lemma reserved_region_ok : reserved_kvm_x86_region = Ok reserved_region.
Proof. reflexivity. Qed.
(** The addresses KVM keeps for itself. *)
Definition kvm_reserved (x : Z) : Prop := KVM_IDENTITY_MAP_ADDR ≤ x < KVM_IDENTITY_MAP_ADDR + KVM_RESERVED_X86_SIZE.
Lemma registration_spec r :
  region_wf r →
  no_panic (validate_guest_memory_registration r) ∧
  (validate_guest_memory_registration r = Ok tt ↔ ∀ x, base r ≤ x < base r + region_size r → ¬ kvm_reserved x).
Proof.
  intros Hr. unfold validate_guest_memory_registration. rewrite reserved_region_ok. cbn.
  destruct (overlaps_spec r reserved_region Hr reserved_region_wf) as (o&->&Ho). cbn. unfold kvm_reserved.
  split; [by destruct o|]. destruct o; cbn.
  - split; [done|]. intros Hn. destruct (proj1 Ho eq_refl) as (x&Hx&Hy). by destruct (Hn x).
  - split; [|done]. intros _ x Hx Hy. by assert (false = true) by (apply Ho; eauto).
Qed.

(** ** The dirty log *)
Definition bitmap_bit (bitmap : list Z) (i : Z) : bool :=
  Z.testbit (nth (Z.to_nat (i / 64)) bitmap 0) (i mod 64).
Lemma for_region_ok r :
  region_wf r → ∃ d, for_region r = Ok d ∧ page_count d * KVM_MEMORY_ALIGNMENT = region_size r ∧
    0 < bitmap_words d ∧ (bitmap_words d - 1) * 64 < page_count d ≤ bitmap_words d * 64.
Proof.
  intros (?&?&?&Hm&?). unfold for_region, urem, udiv, KVM_MEMORY_ALIGNMENT in *. cbn. rewrite Hm. cbn.
  set (p := region_size r / 4096). assert (0 < p ∧ p * 4096 = region_size r) as [Hp Hps].
  { subst p. Z.to_euclidean_division_equations. lia. }
  set (w := p / 64 + (if p mod 64 =? 0 then 0 else 1)).
  assert (0 < w < 2 ^ 64 ∧ (w - 1) * 64 < p ≤ w * 64) as (?&?&?).
  { subst w. destruct (Z.eqb_spec (p mod 64) 0); Z.to_euclidean_division_equations; lia. }
  unfold try_from. zcmp. cbn. eexists. split; [done|]. cbn. split_and!; lia.
Qed.
Lemma mask_low_testbit x k i : 0 ≤ k → 0 ≤ i → Z.testbit (Z.land x (Z.shiftl 1 k - 1)) i = Z.testbit x i && (i <? k).
Proof.
  intros. rewrite Z.land_spec. f_equal. replace (Z.shiftl 1 k - 1) with (Z.ones k) by (rewrite Z.ones_equiv, Z.shiftl_1_l; lia).
  by rewrite Z.testbit_ones_nonneg.
Qed.

Lemma mask_bits bitmap pages i :
  (len bitmap - 1) * 64 < pages ≤ len bitmap * 64 → 0 ≤ i < len bitmap * 64 →
  bitmap_bit (mask_unused_bitmap_bits bitmap pages) i = bitmap_bit bitmap i && (i <? pages).
Proof.
  intros Hp Hi. unfold mask_unused_bitmap_bits, len in *. destruct (Z.eqb_spec (pages mod 64) 0) as [H0|H0].
  { assert (pages = Z.of_nat (length bitmap) * 64) as -> by (Z.to_euclidean_division_equations; lia).
    by rewrite (proj2 (Z.ltb_lt _ _)), andb_true_r by lia. }
  destruct (last bitmap) as [w|] eqn:Hl; [|apply last_None in Hl as ->; cbn in *; lia].
  rewrite last_lookup in Hl. set (n := (length bitmap - 1)%nat) in *.
  assert (pred (length bitmap) = n) as Hpred by (unfold n; lia). rewrite Hpred in Hl.
  assert (n < length bitmap)%nat as Hn by (by apply lookup_lt_Some in Hl).
  assert (pages / 64 = Z.of_nat n ∧ pages = Z.of_nat n * 64 + pages mod 64) as [Hq Hr] by (Z.to_euclidean_division_equations; lia).
  unfold bitmap_bit. destruct (decide (i / 64 = Z.of_nat n)) as [Heq|Hne].
  - rewrite Heq, Nat2Z.id, app_nth2, length_take_le, Nat.sub_diag by (rewrite ?length_take; lia). cbn [nth].
    rewrite (nth_lookup_Some bitmap n 0 w Hl), mask_low_testbit by (Z.to_euclidean_division_equations; lia).
    f_equal. apply eq_true_iff_eq. rewrite !Z.ltb_lt. Z.to_euclidean_division_equations. lia.
  - rewrite app_nth1 by (rewrite length_take; Z.to_euclidean_division_equations; lia).
    rewrite (proj2 (Z.ltb_lt i pages)), andb_true_r by (Z.to_euclidean_division_equations; lia).
    rewrite nth_lookup, lookup_take_lt, <- nth_lookup; [done|]. Z.to_euclidean_division_equations. lia.
Qed.

(** ** Virtual machines and their memory slots

    What the slots can change of the kernel: which VM each open VM descriptor stands
    for, the RAM slot of each VM the kernel still has, and which host addresses are
    mapped.  A VM can outlive its descriptor while a vCPU descriptor is open. *)
Record HostView := mkHostView {
  vm_of : gmap Z Z; ram_slot : gmap Z KvmUserspaceMemoryRegion; mapped : gset Z
}.
Class KvmHostLaws (H : Type) `{!KvmHost H} := {
  host_view : H → HostView;
  create_vm_law fd h :
    runs (ioctl_create_vm fd) h
      (λ fd' h', ∃ v, vm_of (host_view h) !! fd' = None ∧ (∀ f w, vm_of (host_view h) !! f = Some w → w ≠ v) ∧
         ram_slot (host_view h) !! v = None ∧
         host_view h' = mkHostView (<[fd' := v]> (vm_of (host_view h))) (ram_slot (host_view h)) (mapped (host_view h)))
      (λ _ h', host_view h' = host_view h);
  identity_map_law fd a h :
    runs (ioctl_set_identity_map_addr fd a) h (λ _ h', host_view h' = host_view h) (λ _ h', host_view h' = host_view h);
  tss_law fd a h :
    runs (ioctl_set_tss_addr fd a) h (λ _ h', host_view h' = host_view h) (λ _ h', host_view h' = host_view h);
  irqchip_law fd h :
    runs (ioctl_create_irqchip fd) h (λ _ h', host_view h' = host_view h) (λ _ h', host_view h' = host_view h);
  extension_law fd id h :
    runs (ioctl_check_extension fd id) h (λ _ h', host_view h' = host_view h) (λ _ h', host_view h' = host_view h);
  memory_region_law fd r h v :
    vm_of (host_view h) !! fd = Some v →
    runs (ioctl_set_user_memory_region fd r) h
      (λ _ h', host_view h' = mkHostView (vm_of (host_view h))
         (if memory_size r =? 0 then delete v (ram_slot (host_view h)) else <[v := r]> (ram_slot (host_view h)))
         (mapped (host_view h)))
      (λ _ h', host_view h' = host_view h);
  close_law fd h v :
    vm_of (host_view h) !! fd = Some v →
    ∃ slots, host_view (host_close fd h) = mkHostView (delete fd (vm_of (host_view h))) slots (mapped (host_view h)) ∧
      (∀ w, w ≠ v → slots !! w = ram_slot (host_view h) !! w) ∧
      (slots !! v = ram_slot (host_view h) !! v ∨ slots !! v = None);
  munmap_law a h :
    host_view (host_munmap a h) =
      mkHostView (vm_of (host_view h)) (ram_slot (host_view h)) (mapped (host_view h) ∖ {[a]})
}.

(** The slot that belongs to the memory of a VM. *)
Definition slot_of (flags : Z) (m : MappedMemory) : KvmUserspaceMemoryRegion :=
  {| slot := 0; slot_flags := flags; guest_phys_addr := base (region (mapped_memory m));
     memory_size := region_size (region (mapped_memory m)); userspace_addr := mapped_at m |}.
Definition backend_ok (b : KvmBackend) : Prop := capabilities_validate (capabilities b) = Ok tt.
(** What may happen: memory is mapped, VMs are created, given memory and dropped. *)
Section system.
Context {H : Type} `{!KvmHost H} `{!KvmHostLaws H}.
Abbreviation System := (H * list Vm)%type.
(** A mapping that no slot uses. *)
Definition free_mapping (h : H) (m : MappedMemory) : Prop :=
  memory_wf (mapped_memory m) ∧ mapped_at m ∈ mapped (host_view h) ∧
  ∀ v r, ram_slot (host_view h) !! v = Some r → userspace_addr r ≠ mapped_at m.
Inductive vm_step : System → System → Prop :=
  | step_map h h' vms a :
      (a ∉ mapped (host_view h)) →
      host_view h' = mkHostView (vm_of (host_view h)) (ram_slot (host_view h)) ({[a]} ∪ mapped (host_view h)) →
      vm_step (h, vms) (h', vms)
  | step_create backend vm h h' vms :
      backend_ok backend → create_vm backend h = (Ok vm, h') → vm_step (h, vms) (h', vm :: vms)
  | step_create_fails backend e h h' vms :
      backend_ok backend → create_vm backend h = (Err e, h') → vm_step (h, vms) (h', vms)
  | step_create_irqchip backend vm h h' vms :
      backend_ok backend → create_vm_with_irqchip backend h = (Ok vm, h') → vm_step (h, vms) (h', vm :: vms)
  | step_create_irqchip_fails backend e h h' vms :
      backend_ok backend → create_vm_with_irqchip backend h = (Err e, h') → vm_step (h, vms) (h', vms)
  | step_register memory vm vm' r h h' before after :
      free_mapping h memory → register_guest_memory memory (vm, h) = (r, (vm', h')) →
      vm_step (h, before ++ vm :: after) (h', before ++ vm' :: after)
  | step_register_dirty memory vm vm' r h h' before after :
      free_mapping h memory → register_guest_memory_with_dirty_log memory (vm, h) = (r, (vm', h')) →
      vm_step (h, before ++ vm :: after) (h', before ++ vm' :: after)
  | step_drop vm h before after :
      vm_step (h, before ++ vm :: after) (drop_vm vm h, before ++ after).
(** Nothing is running yet. *)
Definition system_start (s : System) : Prop :=
  s.2 = [] ∧ vm_of (host_view s.1) = ∅ ∧ ram_slot (host_view s.1) = ∅.

(** The slots of the kernel: RAM that is mapped, used by one VM and clear of KVM's own pages. *)
Definition slots_safe (V : HostView) : Prop :=
  (∀ v r, ram_slot V !! v = Some r →
     userspace_addr r ∈ mapped V ∧ 0 < memory_size r ∧
     ∀ x, guest_phys_addr r ≤ x < guest_phys_addr r + memory_size r → ¬ kvm_reserved x) ∧
  (∀ v w r q, ram_slot V !! v = Some r → ram_slot V !! w = Some q → userspace_addr r = userspace_addr q → v = w).
(** A VM the process holds: the kernel's slot is its memory. *)
Definition vm_ok (V : HostView) (vm : Vm) : Prop :=
  ∃ v, vm_of V !! vm_fd vm = Some v ∧
    match vm_guest_memory vm with
    | None => ram_slot V !! v = None
    | Some m => ∃ flags, ram_slot V !! v = Some (slot_of flags m)
    end.
Definition fds_distinct (V : HostView) : Prop :=
  ∀ f g v, vm_of V !! f = Some v → vm_of V !! g = Some v → f = g.
Definition view_ok (V : HostView) (vms : list Vm) : Prop :=
  slots_safe V ∧ fds_distinct V ∧ NoDup (vm_fd <$> vms) ∧ Forall (vm_ok V) vms.
Definition system_ok (s : System) : Prop := view_ok (host_view s.1) s.2.

Lemma vm_ok_fd V vms f : Forall (vm_ok V) vms → vm_of V !! f = None → f ∉ vm_fd <$> vms.
Proof.
  clear. intros Hf Hn (vm&->&Hvm)%list_elem_of_fmap. rewrite Forall_forall in Hf.
  destruct (Hf vm Hvm) as (v'&Hv'&_). congruence.
Qed.
(** A new VM. *)
Definition view_with_vm (V : HostView) (f v : Z) : HostView :=
  mkHostView (<[f := v]> (vm_of V)) (ram_slot V) (mapped V).
Lemma view_ok_create V vms vm f v :
  view_ok V vms → vm_of V !! f = None → (∀ g w, vm_of V !! g = Some w → w ≠ v) → ram_slot V !! v = None →
  vm_fd vm = f → vm_guest_memory vm = None → view_ok (view_with_vm V f v) (vm :: vms).
Proof.
  intros (Hs&Hd&Hn&Hf) Hfree Hv Hslot <- Hm. split_and!.
  - exact Hs.
  - intros g g' w. cbn. rewrite !lookup_insert_Some. intros [[<- <-]|[? H1]] [[<- E]|[? H2]]; try done.
    + by destruct (Hv _ _ H2).
    + subst. by destruct (Hv _ _ H1).
    + by eapply Hd.
  - cbn. constructor; [by eapply vm_ok_fd|done].
  - constructor.
    + exists v. rewrite Hm. cbn. by rewrite lookup_insert_eq.
    + eapply Forall_impl; [exact Hf|]. intros vm' (w&Hw&Hmem). exists w. split; [|done]. cbn.
      rewrite lookup_insert_ne; [done|]. congruence.
Qed.
Lemma view_same V W :
  vm_of V = vm_of W → (∀ v, ram_slot V !! v = ram_slot W !! v) → mapped V = mapped W → V = W.
Proof. destruct V, W. cbn. intros -> Hs ->. f_equal. by apply map_eq. Qed.
(** Releasing the descriptor of a VM that has no slot. *)
Lemma close_new h f v V :
  host_view h = view_with_vm V f v → vm_of V !! f = None → ram_slot V !! v = None → host_view (host_close f h) = V.
Proof.
  intros Hh Hf Hv. destruct (close_law f h v) as (slots&->&Ho&Hs); [rewrite Hh; apply lookup_insert_eq|].
  rewrite Hh in *. cbn in *. apply view_same; cbn; [by rewrite delete_insert_id| |done].
  intros w. destruct (decide (w = v)) as [->|]; [|by apply Ho]. rewrite Hv in *. by destruct Hs.
Qed.
Lemma runs_releasing {E A} f (m : prog H E A) h Q X :
  runs m h Q (λ e h', X e (host_close f h')) → runs (releasing f m) h Q X.
Proof. unfold runs, releasing. by destruct (m h) as [[] ?]. Qed.
Definition vm_created (V : HostView) (vm : Vm) (W : HostView) : Prop :=
  ∃ v, vm_of V !! vm_fd vm = None ∧ (∀ g w, vm_of V !! g = Some w → w ≠ v) ∧ ram_slot V !! v = None ∧
    vm_guest_memory vm = None ∧ W = view_with_vm V (vm_fd vm) v.
Lemma create_vm_runs b h :
  backend_ok b →
  runs (create_vm b) h (λ vm h', vm_created (host_view h) vm (host_view h')) (λ _ h', host_view h' = host_view h).
Proof.
  intros Hb. apply runs_bind, runs_pmap_err. eapply runs_mono; [apply create_vm_law| |done].
  intros f h1 (v&Hf&Hfresh&Hslot&Hh1). apply runs_releasing, runs_bind, runs_pmap_err.
  eapply runs_mono; [apply identity_map_law| |].
  2:{ intros e h2 Hh2. rewrite Hh1 in Hh2. by eapply close_new. }
  intros u2 h2 Hh2. cbv beta in Hh2. rewrite Hh1 in Hh2. apply runs_bind, runs_pmap_err.
  eapply runs_mono; [apply tss_law| |].
  2:{ intros e h3 Hh3. rewrite Hh2 in Hh3. by eapply close_new. }
  intros u3 h3 Hh3. cbv beta in Hh3. rewrite Hh2 in Hh3.
  assert (usize_from_i32 (vcpu_mmap_size (capabilities b)) = Some (vcpu_mmap_size (capabilities b))) as He.
  { unfold backend_ok, capabilities_validate in Hb. bind_inv Hb. unfold usize_from_i32. by zcmp. }
  rewrite He. apply runs_bind. cbn. by exists v.
Qed.
Lemma create_vm_with_irqchip_runs b h :
  backend_ok b →
  runs (create_vm_with_irqchip b) h (λ vm h', vm_created (host_view h) vm (host_view h'))
    (λ _ h', host_view h' = host_view h).
Proof.
  intros Hb. apply runs_bind, runs_bind, runs_pmap_err. eapply runs_mono; [apply extension_law| |done].
  intros value h1 Hh1. cbv beta in Hh1. apply runs_lift; [np|intros _ _|by intros].
  apply runs_bind. eapply runs_mono; [by apply create_vm_runs| |by intros e h2 ->].
  intros vm h2 (v&Hf&Hfresh&Hslot&Hm&Hh2). rewrite Hh1 in *. unfold runs, with_irqchip.
  pose proof (irqchip_law (vm_fd vm) h2) as Hi. unfold runs in Hi.
  destruct (ioctl_create_irqchip (vm_fd vm) h2) as [[u|e|] h3]; [|..|done].
  - rewrite Hi. by exists v.
  - unfold drop_vm. rewrite Hm. eapply close_new; [by rewrite Hi|done..].
Qed.

(** Registering memory. *)
Lemma slots_safe_unmap V a :
  slots_safe V → (∀ v r, ram_slot V !! v = Some r → userspace_addr r ≠ a) →
  slots_safe (mkHostView (vm_of V) (ram_slot V) (mapped V ∖ {[a]})).
Proof.
  intros [Hs Hd] Ha. split; [|exact Hd]. intros v r Hr. destruct (Hs v r Hr) as (?&?&?). split_and!; [|done..].
  cbn. specialize (Ha v r Hr). set_solver.
Qed.
Lemma view_ok_unmap V vms a :
  view_ok V vms → (∀ v r, ram_slot V !! v = Some r → userspace_addr r ≠ a) →
  view_ok (mkHostView (vm_of V) (ram_slot V) (mapped V ∖ {[a]})) vms.
Proof. intros (Hs&?&?&?) Ha. split_and!; [by apply slots_safe_unmap|done..]. Qed.
Lemma vm_ok_other V vm' f v slots M :
  fds_distinct V → vm_of V !! f = Some v → vm_fd vm' ≠ f → (∀ w, w ≠ v → slots !! w = ram_slot V !! w) →
  vm_ok V vm' → vm_ok (mkHostView (vm_of V) slots M) vm'.
Proof.
  intros Hd Hf Hne Ho (w&Hw&Hm). exists w. split; [done|]. cbn. rewrite Ho; [done|]. intros ->.
  by apply Hne, (Hd _ _ v).
Qed.
Lemma Forall_others V (vms : list Vm) f v slots M :
  fds_distinct V → vm_of V !! f = Some v → f ∉ vm_fd <$> vms → (∀ w, w ≠ v → slots !! w = ram_slot V !! w) →
  Forall (vm_ok V) vms → Forall (vm_ok (mkHostView (vm_of V) slots M)) vms.
Proof.
  intros Hd Hf Hn Ho HF. rewrite Forall_forall in *. intros vm' Hvm'.
  apply (vm_ok_other V vm' f v); [done..| |done|by apply HF]. intros <-. by apply Hn, list_elem_of_fmap_2.
Qed.
Lemma fd_split (before after : list Vm) vm :
  NoDup (vm_fd <$> before ++ vm :: after) → vm_fd vm ∉ vm_fd <$> before ++ after.
Proof.
  rewrite !fmap_app, fmap_cons. intros (H1&H2&H3)%NoDup_app. apply NoDup_cons in H3 as [H3 _].
  specialize (H2 (vm_fd vm)). set_solver.
Qed.
Lemma view_ok_register V before after vm m flags v :
  view_ok V (before ++ vm :: after) → vm_of V !! vm_fd vm = Some v → memory_wf (mapped_memory m) →
  validate_guest_memory_registration (region (mapped_memory m)) = Ok tt →
  mapped_at m ∈ mapped V → (∀ v r, ram_slot V !! v = Some r → userspace_addr r ≠ mapped_at m) →
  view_ok (mkHostView (vm_of V) (<[v := slot_of flags m]> (ram_slot V)) (mapped V))
    (before ++ mkVm (vm_fd vm) (Some m) (vm_mmap_size vm) (vm_cpu_policy vm) (vm_supports_internal_error_data vm) :: after).
Proof.
  intros (Hs&Hd&Hn&HF) Hv Hwf Hreg Hmap Hfree. pose proof (fd_split _ _ _ Hn) as Hnin.
  pose proof (proj1 (proj2 (registration_spec _ (proj1 Hwf))) Hreg) as Hres. split_and!; [|done| |].
  - destruct Hs as [Hs Hds]. split.
    + intros w r. cbn. rewrite lookup_insert_Some. intros [[<- <-]|[_ Hr]]; [|by apply (Hs w)].
      split_and!; [done|apply Hwf|done].
    + intros w w' r r'. cbn. rewrite !lookup_insert_Some. intros [[<- <-]|[? H1]] [[<- <-]|[? H2]] Ha; try done.
      * by destruct (Hfree _ _ H2).
      * by destruct (Hfree _ _ H1).
      * by eapply Hds.
  - by rewrite fmap_app, fmap_cons in Hn |- *.
  - rewrite Forall_app, Forall_cons in HF |- *. rewrite fmap_app, not_elem_of_app in Hnin.
    assert (∀ w, w ≠ v → <[v := slot_of flags m]> (ram_slot V) !! w = ram_slot V !! w) as Ho
      by (intros; by rewrite lookup_insert_ne).
    destruct Hnin, HF as (?&?&?).
    split_and!; [by apply (Forall_others V _ (vm_fd vm) v)| |by apply (Forall_others V _ (vm_fd vm) v)].
    exists v. cbn. split; [done|]. exists flags. by rewrite lookup_insert_eq.
Qed.
Lemma register_with_ok flags m vm h before after r vm' h' :
  view_ok (host_view h) (before ++ vm :: after) → free_mapping h m →
  register_with flags m (vm, h) = (r, (vm', h')) →
  view_ok (host_view h') (before ++ vm' :: after) ∧ no_panic r.
Proof.
  intros Hok (Hwf&Hmap&Hfree) Hr. unfold register_with in Hr.
  pose proof Hok as (_&_&_&HF). rewrite Forall_app, Forall_cons in HF. destruct HF as (_&(v&Hv&Hmem)&_).
  destruct (vm_guest_memory vm) as [m'|] eqn:Hm.
  { injection Hr as <- <- <-. split; [|done]. rewrite munmap_law. by apply view_ok_unmap. }
  destruct (registration_spec _ (proj1 Hwf)) as [Hnp _].
  destruct (validate_guest_memory_registration _) as [[]|e|] eqn:Hreg; [| |done].
  2:{ injection Hr as <- <- <-. split; [|done]. rewrite munmap_law. by apply view_ok_unmap. }
  pose proof (memory_region_law (vm_fd vm) (slot_of flags m) h v Hv) as Hlaw.
  unfold slot_of, runs in Hlaw.
  destruct (ioctl_set_user_memory_region _ _ h) as [[u|e|] h1]; [|..|done]; injection Hr as <- <- <-; (split; [|done]).
  - rewrite Hlaw. cbn [memory_size]. rewrite (proj2 (Z.eqb_neq _ _)) by (destruct Hwf as ((?&?&_)&_); lia).
    by apply view_ok_register.
  - rewrite munmap_law, Hlaw. by apply view_ok_unmap.
Qed.

(** Dropping a VM. *)
Lemma view_ok_drop V before after vm v slots M :
  view_ok V (before ++ vm :: after) → vm_of V !! vm_fd vm = Some v →
  (∀ w, w ≠ v → slots !! w = ram_slot V !! w) → (slots !! v = ram_slot V !! v ∨ slots !! v = None) →
  (∀ w r, slots !! w = Some r → userspace_addr r ∈ mapped V → userspace_addr r ∈ M) →
  view_ok (mkHostView (delete (vm_fd vm) (vm_of V)) slots M) (before ++ after).
Proof.
  intros (Hs&Hd&Hn&HF) Hv Ho Hsv HM. pose proof (fd_split _ _ _ Hn) as Hnin.
  assert (∀ w r, slots !! w = Some r → ram_slot V !! w = Some r) as Hsub.
  { intros w r Hr. destruct (decide (w = v)) as [->|]; [|by rewrite <- Ho]. destruct Hsv; congruence. }
  split_and!.
  - destruct Hs as [Hs Hds]. split; cbn.
    + intros w r Hr. destruct (Hs w r (Hsub w r Hr)) as (?&?&?). split_and!; [by eapply HM|done..].
    + intros w w' r r' H1%Hsub H2%Hsub. by eapply Hds.
  - intros f g w. cbn. rewrite !lookup_delete_Some. intros [_ ?] [_ ?]. by eapply Hd.
  - rewrite fmap_app, fmap_cons in Hn. rewrite fmap_app. by apply NoDup_app in Hn as (?&?&[_ ?]%NoDup_cons);
      apply NoDup_app; split_and!; [|set_solver|].
  - rewrite Forall_app, Forall_cons in HF.
    assert (Forall (vm_ok V) (before ++ after)) as HF' by (rewrite Forall_app; tauto).
    rewrite Forall_forall in *. intros vm' Hvm'.
    assert (vm_fd vm' ≠ vm_fd vm) as Hne by (intros He; apply Hnin; rewrite <- He; by apply list_elem_of_fmap_2).
    destruct (HF' vm' Hvm') as (w&Hw&Hm). exists w. cbn. rewrite lookup_delete_ne by done. split; [done|].
    rewrite Ho; [done|]. intros ->. by apply Hne, (Hd _ _ v).
Qed.
Lemma drop_vm_ok h before after vm :
  view_ok (host_view h) (before ++ vm :: after) → view_ok (host_view (drop_vm vm h)) (before ++ after).
Proof.
  intros Hok. pose proof Hok as (Hs&Hd&_&HF). rewrite Forall_app, Forall_cons in HF. destruct HF as (_&(v&Hv&Hmem)&_).
  unfold drop_vm. destruct (vm_guest_memory vm) as [m|].
  2:{ destruct (close_law (vm_fd vm) h v Hv) as (slots&->&Ho&Hsv). by eapply view_ok_drop. }
  destruct Hmem as [flags Hmem]. pose proof (memory_region_law (vm_fd vm) unregister_slot0 h v Hv) as Hlaw.
  unfold runs in Hlaw. unfold unregister_guest_memory.
  destruct (ioctl_set_user_memory_region _ _ h) as [[u|e|] h1]; [|..|done].
  - destruct (close_law (vm_fd vm) h1 v) as (slots&Hc&Ho&Hsv); [by rewrite Hlaw|].
    rewrite munmap_law, Hc. rewrite Hlaw in *. cbn in *. rewrite lookup_delete_eq in Hsv.
    assert (slots !! v = None) as Hnone by tauto.
    eapply view_ok_drop; [done|done| |by right|].
    + intros w Hw. rewrite Ho, lookup_delete_ne; done.
    + intros w r Hr Hin. cbn. assert (w ≠ v) by congruence. rewrite Ho, lookup_delete_ne in Hr by done.
      apply elem_of_difference. split; [done|]. rewrite elem_of_singleton. intros Ha.
      destruct Hs as [_ Hds]. by destruct (Hds w v _ _ Hr Hmem Ha).
  - rewrite <- Hlaw in Hv. destruct (close_law (vm_fd vm) h1 v Hv) as (slots&->&Ho&Hsv). rewrite Hlaw in *.
    by eapply view_ok_drop.
Qed.
End system.

(** * Properties *)

(** C12: the kernel never keeps a slot of memory that is gone.  However memory is mapped and virtual
    machines are created, given memory and dropped, with any of the ioctls failing: every RAM slot the kernel
    still has is mapped host memory, belongs to one virtual machine and is clear of the four pages KVM
    reserves; and the slot of every virtual machine the process holds is exactly the memory it has, or none. *)
Theorem vm_slots_safe {H} `{!KvmHost H} `{!KvmHostLaws H} (s0 s : H * list Vm) :
  system_start s0 → rtc vm_step s0 s → system_ok s.
Proof.
  intros (Hvms&Hfds&Hslots) Hsteps.
  assert (system_ok s0) as Hok.
  { destruct s0 as [h vms]. cbn in *. subst vms. unfold system_ok, view_ok, slots_safe, fds_distinct. cbn.
    rewrite Hfds, Hslots. split_and!; [intros *; by rewrite lookup_empty..|constructor|constructor]. }
  clear Hvms Hfds Hslots. induction Hsteps as [|s1 s2 s3 Hstep _ IH]; [done|]. apply IH. clear IH.
  destruct Hstep as [h h' vms a Ha Hv|b vm h h' vms Hb Hc|b e h h' vms Hb Hc|b vm h h' vms Hb Hc|b e h h' vms Hb Hc
    |m vm vm' r h h' before after Hm Hr|m vm vm' r h h' before after Hm Hr|vm h before after];
    unfold system_ok in *; cbn in *.
  - rewrite Hv. destruct Hok as ([Hs Hd]&?&?&?). split_and!; [|done..]. split; [|done].
    intros v r Hr. destruct (Hs v r Hr) as (?&?&?). split_and!; [set_solver|done..].
  - apply (runs_Ok _ _ _ _ _ _ (create_vm_runs b h Hb)) in Hc as (v&?&?&?&?&->). by eapply view_ok_create.
  - by apply (runs_Err _ _ _ _ _ _ (create_vm_runs b h Hb)) in Hc as ->.
  - apply (runs_Ok _ _ _ _ _ _ (create_vm_with_irqchip_runs b h Hb)) in Hc as (v&?&?&?&?&->). by eapply view_ok_create.
  - by apply (runs_Err _ _ _ _ _ _ (create_vm_with_irqchip_runs b h Hb)) in Hc as ->.
  - by eapply register_with_ok.
  - unfold register_guest_memory_with_dirty_log, mbind, prog_bind in Hr.
    destruct (register_with _ m (vm, h)) as [[u|e|] [vm1 h1]] eqn:E; injection Hr as <- <- <-;
      by eapply register_with_ok.
  - by apply drop_vm_ok.
Qed.

(** ** The backend *)
(** The buffers come back as long as they were given, and no ioctl panics. *)
Class KvmHostTotal (H : Type) `{!KvmHost H} : Prop := {
  open_total h : no_panic ((open_dev_kvm (H:=H)) h).1;
  api_total fd h : no_panic (ioctl_api_version (H:=H) fd h).1;
  mmap_size_total fd h : no_panic (ioctl_vcpu_mmap_size (H:=H) fd h).1;
  extension_total fd id h : no_panic (ioctl_check_extension (H:=H) fd id h).1;
  cpuid_shape fd n h : 0 ≤ n → let '(r, (_, l), _) := ioctl_supported_cpuid (H:=H) fd n h in no_panic r ∧ len l = n;
  msr_list_shape fd n h : 0 ≤ n → let '(r, (_, l), _) := ioctl_msr_index_list (H:=H) fd n h in no_panic r ∧ len l = n;
  msr_feature_shape fd n h : 0 ≤ n → let '(r, (_, l), _) := ioctl_msr_feature_index_list (H:=H) fd n h in no_panic r ∧ len l = n;
  system_msrs_shape fd l h :
    match (ioctl_system_get_msrs (H:=H) fd l h).1 with Ok (_, es) => len l ≤ len es | Err _ => True | Panic => False end
}.
(** What [open_path] guarantees of the backend. *)
Definition backend_wf (b : KvmBackend) : Prop :=
  api_version (capabilities b) = EXPECTED_KVM_API_VERSION ∧ 0 < vcpu_mmap_size (capabilities b) ∧
  Forall (λ e, ∃ c, c ∈ extensions (capabilities b) ∧ cap_id c = e.2 ∧ 0 < cap_value c) REQUIRED_EXTENSIONS ∧
  1 ≤ len (host_cpuid_entries (host_cpuid b)) ≤ KVM_MAX_SUPPORTED_CPUID_ENTRIES ∧
  backend_cpu_policy b = cpu_policy_from_host (host_cpuid b) ∧
  NoDup (host_indices (host_msr_indices b)) ∧ host_indices (host_msr_indices b) ≠ [] ∧
  NoDup (feature_indices (host_msr_feature_indices b)) ∧
  fv_index <$> observed_values (host_msr_feature_values b) = feature_indices (host_msr_feature_indices b).

Section opening.
Context {H : Type} `{!KvmHost H} `{!KvmHostTotal H}.
Abbreviation returns m h Q := (runs m h (λ a _, Q a) (λ _ _, True)).
Lemma returns_total {E A} (m : prog H E A) h : no_panic (m h).1 → returns m h (λ _, True).
Proof. unfold runs. by destruct (m h) as [[] ?]. Qed.
Lemma returns_bind {E A B} (m : prog H E A) (f : A → prog H E B) h P Q :
  returns m h P → (∀ a h', P a → returns (f a) h' Q) → returns (m ≫= f) h Q.
Proof. intros Hm Hf. apply runs_bind. eapply runs_mono; [exact Hm| |done]. intros a h' Ha. by apply Hf. Qed.
Lemma returns_lift {E A} (x : res E A) (h : H) (Q : A → Prop) :
  no_panic x → (∀ a, x = Ok a → Q a) → returns (lift x) h Q.
Proof. intros. by apply runs_lift. Qed.
Lemma returns_relabel {E F A} (g : E → F) (m : prog H E A) h Q : returns m h Q → returns (pmap_err g m) h Q.
Proof. unfold runs, pmap_err. by destruct (m h) as [[] ?]. Qed.
Lemma validate_count_ok least capacity e n :
  no_panic (validate_count least capacity e n) ∧
  ∀ c, validate_count least capacity e n = Ok c → least ≤ c ≤ capacity.
Proof.
  unfold validate_count. split; [np|]. intros c Hc. bind_inv Hc. subst. split; lia.
Qed.
Lemma returns_fill {A} (call : buffer_call H A) fd n h :
  (let '(r, (_, l), _) := call fd n h in no_panic r ∧ len l = n) → returns (fill call fd n) h (λ b, len b.2 = n).
Proof. unfold runs, fill. by destruct (call fd n h) as [[[[]|e|] [x l]] h'] => /=; intros [? ?]. Qed.
(** A validated count of a buffer is a prefix of it. *)
Lemma returns_prefix {A} (l : list A) least capacity c (h : H) :
  0 ≤ least → least ≤ c ≤ capacity → len l = capacity →
  returns (lift (slice l 0 c) : prog H Error _) h (λ p, len p = c ∧ least ≤ len p ≤ capacity).
Proof.
  intros. apply returns_lift; [apply no_panic_slice; lia|]. intros p (->&_)%slice_Ok_inv.
  rewrite Z.sub_0_r, drop_0. unfold len in *. rewrite length_take. lia.
Qed.
Lemma check_extensions_returns fd names h : returns (check_extensions fd names) h (λ _, True).
Proof.
  revert h. induction names as [|[name id] names IH]; intros h; [done|]. cbn.
  apply (returns_bind _ _ _ (λ _, True)).
  { apply (returns_bind _ _ _ (λ _, True)); [apply returns_relabel, returns_total, extension_total|done]. }
  intros c h1 _. by apply (returns_bind _ _ _ (λ _, True)).
Qed.
Lemma query_cpuid_returns fd h :
  returns (query_host_cpuid fd) h (λ c, 1 ≤ len (host_cpuid_entries c) ≤ KVM_MAX_SUPPORTED_CPUID_ENTRIES).
Proof.
  eapply returns_bind; [by apply returns_relabel, returns_fill, cpuid_shape|]. intros [n l] h1 Hl. cbn in Hl.
  destruct (validate_count_ok 1 KVM_MAX_SUPPORTED_CPUID_ENTRIES malformed_supported_cpuid n) as [Hn Hc].
  eapply returns_bind; [apply returns_lift; [exact Hn|exact Hc]|]. intros c h2 Hcc.
  eapply returns_bind; [by apply (returns_prefix l 1 KVM_MAX_SUPPORTED_CPUID_ENTRIES)|].
  intros p h3 (_&Hp). apply runs_ret. cbn. by rewrite len_fmap.
Qed.
Lemma query_msr_list_returns (call : buffer_call H Z) op probing least e fd h :
  0 ≤ least → (∀ n h, 0 ≤ n → let '(r, (_, l), _) := call fd n h in no_panic r ∧ len l = n) →
  returns (query_msr_list call op probing (λ r c, validate_count least c e r) fd) h
    (λ p, least ≤ len p ≤ KVM_MAX_MSR_INDEX_LIST_ENTRIES).
Proof.
  intros Hleast Hcall. eapply returns_bind.
  { instantiate (1 := λ _, True). specialize (Hcall 0 h ltac:(done)). unfold runs, probe.
    destruct (call fd 0 h) as [[[u|s|] [n l]] h']; [done|by destruct (is_too_big s)|by destruct Hcall]. }
  intros n h1 _. destruct (validate_count_ok least KVM_MAX_MSR_INDEX_LIST_ENTRIES e n) as [Hn _].
  eapply returns_bind; [by apply (returns_lift _ _ (λ _, True))|]. intros _ h2 _.
  eapply returns_bind; [by apply returns_relabel, returns_fill, Hcall|]. intros [n' l] h3 Hl. cbn in Hl.
  destruct (validate_count_ok least KVM_MAX_MSR_INDEX_LIST_ENTRIES e n') as [Hn' Hc].
  eapply returns_bind; [apply returns_lift; [exact Hn'|exact Hc]|]. intros c h4 Hcc.
  eapply runs_mono; [by apply (returns_prefix l least KVM_MAX_MSR_INDEX_LIST_ENTRIES)|by intros ? ? [_ ?]|done].
Qed.
Lemma normalize_spec raw :
  NoDup (normalize_indices raw) ∧ (normalize_indices raw = [] → raw = []) ∧ len (normalize_indices raw) ≤ len raw.
Proof.
  destruct (normalize_loop_spec raw ∅) as (Hn&Hi&Hs). split_and!; [done| |].
  - intros H0. apply forall_not_elem_nil. intros x Hx.
    assert (x ∈ normalize_indices raw) as Hin by (apply Hi; set_solver). rewrite H0 in Hin. set_solver.
  - apply sublist_length in Hs. unfold normalize_indices, len in *. lia.
Qed.
Lemma decode_feature_entries_ok pairs :
  no_panic (decode_feature_entries pairs) ∧
  ∀ vs, decode_feature_entries pairs = Ok vs → fv_index <$> vs = pairs.*1.
Proof.
  induction pairs as [|[i [j d]] l [IHn IH]]; [split; [done|by intros ? [= <-]]|]. cbn. split.
  - apply no_panic_bind; [np_leaf|intros]. apply no_panic_bind; [done|intros; np].
  - intros vs Hvs. bind_inv Hvs. subst. cbn. f_equal. by apply IH.
Qed.
Lemma decode_feature_values_ok expected n entries :
  0 ≤ n → no_panic (decode_host_msr_feature_values expected n entries) ∧
  ∀ vs, decode_host_msr_feature_values expected n entries = Ok vs → fv_index <$> observed_values vs = expected.
Proof.
  intros Hn. unfold decode_host_msr_feature_values. split.
  - apply no_panic_map_err, no_panic_bind.
    { destruct (Z.eqb_spec n (len expected)); [done|]. destruct (Z.ltb_spec n (len expected)); [|done].
      apply no_panic_bind; [apply no_panic_index; lia|done]. }
    intros _ _. apply no_panic_bind; [np_leaf|intros].
    apply no_panic_bind; [apply decode_feature_entries_ok|intros; np].
  - intros vs Hvs%map_err_Ok_inv. bind_inv Hvs. subst. cbn.
    rewrite (proj2 (decode_feature_entries_ok _) _ Hstep1). apply fst_zip. unfold len in *. lia.
Qed.
Lemma query_feature_values_returns fd l h :
  len (feature_indices l) ≤ KVM_MAX_MSR_INDEX_LIST_ENTRIES →
  returns (query_host_msr_feature_values fd l) h (λ vs, fv_index <$> observed_values vs = feature_indices l).
Proof.
  intros Hl. unfold query_host_msr_feature_values. destruct (is_empty _) eqn:He.
  { apply is_empty_true in He. rewrite He. done. }
  rewrite (proj2 (Z.leb_le _ _) Hl). apply (returns_bind _ _ _ (λ _, True)); [done|]. intros _ h1 _.
  unfold try_from. rewrite (proj2 (Z.ltb_lt (len (feature_indices l)) (2 ^ 32))) by (unfold KVM_MAX_MSR_INDEX_LIST_ENTRIES in Hl; lia).
  apply (returns_bind _ _ _ (λ _, True)); [done|]. intros _ h2 _.
  apply (returns_bind _ _ _ (λ r, 0 ≤ r.1 ∧ len (feature_indices l) ≤ len r.2)).
  { apply returns_relabel. unfold sys_get_msrs. rewrite (proj2 (Z.ltb_ge _ _)) by done.
    apply (returns_bind _ _ _ (λ _, True)); [done|]. intros _ h3 _.
    apply (returns_bind _ _ _ (λ r, len (feature_indices l) ≤ len r.2)).
    { pose proof (system_msrs_shape fd (feature_indices l) h3) as Hs. unfold runs.
      by destruct (ioctl_system_get_msrs _ _ _) as [[[n es]|e|] h4]. }
    intros [n es] h4 Hes. apply (returns_bind _ _ _ (λ c, 0 ≤ c)); [|intros c h5 Hc; by apply runs_ret].
    apply returns_lift; [np|]. intros c Hc%ok_or_Ok_inv. unfold usize_from_i32 in Hc.
    destruct (Z.ltb_spec n 0); [done|]. by injection Hc as <-. }
  intros [n es] h3 [Hn Hes]. cbn in Hn, Hes.
  apply (returns_bind _ _ _ (λ _, True)); [apply returns_lift; [|done]|].
  { apply no_panic_slice; [|done]. pose proof (len_nonneg (feature_indices l)). lia. }
  intros es' h4 _. destruct (decode_feature_values_ok (feature_indices l) n es' Hn). by apply returns_lift.
Qed.
Lemma capabilities_validate_ok c :
  no_panic (capabilities_validate c) ∧
  (capabilities_validate c = Ok tt →
   api_version c = EXPECTED_KVM_API_VERSION ∧ 0 < vcpu_mmap_size c ∧
   Forall (λ e, ∃ x, x ∈ extensions c ∧ cap_id x = e.2 ∧ 0 < cap_value x) REQUIRED_EXTENSIONS).
Proof.
  assert (∀ l, no_panic (require_extensions c l) ∧ (require_extensions c l = Ok tt →
    Forall (λ e, ∃ x, x ∈ extensions c ∧ cap_id x = e.2 ∧ 0 < cap_value x) l)) as Hreq.
  { induction l as [|[name id] l [IHn IH]]; [by split|]. cbn. split; [np; auto|]. intros Hr. bind_inv Hr.
    constructor; [|by apply IH]. res_simplify. unfold extension_available in *.
    apply existsb_exists in Hstep as (x&Hx%list_elem_of_In&[Hi%Z.eqb_eq Hp%Z.ltb_lt]%andb_true_iff). by exists x. }
  unfold capabilities_validate. destruct (Hreq REQUIRED_EXTENSIONS) as [Hn Hr]. split.
  - apply no_panic_bind; [np_leaf|intros]. by apply no_panic_bind; [np_leaf|].
  - intros Hv. bind_inv Hv. split_and!; [done|lia|by apply Hr].
Qed.
End opening.

(** C36: an opened backend is one the hypervisor can use.  Opening never panics.  If it succeeds, the kernel
    speaks API version 12, its run area has a positive size and all five required extensions are there; the
    CPUID list has 1 to 256 entries and the guest policy is made of it; the MSR list is not empty and neither
    list repeats an index; and there is exactly one feature value per feature index, in order. *)
Theorem open_path_spec {H} `{!KvmHost H} `{!KvmHostTotal H} (h : H) :
  runs open_path h (λ b _, backend_wf b ∧ backend_ok b) (λ _ _, True).
Proof.
  apply (returns_bind _ _ _ (λ _, True)); [apply returns_relabel, returns_total, open_total|]. intros fd h0 _.
  apply runs_releasing.
  apply (returns_bind _ _ _ (λ _, True)); [apply returns_relabel, returns_total, api_total|]. intros api h1 _.
  apply (returns_bind _ _ _ (λ _, True)); [apply returns_relabel, returns_total, mmap_size_total|]. intros size h2 _.
  apply (returns_bind _ _ _ (λ _, True)); [apply check_extensions_returns|]. intros required h3 _.
  apply (returns_bind _ _ _ (λ _, True)); [apply check_extensions_returns|]. intros optional h4 _. cbv zeta.
  set (caps := {| api_version := api; vcpu_mmap_size := size; extensions := required ++ optional |}).
  destruct (capabilities_validate_ok caps) as [Hn Hv].
  apply (returns_bind _ _ _ (λ _, capabilities_validate caps = Ok tt)); [by apply returns_lift; [|intros []]|].
  intros _ h5 Hval. destruct (Hv Hval) as (Hapi&Hsize&Hreq).
  eapply returns_bind; [apply query_cpuid_returns|]. intros cpuid h6 Hcpuid. cbv beta in Hcpuid.
  eapply (returns_bind _ _ _ (λ l, NoDup (host_indices l) ∧ host_indices l ≠ [])).
  { eapply returns_bind; [apply (query_msr_list_returns _ _ _ 1); [lia|apply msr_list_shape]|]. intros raw h7 Hraw.
    cbv beta in Hraw. destruct (normalize_spec raw) as (?&Hne&_).
    assert (raw ≠ []) as Hr by (intros ->; unfold len in Hraw; simpl in Hraw; lia).
    unfold host_from_validated_raw. apply returns_lift; rewrite (proj2 (Z.eqb_neq (len raw) 0)) by lia; [done|].
    intros a [= <-]. cbn. tauto. }
  intros indices h7 [Hnd Hne].
  eapply (returns_bind _ _ _ (λ l, NoDup (feature_indices l) ∧ len (feature_indices l) ≤ KVM_MAX_MSR_INDEX_LIST_ENTRIES)).
  { eapply returns_bind; [apply (query_msr_list_returns _ _ _ 0); [lia|apply msr_feature_shape]|]. intros raw h8 Hraw.
    cbv beta in Hraw. destruct (normalize_spec raw) as (?&_&?). apply runs_ret. cbn. split; [done|lia]. }
  intros features h8 [Hfd Hfl].
  eapply returns_bind; [by apply query_feature_values_returns|]. intros values h9 Hvals. cbv beta in Hvals.
  apply runs_ret. by split_and!.
Qed.

(** A vCPU exists only with the CPUID the policy asks for.  [create_vcpu] succeeds only if the kernel, asked
    for the CPUID of the new vCPU, returned exactly the entries of the policy, and the run area covers
    every exit the VMM decodes; otherwise the descriptor of the vCPU is closed. *)
Theorem create_vcpu_spec {H} `{!KvmHost H} (self : Vm) (id : Z) (h : H) r h' :
  create_vcpu self id h = (r, h') →
  match r with
  | Ok vcpu =>
      vcpu_id vcpu = id ∧ required_kvm_run_prefix_size ≤ vm_mmap_size self ∧
      ∃ nent entries h1 h2,
        ioctl_get_cpuid2 (vcpu_fd_raw vcpu) KVM_MAX_SUPPORTED_CPUID_ENTRIES h1 = (Ok tt, (nent, entries), h2) ∧
        1 ≤ nent ≤ KVM_MAX_SUPPORTED_CPUID_ENTRIES ∧
        kvm_cpuid <$> take (Z.to_nat nent) entries = cpu_policy_entries (vm_cpu_policy self)
  | Err _ | Panic =>
      (∃ e, (ioctl_create_vcpu (vm_fd self) id h).1 = e ∧ ∀ fd, e ≠ Ok fd) ∨
      ∃ fd h1 h2, ioctl_create_vcpu (vm_fd self) id h = (Ok fd, h1) ∧ h' = host_close fd h2
  end.
Proof.
  unfold create_vcpu, mbind at 1, prog_bind at 1, pmap_err at 1.
  destruct (ioctl_create_vcpu (vm_fd self) id h) as [[fd|e|] h1] eqn:Hc; cbn;
    [|by intros [= <- <-]; left; eexists..].
  unfold releasing. set (body := mbind _ (apply_cpu_policy _ _ _)). destruct (body h1) as [[vcpu|e|] h2] eqn:Hm; intros [= <- <-];
    [|by right; eexists _, _, _..].
  subst body. apply prog_bind_Ok_inv in Hm as (?&h3&_&Hm). apply prog_bind_Ok_inv in Hm as (actual&h4&Hread&Hm).
  apply prog_bind_Ok_inv in Hm as ([]&h5&[= Hver <-]&Hm). apply prog_bind_Ok_inv in Hm as ([]&h6&[= Hsize <-]&Hm).
  apply prog_bind_Ok_inv in Hm as (run&h7&_&[= <- <-]). cbn.
  apply map_err_Ok_inv, err_if_Ok_inv, Z.ltb_ge in Hsize.
  apply err_if_Ok_inv, negb_false_iff, bool_decide_eq_true in Hver. split_and!; [done|done|].
  apply prog_bind_Ok_inv in Hread as ([nent entries]&h8&Hfill&Hread).
  apply prog_bind_Ok_inv in Hread as (count&h9&[= Hcount <-]&Hread).
  apply prog_bind_Ok_inv in Hread as (l&h10&[= Hl <-]&[= <- <-]).
  apply slice_Ok_inv in Hl as [-> _]. destruct (proj2 (validate_count_ok _ _ _ _) _ Hcount) as [Hlo Hhi].
  unfold validate_vcpu_cpuid_count, validate_count in Hcount. bind_inv Hcount. subst.
  unfold pmap_err, fill in Hfill. destruct (ioctl_get_cpuid2 fd _ h3) as [[[[]|e|] [n es]] h11] eqn:Hg; [|done..].
  cbn in Hfill. injection Hfill as <- <- <-. exists count, es, h3, h11. apply try_from_Some in Hstep as [-> _].
  rewrite Z.sub_0_r, drop_0 in Hver. by split_and!.
Qed.

(** A harvested dirty log has one bit for each page and nothing else.  For any valid region the log is as long
    as its pages need, the last word included; harvesting it succeeds only for a VM with memory, keeps every bit the kernel
    set for a page of the region and clears every other bit. *)
Theorem dirty_log_spec {H} `{!KvmHost H} (r : GuestMemoryRegion) :
  region_wf r →
  ∃ d, for_region r = Ok d ∧ page_count d * KVM_MEMORY_ALIGNMENT = region_size r ∧
    (bitmap_words d - 1) * 64 < page_count d ≤ bitmap_words d * 64 ∧
    ∀ (self : Vm) (h : H) bitmap h', harvest_dirty_log d self h = (Ok bitmap, h') →
      vm_guest_memory self ≠ None ∧
      ∃ raw, ioctl_get_dirty_log (vm_fd self) (bitmap_words d) h = (Ok raw, h') ∧
        (len raw = bitmap_words d → ∀ i, 0 ≤ i < bitmap_words d * 64 →
           bitmap_bit bitmap i = bitmap_bit raw i && (i <? page_count d)).
Proof.
  intros Hr. destruct (for_region_ok r Hr) as (d&Hd&Hp&Hw&Hwp). exists d. split_and!; [done..|lia|lia|].
  intros self h bitmap h' Hh.
  apply prog_bind_Ok_inv in Hh as ([]&h1&[= Hm <-]&Hh). apply err_if_Ok_inv in Hm.
  split; [by destruct (vm_guest_memory self)|]. apply prog_bind_Ok_inv in Hh as (u&h2&[= _ <-]&Hh).
  apply prog_bind_Ok_inv in Hh as (raw&h3&Hg&[= <- <-]). exists raw. unfold pmap_err in Hg.
  destruct (ioctl_get_dirty_log _ _ h) as [[raw'|e|] h4]; [|done..]. injection Hg as <- <-. split; [done|].
  intros Hl i Hi. apply mask_bits; rewrite Hl; lia.
Qed.

(** ** A host that keeps what it is given *)
Record stored_host := { sh_view : HostView; sh_cpuid : list KvmCpuidEntry2 }.
Definition set_view (f : HostView → HostView) (h : stored_host) : stored_host :=
  {| sh_view := f (sh_view h); sh_cpuid := sh_cpuid h |}.
Definition padded {A} (zero : A) (n : Z) (l : list A) : list A := take (Z.to_nat n) (l ++ replicate (Z.to_nat n) zero).
Definition zero_cpuid : KvmCpuidEntry2 := cpuid_entry_to_kvm (mkCpuid 0 0 0 0 0 0 0).
Definition new_vm (V : HostView) : Z := fresh (dom (ram_slot V) ∪ map_to_set (C:=gset Z) (λ _ v, v) (vm_of V)).
Definition new_fd (V : HostView) : Z := fresh (dom (vm_of V) : gset Z).
#[export] Instance stored_host_calls : KvmHost stored_host := {|
  open_dev_kvm h := (Ok 3, h);
  host_close fd := set_view (λ V, match vm_of V !! fd with
                                  | Some v => mkHostView (delete fd (vm_of V)) (delete v (ram_slot V)) (mapped V)
                                  | None => V
                                  end);
  host_munmap a := set_view (λ V, mkHostView (vm_of V) (ram_slot V) (mapped V ∖ {[a]}));
  ioctl_api_version _ h := (Ok 12, h);
  ioctl_vcpu_mmap_size _ h := (Ok 12288, h);
  ioctl_check_extension _ _ h := (Ok 1, h);
  ioctl_supported_cpuid _ n h := (Ok tt, (1, padded zero_cpuid n [cpuid_entry_to_kvm (mkCpuid 1 0 0 0 0 0x1200001 0)]), h);
  ioctl_msr_index_list _ n h := (if n =? 0 then Err (OsError 7 Other) else Ok tt, (2, padded 0 n [0x10; 0x10]), h);
  ioctl_msr_feature_index_list _ n h := (if n =? 0 then Err (OsError 7 Other) else Ok tt, (1, padded 0 n [0x3a]), h);
  ioctl_system_get_msrs _ l h := (Ok (len l, (λ i, (i, 5)) <$> l), h);
  ioctl_create_vm _ h := (Ok (new_fd (sh_view h)),
    set_view (λ V, mkHostView (<[new_fd V := new_vm V]> (vm_of V)) (ram_slot V) (mapped V)) h);
  ioctl_set_identity_map_addr _ _ h := (Ok tt, h);
  ioctl_set_tss_addr _ _ h := (Ok tt, h);
  ioctl_create_irqchip _ h := (Ok 0, h);
  ioctl_set_user_memory_region fd r h :=
    (Ok tt, set_view (λ V, match vm_of V !! fd with
       | Some v => mkHostView (vm_of V) (if memory_size r =? 0 then delete v (ram_slot V) else <[v := r]> (ram_slot V)) (mapped V)
       | None => V end) h);
  ioctl_get_dirty_log _ words h := (Ok (replicate (Z.to_nat words) (2 ^ 64 - 1)), h);
  ioctl_create_vcpu _ _ h := (Ok 9, h);
  ioctl_set_cpuid2 _ es h := (Ok tt, {| sh_view := sh_view h; sh_cpuid := es |});
  ioctl_get_cpuid2 _ n h := (Ok tt, (len (sh_cpuid h), padded zero_cpuid n (sh_cpuid h)), h);
  mmap_run _ n h := (Ok (replicate (Z.to_nat n) 0), h)
|}.
Lemma len_padded {A} (zero : A) n l : 0 ≤ n → len (padded zero n l) = n.
Proof. intros. unfold padded, len. rewrite length_take, length_app, length_replicate. lia. Qed.
#[export] Instance stored_host_laws : KvmHostLaws stored_host.
Proof.
  refine {| host_view := sh_view |}; try done.
  - intros fd h. unfold runs. cbn. exists (new_vm (sh_view h)).
    pose proof (is_fresh (dom (ram_slot (sh_view h)) ∪ map_to_set (C:=gset Z) (λ _ v, v) (vm_of (sh_view h)))) as Hv.
    fold (new_vm (sh_view h)) in Hv. apply not_elem_of_union in Hv as [Hs Hf]. split_and!; [| | |done].
    + apply not_elem_of_dom, (is_fresh (dom (vm_of (sh_view h)) : gset Z)).
    + intros f w Hw ->. apply Hf, elem_of_map_to_set. eauto.
    + by apply not_elem_of_dom in Hs.
  - intros fd r h v Hv. unfold runs. cbn. by rewrite Hv.
  - intros fd h v Hv. cbn. rewrite Hv. eexists. split; [done|]. split.
    + intros w Hw. by rewrite lookup_delete_ne.
    + right. apply lookup_delete_eq.
Defined.
#[export] Instance stored_host_total : KvmHostTotal stored_host.
Proof.
  split; try done; intros; cbn.
  - by rewrite len_padded.
  - rewrite len_padded by done. by case_match.
  - rewrite len_padded by done. by case_match.
  - by rewrite len_fmap.
Qed.
Definition empty_host : stored_host := {| sh_view := mkHostView ∅ ∅ ∅; sh_cpuid := [] |}.

(** Opening it gives a backend; its only CPUID entry has lost the masked bits. *)
Lemma open_path_spec_witness :
  ∃ b h, open_path empty_host = (Ok b, h) ∧ backend_wf b ∧ backend_ok b ∧
    cpu_policy_entries (backend_cpu_policy b) = [mkCpuid 1 0 0 0 0 1 0].
Proof.
  pose proof (open_path_spec empty_host) as Hs. unfold runs in Hs.
  destruct (open_path empty_host) as [[b|e|] h] eqn:Ho; [|vm_compute in Ho; discriminate..].
  exists b, h. split; [reflexivity|]. destruct Hs as [Hwf Hok]. split; [exact Hwf|]. split; [exact Hok|].
  vm_compute in Ho. injection Ho as <- _. reflexivity.
Defined.
Definition sample_backend : KvmBackend :=
  match (open_path empty_host).1 with
  | Ok b => b
  | _ => {| backend_fd := 0; capabilities := {| api_version := 0; vcpu_mmap_size := 0; extensions := [] |};
            host_cpuid := {| host_cpuid_entries := [] |}; host_msr_indices := {| host_indices := [] |};
            host_msr_feature_indices := {| feature_indices := [] |};
            host_msr_feature_values := {| observed_values := [] |};
            backend_cpu_policy := {| cpu_policy_entries := [] |} |}
  end.
Definition sample_vm : Vm := mkVm 0 None 12288 (backend_cpu_policy sample_backend) true.
Definition sample_memory_at (a : Z) : MappedMemory :=
  {| mapped_memory := mkMemory (mkRegion 0 0x4000) (mkMapping (λ _, 0) 0x4000); mapped_at := a |}.
Lemma sample_memory_at_wf a : memory_wf (mapped_memory (sample_memory_at a)).
Proof. split_and!; [by vm_compute|done|]. intros i. by vm_compute. Qed.
Lemma create_vcpu_spec_witness :
  ∃ vcpu h, create_vcpu sample_vm 0 empty_host = (Ok vcpu, h) ∧ vcpu_id vcpu = 0 ∧
    required_kvm_run_prefix_size ≤ vm_mmap_size sample_vm.
Proof.
  destruct (create_vcpu sample_vm 0 empty_host) as [r h] eqn:Hc.
  pose proof (create_vcpu_spec sample_vm 0 empty_host r h Hc) as Hs.
  destruct r as [vcpu|e|]; [|vm_compute in Hc; discriminate..].
  exists vcpu, h. destruct Hs as (Hid&Hsize&_). split; [reflexivity|]. split; [exact Hid|exact Hsize].
Defined.
Lemma dirty_log_spec_witness :
  ∃ d, for_region (mkRegion 0 0x5000) = Ok d ∧ page_count d = 5 ∧
    ∃ bitmap h, harvest_dirty_log d (mkVm 0 (Some (sample_memory_at 7)) 12288 (backend_cpu_policy sample_backend) true)
      empty_host = (Ok bitmap, h) ∧ bitmap_bit bitmap 4 = true ∧ bitmap_bit bitmap 5 = false.
Proof.
  destruct (dirty_log_spec (H:=stored_host) (mkRegion 0 0x5000)) as (d&Hd&Hp&_&Hh); [by vm_compute|].
  exists d. split; [exact Hd|]. vm_compute in Hd. injection Hd as <-. split; [reflexivity|].
  destruct (harvest_dirty_log _ _ _) as [r h] eqn:E. vm_compute in E. injection E as <- <-.
  eexists _, _. split; [reflexivity|]. split; reflexivity.
Defined.
(** Map memory, create a VM, register the memory: the slot is there and safe. *)
Lemma vm_slots_safe_witness :
  ∃ s, rtc vm_step (empty_host, []) s ∧ system_ok s ∧ size (ram_slot (host_view s.1)) = 1%nat.
Proof.
  set (h1 := set_view (λ V, mkHostView (vm_of V) (ram_slot V) ({[7]} ∪ mapped V)) empty_host).
  assert (vm_step (empty_host, []) (h1, [])) as S1 by (apply (step_map empty_host h1 [] 7); [set_solver|reflexivity]).
  destruct (create_vm sample_backend h1) as [[vm|e|] h2] eqn:Hc; [|vm_compute in Hc; discriminate..].
  assert (vm_step (h1, []) (h2, [vm])) as S2.
  { apply (step_create sample_backend); [reflexivity|exact Hc]. }
  assert (free_mapping h2 (sample_memory_at 7)) as Hfree.
  { split; [apply sample_memory_at_wf|]. vm_compute in Hc. injection Hc as _ <-. split; [by vm_compute|].
    intros v r. cbn. intros Hr. vm_compute in Hr. destruct v; discriminate. }
  destruct (register_guest_memory (sample_memory_at 7) (vm, h2)) as [r [vm' h3]] eqn:Hr.
  assert (vm_step (h2, [vm]) (h3, [vm'])) as S3 by exact (step_register (sample_memory_at 7) vm vm' r h2 h3 [] [] Hfree Hr).
  assert (rtc vm_step (empty_host, []) (h3, [vm'])) as S.
  { eapply rtc_l; [exact S1|]. eapply rtc_l; [exact S2|]. eapply rtc_l; [exact S3|]. apply rtc_refl. }
  exists (h3, [vm']). split; [exact S|]. split.
  - apply (vm_slots_safe (empty_host, [])); [by split_and!|exact S].
  - vm_compute in Hc. injection Hc as <- <-. vm_compute in Hr. injection Hr as _ _ <-. vm_compute. reflexivity.
Defined.
