(* ===== verification/PortIo.v ===== *)
(** Port I/O and PCI configuration space ([src/src/portio.rs], [src/src/pci.rs] and
    the configuration headers of [src/src/pci/virtio.rs] and [virtio_blk.rs]).

    [PortIoBus::dispatch] serves the debug port 0xe9 and, through configuration
    mechanism 1 (the address port 0xcf8 and the data port 0xcfc), one PCI
    function: a synthetic one, virtio-rng with an optional MSI capability, or
    virtio-blk. *)

From S2P Require Import Prelude Errors VirtioCommon VirtioBlk VcpuRun.

(** * Constants *)
Definition DEBUG_PORT : Z := 0xe9.
Definition PCI_CONFIG_ADDRESS_PORT : Z := 0xcf8.
Definition PCI_CONFIG_DATA_PORT : Z := 0xcfc.
Definition SYNTHETIC_PCI_BUS : Z := 0.
Definition SYNTHETIC_PCI_DEVICE : Z := 1.
Definition SYNTHETIC_PCI_FUNCTION : Z := 0.
Definition SYNTHETIC_PCI_VENDOR_ID : Z := 0xcafe.
Definition SYNTHETIC_PCI_DEVICE_ID : Z := 1.
Definition SYNTHETIC_PCI_CLASS_CODE : Z := 0xff.
Definition SYNTHETIC_PCI_REVISION : Z := 1.
Definition PCI_CONFIG_ENABLE : Z := Z.shiftl 1 31.
Definition PCI_CONFIG_REGISTER_MASK : Z := 0xfc.
Definition PCI_CAP_ID_MSI : Z := 0x05.
Definition VIRTIO_MSI_CAPABILITY_OFFSET : Z := 0x74.
Definition VIRTIO_MSI_ADDRESS_OFFSET : Z := 0x78.
Definition VIRTIO_MSI_DATA_OFFSET : Z := 0x7c.
Definition PCI_MSI_ENABLE : Z := 1.
Definition PCI_STATUS_CAPABILITIES_LIST : Z := Z.shiftl 1 4.
Definition VIRTIO_PCI_VENDOR_ID : Z := 0x1af4.
Definition VIRTIO_RNG_DEVICE_TYPE : Z := 4.
Definition VIRTIO_RNG_PCI_DEVICE_ID : Z := 0x1040 + VIRTIO_RNG_DEVICE_TYPE.
Definition VIRTIO_RNG_PCI_REVISION : Z := 1.
Definition VIRTIO_RNG_PCI_CLASS_CODE : Z := 0xff.
Definition VIRTIO_BLK_DEVICE_TYPE : Z := 2.
Definition VIRTIO_BLK_PCI_DEVICE_ID : Z := 0x1040 + VIRTIO_BLK_DEVICE_TYPE.
Definition VIRTIO_BLK_PCI_REVISION : Z := 1.
Definition VIRTIO_BLK_PCI_CLASS_CODE : Z := 0x01.
Definition VIRTIO_PCI_CAP_VENDOR_ID : Z := 0x09.
Definition VIRTIO_PCI_CAP_COMMON_CFG : Z := 1.
Definition VIRTIO_PCI_CAP_NOTIFY_CFG : Z := 2.
Definition VIRTIO_PCI_CAP_ISR_CFG : Z := 3.
Definition VIRTIO_PCI_CAP_DEVICE_CFG : Z := 4.
Definition VIRTIO_COMMON_OFFSET : Z := 0.
Definition VIRTIO_COMMON_LENGTH : Z := 0x38.
Definition VIRTIO_NOTIFY_LENGTH : Z := 2.
Definition VIRTIO_NOTIFY_OFF_MULTIPLIER : Z := 2.
Definition VIRTIO_ISR_LENGTH : Z := 1.
Definition VIRTIO_BLK_CONFIG_LENGTH : Z := 8.
Definition VIRTIO_CAP_COMMON : Z := 0x40.
Definition VIRTIO_CAP_NOTIFY : Z := 0x50.
Definition VIRTIO_CAP_ISR : Z := 0x64.
Definition VIRTIO_CAP_DEVICE : Z := 0x74.

(** * PCI functions *)
Definition capability_header (next length cfg_type : Z) : Z :=
  from_le_bytes [VIRTIO_PCI_CAP_VENDOR_ID; next; length; cfg_type].

Record SyntheticPciFunction := { synthetic_bar0 : Z }.
Definition synthetic_new (bar0 : Z) : SyntheticPciFunction :=
  {| synthetic_bar0 := Z.land bar0 0xfffffff0 |}.
Definition synthetic_read_dword (f : SyntheticPciFunction) (offset : Z) : Z :=
  match offset with
  | 0x00 => Z.lor (Z.shiftl SYNTHETIC_PCI_DEVICE_ID 16) SYNTHETIC_PCI_VENDOR_ID
  | 0x04 => 0
  | 0x08 => Z.lor (Z.shiftl SYNTHETIC_PCI_CLASS_CODE 24) SYNTHETIC_PCI_REVISION
  | 0x0c => 0
  | 0x10 => synthetic_bar0 f
  | _ => 0
  end.

Record VirtioRngPciFunction := { rng_pci_bar0 : Z }.
Definition rng_pci_new (bar0 : Z) : VirtioRngPciFunction :=
  {| rng_pci_bar0 := Z.land bar0 0xfffff000 |}.
Definition rng_read_dword (f : VirtioRngPciFunction) (offset : Z) : Z :=
  match offset with
  | 0x00 => Z.lor (Z.shiftl VIRTIO_RNG_PCI_DEVICE_ID 16) VIRTIO_PCI_VENDOR_ID
  | 0x04 => Z.shiftl PCI_STATUS_CAPABILITIES_LIST 16
  | 0x08 => Z.lor (Z.shiftl VIRTIO_RNG_PCI_CLASS_CODE 24) VIRTIO_RNG_PCI_REVISION
  | 0x0c => 0
  | 0x10 => rng_pci_bar0 f
  | 0x2c => Z.lor (Z.shiftl 0x44 16) VIRTIO_PCI_VENDOR_ID
  | 0x34 => VIRTIO_CAP_COMMON
  | 0x40 => capability_header VIRTIO_CAP_NOTIFY 16 VIRTIO_PCI_CAP_COMMON_CFG
  | 0x44 => 0
  | 0x48 => VIRTIO_COMMON_OFFSET
  | 0x4c => VIRTIO_COMMON_LENGTH
  | 0x50 => capability_header VIRTIO_CAP_ISR 20 VIRTIO_PCI_CAP_NOTIFY_CFG
  | 0x54 => 0
  | 0x58 => VIRTIO_NOTIFY_OFFSET
  | 0x5c => VIRTIO_NOTIFY_LENGTH
  | 0x60 => VIRTIO_NOTIFY_OFF_MULTIPLIER
  | 0x64 => capability_header 0 16 VIRTIO_PCI_CAP_ISR_CFG
  | 0x68 => 0
  | 0x6c => VIRTIO_ISR_OFFSET
  | 0x70 => VIRTIO_ISR_LENGTH
  | _ => 0
  end.

Record VirtioBlkPciFunction := { blk_pci_bar0 : Z }.
Definition blk_pci_new (bar0 : Z) : VirtioBlkPciFunction :=
  {| blk_pci_bar0 := Z.land bar0 0xfffff000 |}.
Definition blk_read_dword (f : VirtioBlkPciFunction) (offset : Z) : Z :=
  match offset with
  | 0x00 => Z.lor (Z.shiftl VIRTIO_BLK_PCI_DEVICE_ID 16) VIRTIO_PCI_VENDOR_ID
  | 0x04 => Z.shiftl PCI_STATUS_CAPABILITIES_LIST 16
  | 0x08 => Z.lor (Z.shiftl VIRTIO_BLK_PCI_CLASS_CODE 24) VIRTIO_BLK_PCI_REVISION
  | 0x0c => 0
  | 0x10 => blk_pci_bar0 f
  | 0x2c => Z.lor (Z.shiftl 0x02 16) VIRTIO_PCI_VENDOR_ID
  | 0x34 => VIRTIO_CAP_COMMON
  | 0x40 => capability_header VIRTIO_CAP_NOTIFY 16 VIRTIO_PCI_CAP_COMMON_CFG
  | 0x44 => 0
  | 0x48 => 0
  | 0x4c => 0x38
  | 0x50 => capability_header VIRTIO_CAP_ISR 20 VIRTIO_PCI_CAP_NOTIFY_CFG
  | 0x54 => 0
  | 0x58 => VIRTIO_NOTIFY_OFFSET
  | 0x5c => VIRTIO_NOTIFY_LENGTH
  | 0x60 => VIRTIO_NOTIFY_OFF_MULTIPLIER
  | 0x64 => capability_header VIRTIO_CAP_DEVICE 16 VIRTIO_PCI_CAP_ISR_CFG
  | 0x68 => 0
  | 0x6c => VIRTIO_ISR_OFFSET
  | 0x70 => VIRTIO_ISR_LENGTH
  | 0x74 => capability_header 0 16 VIRTIO_PCI_CAP_DEVICE_CFG
  | 0x78 => 0
  | 0x7c => VIRTIO_BLK_CONFIG_OFFSET
  | 0x80 => VIRTIO_BLK_CONFIG_LENGTH
  | _ => 0
  end.

(** ** The MSI capability *)
Record PciMsiMessage := { msg_address : Z; msg_data : Z }.
Record PciMsiCapability := { msi_control : Z; msi_address : Z; msi_data : Z }.
Definition msi_new : PciMsiCapability := {| msi_control := 0; msi_address := 0; msi_data := 0 |}.
Definition msi_read_dword (msi : PciMsiCapability) (offset : Z) : option Z :=
  if offset =? VIRTIO_MSI_CAPABILITY_OFFSET then
    Some (from_le_bytes [PCI_CAP_ID_MSI; 0; msi_control msi mod 2 ^ 8;
      Z.shiftr (msi_control msi) 8 mod 2 ^ 8])
  else if offset =? VIRTIO_MSI_ADDRESS_OFFSET then Some (msi_address msi)
  else if offset =? VIRTIO_MSI_DATA_OFFSET then Some (msi_data msi)
  else None.
Definition msi_write_dword (offset value : Z) (msi : PciMsiCapability) : bool * PciMsiCapability :=
  if offset =? VIRTIO_MSI_CAPABILITY_OFFSET then
    if negb (value mod 2 ^ 16 =? from_le_bytes [PCI_CAP_ID_MSI; 0]) then (false, msi)
    else
      let control := Z.shiftr value 16 mod 2 ^ 16 in
      if negb (Z.land control (unot 16 PCI_MSI_ENABLE) =? 0) then (false, msi)
      else (true, {| msi_control := control; msi_address := msi_address msi;
                     msi_data := msi_data msi |})
  else if offset =? VIRTIO_MSI_ADDRESS_OFFSET then
    (true, {| msi_control := msi_control msi; msi_address := value; msi_data := msi_data msi |})
  else if offset =? VIRTIO_MSI_DATA_OFFSET then
    if negb (Z.shiftr value 16 =? 0) then (false, msi)
    else (true, {| msi_control := msi_control msi; msi_address := msi_address msi;
                   msi_data := value mod 2 ^ 16 |})
  else (false, msi).
Definition msi_message (msi : PciMsiCapability) : option PciMsiMessage :=
  if Z.land (msi_control msi) PCI_MSI_ENABLE =? 0 then None
  else Some {| msg_address := msi_address msi; msg_data := msi_data msi |}.

Record VirtioRngPciEndpoint := {
  endpoint_function : VirtioRngPciFunction; endpoint_msi : option PciMsiCapability
}.
Definition endpoint_new (f : VirtioRngPciFunction) : VirtioRngPciEndpoint :=
  {| endpoint_function := f; endpoint_msi := None |}.
Definition endpoint_with_msi (f : VirtioRngPciFunction) : VirtioRngPciEndpoint :=
  {| endpoint_function := f; endpoint_msi := Some msi_new |}.
Definition endpoint_read_dword (e : VirtioRngPciEndpoint) (offset : Z) : Z :=
  match endpoint_msi e ≫= λ msi, msi_read_dword msi offset with
  | Some value => value
  | None =>
      let value := rng_read_dword (endpoint_function e) offset in
      if (offset =? 0x64) && bool_decide (is_Some (endpoint_msi e)) then
        from_le_bytes (splice (to_le_bytes 4 value) 1 [VIRTIO_MSI_CAPABILITY_OFFSET])
      else value
  end.
Definition endpoint_write_dword (offset value : Z) (e : VirtioRngPciEndpoint) :
  bool * VirtioRngPciEndpoint :=
  match endpoint_msi e with
  | Some msi =>
      let '(ok, msi') := msi_write_dword offset value msi in
      (ok, {| endpoint_function := endpoint_function e; endpoint_msi := Some msi' |})
  | None => (false, e)
  end.
Definition endpoint_msi_message (e : VirtioRngPciEndpoint) : option PciMsiMessage :=
  endpoint_msi e ≫= msi_message.

Inductive PciFunction :=
  | PciSynthetic (f : SyntheticPciFunction)
  | PciVirtioRng (f : VirtioRngPciEndpoint)
  | PciVirtioBlk (f : VirtioBlkPciFunction).
Definition function_read_dword (f : PciFunction) (offset : Z) : Z :=
  match f with
  | PciSynthetic f => synthetic_read_dword f offset
  | PciVirtioRng f => endpoint_read_dword f offset
  | PciVirtioBlk f => blk_read_dword f offset
  end.
Definition function_write_dword (offset value : Z) (f : PciFunction) : bool * PciFunction :=
  match f with
  | PciSynthetic _ | PciVirtioBlk _ => (false, f)
  | PciVirtioRng e => let '(ok, e') := endpoint_write_dword offset value e in (ok, PciVirtioRng e')
  end.
Definition function_msi_message (f : PciFunction) : option PciMsiMessage :=
  match f with
  | PciSynthetic _ | PciVirtioBlk _ => None
  | PciVirtioRng e => endpoint_msi_message e
  end.

(** * Configuration mechanism 1 *)
Record PciConfigMechanism1 := { config_address : Z; config_function : PciFunction }.
Definition config_new (f : SyntheticPciFunction) : PciConfigMechanism1 :=
  {| config_address := 0; config_function := PciSynthetic f |}.
Definition config_with_virtio_rng (f : VirtioRngPciFunction) : PciConfigMechanism1 :=
  {| config_address := 0; config_function := PciVirtioRng (endpoint_new f) |}.
Definition config_with_virtio_rng_msi (f : VirtioRngPciFunction) : PciConfigMechanism1 :=
  {| config_address := 0; config_function := PciVirtioRng (endpoint_with_msi f) |}.
Definition config_with_virtio_blk (f : VirtioBlkPciFunction) : PciConfigMechanism1 :=
  {| config_address := 0; config_function := PciVirtioBlk f |}.
Definition handles_port (port : Z) : bool :=
  (port =? PCI_CONFIG_ADDRESS_PORT) || (port =? PCI_CONFIG_DATA_PORT).
Definition selected_offset (c : PciConfigMechanism1) : option Z :=
  let address := config_address c in
  if Z.land address PCI_CONFIG_ENABLE =? 0 then None
  else
    let bus := Z.land (Z.shiftr address 16) 0xff in
    let device := Z.land (Z.shiftr address 11) 0x1f in
    let function := Z.land (Z.shiftr address 8) 0x07 in
    if negb (bus =? SYNTHETIC_PCI_BUS) || negb (device =? SYNTHETIC_PCI_DEVICE)
       || negb (function =? SYNTHETIC_PCI_FUNCTION)
    then None
    else Some (Z.land address PCI_CONFIG_REGISTER_MASK).
Definition read_selected_dword (c : PciConfigMechanism1) : Z :=
  match selected_offset c with
  | Some offset => function_read_dword (config_function c) offset
  | None => U32_MAX
  end.
Definition write_selected_dword (value : Z) (c : PciConfigMechanism1) : bool * PciConfigMechanism1 :=
  match selected_offset c with
  | Some offset =>
      let '(ok, f) := function_write_dword offset value (config_function c) in
      (ok, {| config_address := config_address c; config_function := f |})
  | None => (false, c)
  end.
Definition config_selector (offset : Z) : Z :=
  Z.lor (Z.lor (Z.lor (Z.lor PCI_CONFIG_ENABLE (Z.shiftl SYNTHETIC_PCI_BUS 16))
    (Z.shiftl SYNTHETIC_PCI_DEVICE 11)) (Z.shiftl SYNTHETIC_PCI_FUNCTION 8))
    (Z.land offset PCI_CONFIG_REGISTER_MASK).
Definition unhandled (io : PortIoExit) : PortIoError :=
  UnhandledPort (io_port io) (io_direction_raw (io_direction io)) (io_size io) (io_count io).

Inductive PciConfigService := ConfigOutput | ConfigInput (bytes : list Z).
(** [output_data().try_into()] to a four-byte array. *)
Definition output_dword (io : PortIoExit) : res PortIoError Z :=
  err_if (negb (len (output_data io) =? 4)) (unhandled io);;
  mret (from_le_bytes (output_data io)).
Definition config_dispatch (io : PortIoExit) : prog PciConfigMechanism1 PortIoError PciConfigService :=
  lift (err_if (negb (io_size io =? 4) || negb (io_count io =? 1)) (unhandled io));;
  if io_port io =? PCI_CONFIG_ADDRESS_PORT then
    match io_direction io with
    | IoOut =>
        address ← lift (output_dword io);
        modify (λ c, {| config_address := address; config_function := config_function c |});;
        mret ConfigOutput
    | IoIn => c ← get; mret (ConfigInput (to_le_bytes 4 (config_address c)))
    end
  else if io_port io =? PCI_CONFIG_DATA_PORT then
    match io_direction io with
    | IoIn => c ← get; mret (ConfigInput (to_le_bytes 4 (read_selected_dword c)))
    | IoOut =>
        value ← lift (output_dword io);
        c ← get;
        let '(ok, c') := write_selected_dword value c in
        put c';;
        if ok then mret ConfigOutput else throw (unhandled io)
    end
  else throw (unhandled io).

(** * The bus *)
Inductive PortIoService := Output | Input (bytes : list Z).
Record DebugPort := { debug_bytes : list Z; input_byte : Z }.
Record PortIoBus := { debug_port : option DebugPort; pci_config : option PciConfigMechanism1 }.
Definition bus_empty : PortIoBus := {| debug_port := None; pci_config := None |}.
Definition with_debug_port_input (input : Z) : PortIoBus :=
  {| debug_port := Some {| debug_bytes := []; input_byte := input |}; pci_config := None |}.
Definition with_debug_port : PortIoBus := with_debug_port_input 0.
Definition with_debug_port_and_pci_config (c : PciConfigMechanism1) : PortIoBus :=
  {| debug_port := Some {| debug_bytes := []; input_byte := 0 |}; pci_config := Some c |}.
Definition debug_handle (io : PortIoExit) : prog DebugPort PortIoError PortIoService :=
  lift (err_if (negb (io_size io =? 1) || negb (io_count io =? 1))
    (UnsupportedDebugAccess (io_port io) (io_direction_raw (io_direction io)) (io_size io)
      (io_count io)));;
  match io_direction io with
  | IoOut =>
      lift (err_if (negb (len (output_data io) =? 1))
        (InvalidOutputPayload (io_port io) 1 (len (output_data io))));;
      byte ← lift (index (output_data io) 0);
      modify (λ d, {| debug_bytes := debug_bytes d ++ [byte]; input_byte := input_byte d |});;
      mret Output
  | IoIn => d ← get; mret (Input [input_byte d])
  end.
Definition convert_pci_service (service : PciConfigService) : PortIoService :=
  match service with ConfigOutput => Output | ConfigInput bytes => Input bytes end.
Definition portio_dispatch (io : PortIoExit) : prog PortIoBus Error PortIoService := λ bus,
  if io_port io =? DEBUG_PORT then
    match debug_port bus with
    | Some device =>
        let '(r, device') := debug_handle io device in
        (map_err PortIo r, {| debug_port := Some device'; pci_config := pci_config bus |})
    | None => (Err (PortIo (unhandled io)), bus)
    end
  else if handles_port (io_port io) then
    match pci_config bus with
    | Some config =>
        let '(r, config') := config_dispatch io config in
        (map_err PortIo (convert_pci_service <$> r),
         {| debug_port := debug_port bus; pci_config := Some config' |})
    | None => (Err (PortIo (unhandled io)), bus)
    end
  else (Err (PortIo (unhandled io)), bus).
Definition debug_output (bus : PortIoBus) : option (list Z) := debug_bytes <$> debug_port bus.
Definition virtio_rng_msi_message (bus : PortIoBus) : option PciMsiMessage :=
  pci_config bus ≫= λ c, function_msi_message (config_function c).

(** * Facts *)
Lemma msi_write_refused offset value msi msi' :
  msi_write_dword offset value msi = (false, msi') → msi' = msi.
Proof.
  unfold msi_write_dword.
  repeat match goal with |- context [if ?b then _ else _] => destruct b end; by intros [= <-].
Qed.
Lemma write_selected_refused value c c' : write_selected_dword value c = (false, c') → c' = c.
Proof.
  unfold write_selected_dword, function_write_dword, endpoint_write_dword.
  destruct c as [a f]. destruct (selected_offset _); [|naive_solver]. simpl.
  destruct f as [?|[g [msi|]]|?]; simpl; try naive_solver.
  destruct (msi_write_dword _ _ _) as [[] msi'] eqn:Hm; [done|].
  apply msi_write_refused in Hm as ->. naive_solver.
Qed.

(** What a successful or refused access does to configuration mechanism 1. *)
Definition config_effect (io : PortIoExit) (c : PciConfigMechanism1) (r : PciConfigService)
    (c' : PciConfigMechanism1) : Prop :=
  match r with
  | ConfigInput bytes =>
      io_direction io = IoIn ∧ c' = c ∧
      bytes = to_le_bytes 4 (if io_port io =? PCI_CONFIG_ADDRESS_PORT then config_address c
                             else read_selected_dword c)
  | ConfigOutput =>
      io_direction io = IoOut ∧ len (output_data io) = 4 ∧
      let value := from_le_bytes (output_data io) in
      if io_port io =? PCI_CONFIG_ADDRESS_PORT
      then c' = {| config_address := value; config_function := config_function c |}
      else write_selected_dword value c = (true, c')
  end.
Lemma config_dispatch_runs io c :
  runs (config_dispatch io) c
    (λ r c', io_size io = 4 ∧ io_count io = 1 ∧ config_effect io c r c')
    (λ e c', e = unhandled io ∧ c' = c).
Proof.
  unfold config_dispatch, runs. rewrite prog_bind_err_if.
  destruct (Z.eqb_spec (io_size io) 4) as [Hs|]; [|done].
  destruct (Z.eqb_spec (io_count io) 1) as [Hc|]; [|done]. simpl. unfold config_effect, output_dword.
  destruct (io_port io =? PCI_CONFIG_ADDRESS_PORT) eqn:Hp.
  - destruct (io_direction io); [done|]. rewrite prog_bind_lift.
    destruct (Z.eqb_spec (len (output_data io)) 4); [|done]. by simpl.
  - destruct (io_port io =? PCI_CONFIG_DATA_PORT); [|done].
    destruct (io_direction io); [done|]. rewrite prog_bind_lift.
    destruct (Z.eqb_spec (len (output_data io)) 4); [|done]. simpl.
    unfold mbind, prog_bind, get, put. simpl.
    destruct (write_selected_dword _ c) as [[] c'] eqn:Hw; simpl; [done|].
    split; [done|]. by apply write_selected_refused in Hw.
Qed.
Lemma debug_handle_runs io d :
  runs (debug_handle io) d
    (λ r d', io_size io = 1 ∧ io_count io = 1 ∧
      match r with
      | Input bytes => io_direction io = IoIn ∧ d' = d ∧ bytes = [input_byte d]
      | Output => io_direction io = IoOut ∧ ∃ b, output_data io = [b] ∧
          d' = {| debug_bytes := debug_bytes d ++ [b]; input_byte := input_byte d |}
      end)
    (λ _ d', d' = d).
Proof.
  unfold debug_handle, runs. rewrite prog_bind_err_if.
  destruct (Z.eqb_spec (io_size io) 1) as [Hs|]; [|done].
  destruct (Z.eqb_spec (io_count io) 1) as [Hc|]; [|done]. simpl.
  destruct (io_direction io); [done|]. rewrite prog_bind_err_if.
  destruct (Z.eqb_spec (len (output_data io)) 1) as [Hl|]; [|done]. simpl.
  destruct (output_data io) as [|b [|]] eqn:Ho; unfold len in Hl; simpl in Hl; try lia.
  simpl. split_and!; [done|done|done|]. by exists b.
Qed.

(** The effect of one port access on the bus. *)
Definition service_effect (io : PortIoExit) (bus : PortIoBus) (r : PortIoService)
    (bus' : PortIoBus) : Prop :=
  match r with
  | Input bytes =>
      io_direction io = IoIn ∧ bus' = bus ∧ len bytes = io_size io * io_count io
  | Output =>
      io_direction io = IoOut ∧
      if io_port io =? DEBUG_PORT
      then pci_config bus' = pci_config bus ∧
        ∃ l b, debug_output bus = Some l ∧ output_data io = [b] ∧ debug_output bus' = Some (l ++ [b])
      else debug_port bus' = debug_port bus ∧
        ∃ c c', pci_config bus = Some c ∧ pci_config bus' = Some c' ∧
          config_effect io c ConfigOutput c'
  end.
Lemma portio_dispatch_runs io bus :
  runs (portio_dispatch io) bus (service_effect io bus) (λ _ bus', bus' = bus).
Proof.
  unfold portio_dispatch, runs, service_effect.
  destruct bus as [dbg cfg]. simpl. destruct (io_port io =? DEBUG_PORT) eqn:Hd.
  - destruct dbg as [d|]; [|done]. pose proof (debug_handle_runs io d) as H.
    unfold runs in H. destruct (debug_handle io d) as [[r|?|] d']; simpl; [|by subst|done].
    destruct H as (Hs&Hc&H). destruct r as [|bytes].
    + destruct H as (?&b&?&->). split_and!; [done|done|]. exists (debug_bytes d), b. done.
    + destruct H as (?&->&->). split_and!; [done|done|]. by rewrite Hs, Hc.
  - destruct (handles_port (io_port io)); [|done].
    destruct cfg as [c|]; [|done]. pose proof (config_dispatch_runs io c) as H.
    unfold runs in H. destruct (config_dispatch io c) as [[r|?|] c']; simpl; [| |done].
    2: { by destruct H as [_ ->]. }
    destruct H as (Hs&Hc&H). destruct r as [|bytes]; simpl.
    + destruct H as (?&?&?). split_and!; [done|done|]. by exists c, c'.
    + destruct H as (?&->&->). split_and!; [done|done|]. rewrite len_to_le_bytes, Hs, Hc. done.
Qed.
(** Answers are bytes, and every error is a port I/O error. *)
Definition portio_wf (bus : PortIoBus) : Prop := ∀ d, debug_port bus = Some d → u8 (input_byte d).
Lemma portio_dispatch_bytes io bus :
  portio_wf bus →
  portio_wf (portio_dispatch io bus).2 ∧
  match (portio_dispatch io bus).1 with
  | Ok (Input bytes) => bytes_ok bytes
  | Err e => ∃ pe, e = PortIo pe
  | _ => True
  end.
Proof.
  intros Hwf. unfold portio_dispatch. destruct (_ =? DEBUG_PORT).
  - destruct (debug_port bus) as [d|] eqn:Hd; [|by split; [|eexists]]. specialize (Hwf d Hd).
    pose proof (debug_handle_runs io d) as H. unfold runs in H.
    destruct (debug_handle io d) as [[[|bytes]|e|] d']; simpl.
    + destruct H as (_&_&_&b&_&->). split; [by intros ? [= <-]|done].
    + destruct H as (_&_&_&->&->). split; [by intros ? [= <-]|]. by apply Forall_singleton.
    + subst d'. split; [by intros ? [= <-]|by eexists].
    + done.
  - destruct (handles_port _); [|by split; [|eexists]]. destruct (pci_config bus) as [c|]; [|by split; [|eexists]].
    pose proof (config_dispatch_runs io c) as H. unfold runs in H.
    destruct (config_dispatch io c) as [[[|bytes]|e|] c']; simpl; [done| |by split; [|eexists]|done].
    destruct H as (_&_&_&_&->). split; [done|]. apply to_le_bytes_ok.
Qed.

(** ** Guest accesses to configuration space *)
Definition out_dword (port value : Z) : PortIoExit :=
  {| io_direction := IoOut; io_size := 4; io_port := port; io_count := 1;
     output_data := to_le_bytes 4 value |}.
Definition in_dword (port : Z) : PortIoExit :=
  {| io_direction := IoIn; io_size := 4; io_port := port; io_count := 1; output_data := [] |}.
Definition guest_config_read (offset : Z) : prog PortIoBus Error PortIoService :=
  portio_dispatch (out_dword PCI_CONFIG_ADDRESS_PORT (config_selector offset));;
  portio_dispatch (in_dword PCI_CONFIG_DATA_PORT).
Definition guest_config_write (offset value : Z) : prog PortIoBus Error PortIoService :=
  portio_dispatch (out_dword PCI_CONFIG_ADDRESS_PORT (config_selector offset));;
  portio_dispatch (out_dword PCI_CONFIG_DATA_PORT value).
Definition bus_with (bus : PortIoBus) (offset : Z) (f : PciFunction) : PortIoBus :=
  {| debug_port := debug_port bus;
     pci_config := Some {| config_address := config_selector offset; config_function := f |} |}.

Lemma selector_check offset :
  u8 offset →
  (0 ≤ config_selector offset < 2 ^ 32) ∧
  ∀ f, selected_offset {| config_address := config_selector offset; config_function := f |}
       = Some (Z.land offset PCI_CONFIG_REGISTER_MASK).
Proof.
  intros Ho. set (p := λ o, (0 <=? config_selector o) && (config_selector o <? 2 ^ 32) &&
    bool_decide (selected_offset {| config_address := config_selector o;
      config_function := PciSynthetic (synthetic_new 0) |} = Some (Z.land o PCI_CONFIG_REGISTER_MASK))).
  assert (forallb p (seqZ 0 256) = true) as Hall by (vm_compute; reflexivity).
  rewrite forallb_forall in Hall. specialize (Hall offset).
  assert (p offset = true) as Hp by (apply Hall, list_elem_of_In, elem_of_seqZ; ulia).
  unfold p in Hp. rewrite !andb_true_iff, Z.leb_le, Z.ltb_lt, bool_decide_eq_true in Hp.
  destruct Hp as [[? ?] Hs]. split; [lia|]. intros f. rewrite <- Hs. done.
Qed.
Lemma config_select bus c offset f :
  u8 offset → pci_config bus = Some c → config_function c = f →
  portio_dispatch (out_dword PCI_CONFIG_ADDRESS_PORT (config_selector offset)) bus
    = (Ok Output, bus_with bus offset f).
Proof.
  intros Ho Hc <-. destruct bus as [d cfg]. simpl in Hc. subst.
  assert (from_le_bytes (to_le_bytes 4 (config_selector offset)) = config_selector offset) as Hrt.
  { apply from_to_le_bytes. by apply selector_check in Ho as [? _]. }
  unfold portio_dispatch. simpl. unfold bus_with. simpl. repeat f_equal. exact Hrt.
Qed.
Lemma guest_config_read_ok bus c offset :
  u8 offset → pci_config bus = Some c →
  guest_config_read offset bus =
    (Ok (Input (to_le_bytes 4 (function_read_dword (config_function c)
       (Z.land offset PCI_CONFIG_REGISTER_MASK)))), bus_with bus offset (config_function c)).
Proof.
  intros Ho Hc. unfold guest_config_read.
  rewrite (prog_bind_step _ _ _ _ _ (config_select bus c offset _ Ho Hc eq_refl)).
  unfold portio_dispatch, bus_with. simpl. unfold read_selected_dword.
  destruct (selector_check offset Ho) as [_ Hs]. rewrite Hs. done.
Qed.
Lemma config_data_out value c :
  0 ≤ value < 2 ^ 32 →
  config_dispatch (out_dword PCI_CONFIG_DATA_PORT value) c =
    (if (write_selected_dword value c).1 then Ok ConfigOutput
     else Err (unhandled (out_dword PCI_CONFIG_DATA_PORT value)), (write_selected_dword value c).2).
Proof.
  intros Hv. unfold config_dispatch, output_dword.
  cbn -[from_le_bytes to_le_bytes write_selected_dword len out_dword]. unfold out_dword at 1 2 3.
  cbn -[from_le_bytes to_le_bytes write_selected_dword len unhandled].
  rewrite len_to_le_bytes, from_to_le_bytes by done.
  unfold mbind, prog_bind. simpl. by destruct (write_selected_dword value c) as [[] c'].
Qed.
Lemma guest_config_write_ok bus c offset value f' :
  u8 offset → 0 ≤ value < 2 ^ 32 → pci_config bus = Some c →
  function_write_dword (Z.land offset PCI_CONFIG_REGISTER_MASK) value (config_function c) = (true, f') →
  guest_config_write offset value bus = (Ok Output, bus_with bus offset f').
Proof.
  intros Ho Hv Hc Hf. unfold guest_config_write.
  rewrite (prog_bind_step _ _ _ _ _ (config_select bus c offset _ Ho Hc eq_refl)).
  unfold portio_dispatch, bus_with. simpl io_port. simpl pci_config.
  change (PCI_CONFIG_DATA_PORT =? DEBUG_PORT) with false.
  change (handles_port PCI_CONFIG_DATA_PORT) with true. cbv iota.
  rewrite config_data_out by done. unfold write_selected_dword.
  destruct (selector_check offset Ho) as [_ Hs]. rewrite Hs. cbn [config_function].
  rewrite Hf. done.
Qed.

(** ** Capability lists *)
Definition header_next (header : Z) : Z := header / 2 ^ 8 mod 2 ^ 8.
(** A driver's walk of the list: the visited offsets with their headers, or
    [None] when [fuel] capabilities were not enough. *)
Fixpoint capability_walk (fuel : nat) (f : PciFunction) (offset : Z) : option (list (Z * Z)) :=
  if offset =? 0 then Some []
  else
    match fuel with
    | O => None
    | S fuel =>
        let header := function_read_dword f offset in
        cons (offset, header) <$> capability_walk fuel f (header_next header)
    end.
Definition virtio_function (f : PciFunction) : Prop :=
  match f with PciSynthetic _ => False | _ => True end.
(** The capabilities a driver must find, with their identifiers. *)
Definition expected_capabilities (f : PciFunction) : list (Z * Z) :=
  match f with
  | PciVirtioRng {| endpoint_msi := None |} => [(0x40, 9); (0x50, 9); (0x64, 9)]
  | PciVirtioRng {| endpoint_msi := Some _ |} => [(0x40, 9); (0x50, 9); (0x64, 9); (0x74, 5)]
  | PciVirtioBlk _ => [(0x40, 9); (0x50, 9); (0x64, 9); (0x74, 9)]
  | PciSynthetic _ => []
  end.
Lemma msi_header msi :
  let header := from_le_bytes [PCI_CAP_ID_MSI; 0; msi_control msi mod 2 ^ 8;
      Z.shiftr (msi_control msi) 8 mod 2 ^ 8] in
  header_next header = 0 ∧ header mod 2 ^ 8 = 5.
Proof.
  cbv zeta. unfold header_next, PCI_CAP_ID_MSI. cbn [from_le_bytes].
  set (a := msi_control msi mod 2 ^ 8). set (b := Z.shiftr (msi_control msi) 8 mod 2 ^ 8).
  change (2 ^ 8) with 256. split; dlia.
Qed.
Lemma capability_walk_complete f :
  virtio_function f →
  ∃ caps, capability_walk 4 f (function_read_dword f 0x34) = Some caps ∧
    (prod_map id (λ h, h mod 2 ^ 8) <$> caps) = expected_capabilities f.
Proof.
  destruct f as [?|[g [msi|]]|g]; intros Hf; [done| | |].
  - destruct (msi_header msi) as [Hn Hid]. set (f := PciVirtioRng _).
    set (h := from_le_bytes _) in Hn, Hid.
    assert (capability_walk 4 f (function_read_dword f 0x34) =
      (λ l, (0x40, function_read_dword f 0x40) :: (0x50, function_read_dword f 0x50) ::
         (0x64, function_read_dword f 0x64) :: (0x74, h) :: l)
      <$> capability_walk 0 f (header_next h)) as ->.
    { change (function_read_dword f 0x34) with 0x40. cbn [capability_walk].
      change (header_next (function_read_dword f 0x40)) with 0x50.
      change (header_next (function_read_dword f 0x50)) with 0x64.
      change (header_next (function_read_dword f 0x64)) with 0x74.
      change (function_read_dword f 0x74) with h. cbn [Z.eqb Pos.eqb]. by destruct (_ =? 0). }
    rewrite Hn. eexists. split; [reflexivity|].
    transitivity [(0x40, 9); (0x50, 9); (0x64, 9); (0x74, h mod 2 ^ 8)]; [reflexivity|by rewrite Hid].
  - eexists. split; vm_compute; reflexivity.
  - eexists. split; vm_compute; reflexivity.
Qed.
Lemma msi_write_data msi d :
  u16 d → msi_write_dword VIRTIO_MSI_DATA_OFFSET d msi =
    (true, {| msi_control := msi_control msi; msi_address := msi_address msi; msi_data := d |}).
Proof.
  intros Hd. unfold msi_write_dword. rewrite Z.shiftr_div_pow2, Z.div_small, Z.mod_small by ulia.
  reflexivity.
Qed.

(** * Properties *)

(** C28: one port access.  A served access either is an [out] that appends its byte to
    the debug output or updates configuration mechanism 1 as addressed, or is an
    [in] that changes nothing and is answered with exactly [size * count] bytes; a
    refused access leaves the bus as it was, and no access panics.  Hence the
    answer to an exit decoded from the shared page is always accepted by the
    response writer of that page. *)
Theorem port_io_service_spec bus io :
  runs (portio_dispatch io) bus (service_effect io bus) (λ _ bus', bus' = bus) ∧
  ∀ id run bytes, run_wf run → port_io_exit id run = Ok io →
    (portio_dispatch io bus).1 = Ok (Input bytes) →
    is_ok (write_port_io_input id bytes run) = true.
Proof.
  pose proof (portio_dispatch_runs io bus) as Hr. split; [done|].
  intros id run bytes Hwf He Hin. unfold runs in Hr.
  destruct (portio_dispatch io bus) as [r bus']. simpl in Hin. subst. destruct Hr as (Hd&_&Hl).
  pose proof (write_port_io_input_cases id bytes run Hwf) as H.
  destruct (write_port_io_input id bytes run) as [?|?|]; [done| |done].
  by destruct (H io He Hd).
Qed.
Lemma port_io_service_spec_witness :
  let bus := with_debug_port_and_pci_config (config_with_virtio_rng (rng_pci_new 0xd0000000)) in
  let page := sample_run KVM_EXIT_IO ([0; 4] ++ to_le_bytes 2 0xcfc ++ to_le_bytes 4 1
    ++ to_le_bytes 8 64) in
  (portio_dispatch (in_dword PCI_CONFIG_DATA_PORT) bus).1 = Ok (Input [255; 255; 255; 255]) ∧
  is_ok (write_port_io_input 0 [255; 255; 255; 255] page) = true.
Proof.
  cbv zeta. set (bus := with_debug_port_and_pci_config _). set (page := sample_run _ _).
  split; [vm_compute; reflexivity|].
  apply (proj2 (port_io_service_spec bus (in_dword PCI_CONFIG_DATA_PORT)) 0 page).
  - apply sample_run_wf; [bytes_auto|done].
  - vm_compute. reflexivity.
  - vm_compute. reflexivity.
Defined.

(** A guest's view of PCI configuration space.  Selecting a register and reading
    the data port returns the function's dword at that offset, and when another
    function is selected, or none, all ones.  A driver that follows the capability
    pointers of a virtio function terminates after at most four capabilities and
    finds exactly the virtio capabilities, and the MSI capability where present.
    Programming address, data and control of the MSI capability of virtio-rng
    makes the device signal exactly that message. *)
Theorem pci_config_spec bus c :
  pci_config bus = Some c →
  (∀ offset, u8 offset → guest_config_read offset bus =
    (Ok (Input (to_le_bytes 4 (function_read_dword (config_function c)
       (Z.land offset PCI_CONFIG_REGISTER_MASK)))), bus_with bus offset (config_function c))) ∧
  (selected_offset c = None →
    (portio_dispatch (in_dword PCI_CONFIG_DATA_PORT) bus).1 = Ok (Input [255; 255; 255; 255])) ∧
  (virtio_function (config_function c) →
    ∃ caps, capability_walk 4 (config_function c) (function_read_dword (config_function c) 0x34)
        = Some caps ∧
      (prod_map id (λ h, h mod 2 ^ 8) <$> caps) = expected_capabilities (config_function c)) ∧
  (∀ f msi address data, config_function c = PciVirtioRng {| endpoint_function := f;
       endpoint_msi := Some msi |} → 0 ≤ address < 2 ^ 32 → u16 data →
    ∃ bus', (guest_config_write VIRTIO_MSI_ADDRESS_OFFSET address;;
             guest_config_write VIRTIO_MSI_DATA_OFFSET data;;
             guest_config_write VIRTIO_MSI_CAPABILITY_OFFSET
               (from_le_bytes [PCI_CAP_ID_MSI; 0; PCI_MSI_ENABLE; 0])) bus = (Ok Output, bus') ∧
      virtio_rng_msi_message bus' = Some {| msg_address := address; msg_data := data |}).
Proof.
  intros Hc. split_and!.
  - intros offset Ho. by apply guest_config_read_ok.
  - intros Hs. unfold portio_dispatch. simpl. rewrite Hc. simpl.
    unfold read_selected_dword. rewrite Hs. reflexivity.
  - apply capability_walk_complete.
  - intros f msi address data Hf Ha Hd. eexists. split.
    + rewrite (prog_bind_step _ _ _ _ _ (guest_config_write_ok bus c VIRTIO_MSI_ADDRESS_OFFSET
        address _ ltac:(done) Ha Hc ltac:(rewrite Hf; reflexivity))).
      erewrite prog_bind_step; [|eapply guest_config_write_ok; [done|ulia|reflexivity|]].
      2: { cbn [config_function function_write_dword endpoint_write_dword endpoint_msi].
           change (Z.land VIRTIO_MSI_DATA_OFFSET PCI_CONFIG_REGISTER_MASK) with VIRTIO_MSI_DATA_OFFSET.
           rewrite msi_write_data by done. reflexivity. }
      eapply guest_config_write_ok; [done|done|reflexivity|]. reflexivity.
    + unfold virtio_rng_msi_message. reflexivity.
Qed.
Lemma pci_config_spec_witness :
  let bus := with_debug_port_and_pci_config (config_with_virtio_rng_msi (rng_pci_new 0xd0000000)) in
  (guest_config_read 0 bus).1 = Ok (Input [0xf4; 0x1a; 0x44; 0x10]) ∧
  ∃ bus', virtio_rng_msi_message bus' = Some {| msg_address := 0xfee00000; msg_data := 0x41 |}.
Proof.
  cbv zeta. set (bus := with_debug_port_and_pci_config _).
  destruct (pci_config_spec bus (config_with_virtio_rng_msi (rng_pci_new 0xd0000000)) eq_refl)
    as (Hr&_&_&Hm).
  split; [rewrite (Hr 0 ltac:(done)); vm_compute; reflexivity|].
  destruct (Hm (rng_pci_new 0xd0000000) msi_new 0xfee00000 0x41 eq_refl) as (bus'&_&H);
    [done|done|]. exists bus'. exact H.
Defined.
