(* ===== verification/Mmio.v ===== *)
(** The MMIO bus ([src/src/mmio.rs]): byte devices (plain, edge-triggered and
    level-triggered), virtio-rng and virtio-blk devices behind one address
    space, the registration of their ranges, the routing of an MMIO exit to the
    device that owns its address and the queue of device events. *)

From S2P Require Import Prelude Errors Memory VirtioCommon VirtioRng VirtioBlk VcpuRun.

(** * Data *)
Definition BYTE_DEVICE_ADDRESS : Z := 0x2000.
Definition LEVEL_INTERRUPT_STATUS_OFFSET : Z := 1.
Definition LEVEL_INTERRUPT_ACK_OFFSET : Z := 2.
Definition LEVEL_INTERRUPT_ACK_VALUE : Z := 1.
Definition VIRTIO_RNG_BAR_SIZE : Z := 0x1000.

Inductive MmioService := ServiceWrite | ServiceRead (bytes : list Z).
Inductive MmioDeviceEvent :=
  | InterruptRequested
  | InterruptLineAssertRequested
  | InterruptLineDeassertRequested
  | VirtioQueueNotified (queue : Z).
#[global] Instance MmioDeviceEvent_eq_dec : EqDecision MmioDeviceEvent.
Proof. solve_decision. Defined.
Record MmioDeviceEventRecord := { record_address : Z; record_event : MmioDeviceEvent }.
Inductive MmioRegistrationError :=
  | AddressRangeOverflow (address size : Z)
  | AddressRangeOverlap (address size existing_address existing_size : Z).
Inductive ByteMmioDeviceMode := Plain | EdgeInterrupt | LevelInterrupt.
#[global] Instance ByteMmioDeviceMode_eq_dec : EqDecision ByteMmioDeviceMode.
Proof. solve_decision. Defined.
Record ByteMmioDevice := mkByte {
  byte_address : Z;
  byte_writes : list Z;
  read_value : Z;
  mode : ByteMmioDeviceMode;
  edge_interrupt_pending : bool;
  level_interrupt_pending : bool;
  level_line_asserted : bool
}.
Record MmioBus := mkBus {
  byte_devices : list ByteMmioDevice;
  virtio_rng_devices : list VirtioRngDevice;
  virtio_blk_devices : list VirtioBlkDevice;
  virtio_events : list MmioDeviceEventRecord
}.

(** * Byte devices *)
Definition byte_new (address value : Z) (m : ByteMmioDeviceMode) : ByteMmioDevice :=
  mkByte address [] value m false false false.
Definition address_range (d : ByteMmioDevice) : Z * Z :=
  (byte_address d, match mode d with
                   | Plain | EdgeInterrupt => 1
                   | LevelInterrupt => LEVEL_INTERRUPT_ACK_OFFSET + 1
                   end).
(** [base.checked_add(size).is_some_and(|end| (base..end).contains(&address))]. *)
Definition range_handles (range : Z * Z) (address : Z) : bool :=
  match Prelude.checked_add 64 range.1 range.2 with
  | Some end_ => (range.1 <=? address) && (address <? end_)
  | None => false
  end.
Definition handles (d : ByteMmioDevice) (address : Z) : bool := range_handles (address_range d) address.
Definition unsupported_byte_access (exit : MmioExit) : MmioError :=
  UnsupportedByteDeviceAccess (mmio_address exit) (mmio_direction_raw (mmio_direction exit))
    (mmio_length exit).
Definition exact_write_byte (exit : MmioExit) : res MmioError Z :=
  err_if (negb (len (write_data exit) =? 1))
    (InvalidWritePayload (mmio_address exit) 1 (len (write_data exit)));;
  index (write_data exit) 0.
Definition push_write (value : Z) (d : ByteMmioDevice) : ByteMmioDevice :=
  mkByte (byte_address d) (byte_writes d ++ [value]) (read_value d) (mode d)
    (edge_interrupt_pending d) (level_interrupt_pending d) (level_line_asserted d).
Definition set_edge (b : bool) (d : ByteMmioDevice) : ByteMmioDevice :=
  mkByte (byte_address d) (byte_writes d) (read_value d) (mode d) b
    (level_interrupt_pending d) (level_line_asserted d).
Definition set_pending (b : bool) (d : ByteMmioDevice) : ByteMmioDevice :=
  mkByte (byte_address d) (byte_writes d) (read_value d) (mode d) (edge_interrupt_pending d) b
    (level_line_asserted d).
Definition set_line (b : bool) (d : ByteMmioDevice) : ByteMmioDevice :=
  mkByte (byte_address d) (byte_writes d) (read_value d) (mode d) (edge_interrupt_pending d)
    (level_interrupt_pending d) b.
Definition handle_plain (exit : MmioExit) (interrupt_on_write : bool) :
  prog ByteMmioDevice MmioError MmioService :=
  match mmio_direction exit with
  | MmioWrite =>
      value ← lift (exact_write_byte exit);
      modify (push_write value);;
      (if interrupt_on_write then modify (set_edge true) else mret tt);;
      mret ServiceWrite
  | MmioRead => d ← get; mret (ServiceRead [read_value d])
  end.
Definition handle_level (exit : MmioExit) : prog ByteMmioDevice MmioError MmioService :=
  d ← get;
  offset ← lift (usub (mmio_address exit) (byte_address d));
  match mmio_direction exit with
  | MmioWrite =>
      if offset =? 0 then
        value ← lift (exact_write_byte exit);
        modify (push_write value);; modify (set_pending true);; mret ServiceWrite
      else if offset =? LEVEL_INTERRUPT_ACK_OFFSET then
        value ← lift (exact_write_byte exit);
        lift (err_if (negb (value =? LEVEL_INTERRUPT_ACK_VALUE)) (unsupported_byte_access exit));;
        modify (push_write value);; modify (set_pending false);; mret ServiceWrite
      else throw (unsupported_byte_access exit)
  | MmioRead =>
      if offset =? LEVEL_INTERRUPT_STATUS_OFFSET
      then mret (ServiceRead [if level_interrupt_pending d then 1 else 0])
      else throw (unsupported_byte_access exit)
  end.
Definition handle (exit : MmioExit) : prog ByteMmioDevice MmioError MmioService :=
  lift (err_if (negb (mmio_length exit =? 1)) (unsupported_byte_access exit));;
  d ← get;
  match mode d with
  | Plain => handle_plain exit false
  | EdgeInterrupt => handle_plain exit true
  | LevelInterrupt => handle_level exit
  end.
Definition take_event (d : ByteMmioDevice) : option MmioDeviceEvent * ByteMmioDevice :=
  match mode d with
  | Plain => (None, d)
  | EdgeInterrupt =>
      if edge_interrupt_pending d then (Some InterruptRequested, set_edge false d) else (None, d)
  | LevelInterrupt =>
      if level_interrupt_pending d && negb (level_line_asserted d) then
        (Some InterruptLineAssertRequested, set_line true d)
      else if negb (level_interrupt_pending d) && level_line_asserted d then
        (Some InterruptLineDeassertRequested, set_line false d)
      else (None, d)
  end.

(** * Buses and registration *)
Definition mmio_empty : MmioBus := mkBus [] [] [] [].
Definition with_byte_device_at (address value : Z) : MmioBus :=
  mkBus [byte_new address value Plain] [] [] [].
Definition with_byte_device (value : Z) : MmioBus := with_byte_device_at BYTE_DEVICE_ADDRESS value.
Definition with_interrupting_byte_device_at (address value : Z) : MmioBus :=
  mkBus [byte_new address value EdgeInterrupt] [] [] [].
Definition with_level_interrupt_byte_device_at (address : Z) : MmioBus :=
  mkBus [byte_new address 0 LevelInterrupt] [] [] [].

Definition rng_range (d : VirtioRngDevice) : Z * Z := (bar0 d, VIRTIO_RNG_BAR_SIZE).
Definition blk_range (d : VirtioBlkDevice) : Z * Z := (bar0 (regs d), VIRTIO_BLK_BAR_SIZE).
Definition registered_ranges (bus : MmioBus) : list (Z * Z) :=
  (address_range <$> byte_devices bus) ++ (rng_range <$> virtio_rng_devices bus)
    ++ (blk_range <$> virtio_blk_devices bus).
Fixpoint check_ranges (address size end_ : Z) (ranges : list (Z * Z)) : res MmioRegistrationError unit :=
  match ranges with
  | [] => mret tt
  | (existing_address, existing_size) :: ranges =>
      existing_end ← ok_or (Prelude.checked_add 64 existing_address existing_size)
        (AddressRangeOverflow existing_address existing_size);
      err_if ((address <? existing_end) && (existing_address <? end_))
        (AddressRangeOverlap address size existing_address existing_size);;
      check_ranges address size end_ ranges
  end.
Definition ensure_range_available (bus : MmioBus) (address size : Z) : res MmioRegistrationError unit :=
  end_ ← ok_or (Prelude.checked_add 64 address size) (AddressRangeOverflow address size);
  check_ranges address size end_ (registered_ranges bus).
Definition push_byte (d : ByteMmioDevice) (bus : MmioBus) : MmioBus :=
  mkBus (byte_devices bus ++ [d]) (virtio_rng_devices bus) (virtio_blk_devices bus) (virtio_events bus).
Definition push_rng (d : VirtioRngDevice) (bus : MmioBus) : MmioBus :=
  mkBus (byte_devices bus) (virtio_rng_devices bus ++ [d]) (virtio_blk_devices bus) (virtio_events bus).
Definition push_blk (d : VirtioBlkDevice) (bus : MmioBus) : MmioBus :=
  mkBus (byte_devices bus) (virtio_rng_devices bus) (virtio_blk_devices bus ++ [d]) (virtio_events bus).
Definition register_device (d : ByteMmioDevice) : prog MmioBus MmioRegistrationError unit :=
  reading (λ bus, ensure_range_available bus (address_range d).1 (address_range d).2);;
  modify (push_byte d).
Definition register_byte_device_at (address value : Z) : prog MmioBus MmioRegistrationError unit :=
  register_device (byte_new address value Plain).
Definition register_level_interrupt_byte_device_at (address : Z) :
  prog MmioBus MmioRegistrationError unit :=
  register_device (byte_new address 0 LevelInterrupt).
Definition register_virtio_rng_device_at (address : Z) : prog MmioBus MmioRegistrationError unit :=
  reading (λ bus, ensure_range_available bus address VIRTIO_RNG_BAR_SIZE);;
  modify (push_rng (rng_new address)).
Definition register_virtio_blk_device_at (address : Z) : prog MmioBus MmioRegistrationError unit :=
  reading (λ bus, ensure_range_available bus address VIRTIO_BLK_BAR_SIZE);;
  modify (push_blk (blk_new address)).

(** * Dispatch *)

(** [iter_mut().find(p)] followed by a method of the device found. *)
Fixpoint on_first {S E A} (p : S → bool) (m : prog S E A) (l : list S) : option (res E A * list S) :=
  match l with
  | [] => None
  | d :: l =>
      if p d then let '(r, d') := m d in Some (r, d' :: l)
      else prod_map id (cons d) <$> on_first p m l
  end.
Definition virtio_rng_mmio_error (e : VirtioRngError) : Error :=
  HostEnvironment (Io "service virtio-rng MMIO device model" (Custom InvalidData (RngPayload e))).
Definition virtio_blk_mmio_error (e : VirtioBlkError) : Error :=
  HostEnvironment (Io "service virtio-blk MMIO device model" (Custom InvalidData (BlkPayload e))).
Definition virtio_rng_handles (d : VirtioRngDevice) (address : Z) : bool :=
  range_handles (rng_range d) address.
Definition virtio_blk_handles (d : VirtioBlkDevice) (address : Z) : bool :=
  range_handles (blk_range d) address.
Definition queue_event (event : VirtioEvent) : MmioDeviceEvent :=
  match event with QueueNotified queue => VirtioQueueNotified queue end.
Definition dispatch_virtio_rng (exit : MmioExit) :
  prog VirtioRngDevice Error (MmioService * option MmioDeviceEvent) :=
  d ← get;
  offset ← lift (usub (mmio_address exit) (bar0 d));
  length ← lift (expect (try_from 64 (mmio_length exit)));
  match mmio_direction exit with
  | MmioRead =>
      bytes ← pmap_err virtio_rng_mmio_error (rng_read offset length);
      mret (ServiceRead bytes, None)
  | MmioWrite =>
      event ← pmap_err virtio_rng_mmio_error (rng_write offset (write_data exit));
      mret (ServiceWrite, queue_event <$> event)
  end.
Definition dispatch_virtio_blk (exit : MmioExit) :
  prog VirtioBlkDevice Error (MmioService * option MmioDeviceEvent) :=
  d ← get;
  offset ← lift (usub (mmio_address exit) (bar0 (regs d)));
  length ← lift (expect (try_from 64 (mmio_length exit)));
  match mmio_direction exit with
  | MmioRead =>
      bytes ← pmap_err virtio_blk_mmio_error (blk_read offset length);
      mret (ServiceRead bytes, None)
  | MmioWrite =>
      event ← pmap_err virtio_blk_mmio_error (blk_write offset (write_data exit));
      mret (ServiceWrite, queue_event <$> event)
  end.
(** A virtio access with the record of its event, addressed by the device's BAR. *)
Definition with_record {D} (bar : D → Z)
    (m : prog D Error (MmioService * option MmioDeviceEvent)) :
  prog D Error (MmioService * list MmioDeviceEventRecord) :=
  '(service, event) ← m;
  d ← get;
  mret (service, match event with
                 | Some e => [{| record_address := bar d; record_event := e |}]
                 | None => []
                 end).
Definition mmio_dispatch (exit : MmioExit) : prog MmioBus Error MmioService := λ bus,
  let address := mmio_address exit in
  match on_first (λ d, handles d address) (handle exit) (byte_devices bus) with
  | Some (r, devices) =>
      (map_err Mmio r, mkBus devices (virtio_rng_devices bus) (virtio_blk_devices bus)
                         (virtio_events bus))
  | None =>
  match on_first (λ d, virtio_rng_handles d address) (with_record bar0 (dispatch_virtio_rng exit))
          (virtio_rng_devices bus) with
  | Some (r, devices) =>
      (fst <$> r, mkBus (byte_devices bus) devices (virtio_blk_devices bus)
        (virtio_events bus ++ match r with Ok (_, events) => events | _ => [] end))
  | None =>
  match on_first (λ d, virtio_blk_handles d address)
          (with_record (λ d, bar0 (regs d)) (dispatch_virtio_blk exit)) (virtio_blk_devices bus) with
  | Some (r, devices) =>
      (fst <$> r, mkBus (byte_devices bus) (virtio_rng_devices bus) devices
        (virtio_events bus ++ match r with Ok (_, events) => events | _ => [] end))
  | None =>
      (Err (Mmio (UnhandledAddress address (mmio_direction_raw (mmio_direction exit))
                    (mmio_length exit))), bus)
  end end end.

(** * Events and notifications *)
Fixpoint take_byte_event (l : list ByteMmioDevice) :
  option MmioDeviceEventRecord * list ByteMmioDevice :=
  match l with
  | [] => (None, [])
  | d :: l =>
      match take_event d with
      | (Some e, d') => (Some {| record_address := byte_address d; record_event := e |}, d' :: l)
      | (None, d') => prod_map id (cons d') (take_byte_event l)
      end
  end.
Definition take_device_event_record (bus : MmioBus) : option MmioDeviceEventRecord * MmioBus :=
  match take_byte_event (byte_devices bus) with
  | (Some r, devices) =>
      (Some r, mkBus devices (virtio_rng_devices bus) (virtio_blk_devices bus) (virtio_events bus))
  | (None, devices) =>
      (head (virtio_events bus),
       mkBus devices (virtio_rng_devices bus) (virtio_blk_devices bus) (tail (virtio_events bus)))
  end.
Definition take_device_event (bus : MmioBus) : option MmioDeviceEvent * MmioBus :=
  prod_map (option_map record_event) id (take_device_event_record bus).

Definition process_virtio_rng_notification (address : Z) :
  prog (MmioBus * GuestMemory) VirtioRngProcessError (option VirtioRngQueueCompletion) := λ '(bus, m),
  match on_first (λ d, bar0 d =? address)
          (λ d, let '(r, (d', m')) := rng_process_notified_queue (d, m) in ((Ok (r, m') : res unit _), d'))
          (virtio_rng_devices bus) with
  | Some (Ok (r, m'), devices) =>
      (Some <$> r, (mkBus (byte_devices bus) devices (virtio_blk_devices bus) (virtio_events bus), m'))
  | _ => (Ok None, (bus, m))
  end.
(** [disk] is the contents of the file behind a persistent device, which plain
    processing leaves alone. *)
Definition process_virtio_blk_notification (disk : list Z) (address : Z) :
  prog (MmioBus * GuestMemory) VirtioBlkProcessError (option VirtioBlkQueueCompletion) := λ '(bus, m),
  match on_first (λ d, bar0 (regs d) =? address)
          (λ d, let '(r, (d', _, m')) := blk_process_notified_queue (d, disk, m) in
                ((Ok (r, m') : res unit _), d'))
          (virtio_blk_devices bus) with
  | Some (Ok (r, m'), devices) =>
      (Some <$> r, (mkBus (byte_devices bus) (virtio_rng_devices bus) devices (virtio_events bus), m'))
  | _ => (Ok None, (bus, m))
  end.
Definition apply_virtio_blk_host_notification (address queue : Z) : prog MmioBus Error bool := λ bus,
  match on_first (λ d, bar0 (regs d) =? address)
          (pmap_err virtio_blk_mmio_error (blk_write VIRTIO_NOTIFY_OFFSET (to_le_bytes 2 queue)))
          (virtio_blk_devices bus) with
  | None => (Ok false, bus)
  | Some (r, devices) =>
      (event ← r;
       match event with
       | Some (QueueNotified observed) =>
           if observed =? queue then Ok true
           else Err (HostEnvironment (Io "apply virtio-blk host queue notification" (Custom InvalidData
             (Message "virtio-blk notify register did not produce the expected queue event"))))
       | None =>
           Err (HostEnvironment (Io "apply virtio-blk host queue notification" (Custom InvalidData
             (Message "virtio-blk notify register did not produce the expected queue event"))))
       end,
       mkBus (byte_devices bus) (virtio_rng_devices bus) devices (virtio_events bus))
  end.

(** * Observers *)
Definition find_at {D A} (bar : D → Z) (f : D → A) (address : Z) (l : list D) : option A :=
  f <$> head (filter (λ d, bar d = address) l).
Definition virtio_rng_status_at (bus : MmioBus) (address : Z) : option Z :=
  find_at bar0 status address (virtio_rng_devices bus).
Definition virtio_rng_driver_features_at (bus : MmioBus) (address : Z) : option Z :=
  find_at bar0 driver_features address (virtio_rng_devices bus).
Definition virtio_rng_queue_enabled_at (bus : MmioBus) (address : Z) : option bool :=
  find_at bar0 queue_enabled address (virtio_rng_devices bus).
Definition virtio_blk_status_at (bus : MmioBus) (address : Z) : option Z :=
  find_at (λ d, bar0 (regs d)) (λ d, status (regs d)) address (virtio_blk_devices bus).
Definition virtio_blk_driver_features_at (bus : MmioBus) (address : Z) : option Z :=
  find_at (λ d, bar0 (regs d)) (λ d, driver_features (regs d)) address (virtio_blk_devices bus).
Definition virtio_blk_queue_enabled_at (bus : MmioBus) (address : Z) : option bool :=
  find_at (λ d, bar0 (regs d)) (λ d, queue_enabled (regs d)) address (virtio_blk_devices bus).
Definition writes (bus : MmioBus) : option (list Z) :=
  match byte_devices bus, virtio_rng_devices bus, virtio_blk_devices bus with
  | [d], [], [] => Some (byte_writes d)
  | _, _, _ => None
  end.
Definition writes_at (bus : MmioBus) (address : Z) : option (list Z) :=
  find_at byte_address byte_writes address (byte_devices bus).

(** * Facts *)

(** ** The first device that claims an address *)
Lemma on_first_Some {S E A} (p : S → bool) (m : prog S E A) l r l' :
  on_first p m l = Some (r, l') →
  ∃ l1 d l2 d', l = l1 ++ d :: l2 ∧ Forall (λ x, p x = false) l1 ∧ p d = true ∧
    m d = (r, d') ∧ l' = l1 ++ d' :: l2.
Proof.
  revert l'. induction l as [|d l IH]; intros l' H; simpl in H; [done|].
  destruct (p d) eqn:Hp.
  - destruct (m d) as [r' d'] eqn:Hm. injection H as <- <-. exists [], d, l, d'. by split_and!; try apply Forall_nil_2.
  - apply fmap_Some in H as ([r' l'']&H&Heq). injection Heq as -> ->.
    destruct (IH _ H) as (l1&d1&l2&d'&->&?&?&?&->).
    exists (d :: l1), d1, l2, d'. split_and!; try done. by apply Forall_cons.
Qed.
Lemma on_first_None {S E A} (p : S → bool) (m : prog S E A) l :
  on_first p m l = None ↔ Forall (λ x, p x = false) l.
Proof.
  induction l as [|d l IH]; simpl; [by rewrite Forall_nil|]. rewrite Forall_cons. destruct (p d) eqn:Hp.
  - destruct (m d). naive_solver.
  - rewrite fmap_None, IH. naive_solver.
Qed.
(** A device method that keeps an invariant [P] and an attribute [f] of the device. *)
Lemma on_first_keeps {S E A B} (P : S → Prop) (f : S → B) (p : S → bool) (m : prog S E A) l r l' :
  (∀ d, P d → p d = true → P (m d).2 ∧ f (m d).2 = f d) →
  on_first p m l = Some (r, l') → Forall P l → Forall P l' ∧ f <$> l' = f <$> l.
Proof.
  intros Hm (l1&d&l2&d'&->&_&Hp&Hd&->)%on_first_Some HP.
  rewrite Forall_app, Forall_cons in *. destruct HP as (?&Hd0&?).
  destruct (Hm d Hd0 Hp) as [HP' Hf]. rewrite Hd in *. simpl in *.
  split; [done|]. by rewrite !fmap_app, !fmap_cons, Hf.
Qed.

(** ** Ranges *)
Definition range_ok (r : Z * Z) : Prop := 0 ≤ r.1 ∧ 0 < r.2 ∧ r.1 + r.2 < 2 ^ 64.
(** Every address has at most one owner. *)
Definition ranges_ok (l : list (Z * Z)) : Prop :=
  Forall range_ok l ∧ ∀ x, (length (filter (λ r, range_handles r x = true) l) ≤ 1)%nat.
Lemma range_handles_iff r x : range_ok r → range_handles r x = true ↔ r.1 ≤ x < r.1 + r.2.
Proof.
  intros (?&?&?). unfold range_handles, Prelude.checked_add.
  rewrite (proj2 (Z.ltb_lt _ _)) by done. rewrite andb_true_iff, Z.leb_le, Z.ltb_lt. lia.
Qed.
Lemma check_ranges_Ok address size end_ l :
  Forall range_ok l → check_ranges address size end_ l = Ok tt →
  Forall (λ r, end_ ≤ r.1 ∨ r.1 + r.2 ≤ address) l.
Proof.
  induction 1 as [|[a n] l (Ha&Hn&Hs) _ IH]; intros H; [apply Forall_nil_2|].
  cbn [fst snd check_ranges] in *. unfold Prelude.checked_add in H.
  rewrite (proj2 (Z.ltb_lt (a + n) _) Hs) in H. cbn [ok_or mbind res_bind] in H. destruct ((address <? a + n) && (a <? end_)) eqn:Hov; simpl in H; [done|].
  constructor; [|by apply IH]. simpl. apply andb_false_iff in Hov as [?%Z.ltb_ge|?%Z.ltb_ge]; lia.
Qed.
Lemma ensure_range_available_Ok bus a n :
  ranges_ok (registered_ranges bus) → 0 ≤ a → 0 < n →
  ensure_range_available bus a n = Ok tt →
  range_ok (a, n) ∧ Forall (λ r, a + n ≤ r.1 ∨ r.1 + r.2 ≤ a) (registered_ranges bus).
Proof.
  intros [Hok _] Ha Hn H. unfold ensure_range_available, Prelude.checked_add in H.
  destruct (Z.ltb_spec (a + n) (2 ^ 64)); [|done]. simpl in H.
  apply check_ranges_Ok in H; [|done]. done.
Qed.
Lemma filter_none {A} (P : A → Prop) `{∀ x, Decision (P x)} l :
  Forall (λ x, ¬ P x) l → filter P l = [].
Proof.
  induction 1 as [|x l Hx _ IH]; [done|]. by rewrite filter_cons_False.
Qed.
Lemma ranges_ok_add r l l' :
  l' ≡ₚ r :: l → ranges_ok l → range_ok r →
  Forall (λ s, r.1 + r.2 ≤ s.1 ∨ s.1 + s.2 ≤ r.1) l → ranges_ok l'.
Proof.
  intros Hp [Hl Hone] Hr Hd. split; [rewrite Hp; by constructor|].
  intros x. rewrite Hp, filter_cons. case_decide as Hx; [|done].
  apply range_handles_iff in Hx; [|done].
  assert (filter (λ s, range_handles s x = true) l = []) as ->; [|simpl; lia].
  apply filter_none. eapply Forall_impl; [exact (proj2 (Forall_and _ _) (conj Hl Hd))|].
  intros s [Hs Hdis]. rewrite range_handles_iff by done. lia.
Qed.

(** ** Virtio accesses keep the BAR and answer at the requested width *)
Section keeps.
Context {E : Type} `{!VirtioFunction E}.
Definition keeps {A} (m : prog VirtioRegs E A) : Prop := ∀ d, bar0 (m d).2 = bar0 d.
Lemma keeps_bind {A B} (m : prog VirtioRegs E A) (f : A → prog VirtioRegs E B) :
  keeps m → (∀ a, keeps (f a)) → keeps (m ≫= f).
Proof.
  intros Hm Hf d. specialize (Hm d). unfold mbind, prog_bind.
  destruct (m d) as [[a|e|] d']; simpl in *; [|done..]. by rewrite Hf.
Qed.
Lemma keeps_lift {A} (x : res E A) : keeps (lift x).
Proof. done. Qed.
Lemma keeps_get : keeps (get : prog VirtioRegs E VirtioRegs).
Proof. done. Qed.
Lemma keeps_reading {A} (f : VirtioRegs → res E A) : keeps (reading f).
Proof. done. Qed.
Lemma keeps_ret {A} (a : A) : keeps (mret a).
Proof. done. Qed.
Lemma keeps_throw {A} (e : E) : keeps (A:=A) (throw e).
Proof. done. Qed.
Lemma keeps_modify f : (∀ d, bar0 (f d) = bar0 d) → keeps (modify f).
Proof. intros Hf d. apply Hf. Qed.
End keeps.
Ltac keeps_step :=
  lazymatch goal with
  | |- keeps (if ?b then _ else _) => destruct b
  | |- keeps (match ?b with _ => _ end) => destruct b
  | |- keeps (_ ≫= _) => apply keeps_bind; [|intros ?]
  | |- keeps (let _ := _ in _) => cbv zeta
  | |- keeps (modify _) => apply keeps_modify; intros ?; reflexivity
  | |- _ => first [apply keeps_lift | apply keeps_get | apply keeps_reading | apply keeps_ret
                  | apply keeps_throw]
  end.
Lemma virtio_read_keeps `{!VirtioFunction E} offset length : keeps (virtio_read offset length).
Proof. unfold virtio_read. repeat keeps_step. Qed.
Lemma virtio_write_keeps `{!VirtioFunction E} offset payload : keeps (virtio_write offset payload).
Proof.
  unfold virtio_write, write_driver_feature_word, write_status, write_queue_size, write_queue_enable,
    write_queue_address. repeat keeps_step.
Qed.
(** The answer of a read: as many bytes as asked for. *)
Definition answers (length : Z) (bytes : list Z) : Prop := len bytes = length ∧ bytes_ok bytes.
Lemma answers_le_bytes n z : answers (Z.of_nat n) (to_le_bytes n z).
Proof. split; [apply len_to_le_bytes|apply to_le_bytes_ok]. Qed.
Lemma answers_byte b : u8 b → answers 1 [b].
Proof. intros. split; [done|]. by apply Forall_singleton. Qed.
Lemma virtio_read_answers `{!VirtioFunction E} offset length d :
  regs_wf d → (∀ o n bytes, config_register o n = Some bytes → answers n bytes) →
  match (virtio_read offset length d).1 with Ok bytes => answers length bytes | _ => True end.
Proof.
  intros Hd Hcfg. unfold virtio_read, mbind, prog_bind, get. cbv zeta.
  assert (u8 (status d)) by apply Hd.
  assert (u8 (isr_status d)) by (destruct (wf_isr_status d Hd) as [->| ->]; done).
  repeat match goal with
  | |- context [if arm offset length ?r ?n then _ else _] =>
      let H := fresh in destruct (arm offset length r n) eqn:H;
      [apply andb_true_iff in H as [_ ->%Z.eqb_eq];
       first [exact (answers_le_bytes 4 _) | exact (answers_le_bytes 2 _) | apply answers_byte; done]|]
  end.
  destruct (config_register offset length) eqn:Hc; cbn; [by eapply Hcfg|done].
Qed.
Lemma rng_config_answers o n bytes :
  config_register (VirtioFunction:=rng_function) o n = Some bytes → answers n bytes.
Proof. done. Qed.
Lemma blk_config_answers o n bytes :
  config_register (VirtioFunction:=blk_function) o n = Some bytes → answers n bytes.
Proof.
  simpl. unfold arm. destruct (_ && _) eqn:H; [|done]. intros [= <-].
  apply andb_true_iff in H as [_ ->%Z.eqb_eq]. exact (answers_le_bytes 8 _).
Qed.

(** ** One access *)
Definition exit_wf (exit : MmioExit) : Prop :=
  0 ≤ mmio_address exit ∧ 1 ≤ mmio_length exit ≤ KVM_MMIO_DATA_CAPACITY ∧ bytes_ok (write_data exit).
Definition service_fits (exit : MmioExit) (service : MmioService) : Prop :=
  match service with
  | ServiceWrite => mmio_direction exit = MmioWrite
  | ServiceRead bytes => mmio_direction exit = MmioRead ∧ answers (mmio_length exit) bytes
  end.
(** What the bus relies on: an access by a device in state [P] does not panic, keeps
    [P] and the device's range, and answers at the width of the exit. *)
Definition serves {D A} (P : D → Prop) (range : D → Z * Z) (service : A → MmioService)
    (exit : MmioExit) (E : Type) (m : prog D E A) : Prop :=
  ∀ d, P d → range_handles (range d) (mmio_address exit) = true → range_ok (range d) →
    P (m d).2 ∧ range (m d).2 = range d ∧ no_panic (m d).1 ∧
    match (m d).1 with Ok a => service_fits exit (service a) | _ => True end.
Lemma access_length exit :
  exit_wf exit → expect (E:=Error) (try_from 64 (mmio_length exit)) = Ok (mmio_length exit).
Proof.
  intros (_&Hl&_). unfold KVM_MMIO_DATA_CAPACITY in Hl. unfold try_from.
  by rewrite (proj2 (Z.ltb_lt _ _)) by lia.
Qed.
Lemma usub_in_range {E} range x :
  range_ok range → range_handles range x = true → usub (E:=E) x range.1 = Ok (x - range.1).
Proof. intros Hr Hh. apply range_handles_iff in Hh; [|done]. apply usub_ok. lia. Qed.
Definition rng_wf : VirtioRngDevice → Prop := regs_wf (E:=VirtioRngError).
Lemma rng_serves exit :
  exit_wf exit →
  serves rng_wf rng_range fst exit Error (with_record bar0 (dispatch_virtio_rng exit)).
Proof.
  intros Hex d Hd Hh Hr. unfold with_record, dispatch_virtio_rng, mbind, prog_bind, get.
  pose proof (usub_in_range (E:=Error) _ _ Hr Hh) as Hs. cbn [rng_range fst] in Hs.
  unfold lift. rewrite Hs, (access_length _ Hex). unfold pmap_err, rng_read, rng_write, rng_range.
  set (o := _ - _). destruct (mmio_direction exit) eqn:Hdir.
  - destruct (virtio_read_safe (E:=VirtioRngError) o (mmio_length exit) d Hd) as [Hwf Hnp].
    pose proof (virtio_read_keeps (E:=VirtioRngError) o (mmio_length exit) d) as Hk.
    pose proof (virtio_read_answers o (mmio_length exit) d Hd rng_config_answers) as Ha.
    destruct (virtio_read o (mmio_length exit) d) as [[bytes|e|] d']; simpl in *;
      rewrite ?Hk; split_and!; done.
  - destruct (virtio_write_safe (E:=VirtioRngError) o _ (proj2 (proj2 Hex)) d Hd) as [Hwf Hnp].
    pose proof (virtio_write_keeps (E:=VirtioRngError) o (write_data exit) d) as Hk.
    destruct (virtio_write o (write_data exit) d) as [[ev|e|] d']; simpl in *;
      rewrite ?Hk; split_and!; done.
Qed.
Lemma blk_serves exit :
  exit_wf exit →
  serves blk_wf blk_range fst exit Error (with_record (λ d, bar0 (regs d)) (dispatch_virtio_blk exit)).
Proof.
  intros Hex d Hd Hh Hr. unfold with_record, dispatch_virtio_blk, mbind, prog_bind, get.
  pose proof (usub_in_range (E:=Error) _ _ Hr Hh) as Hs. cbn [blk_range fst] in Hs.
  unfold lift. rewrite Hs, (access_length _ Hex). unfold pmap_err, blk_range.
  set (o := _ - _). destruct (mmio_direction exit) eqn:Hdir.
  - destruct (blk_access_wf _ _ (blk_access_read d o (mmio_length exit)) Hd) as [Hwf _].
    unfold blk_read, on_regs in *.
    destruct (virtio_read_safe (E:=VirtioBlkError) o (mmio_length exit) _ (proj1 Hd)) as [_ Hnp].
    pose proof (virtio_read_keeps (E:=VirtioBlkError) o (mmio_length exit) (regs d)) as Hk.
    pose proof (virtio_read_answers o (mmio_length exit) _ (proj1 Hd) blk_config_answers) as Ha.
    destruct (virtio_read o (mmio_length exit) (regs d)) as [[bytes|e|] d']; simpl in *;
      rewrite ?Hk; split_and!; done.
  - destruct (blk_access_wf _ _ (blk_access_write d o _ (proj2 (proj2 Hex))) Hd) as [Hwf _].
    unfold blk_write, on_regs in *.
    destruct (virtio_write_safe (E:=VirtioBlkError) o _ (proj2 (proj2 Hex)) _ (proj1 Hd)) as [_ Hnp].
    pose proof (virtio_write_keeps (E:=VirtioBlkError) o (write_data exit) (regs d)) as Hk.
    destruct (virtio_write o (write_data exit) (regs d)) as [[ev|e|] d']; simpl in *;
      rewrite ?Hk; split_and!; done.
Qed.

(** ** Byte devices *)
Definition byte_wf (d : ByteMmioDevice) : Prop := u8 (read_value d).
Lemma exact_write_byte_ok exit : no_panic (exact_write_byte exit).
Proof.
  unfold exact_write_byte. destruct (Z.eqb_spec (len (write_data exit)) 1) as [H|]; [|done].
  simpl. apply no_panic_index. lia.
Qed.
Lemma byte_serves exit : serves byte_wf address_range id exit MmioError (handle exit).
Proof.
  intros d Hd Hh Hr. unfold handle. rewrite prog_bind_err_if.
  destruct (Z.eqb_spec (mmio_length exit) 1) as [Hl|]; [|done]. cbn [negb].
  unfold mbind at 1, prog_bind at 1, get.
  pose proof (exact_write_byte_ok exit) as Hb.
  pose proof (usub_in_range (E:=MmioError) _ _ Hr Hh) as Hs. cbn [address_range fst] in Hs.
  assert (∀ b : bool, answers (mmio_length exit) [if b then 1 else 0]) as Hbit.
  { intros []; rewrite Hl; by apply answers_byte. }
  assert (answers (mmio_length exit) [read_value d]) by (rewrite Hl; by apply answers_byte).
  destruct (mode d) eqn:Hmode; unfold handle_plain, handle_level, mbind, prog_bind, get, lift, err_if;
    rewrite ?Hs; destruct (mmio_direction exit) eqn:Hdir; simpl;
    repeat (case_match; simplify_eq/=);
    unfold address_range, byte_wf in *; simpl; rewrite ?Hmode; split_and!;
    first [done | exact (Hbit true) | exact (Hbit false)].
Qed.

(** ** The bus invariant *)
Record bus_wf (bus : MmioBus) : Prop := {
  bw_ranges : ranges_ok (registered_ranges bus);
  bw_byte : Forall byte_wf (byte_devices bus);
  bw_rng : Forall rng_wf (virtio_rng_devices bus);
  bw_blk : Forall blk_wf (virtio_blk_devices bus)
}.
Lemma on_first_serves {D E A} (P : D → Prop) range (service : A → MmioService) exit (m : prog D E A) l r l' :
  serves P range service exit E m →
  on_first (λ d, range_handles (range d) (mmio_address exit)) m l = Some (r, l') →
  Forall P l → Forall range_ok (range <$> l) →
  Forall P l' ∧ range <$> l' = range <$> l ∧ no_panic r ∧
  match r with Ok a => service_fits exit (service a) | _ => True end.
Proof.
  intros Hm (l1&d&l2&d'&->&_&Hp&Hd&->)%on_first_Some HP Hok.
  rewrite fmap_app, fmap_cons, Forall_app, Forall_cons in Hok. rewrite Forall_app, Forall_cons in HP.
  destruct HP as (?&?&?), Hok as (_&?&_).
  destruct (Hm d) as (?&Hr&?&?); [done..|]. rewrite Hd in *. simpl in *.
  split_and!; try done; [by rewrite Forall_app, Forall_cons|].
  by rewrite !fmap_app, !fmap_cons, Hr.
Qed.
Lemma bus_wf_same_ranges bus bus' :
  bus_wf bus → registered_ranges bus' = registered_ranges bus →
  Forall byte_wf (byte_devices bus') → Forall rng_wf (virtio_rng_devices bus') →
  Forall blk_wf (virtio_blk_devices bus') → bus_wf bus'.
Proof. intros [] Hr ???. split; [by rewrite Hr|done..]. Qed.
Lemma bus_ranges_ok bus :
  bus_wf bus → Forall range_ok (address_range <$> byte_devices bus) ∧
    Forall range_ok (rng_range <$> virtio_rng_devices bus) ∧
    Forall range_ok (blk_range <$> virtio_blk_devices bus).
Proof. intros [[Hok _] _ _ _]. unfold registered_ranges in Hok. by rewrite !Forall_app in Hok. Qed.
Lemma mmio_dispatch_runs exit bus :
  bus_wf bus → exit_wf exit →
  runs (mmio_dispatch exit) bus
    (λ service bus', bus_wf bus' ∧ registered_ranges bus' = registered_ranges bus ∧
       service_fits exit service)
    (λ _ bus', bus_wf bus' ∧ registered_ranges bus' = registered_ranges bus).
Proof.
  intros Hwf Hex. pose proof Hwf as [_ Hb Hr Hk]. destruct (bus_ranges_ok bus Hwf) as (Rb&Rr&Rk).
  unfold mmio_dispatch, runs. cbv zeta.
  destruct (on_first _ (handle exit) _) as [[r l]|] eqn:H1.
  { destruct (on_first_serves _ _ _ _ _ _ _ _ (byte_serves exit) H1 Hb Rb) as (?&Heq&Hnp&Hfit).
    assert (registered_ranges (mkBus l (virtio_rng_devices bus) (virtio_blk_devices bus)
      (virtio_events bus)) = registered_ranges bus) as Hreg by (unfold registered_ranges; simpl; by rewrite Heq).
    destruct r; simpl; [split_and!|split_and!|done]; try done; by eapply bus_wf_same_ranges. }
  destruct (on_first _ (with_record bar0 _) _) as [[r l]|] eqn:H2.
  { destruct (on_first_serves _ _ _ _ _ _ _ _ (rng_serves exit Hex) H2 Hr Rr) as (?&Heq&Hnp&Hfit).
    assert (∀ ev, registered_ranges (mkBus (byte_devices bus) l (virtio_blk_devices bus) ev)
      = registered_ranges bus) as Hreg by (intros; unfold registered_ranges; simpl; by rewrite Heq).
    destruct r as [[]| |]; simpl; [split_and!|split_and!|done]; try done; by eapply bus_wf_same_ranges. }
  destruct (on_first _ (with_record _ (dispatch_virtio_blk exit)) _) as [[r l]|] eqn:H3; [|done].
  destruct (on_first_serves _ _ _ _ _ _ _ _ (blk_serves exit Hex) H3 Hk Rk) as (?&Heq&Hnp&Hfit).
  assert (∀ ev, registered_ranges (mkBus (byte_devices bus) (virtio_rng_devices bus) l ev)
    = registered_ranges bus) as Hreg by (intros; unfold registered_ranges; simpl; by rewrite Heq).
  destruct r as [[]| |]; simpl; [split_and!|split_and!|done]; try done; by eapply bus_wf_same_ranges.
Qed.

(** ** Registration, events and notifications keep the invariant *)
Lemma push_byte_ranges d bus :
  registered_ranges (push_byte d bus) ≡ₚ address_range d :: registered_ranges bus.
Proof.
  unfold registered_ranges, push_byte. simpl. rewrite fmap_app, <- assoc_L by apply _.
  simpl. by rewrite <- Permutation_middle.
Qed.
Lemma push_rng_ranges d bus :
  registered_ranges (push_rng d bus) ≡ₚ rng_range d :: registered_ranges bus.
Proof.
  unfold registered_ranges, push_rng. simpl. rewrite fmap_app, <- assoc_L by apply _.
  simpl. by rewrite <- Permutation_middle, <- Permutation_middle.
Qed.
Lemma push_blk_ranges d bus :
  registered_ranges (push_blk d bus) ≡ₚ blk_range d :: registered_ranges bus.
Proof.
  unfold registered_ranges, push_blk. simpl. rewrite fmap_app.
  rewrite !(assoc_L (++)). symmetry. apply Permutation_cons_append.
Qed.
Lemma no_panic_check_ranges address size end_ l : no_panic (check_ranges address size end_ l).
Proof. induction l as [|[a n] l IH]; [done|]. simpl. np. Qed.
#[export] Hint Resolve no_panic_check_ranges : panics.
(** A registration either fails and changes nothing or adds one disjoint range. *)
Lemma register_runs (push : MmioBus → MmioBus) address size bus :
  bus_wf bus → 0 ≤ address → 0 < size →
  registered_ranges (push bus) ≡ₚ (address, size) :: registered_ranges bus →
  Forall byte_wf (byte_devices (push bus)) → Forall rng_wf (virtio_rng_devices (push bus)) →
  Forall blk_wf (virtio_blk_devices (push bus)) →
  runs (reading (λ b, ensure_range_available b address size);; modify push) bus
    (λ _ bus', bus' = push bus ∧ bus_wf bus') (λ _ bus', bus' = bus).
Proof.
  intros Hwf Ha Hs Hp ???. apply runs_bind, runs_reading; [| |done].
  - unfold ensure_range_available. np.
  - intros [] Hok. apply runs_modify. split; [done|].
    destruct Hwf as [Hr _ _ _]. apply ensure_range_available_Ok in Hok as [Hrng Hdis]; [|done..].
    split; [|done..]. by eapply ranges_ok_add.
Qed.
Lemma register_device_runs d bus :
  bus_wf bus → byte_wf d → 0 ≤ byte_address d →
  runs (register_device d) bus (λ _ bus', bus' = push_byte d bus ∧ bus_wf bus') (λ _ bus', bus' = bus).
Proof.
  intros Hwf Hd Ha. apply register_runs; [done|done|..]; try apply Hwf.
  - unfold address_range. simpl. by destruct (mode d).
  - apply push_byte_ranges.
  - simpl. rewrite Forall_app, Forall_singleton. by split; [apply Hwf|].
Qed.
Lemma register_rng_runs address bus :
  bus_wf bus → 0 ≤ address →
  runs (register_virtio_rng_device_at address) bus
    (λ _ bus', bus' = push_rng (rng_new address) bus ∧ bus_wf bus') (λ _ bus', bus' = bus).
Proof.
  intros Hwf Ha. apply register_runs; [done|done|done|..]; try apply Hwf.
  - apply push_rng_ranges.
  - simpl. rewrite Forall_app, Forall_singleton. split; [apply Hwf|apply virtio_new_wf].
Qed.
Lemma register_blk_runs address bus :
  bus_wf bus → 0 ≤ address →
  runs (register_virtio_blk_device_at address) bus
    (λ _ bus', bus' = push_blk (blk_new address) bus ∧ bus_wf bus') (λ _ bus', bus' = bus).
Proof.
  intros Hwf Ha. apply register_runs; [done|done|done|..]; try apply Hwf.
  - apply push_blk_ranges.
  - simpl. rewrite Forall_app, Forall_singleton. split; [apply Hwf|apply blk_new_wf].
Qed.

Lemma take_event_keeps d :
  address_range (take_event d).2 = address_range d ∧ (byte_wf d → byte_wf (take_event d).2).
Proof. unfold take_event. destruct d as [a w v [] e p l]; simpl; by repeat case_match. Qed.
Lemma take_byte_event_keeps l :
  address_range <$> (take_byte_event l).2 = address_range <$> l ∧
  (Forall byte_wf l → Forall byte_wf (take_byte_event l).2).
Proof.
  induction l as [|d l [IH1 IH2]]; [done|]. simpl. destruct (take_event_keeps d) as [H1 H2].
  destruct (take_event d) as [[e|] d']; [|destruct (take_byte_event l) as [r l']]; simpl in *;
    rewrite H1, !Forall_cons; (split; [by try (f_equal; exact IH1)|]); intros []; split; auto.
Qed.
Lemma take_record_wf bus :
  bus_wf bus → bus_wf (take_device_event_record bus).2 ∧
  registered_ranges (take_device_event_record bus).2 = registered_ranges bus.
Proof.
  intros Hwf. unfold take_device_event_record.
  destruct (take_byte_event_keeps (byte_devices bus)) as [H1 H2].
  specialize (H2 (bw_byte _ Hwf)).
  assert (∀ ev, registered_ranges (mkBus (take_byte_event (byte_devices bus)).2
    (virtio_rng_devices bus) (virtio_blk_devices bus) ev) = registered_ranges bus) as Hr
    by (intros; unfold registered_ranges; simpl; by rewrite H1).
  destruct (take_byte_event (byte_devices bus)) as [[r|] l]; simpl in *;
    (split; [|done]); eapply bus_wf_same_ranges; (done || apply Hwf).
Qed.

Definition world_wf (w : MmioBus * GuestMemory) : Prop := bus_wf w.1 ∧ memory_wf w.2.
Lemma rng_process_keeps d m :
  rng_wf d → memory_wf m → bar0 (rng_process_notified_queue (d, m)).2.1 = bar0 d.
Proof.
  intros Hd Hm. pose proof (rng_process_runs d m Hd Hm) as Hr. unfold runs in Hr.
  destruct (rng_process_notified_queue (d, m)) as [[c|e|] [d' m']]; [| |done].
  - destruct Hr as (a&b&_&_&_&_&->&_). done.
  - by destruct Hr as (->&_).
Qed.
Lemma blk_process_keeps d disk m :
  blk_wf d → memory_wf m →
  bar0 (regs (blk_process_notified_queue ((d, disk), m)).2.1.1) = bar0 (regs d).
Proof.
  intros Hd Hm. pose proof (blk_process_runs d disk m Hd Hm) as Hr. unfold runs in Hr.
  destruct (blk_process_notified_queue _) as [[c|e|] [[d' disk'] m']]; [| |done].
  - by destruct Hr as (a&[= -> ->]&_).
  - by destruct Hr as ([= -> ->]&_).
Qed.
Lemma process_rng_wf address w :
  world_wf w → world_wf (process_virtio_rng_notification address w).2 ∧
    registered_ranges (process_virtio_rng_notification address w).2.1 = registered_ranges w.1 ∧
    no_panic (process_virtio_rng_notification address w).1.
Proof.
  destruct w as [bus m]. intros [Hwf Hm]. cbn [fst snd] in Hwf, Hm. unfold process_virtio_rng_notification.
  destruct (on_first _ _ _) as [[[[r m']|?|] l]|] eqn:H; try done.
  apply on_first_Some in H as (l1&d&l2&d'&Hl&_&_&Hd&->). pose proof (bw_rng _ Hwf) as Hr.
  rewrite Hl, Forall_app, Forall_cons in Hr. destruct Hr as (?&Hdw&?).
  pose proof (rng_process_keeps d m Hdw Hm) as Hk.
  destruct (rng_process_wf (d, m) (conj Hdw Hm)) as [[Hd' Hm'] Hnp].
  destruct (rng_process_notified_queue (d, m)) as [r0 [d0 m0]]. simpl in *.
  injection Hd as <- <- <-.
  assert (registered_ranges (mkBus (byte_devices bus) (l1 ++ d0 :: l2) (virtio_blk_devices bus)
    (virtio_events bus)) = registered_ranges bus) as Hreg.
  { unfold registered_ranges. simpl. rewrite Hl, !fmap_app, !fmap_cons.
    unfold rng_range at 2 5. by rewrite Hk. }
  split_and!; [split; [|done]|done|by destruct r0].
  eapply bus_wf_same_ranges; [done|done|apply Hwf| |apply Hwf]. simpl.
  by rewrite Forall_app, Forall_cons.
Qed.
Lemma process_blk_wf disk address w :
  world_wf w → world_wf (process_virtio_blk_notification disk address w).2 ∧
    registered_ranges (process_virtio_blk_notification disk address w).2.1 = registered_ranges w.1 ∧
    no_panic (process_virtio_blk_notification disk address w).1.
Proof.
  destruct w as [bus m]. intros [Hwf Hm]. cbn [fst snd] in Hwf, Hm. unfold process_virtio_blk_notification.
  destruct (on_first _ _ _) as [[[[r m']|?|] l]|] eqn:H; try done.
  apply on_first_Some in H as (l1&d&l2&d'&Hl&_&_&Hd&->). pose proof (bw_blk _ Hwf) as Hr.
  rewrite Hl, Forall_app, Forall_cons in Hr. destruct Hr as (?&Hdw&?).
  pose proof (blk_process_keeps d disk m Hdw Hm) as Hk.
  destruct (blk_process_wf ((d, disk), m) (conj Hdw Hm)) as [[Hd' Hm'] Hnp].
  destruct (blk_process_notified_queue _) as [r0 [[d0 disk0] m0]]. simpl in *.
  injection Hd as <- <- <-.
  assert (registered_ranges (mkBus (byte_devices bus) (virtio_rng_devices bus) (l1 ++ d0 :: l2)
    (virtio_events bus)) = registered_ranges bus) as Hreg.
  { unfold registered_ranges. simpl. rewrite Hl, !fmap_app, !fmap_cons.
    unfold blk_range at 2 5. by rewrite Hk. }
  split_and!; [split; [|done]|done|by destruct r0].
  eapply bus_wf_same_ranges; [done|done|apply Hwf|apply Hwf|]. simpl.
  by rewrite Forall_app, Forall_cons.
Qed.
Lemma host_notification_wf address queue bus :
  bus_wf bus → bus_wf (apply_virtio_blk_host_notification address queue bus).2 ∧
    registered_ranges (apply_virtio_blk_host_notification address queue bus).2 = registered_ranges bus ∧
    no_panic (apply_virtio_blk_host_notification address queue bus).1.
Proof.
  intros Hwf. unfold apply_virtio_blk_host_notification.
  destruct (on_first _ _ _) as [[r l]|] eqn:H; [|done].
  set (p := λ d, bar0 (regs d) =? address) in H.
  assert (∀ d, blk_wf d → p d = true → blk_wf (pmap_err virtio_blk_mmio_error
    (blk_write VIRTIO_NOTIFY_OFFSET (to_le_bytes 2 queue)) d).2 ∧ blk_range (pmap_err
    virtio_blk_mmio_error (blk_write VIRTIO_NOTIFY_OFFSET (to_le_bytes 2 queue)) d).2 = blk_range d)
    as Hkeep.
  { intros d Hd _. simpl.
    destruct (blk_access_wf _ _ (blk_access_write d VIRTIO_NOTIFY_OFFSET _ (to_le_bytes_ok 2 queue)) Hd)
      as [? _]. split; [done|]. unfold blk_range.
    pose proof (virtio_write_keeps (E:=VirtioBlkError) VIRTIO_NOTIFY_OFFSET (to_le_bytes 2 queue) (regs d)) as Hk.
    unfold blk_write, on_regs. destruct (virtio_write _ _ _) as [? ?]. simpl in *. by rewrite Hk. }
  destruct (on_first_keeps blk_wf blk_range p _ _ _ _ Hkeep H (bw_blk _ Hwf)) as [Hwf' Heq].
  assert (registered_ranges (mkBus (byte_devices bus) (virtio_rng_devices bus) l (virtio_events bus))
    = registered_ranges bus) as Hreg by (unfold registered_ranges; simpl; by rewrite Heq).
  split_and!; simpl; [eapply bus_wf_same_ranges; (done || apply Hwf)|done|].
  apply on_first_Some in H as (l1&d&l2&d'&Hl&_&_&Hd&->). pose proof (bw_blk _ Hwf) as Hr.
  rewrite Hl, Forall_app, Forall_cons in Hr. destruct Hr as (_&[Hdw _]&_).
  destruct (virtio_write_safe (E:=VirtioBlkError) VIRTIO_NOTIFY_OFFSET _ (to_le_bytes_ok 2 queue) _ Hdw)
    as [_ Hnp]. unfold pmap_err, blk_write, on_regs in Hd.
  destruct (virtio_write _ _ _) as [r0 ?]. simpl in *. injection Hd as <- <-.
  destruct r0 as [[[q]|]|?|]; simpl; [by case_match|done..].
Qed.

(** ** Histories of the bus *)
Inductive mmio_step : MmioBus * GuestMemory → MmioBus * GuestMemory → Prop :=
  | step_register_byte bus m address value :
      u64 address → u8 value → mmio_step (bus, m) ((register_byte_device_at address value bus).2, m)
  | step_register_level bus m address :
      u64 address → mmio_step (bus, m) ((register_level_interrupt_byte_device_at address bus).2, m)
  | step_register_rng bus m address :
      u64 address → mmio_step (bus, m) ((register_virtio_rng_device_at address bus).2, m)
  | step_register_blk bus m address :
      u64 address → mmio_step (bus, m) ((register_virtio_blk_device_at address bus).2, m)
  | step_dispatch bus m exit : exit_wf exit → mmio_step (bus, m) ((mmio_dispatch exit bus).2, m)
  | step_take bus m : mmio_step (bus, m) ((take_device_event_record bus).2, m)
  | step_process_rng address w : mmio_step w (process_virtio_rng_notification address w).2
  | step_process_blk disk address w : mmio_step w (process_virtio_blk_notification disk address w).2
  | step_host_notification bus m address queue :
      mmio_step (bus, m) ((apply_virtio_blk_host_notification address queue bus).2, m)
  | step_guest bus m m' : memory_wf m' → mmio_step (bus, m) (bus, m').
Lemma runs_state {S E A} (m : prog S E A) s (P : S → Prop) (Q : A → S → Prop) (X : E → S → Prop) :
  runs m s Q X → (∀ a s', Q a s' → P s') → (∀ e s', X e s' → P s') → P (m s).2.
Proof. unfold runs. destruct (m s) as [[] ?]; naive_solver. Qed.
Lemma mmio_step_wf w w' : mmio_step w w' → world_wf w → world_wf w'.
Proof.
  intros Hstep Hw.
  destruct Hstep as [bus m a v Ha Hv|bus m a Ha|bus m a Ha|bus m a Ha|bus m exit Hex|bus m|a w|disk a w
    |bus m a q|bus m m' Hm'];
    try (split; [|apply Hw]; destruct Hw as [Hw _]; cbn [fst snd] in *).
  - eapply runs_state; [apply register_device_runs; [done|done|apply Ha]| |]; simpl; naive_solver.
  - eapply runs_state; [apply register_device_runs; [done|done|apply Ha]| |]; simpl; naive_solver.
  - eapply runs_state; [apply register_rng_runs; [done|apply Ha]| |]; simpl; naive_solver.
  - eapply runs_state; [apply register_blk_runs; [done|apply Ha]| |]; simpl; naive_solver.
  - eapply runs_state; [by apply mmio_dispatch_runs| |]; simpl; naive_solver.
  - by apply take_record_wf.
  - by apply process_rng_wf.
  - by apply process_blk_wf.
  - by apply host_notification_wf.
  - split; [apply Hw|done].
Qed.
Lemma mmio_steps_wf w w' : rtc mmio_step w w' → world_wf w → world_wf w'.
Proof. induction 1; eauto using mmio_step_wf. Qed.

Lemma exit_wf_of_run id run exit : run_wf run → mmio_exit id run = Ok exit → exit_wf exit.
Proof.
  intros Hwf He. pose proof Hwf as (_&_&Hb).
  apply mmio_exit_Ok in He as (_&_&Ha&_&Hl&Hd); [|done]. split_and!; [|apply Hl|apply Hl|].
  - rewrite Ha. apply (field_at_bound run 32 8 Hb). lia.
  - rewrite Hd. destruct (mmio_direction exit); [apply Forall_nil_2|eauto with bytes].
Qed.

(** * Properties *)

(** C11: no history breaks the bus.  After any sequence of registrations, guest
    accesses, event takes, queue processing, host notifications and guest writes to
    its RAM, the registered ranges fit the address space and are pairwise disjoint
    (an address has at most one owner) and every device satisfies its invariant.
    Serving an exit decoded from the shared page never panics, keeps the ranges,
    and a read is answered with bytes the page's response writer accepts. *)
Theorem mmio_reachable_safe m0 bus m :
  memory_wf m0 → rtc mmio_step (mmio_empty, m0) (bus, m) →
  bus_wf bus ∧ memory_wf m ∧
  ∀ id run exit, run_wf run → mmio_exit id run = Ok exit →
    match mmio_dispatch exit bus with
    | (Ok ServiceWrite, bus') =>
        mmio_direction exit = MmioWrite ∧ registered_ranges bus' = registered_ranges bus
    | (Ok (ServiceRead bytes), bus') =>
        is_ok (write_mmio_read_response id bytes run) = true ∧
        registered_ranges bus' = registered_ranges bus
    | (Err _, bus') => registered_ranges bus' = registered_ranges bus
    | (Panic, _) => False
    end.
Proof.
  intros Hm0 Hsteps. assert (world_wf (bus, m)) as [Hb Hm].
  { eapply mmio_steps_wf; [done|]. split; [|done]. split; simpl; try apply Forall_nil_2.
    split; [apply Forall_nil_2|]. simpl. lia. }
  split_and!; [done|done|]. intros id run exit Hrun He.
  pose proof (mmio_dispatch_runs exit bus Hb (exit_wf_of_run _ _ _ Hrun He)) as Hd.
  unfold runs in Hd. destruct (mmio_dispatch exit bus) as [[[|bytes]|?|] bus']; [|..|done].
  - naive_solver.
  - destruct Hd as (_&Hr&Hdir&Hl&_). split; [|done].
    pose proof (write_mmio_response_cases id bytes run Hrun) as H.
    destruct (write_mmio_read_response id bytes run) as [?|?|]; [done| |done].
    by destruct (H exit He Hdir).
  - naive_solver.
Qed.
Lemma mmio_reachable_safe_witness :
  let bus := (register_virtio_rng_device_at 0xd0000000
    (register_byte_device_at 0x2000 7 mmio_empty).2).2 in
  bus_wf bus ∧ length (registered_ranges bus) = 2%nat.
Proof.
  cbv zeta. set (b1 := (register_byte_device_at _ _ _).2). set (b2 := (_ b1).2).
  destruct (mmio_reachable_safe rng_demo_memory b2 rng_demo_memory rng_demo_memory_wf) as [Hwf _].
  - eapply rtc_l; [by apply (step_register_byte mmio_empty rng_demo_memory 0x2000 7)|].
    eapply rtc_l; [by apply (step_register_rng b1 rng_demo_memory 0xd0000000)|]. apply rtc_refl.
  - split; [exact Hwf|vm_compute; reflexivity].
Defined.

(** ** Routing *)
(** How many devices of a list own an address. *)
Definition owners {D} (range : D → Z * Z) (address : Z) (l : list D) : nat :=
  length (filter (λ r, range_handles r address = true) (range <$> l)).
Lemma owners_cons {D} (range : D → Z * Z) a d l :
  owners range a (d :: l) = ((if range_handles (range d) a then 1 else 0) + owners range a l)%nat.
Proof.
  unfold owners. rewrite fmap_cons, filter_cons. destruct (range_handles (range d) a) eqn:H.
  - by rewrite decide_True.
  - by rewrite decide_False.
Qed.
Lemma owners_zero {D} (range : D → Z * Z) a l :
  owners range a l = 0%nat ↔ Forall (λ d, range_handles (range d) a = false) l.
Proof.
  induction l as [|d l IH]; [split; [intros; apply Forall_nil_2|done]|].
  rewrite owners_cons, Forall_cons, <- IH. destruct (range_handles _ _); naive_solver lia.
Qed.
Lemma owners_lookup {D} (range : D → Z * Z) a l i d :
  l !! i = Some d → range_handles (range d) a = true → (1 ≤ owners range a l)%nat.
Proof.
  intros Hi Hh. destruct (owners range a l) eqn:H0; [|lia].
  apply owners_zero in H0. rewrite Forall_lookup in H0. by rewrite (H0 _ _ Hi) in Hh.
Qed.
Lemma on_first_owner {D E A} (range : D → Z * Z) a (m : prog D E A) l i d :
  l !! i = Some d → range_handles (range d) a = true → (owners range a l ≤ 1)%nat →
  on_first (λ d, range_handles (range d) a) m l = Some ((m d).1, <[i := (m d).2]> l).
Proof.
  revert i. induction l as [|x l IH]; intros i Hi Hh Hone; [done|]. rewrite owners_cons in Hone.
  simpl. destruct (range_handles (range x) a) eqn:Hx.
  - destruct i as [|i]; [injection Hi as ->; by destruct (m d)|].
    pose proof (owners_lookup range a l i d Hi Hh). lia.
  - destruct i as [|i]; [injection Hi as ->; congruence|]. rewrite (IH i) by (done || lia). done.
Qed.
Lemma bus_owners bus a :
  bus_wf bus → (owners address_range a (byte_devices bus) + owners rng_range a (virtio_rng_devices bus)
    + owners blk_range a (virtio_blk_devices bus) ≤ 1)%nat.
Proof.
  intros [[_ H] _ _ _]. specialize (H a). unfold registered_ranges in H.
  rewrite !filter_app, !length_app in H. unfold owners. lia.
Qed.
Lemma no_owner {D E A} (range : D → Z * Z) a (m : prog D E A) l :
  owners range a l = 0%nat → on_first (λ d, range_handles (range d) a) m l = None.
Proof. intros H. by apply on_first_None, owners_zero. Qed.

(** C29: the bus routes by ownership.  Although [dispatch] searches the byte devices,
    then virtio-rng, then virtio-blk and takes the first match, the order does not
    matter: whichever device owns the address serves the exit, only that device
    changes, at most its own event is queued (behind the events already there),
    and an address nobody owns is refused with the bus unchanged. *)
Theorem mmio_routing bus exit :
  bus_wf bus →
  let a := mmio_address exit in
  (∀ i d, byte_devices bus !! i = Some d → range_handles (address_range d) a = true →
    mmio_dispatch exit bus = (map_err Mmio (handle exit d).1,
      mkBus (<[i := (handle exit d).2]> (byte_devices bus)) (virtio_rng_devices bus)
        (virtio_blk_devices bus) (virtio_events bus))) ∧
  (∀ i d, virtio_rng_devices bus !! i = Some d → range_handles (rng_range d) a = true →
    let out := with_record bar0 (dispatch_virtio_rng exit) d in
    mmio_dispatch exit bus = (fst <$> out.1,
      mkBus (byte_devices bus) (<[i := out.2]> (virtio_rng_devices bus)) (virtio_blk_devices bus)
        (virtio_events bus ++ match out.1 with Ok (_, events) => events | _ => [] end))) ∧
  (∀ i d, virtio_blk_devices bus !! i = Some d → range_handles (blk_range d) a = true →
    let out := with_record (λ d, bar0 (regs d)) (dispatch_virtio_blk exit) d in
    mmio_dispatch exit bus = (fst <$> out.1,
      mkBus (byte_devices bus) (virtio_rng_devices bus) (<[i := out.2]> (virtio_blk_devices bus))
        (virtio_events bus ++ match out.1 with Ok (_, events) => events | _ => [] end))) ∧
  (Forall (λ r, range_handles r a = false) (registered_ranges bus) →
    mmio_dispatch exit bus = (Err (Mmio (UnhandledAddress a
      (mmio_direction_raw (mmio_direction exit)) (mmio_length exit))), bus)).
Proof.
  intros Hwf a. pose proof (bus_owners bus a Hwf) as Hone. unfold mmio_dispatch. fold a.
  unfold handles, virtio_rng_handles, virtio_blk_handles. split_and!.
  - intros i d Hi Hh. pose proof (owners_lookup _ _ _ _ _ Hi Hh).
    rewrite (on_first_owner address_range a _ _ i d) by (done || lia). done.
  - intros i d Hi Hh. pose proof (owners_lookup _ _ _ _ _ Hi Hh).
    rewrite (no_owner address_range), (on_first_owner rng_range a _ _ i d) by (done || lia). done.
  - intros i d Hi Hh. pose proof (owners_lookup _ _ _ _ _ Hi Hh).
    rewrite (no_owner address_range), (no_owner rng_range), (on_first_owner blk_range a _ _ i d)
      by (done || lia). done.
  - intros Hnone. unfold registered_ranges in Hnone. rewrite !Forall_app, !Forall_fmap in Hnone.
    destruct Hnone as (H1&H2&H3).
    rewrite (no_owner address_range), (no_owner rng_range), (no_owner blk_range)
      by (by apply owners_zero). done.
Qed.
Definition sample_bus : MmioBus :=
  (register_virtio_rng_device_at 0xd0000000
    (register_level_interrupt_byte_device_at 0x3000 (with_byte_device 7)).2).2.
Lemma with_byte_device_wf value : u8 value → bus_wf (with_byte_device value).
Proof.
  intros Hv. split; simpl; try apply Forall_nil_2; [|by apply Forall_singleton]. split.
  - by apply Forall_singleton.
  - intros x. unfold registered_ranges. simpl. rewrite filter_cons. case_decide; simpl; lia.
Qed.
Lemma sample_bus_wf : bus_wf sample_bus.
Proof.
  pose proof (with_byte_device_wf 7 ltac:(done)) as H0.
  assert (bus_wf (register_level_interrupt_byte_device_at 0x3000 (with_byte_device 7)).2) as H1.
  { eapply (runs_state _ _ bus_wf); [by apply register_device_runs|by intros _ ? [_ ?]|by intros _ ? ->]. }
  eapply (runs_state _ _ bus_wf); [by apply register_rng_runs|by intros _ ? [_ ?]|by intros _ ? ->].
Qed.
Lemma mmio_routing_witness :
  mmio_dispatch {| mmio_address := 0x2000; mmio_direction := MmioRead; mmio_length := 1;
    write_data := [] |} sample_bus = (Ok (ServiceRead [7]), sample_bus).
Proof.
  destruct (mmio_routing sample_bus {| mmio_address := 0x2000; mmio_direction := MmioRead;
    mmio_length := 1; write_data := [] |} sample_bus_wf) as [H _].
  rewrite (H 0%nat (byte_new 0x2000 7 Plain)); vm_compute; reflexivity.
Defined.

(** ** The level-triggered line *)
(** The histories of a level-triggered device: guest accesses of any kind, and takes
    of its event, with the events taken so far. *)
Inductive level_history : ByteMmioDevice → list MmioDeviceEvent → Prop :=
  | level_new address : level_history (byte_new address 0 LevelInterrupt) []
  | level_access d es exit : level_history d es → level_history (handle exit d).2 es
  | level_take d es :
      level_history d es → level_history (take_event d).2 (es ++ option_list (take_event d).1).
(** The events alternate, an assertion first. *)
Definition line_event (i : nat) : MmioDeviceEvent :=
  if Nat.even i then InterruptLineAssertRequested else InterruptLineDeassertRequested.
Lemma handle_keeps_line exit d :
  mode (handle exit d).2 = mode d ∧ level_line_asserted (handle exit d).2 = level_line_asserted d.
Proof.
  unfold handle, handle_plain, handle_level, mbind, prog_bind, get, lift, err_if.
  destruct (negb _); [done|]. destruct (mode d) eqn:Hm, (mmio_direction exit); simpl;
    repeat (case_match; simplify_eq/=); done.
Qed.
Lemma level_history_inv d es :
  level_history d es →
  mode d = LevelInterrupt ∧ es = line_event <$> seq 0 (length es) ∧
  level_line_asserted d = Nat.odd (length es).
Proof.
  induction 1 as [a|d es exit _ (Hm&He&Hl)|d es _ (Hm&He&Hl)]; [done| |].
  - destruct (handle_keeps_line exit d) as [-> ->]. done.
  - unfold take_event. rewrite Hm.
    assert (∀ e, e = line_event (length es) →
      es ++ [e] = line_event <$> seq 0 (length (es ++ [e]))) as Hsnoc.
    { intros e ->. rewrite length_app, seq_app, fmap_app, <- He. done. }
    assert (line_event (length es) = if level_line_asserted d then InterruptLineDeassertRequested
      else InterruptLineAssertRequested) as Hev.
    { unfold line_event. rewrite <- Nat.negb_odd, <- Hl. by destruct (level_line_asserted d). }
    assert (∀ e, Nat.odd (length (es ++ [e])) = negb (level_line_asserted d)) as Hodd.
    { intros e. by rewrite length_app, Nat.add_1_r, Nat.odd_succ, <- Nat.negb_odd, <- Hl. }
    destruct (level_interrupt_pending d), (level_line_asserted d) eqn:Hline; simpl;
      rewrite ?app_nil_r, ?Hodd; split_and!; first [done | by apply Hsnoc | congruence].
Qed.

(** A level-triggered device drives its line correctly.  Whatever the guest does,
    the line events handed out alternate assertion and deassertion, an assertion
    first, and the device's view of the line is the parity of their number; taking
    the event once brings the line to the level the device requests, so that no
    change is lost and a second take finds nothing. *)
Theorem level_line_spec d es :
  level_history d es →
  es = line_event <$> seq 0 (length es) ∧ level_line_asserted d = Nat.odd (length es) ∧
  level_line_asserted (take_event d).2 = level_interrupt_pending d ∧
  (take_event (take_event d).2).1 = None ∧
  ((take_event d).1 = None ↔ level_line_asserted d = level_interrupt_pending d).
Proof.
  intros (Hm&He&Hl)%level_history_inv. unfold take_event. rewrite Hm.
  destruct d as [? ? ? md ? [] []]; simpl in *; subst md; simpl; by split_and!.
Qed.
Lemma level_line_spec_witness :
  let exit := {| mmio_address := 0x3000; mmio_direction := MmioWrite; mmio_length := 1;
                 write_data := [5] |} in
  let d := (take_event (handle exit (byte_new 0x3000 0 LevelInterrupt)).2).2 in
  level_line_asserted d = true ∧ (take_event d).1 = None.
Proof.
  cbv zeta. set (exit := {| mmio_address := _ |}).
  destruct (level_line_spec _ _ (level_take _ _ (level_access _ _ exit (level_new 0x3000))))
    as (_&Hl&_). split; [rewrite Hl; vm_compute; reflexivity|vm_compute; reflexivity].
Defined.
