(* ===== verification/Execution.v ===== *)
(** The run loop ([src/src/vmexit.rs], [src/src/execution.rs] and [Vcpu::run_once] of
    [src/src/vcpu.rs]): enter the guest, dispatch the exit to the port I/O bus, the
    MMIO bus or a report, record it, and stop at a stopping exit, an error or the
    end of the exit budget.

    KVM_RUN is a parameter: it changes the kernel's vCPU state and the shared page.
    The two loops take fuel: [retries] for the retry of interrupted KVM_RUN calls,
    which the code does not bound, and [fuel] for the iterations, which the exit
    budget bounds; running out of fuel is [None]. *)

From S2P Require Import Prelude Errors Memory VirtioCommon VirtioRng VirtioBlk.
From S2P Require Import VcpuRun VcpuState PortIo Mmio.

(** * The vCPU *)
Class KvmRun (V : Type) := { ioctl_run : prog (V * list Z) io_error unit }.
Record Vcpu (V : Type) := mkVcpu {
  vcpu_id : Z; supports_internal_error_data : bool; kernel : V; run_page : list Z
}.
Arguments mkVcpu {V}. Arguments vcpu_id {V}. Arguments supports_internal_error_data {V}.
Arguments kernel {V}. Arguments run_page {V}.
Definition set_run {V} (k : V) (p : list Z) (v : Vcpu V) : Vcpu V :=
  mkVcpu (vcpu_id v) (supports_internal_error_data v) k p.
Record VcpuRegisters := { reg_rip : Z; reg_rflags : Z }.
Definition vcpu_registers {V} `{!KvmVcpu V} (v : Vcpu V) : res Error VcpuRegisters :=
  regs ← map_err (vcpu_operation (vcpu_id v) "KVM_GET_REGS") (ioctl_get_regs (kernel v));
  mret {| reg_rip := sys.rip regs; reg_rflags := sys.rflags regs |}.
(** The [loop] around [sys::run_vcpu]. *)
Fixpoint run_retry {V} `{!KvmRun V} (retries : nat) : fprog (Vcpu V) Error unit := λ v,
  match retries with
  | O => None
  | S retries =>
      let '(r, (k, p)) := ioctl_run (kernel v, run_page v) in
      let v' := set_run k p v in
      match r with
      | Ok _ => Some (Ok tt, v')
      | Err source =>
          if is_interrupted source then run_retry retries v'
          else Some (Err (vcpu_operation (vcpu_id v) "KVM_RUN" source), v')
      | Panic => Some (Panic, v')
      end
  end.
Definition run_once {V} `{!KvmRun V} (retries : nat) : fprog (Vcpu V) Error VcpuExit :=
  run_retry retries;;
  reason ← total (reading (λ v, exit_reason (run_page v)));
  mret (exit_from_raw reason).

(** * Dispatch *)
Record VmExitReport := {
  report_vcpu_id : Z; report_exit : VcpuExit; report_rip : Z; report_rflags : Z
}.
Inductive VmExitContinuation := ContPortIo (io : PortIoExit) | ContMmio (access : MmioExit).
Inductive VmExitDisposition :=
  | Continue (continuation : VmExitContinuation)
  | Stopped (report : VmExitReport).
Record Machine (V : Type) := mkMachine { vcpu : Vcpu V; port_io : PortIoBus; mmio : MmioBus }.
Arguments mkMachine {V}. Arguments vcpu {V}. Arguments port_io {V}. Arguments mmio {V}.

Definition is_stopping (exit : VcpuExit) : bool :=
  match exit with ExitDebug | Hlt | Shutdown => true | _ => false end.
Definition stopped_report (id : Z) (exit : VcpuExit) (registers : VcpuRegisters) :
  res Error VmExitReport :=
  debug_assert (is_stopping exit);;
  mret {| report_vcpu_id := id; report_exit := exit; report_rip := reg_rip registers;
          report_rflags := reg_rflags registers |}.
Definition kvm_unknown_exit_error (id hardware_exit_reason : Z) : Error :=
  VmExit (KvmUnknownExit id hardware_exit_reason [exit_reason_of KvmUnknown]).
Definition exception_exit_error (id exception error_code : Z) : Error :=
  VmExit (ExceptionExit id exception error_code [exit_reason_of Exception]).
Definition entry_failure_error (id hardware_entry_failure_reason cpu : Z) : Error :=
  VmExit (EntryFailure id hardware_entry_failure_reason cpu [exit_reason_of FailEntry]).
Definition internal_error_error (id suberror : Z) (data : option (list Z)) : Error :=
  VmExit (InternalErrorExit id suberror data [exit_reason_of InternalError]).
Definition unsupported_system_event (id : Z) (event_type : VcpuSystemEventType) (data : list Z)
    (registers : VcpuRegisters) : Error :=
  VmExit (UnsupportedSystemEvent id (system_event_type_raw event_type) data (reg_rip registers)
    (reg_rflags registers) [exit_reason_of SystemEvent]).
Definition unhandled_exit (id reason : Z) (registers : VcpuRegisters) : Error :=
  VmExit (Unhandled id reason (reg_rip registers) (reg_rflags registers) [reason]).

Section dispatch.
Context {V : Type} `{!KvmVcpu V}.
Abbreviation M := (prog (Machine V) Error).

(** Parts of the machine a call borrows. *)
Definition on_page (f : list Z → res Error (list Z)) : M unit := λ m,
  match f (run_page (vcpu m)) with
  | Ok p => (Ok tt, mkMachine (set_run (kernel (vcpu m)) p (vcpu m)) (port_io m) (mmio m))
  | Err e => (Err e, m)
  | Panic => (Panic, m)
  end.
Definition on_port_io {A} (f : prog PortIoBus Error A) : M A := λ m,
  let '(r, bus) := f (port_io m) in (r, mkMachine (vcpu m) bus (mmio m)).
Definition on_mmio {A} (f : prog MmioBus Error A) : M A := λ m,
  let '(r, bus) := f (mmio m) in (r, mkMachine (vcpu m) (port_io m) bus).
Definition on_view {A} (f : Z → list Z → res Error A) : M A :=
  reading (λ m, f (vcpu_id (vcpu m)) (run_page (vcpu m))).

Definition dispatch_vcpu_exit (exit : VcpuExit) : M VmExitDisposition :=
  m ← get;
  let id := vcpu_id (vcpu m) in
  match exit with
  | ExitIo =>
      io ← on_view port_io_exit;
      service ← on_port_io (portio_dispatch io);
      match service with
      | Output => mret tt
      | Input response => on_page (write_port_io_input id response)
      end;;
      mret (Continue (ContPortIo io))
  | ExitMmio =>
      access ← on_view mmio_exit;
      service ← on_mmio (mmio_dispatch access);
      match service with
      | ServiceWrite => mret tt
      | ServiceRead response => on_page (write_mmio_read_response id response)
      end;;
      mret (Continue (ContMmio access))
  | ExitDebug | Hlt | Shutdown =>
      registers ← reading (λ m, vcpu_registers (vcpu m));
      report ← lift (stopped_report id exit registers);
      mret (Stopped report)
  | KvmUnknown =>
      reason ← on_view kvm_unknown_exit;
      throw (kvm_unknown_exit_error id reason)
  | Exception =>
      '(exception, error_code) ← on_view exception_exit;
      throw (exception_exit_error id exception error_code)
  | FailEntry =>
      '(reason, cpu) ← on_view fail_entry;
      throw (entry_failure_error id reason cpu)
  | InternalError =>
      internal ← on_view (λ id, internal_error id (supports_internal_error_data (vcpu m)));
      data ← lift (internal_error_data internal);
      throw (internal_error_error id (suberror internal) data)
  | SystemEvent =>
      '(event_type, data) ← on_view system_event;
      registers ← reading (λ m, vcpu_registers (vcpu m));
      throw (unsupported_system_event id event_type data registers)
  | ExitUnhandled reason =>
      registers ← reading (λ m, vcpu_registers (vcpu m));
      throw (unhandled_exit id reason registers)
  end.
End dispatch.

(** * The exit budget *)
Record ExitBudget := {
  budget_vcpu_id : Z; budget_limit : Z; budget_completed : Z; budget_last_exit_reason : option Z
}.
Definition budget_new (id limit : Z) : ExitBudget :=
  {| budget_vcpu_id := id; budget_limit := limit; budget_completed := 0;
     budget_last_exit_reason := None |}.
Definition ensure_run_allowed (b : ExitBudget) (exit_reasons : list Z) : res Error unit :=
  debug_assert (len exit_reasons =? budget_completed b);;
  debug_assert (bool_decide (last exit_reasons = budget_last_exit_reason b));;
  if budget_completed b <? budget_limit b then Ok tt
  else Err (VmExit (ExitBudgetExhausted (budget_vcpu_id b) (budget_limit b) (budget_completed b)
              (budget_last_exit_reason b) exit_reasons)).
Definition budget_record (b : ExitBudget) (reason : Z) : res Error ExitBudget :=
  debug_assert (budget_completed b <? budget_limit b);;
  completed ← uadd 32 (budget_completed b) 1;
  mret {| budget_vcpu_id := budget_vcpu_id b; budget_limit := budget_limit b;
          budget_completed := completed; budget_last_exit_reason := Some reason |}.
Definition record_completed_exit (b : ExitBudget) (exit_reasons : list Z) (reason : Z) :
  res Error (ExitBudget * list Z) :=
  b ← budget_record b reason;
  let exit_reasons := exit_reasons ++ [reason] in
  debug_assert (len exit_reasons =? budget_completed b);;
  mret (b, exit_reasons).

(** * The trace of an error *)
Definition last_is (exit_reasons : list Z) (reason : Z) : bool :=
  bool_decide (last exit_reasons = Some reason).
Definition attach_completed_exit_trace (error : Error) (exit_reasons : list Z) : res Error Error :=
  let traced reason e := debug_assert (last_is exit_reasons reason);; mret (VmExit e) in
  match error with
  | VmExit (Unhandled id reason rip rflags _) =>
      traced reason (Unhandled id reason rip rflags exit_reasons)
  | VmExit (KvmUnknownExit id hardware _) =>
      traced (exit_reason_of KvmUnknown) (KvmUnknownExit id hardware exit_reasons)
  | VmExit (ExceptionExit id exception error_code _) =>
      traced (exit_reason_of Exception) (ExceptionExit id exception error_code exit_reasons)
  | VmExit (EntryFailure id hardware cpu _) =>
      traced (exit_reason_of FailEntry) (EntryFailure id hardware cpu exit_reasons)
  | VmExit (InternalErrorExit id suberror data _) =>
      traced (exit_reason_of InternalError) (InternalErrorExit id suberror data exit_reasons)
  | VmExit (InvalidInternalErrorDataCount id suberror ndata capacity _) =>
      traced (exit_reason_of InternalError)
        (InvalidInternalErrorDataCount id suberror ndata capacity exit_reasons)
  | VmExit (UnsupportedSystemEvent id event_type data rip rflags _) =>
      traced (exit_reason_of SystemEvent)
        (UnsupportedSystemEvent id event_type data rip rflags exit_reasons)
  | VmExit (InvalidSystemEventDataCount id ndata capacity _) =>
      traced (exit_reason_of SystemEvent) (InvalidSystemEventDataCount id ndata capacity exit_reasons)
  | error => mret error
  end.
(** [.map_err(|error| attach_completed_exit_trace(error, &exit_reasons))]. *)
Definition with_trace {S A} (exit_reasons : list Z) (m : prog S Error A) : prog S Error A := λ s,
  match m s with
  | (Err e, s') => (error ← attach_completed_exit_trace e exit_reasons; Err error, s')
  | x => x
  end.

(** * The loop *)
Record VmExecutionResult := {
  res_report : VmExitReport; res_io_exits : list PortIoExit; res_mmio_exits : list MmioExit;
  res_exit_reasons : list Z; res_completed_exits : Z
}.
Section loop.
Context {V T : Type} `{!KvmVcpu V, !KvmRun V}.
(** The observer closure, with the state [T] it captured. *)
Context (observer : VmExitContinuation → prog (MmioBus * T) Error unit).
Abbreviation M := (fprog (Machine V * T) Error).

Definition on_machine {A} (f : prog (Machine V) Error A) : prog (Machine V * T) Error A := λ '(m, o),
  let '(r, m') := f m in (r, (m', o)).
Definition on_vcpu {A} (f : fprog (Vcpu V) Error A) : M A := λ '(m, o),
  match f (vcpu m) with
  | None => None
  | Some (r, v) => Some (r, (mkMachine v (port_io m) (mmio m), o))
  end.
Definition observe (c : VmExitContinuation) : prog (Machine V * T) Error unit := λ '(m, o),
  let '(r, (bus, o')) := observer c (mmio m, o) in (r, (mkMachine (vcpu m) (port_io m) bus, o')).

Fixpoint run_loop (fuel retries : nat) (budget : ExitBudget) (io_exits : list PortIoExit)
    (mmio_exits : list MmioExit) (exit_reasons : list Z) : M VmExecutionResult :=
  match fuel with
  | O => out_of_fuel
  | S fuel =>
      total (lift (ensure_run_allowed budget exit_reasons));;
      exit ← on_vcpu (run_once retries);
      '(budget, exit_reasons) ← total (lift (record_completed_exit budget exit_reasons
                                        (exit_reason_of exit)));
      disposition ← total (with_trace exit_reasons (on_machine (dispatch_vcpu_exit exit)));
      match disposition with
      | Continue continuation =>
          total (with_trace exit_reasons (observe continuation));;
          match continuation with
          | ContPortIo io => run_loop fuel retries budget (io_exits ++ [io]) mmio_exits exit_reasons
          | ContMmio access =>
              run_loop fuel retries budget io_exits (mmio_exits ++ [access]) exit_reasons
          end
      | Stopped report =>
          total (lift (debug_assert (len exit_reasons =? budget_completed budget)));;
          total (lift (debug_assert (last_is exit_reasons (exit_reason_of (report_exit report)))));;
          mret {| res_report := report; res_io_exits := io_exits; res_mmio_exits := mmio_exits;
                  res_exit_reasons := exit_reasons; res_completed_exits := budget_completed budget |}
      end
  end.
Definition run_vcpu_until_stopped_with_mmio_observer (fuel retries : nat) (exit_budget : Z) :
  M VmExecutionResult := λ '(m, o),
  run_loop fuel retries (budget_new (vcpu_id (vcpu m)) exit_budget) [] [] [] (m, o).
End loop.

Section entry_points.
Context {V : Type} `{!KvmVcpu V, !KvmRun V}.
Definition run_vcpu_until_stopped_with_mmio (fuel retries : nat) (exit_budget : Z) :
  fprog (Machine V * unit) Error VmExecutionResult :=
  run_vcpu_until_stopped_with_mmio_observer (λ _, mret tt) fuel retries exit_budget.
(** The MMIO bus of this entry point is a local of the function. *)
Definition run_vcpu_until_stopped (fuel retries : nat) (exit_budget : Z) (v : Vcpu V)
    (port : PortIoBus) : option (res Error VmExecutionResult * (Vcpu V * PortIoBus)) :=
  '(r, (m, _)) ← run_vcpu_until_stopped_with_mmio fuel retries exit_budget
    (mkMachine v port mmio_empty, tt);
  mret (r, (vcpu m, port_io m)).
End entry_points.

(** * Facts *)

(** ** What the loop relies on *)
Fixpoint interrupted {V} `{!KvmRun V} (n : nat) (s : V * list Z) : bool :=
  match n with
  | O => true
  | S n => match ioctl_run s with
           | (Err e, s') => is_interrupted e && interrupted n s'
           | _ => false
           end
  end.
(** KVM leaves the mapping as long as it was, KVM_RUN is not interrupted more than
    [k] times in a row, and reading the registers does not crash the process. *)
Class KvmRunLaws (V : Type) `{!KvmVcpu V, !KvmRun V} (k : nat) := {
  run_regs_total (v : V) : no_panic (ioctl_get_regs v);
  run_page_law (v : V) p : run_wf p → run_wf (ioctl_run (v, p)).2.2 ∧ no_panic (ioctl_run (v, p)).1;
  run_interrupts_bounded (s : V * list Z) : run_wf s.2 → interrupted (S k) s = false
}.
Definition machine_wf {V} (m : Machine V) : Prop :=
  run_wf (run_page (vcpu m)) ∧ portio_wf (port_io m) ∧ bus_wf (mmio m).

(** ** Which errors a dispatch raises *)
(** The errors that carry a trace are raised for the exit they name. *)
Definition trace_consistent (reason : Z) (e : Error) : Prop :=
  match e with
  | VmExit (Unhandled _ r _ _ _) => r = reason
  | VmExit (KvmUnknownExit _ _ _) => reason = KVM_EXIT_UNKNOWN
  | VmExit (ExceptionExit _ _ _ _) => reason = KVM_EXIT_EXCEPTION
  | VmExit (EntryFailure _ _ _ _) => reason = KVM_EXIT_FAIL_ENTRY
  | VmExit (InternalErrorExit _ _ _ _) => reason = KVM_EXIT_INTERNAL_ERROR
  | VmExit (InvalidInternalErrorDataCount _ _ _ _ _) => reason = KVM_EXIT_INTERNAL_ERROR
  | VmExit (UnsupportedSystemEvent _ _ _ _ _ _) => reason = KVM_EXIT_SYSTEM_EVENT
  | VmExit (InvalidSystemEventDataCount _ _ _ _) => reason = KVM_EXIT_SYSTEM_EVENT
  | VmExit (ExitBudgetExhausted _ _ _ _ _) => False
  | _ => True
  end.
(** [errs P m]: an error of [m] satisfies [P]. *)
Definition errs {E A} (P : E → Prop) (m : res E A) : Prop := ∀ e, m = Err e → P e.
Create HintDb errs.
Section errs.
Context {E : Type} (P : E → Prop).
Lemma errs_bind {A B} (m : res E A) (f : A → res E B) :
  errs P m → (∀ a, m = Ok a → errs P (f a)) → errs P (m ≫= f).
Proof. intros Hm Hf e. destruct m; simpl; [by apply Hf|intros [= <-]; by apply Hm|done]. Qed.
Lemma errs_Ok {A} (a : A) : errs P (Ok a).
Proof. done. Qed.
Lemma errs_ret {A} (a : A) : errs P (mret a).
Proof. done. Qed.
Lemma errs_Err {A} e : P e → errs (A:=A) P (Err e).
Proof. by intros ? ? [= <-]. Qed.
Lemma errs_err_if b e : P e → errs P (err_if b e).
Proof. destruct b; [by intros ? ? [= <-]|done]. Qed.
Lemma errs_ok_or {A} (o : option A) e : P e → errs P (ok_or o e).
Proof. destruct o; [done|]. by intros ? ? [= <-]. Qed.
Lemma errs_expect {A} (o : option A) : errs P (expect o).
Proof. by destruct o. Qed.
Lemma errs_slice {A} (l : list A) a b : errs P (slice l a b).
Proof. unfold errs, slice. by case_match. Qed.
Lemma errs_debug_assert b : errs P (debug_assert b).
Proof. by destruct b. Qed.
Lemma errs_fmap {A B} (f : A → B) (m : res E A) : errs P m → errs P (f <$> m).
Proof. intros H e. destruct m; simpl; [done|intros [= <-]; by apply H|done]. Qed.
End errs.
#[export] Hint Resolve errs_Ok errs_ret errs_Err errs_err_if errs_ok_or errs_expect errs_slice
  errs_debug_assert errs_fmap : errs.
Ltac errs_step := first
  [ apply errs_bind; [|intros ? ?]
  | match goal with |- errs _ (match ?x with _ => _ end) => destruct x end
  | solve [auto with errs | apply errs_err_if; done | apply errs_ok_or; done | apply errs_Err; done] ].
Ltac errs_auto := repeat errs_step.
Lemma errs_run_field P run o n : errs P (run_field run o n).
Proof. unfold run_field. errs_auto. Qed.
Lemma errs_run_words P run o n : errs P (run_words run o n).
Proof. revert o. induction n; intros; simpl; [done|]. repeat first [apply errs_run_field|errs_step|done]. Qed.
#[export] Hint Resolve errs_run_field errs_run_words : errs.
Lemma errs_require P run expected e :
  (∀ r, P (VmExit (e r))) → errs P (require_reason run expected e).
Proof. intros. unfold require_reason, exit_reason. errs_auto. Qed.
Lemma errs_port_io_exit reason id run : errs (trace_consistent reason) (port_io_exit id run).
Proof.
  unfold port_io_exit, run_io, port_io_direction, checked_io_data_range.
  apply errs_bind; [by apply errs_require|intros ? ?]. errs_auto.
Qed.
Lemma errs_mmio_exit reason id run : errs (trace_consistent reason) (mmio_exit id run).
Proof.
  unfold mmio_exit, view, run_mmio, decode_mmio, mmio_direction_of, checked_mmio_length.
  apply errs_bind; [by apply errs_require|intros ? ?]. errs_auto.
Qed.
(** Errors of the MMIO bus are its own or wrap a virtio error. *)
Lemma pmap_errs {S E F A} (g : E → F) (m : prog S E A) P s :
  (∀ e, P (g e)) → errs P (pmap_err g m s).1.
Proof. intros H e. unfold pmap_err. simpl. destruct (m s).1; simpl; [done|by intros [= <-]|done]. Qed.
Lemma prog_errs_bind {S E A B} (P : E → Prop) (m : prog S E A) (f : A → prog S E B) s :
  errs P (m s).1 → (∀ a s', errs P (f a s').1) → errs P ((m ≫= f) s).1.
Proof.
  intros Hm Hf e. unfold mbind, prog_bind. destruct (m s) as [[a|e'|] s']; simpl; [by apply Hf| |done].
  intros [= ->]. by apply Hm.
Qed.
Definition device_error (e : Error) : Prop :=
  match e with Mmio _ | HostEnvironment _ => True | _ => False end.
Lemma virtio_access_errs {D} (bar : D → Z) (m : prog D Error (MmioService * option MmioDeviceEvent)) d :
  errs device_error (m d).1 → errs device_error (with_record bar m d).1.
Proof.
  intros H. unfold with_record. apply prog_errs_bind; [done|]. intros [service event] s'. done.
Qed.
Lemma usub_errs {E} (P : E → Prop) a b : errs P (usub a b).
Proof. apply errs_expect. Qed.
Lemma dispatch_rng_errs exit d : errs device_error (dispatch_virtio_rng exit d).1.
Proof.
  unfold dispatch_virtio_rng. apply prog_errs_bind; [done|intros ? ?].
  apply prog_errs_bind; [apply usub_errs|intros ? ?].
  apply prog_errs_bind; [apply errs_expect|intros ? ?].
  destruct (mmio_direction exit); (apply prog_errs_bind; [by apply pmap_errs|done]).
Qed.
Lemma dispatch_blk_errs exit d : errs device_error (dispatch_virtio_blk exit d).1.
Proof.
  unfold dispatch_virtio_blk. apply prog_errs_bind; [done|intros ? ?].
  apply prog_errs_bind; [apply usub_errs|intros ? ?].
  apply prog_errs_bind; [apply errs_expect|intros ? ?].
  destruct (mmio_direction exit); (apply prog_errs_bind; [by apply pmap_errs|done]).
Qed.
Lemma on_first_errs {S E A} (P : E → Prop) (p : S → bool) (m : prog S E A) l r l' :
  (∀ d, errs P (m d).1) → on_first p m l = Some (r, l') → errs P r.
Proof.
  intros Hm (l1&d&l2&d'&_&_&_&Hd&_)%on_first_Some. specialize (Hm d). by rewrite Hd in Hm.
Qed.
Lemma mmio_dispatch_errs exit bus : errs device_error (mmio_dispatch exit bus).1.
Proof.
  unfold mmio_dispatch. cbv zeta.
  destruct (on_first _ (handle exit) _) as [[r l]|].
  { intros e. simpl. destruct r; simpl; [done|by intros [= <-]|done]. }
  destruct (on_first _ (with_record bar0 _) _) as [[r l]|] eqn:H2.
  { apply (on_first_errs device_error) in H2;
      [|intros; apply virtio_access_errs, dispatch_rng_errs]. by apply errs_fmap. }
  destruct (on_first _ (with_record _ (dispatch_virtio_blk exit)) _) as [[r l]|] eqn:H3;
    [|by apply errs_Err].
  apply (on_first_errs device_error) in H3; [|intros; apply virtio_access_errs, dispatch_blk_errs].
  by apply errs_fmap.
Qed.
Lemma device_error_traced reason e : device_error e → trace_consistent reason e.
Proof. by destruct e. Qed.
Lemma vcpu_registers_errs {V} `{!KvmVcpu V} reason (v : Vcpu V) :
  errs (trace_consistent reason) (vcpu_registers v).
Proof.
  unfold vcpu_registers. apply errs_bind; [|by intros]. intros e.
  destruct (ioctl_get_regs _); simpl; [done|by intros [= <-]|done].
Qed.

(** ** One dispatch *)
Section dispatch_facts.
Context {V : Type} `{!KvmVcpu V, !KvmRun V} {k : nat} `{!KvmRunLaws V k}.
Implicit Types m : Machine V.

Definition dispatched (exit : VcpuExit) (m : Machine V) (d : VmExitDisposition) (m' : Machine V) : Prop :=
  machine_wf m' ∧ vcpu_id (vcpu m') = vcpu_id (vcpu m) ∧
  match d with
  | Continue (ContPortIo _) => exit = ExitIo
  | Continue (ContMmio _) => exit = ExitMmio
  | Stopped report =>
      report_exit report = exit ∧ is_stopping exit = true ∧ report_vcpu_id report = vcpu_id (vcpu m)
  end.
Definition dispatch_failed (exit : VcpuExit) (m : Machine V) (e : Error) (m' : Machine V) : Prop :=
  machine_wf m' ∧ vcpu_id (vcpu m') = vcpu_id (vcpu m) ∧ trace_consistent (exit_reason_of exit) e.
Lemma no_panic_registers m : no_panic (vcpu_registers (vcpu m)).
Proof using KvmRunLaws0. unfold vcpu_registers. pose proof (run_regs_total (kernel (vcpu m))). np. Qed.

Lemma dispatch_io_runs m :
  machine_wf m → runs (dispatch_vcpu_exit ExitIo) m (dispatched ExitIo m) (dispatch_failed ExitIo m).
Proof using KvmRunLaws0.
  intros Hwf. pose proof Hwf as (Hrun&Hport&Hbus). set (id := vcpu_id (vcpu m)).
  apply runs_bind, runs_get, runs_bind, runs_reading; [by apply no_panic_port_io_exit| |].
  2: { intros e He. split_and!; [done|done|]. by eapply errs_port_io_exit. }
  intros io Hio. fold id in Hio.
  pose proof (portio_dispatch_runs io (port_io m)) as Hr.
  destruct (portio_dispatch_bytes io (port_io m) Hport) as [Hport' Hbytes].
  unfold runs, mbind, prog_bind, on_port_io, runs in *.
  destruct (portio_dispatch io (port_io m)) as [[[|bytes]|e|] bus']; simpl in *; [..|done].
  - by split_and!.
  - destruct Hr as (Hd&->&Hl). unfold on_page. simpl.
    pose proof (write_port_io_input_cases id bytes (run_page (vcpu m)) Hrun) as Hw. fold id.
    destruct (write_port_io_input id bytes (run_page (vcpu m))) as [p|?|] eqn:Hp; simpl; [| |done].
    + destruct Hw as (e&He&_&Hlen&Hwin&->). split_and!; [|done|done]. split_and!; [|done|done].
      simpl. pose proof He as (_&_&_&_&_&Hle&_)%port_io_exit_Ok; [|done].
      pose proof Hrun as (_&_&Hb). pose proof (field_at_bound _ 40 8 Hb ltac:(lia)).
      apply run_wf_splice; [done|done|lia|]. lia.
    + by destruct (Hw io Hio Hd).
  - destruct Hbytes as [pe ->]. by split_and!.
Qed.
Lemma dispatch_mmio_runs m :
  machine_wf m → runs (dispatch_vcpu_exit ExitMmio) m (dispatched ExitMmio m) (dispatch_failed ExitMmio m).
Proof using KvmRunLaws0.
  intros Hwf. pose proof Hwf as (Hrun&Hport&Hbus). set (id := vcpu_id (vcpu m)).
  apply runs_bind, runs_get, runs_bind, runs_reading; [by apply no_panic_mmio_exit| |].
  2: { intros e He. split_and!; [done|done|]. by eapply errs_mmio_exit. }
  intros access Ha. fold id in Ha.
  pose proof (mmio_dispatch_runs access (mmio m) Hbus (exit_wf_of_run _ _ _ Hrun Ha)) as Hr.
  pose proof (mmio_dispatch_errs access (mmio m)) as Herr.
  unfold runs, mbind, prog_bind, on_mmio, runs in *.
  destruct (mmio_dispatch access (mmio m)) as [[[|bytes]|e|] bus']; simpl in *; [..|done].
  - destruct Hr as (?&_&_). by split_and!.
  - destruct Hr as (Hbus'&_&Hd&Hl&Hb). unfold on_page. simpl.
    pose proof (write_mmio_response_cases id bytes (run_page (vcpu m)) Hrun) as Hw. fold id.
    destruct (write_mmio_read_response id bytes (run_page (vcpu m))) as [p|?|] eqn:Hp; simpl; [| |done].
    + destruct Hw as (e&He&_&Hlen&->). split_and!; [|done|done]. split_and!; [|done|done].
      simpl. pose proof He as (_&_&_&_&Hle&_)%mmio_exit_Ok; [|done].
      unfold KVM_MMIO_DATA_CAPACITY in Hle. pose proof Hrun as (Hlr&_&_).
      rewrite required_size_val in Hlr. apply run_wf_splice; [done|done|lia|lia].
    + by destruct (Hw access Ha Hd).
  - destruct Hr as [? _]. split_and!; [by split_and!|done|]. by apply device_error_traced, Herr.
Qed.
(** An exit that is only reported: its view, then an error that names it. *)
Lemma dispatch_view_runs {A} exit m (f : Z → list Z → res Error A) (g : A → prog (Machine V) Error VmExitDisposition) :
  machine_wf m → no_panic (f (vcpu_id (vcpu m)) (run_page (vcpu m))) →
  errs (trace_consistent (exit_reason_of exit)) (f (vcpu_id (vcpu m)) (run_page (vcpu m))) →
  (∀ a, f (vcpu_id (vcpu m)) (run_page (vcpu m)) = Ok a →
     runs (g a) m (dispatched exit m) (dispatch_failed exit m)) →
  runs (on_view f ≫= g) m (dispatched exit m) (dispatch_failed exit m).
Proof.
  intros Hwf Hnp Herr Hg. apply runs_bind, runs_reading; [done|done|].
  intros e He. split_and!; [done|done|by apply Herr].
Qed.
Lemma dispatch_throw_runs exit m e :
  machine_wf m → trace_consistent (exit_reason_of exit) e →
  runs (throw e) m (dispatched exit m) (dispatch_failed exit m).
Proof. intros. by split_and!. Qed.
Lemma dispatch_registers_runs exit m (g : VcpuRegisters → prog (Machine V) Error VmExitDisposition) :
  machine_wf m → (∀ r, runs (g r) m (dispatched exit m) (dispatch_failed exit m)) →
  runs (reading (λ m, vcpu_registers (vcpu m)) ≫= g) m (dispatched exit m) (dispatch_failed exit m).
Proof using KvmRunLaws0.
  intros Hwf Hg. apply runs_bind, runs_reading; [apply no_panic_registers|auto|].
  intros e He. split_and!; [done|done|by eapply vcpu_registers_errs].
Qed.
Lemma dispatch_runs exit m :
  machine_wf m → runs (dispatch_vcpu_exit exit) m (dispatched exit m) (dispatch_failed exit m).
Proof using KvmRunLaws0.
  intros Hwf. pose proof Hwf as (Hrun&_&_).
  pose proof Hrun as (Hl&_&_). rewrite required_size_val in Hl.
  destruct exit; try (by apply dispatch_io_runs); try (by apply dispatch_mmio_runs);
    apply runs_bind, runs_get; cbv zeta;
    try (apply dispatch_registers_runs; [done|]; intros r;
         first [by apply dispatch_throw_runs | by split_and!]);
    (apply dispatch_view_runs; [done| | |]).
  - apply no_panic_small_view; [done|done|]. by rewrite run_field_ok by lia.
  - unfold kvm_unknown_exit, view. apply errs_bind; [by apply errs_require|intros ? ?]. errs_auto.
  - intros a _. by apply dispatch_throw_runs.
  - apply no_panic_small_view; [done|done|]. by rewrite !run_field_ok by lia.
  - unfold exception_exit, view. apply errs_bind; [by apply errs_require|intros ? ?]. errs_auto.
  - intros [a b] _. by apply dispatch_throw_runs.
  - apply no_panic_small_view; [done|done|]. by rewrite !run_field_ok by lia.
  - unfold fail_entry, view. apply errs_bind; [by apply errs_require|intros ? ?]. errs_auto.
  - intros [a b] _. by apply dispatch_throw_runs.
  - by apply internal_error_ok.
  - unfold internal_error, view, decode_internal_error_with_data.
    apply errs_bind; [by apply errs_require|intros ? ?]. errs_auto.
  - intros e He. apply internal_error_ok in He; [|done]. apply emulation_bytes_ok in He as [Hd _].
    apply runs_bind, runs_lift; [done|intros; by apply dispatch_throw_runs|].
    unfold internal_error_data. intros x Hx. exfalso. revert Hx.
    destruct (data_available e); [|done]. unfold slice. by case_match.
  - by apply no_panic_system_event.
  - unfold system_event, view, decode_system_event.
    apply errs_bind; [by apply errs_require|intros ? ?]. errs_auto.
  - intros [a b] _. apply dispatch_registers_runs; [done|]. intros r. by apply dispatch_throw_runs.
Qed.
End dispatch_facts.

(** ** Entering the guest *)
Section run_facts.
Context {V : Type} `{!KvmVcpu V, !KvmRun V} {k : nat} `{!KvmRunLaws V k}.
Implicit Types v : Vcpu V.

Definition host_error (e : Error) : Prop := match e with HostEnvironment _ => True | _ => False end.
Lemma run_retry_runs n v :
  run_wf (run_page v) → interrupted n (kernel v, run_page v) = false →
  fruns (run_retry n) v
    (λ _ v', run_wf (run_page v') ∧ vcpu_id v' = vcpu_id v)
    (λ e v', run_wf (run_page v') ∧ vcpu_id v' = vcpu_id v ∧ host_error e).
Proof using KvmRunLaws0.
  revert v. induction n as [|n IH]; intros v Hwf Hi; [done|]. cbn [interrupted] in Hi.
  unfold fruns. cbn [run_retry].
  destruct (run_page_law (kernel v) (run_page v) Hwf) as [Hwf' Hnp].
  destruct (ioctl_run (kernel v, run_page v)) as [[[]|e|] [kv p]]; simpl in *; [done| |done].
  destruct (is_interrupted e); [|done]. by apply (IH (set_run kv p v)).
Qed.
Lemma run_once_runs v :
  run_wf (run_page v) →
  fruns (run_once (S k)) v
    (λ _ v', run_wf (run_page v') ∧ vcpu_id v' = vcpu_id v)
    (λ e v', run_wf (run_page v') ∧ vcpu_id v' = vcpu_id v ∧ host_error e).
Proof using KvmRunLaws0.
  intros Hwf. apply fruns_bind. eapply fruns_mono; [apply run_retry_runs; [done|]| |done].
  { by apply run_interrupts_bounded. }
  intros _ v' [Hwf' Hid]. apply fruns_bind, fruns_total.
  unfold runs, reading. by rewrite exit_reason_ok.
Qed.
End run_facts.

(** ** The trace attached to an error *)
Definition error_trace (e : Error) : option (list Z) :=
  match e with
  | VmExit (Unhandled _ _ _ _ rs) | VmExit (KvmUnknownExit _ _ rs) | VmExit (ExceptionExit _ _ _ rs)
  | VmExit (EntryFailure _ _ _ rs) | VmExit (InternalErrorExit _ _ _ rs)
  | VmExit (InvalidInternalErrorDataCount _ _ _ _ rs) | VmExit (UnsupportedSystemEvent _ _ _ _ _ rs)
  | VmExit (InvalidSystemEventDataCount _ _ _ rs) | VmExit (ExitBudgetExhausted _ _ _ _ rs) => Some rs
  | _ => None
  end.
Definition budget_error (e : Error) : Prop :=
  match e with VmExit (ExitBudgetExhausted _ _ _ _ _) => True | _ => False end.
Lemma attach_trace_ok reason e rs :
  trace_consistent reason e → last rs = Some reason →
  ∃ e', attach_completed_exit_trace e rs = Ok e' ∧ ¬ budget_error e' ∧
    (error_trace e' = None ∨ error_trace e' = Some rs).
Proof.
  intros Hc Hl.
  assert (∀ r, r = reason → last_is rs r = true) as Hlast
    by (intros r ->; by apply bool_decide_eq_true_2).
  assert (∀ e', attach_completed_exit_trace e rs = Ok e' → ¬ budget_error e' →
    error_trace e' = None ∨ error_trace e' = Some rs →
    ∃ e', attach_completed_exit_trace e rs = Ok e' ∧ ¬ budget_error e' ∧
      (error_trace e' = None ∨ error_trace e' = Some rs)) as Hintro by eauto.
  destruct e as [?|?|?|?|?|x|?|?]; try (eapply Hintro; [done|intros []|by left]).
  destruct x; simpl in Hc; try done; (eapply Hintro;
    [unfold attach_completed_exit_trace; rewrite ?Hlast by done; done|intros []|by (left + right)]).
Qed.
Lemma with_trace_runs {S A} reason rs (m : prog S Error A) s Q (X : S → Prop) :
  last rs = Some reason →
  runs m s Q (λ e s', X s' ∧ trace_consistent reason e) →
  runs (with_trace rs m) s Q
    (λ e s', X s' ∧ ¬ budget_error e ∧ (error_trace e = None ∨ error_trace e = Some rs)).
Proof.
  intros Hl. unfold runs, with_trace. destruct (m s) as [[a|e|] s']; try done.
  intros [HX Hc]. destruct (attach_trace_ok _ _ _ Hc Hl) as (e'&->&?&?). done.
Qed.

(** ** The loop *)
Definition is_service (reason : Z) : Prop := reason = KVM_EXIT_IO ∨ reason = KVM_EXIT_MMIO.
Definition count (reason : Z) (rs : list Z) : Z := len (filter (λ r, r = reason) rs).
Lemma count_snoc reason rs r : count reason (rs ++ [r]) = count reason rs + if r =? reason then 1 else 0.
Proof.
  unfold count. rewrite filter_app, len_app. destruct (Z.eqb_spec r reason) as [->|Hne].
  - by rewrite filter_cons_True.
  - by rewrite filter_cons_False.
Qed.
(** The exits served so far and how they were recorded. *)
Record loop_inv (limit : Z) (b : ExitBudget) (io : list PortIoExit) (mm : list MmioExit)
    (rs : list Z) : Prop := {
  li_limit : budget_limit b = limit;
  li_completed : budget_completed b = len rs;
  li_last : budget_last_exit_reason b = last rs;
  li_bound : len rs ≤ limit;
  li_service : Forall is_service rs;
  li_io : len io = count KVM_EXIT_IO rs;
  li_mmio : len mm = count KVM_EXIT_MMIO rs
}.
(** A finished run: the served exits, then the stopping exit of the report. *)
Definition run_stopped (limit : Z) (r : VmExecutionResult) : Prop :=
  ∃ served, res_exit_reasons r = served ++ [exit_reason_of (report_exit (res_report r))] ∧
    is_stopping (report_exit (res_report r)) = true ∧ Forall is_service served ∧
    len (res_io_exits r) = count KVM_EXIT_IO served ∧
    len (res_mmio_exits r) = count KVM_EXIT_MMIO served ∧
    res_completed_exits r = len (res_exit_reasons r) ∧ res_completed_exits r ≤ limit.
(** A failed run: the trace of its error, if it carries one. *)
Definition run_failed (limit : Z) (e : Error) : Prop :=
  match e with
  | VmExit (ExitBudgetExhausted _ budget completed last_reason rs) =>
      budget = limit ∧ completed = limit ∧ len rs = limit ∧ Forall is_service rs ∧ last_reason = last rs
  | _ => ∀ rs, error_trace e = Some rs →
      ∃ served reason, rs = served ++ [reason] ∧ Forall is_service served ∧ len rs ≤ limit
  end.
Lemma record_ok limit b io mm rs reason :
  u32 limit → loop_inv limit b io mm rs → len rs < limit →
  ∃ b', record_completed_exit b rs reason = Ok (b', rs ++ [reason]) ∧
    budget_limit b' = limit ∧ budget_completed b' = len rs + 1 ∧ budget_last_exit_reason b' = Some reason.
Proof.
  intros Hu [Hl Hc _ _ _ _ _] Hlt. unfold record_completed_exit, budget_record.
  rewrite (proj2 (Z.ltb_lt (budget_completed b) _)) by lia. cbn [debug_assert mbind res_bind].
  rewrite uadd_ok by ulia. cbn [mbind res_bind mret res_ret budget_completed].
  rewrite len_app, Hc. unfold len at 2. simpl. rewrite Z.eqb_refl. simpl.
  eexists. split_and!; done.
Qed.
Lemma ensure_ok limit b io mm rs :
  loop_inv limit b io mm rs →
  ensure_run_allowed b rs = if len rs <? limit then Ok tt else
    Err (VmExit (ExitBudgetExhausted (budget_vcpu_id b) limit (len rs) (last rs) rs)).
Proof.
  intros [Hl Hc Ha _ _ _ _]. unfold ensure_run_allowed. rewrite Hc, Ha, Hl, Z.eqb_refl.
  rewrite bool_decide_eq_true_2 by done. done.
Qed.
Lemma loop_inv_serve limit b b' io mm rs reason :
  loop_inv limit b io mm rs → len rs < limit →
  budget_limit b' = limit → budget_completed b' = len rs + 1 → budget_last_exit_reason b' = Some reason →
  (∀ x, reason = KVM_EXIT_IO → loop_inv limit b' (io ++ [x]) mm (rs ++ [reason])) ∧
  (∀ x, reason = KVM_EXIT_MMIO → loop_inv limit b' io (mm ++ [x]) (rs ++ [reason])).
Proof.
  intros [Hl Hc Ha Hb Hs Hi Hm] Hlt H1 H2 H3.
  split; intros x ->; split; autorewrite with bytes; rewrite ?count_snoc, ?last_snoc, ?Hi, ?Hm;
    simpl; try done; try lia; rewrite Forall_app, Forall_singleton; split; [done|by left|done|by right].
Qed.

Section loop_facts.
Context {V : Type} `{!KvmVcpu V, !KvmRun V} {k : nat} `{!KvmRunLaws V k}.
Abbreviation no_observer := (λ _ : VmExitContinuation, mret (M:=prog (MmioBus * unit) Error) tt).
Definition loop_ends (limit : Z) (b : ExitBudget) io mm rs (fuel : nat) (s : Machine V * unit) : Prop :=
  fruns (run_loop no_observer fuel (S k) b io mm rs) s
    (λ r s', run_stopped limit r ∧ machine_wf s'.1) (λ e s', run_failed limit e ∧ machine_wf s'.1).
Lemma untraced_failed limit served reason e :
  Forall is_service served → len (served ++ [reason]) ≤ limit →
  ¬ budget_error e → (error_trace e = None ∨ error_trace e = Some (served ++ [reason])) →
  run_failed limit e.
Proof.
  intros Hs Hl Hb Ht.
  assert (∀ rs, error_trace e = Some rs → ∃ served reason, rs = served ++ [reason] ∧
    Forall is_service served ∧ len rs ≤ limit) as H.
  { intros rs He. destruct Ht as [Ht|Ht]; rewrite Ht in He; [done|]. injection He as <-.
    by exists served, reason. }
  destruct e as [?|?|?|?|?|x|?|?]; try exact H. destruct x; try exact H. by destruct Hb.
Qed.
Lemma host_error_failed limit e : host_error e → run_failed limit e.
Proof. by destruct e. Qed.
Lemma fruns_on_vcpu {A} (f : fprog (Vcpu V) Error A) (m : Machine V) (o : unit) Q X :
  fruns f (vcpu m) (λ a v, Q a (mkMachine v (port_io m) (mmio m), o))
    (λ e v, X e (mkMachine v (port_io m) (mmio m), o)) →
  fruns (on_vcpu f) (m, o) Q X.
Proof. unfold fruns, on_vcpu. by destruct (f (vcpu m)) as [[[] ?]|]. Qed.
Lemma runs_on_machine {A} (f : prog (Machine V) Error A) (m : Machine V) (o : unit) Q X :
  runs f m (λ a m', Q a (m', o)) (λ e m', X e (m', o)) → runs (on_machine f) (m, o) Q X.
Proof. unfold runs, on_machine. by destruct (f m) as [[] ?]. Qed.
(** One iteration: what remains to be shown is the rest of the loop. *)
Lemma loop_step limit b io mm rs fuel (s : Machine V * unit) :
  u32 limit → loop_inv limit b io mm rs → machine_wf s.1 →
  (∀ b' s', machine_wf s'.1 → len rs < limit →
     (∀ x, loop_inv limit b' (io ++ [x]) mm (rs ++ [KVM_EXIT_IO]) →
        loop_ends limit b' (io ++ [x]) mm (rs ++ [KVM_EXIT_IO]) fuel s') ∧
     (∀ x, loop_inv limit b' io (mm ++ [x]) (rs ++ [KVM_EXIT_MMIO]) →
        loop_ends limit b' io (mm ++ [x]) (rs ++ [KVM_EXIT_MMIO]) fuel s')) →
  loop_ends limit b io mm rs (S fuel) s.
Proof using KvmRunLaws0.
  intros Hu Hinv Hwf Hrest. destruct s as [m []]. unfold loop_ends. cbn [run_loop].
  apply fruns_bind, fruns_total. rewrite (ensure_ok _ _ _ _ _ Hinv).
  pose proof Hinv as [_ _ _ Hb Hs Hi Hm]. destruct (Z.ltb_spec (len rs) limit) as [Hlt|Hge].
  2: { unfold runs, lift. split; [|done]. unfold run_failed. split_and!; (done || lia). }
  apply (runs_lift (Ok tt)); [done| |done]. intros _ _. pose proof Hwf as (Hrun&Hport&Hmm).
  apply fruns_bind, fruns_on_vcpu. eapply fruns_mono; [by apply run_once_runs| |].
  2: { intros e v (?&_&?). split; [by apply host_error_failed|by split_and!]. }
  intros exit v [Hpage _]. destruct (record_ok limit b io mm rs (exit_reason_of exit))
    as (b'&Hrec&Hl'&Hc'&Ha'); [done|done|done|].
  apply fruns_bind, fruns_total. rewrite Hrec. apply (runs_lift (Ok (_, _))); [done| |done].
  intros _ [= <-]. set (rs' := rs ++ [_]). set (m1 := mkMachine v (port_io m) (mmio m)).
  assert (last rs' = Some (exit_reason_of exit)) as Hlast by apply last_snoc.
  assert (len rs' = len rs + 1) as Hlen by (unfold rs'; by autorewrite with bytes).
  assert (machine_wf m1) as Hwf1 by done.
  apply fruns_bind, fruns_total. eapply runs_mono.
  { apply with_trace_runs with (reason := exit_reason_of exit) (X := λ s', machine_wf s'.1); [done|].
    apply runs_on_machine. eapply runs_mono; [by apply (dispatch_runs exit)|
      intros d m' Hd; exact (Hd : (λ d s', dispatched exit m1 d s'.1) d (m', tt))|].
    intros e m' (?&_&?). done. }
  2: { intros e s' (?&Hnb&Ht). split; [|done].
    apply (untraced_failed limit rs (exit_reason_of exit)); [done|fold rs'; lia|done|done]. }
  intros d [m' []] (Hwf'&_&Hd). simpl in Hwf'.
  destruct (loop_inv_serve _ _ b' _ _ _ (exit_reason_of exit) Hinv Hlt Hl' Hc' Ha') as [Hio Hmmio].
  destruct d as [[x|x]|report].
  - subst exit. destruct m' as [v' p' q']. apply fruns_bind.
    exact (proj1 (Hrest b' (mkMachine v' p' q', tt) Hwf' Hlt) x (Hio x eq_refl)).
  - subst exit. destruct m' as [v' p' q']. apply fruns_bind.
    exact (proj2 (Hrest b' (mkMachine v' p' q', tt) Hwf' Hlt) x (Hmmio x eq_refl)).
  - destruct Hd as (Hre&Hstop&_).
    apply fruns_bind, fruns_total, (runs_lift (debug_assert _)); rewrite Hlen, Hc', Z.eqb_refl; [done| |done].
    intros _ _. apply fruns_bind, fruns_total, (runs_lift (debug_assert _));
      unfold last_is; rewrite Hre, Hlast, bool_decide_eq_true_2 by done; [done| |done].
    intros _ _. apply fruns_ret. split; [|done]. exists rs. simpl. rewrite Hre.
    split_and!; (done || lia).
Qed.
Lemma loop_ends_always limit fuel : ∀ b io mm rs (s : Machine V * unit),
  u32 limit → loop_inv limit b io mm rs → machine_wf s.1 → limit - len rs < Z.of_nat fuel →
  loop_ends limit b io mm rs fuel s.
Proof using KvmRunLaws0.
  induction fuel as [|fuel IH]; intros b io mm rs s Hu Hinv Hwf Hf.
  { pose proof (li_bound _ _ _ _ _ Hinv). lia. }
  apply loop_step; [done..|]. intros b' s' Hwf' Hlt.
  split; intros x Hinv'; (apply IH; [done..|]; autorewrite with bytes; lia).
Qed.
End loop_facts.

(** * Properties *)

(** C5: the run loop always comes back, and with the right account of what happened.
    For any KVM that keeps the shared page mapped and does not interrupt KVM_RUN
    more than [k] times in a row, whatever the guest does, a run with an exit budget
    [limit] returns within [limit + 1] iterations and without a panic (none of its
    [debug_assert]s can fail), and leaves the machine well-formed.  A result lists
    the served exits, all port I/O or MMIO, then the stopping exit of the report,
    with one recorded access per served exit and a count within the budget; an
    exhausted budget is reported with exactly [limit] served exits; an error that
    carries a trace carries the served exits followed by the exit that failed. *)
Theorem execution_spec {V} `{!KvmVcpu V, !KvmRun V} (k : nat) `{!KvmRunLaws V k}
    (m : Machine V) (limit : Z) :
  machine_wf m → u32 limit →
  ∃ r m', run_vcpu_until_stopped_with_mmio (S (Z.to_nat limit)) (S k) limit (m, tt) = Some (r, (m', tt)) ∧
    machine_wf m' ∧
    match r with
    | Ok result => run_stopped limit result
    | Err e => run_failed limit e
    | Panic => False
    end.
Proof.
  intros Hwf Hu. unfold run_vcpu_until_stopped_with_mmio, run_vcpu_until_stopped_with_mmio_observer.
  assert (loop_inv limit (budget_new (vcpu_id (vcpu m)) limit) [] [] []) as Hinv
    by (split; first [done | apply Forall_nil_2 | apply Hu]).
  assert (limit - len (@nil Z) < Z.of_nat (S (Z.to_nat limit))) as Hfuel
    by (change (len (@nil Z)) with 0; destruct Hu; lia).
  pose proof (loop_ends_always limit _ _ _ _ _ (m, tt) Hu Hinv Hwf Hfuel) as H.
  unfold loop_ends, fruns in H.
  destruct (run_loop _ _ _ _ _ _ _ _) as [[r [m' []]]|]; [|done]. exists r, m'.
  destruct r; [destruct H..|done]; done.
Qed.

(** A KVM for concrete runs: a guest is the list of pages it exits with, and entering
    it is interrupted once in between. *)
Record scripted := { script : list (list Z); rested : bool; script_regs : sys.KvmRegs }.
#[global] Instance scripted_kvm : KvmVcpu scripted := {|
  ioctl_get_regs v := Ok (script_regs v);
  ioctl_set_regs r v := (Ok tt, v);
  ioctl_get_sregs v := Err (OsError 22 InvalidInput);
  ioctl_set_sregs s v := (Err (OsError 22 InvalidInput), v);
  ioctl_get_msrs _ _ := Err (OsError 22 InvalidInput);
  ioctl_set_msrs _ v := (Err (OsError 22 InvalidInput), v)
|}.
Definition EINTR : io_error := OsError 4 Interrupted.
#[global] Instance scripted_run : KvmRun scripted := {|
  ioctl_run '(v, p) :=
    if rested v then
      match script v with
      | [] => (Err (OsError 14 Other), (v, p))
      | q :: script => (Ok tt, ({| script := script; rested := false; script_regs := script_regs v |},
                                if decide (len q = len p ∧ bytes_ok q) then q else p))
      end
    else (Err EINTR, ({| script := script v; rested := true; script_regs := script_regs v |}, p))
|}.
#[global] Instance scripted_laws : KvmRunLaws scripted 1.
Proof.
  split; [done| |].
  - intros v p (Hl&Hu&Hb). simpl. destruct (rested v); [|done].
    destruct (script v) as [|q l]; [done|]. simpl. case_decide as Hq; [|done].
    destruct Hq as [Hq ?]. split; [|done]. unfold run_wf. by rewrite Hq.
  - intros [v p] _. simpl. destruct (rested v); simpl; [by destruct (script v)|by destruct (script v)].
Qed.
(** A guest that prints one byte on the debug port, reads the byte device and halts. *)
Definition sample_machine : Machine scripted := mkMachine
  (mkVcpu 0 true
    {| script := [sample_run KVM_EXIT_IO ([1; 1] ++ to_le_bytes 2 0xe9 ++ to_le_bytes 4 1
                    ++ to_le_bytes 8 64 ++ replicate 16 0 ++ [72]);
                  sample_run KVM_EXIT_MMIO (to_le_bytes 8 0x2000 ++ replicate 8 0
                    ++ to_le_bytes 4 1 ++ [0]);
                  sample_run KVM_EXIT_HLT []];
       rested := false; script_regs := zero_regs |}
    (replicate 256 0))
  with_debug_port (with_byte_device 7).
Lemma sample_machine_wf : machine_wf sample_machine.
Proof.
  split_and!.
  - split_and!; [vm_compute; discriminate|done|]. by apply (bytes_ok_replicate 256).
  - by intros d [= <-].
  - by apply with_byte_device_wf.
Qed.
Lemma execution_spec_witness :
  ∃ r m', run_vcpu_until_stopped_with_mmio 6 2 5 (sample_machine, tt) = Some (Ok r, (m', tt)) ∧
    run_stopped 5 r ∧ res_exit_reasons r = [KVM_EXIT_IO; KVM_EXIT_MMIO; KVM_EXIT_HLT] ∧
    debug_output (port_io m') = Some [72].
Proof.
  destruct (execution_spec 1 sample_machine 5 sample_machine_wf ltac:(done)) as (r&m'&Hrun&_&Hr).
  destruct r as [r|e|]; [|vm_compute in Hrun; discriminate|destruct Hr].
  exists r, m'. split; [exact Hrun|]. split; [exact Hr|].
  vm_compute in Hrun. injection Hrun as <- <-. split; vm_compute; reflexivity.
Defined.
