(* ===== verification/UserCopy.v ===== *)
(** System calls that copy user memory, with recovery from page faults: the dispatcher of
    [src/src/syscall/partial_dispatch.rs], its page-fault handler and fixup table, the user program,
    the memory the host prepares and the checks it makes.

    [X86] executes the machine code over any translation of addresses; a fault of the service enters the
    page-fault handler as the processor does, and the handler's return resumes the service.
    The theorems compare the service with a copy written over the translation, for every call. *)

From S2P Require Import Prelude Errors Memory Loader LongMode Boot GuestTables Privilege VcpuRun Execution X86 Tasks TaskSwitch.
Import Rings Spaces.

(** * Definitions *)
Module Partial.
Definition SYSCALL_KERNEL_ENTRY : GuestPhysAddr := 0x12000.
Definition SYSCALL_STAR_VALUE : Z := 0x0013000800000000.
Definition SYSCALL_LSTAR_VALUE : Z := SYSCALL_KERNEL_ENTRY.
Definition SYSCALL_SFMASK_VALUE : Z := Z.shiftl 1 9.
Definition EFER_SYSCALL_ENABLE : Z := 1.
Definition PARTIAL_COPY_NR : Z := 2.
Definition PARTIAL_COPY_MAX_LEN : Z := 4.
Definition PARTIAL_GOOD_SOURCE : Z := 0x20ffe.
Definition PARTIAL_GOOD_DESTINATION : Z := 0x22ffe.
Definition PARTIAL_SOURCE_FAULT_SOURCE : Z := 0x24ffe.
Definition PARTIAL_SOURCE_FAULT_DESTINATION : Z := 0x26ffe.
Definition PARTIAL_DEST_FAULT_SOURCE : Z := 0x28ffe.
Definition PARTIAL_DEST_FAULT_DESTINATION : Z := 0x2affe.
Definition PARTIAL_SOURCE_FAULT_ADDR : Z := 0x25000.
Definition PARTIAL_DEST_FAULT_ADDR : Z := 0x2b000.
Definition PARTIAL_SHORT_SOURCE : Z := 0x20020.
Definition PARTIAL_SHORT_DESTINATION : Z := 0x22020.
Definition PARTIAL_BYTE_SOURCE : Z := 0x20040.
Definition PARTIAL_BYTE_DESTINATION : Z := 0x22040.
Definition PARTIAL_RESULT_ADDR : GuestPhysAddr := 0xa180.
Definition PARTIAL_READ_FAULT_OBSERVATION_ADDR : GuestPhysAddr := 0xb000.
Definition PARTIAL_WRITE_FAULT_OBSERVATION_ADDR : GuestPhysAddr := 0xb040.
Definition PARTIAL_FIXUP_TABLE_ADDR : GuestPhysAddr := 0xb100.
Definition PARTIAL_PAGE_FAULT_HANDLER : GuestPhysAddr := 0x14000.
Definition PARTIAL_PAGE_FAULT_VECTOR : Z := 14.
Definition PARTIAL_READ_FAULT_RIP : Z := SYSCALL_KERNEL_ENTRY + 0x78.
Definition PARTIAL_WRITE_FAULT_RIP : Z := SYSCALL_KERNEL_ENTRY + 0x7d.
Definition PARTIAL_COMMON_FIXUP_RIP : Z := SYSCALL_KERNEL_ENTRY + 0x98.
Definition PARTIAL_EINVAL : Z := as_width 64 (-22).
Definition PARTIAL_ENOSYS : Z := as_width 64 (-38).
Definition PARTIAL_PROOF : list Z := [0x4d; 0x46; 0x46; 0x4d; 0x49; 0x49; 0x43; 0x50; 0x55; 0x44].
Definition PARTIAL_GOOD_BYTES : list Z := [0x11; 0x22; 0x33; 0x44].
Definition PARTIAL_SOURCE_FAULT_BYTES : list Z := [0x55; 0x66; 0x77; 0x88].
Definition PARTIAL_DEST_FAULT_BYTES : list Z := [0x99; 0xaa; 0xbb; 0xcc].
Definition PARTIAL_SHORT_BYTES : list Z := [0xde; 0xad; 0xbe; 0xef].
Definition PARTIAL_BYTE_VALUE : Z := 0x6b.
Definition KERNEL_CODE_SELECTOR : Z := 0x08.
Definition X86_RFLAGS_RESERVED : Z := Z.shiftl 1 1.
Definition X86_RFLAGS_PF : Z := Z.shiftl 1 2.
Definition X86_RFLAGS_ZF : Z := Z.shiftl 1 6.
Definition X86_RFLAGS_IF : Z := Z.shiftl 1 9.
Definition X86_RFLAGS_RF : Z := Z.shiftl 1 16.
Definition PRIVILEGE_FRAME_BYTES : Z := 5 * 8.
Definition FAULT_OBSERVATION_BYTES : Z := 48.
Definition FIXUP_ENTRY_BYTES : Z := 24.
Definition FIXUP_TABLE_BYTES : Z := 2 * FIXUP_ENTRY_BYTES.
Definition PAGE_FAULT_GATE_SIZE : Z := 16.
Definition PAGE_FAULT_SAVED_RFLAGS : Z := Z.lor (Z.lor (Z.lor X86_RFLAGS_RESERVED X86_RFLAGS_PF) X86_RFLAGS_ZF) X86_RFLAGS_RF.
Definition PARTIAL_DISPATCHER_BYTES : list Z :=
  [0x49; 0x89; 0xe2; 0x48; 0xbc; 0x00; 0xe0; 0x1f; 0x00; 0x00; 0x00; 0x00; 0x00; 0x48; 0x83; 0xf8;
   0x00; 0x74; 0x13; 0x48; 0x83; 0xf8; 0x01; 0x74; 0x34; 0x48; 0x83; 0xf8; 0x02; 0x74; 0x48; 0xeb;
   0x39; 0x90; 0x90; 0x90; 0x90; 0x90; 0x0f; 0xb6; 0x07; 0x88; 0x06; 0xb0; 0x43; 0xe6; 0xe9; 0x31;
   0xc0; 0xeb; 0x21; 0xb0; 0x52; 0xe6; 0xe9; 0x48; 0xc7; 0xc0; 0xf2; 0xff; 0xff; 0xff; 0xeb; 0x14;
   0xb0; 0x57; 0xe6; 0xe9; 0x48; 0xc7; 0xc0; 0xf2; 0xff; 0xff; 0xff; 0xeb; 0x07; 0x40; 0x88; 0xf8;
   0xe6; 0xe9; 0x31; 0xc0; 0x4c; 0x89; 0xd4; 0x48; 0x0f; 0x07; 0xb0; 0x55; 0xe6; 0xe9; 0x48; 0xc7;
   0xc0; 0xda; 0xff; 0xff; 0xff; 0xeb; 0xed; 0x48; 0x85; 0xd2; 0x74; 0x3b; 0x48; 0x83; 0xfa; 0x04;
   0x77; 0x35; 0x45; 0x31; 0xc0; 0x4d; 0x39; 0xc0; 0x42; 0x0f; 0xb6; 0x04; 0x07; 0x42; 0x88; 0x04;
   0x06; 0x49; 0xff; 0xc0; 0x49; 0x39; 0xd0; 0x72; 0xec; 0x4c; 0x89; 0xc0; 0x49; 0x89; 0xc1; 0xb0;
   0x4d; 0xe6; 0xe9; 0x4c; 0x89; 0xc8; 0xeb; 0xbc; 0x4c; 0x89; 0xc0; 0x49; 0x89; 0xc1; 0xb0; 0x46;
   0xe6; 0xe9; 0x4c; 0x89; 0xc8; 0xeb; 0xad; 0xb0; 0x49; 0xe6; 0xe9; 0x48; 0xc7; 0xc0; 0xea; 0xff;
   0xff; 0xff; 0xeb; 0xa0].
Definition PAGE_FAULT_HANDLER_BYTES : list Z :=
  [0x48; 0x8b; 0x44; 0x24; 0x08; 0x49; 0xb9; 0x00; 0xb1; 0x00; 0x00; 0x00; 0x00; 0x00; 0x00; 0x49;
   0x3b; 0x01; 0x74; 0x0b; 0x49; 0x3b; 0x41; 0x18; 0x74; 0x0f; 0xb0; 0x58; 0xe6; 0xe9; 0xf4; 0x4d;
   0x8b; 0x61; 0x08; 0x49; 0x8b; 0x51; 0x10; 0xeb; 0x08; 0x4d; 0x8b; 0x61; 0x20; 0x49; 0x8b; 0x51;
   0x28; 0x0f; 0x20; 0xd0; 0x48; 0x89; 0x02; 0x48; 0x8b; 0x04; 0x24; 0x48; 0x89; 0x42; 0x08; 0x48;
   0x8b; 0x44; 0x24; 0x08; 0x48; 0x89; 0x42; 0x10; 0x48; 0x8b; 0x44; 0x24; 0x10; 0x48; 0x89; 0x42;
   0x18; 0x48; 0x8b; 0x44; 0x24; 0x18; 0x48; 0x89; 0x42; 0x20; 0x4c; 0x89; 0x62; 0x28; 0x4c; 0x89;
   0x64; 0x24; 0x08; 0x48; 0x83; 0xc4; 0x08; 0x48; 0xcf].
Definition TERMINAL_HANDLER_BYTES : list Z := [0xb0; 0x44; 0xe6; 0xe9; 0xf4].
Definition USER_PAGES : list (Z * bool) :=
  [(0x20000, true); (0x21000, true); (0x22000, true); (0x23000, true); (0x24000, true); (0x25000, false);
   (0x26000, true); (0x27000, true); (0x28000, true); (0x29000, true); (0x2a000, true); (0x2b000, false)].
Record PartialDispatchFixupEntry := mkFixup { fault_rip : Z; fixup_rip : Z; observation_addr : Z }.
#[global] Instance fixup_eq_dec : EqDecision PartialDispatchFixupEntry.
Proof. solve_decision. Defined.
Record PartialDispatchFaultObservation := mkObservation {
  obs_cr2 : Z; obs_error_code : Z; obs_rip : Z; obs_cs : Z; obs_rflags : Z; resolved_fixup : Z
}.
#[global] Instance observation_eq_dec : EqDecision PartialDispatchFaultObservation.
Proof. solve_decision. Defined.

(** ** The user program *)
Definition emit_movabs (code : list Z) (opcode value : Z) : list Z := code ++ [0x48; opcode] ++ to_le_bytes 8 value.
Definition emit_store_result (code : list Z) (result_offset : Z) : list Z :=
  if result_offset =? 0 then code ++ [0x48; 0x89; 0x03] else code ++ [0x48; 0x89; 0x43; result_offset].
Definition emit_range_call (code : list Z) (source destination len_ result_offset : Z) : list Z :=
  let code := code ++ [0xb8; as_width 8 PARTIAL_COPY_NR; 0; 0; 0] in
  let code := emit_movabs code 0xbf source in
  let code := emit_movabs code 0xbe destination in
  let code := code ++ [0xba] ++ to_le_bytes 4 len_ ++ [0x0f; 0x05] in
  emit_store_result code result_offset.
Definition emit_copy_byte_call (code : list Z) (result_offset : Z) : list Z :=
  let code := code ++ [0xb8; 0; 0; 0; 0] in
  let code := emit_movabs code 0xbf PARTIAL_BYTE_SOURCE in
  let code := emit_movabs code 0xbe PARTIAL_BYTE_DESTINATION in
  emit_store_result (code ++ [0x0f; 0x05]) result_offset.
Definition emit_putc_call (code : list Z) (result_offset : Z) : list Z :=
  emit_store_result (code ++ [0xb8; 1; 0; 0; 0] ++ [0xbf; 0x50; 0; 0; 0] ++ [0x0f; 0x05]) result_offset.
Definition emit_unknown_call (code : list Z) (result_offset : Z) : list Z :=
  emit_store_result (code ++ [0xb8; 0xff; 0; 0; 0; 0x0f; 0x05]) result_offset.
Definition build_user_guest : list Z :=
  let code := emit_movabs [] 0xbb PARTIAL_RESULT_ADDR in
  let code := emit_range_call code PARTIAL_GOOD_SOURCE PARTIAL_GOOD_DESTINATION 4 0 in
  let code := emit_range_call code PARTIAL_SOURCE_FAULT_SOURCE PARTIAL_SOURCE_FAULT_DESTINATION 4 8 in
  let code := emit_range_call code PARTIAL_DEST_FAULT_SOURCE PARTIAL_DEST_FAULT_DESTINATION 4 16 in
  let code := emit_range_call code PARTIAL_SHORT_SOURCE PARTIAL_SHORT_DESTINATION 1 24 in
  let code := emit_range_call code PARTIAL_SHORT_SOURCE PARTIAL_SHORT_DESTINATION 0 32 in
  let code := emit_range_call code PARTIAL_SHORT_SOURCE PARTIAL_SHORT_DESTINATION 5 40 in
  let code := emit_copy_byte_call code 48 in
  let code := emit_putc_call code 56 in
  let code := emit_unknown_call code 64 in
  code ++ [0xcd; 0x81].

(** ** The memory the host prepares *)
Definition install_user_mapping (entry : Z * bool) : prog GuestMemory Error unit :=
  let '(page, present) := entry in
  let flags := Z.lor (Z.lor X86_PAGE_WRITABLE X86_PAGE_USER) (if present then X86_PAGE_PRESENT else 0) in
  address ← lift (uadd 64 PRIVILEGE_PT_ADDR (page / LONG_MODE_PAGE_SIZE * 8));
  write_mut address (to_le_bytes 8 (Z.lor page flags)).
Fixpoint install_all (pages : list (Z * bool)) : prog GuestMemory Error unit :=
  match pages with [] => mret tt | entry :: pages => install_user_mapping entry;; install_all pages end.
Definition install_user_mappings : prog GuestMemory Error unit := install_all USER_PAGES.
Definition encode_kernel_interrupt_gate (handler : Z) : list Z :=
  to_le_bytes 2 (as_width 16 handler) ++ to_le_bytes 2 KERNEL_CODE_SELECTOR ++ [0; 0x8e] ++
  to_le_bytes 2 (as_width 16 (Z.shiftr handler 16)) ++ to_le_bytes 4 (as_width 32 (Z.shiftr handler 32)) ++ [0; 0; 0; 0].
Definition install_page_fault_gate : prog GuestMemory Error unit :=
  offset ← lift (umul 64 PARTIAL_PAGE_FAULT_VECTOR PAGE_FAULT_GATE_SIZE);
  address ← lift (uadd 64 PRIVILEGE_IDT_ADDR offset);
  write_mut address (encode_kernel_interrupt_gate PARTIAL_PAGE_FAULT_HANDLER).
Definition initialize_data : prog GuestMemory Error unit :=
  write_mut PARTIAL_GOOD_SOURCE PARTIAL_GOOD_BYTES;;
  write_mut PARTIAL_GOOD_DESTINATION [0; 0; 0; 0];;
  write_mut PARTIAL_SOURCE_FAULT_SOURCE PARTIAL_SOURCE_FAULT_BYTES;;
  write_mut PARTIAL_SOURCE_FAULT_DESTINATION [0; 0; 0; 0];;
  write_mut PARTIAL_DEST_FAULT_SOURCE PARTIAL_DEST_FAULT_BYTES;;
  write_mut PARTIAL_DEST_FAULT_DESTINATION [0; 0; 0; 0];;
  write_mut PARTIAL_SHORT_SOURCE PARTIAL_SHORT_BYTES;;
  write_mut PARTIAL_SHORT_DESTINATION [0; 0; 0; 0];;
  write_mut PARTIAL_BYTE_SOURCE [PARTIAL_BYTE_VALUE];;
  write_mut PARTIAL_BYTE_DESTINATION [0].
Definition expected_fixup_entries : list PartialDispatchFixupEntry :=
  [mkFixup PARTIAL_READ_FAULT_RIP PARTIAL_COMMON_FIXUP_RIP PARTIAL_READ_FAULT_OBSERVATION_ADDR;
   mkFixup PARTIAL_WRITE_FAULT_RIP PARTIAL_COMMON_FIXUP_RIP PARTIAL_WRITE_FAULT_OBSERVATION_ADDR].
Definition encoded_fixup_table : list Z :=
  concat (map (λ entry, to_le_bytes 8 (fault_rip entry) ++ to_le_bytes 8 (fixup_rip entry) ++
                        to_le_bytes 8 (observation_addr entry)) expected_fixup_entries).

(** ** What the host reads back *)
Record PartialDispatchTerminalFrame := mkTerminalFrame { tf_rip : Z; tf_cs : Z; tf_rflags : Z; tf_rsp : Z; tf_ss : Z }.
#[global] Instance terminal_frame_eq_dec : EqDecision PartialDispatchTerminalFrame.
Proof. solve_decision. Defined.
(** The fields of the result that the validation looks at. *)
Record PartialDispatchGuestResult := mkResult {
  returns : list Z; good_destination : list Z; source_fault_destination : list Z; destination_fault_destination : list Z;
  short_destination : list Z; byte_destination : Z;
  read_fault : PartialDispatchFaultObservation; write_fault : PartialDispatchFaultObservation;
  fixup_entries : list PartialDispatchFixupEntry;
  terminal_frame : PartialDispatchTerminalFrame; terminal_rsp : Z; terminal_cs : Z; terminal_rflags : Z; final_cr2 : Z;
  msrs : list Z; user_page_ptes : list (Z * Z); service_pte : Z; fault_handler_pte : Z; fault_metadata_pte : Z;
  report : VmExitReport
}.
Definition read_u64 (bytes : list Z) (offset : Z) : res Error Z := field bytes offset.
Fixpoint read_all {A B} (read : A → res Error B) (l : list A) : res Error (list B) :=
  match l with
  | [] => Ok []
  | a :: l => b ← read a; bs ← read_all read l; Ok (b :: bs)
  end.
Definition read_returns (m : GuestMemory) : res Error (list Z) :=
  bytes ← read m PARTIAL_RESULT_ADDR 72;
  read_all (λ index, read_u64 bytes (index * 8)) [0; 1; 2; 3; 4; 5; 6; 7; 8].
Definition read_four (m : GuestMemory) (address : Z) : res Error (list Z) := read m address 4.
Definition read_fault_observation (m : GuestMemory) (address : GuestPhysAddr) : res Error PartialDispatchFaultObservation :=
  bytes ← read m address FAULT_OBSERVATION_BYTES;
  cr2 ← read_u64 bytes 0;
  error_code ← read_u64 bytes 8;
  rip ← read_u64 bytes 16;
  cs ← read_u64 bytes 24;
  rflags ← read_u64 bytes 32;
  resolved_fixup ← read_u64 bytes 40;
  Ok (mkObservation cr2 error_code rip cs rflags resolved_fixup).
Definition read_fixup_table (m : GuestMemory) : res Error (list PartialDispatchFixupEntry) :=
  bytes ← read m PARTIAL_FIXUP_TABLE_ADDR FIXUP_TABLE_BYTES;
  rip0 ← read_u64 bytes 0;
  fixup0 ← read_u64 bytes 8;
  observation0 ← read_u64 bytes 16;
  rip1 ← read_u64 bytes 24;
  fixup1 ← read_u64 bytes 32;
  observation1 ← read_u64 bytes 40;
  Ok [mkFixup rip0 fixup0 observation0; mkFixup rip1 fixup1 observation1].
Definition read_terminal_frame (m : GuestMemory) : res Error PartialDispatchTerminalFrame :=
  start ← usub PRIVILEGE_TSS_RSP0 PRIVILEGE_FRAME_BYTES;
  bytes ← read m start PRIVILEGE_FRAME_BYTES;
  rip ← read_u64 bytes 0;
  cs ← read_u64 bytes 8;
  rflags ← read_u64 bytes 16;
  rsp ← read_u64 bytes 24;
  ss ← read_u64 bytes 32;
  Ok (mkTerminalFrame rip cs rflags rsp ss).
Definition mapping_valid (entry : (Z * Z) * (Z * bool)) : bool :=
  let '((address, pte), (expected_address, present)) := entry in
  (address =? expected_address) &&
  (Z.land pte (Z.lor X86_PAGE_WRITABLE X86_PAGE_USER) =? Z.lor X86_PAGE_WRITABLE X86_PAGE_USER) &&
  eqb (negb (Z.land pte X86_PAGE_PRESENT =? 0)) present.
Definition expected_returns : list Z := [4; 2; 2; 1; PARTIAL_EINVAL; PARTIAL_EINVAL; 0; 0; PARTIAL_ENOSYS].
Definition expected_read_fault : PartialDispatchFaultObservation :=
  mkObservation PARTIAL_SOURCE_FAULT_ADDR 0 PARTIAL_READ_FAULT_RIP KERNEL_CODE_SELECTOR PAGE_FAULT_SAVED_RFLAGS
    PARTIAL_COMMON_FIXUP_RIP.
Definition expected_write_fault : PartialDispatchFaultObservation :=
  mkObservation PARTIAL_DEST_FAULT_ADDR (Z.shiftl 1 1) PARTIAL_WRITE_FAULT_RIP KERNEL_CODE_SELECTOR PAGE_FAULT_SAVED_RFLAGS
    PARTIAL_COMMON_FIXUP_RIP.
Definition validate_runtime_state (result : PartialDispatchGuestResult) (terminal_return_rip : Z) : res Error unit :=
  let expected_frame := mkTerminalFrame terminal_return_rip PRIVILEGE_USER_CODE_SELECTOR
    (Z.lor X86_RFLAGS_RESERVED X86_RFLAGS_IF) PRIVILEGE_USER_STACK PRIVILEGE_USER_DATA_SELECTOR in
  let mappings_valid := (len (user_page_ptes result) =? len USER_PAGES) &&
    forallb mapping_valid (zip (user_page_ptes result) USER_PAGES) in
  expected_rsp ← usub PRIVILEGE_TSS_RSP0 PRIVILEGE_FRAME_BYTES;
  expected_rip ← uadd 64 PRIVILEGE_TERMINAL_HANDLER 5;
  efer ← index (msrs result) 0;
  star ← index (msrs result) 1;
  lstar ← index (msrs result) 2;
  sfmask ← index (msrs result) 3;
  err_if (bool_decide (returns result ≠ expected_returns)
    || bool_decide (good_destination result ≠ PARTIAL_GOOD_BYTES)
    || bool_decide (source_fault_destination result ≠ take 2 PARTIAL_SOURCE_FAULT_BYTES ++ [0; 0])
    || bool_decide (destination_fault_destination result ≠ take 2 PARTIAL_DEST_FAULT_BYTES ++ [0; 0])
    || bool_decide (short_destination result ≠ take 1 PARTIAL_SHORT_BYTES ++ [0; 0; 0])
    || negb (byte_destination result =? PARTIAL_BYTE_VALUE)
    || bool_decide (read_fault result ≠ expected_read_fault)
    || bool_decide (write_fault result ≠ expected_write_fault)
    || bool_decide (fixup_entries result ≠ expected_fixup_entries)
    || negb mappings_valid
    || negb (Z.land (service_pte result) X86_PAGE_USER =? 0)
    || negb (Z.land (fault_handler_pte result) X86_PAGE_USER =? 0)
    || negb (Z.land (fault_metadata_pte result) X86_PAGE_USER =? 0)
    || bool_decide (terminal_frame result ≠ expected_frame)
    || negb (terminal_rsp result =? expected_rsp)
    || negb (terminal_cs result =? KERNEL_CODE_SELECTOR)
    || negb (Z.land (terminal_rflags result) X86_RFLAGS_RESERVED =? X86_RFLAGS_RESERVED)
    || negb (Z.land (terminal_rflags result) X86_RFLAGS_IF =? 0)
    || negb (final_cr2 result =? PARTIAL_DEST_FAULT_ADDR)
    || negb (Z.land efer EFER_SYSCALL_ENABLE =? EFER_SYSCALL_ENABLE)
    || negb (star =? SYSCALL_STAR_VALUE)
    || negb (lstar =? SYSCALL_LSTAR_VALUE)
    || negb (sfmask =? SYSCALL_SFMASK_VALUE)
    || match report_exit (report result) with VcpuRun.Hlt => false | _ => true end
    || negb (report_rip (report result) =? expected_rip)
    || negb (Z.land (report_rflags (report result)) X86_RFLAGS_RESERVED =? X86_RFLAGS_RESERVED))
    (verification_error "partial-copy dispatcher architectural state" "unexpected state").
End Partial.

(** ** The processor around the dispatcher

    [other] is the part of rflags that is not a status flag. *)
Module Faults.
Definition rflags_of (other : Z) (f : Flags) : Z := other + (if zf f then 64 else 0) + status f.
Definition flags_of (rflags : Z) : Flags := mkFlags (Z.testbit rflags 6) (Z.land rflags 0x895).
(** A page fault in ring 0 at an address that is not present: the frame and the error code go on
    the current stack, with the resume flag set, and CR2 holds the address. *)
Definition page_fault (handler other : Z) (write : bool) (a : Z) (c : Cpu) : Cpu :=
  let f := mkFrame (cpu_rip c) 0x08 (rflags_of other (cpu_flags c) + 2 ^ 16) (cpu_regs c RSP) 0x10 in
  let c := interrupt handler (cpu_regs c RSP / 16 * 16) f (with_reg c CR2 a) in
  let s := cpu_regs c RSP - 8 in
  with_ram (with_reg c RSP s) (wr64 (cpu_ram c) s (if write then 2 else 0)).
Definition resume (f : Frame) (c : Cpu) : Cpu :=
  mkCpu (frame_rip f) (upd (cpu_regs c) RSP (frame_rsp f)) (cpu_cr3 c) (flags_of (frame_rflags f)) (cpu_out c) (cpu_ram c).
(** The code at [base] runs; a fault runs the handler, whose [iretq] resumes the code. *)
Fixpoint service (faults : nat) (base : Z) (code : list Z) (handler : Z) (handler_code : list Z) (tr : Translation) (other : Z)
    (c : Cpu) : option (Stop * Cpu) :=
  match exec_in tr 60 base code c with
  | Some (Faulted write a, c) =>
      match faults with
      | O => None
      | S faults =>
          match exec_in tr 40 handler handler_code (page_fault handler other write a c) with
          | Some (Returned f, c) => service faults base code handler handler_code tr other (resume f c)
          | r => r
          end
      end
  | r => r
  end.
(** What the kernel relies on in a translation: its stack and its fault records are mapped to themselves. *)
Definition kernel_data (x : Z) : Prop := 0xb000 ≤ x < 0xc000 ∨ 0x1fd000 ≤ x < 0x1fe000.
Definition kernel_view (tr : Translation) : Prop :=
  ∀ w n a, 0 < n → 0xb000 ≤ a ∧ a + n ≤ 0xc000 ∨ 0x1fd000 ≤ a ∧ a + n ≤ 0x1fe000 → tr w n a = Some a.

(** ** The reference: a copy that stops at the first address that does not translate *)
Record Copied := mkCopied { copied : Z; stopped_at : option (bool * Z); copied_ram : GuestMemory }.
Fixpoint copy_range (tr : Translation) (n : nat) (i src dst : Z) (m : GuestMemory) : Copied :=
  match n with
  | O => mkCopied i None m
  | S n =>
      let s := (src + i) mod 2 ^ 64 in
      let d := (dst + i) mod 2 ^ 64 in
      match tr false 1 s with
      | None => mkCopied i (Some (false, s)) m
      | Some p =>
          match tr true 1 d with
          | None => mkCopied i (Some (true, d)) m
          | Some q => copy_range tr n (i + 1) src dst (wr8 m q (rd8 m p))
          end
      end
  end.
End Faults.
Import Partial Faults.
Definition partial_service : Translation → Z → Cpu → option (Stop * Cpu) :=
  service 1 SYSCALL_KERNEL_ENTRY PARTIAL_DISPATCHER_BYTES PARTIAL_PAGE_FAULT_HANDLER PAGE_FAULT_HANDLER_BYTES.

(** * Facts *)
Lemma upd_other f i v j : j ≠ i → upd f i v j = f j.
Proof. intros. unfold upd. by rewrite (proj2 (Z.eqb_neq _ _)). Qed.
Lemma sub_status_self x : sub_status 64 x x = 4.
Proof. unfold sub_status. cbv zeta. rewrite Z.sub_diag, !Z.ltb_irrefl, xorb_nilpotent. reflexivity. Qed.
Lemma odd_status cy ac ov w r : Z.odd (status_of cy ac ov w r) = cy.
Proof.
  unfold status_of, flag. rewrite !Z.odd_add. destruct cy, (even_parity r), ac, (Z.testbit r (w - 1)), ov; reflexivity.
Qed.
Lemma carry_sub b w x y : carry (mkFlags b (sub_status w x y)) = (x <? y).
Proof. apply odd_status. Qed.
Abbreviation R8 := 8.
Abbreviation RDX := 2.
Definition bytes_in (m : GuestMemory) : Prop := ∀ a, 0 ≤ rd8 m a < 256.
Lemma bytes_in_wr8 m q p : bytes_in m → bytes_in (wr8 m q (rd8 m p)).
Proof. intros H a. rewrite rd8_wr8. destruct (a =? q); apply H. Qed.
(** One round of the loop of the range copy. *)
Lemma copy_round tr fuel m regs cr3 fl out :
  bytes_in m → 0 ≤ regs R8 < 4 →
  let s := (regs RDI + regs R8) mod 2 ^ 64 in
  let d := (regs RSI + regs R8) mod 2 ^ 64 in
  exec_in tr (6 + fuel) 0x12000 PARTIAL_DISPATCHER_BYTES (mkCpu 0x12075 regs cr3 fl out m) =
  match tr false 1 s with
  | None => Some (Faulted false s, mkCpu 0x12078 regs cr3 (mkFlags true 4) out m)
  | Some p =>
      match tr true 1 d with
      | None => Some (Faulted true d, mkCpu 0x1207d (upd regs RAX (rd8 m p)) cr3 (mkFlags true 4) out m)
      | Some q =>
          exec_in tr fuel 0x12000 PARTIAL_DISPATCHER_BYTES
            (mkCpu (if regs R8 + 1 <? regs RDX then 0x12075 else 0x12089) (upd (upd regs RAX (rd8 m p)) R8 (regs R8 + 1)) cr3
               (mkFlags (same (regs R8 + 1) (regs RDX)) (sub_status 64 (regs R8 + 1) (regs RDX))) out (wr8 m q (rd8 m p)))
      end
  end.
Proof.
  intros Hb Hi s d. cbn [Nat.add]. unfold RDI, RSI, RAX in *. subst s d.
  assert (∀ x, same x x = true) as Hs by (intros; apply Z.eqb_refl).
  x86_step. rewrite sub_status_self, Hs. x86_step. rewrite !Z.add_0_r.
  destruct (tr false 1 _) as [p|]; [|done]. x86_step. rewrite !Z.add_0_r.
  destruct (tr true 1 _) as [q|]; [|done]. x86_step. x86_step. x86_step. rewrite carry_sub.
  assert (inc64 (regs 8) = regs 8 + 1) as -> by (unfold inc64; apply Z.mod_small; lia).
  assert (low8 (rd8 m p) = rd8 m p) as -> by (apply Z.mod_small, Hb).
  by destruct (_ <? _).
Qed.
Lemma copy_loop tr n : ∀ fuel m regs cr3 fl out,
  regs RDX = regs R8 + Z.of_nat (S n) → 0 ≤ regs R8 → regs RDX ≤ 4 → bytes_in m →
  let r := copy_range tr (S n) (regs R8) (regs RDI) (regs RSI) m in
  ∃ regs', regs' R8 = copied r ∧ (∀ j, j ≠ RAX → j ≠ R8 → regs' j = regs j) ∧
    match stopped_at r with
    | None => ∃ fl', exec_in tr (6 * S n + fuel) 0x12000 PARTIAL_DISPATCHER_BYTES (mkCpu 0x12075 regs cr3 fl out m) =
                     exec_in tr fuel 0x12000 PARTIAL_DISPATCHER_BYTES (mkCpu 0x12089 regs' cr3 fl' out (copied_ram r))
    | Some (w, a) => exec_in tr (6 * S n + fuel) 0x12000 PARTIAL_DISPATCHER_BYTES (mkCpu 0x12075 regs cr3 fl out m) =
        Some (Faulted w a, mkCpu (if w then 0x1207d else 0x12078) regs' cr3 (mkFlags true 4) out (copied_ram r))
    end.
Proof.
  induction n as [|n IH]; intros fuel m regs cr3 fl out Hd Hi Hmax Hb.
  all: assert (∀ k, 6 * S k + fuel = 6 + (6 * k + fuel))%nat as Hk by lia; rewrite Hk; clear Hk.
  all: rewrite copy_round by (done || lia); cbn [copy_range]; cbv zeta.
  all: destruct (tr false 1 _) as [p|]; [|by exists regs].
  all: destruct (tr true 1 _) as [q|]; [|exists (upd regs RAX (rd8 m p)); split_and!; [done|by intros; apply upd_other|done]].
  - rewrite (proj2 (Z.ltb_ge _ _)) by lia. exists (upd (upd regs RAX (rd8 m p)) R8 (regs R8 + 1)). split_and!; [done| |by eexists].
    intros. by rewrite !upd_other.
  - rewrite (proj2 (Z.ltb_lt _ _)) by lia.
    destruct (IH fuel (wr8 m q (rd8 m p)) (upd (upd regs RAX (rd8 m p)) R8 (regs R8 + 1)) cr3
      (mkFlags (same (regs R8 + 1) (regs RDX)) (sub_status 64 (regs R8 + 1) (regs RDX))) out) as (regs'&H8&Ho&H).
    1-4: cbn; try lia; try done.
    { by apply bytes_in_wr8. }
    exists regs'. split_and!; [exact H8| |exact H]. intros. rewrite Ho by done. by rewrite !upd_other.
Qed.
Definition fault_site (w : bool) : Z := if w then PARTIAL_WRITE_FAULT_RIP else PARTIAL_READ_FAULT_RIP.
Definition fault_record (w : bool) : Z :=
  if w then PARTIAL_WRITE_FAULT_OBSERVATION_ADDR else PARTIAL_READ_FAULT_OBSERVATION_ADDR.
Definition observation_at (m : GuestMemory) (a : Z) : PartialDispatchFaultObservation :=
  mkObservation (rd64 m a) (rd64 m (a + 8)) (rd64 m (a + 16)) (rd64 m (a + 24)) (rd64 m (a + 32)) (rd64 m (a + 40)).
Definition fixups_at (m : GuestMemory) : list PartialDispatchFixupEntry :=
  [mkFixup (rd64 m 0xb100) (rd64 m 0xb108) (rd64 m 0xb110); mkFixup (rd64 m 0xb118) (rd64 m 0xb120) (rd64 m 0xb128)].
Lemma read_fault_observation_at m a :
  tables_fit m → 0 ≤ a → a + 48 ≤ LONG_MODE_IDENTITY_MAP_SIZE → read_fault_observation m a = Ok (observation_at m a).
Proof.
  intros. unfold read_fault_observation, FAULT_OBSERVATION_BYTES, read_u64. rewrite read_fits by lia || done.
  cbn [mbind res_bind]. rewrite !field_at by lia. cbn [mbind res_bind]. by rewrite Z.add_0_r.
Qed.
Lemma read_fixup_table_at m : tables_fit m → read_fixup_table m = Ok (fixups_at m).
Proof.
  intros. unfold read_fixup_table, FIXUP_TABLE_BYTES, FIXUP_ENTRY_BYTES, PARTIAL_FIXUP_TABLE_ADDR, read_u64.
  rewrite read_fits by (done || (unfold LONG_MODE_IDENTITY_MAP_SIZE; lia)).
  cbn [mbind res_bind]. rewrite !field_at by lia. reflexivity.
Qed.
(** Everything but [n] bytes at [a] and the stack frame of a fault is as it was. *)
Definition fault_writes_only (a n : Z) (m m' : GuestMemory) : Prop :=
  tables_fit m' ∧ ∀ x, ¬ 0x1fdfd0 ≤ x < 0x1fe000 → x < a ∨ a + n ≤ x → rd8 m' x = rd8 m x.
Lemma page_fault_at handler other w a rip regs cr3 fl out m :
  regs RSP = 0x1fe000 →
  page_fault handler other w a (mkCpu rip regs cr3 fl out m) =
  mkCpu handler (upd (upd (upd regs CR2 a) RSP 0x1fdfd8) RSP 0x1fdfd0) cr3 fl out
    (wr64 (wr64 (wr64 (wr64 (wr64 (wr64 m 0x1fdff8 0x10) 0x1fdff0 0x1fe000) 0x1fdfe8 (rflags_of other fl + 2 ^ 16)) 0x1fdfe0 0x08)
       0x1fdfd8 rip) 0x1fdfd0 (if w then 2 else 0)).
Proof. intros H. unfold page_fault, interrupt. cbn [cpu_regs with_reg cpu_rip]. rewrite H. reflexivity. Qed.
Ltac kernel_run Hk tac :=
  repeat (first [progress (cbn match)|closed_same|rewrite Hk by lia; rd64_simpl|progress tac|x86_step; rd64_simpl]).
Lemma handler_recovers tr other w a regs cr3 out m :
  kernel_view tr → tables_fit m → fixups_at m = expected_fixup_entries → regs RSP = 0x1fe000 → u64 a →
  0 ≤ other < 2 ^ 62 →
  let rflags := other + 0x10044 in
  ∃ c, exec_in tr 40 0x14000 PAGE_FAULT_HANDLER_BYTES
         (page_fault 0x14000 other w a (mkCpu (fault_site w) regs cr3 (mkFlags true 4) out m)) =
       Some (Returned (mkFrame PARTIAL_COMMON_FIXUP_RIP 0x08 rflags 0x1fe000 0x10), c) ∧
    (∀ j, j ≠ RAX → j ≠ 2 → j ≠ RSP → j ≠ 9 → j ≠ R12 → j ≠ CR2 → cpu_regs c j = regs j) ∧ cpu_regs c CR2 = a ∧
    cpu_cr3 c = cr3 ∧ cpu_out c = out ∧
    observation_at (cpu_ram c) (fault_record w) =
      mkObservation a (if w then 2 else 0) (fault_site w) 0x08 rflags PARTIAL_COMMON_FIXUP_RIP ∧
    fault_writes_only (fault_record w) 48 m (cpu_ram c).
Proof.
  intros Hk Hf Ht Hs Ha Ho rflags. assert (memory_wf m) as Hm by apply Hf.
  unfold fixups_at, expected_fixup_entries in Ht. injection Ht as T1 T2 T3 T4 T5 T6.
  assert (u64 (other + 65604)) as Hr by ulia.
  rewrite page_fault_at by done. unfold rflags_of, RSP, CR2 in *. cbn [zf status].
  replace (other + 64 + 4 + 2 ^ 16) with (other + 65604) by lia.
  destruct w; cbn [fault_site fault_record].
  all: change PARTIAL_READ_FAULT_RIP with 0x12078 in *; change PARTIAL_WRITE_FAULT_RIP with 0x1207d in *;
    change PARTIAL_COMMON_FIXUP_RIP with 0x12098 in *; change PARTIAL_READ_FAULT_OBSERVATION_ADDR with 0xb000 in *;
    change PARTIAL_WRITE_FAULT_OBSERVATION_ADDR with 0xb040 in *.
  all: match goal with |- context [exec_in ?tr ?n ?b ?code ?c] => eassert (exec_in tr n b code c = _) as E end;
    [kernel_run Hk ltac:(rewrite ?T1, ?T2, ?T3, ?T4, ?T5, ?T6); reflexivity|].
  all: eexists; split; [exact E|]; clear E; cbn [cpu_rip cpu_regs cpu_cr3 cpu_flags cpu_out cpu_ram].
  all: unfold RAX, R12, observation_at; cbn [Z.add Pos.add Pos.succ Pos.add_carry]; upd_simpl; address_simpl; rd64_simpl.
  all: split_and!; [intros; by rewrite !upd_other|done..|].
  all: split; [by repeat apply wr64_fits|intros x Hx Hs'; rewrite ?rd8_wr64_out by lia; reflexivity].
Qed.
Lemma handler_refuses tr other w a rip regs cr3 out m :
  kernel_view tr → tables_fit m → fixups_at m = expected_fixup_entries → regs RSP = 0x1fe000 → u64 rip →
  rip ≠ fault_site true → rip ≠ fault_site false → 0 ≤ other < 2 ^ 62 →
  ∃ c, exec_in tr 40 0x14000 PAGE_FAULT_HANDLER_BYTES
         (page_fault 0x14000 other w a (mkCpu rip regs cr3 (mkFlags true 4) out m)) = Some (Halted, c) ∧
    cpu_out c = out ++ prints [0x58] ∧ fault_writes_only 0 0 m (cpu_ram c).
Proof.
  intros Hk Hf Ht Hs Hu Hw Hr Ho. assert (memory_wf m) as Hm by apply Hf.
  unfold fixups_at, expected_fixup_entries in Ht. injection Ht as T1 _ _ T4 _ _.
  assert (u64 (other + 65604)) by ulia.
  assert (u64 (if w then 2 else 0)) by (by destruct w).
  rewrite page_fault_at by done. unfold rflags_of, RSP, CR2, fault_site in *. cbn [zf status].
  replace (other + 64 + 4 + 2 ^ 16) with (other + 65604) by lia.
  assert (same rip 0x12078 = false) as E1 by (by apply Z.eqb_neq).
  assert (same rip 0x1207d = false) as E2 by (by apply Z.eqb_neq).
  change PARTIAL_READ_FAULT_RIP with 0x12078 in T1. change PARTIAL_WRITE_FAULT_RIP with 0x1207d in T4.
  match goal with |- context [exec_in ?tr ?n ?b ?code ?c] => eassert (exec_in tr n b code c = _) as E end;
    [kernel_run Hk ltac:(rewrite ?T1, ?T4, ?E1, ?E2); reflexivity|].
  eexists; split; [exact E|]; clear E. cbn [cpu_out cpu_ram]. rewrite low8_set_al by lia. split; [done|].
  split; [by repeat apply wr64_fits|intros x Hx Hs'; rewrite ?rd8_wr64_out by lia; reflexivity].
Qed.

(** ** The services *)
(** The registers a call may change: the result, the scratch registers of the dispatcher and of the fault handler. *)
Definition clobbered : list Z := [RAX; RDX; R8; 9; 10; R12; CR2].
(** [run] leaves the kernel for the user's next instruction with [result], having changed only registers of [changed]. *)
Definition leaves_with (run : Cpu → option (Stop * Cpu)) (changed : list Z) (c : Cpu) (result cr2 : Z) (text : list Z)
    (post : GuestMemory → Prop) : Prop :=
  ∃ c', run c = Some (SysReturned (cpu_regs c RCX) (cpu_regs c R11), c') ∧
    cpu_regs c' RAX = result ∧ cpu_regs c' CR2 = cr2 ∧ (∀ j, j ∉ changed → cpu_regs c' j = cpu_regs c j) ∧
    cpu_cr3 c' = cpu_cr3 c ∧ cpu_out c' = cpu_out c ++ prints text ∧ post (cpu_ram c').
Definition returns_to_user (tr : Translation) (other : Z) : Cpu → Z → Z → list Z → (GuestMemory → Prop) → Prop :=
  leaves_with (partial_service tr other) clobbered.
(** The call as the processor enters the kernel. *)
Definition at_entry (regs : Z → Z) (cr3 : Z) (fl : Flags) (out : list (Z * Z)) (m : GuestMemory) : Cpu :=
  mkCpu SYSCALL_LSTAR_VALUE regs cr3 fl out m.
Lemma kept_regs (regs f : Z → Z) : (∀ j, j ∉ clobbered → j ≠ RSP → f j = regs j) → f RSP = regs RSP → ∀ j, j ∉ clobbered → f j = regs j.
Proof. intros H Hs j Hj. destruct (decide (j = RSP)) as [->|]; auto. Qed.
Lemma service_done faults base code h hc tr other c s c' :
  exec_in tr 60 base code c = Some (s, c') → (∀ w a, s ≠ Faulted w a) → service faults base code h hc tr other c = Some (s, c').
Proof. intros E H. destruct faults, s; cbn [service]; rewrite E; try done; by destruct (H write address). Qed.
Lemma service_fault faults base code h hc tr other c w a c1 :
  exec_in tr 60 base code c = Some (Faulted w a, c1) →
  service (S faults) base code h hc tr other c =
    match exec_in tr 40 h hc (page_fault h other w a c1) with
    | Some (Returned f, c) => service faults base code h hc tr other (resume f c)
    | r => r
    end.
Proof. intros E. cbn [service]. by rewrite E. Qed.
(** A call that ends without a fault. *)
Lemma call_done tr other regs cr3 fl out m result text (post : GuestMemory → Prop) c' :
  exec_in tr 60 0x12000 PARTIAL_DISPATCHER_BYTES (mkCpu 0x12000 regs cr3 fl out m) =
    Some (SysReturned (regs RCX) (regs R11), c') →
  cpu_regs c' RAX = result → cpu_regs c' CR2 = regs CR2 → (∀ j, j ∉ clobbered → cpu_regs c' j = regs j) → cpu_cr3 c' = cr3 →
  cpu_out c' = out ++ prints text → post (cpu_ram c') →
  returns_to_user tr other (at_entry regs cr3 fl out m) result (regs CR2) text post.
Proof. intros E. exists c'. split; [by apply service_done|]. by split_and!. Qed.
Ltac kept_tac :=
  apply kept_regs; [intros j Hj Hs; unfold clobbered in Hj; rewrite !not_elem_of_cons in Hj; destruct_and! Hj;
                    rewrite ?upd_other by assumption; reflexivity|reflexivity].
Ltac call_run tac := repeat (first [progress (cbn match)|progress (cbn [negb andb])|closed_same|progress tac|x86_step]).
Ltac call_end :=
  eapply call_done; [match goal with H : exec_in _ _ _ _ _ = _ |- _ => exact H end|cbn [cpu_regs cpu_cr3 cpu_out cpu_ram]; upd_simpl; rewrite ?low8_set_al by lia..];
  [try (by rewrite ?Z.lxor_nilpotent)|reflexivity|try kept_tac|done|try done|try done].
Lemma call_unknown tr other regs cr3 fl out m :
  regs RAX ≠ 0 → regs RAX ≠ 1 → regs RAX ≠ 2 →
  returns_to_user tr other (at_entry regs cr3 fl out m) PARTIAL_ENOSYS (regs CR2) [0x55] (λ m', m' = m).
Proof.
  intros H0 H1 H2. apply Z.eqb_neq in H0, H1, H2. unfold RAX in *.
  eassert (exec_in tr 60 0x12000 PARTIAL_DISPATCHER_BYTES (mkCpu 0x12000 regs cr3 fl out m) =
          Some (SysReturned (regs RCX) (regs R11), _)) as E
    by (call_run ltac:(unfold same; rewrite ?H0, ?H1, ?H2); reflexivity).
  call_end.
Qed.
Lemma call_putc tr other regs cr3 fl out m :
  regs RAX = 1 → returns_to_user tr other (at_entry regs cr3 fl out m) 0 (regs CR2) [low8 (regs RDI)] (λ m', m' = m).
Proof.
  intros H. unfold RAX in *.
  eassert (exec_in tr 60 0x12000 PARTIAL_DISPATCHER_BYTES (mkCpu 0x12000 regs cr3 fl out m) =
          Some (SysReturned (regs RCX) (regs R11), _)) as E
    by (call_run ltac:(rewrite ?H); reflexivity).
  call_end. rewrite low8_set_al; [done|by apply Z.mod_pos_bound].
Qed.
Lemma call_length tr other regs cr3 fl out m :
  regs RAX = 2 → u64 (regs RDX) → regs RDX = 0 ∨ PARTIAL_COPY_MAX_LEN < regs RDX →
  returns_to_user tr other (at_entry regs cr3 fl out m) PARTIAL_EINVAL (regs CR2) [0x49] (λ m', m' = m).
Proof.
  intros H Hu Hd. unfold RAX, PARTIAL_COPY_MAX_LEN in *.
  assert (Z.land (regs 2) (regs 2) = regs 2) as Hl by apply Z.land_diag.
  destruct Hd as [Hd|Hd].
  - eassert (exec_in tr 60 0x12000 PARTIAL_DISPATCHER_BYTES (mkCpu 0x12000 regs cr3 fl out m) =
          Some (SysReturned (regs RCX) (regs R11), _)) as E
      by (call_run ltac:(rewrite ?H, ?Hl, ?Hd); reflexivity).
    call_end.
  - assert (same (regs 2) 0 = false) as H0 by (apply Z.eqb_neq; lia).
    assert (same (regs 2) 4 = false) as H4 by (apply Z.eqb_neq; lia).
    assert ((regs 2 <? 4) = false) as Hc by (apply Z.ltb_ge; lia).
    eassert (exec_in tr 60 0x12000 PARTIAL_DISPATCHER_BYTES (mkCpu 0x12000 regs cr3 fl out m) =
          Some (SysReturned (regs RCX) (regs R11), _)) as E
      by (call_run ltac:(rewrite ?H, ?Hl, ?H0, ?H4, ?carry_sub, ?Hc); reflexivity).
    call_end.
Qed.
Lemma call_byte tr other regs cr3 fl out m p q :
  bytes_in m → regs RAX = 0 → tr false 1 (regs RDI mod 2 ^ 64) = Some p → tr true 1 (regs RSI mod 2 ^ 64) = Some q →
  returns_to_user tr other (at_entry regs cr3 fl out m) 0 (regs CR2) [0x43] (λ m', m' = wr8 m q (rd8 m p)).
Proof.
  intros Hb H Hp Hq. unfold RAX, RDI, RSI in *.
  assert (low8 (rd8 m p) = rd8 m p) as Hl by (apply Z.mod_small, Hb).
  eassert (exec_in tr 60 0x12000 PARTIAL_DISPATCHER_BYTES (mkCpu 0x12000 regs cr3 fl out m) =
          Some (SysReturned (regs RCX) (regs R11), _)) as E
    by (call_run ltac:(rewrite ?H, ?Z.add_0_r, ?Hp, ?Hq, ?Hl); reflexivity).
  call_end.
Qed.
(** A fault of the single-byte copy is not in the table: the handler stops the machine. *)
Lemma call_byte_fault tr other regs cr3 fl out m :
  kernel_view tr → tables_fit m → fixups_at m = expected_fixup_entries → 0 ≤ other < 2 ^ 62 → regs RAX = 0 →
  tr false 1 (regs RDI mod 2 ^ 64) = None ∨ tr true 1 (regs RSI mod 2 ^ 64) = None →
  ∃ c, partial_service tr other (at_entry regs cr3 fl out m) = Some (Halted, c) ∧ cpu_out c = out ++ prints [0x58] ∧
    fault_writes_only 0 0 m (cpu_ram c).
Proof.
  intros Hk Hf Ht Ho H Hn. unfold RAX, RDI, RSI in *.
  assert (∃ w a rip regs', exec_in tr 60 0x12000 PARTIAL_DISPATCHER_BYTES (mkCpu 0x12000 regs cr3 fl out m) =
      Some (Faulted w a, mkCpu rip regs' cr3 (mkFlags true 4) out m) ∧ regs' RSP = 0x1fe000 ∧ 0x12026 ≤ rip ≤ 0x12029)
    as (w&a&rip&regs'&E&Hs&Hr).
  { destruct (tr false 1 (regs 7 mod 2 ^ 64)) as [p|] eqn:Ep; [destruct Hn as [|Hn]; [done|]|];
      do 4 eexists; (split; [call_run ltac:(rewrite ?H, ?Z.add_0_r, ?Ep, ?Hn); reflexivity|by split]). }
  unfold partial_service. rewrite (service_fault _ _ _ _ _ _ _ _ _ _ _ E).
  destruct (handler_refuses tr other w a rip regs' cr3 out m) as (c&Ec&Hout&Hw); [done..|ulia|change (rip ≠ 0x1207d); lia|change (rip ≠ 0x12078); lia|done|].
  exists c. split; [|by split]. change PARTIAL_PAGE_FAULT_HANDLER with 0x14000. by rewrite Ec.
Qed.
(** The range copy, with the fault it recovers from. *)
Definition apart_from_kernel (tr : Translation) (dst n : Z) : Prop :=
  ∀ i p, 0 ≤ i < n → tr true 1 ((dst + i) mod 2 ^ 64) = Some p → 0 ≤ p < LONG_MODE_IDENTITY_MAP_SIZE ∧ ¬ kernel_data p.
Lemma fits_bytes m : tables_fit m → bytes_in m.
Proof. intros ((_&_&H)&_) a. apply H. Qed.
Lemma copy_range_kept tr n : ∀ i src dst m,
  tables_fit m →
  (∀ j p, i ≤ j < i + Z.of_nat n → tr true 1 ((dst + j) mod 2 ^ 64) = Some p → ¬ kernel_data p) →
  let r := copy_range tr n i src dst m in
  tables_fit (copied_ram r) ∧ ∀ x, kernel_data x → rd8 (copied_ram r) x = rd8 m x.
Proof.
  induction n as [|n IH]; intros i src dst m Hf Ha; cbn [copy_range]; [done|].
  destruct (tr false 1 _) as [p|]; [|done]. destruct (tr true 1 _) as [q|] eqn:Eq; [|done].
  destruct (IH (i + 1) src dst (wr8 m q (rd8 m p))) as [H1 H2].
  - apply wr8_fits; [by apply fits_bytes|done].
  - intros j p' Hj. apply Ha. lia.
  - split; [done|]. intros x Hx. rewrite H2, rd8_wr8 by done.
    assert (x ≠ q) by (intros ->; by eapply Ha; [|exact Eq|]; [lia|]). by rewrite (proj2 (Z.eqb_neq _ _)).
Qed.
Lemma kept_fixups m m' : tables_fit m → tables_fit m' → (∀ x, 0xb100 ≤ x < 0xb130 → rd8 m' x = rd8 m x) → fixups_at m' = fixups_at m.
Proof. intros Hf Hf' H. unfold fixups_at. by rewrite !(rd64_agree m m') by (done || intros; apply H; lia). Qed.
Lemma stopped_u64 tr n : ∀ i src dst m w a, stopped_at (copy_range tr n i src dst m) = Some (w, a) → u64 a.
Proof.
  induction n as [|n IH]; intros i src dst m w a; cbn [copy_range]; [done|].
  destruct (tr false 1 _); [|intros [= <- <-]; by apply Z.mod_pos_bound].
  destruct (tr true 1 _); [apply IH|intros [= <- <-]; by apply Z.mod_pos_bound].
Qed.
(** The end of a range copy, whole or cut short: the count goes to the user. *)
Lemma range_epilogue tr k (short : bool) regs cr3 fl out m :
  ∃ c, exec_in tr (8 + k) 0x12000 PARTIAL_DISPATCHER_BYTES (mkCpu (if short then 0x12098 else 0x12089) regs cr3 fl out m) =
       Some (SysReturned (regs RCX) (regs R11), c) ∧
    cpu_regs c RAX = regs R8 ∧ cpu_regs c RSP = regs 10 ∧ cpu_regs c CR2 = regs CR2 ∧
    (∀ j, j ∉ clobbered → j ≠ RSP → cpu_regs c j = regs j) ∧
    cpu_cr3 c = cr3 ∧ cpu_out c = out ++ prints [if short then 0x46 else 0x4d] ∧ cpu_ram c = m.
Proof.
  cbn [Nat.add].
  destruct short; (eexists; split; [call_run idtac; reflexivity|]); cbn [cpu_regs cpu_cr3 cpu_out cpu_ram]; upd_simpl;
    rewrite low8_set_al by lia; (split_and!; [done|done|done| |done|done|done]);
    intros j Hj Hs; unfold clobbered in Hj; rewrite !not_elem_of_cons in Hj; destruct_and! Hj; by rewrite !upd_other.
Qed.
Lemma range_entry tr regs cr3 fl out m :
  regs RAX = 2 → 0 < regs RDX ≤ PARTIAL_COPY_MAX_LEN →
  ∃ fl', exec_in tr 60 0x12000 PARTIAL_DISPATCHER_BYTES (mkCpu 0x12000 regs cr3 fl out m) =
    exec_in tr 47 0x12000 PARTIAL_DISPATCHER_BYTES
      (mkCpu 0x12075 (upd (upd (upd regs 10 (regs RSP)) RSP 0x1fe000) R8 0) cr3 fl' out m).
Proof.
  intros H Hd. unfold RAX, PARTIAL_COPY_MAX_LEN in *.
  assert (Z.land (regs 2) (regs 2) = regs 2) as Hl by apply Z.land_diag.
  assert (same (regs 2) 0 = false) as H0 by (apply Z.eqb_neq; lia).
  assert (negb (same (regs 2) 4) && negb (regs 2 <? 4) = false) as H4.
  { unfold same. destruct (Z.eqb_spec (regs 2) 4); [done|]. by rewrite (proj2 (Z.ltb_lt _ _)) by lia. }
  eexists. do 13 (x86_step; rewrite ?H, ?Hl, ?H0, ?carry_sub, ?H4; repeat first [closed_same|progress (cbn match)]).
  rewrite Z.lxor_nilpotent. reflexivity.
Qed.
(** Up to the end of the copy or its first fault. *)
Lemma range_runs tr regs cr3 fl out m :
  tables_fit m → regs RAX = 2 → 0 < regs RDX ≤ PARTIAL_COPY_MAX_LEN →
  let r := copy_range tr (Z.to_nat (regs RDX)) 0 (regs RDI) (regs RSI) m in
  let run := exec_in tr 60 0x12000 PARTIAL_DISPATCHER_BYTES (mkCpu 0x12000 regs cr3 fl out m) in
  ∃ regs', regs' R8 = copied r ∧ regs' 10 = regs RSP ∧ regs' RSP = 0x1fe000 ∧ regs' CR2 = regs CR2 ∧
    (∀ j, j ∉ clobbered → j ≠ RSP → regs' j = regs j) ∧
    match stopped_at r with
    | None => ∃ k fl', run = exec_in tr (8 + k) 0x12000 PARTIAL_DISPATCHER_BYTES (mkCpu 0x12089 regs' cr3 fl' out (copied_ram r))
    | Some (w, a) => run = Some (Faulted w a, mkCpu (fault_site w) regs' cr3 (mkFlags true 4) out (copied_ram r))
    end.
Proof.
  intros Hf H Hd r run. subst run. destruct (range_entry tr regs cr3 fl out m H Hd) as [fl1 ->]. unfold PARTIAL_COPY_MAX_LEN in *.
  assert (∃ n, regs RDX = Z.of_nat (S n)) as [n Hn] by (exists (Nat.pred (Z.to_nat (regs RDX))); lia).
  assert (∃ k, 47 = 6 * S n + (8 + k))%nat as [k Hfuel] by (exists (47 - 6 * S n - 8)%nat; lia).
  destruct (copy_loop tr n (8 + k) m (upd (upd (upd regs 10 (regs RSP)) RSP 0x1fe000) R8 0) cr3 fl1 out)
    as (regs2&H8&Hk2&HL); [cbn; lia|done|cbn; lia|by apply fits_bytes|].
  rewrite <- Hfuel in HL. replace (S n) with (Z.to_nat (regs RDX)) in H8, HL by lia.
  exists regs2. split_and!; [exact H8|by rewrite Hk2|by rewrite Hk2|by rewrite Hk2| |].
  - intros j Hj ?. unfold clobbered in Hj. rewrite !not_elem_of_cons in Hj. destruct_and! Hj. rewrite Hk2 by done. by rewrite !upd_other.
  - change (copy_range tr _ _ _ _ _) with r in HL. destruct (stopped_at r) as [[w a]|]; [exact HL|]. destruct HL as [fl' ->]. by eexists _, _.
Qed.
(** A fault of the copy is recorded, and the service goes on at the fixup. *)
Lemma range_recovers tr other w a regs cr3 out m :
  kernel_view tr → tables_fit m → fixups_at m = expected_fixup_entries → 0 ≤ other < 2 ^ 62 → regs RSP = 0x1fe000 → u64 a →
  ∃ c, match exec_in tr 40 0x14000 PAGE_FAULT_HANDLER_BYTES
               (page_fault 0x14000 other w a (mkCpu (fault_site w) regs cr3 (mkFlags true 4) out m)) with
       | Some (Returned f, c) => service 0 0x12000 PARTIAL_DISPATCHER_BYTES 0x14000 PAGE_FAULT_HANDLER_BYTES tr other (resume f c)
       | r => r
       end = Some (SysReturned (regs RCX) (regs R11), c) ∧
    cpu_regs c RAX = regs R8 ∧ cpu_regs c RSP = regs 10 ∧ cpu_regs c CR2 = a ∧
    (∀ j, j ∉ clobbered → j ≠ RSP → cpu_regs c j = regs j) ∧
    cpu_cr3 c = cr3 ∧ cpu_out c = out ++ prints [0x46] ∧
    observation_at (cpu_ram c) (fault_record w) =
      mkObservation a (if w then 2 else 0) (fault_site w) 0x08 (other + 0x10044) PARTIAL_COMMON_FIXUP_RIP ∧
    fault_writes_only (fault_record w) 48 m (cpu_ram c).
Proof.
  intros Hk Hf Ht Ho Hs Ha.
  destruct (handler_recovers tr other w a regs cr3 out m) as (c&->&Hc&Hc2&Hcr3&Hout&Hobs&Hw); [done..|].
  destruct (range_epilogue tr 52 true (upd (cpu_regs c) RSP 0x1fe000) (cpu_cr3 c) (flags_of (other + 0x10044)) (cpu_out c) (cpu_ram c))
    as (c'&E&Hax&Hsp&Hcr2&Hr&Hcr&Ho'&Hm).
  exists c'. rewrite Hax, Hsp, Hcr2, Hcr, Ho', Hm, Hcr3, Hout.
  split_and!; [|by rewrite upd_other, Hc|by rewrite upd_other, Hc|by rewrite upd_other| |done..].
  - rewrite (service_done 0 _ _ _ _ _ _ _ _ _ E) by done. by rewrite !upd_other, !Hc.
  - intros j Hj Hsj. rewrite Hr, upd_other by done. unfold clobbered in Hj. rewrite !not_elem_of_cons in Hj. destruct_and! Hj. by apply Hc.
Qed.
Lemma call_range tr other regs cr3 fl out m :
  kernel_view tr → tables_fit m → fixups_at m = expected_fixup_entries → 0 ≤ other < 2 ^ 62 →
  regs RAX = 2 → 0 < regs RDX ≤ PARTIAL_COPY_MAX_LEN → apart_from_kernel tr (regs RSI) (regs RDX) →
  let r := copy_range tr (Z.to_nat (regs RDX)) 0 (regs RDI) (regs RSI) m in
  match stopped_at r with
  | None => returns_to_user tr other (at_entry regs cr3 fl out m) (copied r) (regs CR2) [0x4d] (λ m', m' = copied_ram r)
  | Some (w, a) => returns_to_user tr other (at_entry regs cr3 fl out m) (copied r) a [0x46] (λ m',
      observation_at m' (fault_record w) =
        mkObservation a (if w then 2 else 0) (fault_site w) 0x08 (other + 0x10044) PARTIAL_COMMON_FIXUP_RIP ∧
      fault_writes_only (fault_record w) 48 (copied_ram r) m')
  end.
Proof.
  intros Hk Hf Ht Ho H Hd Ha r. destruct (range_runs tr regs cr3 fl out m Hf H Hd) as (regs2&H8&H10&H4&Hc2&Hr&E). fold r in H8, E.
  assert (regs2 RCX = regs RCX ∧ regs2 R11 = regs R11) as [Hcx H11] by (split; apply Hr; (set_solver || done)).
  destruct (stopped_at r) as [[w a]|] eqn:Es.
  - destruct (copy_range_kept tr (Z.to_nat (regs RDX)) 0 (regs RDI) (regs RSI) m Hf) as [Hf' Hkept].
    { intros j p Hj Hp. eapply Ha; [|exact Hp]. lia. }
    fold r in Hf', Hkept.
    destruct (range_recovers tr other w a regs2 cr3 out (copied_ram r)) as (c&Ec&Hax&Hsp&Hcr2&Hc&Hcr3&Hout&Hobs&Hw); [done|done| |done|done| |].
    { rewrite <- Ht. apply kept_fixups; [done..|]. intros x Hx. apply Hkept. unfold kernel_data. lia. }
    { by eapply stopped_u64. }
    exists c. split_and!; [|congruence|done| |done|done|done|done].
    + unfold partial_service. rewrite (service_fault _ _ _ _ _ _ _ _ _ _ _ E). cbn [at_entry cpu_regs]. by rewrite <- Hcx, <- H11.
    + cbn [at_entry cpu_regs]. apply kept_regs; [|congruence]. intros. rewrite Hc by done. auto.
  - destruct E as (k&fl'&E). destruct (range_epilogue tr k false regs2 cr3 fl' out (copied_ram r)) as (c&Ec&Hax&Hsp&Hcr2&Hc&Hcr3&Hout&Hm).
    eapply call_done; [by rewrite E, Ec, Hcx, H11|congruence|congruence| |done|done|done].
    apply kept_regs; [|congruence]. intros. rewrite Hc by done. auto.
Qed.

(** ** What the reference copies *)
Section copies.
Context (tr : Translation) (src dst : Z).
Definition read_at (i : Z) : option Z := tr false 1 ((src + i) mod 2 ^ 64).
Definition write_at (i : Z) : option Z := tr true 1 ((dst + i) mod 2 ^ 64).
(** The copy ends at the length, or before it at the first address that does not translate. *)
Lemma copy_range_stops n : ∀ i m,
  let r := copy_range tr n i src dst m in
  i ≤ copied r ≤ i + Z.of_nat n ∧
  (∀ j, i ≤ j < copied r → is_Some (read_at j) ∧ is_Some (write_at j)) ∧
  match stopped_at r with
  | None => copied r = i + Z.of_nat n
  | Some (w, a) => copied r < i + Z.of_nat n ∧ tr w 1 a = None ∧ a = ((if w then dst else src) + copied r) mod 2 ^ 64 ∧
      (w = true → is_Some (read_at (copied r)))
  end.
Proof.
  induction n as [|n IH]; intros i m; cbn [copy_range]; [cbn; split_and!; [lia..|intros; lia|lia]|].
  destruct (tr false 1 _) as [p|] eqn:Ep; [|cbn; split_and!; [lia..|intros; lia|lia|done|done|done]].
  destruct (tr true 1 _) as [q|] eqn:Eq; [|cbn; split_and!; [lia..|intros; lia|lia|done|done|done]].
  destruct (IH (i + 1) (wr8 m q (rd8 m p))) as (H1&H2&H3). split_and!; [lia..| |].
  - intros j Hj. destruct (decide (j = i)) as [->|]; [by split; eexists|]. apply H2. lia.
  - destruct (stopped_at _) as [[]|]; [|lia]. destruct H3 as (?&?&?&?). split_and!; [lia|done..].
Qed.
(** It writes what the destinations translate to and nothing else. *)
Lemma copy_range_writes n : ∀ i m x,
  let r := copy_range tr n i src dst m in
  (∀ j, i ≤ j < copied r → write_at j ≠ Some x) → rd8 (copied_ram r) x = rd8 m x.
Proof.
  induction n as [|n IH]; intros i m x; cbn [copy_range]; [done|].
  destruct (tr false 1 _) as [p|] eqn:Ep; [|done]. destruct (tr true 1 _) as [q|] eqn:Eq; [|done]. intros H.
  pose proof (copy_range_stops n (i + 1) (wr8 m q (rd8 m p))) as (Hc&_).
  rewrite IH by (intros; apply H; lia). rewrite rd8_wr8.
  assert (x ≠ q) by (intros ->; by apply (H i); [lia|]). by rewrite (proj2 (Z.eqb_neq _ _)).
Qed.
(** Where destinations are distinct and no source, each holds its source's byte. *)
Lemma copy_range_copies n : ∀ i m,
  let r := copy_range tr n i src dst m in
  (∀ j k q, i ≤ j < copied r → i ≤ k < copied r → write_at j = Some q → write_at k = Some q → j = k) →
  (∀ j k q, i ≤ j < copied r → i ≤ k < copied r → write_at j = Some q → read_at k ≠ Some q) →
  ∀ j p q, i ≤ j < copied r → read_at j = Some p → write_at j = Some q → rd8 (copied_ram r) q = rd8 m p.
Proof.
  induction n as [|n IH]; intros i m; cbn [copy_range]; [cbn; intros; lia|].
  destruct (tr false 1 _) as [p0|] eqn:Ep; [|cbn; intros; lia]. destruct (tr true 1 _) as [q0|] eqn:Eq; [|cbn; intros; lia].
  pose proof (copy_range_stops n (i + 1) (wr8 m q0 (rd8 m p0))) as (Hc&_).
  intros Hd Hs j p q Hj Hp Hq. destruct (decide (j = i)) as [->|].
  - rewrite copy_range_writes.
    + unfold read_at in Hp. unfold write_at in Hq. rewrite Ep in Hp. rewrite Eq in Hq. injection Hp as ->. injection Hq as ->.
      by rewrite rd8_wr8, Z.eqb_refl.
    + intros k Hk E. specialize (Hd i k q ltac:(lia) ltac:(lia) Hq E). lia.
  - rewrite (IH (i + 1) _) with (j := j) (p := p); [| | |lia|done|done].
    + rewrite rd8_wr8. assert (p ≠ q0) by (intros ->; exact (Hs i j q0 ltac:(lia) ltac:(lia) Eq Hp)). by rewrite (proj2 (Z.eqb_neq _ _)).
    + intros j' k' q' Hj' Hk'. exact (Hd j' k' q' ltac:(lia) ltac:(lia)).
    + intros j' k' q' Hj' Hk'. exact (Hs j' k' q' ltac:(lia) ltac:(lia)).
Qed.
End copies.

(** A source that runs into a page that is not there. *)
Definition hole : Translation := λ _ _ a, if (0x25000 <=? a) && (a <? 0x26000) then None else Some a.
Definition example_memory : GuestMemory := mem_set boot_memory PARTIAL_FIXUP_TABLE_ADDR encoded_fixup_table.
Definition example_regs (j : Z) : Z :=
  if j =? RAX then 2 else if j =? RDI then 0x24ffe else if j =? RSI then 0x26ffe else if j =? RDX then 4 else 0.
Lemma example_memory_fits : tables_fit example_memory.
Proof.
  eapply window_fits; [apply (window_set 0xb100 0xb130); [done|done|apply bytes_ok_dec; vm_compute; reflexivity]|apply boot_fits].
Qed.
