(* ===== verification/UserGuest.v ===== *)
(** The guest of [src/src/syscall/partial_dispatch.rs] from end to end: the memory
    [run_partial_dispatch_guest] prepares, the user program that makes nine system calls, the terminal handler, and
    the host's verdict on what it reads back.

    The translations are the page walks over the tables in memory; [UserCopy] supplies the services. *)

From S2P Require Import Prelude Errors Memory Loader LongMode Boot GuestTables Privilege VcpuRun Execution X86 Tasks TaskSwitch UserCopy.
Import Rings Spaces Partial Faults.

(** * Definitions *)
Definition KERNEL_BOOT_BYTES : list Z :=
  [0xfa; 0x66; 0xb8; 0x28; 0x00; 0x0f; 0x00; 0xd8; 0x6a; 0x1b; 0x48; 0xb8; 0x00; 0xd0; 0x1f; 0x00;
   0x00; 0x00; 0x00; 0x00; 0x50; 0x68; 0x02; 0x02; 0x00; 0x00; 0x6a; 0x23; 0x48; 0xb8; 0x00; 0x10;
   0x01; 0x00; 0x00; 0x00; 0x00; 0x00; 0x50; 0x48; 0xcf].
(** [run_partial_dispatch_guest] up to [vm.register_guest_memory]; the KVM calls between
    these steps do not touch the memory. *)
Definition prepare_partial_guest (mmap : Z → res io_error store) : res Error (LongModePrivilegeLayout * GuestMemory) :=
  kernel ← flat_new PRIVILEGE_KERNEL_ENTRY PRIVILEGE_KERNEL_ENTRY KERNEL_BOOT_BYTES;
  user ← flat_new PRIVILEGE_USER_ENTRY PRIVILEGE_USER_ENTRY build_user_guest;
  dispatcher ← flat_new SYSCALL_KERNEL_ENTRY SYSCALL_KERNEL_ENTRY PARTIAL_DISPATCHER_BYTES;
  page_fault_handler ← flat_new PARTIAL_PAGE_FAULT_HANDLER PARTIAL_PAGE_FAULT_HANDLER PAGE_FAULT_HANDLER_BYTES;
  terminal_handler ← flat_new PRIVILEGE_TERMINAL_HANDLER PRIVILEGE_TERMINAL_HANDLER TERMINAL_HANDLER_BYTES;
  memory ← memory_new mmap 0 LONG_MODE_IDENTITY_MAP_SIZE;
  layout ← DeviceInterrupts.expect_ok (privilege_layout_new memory.(region));
  memory ← DeviceInterrupts.on_memory (install_privilege_tables layout) memory;
  memory ← DeviceInterrupts.on_memory install_user_mappings memory;
  memory ← DeviceInterrupts.on_memory install_page_fault_gate memory;
  memory ← flat_load kernel memory;
  memory ← flat_load user memory;
  memory ← flat_load dispatcher memory;
  memory ← flat_load page_fault_handler memory;
  memory ← flat_load terminal_handler memory;
  memory ← DeviceInterrupts.on_memory initialize_data memory;
  memory ← DeviceInterrupts.on_memory (write_mut PARTIAL_RESULT_ADDR (replicate 72 0)) memory;
  memory ← DeviceInterrupts.on_memory (write_mut PARTIAL_READ_FAULT_OBSERVATION_ADDR (replicate 48 0)) memory;
  memory ← DeviceInterrupts.on_memory (write_mut PARTIAL_WRITE_FAULT_OBSERVATION_ADDR (replicate 48 0)) memory;
  memory ← DeviceInterrupts.on_memory (write_mut PARTIAL_FIXUP_TABLE_ADDR encoded_fixup_table) memory;
  Ok (layout, memory).

(** * Facts *)

(** ** Sequences of writes to disjoint places *)
Definition apply_writes (l : list (Z * list Z)) (m : GuestMemory) : GuestMemory :=
  foldl (λ m '(a, bs), mem_set m a bs) m l.
Definition apart (a n b k : Z) : bool := (a + n <=? b) || (b + k <=? a).
Fixpoint all_apart (l : list (Z * list Z)) : bool :=
  match l with
  | [] => true
  | (a, bs) :: l => forallb (λ '(b, cs), apart a (len bs) b (len cs)) l && all_apart l
  end.
Definition writes_ok (l : list (Z * list Z)) : bool :=
  forallb (λ '(a, bs), (0 <=? a) && (a + len bs <=? LONG_MODE_IDENTITY_MAP_SIZE) && forallb (λ b, (0 <=? b) && (b <? 256)) bs) l.
Lemma apply_writes_out l : ∀ m a n,
  0 ≤ n → forallb (λ '(b, cs), apart a n b (len cs)) l = true → mem_get (apply_writes l m) a n = mem_get m a n.
Proof.
  induction l as [|[b cs] l IH]; intros m a n Hn; [done|]. cbn [forallb]. intros [Hb Hl]%andb_prop.
  cbn [apply_writes foldl]. fold (apply_writes l (mem_set m b cs)). rewrite IH by done.
  apply mem_get_set_disjoint; [done|]. apply orb_prop in Hb as [H%Z.leb_le|H%Z.leb_le]; lia.
Qed.
Lemma apply_writes_get l : ∀ m a bs,
  all_apart l = true → (a, bs) ∈ l → mem_get (apply_writes l m) a (len bs) = bs.
Proof.
  induction l as [|[b cs] l IH]; intros m a bs Ha Hin; [by apply elem_of_nil in Hin|].
  apply andb_prop in Ha as [H1 H2]. cbn [apply_writes foldl]. fold (apply_writes l (mem_set m b cs)).
  apply elem_of_cons in Hin as [[= -> ->]|Hin]; [|by apply IH].
  rewrite apply_writes_out by (done || apply len_nonneg). apply mem_get_set_same.
Qed.
Fixpoint run_writes (l : list (Z * list Z)) : prog GuestMemory Error unit :=
  match l with [] => mret tt | (a, bs) :: l => write_mut a bs;; run_writes l end.
Lemma write_ok_fits m a bs :
  writes_ok [(a, bs)] = true → tables_fit m → write_mut a bs m = (Ok tt, mem_set m a bs) ∧ tables_fit (mem_set m a bs).
Proof.
  cbn [writes_ok forallb]. rewrite andb_true_r. intros [[Ha%Z.leb_le Hs%Z.leb_le]%andb_prop Hb]%andb_prop Hf.
  split; [by apply write_fits|]. eapply window_fits; [|done]. apply (window_set a (a + len bs)); [lia|lia|by apply bytes_ok_dec].
Qed.
Lemma run_writes_fits l : ∀ m,
  writes_ok l = true → tables_fit m → run_writes l m = (Ok tt, apply_writes l m) ∧ tables_fit (apply_writes l m).
Proof.
  induction l as [|[a bs] l IH]; intros m Hl Hf; [done|]. apply andb_prop in Hl as [H1 H2].
  destruct (write_ok_fits m a bs) as [E Hf']; [by cbn [writes_ok forallb]; rewrite H1|done|].
  cbn [run_writes]. erewrite prog_bind_step by exact E. by apply IH.
Qed.
Lemma apply_writes_app l k m : apply_writes (l ++ k) m = apply_writes k (apply_writes l m).
Proof. apply foldl_app. Qed.
Lemma on_memory_writes p l m : p m = (Ok tt, apply_writes l m) → DeviceInterrupts.on_memory p m = Ok (apply_writes l m).
Proof. intros E. unfold DeviceInterrupts.on_memory. by rewrite E. Qed.
(** The last write of a sequence. *)
Lemma write_last m a bs : writes_ok [(a, bs)] = true → tables_fit m → write_mut a bs m = (Ok tt, apply_writes [(a, bs)] m).
Proof. intros. by apply write_ok_fits. Qed.
Lemma write_then m a bs l (p : prog GuestMemory Error unit) :
  writes_ok [(a, bs)] = true → tables_fit m →
  (tables_fit (mem_set m a bs) → p (mem_set m a bs) = (Ok tt, apply_writes l (mem_set m a bs))) →
  (write_mut a bs;; p) m = (Ok tt, apply_writes ((a, bs) :: l) m).
Proof. intros Hw Hf H. destruct (write_ok_fits m a bs Hw Hf) as [E Hf']. erewrite prog_bind_step by exact E. by apply H. Qed.
Lemma flat_load_write a e bs m :
  writes_ok [(a, bs)] = true → tables_fit m → flat_load (mkFlat a e bs) m = Ok (apply_writes [(a, bs)] m).
Proof.
  cbn [writes_ok forallb]. rewrite andb_true_r. intros [[Ha%Z.leb_le Hs%Z.leb_le]%andb_prop Hb]%andb_prop Hf.
  by apply DeviceInterrupts.flat_load_fits.
Qed.

(** ** The memory the guest starts with *)
Definition mapping_write (entry : Z * bool) : Z * list Z :=
  let '(page, present) := entry in (0x8000 + page / 4096 * 8, to_le_bytes 8 (Z.lor page (if present then 7 else 6))).
Definition image_writes : list (Z * list Z) :=
  [(0x10000, KERNEL_BOOT_BYTES); (0x11000, build_user_guest); (0x12000, PARTIAL_DISPATCHER_BYTES);
   (0x14000, PAGE_FAULT_HANDLER_BYTES); (0x13000, TERMINAL_HANDLER_BYTES)].
Definition data_writes : list (Z * list Z) :=
  [(PARTIAL_GOOD_SOURCE, PARTIAL_GOOD_BYTES); (PARTIAL_GOOD_DESTINATION, [0; 0; 0; 0]);
   (PARTIAL_SOURCE_FAULT_SOURCE, PARTIAL_SOURCE_FAULT_BYTES); (PARTIAL_SOURCE_FAULT_DESTINATION, [0; 0; 0; 0]);
   (PARTIAL_DEST_FAULT_SOURCE, PARTIAL_DEST_FAULT_BYTES); (PARTIAL_DEST_FAULT_DESTINATION, [0; 0; 0; 0]);
   (PARTIAL_SHORT_SOURCE, PARTIAL_SHORT_BYTES); (PARTIAL_SHORT_DESTINATION, [0; 0; 0; 0]);
   (PARTIAL_BYTE_SOURCE, [PARTIAL_BYTE_VALUE]); (PARTIAL_BYTE_DESTINATION, [0])].
Definition record_writes : list (Z * list Z) :=
  [(0xa180, replicate 72 0); (0xb000, replicate 48 0); (0xb040, replicate 48 0); (0xb100, encoded_fixup_table)].
Definition partial_writes : list (Z * list Z) :=
  (mapping_write <$> USER_PAGES) ++ [(0x60e0, encode_kernel_interrupt_gate PARTIAL_PAGE_FAULT_HANDLER)] ++ image_writes ++
  data_writes ++ record_writes.
Lemma partial_writes_ok : writes_ok partial_writes = true ∧ all_apart partial_writes = true.
Proof. split; vm_compute; reflexivity. Qed.
Lemma install_user_mappings_writes m :
  tables_fit m → install_user_mappings m = (Ok tt, apply_writes (mapping_write <$> USER_PAGES) m).
Proof.
  intros Hf. assert (writes_ok (mapping_write <$> USER_PAGES) = true) as Hw by (vm_compute; reflexivity).
  destruct (run_writes_fits _ m Hw Hf) as [E _]. exact E.
Qed.
Lemma install_page_fault_gate_writes m :
  tables_fit m →
  install_page_fault_gate m = (Ok tt, apply_writes [(0x60e0, encode_kernel_interrupt_gate PARTIAL_PAGE_FAULT_HANDLER)] m).
Proof. intros Hf. rewrite <- write_last; [reflexivity|vm_compute; reflexivity|done]. Qed.
Lemma initialize_data_writes m : tables_fit m → initialize_data m = (Ok tt, apply_writes data_writes m).
Proof.
  intros Hf. unfold initialize_data, data_writes.
  do 9 (apply write_then; [vm_compute; reflexivity|done|]; clear Hf; intros Hf).
  apply write_last; [vm_compute; reflexivity|done].
Qed.
Lemma prepared_bind {B} (l : list (Z * list Z)) (step : GuestMemory → res Error GuestMemory) (f : GuestMemory → res Error B) m b :
  tables_fit m → writes_ok l = true → step m = Ok (apply_writes l m) →
  (tables_fit (apply_writes l m) → f (apply_writes l m) = Ok b) → step m ≫= f = Ok b.
Proof. intros Hf Hl E H. rewrite E. by apply H, run_writes_fits. Qed.
Section prepared.
Context (mmap : Z → res io_error store) (contents : store).
Hypothesis mapped : mmap LONG_MODE_IDENTITY_MAP_SIZE = Ok contents.
Hypothesis contents_ok : store_ok contents.
Lemma prepare_partial_guest_runs :
  ∃ m1, tables_fit m1 ∧ rings_installed m1 ∧
    prepare_partial_guest mmap = Ok (privilege_layout boot_region, apply_writes partial_writes m1).
Proof.
  assert (region_wf boot_region) as Hr by (by repeat split).
  assert (low_memory boot_region) as Hl by (split; [done|reflexivity]).
  destruct (runs_total _ _ _ (install_privilege_tables_runs (privilege_layout boot_region) (boot_ram contents)
      (proj2 (privilege_boot_wf boot_region) Hl) eq_refl (boot_ram_wf contents contents_ok) eq_refl)) as ([]&m1&E&W&R).
  assert (tables_fit m1) as Hf.
  { eapply window_fits; [exact W|]. split_and!; [by apply boot_ram_wf|reflexivity|apply Z.le_refl]. }
  exists m1. split; [exact Hf|]. split; [exact R|]. unfold prepare_partial_guest.
  do 5 (eapply DeviceInterrupts.bind_Ok_intro; [apply DeviceInterrupts.flat_fixture; vm_compute; intuition congruence|]).
  eapply DeviceInterrupts.bind_Ok_intro; [by apply (DeviceInterrupts.fixture_memory mmap contents)|].
  eapply (DeviceInterrupts.bind_Ok_intro _ _ (privilege_layout boot_region)).
  { cbn [region boot_ram]. by rewrite (proj2 (privilege_layout_new_ok boot_region (privilege_layout boot_region) Hr) (conj eq_refl Hl)). }
  eapply (DeviceInterrupts.bind_Ok_intro _ _ m1); [unfold DeviceInterrupts.on_memory; by rewrite E|].
  unfold partial_writes. rewrite !apply_writes_app.
  apply (prepared_bind (mapping_write <$> USER_PAGES)); [done|vm_compute; reflexivity|by apply on_memory_writes, install_user_mappings_writes|].
  clear Hf. intros Hf. eapply prepared_bind; [done| |by apply on_memory_writes, install_page_fault_gate_writes|]; [vm_compute; reflexivity|].
  clear Hf. intros Hf.
  do 5 (eapply prepared_bind; [exact Hf| |apply flat_load_write; [vm_compute; reflexivity|exact Hf]|]; [vm_compute; reflexivity|];
        clear Hf; intros Hf).
  eapply prepared_bind; [exact Hf| |by apply on_memory_writes, initialize_data_writes|]; [vm_compute; reflexivity|].
  clear Hf. intros Hf.
  do 4 (eapply prepared_bind; [exact Hf| |apply on_memory_writes, write_last; [vm_compute; reflexivity|exact Hf]|];
          [vm_compute; reflexivity|]; clear Hf; intros Hf).
  rewrite <- !apply_writes_app. do 3 f_equal.
Qed.
End prepared.

(** ** The tables of the prepared memory *)
Definition clear_of (lo hi : Z) (l : list (Z * list Z)) : bool := forallb (λ '(b, cs), (hi <=? b) || (b + len cs <=? lo)) l.
Lemma apply_writes_clear lo hi l m a n :
  clear_of lo hi l = true → 0 ≤ n → lo ≤ a → a + n ≤ hi → mem_get (apply_writes l m) a n = mem_get m a n.
Proof.
  intros Hc Hn ??. apply apply_writes_out; [done|]. unfold clear_of in Hc. rewrite forallb_forall in Hc |- *.
  intros [b cs] Hin. specialize (Hc _ Hin). cbv beta iota in Hc. unfold apart.
  apply orb_prop in Hc as [Hc|Hc]; apply Z.leb_le in Hc; apply orb_true_intro; rewrite !Z.leb_le; lia.
Qed.
Definition partial_pte (i : Z) : Z :=
  match find (λ '(page, _), page =? i * 4096) USER_PAGES with
  | Some (page, present) => Z.lor page (if present then 7 else 6)
  | None => privilege_pte i
  end.
Definition absent (i : Z) : bool := (i =? 0x25) || (i =? 0x2b).
Definition partial_user (i : Z) : bool := user_page_index i || (0x20 <=? i) && (i <=? 0x2b).
Definition pte_written (i : Z) : bool :=
  bool_decide ((0x8000 + 8 * i, to_le_bytes 8 (partial_pte i)) ∈ mapping_write <$> USER_PAGES) && (0 <=? partial_pte i) && (partial_pte i <? 2 ^ 64)
  || forallb (λ '(b, cs), apart (0x8000 + 8 * i) 8 b (len cs)) (mapping_write <$> USER_PAGES) && (partial_pte i =? privilege_pte i).
Lemma partial_pte_fields i :
  0 ≤ i < 512 →
  entry_present (partial_pte i) = negb (absent i) ∧ entry_user (partial_pte i) = partial_user i ∧
  entry_address (partial_pte i) = i * 4096.
Proof.
  intros Hi.
  pose proof (all_indices_spec (λ i, eqb (entry_present (partial_pte i)) (negb (absent i)) &&
    eqb (entry_user (partial_pte i)) (partial_user i) && (entry_address (partial_pte i) =? i * 4096))
    ltac:(vm_compute; reflexivity) i Hi) as H. cbv beta in H.
  by apply andb_prop in H as [[H1%eqb_prop H2%eqb_prop]%andb_prop H3%Z.eqb_eq].
Qed.
Lemma pte_written_all i : 0 ≤ i < 512 → pte_written i = true.
Proof. apply (all_indices_spec pte_written). vm_compute. reflexivity. Qed.
Record prepared (m : GuestMemory) : Prop := {
  prepared_fits : tables_fit m;
  prepared_pages : four_levels m 0x1000 0x2000 0x3000 0x8000 partial_pte;
  prepared_fault_gate : Gates.idt_gate m PRIVILEGE_IDT_ADDR IDT_LIMIT PARTIAL_PAGE_FAULT_VECTOR = Some (Gates.mkTarget 8 PARTIAL_PAGE_FAULT_HANDLER 0xe 0 0);
  prepared_terminal_gate : Gates.idt_gate m PRIVILEGE_IDT_ADDR IDT_LIMIT PRIVILEGE_TERMINAL_VECTOR = Some (Gates.mkTarget 8 PRIVILEGE_TERMINAL_HANDLER 0xe 3 0);
  prepared_gdt : mem_get m 0x5000 56 = gdt_bytes;
  prepared_tss : mem_get m 0x7000 104 = tss_bytes;
  prepared_images : ∀ a bs, (a, bs) ∈ image_writes ++ data_writes ++ record_writes → mem_get m a (len bs) = bs
}.
Lemma apply_writes_pte m i :
  0 ≤ i < 512 → table_is m 0x8000 privilege_pte → table_entry (apply_writes (mapping_write <$> USER_PAGES) m) 0x8000 i = partial_pte i.
Proof.
  intros Hi Ht. unfold table_entry, u64_at.
  pose proof (pte_written_all i Hi) as [[[Hin%bool_decide_eq_true H0%Z.leb_le]%andb_prop H1%Z.ltb_lt]%andb_prop|[Ho He%Z.eqb_eq]%andb_prop]%orb_prop.
  - change 8 with (len (to_le_bytes 8 (partial_pte i))) at 2. rewrite apply_writes_get; [|vm_compute; reflexivity|done].
    by apply from_to_le_bytes.
  - rewrite apply_writes_out by done. rewrite He. by apply Ht.
Qed.
Lemma rest_clear lo hi m a n :
  clear_of lo hi ([(0x60e0, encode_kernel_interrupt_gate PARTIAL_PAGE_FAULT_HANDLER)] ++ image_writes ++ data_writes ++ record_writes) = true →
  0 ≤ n → lo ≤ a → a + n ≤ hi →
  mem_get (apply_writes partial_writes m) a n = mem_get (apply_writes (mapping_write <$> USER_PAGES) m) a n.
Proof. intros. unfold partial_writes. rewrite apply_writes_app. by apply (apply_writes_clear lo hi). Qed.
Lemma prepared_memory m : tables_fit m → rings_installed m → prepared (apply_writes partial_writes m).
Proof.
  intros Hf [[H4 H3 H2 H1] Hg Hi Ht]. destruct partial_writes_ok as [Hw Ha]. split.
  - by apply run_writes_fits.
  - assert (clear_of 0x1000 0x4000 partial_writes = true) as Hc by (vm_compute; reflexivity).
    assert (∀ t f, 0x1000 ≤ t ≤ 0x3000 → table_is m t f → table_is (apply_writes partial_writes m) t f) as Hlow.
    { intros t f Hb Hti i Hi'. rewrite <- Hti by done. unfold table_entry, u64_at. rewrite (apply_writes_clear 0x1000 0x4000); [reflexivity|exact Hc|lia..]. }
    split; [exact (Hlow 0x1000 _ ltac:(lia) H4)|exact (Hlow 0x2000 _ ltac:(lia) H3)|exact (Hlow 0x3000 _ ltac:(lia) H2)|].
    intros i Hi'. rewrite <- (apply_writes_pte m i) by done. unfold table_entry, u64_at.
    by rewrite (rest_clear 0x8000 0x9000) by (lia || (vm_compute; reflexivity)).
  - unfold Gates.idt_gate. change (IDT_LIMIT <? _) with false. cbn match.
    change 16 with (len (encode_kernel_interrupt_gate PARTIAL_PAGE_FAULT_HANDLER)) at 2.
    rewrite apply_writes_get; [vm_compute; reflexivity|done|]. unfold partial_writes. apply elem_of_app. right. left.
  - unfold Gates.idt_gate. change (IDT_LIMIT <? _) with false. cbn match.
    rewrite apply_writes_out by (lia || (vm_compute; reflexivity)). change (PRIVILEGE_IDT_ADDR + _) with (0x6000 + 16 * 0x81).
    rewrite Hi by lia. vm_compute. reflexivity.
  - rewrite apply_writes_out by (lia || (vm_compute; reflexivity)). done.
  - rewrite apply_writes_out by (lia || (vm_compute; reflexivity)). done.
  - intros a bs Hin. apply apply_writes_get; [done|]. unfold partial_writes. rewrite !elem_of_app in *. tauto.
Qed.

(** ** The translations *)
Definition kernel_tr (m : GuestMemory) : Translation := λ _ _ a, walk m LONG_MODE_PML4_ADDR a.
Definition user_tr (m : GuestMemory) : Translation := λ _ _ a, user_walk m LONG_MODE_PML4_ADDR a.
Lemma page_of a : a / 4096 * 4096 + a mod 4096 = a.
Proof. pose proof (Z.div_mod a 4096). lia. Qed.
Lemma kernel_tr_pages m w n a :
  four_levels m 0x1000 0x2000 0x3000 0x8000 partial_pte → 0 ≤ a < 0x200000 →
  kernel_tr m w n a = if absent (a / 4096) then None else Some a.
Proof.
  intros Hp Ha. unfold kernel_tr. change LONG_MODE_PML4_ADDR with 0x1000.
  rewrite (walk_four m 0x1000 0x2000 0x3000 0x8000 partial_pte) by (first [done|lia|by split]).
  destruct (partial_pte_fields (a / 4096)) as (->&_&->); [dlia|]. rewrite (proj2 (Z.ltb_lt a _)) by (unfold LONG_MODE_IDENTITY_MAP_SIZE; lia).
  rewrite page_of. by destruct (absent _).
Qed.
Lemma user_tr_pages m w n a :
  four_levels m 0x1000 0x2000 0x3000 0x8000 partial_pte → 0 ≤ a < 0x200000 →
  user_tr m w n a = if negb (absent (a / 4096)) && partial_user (a / 4096) then Some a else None.
Proof.
  intros Hp Ha. unfold user_tr. change LONG_MODE_PML4_ADDR with 0x1000.
  rewrite (user_walk_four m 0x1000 0x2000 0x3000 0x8000 partial_pte) by (first [done|lia|by split]).
  destruct (partial_pte_fields (a / 4096)) as (->&->&->); [dlia|]. rewrite (proj2 (Z.ltb_lt a _)) by (unfold LONG_MODE_IDENTITY_MAP_SIZE; lia).
  by rewrite page_of.
Qed.
Lemma kernel_tr_view m : four_levels m 0x1000 0x2000 0x3000 0x8000 partial_pte → kernel_view (kernel_tr m).
Proof.
  intros Hp w n a Hn Ha. rewrite kernel_tr_pages by (done || lia).
  assert (absent (a / 4096) = false) as ->; [|done]. unfold absent. apply orb_false_intro; apply Z.eqb_neq; dlia.
Qed.

(** ** The machine: user code, the kernel's services and the terminal handler *)
(** SYSCALL saves rip and rflags and masks the interrupt flag; SYSRET restores them. *)
Definition USER_RFLAGS : Z := 0x202.
Definition enter_kernel (c : Cpu) : Cpu :=
  mkCpu SYSCALL_LSTAR_VALUE (upd (upd (cpu_regs c) RCX (cpu_rip c)) R11 (rflags_of USER_RFLAGS (cpu_flags c))) (cpu_cr3 c) (cpu_flags c)
    (cpu_out c) (cpu_ram c).
Definition leave_kernel (rip rflags : Z) (c : Cpu) : Cpu :=
  mkCpu rip (cpu_regs c) (cpu_cr3 c) (flags_of rflags) (cpu_out c) (cpu_ram c).
Fixpoint run_user (calls : nat) (c : Cpu) : option (Stop * Cpu) :=
  match exec_in (user_tr (cpu_ram c)) 10 PRIVILEGE_USER_ENTRY build_user_guest c with
  | Some (SysCalled, c) =>
      match calls with
      | O => None
      | S calls =>
          match partial_service (kernel_tr (cpu_ram c)) (Z.ldiff USER_RFLAGS SYSCALL_SFMASK_VALUE) (enter_kernel c) with
          | Some (SysReturned rip rflags, c) => run_user calls (leave_kernel rip rflags c)
          | r => r
          end
      end
  | r => r
  end.
(** The kernel's first instructions leave for the user program; its last trap runs the terminal handler. *)
Definition run_guest (regs : Z → Z) (out : list (Z * Z)) (m : GuestMemory) : option (Stop * Cpu) :=
  let c := mkCpu PRIVILEGE_KERNEL_ENTRY (upd regs RSP PRIVILEGE_BOOT_STACK) LONG_MODE_PML4_ADDR (mkFlags false 0) out m in
  match exec_in (kernel_tr m) 20 PRIVILEGE_KERNEL_ENTRY KERNEL_BOOT_BYTES c with
  | Some (Returned f, c) =>
      match run_user 9 (resume f c) with
      | Some (Trapped _, c) =>
          let frame := mkFrame (cpu_rip c) PRIVILEGE_USER_CODE_SELECTOR (rflags_of USER_RFLAGS (cpu_flags c)) (cpu_regs c RSP)
                         PRIVILEGE_USER_DATA_SELECTOR in
          exec_in (kernel_tr (cpu_ram c)) 10 PRIVILEGE_TERMINAL_HANDLER TERMINAL_HANDLER_BYTES
            (interrupt PRIVILEGE_TERMINAL_HANDLER PRIVILEGE_TSS_RSP0 frame c)
      | r => r
      end
  | r => r
  end.

(** ** What memory holds after each call *)
(** The data blocks after [k] calls. *)
Definition blocks (k : nat) : list (Z * list Z) :=
  [(PARTIAL_GOOD_SOURCE, PARTIAL_GOOD_BYTES);
   (PARTIAL_GOOD_DESTINATION, if (k <? 1)%nat then [0; 0; 0; 0] else PARTIAL_GOOD_BYTES);
   (PARTIAL_SOURCE_FAULT_SOURCE, PARTIAL_SOURCE_FAULT_BYTES);
   (PARTIAL_SOURCE_FAULT_DESTINATION, if (k <? 2)%nat then [0; 0; 0; 0] else [0x55; 0x66; 0; 0]);
   (PARTIAL_DEST_FAULT_SOURCE, PARTIAL_DEST_FAULT_BYTES);
   (PARTIAL_DEST_FAULT_DESTINATION, if (k <? 3)%nat then [0; 0; 0; 0] else [0x99; 0xaa; 0; 0]);
   (PARTIAL_SHORT_SOURCE, PARTIAL_SHORT_BYTES);
   (PARTIAL_SHORT_DESTINATION, if (k <? 4)%nat then [0; 0; 0; 0] else [0xde; 0; 0; 0]);
   (PARTIAL_BYTE_SOURCE, [PARTIAL_BYTE_VALUE]);
   (PARTIAL_BYTE_DESTINATION, if (k <? 7)%nat then [0] else [PARTIAL_BYTE_VALUE])].
Fixpoint cells_of (a : Z) (bs : list Z) : list (Z * Z) :=
  match bs with [] => [] | b :: bs => (a, b) :: cells_of (a + 1) bs end.
Definition cells (k : nat) : list (Z * Z) := concat (map (λ '(a, bs), cells_of a bs) (blocks k)).
Definition holds (m : GuestMemory) : list (Z * Z) → Prop := Forall (λ '(a, v), rd8 m a = v).
(** The bytes a run of the guest may change. *)
Definition scratch (x : Z) : Prop :=
  0xa180 ≤ x < 0xa1c8 ∨ 0xb000 ≤ x < 0xb070 ∨ 0x20000 ≤ x < 0x2c000 ∨ 0x1fdfd0 ≤ x < 0x1fe000 ∨ 0x1fefd8 ≤ x < 0x1ff000.
Record stage (m0 : GuestMemory) (calls stored : nat) (m : GuestMemory) : Prop := {
  stage_fits : tables_fit m;
  stage_kept : ∀ x, ¬ scratch x → rd8 m x = rd8 m0 x;
  stage_cells : holds m (cells calls);
  stage_results : ∀ i v, (i < stored)%nat → expected_returns !! i = Some v → rd64 m (0xa180 + 8 * Z.of_nat i) = v;
  stage_read_fault : (2 <= calls)%nat → observation_at m 0xb000 = expected_read_fault;
  stage_write_fault : (3 <= calls)%nat → observation_at m 0xb040 = expected_write_fault
}.
Lemma stage_word m0 k j m a : tables_fit m0 → stage m0 k j m → (∀ x, a ≤ x < a + 8 → ¬ scratch x) → rd64 m a = rd64 m0 a.
Proof. intros Hf [Hf' Hk _ _ _ _] H. apply rd64_agree; [done..|]. intros. by apply Hk, H. Qed.
Lemma stage_tables m0 k j m : prepared m0 → stage m0 k j m → four_levels m 0x1000 0x2000 0x3000 0x8000 partial_pte.
Proof.
  intros [Hf [H4 H3 H2 H1] _ _ _ _ _] Hs.
  assert (∀ t f, 0x1000 ≤ t ≤ 0x8000 → table_is m0 t f → table_is m t f) as Ht.
  { intros t f Hb Hti i Hi. rewrite <- Hti by done. apply (stage_word m0 k j m); [done..|]. unfold scratch. lia. }
  split; [apply (Ht 0x1000)|apply (Ht 0x2000)|apply (Ht 0x3000)|apply (Ht 0x8000)]; by (lia || assumption).
Qed.
Lemma prepared_fixups m0 : prepared m0 → fixups_at m0 = expected_fixup_entries.
Proof.
  intros [Hf _ _ _ _ _ Hi].
  assert (read_fixup_table m0 = Ok expected_fixup_entries) as E.
  { unfold read_fixup_table. rewrite read_fits by (done || (vm_compute; congruence)).
    change FIXUP_TABLE_BYTES with (len encoded_fixup_table). rewrite (Hi PARTIAL_FIXUP_TABLE_ADDR encoded_fixup_table); [reflexivity|].
    unfold record_writes. rewrite !elem_of_app. right. right. do 3 right. left. }
  rewrite read_fixup_table_at in E by done. congruence.
Qed.
Lemma stage_fixups m0 k j m : prepared m0 → stage m0 k j m → fixups_at m = expected_fixup_entries.
Proof.
  intros Hp Hs. rewrite <- (prepared_fixups m0 Hp). apply kept_fixups; [apply Hp|apply Hs|].
  intros x Hx. apply Hs. unfold scratch. lia.
Qed.
Lemma observation_agree m m' a :
  tables_fit m → tables_fit m' → (∀ x, a ≤ x < a + 48 → rd8 m' x = rd8 m x) → observation_at m' a = observation_at m a.
Proof. intros Hf Hf' H. unfold observation_at. by rewrite !(rd64_agree m m') by (done || (intros; apply H; lia)). Qed.
Lemma holds_agree m m' l : (∀ a v, (a, v) ∈ l → rd8 m' a = rd8 m a) → holds m l → holds m' l.
Proof. unfold holds. rewrite !Forall_forall. intros H Hm [a v] Hin. rewrite (H a v) by done. by apply (Hm (a, v)). Qed.
Lemma cells_in k a v : (a, v) ∈ cells k → 0x20000 ≤ a < 0x2c000.
Proof.
  assert (∀ k, map fst (cells k) = map fst (cells 0)) as Hk.
  { intros n. unfold cells. do 7 (destruct n as [|n]; [reflexivity|]). reflexivity. }
  intros Hin%(list_elem_of_fmap_2 fst). change (fst <$> cells k) with (map fst (cells k)) in Hin. rewrite Hk in Hin.
  assert (Forall (λ a, 0x20000 ≤ a < 0x2c000) (map fst (cells 0))) as Hf.
  { apply Forall_forall. intros x Hx. 
    assert (forallb (λ a, (0x20000 <=? a) && (a <? 0x2c000)) (map fst (cells 0)) = true) as Hb by (vm_compute; reflexivity).
    rewrite forallb_forall in Hb. apply list_elem_of_In, Hb, andb_prop in Hx as [?%Z.leb_le ?%Z.ltb_lt]. lia. }
  rewrite Forall_forall in Hf. by apply Hf.
Qed.
(** The user stores a result. *)
Lemma stage_store m0 k j m v :
  stage m0 k j m → expected_returns !! j = Some v → stage m0 k (S j) (wr64 m (0xa180 + 8 * Z.of_nat j) v).
Proof.
  intros [Hf Hk Hc Hr H2 H3] Hj. assert (j < 9)%nat as Hlt by (apply lookup_lt_Some in Hj; exact Hj).
  assert (u64 v) as Hv.
  { assert (Forall u64 expected_returns) as H by (do 9 (apply Forall_cons; split; [by split|]); by apply Forall_nil).
    rewrite Forall_lookup in H. by eapply H. }
  split.
  - by apply wr64_fits.
  - intros x Hx. rewrite rd8_wr64_out by (unfold scratch in Hx; lia). by apply Hk.
  - eapply holds_agree; [|exact Hc]. intros a b Hin%cells_in. apply rd8_wr64_out. lia.
  - intros i u Hi Hu. rewrite rd64_wr64 by (done || lia). destruct (decide (i = j)) as [->|].
    + rewrite Z.eqb_refl. congruence.
    + rewrite (proj2 (Z.eqb_neq _ _)) by lia. apply Hr; [lia|done].
  - intros Hn. rewrite <- H2 by done. apply observation_agree; [done|by apply wr64_fits|]. intros. apply rd8_wr64_out. lia.
  - intros Hn. rewrite <- H3 by done. apply observation_agree; [done|by apply wr64_fits|]. intros. apply rd8_wr64_out. lia.
Qed.
(** A call that leaves no fault record: only data changes. *)
Lemma stage_quiet m0 k j m m' :
  stage m0 k j m → k ≠ 1%nat → k ≠ 2%nat → tables_fit m' → (∀ x, ¬ 0x20000 ≤ x < 0x2c000 → rd8 m' x = rd8 m x) →
  holds m' (cells (S k)) → stage m0 (S k) j m'.
Proof.
  intros [Hf Hk _ Hr H2 H3] H1' H2' Hf' Hm Hc. split; [done| |done| | |].
  - intros x Hx. rewrite Hm by (unfold scratch in Hx; lia). by apply Hk.
  - intros i v Hi Hv. assert (i < 9)%nat by (apply lookup_lt_Some in Hv; exact Hv).
    rewrite (rd64_agree m m'); [by apply Hr|done|done|]. intros. apply Hm. lia.
  - intros Hn. rewrite <- H2 by lia. apply observation_agree; [done..|]. intros. apply Hm. lia.
  - intros Hn. rewrite <- H3 by lia. apply observation_agree; [done..|]. intros. apply Hm. lia.
Qed.
(** The second and third call leave one each. *)
Lemma stage_fault m0 (w : bool) j m mc m' :
  let k := if w then 2%nat else 1%nat in
  stage m0 k j m → tables_fit mc → (∀ x, ¬ 0x20000 ≤ x < 0x2c000 → rd8 mc x = rd8 m x) → fault_writes_only (fault_record w) 48 mc m' →
  observation_at m' (fault_record w) = (if w then expected_write_fault else expected_read_fault) →
  holds mc (cells (S k)) → stage m0 (S k) j m'.
Proof.
  intros k [Hf Hk _ Hr H2 H3] Hfc Hm [Hf' Hw] Ho Hc.
  assert (fault_record w = 0xb000 ∨ fault_record w = 0xb040) as Hrec by (destruct w; auto).
  split; [done| | | | |].
  - intros x Hx. unfold scratch in Hx. rewrite Hw, Hm; [by apply Hk|lia|lia|lia].
  - eapply holds_agree; [|exact Hc]. intros a v Hin%cells_in. apply Hw; [lia|]. lia.
  - intros i v Hi Hv. assert (i < 9)%nat by (apply lookup_lt_Some in Hv; exact Hv).
    rewrite (rd64_agree m m'); [by apply Hr|done|done|]. intros. rewrite Hw, Hm; [done|lia|lia|lia].
  - intros _. destruct w; [|done]. rewrite <- H2 by (subst k; cbn; lia). apply observation_agree; [done..|]. intros. rewrite Hw, Hm; [done|lia|lia|change (fault_record true) with 0xb040; lia].
  - intros Hn. destruct w; [done|]. subst k. lia.
Qed.

(** ** One call at a time *)
Lemma run_user_returns n c cu result cr2 text post :
  exec_in (user_tr (cpu_ram c)) 10 0x11000 build_user_guest c = Some (SysCalled, cu) → cpu_flags cu = mkFlags false 0 →
  returns_to_user (kernel_tr (cpu_ram cu)) 2 (enter_kernel cu) result cr2 text post →
  ∃ c', run_user (S n) c = run_user n c' ∧ cpu_rip c' = cpu_rip cu ∧ cpu_flags c' = mkFlags false 0 ∧ cpu_regs c' RAX = result ∧
    cpu_regs c' CR2 = cr2 ∧ (∀ j, j ∉ RCX :: R11 :: clobbered → cpu_regs c' j = cpu_regs cu j) ∧ cpu_cr3 c' = cpu_cr3 cu ∧
    cpu_out c' = cpu_out cu ++ prints text ∧ post (cpu_ram c').
Proof.
  intros E Hfl (ck&Ek&Hax&Hcr2&Hr&Hcr3&Hout&Hp). exists (leave_kernel (cpu_rip cu) (rflags_of USER_RFLAGS (cpu_flags cu)) ck).
  split; [|split_and!; [done|by rewrite Hfl|done|done| |done|done|done]].
  - cbn [run_user]. change PRIVILEGE_USER_ENTRY with 0x11000. rewrite E.
    change (Z.ldiff USER_RFLAGS SYSCALL_SFMASK_VALUE) with 2. rewrite Ek. reflexivity.
  - intros j Hj. rewrite !not_elem_of_cons in Hj. destruct Hj as (H1&H2&Hj). cbn [leave_kernel cpu_regs]. rewrite Hr by done.
    cbn [enter_kernel cpu_regs]. by rewrite !upd_other.
Qed.
(** The state between two calls: the result of the last one is not stored yet. *)
Definition RETURN_RIPS : list Z :=
  [0x1102a; 0x1104d; 0x11071; 0x11095; 0x110b9; 0x110dd; 0x110fc; 0x1110c; 0x11117].
Record between (m0 : GuestMemory) (out : list (Z * Z)) (k : nat) (c : Cpu) : Prop := {
  between_rip : RETURN_RIPS !! k = Some (cpu_rip c);
  between_flags : cpu_flags c = mkFlags false 0;
  between_rax : expected_returns !! k = Some (cpu_regs c RAX);
  between_rbx : cpu_regs c RBX = 0xa180;
  between_rsp : cpu_regs c RSP = 0x1fd000;
  between_cr2 : (2 <= k)%nat → cpu_regs c CR2 = 0x2b000;
  between_cr3 : cpu_cr3 c = 0x1000;
  between_out : cpu_out c = out ++ prints (take (S k) PARTIAL_PROOF);
  between_stage : stage m0 (S k) k (cpu_ram c)
}.
(** The arguments of each call, and the state in which the user makes it. *)
Definition call_args (k : nat) : list (Z * Z) :=
  match k with
  | 0%nat => [(RAX, 2); (RDI, PARTIAL_GOOD_SOURCE); (RSI, PARTIAL_GOOD_DESTINATION); (RDX, 4)]
  | 1%nat => [(RAX, 2); (RDI, PARTIAL_SOURCE_FAULT_SOURCE); (RSI, PARTIAL_SOURCE_FAULT_DESTINATION); (RDX, 4)]
  | 2%nat => [(RAX, 2); (RDI, PARTIAL_DEST_FAULT_SOURCE); (RSI, PARTIAL_DEST_FAULT_DESTINATION); (RDX, 4)]
  | 3%nat => [(RAX, 2); (RDI, PARTIAL_SHORT_SOURCE); (RSI, PARTIAL_SHORT_DESTINATION); (RDX, 1)]
  | 4%nat => [(RAX, 2); (RDI, PARTIAL_SHORT_SOURCE); (RSI, PARTIAL_SHORT_DESTINATION); (RDX, 0)]
  | 5%nat => [(RAX, 2); (RDI, PARTIAL_SHORT_SOURCE); (RSI, PARTIAL_SHORT_DESTINATION); (RDX, 5)]
  | 6%nat => [(RAX, 0); (RDI, PARTIAL_BYTE_SOURCE); (RSI, PARTIAL_BYTE_DESTINATION)]
  | 7%nat => [(RAX, 1); (RDI, 0x50)]
  | _ => [(RAX, 0xff)]
  end.
Record at_call (m0 : GuestMemory) (out : list (Z * Z)) (k : nat) (c : Cpu) : Prop := {
  call_rip : RETURN_RIPS !! k = Some (cpu_rip c);
  call_flags : cpu_flags c = mkFlags false 0;
  call_regs : Forall (λ '(r, v), cpu_regs c r = v) (call_args k);
  call_rbx : cpu_regs c RBX = 0xa180;
  call_rsp : cpu_regs c RSP = 0x1fd000;
  call_cr2 : (3 <= k)%nat → cpu_regs c CR2 = 0x2b000;
  call_cr3 : cpu_cr3 c = 0x1000;
  call_out : cpu_out c = out ++ prints (take k PARTIAL_PROOF);
  call_stage : stage m0 k k (cpu_ram c)
}.
Lemma user_tr_results m0 k j m :
  prepared m0 → stage m0 k j m → ∀ w n a, 0xa000 ≤ a < 0xb000 → user_tr m w n a = Some a.
Proof.
  intros Hp Hs w n a Ha. rewrite user_tr_pages by (lia || by eapply stage_tables).
  assert (a / 4096 = 0xa) as -> by dlia. reflexivity.
Qed.
Ltac user_exec Hbx Hu := repeat first [progress (cbn match)|rewrite Hu by lia|x86_step; rewrite ?Hbx; address_simpl].
(** From one call to the next: the result is stored and the arguments are set. *)
Lemma segment m0 out k c :
  prepared m0 → between m0 out k c → (k < 8)%nat →
  ∃ cu, exec_in (user_tr (cpu_ram c)) 10 0x11000 build_user_guest c = Some (SysCalled, cu) ∧ at_call m0 out (S k) cu.
Proof.
  intros Hp [Hrip Hfl Hax Hbx Hsp Hc2 Hc3 Hout Hs] Hk. pose proof (user_tr_results m0 _ _ _ Hp Hs) as Hu.
  pose proof (stage_store m0 _ _ _ _ Hs Hax) as Hst.
  destruct c as [rip regs cr3 fl o m]. cbn [cpu_rip cpu_regs cpu_cr3 cpu_flags cpu_out cpu_ram] in *. unfold RBX, RSP, RAX, CR2 in *.
  destruct k as [|[|[|[|[|[|[|[|k]]]]]]]]; [..|lia].
  all: injection Hrip as <-; eexists; (split; [user_exec Hbx Hu; reflexivity|]).
  all: split; cbn [cpu_rip cpu_regs cpu_cr3 cpu_flags cpu_out cpu_ram call_args]; unfold RBX, RSP, CR2; upd_simpl.
  all: first [reflexivity|exact Hfl|exact Hbx|exact Hsp|exact Hc3|exact Hout|exact Hst|intros; (lia || (apply Hc2; lia))|idtac].
  all: repeat (apply Forall_cons; split; [upd_simpl; reflexivity|]); by apply Forall_nil.
Qed.
Lemma returns_mono tr other c result cr2 text (P Q : GuestMemory → Prop) :
  (∀ m, P m → Q m) → returns_to_user tr other c result cr2 text P → returns_to_user tr other c result cr2 text Q.
Proof. intros H (c'&?&?&?&?&?&?&?). exists c'. split_and!; auto. Qed.
(** What the kernel does with each call. *)
Definition served (m0 : GuestMemory) (k : nat) (cu : Cpu) : Prop :=
  ∃ v cr2 b, expected_returns !! k = Some v ∧ PARTIAL_PROOF !! k = Some b ∧ ((2 <= k)%nat → cr2 = 0x2b000) ∧
    returns_to_user (kernel_tr (cpu_ram cu)) 2 (enter_kernel cu) v cr2 [b] (stage m0 (S k) k).
Section calls.
Context (m0 : GuestMemory) (out : list (Z * Z)) (Hp : prepared m0).
Lemma stage_same k m : stage m0 k k m → (k = 4 ∨ k = 5 ∨ k = 7 ∨ k = 8)%nat → ∀ m', m' = m → stage m0 (S k) k m'.
Proof.
  intros Hs Hk m' ->. apply (stage_quiet m0 k k m); [done|lia|lia|apply Hs|done|].
  pose proof (stage_cells _ _ _ _ Hs) as Hc. by destruct Hk as [->|[->|[->| ->]]].
Qed.
(** A call's verdict from what the kernel does: the two tables first, then the call. *)
Lemma served_intro k cu v cr2 b :
  expected_returns !! k = Some v → PARTIAL_PROOF !! k = Some b →
  returns_to_user (kernel_tr (cpu_ram cu)) 2 (enter_kernel cu) v cr2 [b] (stage m0 (S k) k) → ((2 <= k)%nat → cr2 = 0x2b000) → served m0 k cu.
Proof. intros. exists v, cr2, b. by split_and!. Qed.
(** Cells are read and overwritten by evaluation. *)
Definition cell_value (a : Z) (l : list (Z * Z)) : option Z := snd <$> find (λ '(b, _), b =? a) l.
Definition override (a v : Z) (l : list (Z * Z)) : list (Z * Z) := map (λ '(b, u), (b, if b =? a then v else u)) l.
Lemma holds_read m l a v : holds m l → cell_value a l = Some v → rd8 m a = v.
Proof.
  unfold holds, cell_value. rewrite Forall_forall. intros H E. destruct (find _ l) as [[b u]|] eqn:Ef; [|done]. injection E as ->.
  apply find_some in Ef as [Hin Hb%Z.eqb_eq]. subst b. by apply (H (a, v)), list_elem_of_In.
Qed.
Lemma holds_wr8 m l a v : holds m l → holds (wr8 m a v) (override a v l).
Proof.
  unfold holds, override. rewrite !Forall_forall. intros H x Hin. apply list_elem_of_In, in_map_iff in Hin as ([b u]&<-&Hin).
  rewrite rd8_wr8. destruct (b =? a); [done|]. by apply (H (b, u)), list_elem_of_In.
Qed.
Lemma holds_eq m l l' : l = l' → holds m l → holds m l'.
Proof. by intros ->. Qed.
Ltac cells_tac Hc k :=
  repeat match goal with
  | |- context [rd8 ?m ?a] =>
      let v := eval vm_compute in (default 0 (cell_value a (cells k))) in
      rewrite (holds_read m (cells k) a v Hc) by (vm_compute; reflexivity)
  end;
  eapply holds_eq; [|repeat apply holds_wr8; exact Hc]; vm_compute; reflexivity.
Lemma serve_refused k cu : at_call m0 out k cu → (k = 4 ∨ k = 5)%nat → served m0 k cu.
Proof.
  intros [_ _ Hr _ _ Hc2 _ _ Hs] Hk.
  destruct Hk as [->| ->]; cbn [call_args] in Hr; rewrite !Forall_cons in Hr; destruct Hr as (Ha&_&_&Hd&_);
    (eapply served_intro; [reflexivity|reflexivity|eapply returns_mono; [apply stage_same; [exact Hs|lia]|]|intros; exact (Hc2 ltac:(lia))]);
    (apply call_length; [exact Ha|change (u64 (cpu_regs cu RDX)); rewrite Hd; by split|]).
  - left. exact Hd.
  - right. change (PARTIAL_COPY_MAX_LEN < cpu_regs cu RDX). by rewrite Hd.
Qed.
Lemma serve_putc cu : at_call m0 out 7 cu → served m0 7 cu.
Proof.
  intros [_ _ Hr _ _ Hc2 _ _ Hs]. cbn [call_args] in Hr; rewrite !Forall_cons in Hr; destruct Hr as (Ha&Hd&_).
  eapply served_intro; [reflexivity|reflexivity|eapply returns_mono; [apply stage_same; [exact Hs|lia]|]|intros; exact (Hc2 ltac:(lia))].
  change 80 with (low8 80). rewrite <- Hd. by apply call_putc.
Qed.
Lemma serve_unknown cu : at_call m0 out 8 cu → served m0 8 cu.
Proof.
  intros [_ _ Hr _ _ Hc2 _ _ Hs]. cbn [call_args] in Hr; rewrite !Forall_cons in Hr; destruct Hr as (Ha&_).
  eapply served_intro; [reflexivity|reflexivity|eapply returns_mono; [apply stage_same; [exact Hs|lia]|]|intros; exact (Hc2 ltac:(lia))].
  apply call_unknown; [change (cpu_regs cu RAX ≠ 0)|change (cpu_regs cu RAX ≠ 1)|change (cpu_regs cu RAX ≠ 2)]; by rewrite Ha.
Qed.
Lemma serve_byte cu : at_call m0 out 6 cu → served m0 6 cu.
Proof.
  intros [_ _ Hr _ _ Hc2 _ _ Hs]. cbn [call_args] in Hr; rewrite !Forall_cons in Hr; destruct Hr as (Ha&Hsrc&Hdst&_).
  pose proof (stage_tables m0 _ _ _ Hp Hs) as Ht.
  eapply served_intro; [reflexivity|reflexivity|eapply returns_mono; [|apply (call_byte _ _ _ _ _ _ _ PARTIAL_BYTE_SOURCE PARTIAL_BYTE_DESTINATION)]
    |intros; exact (Hc2 ltac:(lia))].
  - intros m' ->. pose proof (stage_cells _ _ _ _ Hs) as Hc. pose proof (fits_bytes _ (stage_fits _ _ _ _ Hs)) as Hb.
    apply (stage_quiet m0 6 6 (cpu_ram cu)); [done|lia|lia|apply wr8_fits; [apply Hb|apply Hs]| |].
    + intros x Hx. rewrite rd8_wr8, (proj2 (Z.eqb_neq _ _)); [done|]. unfold PARTIAL_BYTE_DESTINATION. lia.
    + unfold PARTIAL_BYTE_SOURCE, PARTIAL_BYTE_DESTINATION. cells_tac Hc 6%nat.
  - by apply fits_bytes, Hs.
  - exact Ha.
  - change (kernel_tr (cpu_ram cu) false 1 (cpu_regs cu RDI mod 2 ^ 64) = Some PARTIAL_BYTE_SOURCE). rewrite Hsrc.
    by rewrite kernel_tr_pages.
  - change (kernel_tr (cpu_ram cu) true 1 (cpu_regs cu RSI mod 2 ^ 64) = Some PARTIAL_BYTE_DESTINATION). rewrite Hdst.
    by rewrite kernel_tr_pages.
Qed.
Lemma apart_user k j m dst n :
  stage m0 k j m → 0x20000 ≤ dst → dst + n ≤ 0x2c000 → apart_from_kernel (kernel_tr m) dst n.
Proof.
  intros Hs Hd Hn i p Hi. rewrite Z.mod_small by lia. rewrite kernel_tr_pages by (lia || by eapply stage_tables).
  destruct (absent _); [done|]. intros [= <-]. unfold LONG_MODE_IDENTITY_MAP_SIZE, kernel_data. lia.
Qed.
Lemma copy_data k j m n src dst x :
  stage m0 k j m → 0x20000 ≤ dst → dst + Z.of_nat n ≤ 0x2c000 → ¬ 0x20000 ≤ x < 0x2c000 →
  rd8 (copied_ram (copy_range (kernel_tr m) n 0 src dst m)) x = rd8 m x.
Proof.
  intros Hs Hd Hn Hx. destruct (copy_range_stops (kernel_tr m) src dst n 0 m) as (Hc&_). apply copy_range_writes. intros i Hi.
  unfold write_at. rewrite Z.mod_small by lia. rewrite kernel_tr_pages by (lia || by eapply stage_tables).
  destruct (absent _); [done|]. intros [= E]. lia.
Qed.
(** A range copy serves its call if the reference copies what is expected of it. *)
Lemma serve_range k cu src dst n :
  at_call m0 out k cu → call_args k = [(RAX, 2); (RDI, src); (RSI, dst); (RDX, n)] → 0 < n ≤ 4 → 0x20000 ≤ dst → dst + n ≤ 0x2c000 →
  let r := copy_range (kernel_tr (cpu_ram cu)) (Z.to_nat n) 0 src dst (cpu_ram cu) in
  expected_returns !! k = Some (copied r) → holds (copied_ram r) (cells (S k)) →
  match stopped_at r with
  | None => PARTIAL_PROOF !! k = Some 0x4d ∧ k ≠ 1%nat ∧ k ≠ 2%nat
  | Some (w, a) => PARTIAL_PROOF !! k = Some 0x46 ∧ k = (if w then 2%nat else 1%nat) ∧ a = (if w then 0x2b000 else 0x25000)
  end →
  served m0 k cu.
Proof.
  intros [_ _ Hr _ _ Hc2 _ _ Hs] Hargs Hn Hd Hdn r Hret Hcells Hst.
  rewrite Hargs, !Forall_cons in Hr. destruct Hr as (Ha&Hsrc&Hdst&Hlen&_).
  pose proof (stage_tables m0 _ _ _ Hp Hs) as Ht. pose proof (stage_fits _ _ _ _ Hs) as Hf.
  assert (apart_from_kernel (kernel_tr (cpu_ram cu)) dst n) as Hap by (by eapply apart_user).
  destruct (copy_range_kept (kernel_tr (cpu_ram cu)) (Z.to_nat n) 0 src dst (cpu_ram cu) Hf) as [Hfr _].
  { intros j p Hj Hq. eapply Hap; [|exact Hq]. lia. }
  assert (∀ x, ¬ 0x20000 ≤ x < 0x2c000 → rd8 (copied_ram r) x = rd8 (cpu_ram cu) x) as Hdata.
  { intros x Hx. eapply copy_data; [exact Hs|done|lia|done]. }
  set (regs := upd (upd (cpu_regs cu) RCX (cpu_rip cu)) R11 (rflags_of USER_RFLAGS (cpu_flags cu))).
  assert (regs RDI = src ∧ regs RSI = dst ∧ regs RDX = n) as (Esrc&Edst&Elen) by (by split_and!).
  pose proof (call_range (kernel_tr (cpu_ram cu)) 2 regs (cpu_cr3 cu) (cpu_flags cu) (cpu_out cu) (cpu_ram cu)) as H.
  rewrite Esrc, Edst, Elen in H.
  specialize (H (kernel_tr_view _ Ht) Hf (stage_fixups m0 _ _ _ Hp Hs) ltac:(lia) Ha Hn Hap). cbv zeta in H. fold r in H.
  destruct (stopped_at r) as [[w a]|].
  - destruct Hst as (Hb&Hk&Ea). eapply served_intro; [exact Hret|exact Hb|eapply returns_mono; [|exact H]|intros; subst; by destruct w; [|lia]].
    intros m' [Hobs Hw]. subst k a. eapply stage_fault; [exact Hs|exact Hfr|exact Hdata|exact Hw| |exact Hcells].
    rewrite Hobs. by destruct w.
  - destruct Hst as (Hb&Hk1&Hk2). eapply served_intro; [exact Hret|exact Hb|eapply returns_mono; [|exact H]|].
    + intros m' ->. by apply (stage_quiet m0 k k (cpu_ram cu)).
    + intros Hk. exact (Hc2 ltac:(lia)).
Qed.
Ltac copy_eval Ht :=
  cbn [copy_range]; address_simpl;
  repeat (rewrite kernel_tr_pages by (exact Ht || lia);
          match goal with |- context [absent ?x] => let b := eval vm_compute in (absent x) in change (absent x) with b end; cbn match).
Ltac serve_tac Hc cu k src dst n :=
  pose proof (call_stage _ _ _ _ Hc) as Hs; pose proof (stage_tables m0 _ _ _ Hp Hs) as Ht;
  pose proof (stage_cells _ _ _ _ Hs) as Hcells;
  eassert (copy_range (kernel_tr (cpu_ram cu)) (Z.to_nat n) 0 src dst (cpu_ram cu) = _) as E;
    [unfold src, dst; let len := eval vm_compute in (Z.to_nat n) in change (Z.to_nat n) with len; copy_eval Ht; memory_simpl; reflexivity|];
  eapply (serve_range k cu src dst n Hc eq_refl); [lia|done|done|..]; rewrite E; cbn [copied copied_ram stopped_at];
    [done| |by split_and!]; clear E; cells_tac Hcells k.
Lemma serve_good cu : at_call m0 out 0 cu → served m0 0 cu.
Proof. intros Hc. serve_tac Hc cu 0%nat PARTIAL_GOOD_SOURCE PARTIAL_GOOD_DESTINATION 4. Qed.
Lemma serve_source_fault cu : at_call m0 out 1 cu → served m0 1 cu.
Proof. intros Hc. serve_tac Hc cu 1%nat PARTIAL_SOURCE_FAULT_SOURCE PARTIAL_SOURCE_FAULT_DESTINATION 4. Qed.
Lemma serve_dest_fault cu : at_call m0 out 2 cu → served m0 2 cu.
Proof. intros Hc. serve_tac Hc cu 2%nat PARTIAL_DEST_FAULT_SOURCE PARTIAL_DEST_FAULT_DESTINATION 4. Qed.
Lemma serve_short cu : at_call m0 out 3 cu → served m0 3 cu.
Proof. intros Hc. serve_tac Hc cu 3%nat PARTIAL_SHORT_SOURCE PARTIAL_SHORT_DESTINATION 1. Qed.
Lemma serve_all k cu : at_call m0 out k cu → (k < 9)%nat → served m0 k cu.
Proof.
  intros Hc Hk. destruct k as [|[|[|[|[|[|[|[|[|k]]]]]]]]]; [by apply serve_good|by apply serve_source_fault|by apply serve_dest_fault|
    by apply serve_short|apply serve_refused; auto|apply serve_refused; auto|by apply serve_byte|by apply serve_putc|by apply serve_unknown|lia].
Qed.
(** One call from the user's side. *)
Lemma call_step n k c cu :
  exec_in (user_tr (cpu_ram c)) 10 0x11000 build_user_guest c = Some (SysCalled, cu) → at_call m0 out k cu → (k < 9)%nat →
  ∃ c', run_user (S n) c = run_user n c' ∧ between m0 out k c'.
Proof.
  intros E Hc Hk. destruct (serve_all k cu Hc Hk) as (v&cr2&b&Hv&Hb&Hcr2&Hret).
  destruct Hc as [Hrip Hfl _ Hbx Hsp _ Hc3 Hout _].
  destruct (run_user_returns n c cu v cr2 [b] _ E Hfl Hret) as (c'&Ec&Hrip'&Hfl'&Hax&Hc2&Hr&Hcr3&Hout'&Hst).
  exists c'. split; [exact Ec|]. split; [congruence|done|congruence| | |intros; rewrite Hc2; auto|congruence| |done].
  - rewrite Hr; [done|]. apply (bool_decide_unpack _). by vm_compute.
  - rewrite Hr; [done|]. apply (bool_decide_unpack _). by vm_compute.
  - rewrite Hout', Hout, (take_S_r _ _ b) by done. unfold prints. by rewrite map_app, app_assoc.
Qed.
End calls.

(** ** From the first instruction to the halt *)
Lemma kernel_stack_tr m : four_levels m 0x1000 0x2000 0x3000 0x8000 partial_pte → ∀ w n a, 0x1fd000 ≤ a < 0x1ff000 → kernel_tr m w n a = Some a.
Proof.
  intros Ht w n a Ha. rewrite kernel_tr_pages by (done || lia).
  assert (absent (a / 4096) = false) as ->; [|done]. unfold absent. apply orb_false_intro; apply Z.eqb_neq; dlia.
Qed.
Lemma holds_block m bs : ∀ a, (∀ i b, bs !! i = Some b → rd8 m (a + Z.of_nat i) = b) → holds m (cells_of a bs).
Proof.
  induction bs as [|b bs IH]; intros a H; cbn [cells_of]; [by apply Forall_nil|]. apply Forall_cons. split.
  - rewrite <- (Z.add_0_r a). by apply (H 0%nat).
  - apply IH. intros i u Hu. rewrite <- (H (S i) u Hu). f_equal. lia.
Qed.
Lemma holds_prepared m0 : prepared m0 → holds m0 (cells 0).
Proof.
  intros [_ _ _ _ _ _ Hi]. unfold cells, holds. apply Forall_concat, Forall_forall. intros l Hl.
  apply list_elem_of_In, in_map_iff in Hl as ([a bs]&<-&Hin). apply holds_block. intros i b Hb.
  assert ((a, bs) ∈ image_writes ++ data_writes ++ record_writes) as Hin'.
  { rewrite !elem_of_app. right. left. by apply list_elem_of_In. }
  specialize (Hi a bs Hin'). assert (Z.of_nat i < len bs) as Hlt by (apply lookup_lt_Some in Hb; unfold len; lia).
  rewrite <- Hi, mem_get_lookup in Hb by done. by injection Hb.
Qed.
Lemma boot_runs m regs out :
  prepared m →
  ∃ c, exec_in (kernel_tr m) 20 0x10000 KERNEL_BOOT_BYTES (mkCpu 0x10000 (upd regs RSP 0x1ff000) 0x1000 (mkFlags false 0) out m) =
       Some (Returned (mkFrame 0x11000 0x23 0x202 0x1fd000 0x1b), c) ∧ cpu_cr3 c = 0x1000 ∧ cpu_out c = out ∧
    tables_fit (cpu_ram c) ∧ ∀ x, ¬ 0x1fefd8 ≤ x < 0x1ff000 → rd8 (cpu_ram c) x = rd8 m x.
Proof.
  intros Hp. pose proof (kernel_stack_tr m (prepared_pages m Hp)) as Hk. pose proof (prepared_fits m Hp) as Hf.
  assert (memory_wf m) as Hm by apply Hf. unfold RSP.
  match goal with |- context [exec_in ?tr ?n ?b ?code ?c] => eassert (exec_in tr n b code c = _) as E end;
    [kernel_run Hk idtac; reflexivity|].
  eexists. split; [exact E|]. clear E. cbn [cpu_rip cpu_regs cpu_cr3 cpu_flags cpu_out cpu_ram]. split_and!; [done|done| |].
  - by repeat apply wr64_fits.
  - intros x Hx. by rewrite !rd8_wr64_out by lia.
Qed.
Lemma first_call m0 out c :
  prepared m0 → cpu_cr3 c = 0x1000 → cpu_out c = out → tables_fit (cpu_ram c) →
  (∀ x, ¬ 0x1fefd8 ≤ x < 0x1ff000 → rd8 (cpu_ram c) x = rd8 m0 x) →
  ∃ cu, exec_in (user_tr (cpu_ram c)) 10 0x11000 build_user_guest (resume (mkFrame 0x11000 0x23 0x202 0x1fd000 0x1b) c) =
          Some (SysCalled, cu) ∧ at_call m0 out 0 cu.
Proof.
  intros Hp Hc3 Hout Hf Hm. destruct c as [rip regs cr3 fl o m]. cbn [cpu_rip cpu_regs cpu_cr3 cpu_flags cpu_out cpu_ram resume] in *.
  assert (stage m0 0 0 m) as Hs.
  { split; [done| | |intros; lia|intros; lia|intros; lia].
    - intros x Hx. apply Hm. unfold scratch in Hx. lia.
    - eapply holds_agree; [|by apply holds_prepared]. intros a v Hin%cells_in. apply Hm. lia. }
  unfold resume. cbn [cpu_rip cpu_regs cpu_cr3 cpu_flags cpu_out cpu_ram frame_rip frame_rsp frame_rflags].
  change (flags_of 514) with (mkFlags false 0). eexists. split; [repeat x86_step; reflexivity|].
  split; cbn [cpu_rip cpu_regs cpu_cr3 cpu_flags cpu_out cpu_ram call_args]; unfold RBX, RSP, CR2; upd_simpl; try done.
  - repeat (apply Forall_cons; split; [upd_simpl; reflexivity|]). by apply Forall_nil.
  - lia.
  - by rewrite Hout, app_nil_r.
Qed.
Lemma run_user_all m0 out n : ∀ k c,
  prepared m0 → between m0 out k c → (k + n = 8)%nat → ∃ c', run_user n c = run_user 0 c' ∧ between m0 out 8 c'.
Proof.
  induction n as [|n IH]; intros k c Hp Hb Hk; [exists c; by replace 8%nat with k by lia|].
  destruct (segment m0 out k c Hp Hb) as (cu&E&Hc); [lia|].
  destruct (call_step m0 out Hp n (S k) c cu E Hc) as (c'&->&Hb'); [lia|]. apply (IH (S k)); [done|done|lia].
Qed.
(** The last result is stored, and the user leaves for good. *)
Lemma last_segment m0 out c :
  prepared m0 → between m0 out 8 c →
  ∃ c', run_user 0 c = Some (Trapped 0x81, c') ∧ cpu_rip c' = 0x1111d ∧ cpu_flags c' = mkFlags false 0 ∧ cpu_regs c' RSP = 0x1fd000 ∧
    cpu_regs c' CR2 = 0x2b000 ∧ cpu_cr3 c' = 0x1000 ∧ cpu_out c' = out ++ prints (take 9 PARTIAL_PROOF) ∧ stage m0 9 9 (cpu_ram c').
Proof.
  intros Hp [Hrip Hfl Hax Hbx Hsp Hc2 Hc3 Hout Hs]. pose proof (user_tr_results m0 _ _ _ Hp Hs) as Hu.
  pose proof (stage_store m0 _ _ _ _ Hs Hax) as Hst. specialize (Hc2 ltac:(lia)).
  destruct c as [rip regs cr3 fl o m]. cbn [cpu_rip cpu_regs cpu_cr3 cpu_flags cpu_out cpu_ram] in *. unfold RBX, RSP, RAX, CR2 in *.
  injection Hrip as <-. cbn [run_user cpu_ram]. change PRIVILEGE_USER_ENTRY with 0x11000.
  match goal with |- context [exec_in ?tr ?n ?b ?code ?c] => eassert (exec_in tr n b code c = _) as E end;
    [user_exec Hbx Hu; reflexivity|].
  rewrite E. eexists. split; [reflexivity|]. clear E. by split_and!.
Qed.

(** ** The host's verdict *)
(** What [run_partial_dispatch_guest] reads when the guest has halted: guest memory, the registers and the exit report. *)
Definition collect (efer : Z) (c : Cpu) : res Error PartialDispatchGuestResult :=
  let m := cpu_ram c in
  let rflags := rflags_of X86_RFLAGS_RESERVED (cpu_flags c) in
  returns ← read_returns m;
  good ← read_four m PARTIAL_GOOD_DESTINATION;
  source_fault ← read_four m PARTIAL_SOURCE_FAULT_DESTINATION;
  destination_fault ← read_four m PARTIAL_DEST_FAULT_DESTINATION;
  short ← read_four m PARTIAL_SHORT_DESTINATION;
  byte ← read_byte m PARTIAL_BYTE_DESTINATION;
  read_fault ← read_fault_observation m PARTIAL_READ_FAULT_OBSERVATION_ADDR;
  write_fault ← read_fault_observation m PARTIAL_WRITE_FAULT_OBSERVATION_ADDR;
  fixups ← read_fixup_table m;
  frame ← read_terminal_frame m;
  user_ptes ← read_all (λ '(page, _), pte ← read_pte m PRIVILEGE_PT_ADDR page; Ok (page, pte)) USER_PAGES;
  service_pte ← read_pte m PRIVILEGE_PT_ADDR SYSCALL_KERNEL_ENTRY;
  fault_handler_pte ← read_pte m PRIVILEGE_PT_ADDR PARTIAL_PAGE_FAULT_HANDLER;
  fault_metadata_pte ← read_pte m PRIVILEGE_PT_ADDR PARTIAL_READ_FAULT_OBSERVATION_ADDR;
  Ok (mkResult returns good source_fault destination_fault short byte read_fault write_fault fixups frame (cpu_regs c RSP)
        KERNEL_CODE_SELECTOR rflags (cpu_regs c CR2) [efer; SYSCALL_STAR_VALUE; SYSCALL_LSTAR_VALUE; SYSCALL_SFMASK_VALUE]
        user_ptes service_pte fault_handler_pte fault_metadata_pte
        {| report_vcpu_id := 0; report_exit := VcpuRun.Hlt; report_rip := cpu_rip c; report_rflags := rflags |}).
Lemma stage_frame m0 m m' :
  stage m0 9 9 m → tables_fit m' → (∀ x, ¬ 0x1fdfd0 ≤ x < 0x1fe000 → rd8 m' x = rd8 m x) → stage m0 9 9 m'.
Proof.
  intros [Hf Hk Hc Hr H2 H3] Hf' Hm. split; [done| | | | |].
  - intros x Hx. rewrite Hm by (unfold scratch in Hx; lia). by apply Hk.
  - eapply holds_agree; [|exact Hc]. intros a v Hin%cells_in. apply Hm. lia.
  - intros i v Hi Hv. rewrite (rd64_agree m m'); [by apply Hr|done|done|]. intros. apply Hm. lia.
  - intros Hn. rewrite <- H2 by lia. apply observation_agree; [done..|]. intros. apply Hm. lia.
  - intros Hn. rewrite <- H3 by lia. apply observation_agree; [done..|]. intros. apply Hm. lia.
Qed.
Definition terminal_frame_at (m : GuestMemory) : PartialDispatchTerminalFrame :=
  mkTerminalFrame (rd64 m 0x1fdfd8) (rd64 m 0x1fdfe0) (rd64 m 0x1fdfe8) (rd64 m 0x1fdff0) (rd64 m 0x1fdff8).
Lemma terminal_stop m0 out c :
  prepared m0 → cpu_rip c = 0x1111d → cpu_flags c = mkFlags false 0 → cpu_regs c RSP = 0x1fd000 → cpu_regs c CR2 = 0x2b000 →
  cpu_out c = out ++ prints (take 9 PARTIAL_PROOF) → stage m0 9 9 (cpu_ram c) →
  ∃ c', exec_in (kernel_tr (cpu_ram c)) 10 0x13000 Partial.TERMINAL_HANDLER_BYTES
          (interrupt 0x13000 0x1fe000 (mkFrame 0x1111d 0x23 0x202 0x1fd000 0x1b) c) = Some (Halted, c') ∧
    cpu_rip c' = 0x13005 ∧ cpu_flags c' = mkFlags false 0 ∧ cpu_regs c' RSP = 0x1fdfd8 ∧ cpu_regs c' CR2 = 0x2b000 ∧
    cpu_out c' = out ++ prints PARTIAL_PROOF ∧ stage m0 9 9 (cpu_ram c') ∧
    terminal_frame_at (cpu_ram c') = mkTerminalFrame 0x1111d 0x23 0x202 0x1fd000 0x1b.
Proof.
  intros Hp Hrip Hfl Hsp Hc2 Hout Hs. destruct c as [rip regs cr3 fl o m].
  cbn [cpu_rip cpu_regs cpu_cr3 cpu_flags cpu_out cpu_ram] in *. subst fl o. unfold interrupt, RSP, CR2 in *.
  cbn [cpu_rip cpu_regs cpu_cr3 cpu_flags cpu_out cpu_ram frame_rip frame_cs frame_rflags frame_rsp frame_ss]. eexists.
  split; [repeat x86_step; reflexivity|]. cbn [cpu_rip cpu_regs cpu_cr3 cpu_flags cpu_out cpu_ram]. unfold terminal_frame_at. upd_simpl.
  rewrite low8_set_al by lia. rd64_simpl. split_and!; [done|done|done|done| | |done].
  - by rewrite <- app_assoc.
  - eapply stage_frame; [exact Hs|repeat apply wr64_fits; apply Hs|]. intros x Hx. by rewrite !rd8_wr64_out by lia.
Qed.
Lemma cells_block m a bs k :
  holds m (cells k) → forallb (λ '(b, v), match cell_value b (cells k) with Some u => u =? v | None => false end) (cells_of a bs) = true →
  mem_get m a (len bs) = bs.
Proof.
  intros Hh Hall. apply list_eq. intros i. destruct (bs !! i) as [b|] eqn:Hb.
  - assert (Z.of_nat i < len bs) by (apply lookup_lt_Some in Hb; unfold len; lia). rewrite mem_get_lookup by done. f_equal.
    assert (∀ a i b, bs !! i = Some b → (a + Z.of_nat i, b) ∈ cells_of a bs) as Hin.
    { clear. induction bs as [|c bs IH]; intros a [|i] b; cbn; [done|done|intros [= ->]; rewrite Z.add_0_r; left|].
      intros Hb. right. replace (a + Z.of_nat (S i)) with (a + 1 + Z.of_nat i) by lia. exact (IH (a + 1) i b Hb). }
    rewrite forallb_forall in Hall. specialize (Hall _ (proj1 (list_elem_of_In _ _) (Hin a i b Hb))). cbv beta iota in Hall.
    destruct (cell_value _ _) as [u|] eqn:E; [|done]. apply Z.eqb_eq in Hall as ->. by apply (holds_read m (cells k)).
  - apply lookup_ge_None_2. apply lookup_ge_None_1 in Hb. unfold mem_get. rewrite length_store_read. unfold len. lia.
Qed.
Lemma read_pte_page m va i :
  tables_fit m → Z.land va (unot 64 (LONG_MODE_PAGE_SIZE - 1)) / LONG_MODE_PAGE_SIZE = i → 0 ≤ i < 512 →
  read_pte m PRIVILEGE_PT_ADDR va = Ok (table_entry m 0x8000 i).
Proof.
  intros Hf Hi Hb. unfold read_pte, PRIVILEGE_PT_ADDR. rewrite Hi. rewrite umul_ok by lia. cbn [mbind res_bind]. rewrite uadd_ok by lia.
  cbn [mbind res_bind]. rewrite read_fits by (done || (unfold LONG_MODE_IDENTITY_MAP_SIZE; lia)). cbn [mbind res_bind].
  unfold table_entry, u64_at. by rewrite (Z.mul_comm i 8).
Qed.
Lemma returns_stored m0 m : stage m0 9 9 m → read_returns m = Ok expected_returns.
Proof.
  intros [Hf _ _ Hr _ _]. unfold read_returns. rewrite read_fits by (done || (vm_compute; congruence)).
  cbn [mbind res_bind read_all]. unfold read_u64. rewrite !field_at by lia. cbn [mbind res_bind]. f_equal. unfold expected_returns.
  let rec go i := first [apply (f_equal2 cons); [exact (Hr i _ ltac:(lia) eq_refl)|go (S i)]|reflexivity] in go 0%nat.
Qed.
Lemma read_terminal_frame_at m : tables_fit m → read_terminal_frame m = Ok (terminal_frame_at m).
Proof.
  intros Hf. unfold read_terminal_frame. rewrite usub_ok by (vm_compute; congruence). cbn [mbind res_bind].
  rewrite read_fits by (done || (vm_compute; congruence)). cbn [mbind res_bind]. unfold read_u64.
  by rewrite !field_at by (vm_compute; congruence).
Qed.
Lemma block_stored m0 m a bs n :
  stage m0 9 9 m → len bs = n →
  forallb (λ '(b, v), match cell_value b (cells 9) with Some u => u =? v | None => false end) (cells_of a bs) = true →
  0 ≤ a → a + len bs ≤ LONG_MODE_IDENTITY_MAP_SIZE → read m a n = Ok bs.
Proof.
  intros Hs <- Hall Ha Hb. rewrite read_fits by (apply Hs || done || apply len_nonneg). by rewrite (cells_block m a bs 9) by (apply Hs || done).
Qed.
Lemma pte_stored m0 m page i :
  prepared m0 → stage m0 9 9 m → Z.land page (unot 64 (LONG_MODE_PAGE_SIZE - 1)) / LONG_MODE_PAGE_SIZE = i → 0 ≤ i < 512 →
  read_pte m PRIVILEGE_PT_ADDR page = Ok (partial_pte i).
Proof.
  intros Hp Hs Hi Hb. rewrite (read_pte_page m page i) by (apply Hs || done).
  destruct (stage_tables _ _ _ _ Hp Hs) as [_ _ _ Ht]. by rewrite Ht.
Qed.
Definition final_result (efer : Z) : PartialDispatchGuestResult :=
  mkResult expected_returns PARTIAL_GOOD_BYTES [0x55; 0x66; 0; 0] [0x99; 0xaa; 0; 0] [0xde; 0; 0; 0] PARTIAL_BYTE_VALUE
    expected_read_fault expected_write_fault expected_fixup_entries (mkTerminalFrame 0x1111d 0x23 0x202 0x1fd000 0x1b) 0x1fdfd8
    KERNEL_CODE_SELECTOR 2 0x2b000 [efer; SYSCALL_STAR_VALUE; SYSCALL_LSTAR_VALUE; SYSCALL_SFMASK_VALUE]
    (map (λ '(page, _), (page, partial_pte (page / 4096))) USER_PAGES) (partial_pte 0x12) (partial_pte 0x14) (partial_pte 0xb)
    {| report_vcpu_id := 0; report_exit := VcpuRun.Hlt; report_rip := 0x13005; report_rflags := 2 |}.
Lemma collect_final m0 efer c :
  prepared m0 → stage m0 9 9 (cpu_ram c) → cpu_rip c = 0x13005 → cpu_flags c = mkFlags false 0 →
  cpu_regs c RSP = 0x1fdfd8 → cpu_regs c CR2 = 0x2b000 →
  terminal_frame_at (cpu_ram c) = mkTerminalFrame 0x1111d 0x23 0x202 0x1fd000 0x1b → collect efer c = Ok (final_result efer).
Proof.
  intros Hp Hs Hrip Hfl Hsp Hc2 Htf. unfold collect. rewrite Hrip, Hfl, Hsp, Hc2. pose proof (stage_fits _ _ _ _ Hs) as Hf.
  set (m := cpu_ram c) in *. rewrite (returns_stored m0) by done. cbn [mbind res_bind]. unfold read_four.
  rewrite (block_stored m0 m PARTIAL_GOOD_DESTINATION PARTIAL_GOOD_BYTES 4) by (done || (vm_compute; congruence)). cbn [mbind res_bind].
  rewrite (block_stored m0 m PARTIAL_SOURCE_FAULT_DESTINATION [0x55; 0x66; 0; 0] 4) by (done || (vm_compute; congruence)). cbn [mbind res_bind].
  rewrite (block_stored m0 m PARTIAL_DEST_FAULT_DESTINATION [0x99; 0xaa; 0; 0] 4) by (done || (vm_compute; congruence)). cbn [mbind res_bind].
  rewrite (block_stored m0 m PARTIAL_SHORT_DESTINATION [0xde; 0; 0; 0] 4) by (done || (vm_compute; congruence)). cbn [mbind res_bind].
  rewrite read_byte_fits, (holds_read m (cells 9) _ 0x6b) by (done || apply Hs || (vm_compute; intuition congruence)). cbn [mbind res_bind].
  rewrite !read_fault_observation_at by (done || (vm_compute; congruence)). cbn [mbind res_bind].
  change PARTIAL_READ_FAULT_OBSERVATION_ADDR with 0xb000 at 1. change PARTIAL_WRITE_FAULT_OBSERVATION_ADDR with 0xb040.
  rewrite (stage_read_fault _ _ _ _ Hs), (stage_write_fault _ _ _ _ Hs) by lia.
  rewrite read_fixup_table_at, (stage_fixups _ _ _ _ Hp Hs), read_terminal_frame_at, Htf by done. cbn [mbind res_bind].
  assert (read_all (λ '(page, _), pte ← read_pte m PRIVILEGE_PT_ADDR page; Ok (page, pte)) USER_PAGES =
            Ok (map (λ '(page, _), (page, partial_pte (page / 4096))) USER_PAGES)) as ->.
  { unfold USER_PAGES. cbn [read_all].
    repeat (erewrite (pte_stored m0 m _ _ Hp Hs) by (reflexivity || (vm_compute; intuition congruence)); cbn [mbind res_bind]). reflexivity. }
  cbn [mbind res_bind].
  do 3 (erewrite (pte_stored m0 m _ _ Hp Hs) by (reflexivity || (vm_compute; intuition congruence)); cbn [mbind res_bind]). reflexivity.
Qed.
Lemma final_accepted efer : Z.land efer 1 = 1 → validate_runtime_state (final_result efer) 0x1111d = Ok tt.
Proof.
  intros He. unfold validate_runtime_state. cbv zeta. do 6 (eapply DeviceInterrupts.bind_Ok_intro; [reflexivity|]).
  cbv beta. change EFER_SYSCALL_ENABLE with 1. rewrite He. vm_compute. reflexivity.
Qed.
Lemma stage_bytes m0 m a n : tables_fit m0 → stage m0 9 9 m → 0 ≤ n → (∀ x, a ≤ x < a + n → ¬ scratch x) → mem_get m a n = mem_get m0 a n.
Proof.
  intros (_&Hb&_) [(_&Hb'&_) Hk _ _ _ _] Hn H. unfold mem_get. rewrite Hb, Hb'. apply store_read_ext. intros o Ho.
  specialize (Hk o). unfold rd8, byte_at in Hk. rewrite Hb, Hb', Z.sub_0_r in Hk. apply Hk, H. lia.
Qed.

Lemma guest_runs m regs out :
  prepared m →
  ∃ c, run_guest regs out m = Some (Halted, c) ∧ cpu_out c = out ++ prints PARTIAL_PROOF ∧ stage m 9 9 (cpu_ram c) ∧
    ∀ efer, collect efer c = Ok (final_result efer).
Proof.
  intros Hp. unfold run_guest. cbv zeta.
  destruct (boot_runs m regs out Hp) as (c0&E0&H3&Hout&Hf&Hm). change (exec_in (kernel_tr m) 20 _ _ _) with
    (exec_in (kernel_tr m) 20 0x10000 KERNEL_BOOT_BYTES (mkCpu 0x10000 (upd regs RSP 0x1ff000) 0x1000 (mkFlags false 0) out m)).
  rewrite E0. destruct (first_call m out c0 Hp H3 Hout Hf Hm) as (cu&Eu&Hcall).
  destruct (call_step m out Hp 8 0 (resume (mkFrame 0x11000 0x23 0x202 0x1fd000 0x1b) c0) cu Eu Hcall) as (c1&->&Hb); [lia|].
  destruct (run_user_all m out 8 0 c1 Hp Hb eq_refl) as (c2&->&Hb2).
  destruct (last_segment m out c2 Hp Hb2) as (c3&->&Hrip&Hfl&Hsp&Hc2&_&Ho3&Hs3).
  destruct (terminal_stop m out c3 Hp Hrip Hfl Hsp Hc2 Ho3 Hs3) as (c4&E4&Hrip4&Hfl4&Hsp4&Hc24&Ho4&Hs4&Htf).
  exists c4. rewrite Hrip, Hfl, Hsp. split; [exact E4|]. split; [exact Ho4|]. split; [exact Hs4|]. intros efer. by apply (collect_final m).
Qed.
Lemma absent_pages i : absent i = bool_decide (i * 4096 ∈ [PARTIAL_SOURCE_FAULT_ADDR; PARTIAL_DEST_FAULT_ADDR]).
Proof.
  unfold absent, PARTIAL_SOURCE_FAULT_ADDR, PARTIAL_DEST_FAULT_ADDR.
  destruct (Z.eqb_spec i 0x25) as [->|]; [done|]. destruct (Z.eqb_spec i 0x2b) as [->|]; [done|].
  symmetry. apply bool_decide_eq_false. rewrite !elem_of_cons, elem_of_nil. lia.
Qed.
Lemma images_clear a bs : (a, bs) ∈ image_writes → ∀ x, a ≤ x < a + len bs → ¬ scratch x.
Proof.
  intros Hin x Hx. assert (forallb (λ '(a, bs), (0x10000 <=? a) && (a + len bs <=? 0x20000)) image_writes = true) as H by (vm_compute; reflexivity).
  rewrite forallb_forall in H. apply list_elem_of_In, H, andb_prop in Hin as [H1%Z.leb_le H2%Z.leb_le]. unfold scratch. lia.
Qed.

Lemma prepared_walks m va :
  prepared m → 0 ≤ va < LONG_MODE_IDENTITY_MAP_SIZE →
  walk m LONG_MODE_PML4_ADDR va = (if bool_decide (va / 4096 * 4096 ∈ [PARTIAL_SOURCE_FAULT_ADDR; PARTIAL_DEST_FAULT_ADDR]) then None else Some va) ∧
  user_walk m LONG_MODE_PML4_ADDR va =
    (if bool_decide (va / 4096 * 4096 ∈ [PARTIAL_SOURCE_FAULT_ADDR; PARTIAL_DEST_FAULT_ADDR]) then None
     else if partial_user (va / 4096) then Some va else None).
Proof.
  intros Hp Hva. rewrite <- absent_pages. unfold LONG_MODE_IDENTITY_MAP_SIZE in Hva. pose proof (prepared_pages m Hp) as Ht.
  pose proof (kernel_tr_pages m false 1 va Ht Hva) as E1. pose proof (user_tr_pages m false 1 va Ht Hva) as E2. unfold kernel_tr in E1. unfold user_tr in E2.
  rewrite E1, E2. by destruct (absent _), (partial_user _).
Qed.
Lemma image_kept m m' a bs :
  prepared m → stage m 9 9 m' → (a, bs) ∈ image_writes → mem_get m a (len bs) = bs ∧ mem_get m' a (len bs) = bs.
Proof.
  intros Hp Hs Hin. assert (mem_get m a (len bs) = bs) as E by (apply Hp, elem_of_app; by left). split; [done|].
  rewrite (stage_bytes m) by (apply Hp || done || apply len_nonneg || by apply images_clear). exact E.
Qed.
Lemma terminal_rip : PRIVILEGE_USER_ENTRY + len build_user_guest = 0x1111d.
Proof. vm_compute. reflexivity. Qed.

