(* ===== verification/PageSet.v ===== *)
(** Page-set checkpoints ([src/src/state_snapshot/page_set.rs]): capturing up to eight
    guest pages together with the vCPU state, comparing a checkpoint with the live
    machine, and restoring it.

    Numbers interpolated into error messages are left out of the messages. *)

From stdpp Require Import sorting.
From S2P Require Import Prelude Errors Memory LongMode Msr VcpuState SchemaV1.

(** * Definitions *)
Definition page_set_error (operation detail : string) : Error :=
  HostEnvironment (VcpuOperation 0 operation (Custom InvalidData (Message detail))).
Definition sort_addresses (addresses : list Z) : list Z := merge_sort Z.le addresses.
Fixpoint check_aligned (addresses : list Z) : res Error unit :=
  match addresses with
  | [] => mret tt
  | address :: addresses =>
      rest ← urem address LONG_MODE_PAGE_SIZE;
      err_if (negb (rest =? 0))
        (page_set_error "bounded page-set checkpoint capture" "checkpoint page is not 4KiB aligned");;
      check_aligned addresses
  end.
(** [windows(2).any(|pair| pair[0] == pair[1])]. *)
Fixpoint has_equal_neighbours (addresses : list Z) : bool :=
  match addresses with
  | a :: ((b :: _) as rest) => (a =? b) || has_equal_neighbours rest
  | _ => false
  end.
Definition validate_page_addresses (addresses : list Z) : res Error (list Z) :=
  err_if (is_empty addresses) (page_set_error "bounded page-set checkpoint capture"
    "checkpoint ownership set must contain at least one page");;
  err_if (BOUNDED_CHECKPOINT_PAGE_SET_LIMIT <? len addresses)
    (page_set_error "bounded page-set checkpoint capture" "checkpoint ownership set has too many pages");;
  let canonical := sort_addresses addresses in
  check_aligned canonical;;
  err_if (has_equal_neighbours canonical) (page_set_error "bounded page-set checkpoint capture"
    "checkpoint ownership set contains a duplicate page");;
  mret canonical.
Fixpoint capture_pages (m : GuestMemory) (addresses : list Z) : res Error (list BoundedCheckpointPage) :=
  match addresses with
  | [] => mret []
  | address :: addresses =>
      bytes ← read m address LONG_MODE_PAGE_SIZE;
      pages ← capture_pages m addresses;
      mret ({| page_address := address; page_bytes := bytes |} :: pages)
  end.
Record BoundedCheckpointPageComparison := { compared_address : Z; compared_exact : bool }.
Fixpoint compare_pages (expected : list BoundedCheckpointPage) (m : GuestMemory) :
  res Error (list BoundedCheckpointPageComparison) :=
  match expected with
  | [] => mret []
  | page :: expected =>
      observed ← read m (page_address page) (len (page_bytes page));
      comparisons ← compare_pages expected m;
      mret ({| compared_address := page_address page;
               compared_exact := bool_decide (observed = page_bytes page) |} :: comparisons)
  end.
Record BoundedPageSetCheckpointComparison := {
  compared_pages : list BoundedCheckpointPageComparison; compared_vcpu : VcpuStateSnapshotComparison
}.
Definition all_pages_exact (c : BoundedPageSetCheckpointComparison) : bool :=
  forallb compared_exact (compared_pages c).
Definition page_set_is_exact_match (c : BoundedPageSetCheckpointComparison) : bool :=
  all_pages_exact c && state_is_exact_match (compared_vcpu c).

Section page_set.
Context {V : Type} `{!KvmVcpu V} (id : Z).
Definition capture_page_set (policy : GuestMsrAccessPolicy) (m : GuestMemory) (addresses : list Z)
    (v : V) : res Error BoundedVcpuPageSetCheckpoint :=
  addresses ← validate_page_addresses addresses;
  pages ← capture_pages m addresses;
  vcpu ← capture_state_snapshot id policy v;
  mret {| set_pages := pages; set_vcpu := vcpu |}.
Definition verify_page_set (self : BoundedVcpuPageSetCheckpoint) (v : V) (m : GuestMemory) :
  res Error BoundedPageSetCheckpointComparison :=
  pages ← compare_pages (set_pages self) m;
  vcpu ← verify_state_snapshot id (set_vcpu self) v;
  mret {| compared_pages := pages; compared_vcpu := vcpu |}.
Fixpoint write_pages (pages : list BoundedCheckpointPage) : prog (V * GuestMemory) Error unit :=
  match pages with
  | [] => mret tt
  | page :: pages =>
      (λ s, match write s.2 (page_address page) (page_bytes page) with
            | Ok m => (Ok tt, (s.1, m))
            | Err e => (Err e, s)
            | Panic => (Panic, s)
            end);;
      write_pages pages
  end.
Definition on_kernel {A} (f : prog V Error A) : prog (V * GuestMemory) Error A := λ s,
  let '(r, v) := f s.1 in (r, (v, s.2)).
Definition restore_and_verify_page_set (self : BoundedVcpuPageSetCheckpoint) :
  prog (V * GuestMemory) Error BoundedPageSetCheckpointComparison :=
  write_pages (set_pages self);;
  vcpu ← on_kernel (restore_and_verify_state_snapshot id (set_vcpu self));
  pages ← reading (λ s, compare_pages (set_pages self) s.2);
  mret {| compared_pages := pages; compared_vcpu := vcpu |}.
End page_set.

(** * Facts *)

(** ** Validated address sets *)
Definition page_set_addresses (addresses canonical : list Z) : Prop :=
  canonical ≡ₚ addresses ∧ StronglySorted Z.lt canonical ∧
  1 ≤ len canonical ≤ BOUNDED_CHECKPOINT_PAGE_SET_LIMIT ∧
  Forall (λ a, a mod LONG_MODE_PAGE_SIZE = 0) canonical.
Lemma check_aligned_Ok l : check_aligned l = Ok tt ↔ Forall (λ a, a mod LONG_MODE_PAGE_SIZE = 0) l.
Proof.
  induction l as [|a l IH]; cbn [check_aligned]; [split; [intros; apply Forall_nil_2|done]|].
  rewrite urem_ok by done. cbn [mbind res_bind]. rewrite bind_err_if_Ok, negb_false_iff, Z.eqb_eq.
  rewrite Forall_cons, <- IH. done.
Qed.
Lemma no_panic_check_aligned l : no_panic (check_aligned l).
Proof. induction l as [|a l IH]; cbn [check_aligned]; [done|]. rewrite urem_ok by done. cbn [mbind res_bind]. np. Qed.
#[export] Hint Resolve no_panic_check_aligned : panics.
Lemma sorted_strict l :
  StronglySorted Z.le l → has_equal_neighbours l = false ↔ StronglySorted Z.lt l.
Proof.
  induction 1 as [|a l Hs IH Ha]; [split; [constructor|done]|].
  destruct l as [|b l]; [split; [repeat constructor|done]|].
  cbn [has_equal_neighbours]. rewrite orb_false_iff, Z.eqb_neq, IH.
  split.
  - intros [Hne Hlt]. constructor; [done|]. inversion_clear Hlt as [|? ? _ Hb].
    rewrite Forall_cons in Ha. destruct Ha as [Hab Ha].
    apply Forall_cons. split; [lia|]. eapply Forall_impl; [exact Hb|]. simpl. lia.
  - intros Hlt. inversion_clear Hlt as [|? ? Hs' Hb]. rewrite Forall_cons in Hb. split; [lia|done].
Qed.
Lemma validate_page_addresses_Ok addresses canonical :
  validate_page_addresses addresses = Ok canonical → page_set_addresses addresses canonical.
Proof.
  intros H. unfold validate_page_addresses in H. bind_inv H.
  pose proof (merge_sort_Permutation Z.le addresses) as Hp.
  unfold page_set_addresses, sort_addresses in *. split_and!; [done| | | |].
  - apply sorted_strict; [|done]. apply StronglySorted_merge_sort; apply _.
  - destruct addresses; [done|]. unfold len. rewrite (Permutation_length Hp). simpl. lia.
  - unfold len in *. rewrite (Permutation_length Hp). lia.
  - by apply check_aligned_Ok.
Qed.

(** ** Pages in guest memory *)
Definition page_of (m : GuestMemory) (a : Z) : BoundedCheckpointPage :=
  {| page_address := a; page_bytes := mem_get m a LONG_MODE_PAGE_SIZE |}.
Definition page_in (r : GuestMemoryRegion) (a : Z) : Prop := in_region r a LONG_MODE_PAGE_SIZE.
Lemma capture_pages_Ok m l pages :
  memory_wf m → Forall (λ a, 0 ≤ a) l →
  capture_pages m l = Ok pages ↔ Forall (page_in (region m)) l ∧ pages = page_of m <$> l.
Proof.
  intros Hm Hl. revert pages.
  induction Hl as [|a l Ha _ IH]; intros pages; cbn [capture_pages].
  { split; [intros [= <-]; split; [apply Forall_nil_2|done]|by intros [_ ->]]. }
  rewrite Forall_cons, fmap_cons. split.
  - intros H. bind_inv H. apply read_inv in Hstep as [? ->]; [|done..].
    apply IH in Hstep0 as [? ->]. done.
  - intros [[Hin Hr] ->]. rewrite read_ok by done. cbn [mbind res_bind].
    by rewrite (proj2 (IH _) (conj Hr eq_refl)).
Qed.
(** Memory with a list of pages written over it. *)
Definition restored (m : GuestMemory) (pages : list BoundedCheckpointPage) : GuestMemory :=
  foldl (λ m p, mem_set m (page_address p) (page_bytes p)) m pages.
Definition page_fits (r : GuestMemoryRegion) (p : BoundedCheckpointPage) : Prop :=
  page_in r (page_address p) ∧ len (page_bytes p) = LONG_MODE_PAGE_SIZE ∧ bytes_ok (page_bytes p).
Lemma restored_region m pages : region (restored m pages) = region m.
Proof.
  revert m. induction pages as [|p pages IH]; intros m; [done|]. simpl. by rewrite IH, mem_set_region.
Qed.
Lemma restored_wf m pages :
  memory_wf m → Forall (λ p, bytes_ok (page_bytes p)) pages → memory_wf (restored m pages).
Proof.
  revert m. induction pages as [|p pages IH]; intros m Hm Hp; [done|].
  apply Forall_cons in Hp as [? Hp]. simpl. apply IH; [by apply mem_set_wf|done].
Qed.
Lemma restored_outside m pages x :
  Forall (λ p, len (page_bytes p) = LONG_MODE_PAGE_SIZE) pages →
  Forall (λ p, x < page_address p ∨ page_address p + LONG_MODE_PAGE_SIZE ≤ x) pages →
  byte_at (restored m pages) x = byte_at m x.
Proof.
  revert m. induction pages as [|p pages IH]; intros m Hl Hx; [done|].
  apply Forall_cons in Hl as [Hl1 Hl], Hx as [Hx1 Hx]. simpl. rewrite IH by done.
  apply byte_at_set_out. by rewrite Hl1.
Qed.
Lemma restored_page m pages p :
  StronglySorted Z.lt (page_address <$> pages) →
  Forall (λ a, a mod LONG_MODE_PAGE_SIZE = 0) (page_address <$> pages) →
  Forall (page_fits (region m)) pages → p ∈ pages →
  mem_get (restored m pages) (page_address p) LONG_MODE_PAGE_SIZE = page_bytes p.
Proof.
  revert m. induction pages as [|q pages IH]; intros m Hs Ha Hf Hp; [by apply elem_of_nil in Hp|].
  rewrite fmap_cons in Hs, Ha. inversion_clear Hs as [|? ? Hs' Hlt].
  apply Forall_cons in Ha as [Haq Ha], Hf as [(_&Hlen&_) Hf]. simpl.
  apply elem_of_cons in Hp as [->|Hp].
  - rewrite <- (mem_get_set_len m (page_address q) (page_bytes q) _ Hlen) at 2.
    apply mem_get_ext; [|done|].
    { apply restored_region. }
    intros x Hx. apply restored_outside.
    + eapply Forall_impl; [exact Hf|]. by intros ? (_&?&_).
    + rewrite Forall_fmap in Hlt, Ha. rewrite Forall_forall in Hlt, Ha |- *.
      intros y Hy. specialize (Hlt y Hy). specialize (Ha y Hy). simpl in *.
      unfold LONG_MODE_PAGE_SIZE in *. left. Z.to_euclidean_division_equations. lia.
  - apply IH; [done|done|by rewrite mem_set_region|done].
Qed.
Lemma write_pages_runs {V} (v : V) m pages :
  memory_wf m → Forall (page_fits (region m)) pages →
  runs (write_pages pages) (v, m) (λ _ s, s = (v, restored m pages)) (λ _ _, False).
Proof.
  revert m. induction pages as [|p pages IH]; intros m Hm Hp; [done|].
  apply Forall_cons in Hp as [(Hin&Hlen&Hb) Hp]. cbn [write_pages]. apply runs_bind. unfold runs at 1.
  cbn [fst snd]. rewrite write_ok by (done || by rewrite Hlen).
  apply IH; [by apply mem_set_wf|by rewrite mem_set_region].
Qed.
Lemma compare_pages_exact m pages :
  memory_wf m → Forall (page_fits (region m)) pages →
  (∀ p, p ∈ pages → mem_get m (page_address p) LONG_MODE_PAGE_SIZE = page_bytes p) →
  ∃ c, compare_pages pages m = Ok c ∧ forallb compared_exact c = true.
Proof.
  intros Hm Hf Hget. induction Hf as [|p pages (Hin&Hlen&Hb) Hf IH]; [by exists []|].
  destruct IH as (c&Hc&Hall); [intros q Hq; apply Hget; by right|].
  cbn [compare_pages]. rewrite Hlen, read_ok by done. cbn [mbind res_bind]. rewrite Hc.
  eexists. split; [done|]. cbn [forallb compared_exact]. rewrite Hall, Hget by (by left).
  by rewrite bool_decide_eq_true_2.
Qed.

(** Pages taken from one memory and written over another of the same region. *)
Lemma page_of_address m (l : list Z) : page_address <$> (page_of m <$> l) = l.
Proof. rewrite <- list_fmap_compose. apply list_fmap_id. Qed.
Lemma recapture m0 m canonical :
  memory_wf m0 → memory_wf m → region m = region m0 → Forall (λ a, 0 ≤ a) canonical →
  StronglySorted Z.lt canonical → Forall (λ a, a mod LONG_MODE_PAGE_SIZE = 0) canonical →
  Forall (page_in (region m0)) canonical →
  let pages := page_of m0 <$> canonical in
  Forall (page_fits (region m)) pages ∧ memory_wf (restored m pages) ∧
  capture_pages (restored m pages) canonical = Ok pages ∧
  ∃ c, compare_pages pages (restored m pages) = Ok c ∧ forallb compared_exact c = true.
Proof.
  intros Hm0 Hm Hreg Hpos Hsort Halign Hin pages.
  pose proof (page_of_address m0 canonical) as Haddr. fold pages in Haddr.
  assert (Forall (page_fits (region m)) pages) as Hfit.
  { rewrite Hreg. apply Forall_fmap. eapply Forall_impl; [exact Hin|]. intros a Ha.
    split_and!; [done|by apply len_mem_get|by apply mem_get_ok]. }
  assert (memory_wf (restored m pages)) as Hwf'.
  { apply restored_wf; [done|]. eapply Forall_impl; [exact Hfit|]. by intros p (_&_&?). }
  assert (∀ p, p ∈ pages →
    mem_get (restored m pages) (page_address p) LONG_MODE_PAGE_SIZE = page_bytes p) as Hget.
  { intros p Hp. by apply restored_page; [rewrite Haddr|rewrite Haddr|..]. }
  split_and!; [done|done| |by apply compare_pages_exact; [|rewrite restored_region|]].
  apply capture_pages_Ok; [done|done|]. rewrite restored_region, Hreg. split; [done|].
  unfold pages at 1. apply list_fmap_ext. intros i a Hi.
  assert (page_of m0 a ∈ pages) as Ha by (by apply list_elem_of_fmap_2, list_elem_of_lookup_2 with i).
  apply Hget in Ha. cbn [page_of page_address page_bytes] in Ha. unfold page_of. by rewrite Ha.
Qed.

(** ** Restoring and comparing a captured set *)
Lemma page_set_restores {V} `{!KvmVcpu V} (apart : Z → Prop) `{!KvmVcpuLaws V apart}
    (id : Z) policy addresses (v0 v : V) m0 m ck :
  memory_wf m0 → memory_wf m → region m = region m0 → Forall (λ a, 0 ≤ a) addresses →
  Forall apart (policy_msr_indices policy) →
  capture_page_set id policy m0 addresses v0 = Ok ck →
  page_set_addresses addresses (page_address <$> set_pages ck) ∧
  set_pages ck = page_of m0 <$> (page_address <$> set_pages ck) ∧
  runs (restore_and_verify_page_set id ck) (v, m)
    (λ c '(v', m'), page_set_is_exact_match c = true ∧
       capture_page_set id policy m' addresses v' = Ok ck ∧
       memory_wf m' ∧ region m' = region m ∧
       ∀ x, Forall (λ a, x < a ∨ a + LONG_MODE_PAGE_SIZE ≤ x) (page_address <$> set_pages ck) →
         byte_at m' x = byte_at m x)
    (λ _ '(_, m'), memory_wf m' ∧ region m' = region m).
Proof.
  intros Hm0 Hm Hreg Hpos Hap H. unfold capture_page_set in H. bind_inv H.
  rename a into canonical, a1 into snap, Hstep into Hval, Hstep1 into Hstate.
  pose proof (validate_page_addresses_Ok _ _ Hval) as Hset. pose proof Hset as (Hperm&Hsort&_&Halign).
  assert (Forall (λ a, 0 ≤ a) canonical) as Hpos' by (by rewrite Hperm).
  apply capture_pages_Ok in Hstep0 as [Hin ->]; [|done|done].
  destruct (recapture m0 m canonical) as (Hfit&Hwf'&Hagain&c&Hcmp&Hexact); [done..|].
  cbn [set_pages set_vcpu]. rewrite page_of_address. split_and!; [done|done|].
  set (pages := page_of m0 <$> canonical) in *.
  apply runs_bind. eapply runs_mono; [by apply write_pages_runs| |done].
  intros _ _ ->. apply runs_bind. cbn [set_vcpu].
  pose proof (restore_and_verify_runs apart id policy v0 v snap Hstate Hap) as Hr.
  unfold runs, on_kernel in Hr |- *. cbn [fst snd].
  destruct (restore_and_verify_state_snapshot id snap v) as [[cv|e|] v']; [| |done].
  2: { split; [done|apply restored_region]. }
  destruct Hr as [Hstex Hst]. unfold mbind, prog_bind, reading. cbn [fst snd set_pages].
  rewrite Hcmp. cbn [mret prog_ret]. split_and!; [| |done|apply restored_region|].
  - unfold page_set_is_exact_match, all_pages_exact. cbn [compared_pages compared_vcpu].
    by rewrite Hexact, Hstex.
  - unfold capture_page_set. rewrite Hval. cbn [mbind res_bind].
    rewrite Hagain. cbn [mbind res_bind]. by rewrite Hst.
  - intros x Hx. apply restored_outside.
    + eapply Forall_impl; [exact Hfit|]. by intros p (_&?&_).
    + unfold pages. by rewrite Forall_fmap.
Qed.

Lemma compare_pages_spec m pages c :
  memory_wf m → Forall (λ p, 0 ≤ page_address p ∧ len (page_bytes p) = LONG_MODE_PAGE_SIZE) pages →
  compare_pages pages m = Ok c →
  Forall (page_in (region m)) (page_address <$> pages) ∧
  (forallb compared_exact c = true ↔ page_of m <$> (page_address <$> pages) = pages).
Proof.
  intros Hm Hp. revert c. induction Hp as [|p pages [Hpos Hl] _ IH]; intros c; cbn [compare_pages].
  { intros [= <-]. split; [apply Forall_nil_2|done]. }
  intros H. bind_inv H. rewrite Hl in Hstep. apply read_inv in Hstep as [Hin ->]; [|done..].
  destruct (IH _ Hstep0) as [Hin' Hex]. rewrite !fmap_cons. split; [by apply Forall_cons|].
  cbn [forallb compared_exact]. rewrite andb_true_iff, bool_decide_eq_true, Hex. unfold page_of at 2.
  set (bs := mem_get _ _ _). clearbody bs.
  split; [intros [Hb ->]|intros [= <- ->]; done]. by rewrite Hb; destruct p.
Qed.
(** The verdict on a captured set is exact: nothing is assumed of KVM. *)
Lemma page_set_verdict {V} `{!KvmVcpu V} (id : Z) policy addresses (v0 v : V) m0 m ck c :
  memory_wf m0 → memory_wf m → Forall (λ a, 0 ≤ a) addresses →
  capture_page_set id policy m0 addresses v0 = Ok ck → verify_page_set id ck v m = Ok c →
  page_set_is_exact_match c = true ↔ capture_page_set id policy m addresses v = Ok ck.
Proof.
  intros Hm0 Hm Hpos H Hv. unfold capture_page_set in H. bind_inv H. unfold verify_page_set in Hv.
  bind_inv Hv. cbn [set_pages set_vcpu] in *. rename a into canonical, Hstep into Hval.
  pose proof (validate_page_addresses_Ok _ _ Hval) as (Hperm&_&_&_).
  assert (Forall (λ a, 0 ≤ a) canonical) as Hpos' by (by rewrite Hperm).
  apply capture_pages_Ok in Hstep0 as [Hin ->]; [|done..].
  destruct (compare_pages_spec m (page_of m0 <$> canonical) a2) as [Hin' Hex]; [done| |done|].
  { apply Forall_fmap. rewrite Forall_forall in Hin, Hpos' |- *. intros a Ha.
    split; [by apply Hpos'|]. by apply len_mem_get. }
  rewrite page_of_address in Hin', Hex. unfold page_set_is_exact_match, all_pages_exact.
  cbn [compared_pages compared_vcpu]. rewrite andb_true_iff, Hex, (state_verdict id policy v0 v) by done.
  unfold capture_page_set. rewrite Hval. cbn [mbind res_bind].
  rewrite (proj2 (capture_pages_Ok m canonical _ Hm Hpos') (conj Hin' eq_refl)). cbn [mbind res_bind].
  set (ps := page_of m <$> canonical) in *. set (ps0 := page_of m0 <$> canonical) in *. clearbody ps ps0.
  split; [intros [-> ->]; done|]. intros H'. bind_inv H'. done.
Qed.

(** A machine that captures as a checkpoint compares as an exact match with it. *)
Lemma state_recaptured {V} `{!KvmVcpu V} (id : Z) policy (v : V) snap :
  capture_state_snapshot id policy v = Ok snap →
  ∃ c, verify_state_snapshot id snap v = Ok c ∧ state_is_exact_match c = true.
Proof.
  intros H. pose proof (capture_state_Ok _ _ _ _ H) as [(Hp&Hwf&_)%capture_msr_snapshot_Ok _].
  unfold verify_state_snapshot. rewrite Hp, H. eexists. split; [done|]. by apply state_exact.
Qed.
Lemma page_set_recaptured {V} `{!KvmVcpu V} (id : Z) policy addresses (v : V) m ck :
  memory_wf m → Forall (λ a, 0 ≤ a) addresses → capture_page_set id policy m addresses v = Ok ck →
  ∃ c, verify_page_set id ck v m = Ok c ∧ page_set_is_exact_match c = true.
Proof.
  intros Hm Hpos H. unfold capture_page_set in H. bind_inv H. unfold verify_page_set. cbn [set_pages set_vcpu].
  pose proof (validate_page_addresses_Ok _ _ Hstep) as (Hperm&_&_&_).
  apply capture_pages_Ok in Hstep0 as [Hin ->]; [|done|by rewrite Hperm].
  destruct (compare_pages_exact m (page_of m <$> a)) as (c&Hc&Hex); [done| | |].
  - apply Forall_fmap. eapply Forall_impl; [exact Hin|]. intros x Hx.
    split_and!; [done|by apply len_mem_get|by apply mem_get_ok].
  - intros p (x&->&_)%list_elem_of_fmap. done.
  - destruct (state_recaptured id policy v a1 Hstep1) as (cs&Hs&Hexs). set (ps := page_of m <$> a) in *.
    clearbody ps. rewrite Hc, Hs. cbn [mbind res_bind]. eexists. split; [done|].
    unfold page_set_is_exact_match, all_pages_exact. cbn. by rewrite Hex, Hexs.
Qed.

(** * Properties *)

(** A page-set checkpoint brings the machine back.  A captured checkpoint holds
    the requested pages in increasing order, distinct, aligned and at most eight,
    with the bytes guest memory had.  Restored into any later state of the vCPU and
    of a memory over the same region, on a KVM that keeps what it is given, either
    an ioctl reports an error or the verdict is an exact match, capturing the same
    pages again gives the same checkpoint, and every byte outside the pages is
    untouched; no step panics, and a failed restore leaves a well-formed memory. *)
Theorem page_set_restore_spec {V} `{!KvmVcpu V} (apart : Z → Prop) `{!KvmVcpuLaws V apart}
    (id : Z) policy addresses (v0 v : V) m0 m ck :
  memory_wf m0 → memory_wf m → region m = region m0 → Forall (λ a, 0 ≤ a) addresses →
  Forall apart (policy_msr_indices policy) →
  capture_page_set id policy m0 addresses v0 = Ok ck →
  page_set_addresses addresses (page_address <$> set_pages ck) ∧
  set_pages ck = page_of m0 <$> (page_address <$> set_pages ck) ∧
  runs (restore_and_verify_page_set id ck) (v, m)
    (λ c '(v', m'), page_set_is_exact_match c = true ∧
       capture_page_set id policy m' addresses v' = Ok ck ∧
       memory_wf m' ∧ region m' = region m ∧
       ∀ x, Forall (λ a, x < a ∨ a + LONG_MODE_PAGE_SIZE ≤ x) (page_address <$> set_pages ck) →
         byte_at m' x = byte_at m x)
    (λ _ '(_, m'), memory_wf m' ∧ region m' = region m).
Proof. exact (page_set_restores apart id policy addresses v0 v m0 m ck). Qed.
Definition sample_memory : GuestMemory :=
  mkMemory (mkRegion 0x200000 0x2000) (mkMapping (λ _, 7) 0x2000).
Lemma sample_memory_wf : memory_wf sample_memory.
Proof. split_and!; [by vm_compute|done|]. intros ?. done. Qed.
Lemma page_set_restore_spec_witness :
  ∃ ck, capture_page_set 0 sample_policy sample_memory [0x201000; 0x200000] (sample_vcpu 7) = Ok ck ∧
    page_address <$> set_pages ck = [0x200000; 0x201000] ∧
    runs (restore_and_verify_page_set 0 ck) (sample_vcpu 8, mem_set sample_memory 0x201000 [1; 2; 3])
      (λ c s, page_set_is_exact_match c = true) (λ _ _, True).
Proof.
  pose proof sample_memory_wf as Hwf.
  assert (capture_pages sample_memory [0x200000; 0x201000]
    = Ok (page_of sample_memory <$> [0x200000; 0x201000])) as Hpages.
  { apply capture_pages_Ok; [done|by repeat constructor|]. split; [by repeat constructor|done]. }
  assert (∃ snap, capture_state_snapshot 0 sample_policy (sample_vcpu 7) = Ok snap) as [snap Hsnap]
    by (eexists; reflexivity).
  exists {| set_pages := page_of sample_memory <$> [0x200000; 0x201000]; set_vcpu := snap |}.
  assert (capture_page_set 0 sample_policy sample_memory [0x201000; 0x200000] (sample_vcpu 7)
    = Ok {| set_pages := page_of sample_memory <$> [0x200000; 0x201000]; set_vcpu := snap |}) as Hcap.
  { unfold capture_page_set.
    change (validate_page_addresses [0x201000; 0x200000]) with (@Ok Error _ [0x200000; 0x201000]).
    cbn [mbind res_bind]. rewrite Hpages. cbn [mbind res_bind]. rewrite Hsnap. reflexivity. }
  split; [exact Hcap|]. split; [apply page_of_address|].
  eapply runs_mono.
  - eapply (page_set_restore_spec (λ _, True) 0 sample_policy [0x201000; 0x200000] (sample_vcpu 7));
      [exact Hwf| | | | |exact Hcap].
    + apply mem_set_wf; [exact Hwf|]. by repeat constructor.
    + done.
    + by repeat constructor.
    + by repeat constructor.
  - intros c [v' m'] (H&_). exact H.
  - done.
Defined.
