(* ===== verification/Envelope.v ===== *)
(** Portable formats with a fixed header and nested sections.

    Every larger checkpoint format of the repository is an envelope: a magic
    number, a version, an architecture, a header length and a total length,
    further fixed-width fields, and then nested formats one after the other
    ([src/src/state_snapshot/page_set/full_controller_schema_v1.rs] and the
    formats built on it).  This file has the header check they all start with,
    the laws a format promises to the formats that nest it ([CodecLaws]), and
    the lemmas on headers and sections their proofs share. *)

From S2P Require Import Prelude.

(** * Fields at fixed offsets *)

(** [uN::from_le_bytes(bytes[a..b].try_into().expect(..))]. *)
Definition le_field {E} (bytes : list Z) (a b : Z) : res E Z := from_le_bytes <$> slice bytes a b.

(** Values pushed one after the other, each in its little-endian width. *)
Fixpoint layout (widths : list nat) (values : list Z) : list Z :=
  match widths, values with
  | w :: widths, v :: values => to_le_bytes w v ++ layout widths values
  | _, _ => []
  end.

(** * The header check

    The variants of the error types that every format has. *)
Class SchemaErrors (E : Type) := {
  invalid_magic : E;
  unsupported_version : Z → E;
  unsupported_architecture : Z → E;
  invalid_header_length : Z → E;
  invalid_total_length : Z → Z → E
}.
Definition check_prologue {E} `{!SchemaErrors E} (magic : list Z) (version architecture header_len : Z)
    (bytes : list Z) : res E Z :=
  err_if (len bytes <? header_len) (invalid_total_length 0 (len bytes));;
  found ← slice bytes 0 8;
  err_if (bool_decide (found ≠ magic)) invalid_magic;;
  found_version ← le_field bytes 8 10;
  err_if (negb (found_version =? version)) (unsupported_version found_version);;
  found_architecture ← le_field bytes 10 12;
  err_if (negb (found_architecture =? architecture)) (unsupported_architecture found_architecture);;
  found_header_len ← le_field bytes 12 16;
  err_if (negb (found_header_len =? header_len)) (invalid_header_length found_header_len);;
  declared_total ← le_field bytes 16 24;
  err_if (negb (declared_total =? len bytes)) (invalid_total_length declared_total (len bytes));;
  mret declared_total.
(** What the encoders push first. *)
Definition prologue (magic : list Z) (version architecture header_len total_len : Z) : list Z :=
  magic ++ layout [2; 2; 4; 8]%nat [version; architecture; header_len; total_len].

(** * What a format promises to the formats that nest it *)
Class Codec (E A : Type) := {
  codec_encode : A → res E (list Z);
  codec_decode : list Z → res E A;
  codec_wf : A → Prop;
  codec_max : Z
}.
(** A well-formed value encodes to bytes that decode to it; no bytes make the
    decoder panic; and what it accepts is well-formed and encodes to as many
    bytes.  [codec_max] bounds the length of an encoding, so that the lengths
    a nesting format adds up cannot overflow. *)
Class CodecLaws (E A : Type) `{!Codec E A} := {
  codec_complete a : codec_wf a → ∃ bs,
    codec_encode a = Ok bs ∧ bytes_ok bs ∧ 1 ≤ len bs ≤ codec_max ∧ codec_decode bs = Ok a;
  codec_safe bs : bytes_ok bs → usize (len bs) → no_panic (codec_decode bs);
  codec_sound bs a : bytes_ok bs → usize (len bs) → codec_decode bs = Ok a →
    codec_wf a ∧ ∃ bs', codec_encode a = Ok bs' ∧ len bs' = len bs
}.

(** * Lemmas *)
Lemma codec_accepts {E A} `{!Codec E A, !CodecLaws E A} bs (a : A) :
  bytes_ok bs → usize (len bs) → codec_decode bs = Ok a →
  codec_wf a ∧ 1 ≤ len bs ≤ codec_max ∧ ∃ bs', codec_encode a = Ok bs' ∧ len bs' = len bs.
Proof.
  intros Hb Hu Hd. destruct (codec_sound bs a Hb Hu Hd) as [Hwf (bs'&He&Hl)].
  destruct (codec_complete a Hwf) as (bs''&He'&_&Hm&_).
  rewrite He in He'. injection He' as <-. rewrite <- Hl. split_and!; [done|apply Hm..|by exists bs'].
Qed.
Definition layout_ok (widths : list nat) (values : list Z) : Prop :=
  Forall2 (λ w v, in_width (8 * Z.of_nat w) v) widths values.
Fixpoint width_sum (widths : list nat) : Z :=
  match widths with [] => 0 | w :: widths => Z.of_nat w + width_sum widths end.
(** The field a layout has at the offsets [a..b]. *)
Fixpoint field_of (widths : list nat) (values : list Z) (a b : Z) : option (nat * Z) :=
  match widths, values with
  | w :: widths, v :: values =>
      if a =? 0 then if b =? Z.of_nat w then Some (w, v) else None
      else field_of widths values (a - Z.of_nat w) (b - Z.of_nat w)
  | _, _ => None
  end.

Lemma width_sum_nonneg ws : 0 ≤ width_sum ws.
Proof. induction ws; simpl; lia. Qed.
Lemma len_layout ws vs : layout_ok ws vs → len (layout ws vs) = width_sum ws.
Proof.
  unfold layout_ok. induction 1; simpl; [done|].
  autorewrite with bytes. lia.
Qed.
Lemma bytes_ok_layout ws vs : bytes_ok (layout ws vs).
Proof.
  revert vs. induction ws as [|w ws IH]; intros [|v vs]; simpl; try constructor.
  apply bytes_ok_app; [apply to_le_bytes_ok|apply IH].
Qed.
#[export] Hint Resolve bytes_ok_layout : bytes.

Lemma bytes_ok_app_inv bs cs : bytes_ok (bs ++ cs) → bytes_ok bs ∧ bytes_ok cs.
Proof. apply Forall_app. Qed.
(** A list cut at a length it has. *)
Lemma split_len {A} (l : list A) n :
  0 ≤ n ≤ len l → ∃ s t, l = s ++ t ∧ len s = n ∧ len t = len l - n.
Proof.
  intros Hn. exists (take (Z.to_nat n) l), (drop (Z.to_nat n) l).
  rewrite take_drop. autorewrite with bytes. split_and!; [done|lia..].
Qed.
(** A list cut at several lengths. *)
Lemma split_sections {A} (ns : list Z) (l : list A) :
  Forall (λ n, 0 ≤ n) ns → len l = foldr Z.add 0 ns →
  ∃ ss, l = concat ss ∧ Forall2 (λ n s, len s = n) ns ss.
Proof.
  intros Hns. revert l. induction Hns as [|n ns Hn Hns IH]; intros l Hl; simpl in Hl.
  - exists []. split; [|constructor]. destruct l; [done|rewrite len_cons in Hl; pose proof (len_nonneg l); lia].
  - assert (0 ≤ foldr Z.add 0 ns) by (clear -Hns; induction Hns; simpl; lia).
    destruct (split_len l n) as (s&t&->&Hs&Ht); [lia|].
    destruct (IH t) as (ss&->&Hss); [lia|]. exists (s :: ss). by repeat constructor.
Qed.
Lemma slice_app_r {E A} (pre l : list A) a b :
  len pre ≤ a → slice (E:=E) (pre ++ l) a b = slice l (a - len pre) (b - len pre).
Proof.
  intros Ha. unfold slice. rewrite len_app.
  replace (a <=? b) with (a - len pre <=? b - len pre) by (zcmp; lia).
  replace (b <=? len pre + len l) with (b - len pre <=? len l) by (zcmp; lia).
  destruct (_ && _); [|done]. f_equal.
  replace (Z.to_nat a) with (length pre + Z.to_nat (a - len pre))%nat by (unfold len in *; lia).
  rewrite drop_app_add'; [|done]. f_equal. lia.
Qed.
(** The section between what precedes and what follows it. *)
Lemma slice_section {E A} (pre s post : list A) a b :
  a = len pre → b = a + len s → slice (E:=E) (pre ++ s ++ post) a b = Ok s.
Proof.
  intros -> ->. rewrite slice_app_r by lia. pose proof (len_nonneg s). pose proof (len_nonneg post).
  rewrite slice_ok by (autorewrite with bytes; lia). f_equal.
  replace (Z.to_nat (len pre - len pre)) with 0%nat by lia.
  rewrite drop_0, take_app_length'; [done|unfold len; lia].
Qed.
Lemma slice_at {E A} (pre s post l : list A) a b :
  l = pre ++ s ++ post → a = len pre → b = a + len s → slice (E:=E) l a b = Ok s.
Proof. intros ->. apply slice_section. Qed.
Lemma slice_last {E A} (pre s : list A) a b :
  a = len pre → b = a + len s → slice (E:=E) (pre ++ s) a b = Ok s.
Proof. intros. rewrite <- (app_nil_r s) at 1. by apply slice_section. Qed.

Lemma layout_split ws bytes :
  bytes_ok bytes → width_sum ws ≤ len bytes →
  ∃ vs rest, layout_ok ws vs ∧ bytes = layout ws vs ++ rest.
Proof.
  revert bytes. induction ws as [|w ws IH]; intros bytes Hb Hl; simpl in *.
  { exists [], bytes. split; [constructor|done]. }
  pose proof (width_sum_nonneg ws).
  destruct (split_len bytes (Z.of_nat w)) as (s&t&->&Hs&Ht); [lia|].
  apply bytes_ok_app_inv in Hb as [Hbs Hbt].
  destruct (IH t Hbt) as (vs&rest&Hvs&->); [lia|].
  exists (from_le_bytes s :: vs), rest. simpl. split.
  - constructor; [|done]. pose proof (from_le_bytes_bound s Hbs) as Hbd. rewrite Hs in Hbd. exact Hbd.
  - rewrite <- app_assoc. f_equal. symmetry.
    replace w with (length s) by (unfold len in Hs; lia). by apply to_from_le_bytes.
Qed.
Lemma field_of_nonneg ws vs a b x : field_of ws vs a b = Some x → 0 ≤ a.
Proof.
  revert vs a b. induction ws as [|w ws IH]; intros [|v vs] a b; simpl; try done.
  destruct (Z.eqb_spec a 0); [lia|]. intros H%IH. lia.
Qed.
Lemma slice_layout {E} ws vs rest a b w v :
  layout_ok ws vs → field_of ws vs a b = Some (w, v) →
  slice (E:=E) (layout ws vs ++ rest) a b = Ok (to_le_bytes w v) ∧ in_width (8 * Z.of_nat w) v ∧
  b = a + Z.of_nat w.
Proof.
  intros Hok. revert a b. induction Hok as [|w' v' ws vs Hw Hok IH]; intros a b; simpl; [done|].
  destruct (Z.eqb_spec a 0) as [->|Ha].
  - destruct (Z.eqb_spec b (Z.of_nat w')) as [->|]; [|done]. intros [= -> ->].
    split_and!; [|done|lia]. rewrite <- app_assoc.
    apply (slice_section [] (to_le_bytes w v)); [done|by autorewrite with bytes].
  - intros Hf. pose proof (field_of_nonneg _ _ _ _ _ Hf). destruct (IH _ _ Hf) as (Hs&Hv&Hb).
    rewrite <- app_assoc, slice_app_r; autorewrite with bytes; [|lia]. split_and!; [done|done|lia].
Qed.
Lemma le_field_layout {E} ws vs rest a b w v :
  layout_ok ws vs → field_of ws vs a b = Some (w, v) →
  le_field (E:=E) (layout ws vs ++ rest) a b = Ok v.
Proof.
  intros Hok Hf. destruct (slice_layout (E:=E) ws vs rest a b w v Hok Hf) as (Hs&Hv&_).
  unfold le_field. rewrite Hs. simpl. by rewrite from_to_le_bytes.
Qed.
Lemma index_layout {E} ws vs rest i v :
  layout_ok ws vs → field_of ws vs i (i + 1) = Some (1%nat, v) →
  index (E:=E) (layout ws vs ++ rest) i = Ok v.
Proof.
  intros Hok Hf. destruct (slice_layout (E:=E) ws vs rest _ _ _ v Hok Hf) as (Hs&Hv&_).
  pose proof (field_of_nonneg _ _ _ _ _ Hf) as Hi. pose proof (slice_Ok_inv _ _ _ _ Hs) as Hin.
  destruct Hin as [Hin Hlen].
  destruct (index_ok (E:=E) (layout ws vs ++ rest) i) as (x&->&Hx); [lia|]. f_equal.
  replace (i + 1 - i) with 1 in Hin by lia.
  rewrite (drop_S _ _ _ Hx) in Hin. simpl in Hin. injection Hin as <-.
  apply Z.mod_small. ulia.
Qed.

(** A magic number at the start of a layout. *)
Lemma magic_read {E} ws v vs rest :
  layout_ok (8%nat :: ws) (v :: vs) →
  slice (E:=E) (layout (8%nat :: ws) (v :: vs) ++ rest) 0 8 = Ok (to_le_bytes 8 v).
Proof. intros Hok. by destruct (slice_layout (E:=E) _ _ rest 0 8 _ _ Hok eq_refl). Qed.
Lemma magic_eq magic v :
  len magic = 8 → bytes_ok magic → u64 v → to_le_bytes 8 v = magic ↔ v = from_le_bytes magic.
Proof.
  intros Hl Hb Hv. split.
  - intros <-. by rewrite from_to_le_bytes.
  - intros ->. apply from_le_bytes_to; [done|unfold len in Hl; lia].
Qed.
Lemma check_magic_Ok {E} magic v (e : E) u :
  len magic = 8 → bytes_ok magic → u64 v →
  err_if (bool_decide (to_le_bytes 8 v ≠ magic)) e = Ok u ↔ v = from_le_bytes magic.
Proof.
  intros Hl Hb Hv. destruct u. rewrite err_if_Ok_iff, bool_decide_eq_false, <- magic_eq by done.
  split; [apply dec_stable|tauto].
Qed.
Lemma check_magic_self {E} magic (e : E) :
  len magic = 8 → bytes_ok magic →
  err_if (bool_decide (to_le_bytes 8 (from_le_bytes magic) ≠ magic)) e = Ok tt.
Proof.
  intros Hl Hb. rewrite (from_le_bytes_to 8) by (done || (unfold len in Hl; lia)).
  by rewrite bool_decide_false by (intros Hne; by apply Hne).
Qed.

(** ** Envelopes: a prologue and the further fields of the header *)
Record Schema := {
  schema_magic : list Z; schema_version : Z; schema_architecture : Z; schema_header_len : Z;
  schema_fields : list nat
}.
Definition schema_wf (s : Schema) : Prop :=
  len (schema_magic s) = 8 ∧ bytes_ok (schema_magic s) ∧ u16 (schema_version s) ∧
  u16 (schema_architecture s) ∧ u32 (schema_header_len s) ∧
  schema_header_len s = 24 + width_sum (schema_fields s).
Definition envelope (s : Schema) (total : Z) (values : list Z) : list Z :=
  prologue (schema_magic s) (schema_version s) (schema_architecture s) (schema_header_len s) total ++
  layout (schema_fields s) values.

Lemma envelope_layout s total vs :
  schema_wf s → envelope s total vs =
  layout (8 :: 2 :: 2 :: 4 :: 8 :: schema_fields s)%nat
    (from_le_bytes (schema_magic s) :: schema_version s :: schema_architecture s ::
     schema_header_len s :: total :: vs).
Proof.
  intros (Hm&Hb&_). unfold envelope, prologue. cbn [layout]. rewrite <- !app_assoc.
  rewrite (from_le_bytes_to 8) by (done || (unfold len in Hm; lia)). done.
Qed.
Lemma envelope_layout_ok s total vs :
  schema_wf s → u64 total → layout_ok (schema_fields s) vs →
  layout_ok (8 :: 2 :: 2 :: 4 :: 8 :: schema_fields s)%nat
    (from_le_bytes (schema_magic s) :: schema_version s :: schema_architecture s ::
     schema_header_len s :: total :: vs).
Proof.
  intros (Hm&Hb&Hv&Ha&Hh&_) Ht Hvs. unfold layout_ok in *.
  apply Forall2_cons. split; [pose proof (from_le_bytes_bound _ Hb) as H; by rewrite Hm in H|].
  do 4 (apply Forall2_cons; split; [assumption|]). assumption.
Qed.
Lemma len_envelope s total vs :
  schema_wf s → u64 total → layout_ok (schema_fields s) vs →
  len (envelope s total vs) = schema_header_len s.
Proof.
  intros Hs Ht Hvs. rewrite envelope_layout, len_layout by (done || by apply envelope_layout_ok).
  destruct Hs as (_&_&_&_&_&->). simpl. lia.
Qed.
Lemma bytes_ok_envelope s total vs : schema_wf s → bytes_ok (envelope s total vs).
Proof. intros. rewrite envelope_layout by done. apply bytes_ok_layout. Qed.
#[export] Hint Resolve bytes_ok_envelope : bytes.
(** Reading a field past the prologue. *)
Lemma le_field_envelope {E} s total vs rest a b w v :
  schema_wf s → u64 total → layout_ok (schema_fields s) vs →
  field_of (schema_fields s) vs (a - 24) (b - 24) = Some (w, v) →
  le_field (E:=E) (envelope s total vs ++ rest) a b = Ok v.
Proof.
  intros Hs Ht Hvs Hf. pose proof (field_of_nonneg _ _ _ _ _ Hf). unfold le_field.
  destruct (slice_layout (E:=E) _ vs rest _ _ _ _ Hvs Hf) as (Hsl&Hv&_).
  unfold envelope. rewrite <- app_assoc, slice_app_r.
  - replace (len (prologue _ _ _ _ _)) with 24; [rewrite Hsl; simpl; by rewrite from_to_le_bytes|].
    unfold prologue. rewrite len_app, (proj1 Hs). simpl. by autorewrite with bytes.
  - unfold prologue. rewrite len_app, (proj1 Hs). simpl. autorewrite with bytes. lia.
Qed.

Section check.
Context {E : Type} `{!SchemaErrors E}.

(** The header check of the format [s]. *)
Definition check_schema (s : Schema) (bytes : list Z) : res E Z :=
  check_prologue (schema_magic s) (schema_version s) (schema_architecture s) (schema_header_len s)
    bytes.

Lemma check_schema_ok s bytes vs rest :
  schema_wf s → u64 (len bytes) → layout_ok (schema_fields s) vs →
  bytes = envelope s (len bytes) vs ++ rest → check_schema s bytes = Ok (len bytes).
Proof.
  intros Hs Hu Hvs Hbytes. pose proof (len_envelope s (len bytes) vs Hs Hu Hvs) as Hle.
  assert (schema_header_len s ≤ len bytes) as Hlen.
  { rewrite Hbytes, len_app, Hle. pose proof (len_nonneg rest). lia. }
  pose proof (envelope_layout_ok s (len bytes) vs Hs Hu Hvs) as Hok.
  rewrite (envelope_layout s (len bytes) vs Hs) in Hbytes.
  unfold check_schema, check_prologue. rewrite (proj2 (Z.ltb_ge _ _)) by done.
  cbn [err_if mbind res_bind]. set (n := len bytes) in *. clearbody n. subst bytes.
  destruct (slice_layout (E:=E) _ _ rest 0 8 _ _ Hok eq_refl) as (Hm&_&_). rewrite Hm.
  cbn [mbind res_bind]. destruct Hs as (Hml&Hmb&_).
  rewrite (from_le_bytes_to 8) by (done || (unfold len in Hml; lia)).
  rewrite bool_decide_false by (intros Hne; by apply Hne). cbn [err_if mbind res_bind].
  do 4 (erewrite (le_field_layout _ _ rest); [|exact Hok|reflexivity];
        cbn [mbind res_bind]; rewrite Z.eqb_refl; cbn [negb err_if mbind res_bind]).
  done.
Qed.
Lemma check_schema_cases s bytes :
  schema_wf s → bytes_ok bytes → usize (len bytes) →
  (∃ e, check_schema s bytes = Err e) ∨
  (∃ vs rest, layout_ok (schema_fields s) vs ∧ bytes = envelope s (len bytes) vs ++ rest ∧
     check_schema s bytes = Ok (len bytes)).
Proof.
  intros Hs Hb Hu. unfold check_schema, check_prologue.
  destruct (Z.ltb_spec (len bytes) (schema_header_len s)) as [|Hlen]; [left; by eexists|].
  assert (schema_header_len s = 24 + width_sum (schema_fields s)) as Hhl by apply Hs.
  destruct (layout_split (8 :: 2 :: 2 :: 4 :: 8 :: schema_fields s)%nat bytes Hb)
    as (vs&rest&Hok&Hbytes); [simpl; lia|].
  apply Forall2_cons_inv_l in Hok as (m&vs1&Hm&Hok1&->).
  apply Forall2_cons_inv_l in Hok1 as (v&vs2&Hv&Hok2&->).
  apply Forall2_cons_inv_l in Hok2 as (a&vs3&Ha&Hok3&->).
  apply Forall2_cons_inv_l in Hok3 as (h&vs4&Hh&Hok4&->).
  apply Forall2_cons_inv_l in Hok4 as (t&vs5&Ht&Hok5&->).
  assert (layout_ok (8 :: 2 :: 2 :: 4 :: 8 :: schema_fields s)%nat (m :: v :: a :: h :: t :: vs5))
    as Hok by (unfold layout_ok; do 5 (apply Forall2_cons; split; [assumption|]); assumption).
  cbn [err_if mbind res_bind]. set (n := len bytes) in *. rewrite Hbytes.
  destruct (slice_layout (E:=E) _ _ rest 0 8 _ _ Hok eq_refl) as (Hsl&_&_). rewrite Hsl.
  cbn [mbind res_bind].
  case_bool_decide as Hmag; cbn [err_if mbind res_bind]; [left; by eexists|].
  let check a b :=
    rewrite (le_field_layout _ _ rest a b _ _ Hok eq_refl); cbn [mbind res_bind];
    match goal with |- context [err_if (negb (?x =? ?y)) _] => destruct (Z.eqb_spec x y) as [->|] end;
    cbn [negb err_if mbind res_bind]; [|left; by eexists]
  in check 8 10; check 10 12; check 12 16; check 16 24.
  right. exists vs5, rest. split_and!; [done| |done].
  rewrite envelope_layout by done. rewrite <- Hmag, from_to_le_bytes by exact Hm. done.
Qed.
End check.

(** ** Formats of nested sections

    A format frames a payload [p]: the envelope, whose values are a function
    of the payload (the lengths of the sections, and fields of its own), and
    then the sections. *)
Section framed.
Context {E A P : Type} `{!Codec E A}.
Variables (s : Schema) (secs : P → list (list Z)) (values : P → list Z) (shape : P → Prop).
Definition frame (p : P) : list Z :=
  envelope s (schema_header_len s + len (concat (secs p))) (values p) ++ concat (secs p).
Definition framed (p : P) : Prop :=
  shape p ∧ u64 (schema_header_len s + len (concat (secs p))).
Hypothesis Hs : schema_wf s.
Hypothesis values_ok : ∀ p, framed p → layout_ok (schema_fields s) (values p).

Lemma len_frame p : framed p → len (frame p) = schema_header_len s + len (concat (secs p)).
Proof. intros Hf. unfold frame. rewrite len_app, len_envelope; auto. apply Hf. Qed.
Lemma bytes_ok_frame p : bytes_ok (frame p) ↔ Forall bytes_ok (secs p).
Proof.
  unfold frame. split.
  - intros [_ H]%bytes_ok_app_inv. by apply Forall_concat.
  - intros H. apply bytes_ok_app; [auto with bytes|]. by apply Forall_concat.
Qed.

Lemma check_schema_frame `{!SchemaErrors E} p :
  framed p → check_schema s (frame p) = Ok (schema_header_len s + len (concat (secs p))).
Proof.
  intros Hf. rewrite <- len_frame by done. apply (check_schema_ok _ _ (values p) (concat (secs p))); auto;
  rewrite len_frame by done; [apply Hf|done].
Qed.

(** The laws of such a format: the decoder runs [body] on the sections of the
    bytes it accepts, and [sections a] relates a value to encodings of its
    parts. *)
Variables (body : P → res E A) (sections : A → P → Prop).
Hypothesis decode_frame : ∀ p, framed p → codec_decode (frame p) = body p.
Hypothesis decode_cases : ∀ bs, bytes_ok bs → usize (len bs) →
  (∃ e, codec_decode (A:=A) bs = Err e) ∨ ∃ p, framed p ∧ bs = frame p.
Hypothesis encode_frame : ∀ a p, codec_wf a → framed p → sections a p →
  codec_encode a = Ok (frame p).
Hypothesis max_small : u64 (codec_max (A:=A)).
Hypothesis body_complete : ∀ a, codec_wf a → ∃ p, shape p ∧ sections a p ∧
  Forall bytes_ok (secs p) ∧ schema_header_len s + len (concat (secs p)) ≤ codec_max (A:=A) ∧ body p = Ok a.
Hypothesis body_safe : ∀ p, framed p → Forall bytes_ok (secs p) → no_panic (body p).
Hypothesis body_sound : ∀ p a, framed p → Forall bytes_ok (secs p) → body p = Ok a →
  codec_wf a ∧ ∃ p', shape p' ∧ sections a p' ∧ len (concat (secs p')) = len (concat (secs p)).

Lemma framed_laws : CodecLaws E A.
Proof.
  split.
  - intros a Hwf. destruct (body_complete a Hwf) as (p&Hsh&Hse&Hb&Hm&Hd). exists (frame p).
    pose proof (len_nonneg (concat (secs p))). pose proof (width_sum_nonneg (schema_fields s)).
    assert (1 ≤ schema_header_len s) by (destruct Hs as (_&_&_&_&_&->); lia).
    assert (framed p) as Ha by (split; [done|ulia]).
    rewrite len_frame, decode_frame by done.
    split_and!; [by apply encode_frame|by apply bytes_ok_frame|lia|done|done].
  - intros bs Hb Hu. destruct (decode_cases bs Hb Hu) as [[e ->]|(p&Ha&->)]; [done|].
    rewrite decode_frame by done. apply body_safe; [done|]. by apply bytes_ok_frame.
  - intros bs a Hb Hu Hd.
    destruct (decode_cases bs Hb Hu) as [[e He]|(p&Ha&->)]; [by rewrite He in Hd|].
    rewrite decode_frame in Hd by done. apply bytes_ok_frame in Hb.
    destruct (body_sound p a Ha Hb Hd) as [Hwf (p'&Hsh&Hse&Hl)]. split; [done|].
    assert (framed p') by (destruct Ha; split; [done|by rewrite Hl]).
    exists (frame p'). split; [by apply encode_frame|]. rewrite !len_frame by done. by rewrite Hl.
Qed.
End framed.

(** ** Automation

    [layout_vars H] names the values of a layout of known widths;
    [layout_reads H] evaluates the field reads of a decoder on a layout, in
    the goal and in the hypotheses. *)
Ltac layout_vars H :=
  repeat (apply Forall2_cons_inv_l in H as (?v & ?vs & ?Hw & H & ->));
  apply Forall2_nil_inv_l in H as ->.
Ltac layout_widths := unfold layout_ok;
  repeat (apply Forall2_cons; split; [unfold in_width in *; cbn; lia|]); by apply Forall2_nil.
Ltac layout_reads Hok :=
  repeat match goal with
  | |- context [le_field (layout ?ws ?vs ++ ?rest) ?a ?b] =>
      rewrite (le_field_layout ws vs rest a b _ _ Hok eq_refl)
  | |- context [index (layout ?ws ?vs ++ ?rest) ?i] =>
      rewrite (index_layout ws vs rest i _ Hok eq_refl)
  | H : le_field (layout ?ws ?vs ++ ?rest) ?a ?b = Ok _ |- _ =>
      rewrite (le_field_layout ws vs rest a b _ _ Hok eq_refl) in H; injection H as H
  | H : index (layout ?ws ?vs ++ ?rest) ?i = Ok _ |- _ =>
      rewrite (index_layout ws vs rest i _ Hok eq_refl) in H; injection H as H
  end.
Ltac envelope_reads Hs Hu Hok :=
  repeat match goal with
  | |- context [le_field (envelope ?s ?t ?vs ++ ?rest) ?a ?b] =>
      rewrite (le_field_envelope s t vs rest a b _ _ Hs Hu Hok eq_refl)
  | H : le_field (envelope ?s ?t ?vs ++ ?rest) ?a ?b = Ok _ |- _ =>
      rewrite (le_field_envelope s t vs rest a b _ _ Hs Hu Hok eq_refl) in H; injection H as H
  end.
(** The steps of a decoder whose reads and checks are evaluated. *)
Ltac decode_steps := cbn [mbind res_bind option_bind err_if ok_or negb orb andb map_err mret res_ret];
  rewrite ?Z.eqb_refl; cbn [mbind res_bind option_bind err_if ok_or negb orb andb map_err mret res_ret].

Lemma no_panic_le_field {E} bytes a b :
  0 ≤ a ≤ b → b ≤ len bytes → no_panic (le_field (E:=E) bytes a b).
Proof. intros. by apply no_panic_fmap, no_panic_slice. Qed.
#[export] Hint Extern 4 (no_panic (le_field _ _ _)) => apply no_panic_le_field; np_side : panics.
Lemma res_bind_assoc {E A B C} (m : res E A) (f : A → res E B) (g : B → res E C) :
  (m ≫= f) ≫= g = m ≫= λ x, f x ≫= g.
Proof. by destruct m. Qed.
(** [guard_or] takes one check of a decoder: it fails, or decoding goes on. *)
Ltac guard_or :=
  lazymatch goal with
  | |- (∃ e, ((?m ≫= ?f) ≫= ?g) = Err e) ∨ _ => rewrite (res_bind_assoc m f g)
  | |- (∃ e, (err_if ?b ?x ≫= _) = Err e) ∨ _ =>
      let Hb := fresh "Hg" in
      destruct b eqn:Hb; cbn [err_if mbind res_bind]; [left; exists x; reflexivity|]
  | |- (∃ e, (ok_or ?o ?x ≫= _) = Err e) ∨ _ =>
      let Hb := fresh "Hg" in
      destruct o eqn:Hb; cbn [ok_or mbind res_bind]; [|left; exists x; reflexivity]
  end.
Ltac guards_or := repeat guard_or; res_simplify;
  repeat match goal with
  | H : mbind _ _ = Some _ |- _ => apply bind_Some in H as (? & ? & ?)
  end; arith_inv.
(** [cut_sections rest ns] cuts [rest] into sections of the lengths [ns]. *)
Ltac cut_sections rest ns :=
  let ss := fresh "ss" in let Hss := fresh "Hss" in
  destruct (split_sections ns rest) as (ss & -> & Hss);
  [repeat (apply Forall_cons; split; [ulia|]); apply Forall_nil_2|simpl; lia|layout_vars Hss; cbn [concat] in *; rewrite ?app_nil_r in *].
(** [read_section pre s post] evaluates the slice of a decoder that is the section [s]. *)
Ltac read_section pre s post :=
  lazymatch goal with
  | |- (slice ?l ?a ?b ≫= _) = _ =>
      rewrite (slice_at pre s post l a b);
      [|by rewrite <- ?app_assoc, ?app_nil_r|autorewrite with bytes; lia|lia]
  end;
  cbn [mbind res_bind].
(** [frame_cases wf Hb Hu] starts the case analysis of a decoder on arbitrary bytes: an error,
    or bytes that are an envelope and [rest]. *)
Ltac frame_cases wf Hb Hu :=
  let e := fresh "e" in let vs := fresh "vs" in let Hbytes := fresh "Hbytes" in
  let Hlen := fresh "Hlen" in let Hvars := fresh "Hvars" in let n := fresh "n" in
  let Hok := fresh "Hok" in let He := fresh "He" in
  lazymatch goal with
  | |- context [@check_schema ?E ?errors ?s ?bs] =>
      destruct (@check_schema_cases E errors s bs wf Hb Hu) as [[e ->]|(vs & rest & Hok & Hbytes & ->)];
      [left; by eexists|];
      pose proof (len_envelope _ _ _ wf Hu Hok) as He;
      pose proof (f_equal len Hbytes) as Hlen; rewrite len_app, He in Hlen;
      pose proof Hok as Hvars; layout_vars Hvars; set (n := len bs) in *; rewrite Hbytes; clearbody n;
      envelope_reads wf Hu Hok; cbn [mbind res_bind]; guards_or
  end.
(** [frame_sections rest ns payload] ends it: [rest] is sections of the lengths [ns], which
    make up a payload. *)
Ltac frame_sections rest ns payload :=
  let ss := fresh "ss" in let Hss := fresh "Hss" in
  destruct (split_sections ns rest) as (ss & -> & Hss);
  [repeat (apply Forall_cons; split; [ulia|]); apply Forall_nil_2|simpl; lia|];
  let p := eval cbv beta in (payload ss) in exists p; layout_vars Hss; split; [split; [|done]|].
(** [frame_checks] evaluates the header check of a decoder on a frame; [frame_fields] its reads of
    the header, whose bytes it abstracts to [hdr]; [frame_lengths] its length checks. *)
Ltac frame_checks wf vok Hf :=
  let Hok := fresh "Hok" in let Hlen := fresh "Hlen" in
  pose proof (vok _ Hf) as Hok; pose proof (len_frame _ _ _ _ wf vok _ Hf) as Hlen;
  rewrite (check_schema_frame _ _ _ _ wf vok _ Hf), Hlen; clear Hlen.
Ltac frame_fields wf Hu Hok :=
  unfold frame; envelope_reads wf Hu Hok; decode_steps;
  let He := fresh "He" in pose proof (len_envelope _ _ _ wf Hu Hok) as He;
  let h := fresh "hdr" in set (h := envelope _ _ _) in *; clearbody h;
  cbn [id fst snd concat app] in *; rewrite ?app_nil_r, ?len_app in *.
Ltac frame_lengths :=
  unfold try_from, checked_add; repeat (progress (zcmp; decode_steps)).
