(* ===== verification/Irqchip.v ===== *)
(** The in-kernel interrupt controllers: the two PICs and the IOAPIC as KVM
    hands them out, their fixed byte form, and capture and restore through
    [KVM_GET_IRQCHIP] and [KVM_SET_IRQCHIP]
    ([src/src/kvm/irqchip_snapshot.rs]); the local APIC page
    ([src/src/kvm/lapic_uapi.rs], [src/src/vcpu/lapic_checkpoint.rs]). *)

From S2P Require Import Prelude Errors VcpuState Envelope.

Definition KVM_IRQCHIP_PIC_MASTER : Z := 0.
Definition KVM_IRQCHIP_PIC_SLAVE : Z := 1.
Definition KVM_IRQCHIP_IOAPIC : Z := 2.
Definition KVM_IRQCHIP_PAYLOAD_SIZE : Z := 512.
Definition KVM_PIC_STATE_SIZE : Z := 16.
Definition KVM_IOAPIC_NUM_PINS : Z := 24.
Definition KVM_IOAPIC_STATE_SIZE : Z := 216.
Definition KVM_APIC_REG_SIZE : Z := 0x400.

Record KvmPicState := {
  last_irr : Z; pic_irr : Z; imr : Z; isr : Z; priority_add : Z; irq_base : Z;
  read_reg_select : Z; poll : Z; special_mask : Z; init_state : Z; auto_eoi : Z;
  rotate_on_auto_eoi : Z; special_fully_nested_mode : Z; init4 : Z; elcr : Z; elcr_mask : Z
}.
Record KvmIoapicState := {
  base_address : Z; ioregsel : Z; ioapic_id : Z; ioapic_irr : Z; ioapic_pad : Z;
  redirtbl : list Z
}.
(** [KvmLapicState]: the register page. *)
Record KvmLapicState := { lapic_regs : list Z }.
#[export] Instance pic_eq_dec : EqDecision KvmPicState.
Proof. solve_decision. Defined.
#[export] Instance ioapic_eq_dec : EqDecision KvmIoapicState.
Proof. solve_decision. Defined.
#[export] Instance lapic_eq_dec : EqDecision KvmLapicState.
Proof. solve_decision. Defined.

(** * The byte form

    A payload is an array of 512 bytes; its constant indices and ranges are
    in bounds at compile time. *)
Definition payload_byte (bytes : list Z) (i : nat) : Z := nth i bytes 0.
Definition payload_le (bytes : list Z) (a n : nat) : Z := from_le_bytes (take n (drop a bytes)).
Definition empty_payload : list Z := replicate (Z.to_nat KVM_IRQCHIP_PAYLOAD_SIZE) 0.

Definition decode_pic_state (bytes : list Z) : KvmPicState := {|
  last_irr := payload_byte bytes 0; pic_irr := payload_byte bytes 1; imr := payload_byte bytes 2;
  isr := payload_byte bytes 3; priority_add := payload_byte bytes 4;
  irq_base := payload_byte bytes 5; read_reg_select := payload_byte bytes 6;
  poll := payload_byte bytes 7; special_mask := payload_byte bytes 8;
  init_state := payload_byte bytes 9; auto_eoi := payload_byte bytes 10;
  rotate_on_auto_eoi := payload_byte bytes 11; special_fully_nested_mode := payload_byte bytes 12;
  init4 := payload_byte bytes 13; elcr := payload_byte bytes 14; elcr_mask := payload_byte bytes 15
|}.
Definition pic_bytes (s : KvmPicState) : list Z :=
  [last_irr s; pic_irr s; imr s; isr s; priority_add s; irq_base s; read_reg_select s; poll s;
   special_mask s; init_state s; auto_eoi s; rotate_on_auto_eoi s; special_fully_nested_mode s;
   init4 s; elcr s; elcr_mask s].
Definition encode_pic_state (s : KvmPicState) (bytes : list Z) : list Z :=
  splice bytes 0 (pic_bytes s).

Definition decode_ioapic_state (bytes : list Z) : KvmIoapicState := {|
  base_address := payload_le bytes 0 8; ioregsel := payload_le bytes 8 4;
  ioapic_id := payload_le bytes 12 4; ioapic_irr := payload_le bytes 16 4;
  ioapic_pad := payload_le bytes 20 4;
  redirtbl := (λ index, payload_le bytes (24 + index * 8) 8) <$> seq 0 (Z.to_nat KVM_IOAPIC_NUM_PINS)
|}.
Fixpoint encode_redirtbl (index : Z) (entries : list Z) (bytes : list Z) : list Z :=
  match entries with
  | [] => bytes
  | entry :: entries =>
      encode_redirtbl (index + 1) entries (splice bytes (24 + index * 8) (to_le_bytes 8 entry))
  end.
Definition encode_ioapic_state (s : KvmIoapicState) (bytes : list Z) : list Z :=
  let bytes := splice bytes 0 (replicate (Z.to_nat KVM_IOAPIC_STATE_SIZE) 0) in
  let bytes := splice bytes 0 (to_le_bytes 8 (base_address s)) in
  let bytes := splice bytes 8 (to_le_bytes 4 (ioregsel s)) in
  let bytes := splice bytes 12 (to_le_bytes 4 (ioapic_id s)) in
  let bytes := splice bytes 16 (to_le_bytes 4 (ioapic_irr s)) in
  let bytes := splice bytes 20 (to_le_bytes 4 (ioapic_pad s)) in
  encode_redirtbl 0 (redirtbl s) bytes.

(** [semantic_bytes] and [from_semantic_bytes] of the snapshots; both PIC
    snapshots wrap a [KvmPicState]. *)
Definition pic_semantic_bytes (s : KvmPicState) : list Z :=
  take (Z.to_nat KVM_PIC_STATE_SIZE) (encode_pic_state s empty_payload).
Definition pic_from_semantic_bytes (bytes : list Z) : KvmPicState :=
  decode_pic_state (splice empty_payload 0 bytes).
Definition ioapic_semantic_bytes (s : KvmIoapicState) : list Z :=
  take (Z.to_nat KVM_IOAPIC_STATE_SIZE) (encode_ioapic_state s empty_payload).
Definition ioapic_from_semantic_bytes (bytes : list Z) : KvmIoapicState :=
  decode_ioapic_state (splice empty_payload 0 bytes).

Definition with_imr (value : Z) (s : KvmPicState) : KvmPicState := {|
  last_irr := last_irr s; pic_irr := pic_irr s; imr := value; isr := isr s;
  priority_add := priority_add s; irq_base := irq_base s; read_reg_select := read_reg_select s;
  poll := poll s; special_mask := special_mask s; init_state := init_state s;
  auto_eoi := auto_eoi s; rotate_on_auto_eoi := rotate_on_auto_eoi s;
  special_fully_nested_mode := special_fully_nested_mode s; init4 := init4 s; elcr := elcr s;
  elcr_mask := elcr_mask s |}.
Definition redirection_entry (pin : Z) (s : KvmIoapicState) : option Z := redirtbl s !! Z.to_nat pin.
Definition with_redirection_entry (pin entry : Z) (s : KvmIoapicState) : option KvmIoapicState :=
  _ ← redirtbl s !! Z.to_nat pin;
  Some {| base_address := base_address s; ioregsel := ioregsel s; ioapic_id := ioapic_id s;
          ioapic_irr := ioapic_irr s; ioapic_pad := ioapic_pad s;
          redirtbl := <[Z.to_nat pin := entry]> (redirtbl s) |}.

(** * Capture and restore *)

(** [struct kvm_irqchip]. *)
Record KvmIrqchip := { chip_id : Z; chip_pad : Z; chip : list Z }.
Definition irqchip_request (id : Z) : KvmIrqchip :=
  {| chip_id := id; chip_pad := 0; chip := empty_payload |}.

(** The VM file descriptor's irqchip ioctls and the vCPU's LAPIC ioctls; [W] is
    what the kernel keeps for the VM and its vCPUs. *)
Class KvmIrqchips (W : Type) := {
  ioctl_get_irqchip : KvmIrqchip → W → res io_error KvmIrqchip;
  ioctl_set_irqchip : KvmIrqchip → prog W io_error unit;
  ioctl_get_lapic : Z → W → res io_error KvmLapicState;
  ioctl_set_lapic : Z → KvmLapicState → prog W io_error unit
}.

(** The operation name of an error: the [match] of the source joins the two. *)
Definition irqchip_operation_error (operation chip_name : string) (source : io_error) : Error :=
  HostEnvironment (VmOperation (operation +:+ " " +:+ chip_name) source).

Section irqchips.
Context {W : Type} `{!KvmIrqchips W}.

Definition capture_irqchip (id : Z) (chip_name : string) : prog W Error KvmIrqchip :=
  request ← reading (λ w, map_err (irqchip_operation_error "KVM_GET_IRQCHIP" chip_name)
                            (ioctl_get_irqchip (irqchip_request id) w));
  lift (err_if (negb (chip_id request =? id) || negb (chip_pad request =? 0))
    (irqchip_operation_error "validate KVM_GET_IRQCHIP" chip_name
       (io_invalid_data "unexpected chip_id or outer pad")));;
  mret request.
Definition restore_irqchip (request : KvmIrqchip) (chip_name : string) : prog W Error unit :=
  pmap_err (irqchip_operation_error "KVM_SET_IRQCHIP" chip_name) (ioctl_set_irqchip request).

Definition capture_master_pic_state : prog W Error KvmPicState :=
  request ← capture_irqchip KVM_IRQCHIP_PIC_MASTER "master PIC";
  mret (decode_pic_state (chip request)).
Definition restore_master_pic_state (snapshot : KvmPicState) : prog W Error unit :=
  restore_irqchip {| chip_id := KVM_IRQCHIP_PIC_MASTER; chip_pad := 0;
                     chip := encode_pic_state snapshot empty_payload |} "master PIC".
Definition capture_slave_pic_state : prog W Error KvmPicState :=
  request ← capture_irqchip KVM_IRQCHIP_PIC_SLAVE "slave PIC";
  mret (decode_pic_state (chip request)).
Definition restore_slave_pic_state (snapshot : KvmPicState) : prog W Error unit :=
  restore_irqchip {| chip_id := KVM_IRQCHIP_PIC_SLAVE; chip_pad := 0;
                     chip := encode_pic_state snapshot empty_payload |} "slave PIC".
Definition capture_ioapic_state : prog W Error KvmIoapicState :=
  request ← capture_irqchip KVM_IRQCHIP_IOAPIC "IOAPIC";
  mret (decode_ioapic_state (chip request)).
Definition restore_ioapic_state (snapshot : KvmIoapicState) : prog W Error unit :=
  restore_irqchip {| chip_id := KVM_IRQCHIP_IOAPIC; chip_pad := 0;
                     chip := encode_ioapic_state snapshot empty_payload |} "IOAPIC".

Definition capture_lapic_checkpoint_state (id : Z) : prog W Error KvmLapicState :=
  reading (λ w, map_err (vcpu_operation id "KVM_GET_LAPIC checkpoint capture")
                  (ioctl_get_lapic id w)).
Definition restore_lapic_checkpoint_state (id : Z) (state : KvmLapicState) : prog W Error unit :=
  pmap_err (vcpu_operation id "KVM_SET_LAPIC checkpoint restore") (ioctl_set_lapic id state).
End irqchips.

(** * The byte form is exact *)
Definition pic_wf (s : KvmPicState) : Prop := bytes_ok (pic_bytes s).
Definition ioapic_wf (s : KvmIoapicState) : Prop :=
  layout_ok ([8; 4; 4; 4; 4] ++ replicate 24 8)%nat
    ([base_address s; ioregsel s; ioapic_id s; ioapic_irr s; ioapic_pad s] ++ redirtbl s).
Definition lapic_wf (s : KvmLapicState) : Prop :=
  len (lapic_regs s) = KVM_APIC_REG_SIZE ∧ bytes_ok (lapic_regs s).

Lemma splice_next {A} (pre l k : list A) a :
  a = len pre → len k ≤ len l → splice (pre ++ l) a k = pre ++ k ++ drop (length k) l.
Proof.
  intros -> Hk. unfold splice. rewrite take_app_length' by (unfold len; lia). do 2 f_equal.
  replace (Z.to_nat (len pre + len k)) with (length pre + length k)%nat by (unfold len; lia).
  by rewrite drop_app_add.
Qed.
Lemma encode_pic_state_bytes s p :
  KVM_PIC_STATE_SIZE ≤ len p → encode_pic_state s p = pic_bytes s ++ drop 16 p.
Proof. intros. by apply (splice_next [] p (pic_bytes s)). Qed.
Lemma decode_pic_state_app s l : decode_pic_state (pic_bytes s ++ l) = s.
Proof. by destruct s. Qed.
Lemma len_empty_payload : len empty_payload = 512.
Proof. done. Qed.
Lemma pic_semantic_bytes_eq s : pic_semantic_bytes s = pic_bytes s.
Proof. done. Qed.
Lemma pic_bytes_cover bytes :
  len bytes = KVM_PIC_STATE_SIZE → pic_bytes (pic_from_semantic_bytes bytes) = bytes.
Proof.
  intros H. unfold pic_from_semantic_bytes. change empty_payload with ([] ++ empty_payload).
  rewrite splice_next by (done || rewrite H; done).
  assert (length bytes = 16%nat) as Hl by (unfold len, KVM_PIC_STATE_SIZE in H; lia).
  do 17 (destruct bytes as [|? bytes]; [try discriminate Hl; reflexivity|]). discriminate Hl.
Qed.
Lemma pic_semantic_roundtrip s : pic_from_semantic_bytes (pic_semantic_bytes s) = s.
Proof. rewrite pic_semantic_bytes_eq. by destruct s. Qed.

Lemma encode_redirtbl_layout es i pre l :
  len pre = 24 + i * 8 → 8 * len es ≤ len l →
  encode_redirtbl i es (pre ++ l) =
  pre ++ layout (replicate (length es) 8%nat) es ++ drop (8 * length es) l.
Proof.
  revert i pre l. induction es as [|e es IH]; intros i pre l Hp Hl; [done|].
  cbn [encode_redirtbl length replicate layout]. rewrite len_cons in Hl. pose proof (len_nonneg es).
  rewrite splice_next by (autorewrite with bytes; lia).
  rewrite app_assoc, (IH (i + 1)) by (autorewrite with bytes; lia).
  rewrite length_to_le_bytes, drop_drop, <- !app_assoc. do 3 f_equal. f_equal. lia.
Qed.
Definition ioapic_fields (s : KvmIoapicState) : list Z :=
  [base_address s; ioregsel s; ioapic_id s; ioapic_irr s; ioapic_pad s].
Definition ioapic_bytes (s : KvmIoapicState) : list Z :=
  layout [8; 4; 4; 4; 4]%nat (ioapic_fields s) ++ layout (replicate 24 8%nat) (redirtbl s).
Lemma Forall2_replicate_inv {A B} (P : A → B → Prop) n x k :
  Forall2 P (replicate n x) k → Forall (P x) k.
Proof. revert k. induction n; intros k H; inversion H; subst; constructor; auto. Qed.
Lemma ioapic_wf_inv s :
  ioapic_wf s ↔ layout_ok [8; 4; 4; 4; 4]%nat (ioapic_fields s) ∧
    length (redirtbl s) = 24%nat ∧ Forall u64 (redirtbl s).
Proof.
  unfold ioapic_wf, layout_ok. fold (ioapic_fields s). split.
  - intros H. apply Forall2_app_inv in H as [H1 H2]; [|done]. split; [done|].
    pose proof (Forall2_length _ _ _ H2) as Hl. rewrite length_replicate in Hl. split; [done|].
    by apply Forall2_replicate_inv in H2.
  - intros (H1&Hl&H2). apply Forall2_app; [done|]. by apply Forall2_replicate_l.
Qed.
Lemma len_ioapic_bytes s : ioapic_wf s → len (ioapic_bytes s) = KVM_IOAPIC_STATE_SIZE.
Proof.
  intros [H1 [Hl H2]]%ioapic_wf_inv. unfold ioapic_bytes. rewrite len_app, !len_layout; [done| |done].
  by apply Forall2_replicate_l.
Qed.
Lemma encode_ioapic_state_bytes s :
  ioapic_wf s → encode_ioapic_state s empty_payload = ioapic_bytes s ++ drop 216 empty_payload.
Proof.
  intros [H1 [Hl H2]]%ioapic_wf_inv. unfold encode_ioapic_state. cbv zeta.
  set (p0 := splice empty_payload 0 _). change p0 with empty_payload. clear p0.
  assert (∀ (pre l k : list Z) a, a = len pre → len k ≤ len l →
    splice (pre ++ l) a k = (pre ++ k) ++ drop (length k) l) as Hnext.
  { intros. by rewrite splice_next, app_assoc. }
  rewrite (Hnext [] empty_payload), !Hnext by (autorewrite with bytes; rewrite ?len_empty_payload; lia).
  rewrite !length_to_le_bytes, !drop_drop.
  rewrite encode_redirtbl_layout, Hl; [|autorewrite with bytes; lia|].
  - unfold ioapic_bytes, ioapic_fields. cbn [layout]. rewrite drop_drop, <- !app_assoc. done.
  - unfold len. rewrite Hl. done.
Qed.
Lemma payload_le_section (pre post : list Z) n v a :
  0 ≤ v < 2 ^ (8 * Z.of_nat n) → a = length pre →
  payload_le (pre ++ to_le_bytes n v ++ post) a n = v.
Proof.
  intros Hv ->. unfold payload_le. rewrite drop_app_length, take_app_length'.
  - by apply from_to_le_bytes.
  - by rewrite length_to_le_bytes.
Qed.
Lemma redirtbl_read es (pre l : list Z) :
  Forall u64 es →
  (λ i, payload_le (pre ++ layout (replicate (length es) 8%nat) es ++ l) (length pre + i * 8) 8)
    <$> seq 0 (length es) = es.
Proof.
  intros Hes. revert pre. induction Hes as [|e es He Hes IH]; intros pre; [done|].
  cbn [length replicate layout seq fmap list_fmap]. f_equal.
  - rewrite <- app_assoc. apply payload_le_section; [exact He|lia].
  - etransitivity; [|apply (IH (pre ++ to_le_bytes 8 e))].
    rewrite <- fmap_S_seq, <- list_fmap_compose. apply list_fmap_ext. intros i x _. unfold compose.
    rewrite <- !app_assoc, length_app, length_to_le_bytes. f_equal. lia.
Qed.
Lemma decode_ioapic_state_app s l : ioapic_wf s → decode_ioapic_state (ioapic_bytes s ++ l) = s.
Proof.
  intros [H1 [Hl H2]]%ioapic_wf_inv. unfold decode_ioapic_state, ioapic_bytes.
  rewrite <- app_assoc. set (tail := layout (replicate 24 8%nat) (redirtbl s) ++ l).
  assert (∀ a n w v, field_of [8; 4; 4; 4; 4]%nat (ioapic_fields s) (Z.of_nat a)
      (Z.of_nat a + Z.of_nat n) = Some (w, v) →
    payload_le (layout [8; 4; 4; 4; 4]%nat (ioapic_fields s) ++ tail) a n = v) as Hf.
  { intros a n w v Hf. pose proof (le_field_layout (E:=unit) _ _ tail _ _ _ _ H1 Hf) as Hle.
    unfold le_field in Hle. apply fmap_Ok_inv in Hle as (k&[-> _]%slice_Ok_inv&<-).
    unfold payload_le. do 2 f_equal; [lia|]. f_equal. lia. }
  rewrite (Hf 0 8 _ _ eq_refl)%nat, (Hf 8 4 _ _ eq_refl)%nat, (Hf 12 4 _ _ eq_refl)%nat,
    (Hf 16 4 _ _ eq_refl)%nat, (Hf 20 4 _ _ eq_refl)%nat. subst tail.
  change (Z.to_nat KVM_IOAPIC_NUM_PINS) with 24%nat.
  assert (length (layout [8; 4; 4; 4; 4]%nat (ioapic_fields s)) = 24%nat) as Hpre.
  { pose proof (len_layout _ _ H1) as Hpre. unfold len in Hpre. simpl width_sum in Hpre. lia. }
  assert ((λ index, payload_le (layout [8; 4; 4; 4; 4]%nat (ioapic_fields s) ++
    layout (replicate 24 8%nat) (redirtbl s) ++ l) (24 + index * 8) 8) <$> seq 0 24 = redirtbl s)
    as Hr.
  { pose proof (redirtbl_read (redirtbl s) (layout [8; 4; 4; 4; 4]%nat (ioapic_fields s)) l H2) as Hr.
    by rewrite Hl, Hpre in Hr. }
  rewrite Hr. by destruct s.
Qed.
Lemma ioapic_semantic_bytes_eq s : ioapic_wf s → ioapic_semantic_bytes s = ioapic_bytes s.
Proof.
  intros Hs. unfold ioapic_semantic_bytes. rewrite encode_ioapic_state_bytes by done.
  apply take_app_length'. pose proof (len_ioapic_bytes s Hs) as H. unfold len, KVM_IOAPIC_STATE_SIZE in *.
  lia.
Qed.
Lemma ioapic_semantic_roundtrip s :
  ioapic_wf s → ioapic_from_semantic_bytes (ioapic_semantic_bytes s) = s.
Proof.
  intros Hs. rewrite ioapic_semantic_bytes_eq by done. unfold ioapic_from_semantic_bytes.
  change empty_payload with ([] ++ empty_payload).
  rewrite splice_next; [by apply decode_ioapic_state_app|done|by rewrite len_ioapic_bytes].
Qed.
(** Every string of 216 bytes is the byte form of the state it decodes to. *)
Lemma ioapic_bytes_cover bytes :
  bytes_ok bytes → len bytes = KVM_IOAPIC_STATE_SIZE →
  ioapic_wf (ioapic_from_semantic_bytes bytes) ∧
  ioapic_semantic_bytes (ioapic_from_semantic_bytes bytes) = bytes.
Proof.
  intros Hb Hl. destruct (layout_split ([8; 4; 4; 4; 4] ++ replicate 24 8)%nat bytes Hb)
    as (vs&rest&Hvs&Hbytes); [by rewrite Hl|].
  pose proof (f_equal len Hbytes) as Hlen. rewrite Hl, len_app, len_layout in Hlen by done.
  assert (rest = []) as ->.
  { apply nil_length_inv. unfold len in Hlen. change (width_sum _) with 216 in Hlen.
    unfold KVM_IOAPIC_STATE_SIZE in Hlen. lia. }
  apply Forall2_app_inv_l in Hvs as (hs&es&Hhs&Hes&->).
  do 5 (apply Forall2_cons_inv_l in Hhs as (?v&?&?&Hhs&->)). apply Forall2_nil_inv_l in Hhs as ->.
  set (s := {| base_address := v; ioregsel := v0; ioapic_id := v1; ioapic_irr := v2;
    ioapic_pad := v3; redirtbl := es |}).
  assert (ioapic_wf s) as Hs.
  { unfold ioapic_wf, layout_ok. cbn [base_address ioregsel ioapic_id ioapic_irr ioapic_pad redirtbl s].
    apply Forall2_app; [|exact Hes]. by repeat (apply Forall2_cons; split; [assumption|]). }
  assert (bytes = ioapic_bytes s) as ->.
  { rewrite Hbytes, app_nil_r. unfold ioapic_bytes, ioapic_fields.
    cbn [base_address ioregsel ioapic_id ioapic_irr ioapic_pad redirtbl s app layout].
    by rewrite <- !app_assoc. }
  rewrite <- (ioapic_semantic_bytes_eq s Hs), (ioapic_semantic_roundtrip s Hs). done.
Qed.
Lemma bytes_ok_ioapic s : bytes_ok (ioapic_bytes s).
Proof. unfold ioapic_bytes. auto with bytes. Qed.
