(* ===== verification/VcpuInit.v ===== *)
(** Bringing a vCPU up: the long-mode register state ([initialize_long_mode] and
    [enable_efer_bits_preserving] of [src/src/vcpu/special_register_restore.rs]), the
    descriptor tables and the local APIC ([src/src/vcpu/interrupt.rs]).

    The ioctls are the interfaces [KvmVcpu] and [KvmIrqchips]. *)

From S2P Require Import Prelude Errors Memory LongMode GuestTables Privilege.
From S2P Require Import VirtioCommon VcpuState Irqchip.
Import Gates Rings.

(** * Long mode *)
Definition LONG_MODE_CR0_REQUIRED_BITS : Z := Z.lor (Z.shiftl 1 0) (Z.shiftl 1 31).
Definition LONG_MODE_CR4_REQUIRED_BITS : Z := Z.shiftl 1 5.
Definition LONG_MODE_EFER_REQUIRED_BITS : Z := Z.lor (Z.shiftl 1 8) (Z.shiftl 1 10).
Definition LONG_MODE_CODE_SELECTOR : Z := Z.shiftl 1 3.
Definition LONG_MODE_DATA_SELECTOR : Z := Z.shiftl 2 3.
Definition RFLAGS_RESERVED_BIT : Z := Z.shiftl 1 1.
Definition long_mode_code_segment : sys.KvmSegment := {|
  sys.base := 0; sys.limit := U32_MAX; sys.selector := LONG_MODE_CODE_SELECTOR; sys.type_ := 0x0b;
  sys.present := 1; sys.dpl := 0; sys.db := 0; sys.s := 1; sys.l := 1; sys.g := 1; sys.avl := 0;
  sys.unusable := 0; sys.padding := 0 |}.
Definition long_mode_data_segment : sys.KvmSegment := {|
  sys.base := 0; sys.limit := U32_MAX; sys.selector := LONG_MODE_DATA_SELECTOR; sys.type_ := 0x03;
  sys.present := 1; sys.dpl := 0; sys.db := 0; sys.s := 1; sys.l := 0; sys.g := 1; sys.avl := 0;
  sys.unusable := 0; sys.padding := 0 |}.
Definition configure_long_mode_sregs (sregs : sys.KvmSregs) (layout : LongModeBootLayout) : sys.KvmSregs :=
  let data := long_mode_data_segment in {|
  sys.cs := long_mode_code_segment; sys.ds := data; sys.es := data; sys.fs := data; sys.gs := data; sys.ss := data;
  sys.tr := sys.tr sregs; sys.ldt := sys.ldt sregs; sys.gdt := sys.gdt sregs; sys.idt := sys.idt sregs;
  sys.cr0 := Z.lor (sys.cr0 sregs) LONG_MODE_CR0_REQUIRED_BITS; sys.cr2 := sys.cr2 sregs;
  sys.cr3 := LONG_MODE_PML4_ADDR; sys.cr4 := Z.lor (sys.cr4 sregs) LONG_MODE_CR4_REQUIRED_BITS;
  sys.cr8 := sys.cr8 sregs; sys.efer := Z.lor (sys.efer sregs) LONG_MODE_EFER_REQUIRED_BITS;
  sys.apic_base := sys.apic_base sregs; sys.interrupt_bitmap := sys.interrupt_bitmap sregs |}.
Definition efer_with_required_bits (current required_bits : Z) : Z := Z.lor current required_bits.
Definition long_mode_regs (layout : LongModeBootLayout) : sys.KvmRegs := {|
  sys.rax := 0; sys.rbx := 0; sys.rcx := 0; sys.rdx := 0; sys.rsi := 0; sys.rdi := 0;
  sys.rsp := stack_pointer layout; sys.rbp := 0; sys.r8 := 0; sys.r9 := 0; sys.r10 := 0; sys.r11 := 0;
  sys.r12 := 0; sys.r13 := 0; sys.r14 := 0; sys.r15 := 0; sys.rip := layout_entry layout;
  sys.rflags := RFLAGS_RESERVED_BIT |}.
Definition with_efer (sregs : sys.KvmSregs) (v : Z) : sys.KvmSregs := {|
  sys.cs := sys.cs sregs; sys.ds := sys.ds sregs; sys.es := sys.es sregs; sys.fs := sys.fs sregs;
  sys.gs := sys.gs sregs; sys.ss := sys.ss sregs; sys.tr := sys.tr sregs; sys.ldt := sys.ldt sregs;
  sys.gdt := sys.gdt sregs; sys.idt := sys.idt sregs; sys.cr0 := sys.cr0 sregs; sys.cr2 := sys.cr2 sregs;
  sys.cr3 := sys.cr3 sregs; sys.cr4 := sys.cr4 sregs; sys.cr8 := sys.cr8 sregs; sys.efer := v;
  sys.apic_base := sys.apic_base sregs; sys.interrupt_bitmap := sys.interrupt_bitmap sregs |}.
(** The descriptor tables, [configure_interrupt_tables] among others. *)
Definition with_tables (sregs : sys.KvmSregs) (gdt_base gdt_limit idt_base idt_limit : Z) : sys.KvmSregs := {|
  sys.cs := sys.cs sregs; sys.ds := sys.ds sregs; sys.es := sys.es sregs; sys.fs := sys.fs sregs;
  sys.gs := sys.gs sregs; sys.ss := sys.ss sregs; sys.tr := sys.tr sregs; sys.ldt := sys.ldt sregs;
  sys.gdt := {| sys.dt_base := gdt_base; sys.dt_limit := gdt_limit; sys.dt_padding := [0; 0; 0] |};
  sys.idt := {| sys.dt_base := idt_base; sys.dt_limit := idt_limit; sys.dt_padding := [0; 0; 0] |};
  sys.cr0 := sys.cr0 sregs; sys.cr2 := sys.cr2 sregs; sys.cr3 := sys.cr3 sregs; sys.cr4 := sys.cr4 sregs;
  sys.cr8 := sys.cr8 sregs; sys.efer := sys.efer sregs; sys.apic_base := sys.apic_base sregs;
  sys.interrupt_bitmap := sys.interrupt_bitmap sregs |}.

Section vcpu.
Context {V : Type} `{!KvmVcpu V} (id : Z).
Abbreviation M := (prog V Error).

Definition initialize_long_mode (layout : LongModeBootLayout) : M unit :=
  sregs ← reading (λ v, map_err (vcpu_operation id "KVM_GET_SREGS") (ioctl_get_sregs v));
  pmap_err (vcpu_operation id "KVM_SET_SREGS") (ioctl_set_sregs (configure_long_mode_sregs sregs layout));;
  pmap_err (vcpu_operation id "KVM_SET_REGS") (ioctl_set_regs (long_mode_regs layout)).
Definition enable_efer_bits_preserving (required_bits : Z) : M Z :=
  sregs ← reading (λ v, map_err (vcpu_operation id "KVM_GET_SREGS EFER") (ioctl_get_sregs v));
  let expected := efer_with_required_bits (sys.efer sregs) required_bits in
  pmap_err (vcpu_operation id "KVM_SET_SREGS EFER") (ioctl_set_sregs (with_efer sregs expected));;
  readback ← reading (λ v, map_err (vcpu_operation id "KVM_GET_SREGS EFER readback") (ioctl_get_sregs v));
  let observed := sys.efer readback in
  lift (err_if (negb (observed =? expected))
    (vcpu_operation id "verify KVM_SET_SREGS EFER readback" (io_invalid_data "unexpected EFER")));;
  mret observed.
Definition load_tables (gdt_base gdt_limit idt_base idt_limit : Z) : M unit :=
  sregs ← reading (λ v, map_err (vcpu_operation id "KVM_GET_SREGS") (ioctl_get_sregs v));
  pmap_err (vcpu_operation id "KVM_SET_SREGS")
    (ioctl_set_sregs (with_tables sregs gdt_base gdt_limit idt_base idt_limit)).
Definition initialize_long_mode_interrupts (layout : LongModeInterruptLayout) : M unit :=
  initialize_long_mode (boot layout);;
  load_tables LONG_MODE_INTERRUPT_GDT_ADDR 23 LONG_MODE_INTERRUPT_IDT_ADDR (idt_limit layout).
Definition initialize_long_mode_privilege (layout : LongModePrivilegeLayout) : M unit :=
  initialize_long_mode (privilege_boot layout);;
  load_tables PRIVILEGE_GDT_ADDR GDT_LIMIT PRIVILEGE_IDT_ADDR IDT_LIMIT.
End vcpu.

(** * The local APIC *)
Definition APIC_SPIV_OFFSET : Z := 0x0f0.
Definition APIC_LVT0_OFFSET : Z := 0x350.
Definition APIC_SPIV_SOFTWARE_ENABLE : Z := Z.shiftl 1 8.
Definition APIC_LVT_MASKED : Z := Z.shiftl 1 16.
Definition APIC_LVT_DELIVERY_MODE_MASK : Z := 0x700.
Definition APIC_LVT_DELIVERY_MODE_EXTINT : Z := 0x700.
Record LegacyPicExtIntState := mkExtInt { extint_spiv : Z; extint_lint0 : Z }.
Definition read_lapic_register (state : KvmLapicState) (offset : Z) : res Error Z :=
  bs ← slice (lapic_regs state) offset (offset + 4);
  Ok (from_le_bytes bs).
(** [copy_from_slice] into [regs\[offset..offset + 4\]]. *)
Definition write_lapic_register (state : KvmLapicState) (offset value : Z) : res Error KvmLapicState :=
  _ ← slice (lapic_regs state) offset (offset + 4);
  Ok {| lapic_regs := splice (lapic_regs state) offset (to_le_bytes 4 value) |}.
Definition configure_legacy_pic_extint_state (state : KvmLapicState) : res Error KvmLapicState :=
  spiv ← read_lapic_register state APIC_SPIV_OFFSET;
  state ← write_lapic_register state APIC_SPIV_OFFSET (Z.lor spiv APIC_SPIV_SOFTWARE_ENABLE);
  lint0 ← read_lapic_register state APIC_LVT0_OFFSET;
  let lint0 := Z.lor (Z.land lint0 (unot 32 (Z.lor APIC_LVT_MASKED APIC_LVT_DELIVERY_MODE_MASK)))
                 APIC_LVT_DELIVERY_MODE_EXTINT in
  write_lapic_register state APIC_LVT0_OFFSET lint0.
Definition legacy_pic_extint_state (state : KvmLapicState) : res Error LegacyPicExtIntState :=
  spiv ← read_lapic_register state APIC_SPIV_OFFSET;
  lint0 ← read_lapic_register state APIC_LVT0_OFFSET;
  Ok (mkExtInt spiv lint0).
Definition legacy_pic_extint_ready (state : LegacyPicExtIntState) : bool :=
  (Z.land (extint_spiv state) APIC_SPIV_SOFTWARE_ENABLE =? APIC_SPIV_SOFTWARE_ENABLE) &&
  (Z.land (extint_lint0 state) APIC_LVT_DELIVERY_MODE_MASK =? APIC_LVT_DELIVERY_MODE_EXTINT) &&
  (Z.land (extint_lint0 state) APIC_LVT_MASKED =? 0).
Section lapic.
Context {W : Type} `{!KvmIrqchips W} (id : Z).
Definition configure_legacy_pic_extint : prog W Error LegacyPicExtIntState :=
  lapic ← reading (λ w, map_err (vcpu_operation id "KVM_GET_LAPIC") (ioctl_get_lapic id w));
  lapic ← lift (configure_legacy_pic_extint_state lapic);
  pmap_err (vcpu_operation id "KVM_SET_LAPIC") (ioctl_set_lapic id lapic);;
  observed ← reading (λ w, map_err (vcpu_operation id "KVM_GET_LAPIC readback") (ioctl_get_lapic id w));
  state ← lift (legacy_pic_extint_state observed);
  lift (err_if (negb (legacy_pic_extint_ready state))
    (vcpu_operation id "KVM_SET_LAPIC readback verification" (io_invalid_data "unexpected SPIV or LINT0")));;
  mret state.
End lapic.

(** * Facts *)

(** ** Special registers *)
Definition snapshot_with (r : VcpuSpecialRegisterSnapshot) (g i : VcpuDescriptorTableState) (e : Z) :
  VcpuSpecialRegisterSnapshot := {|
  cs := cs r; ds := ds r; es := es r; fs := fs r; gs := gs r; ss := ss r; tr := tr r; ldt := ldt r;
  gdt := g; idt := i; cr0 := cr0 r; cr2 := cr2 r; cr3 := cr3 r; cr4 := cr4 r; cr8 := cr8 r; efer := e;
  apic_base := apic_base r; interrupt_bitmap := interrupt_bitmap r |}.
Lemma with_tables_snapshot s1 s2 a b c d :
  from_kvm_sregs s1 = from_kvm_sregs s2 → from_kvm_sregs (with_tables s1 a b c d) = from_kvm_sregs (with_tables s2 a b c d).
Proof.
  intros H. change (snapshot_with (from_kvm_sregs s1) {| table_base := a; table_limit := b |}
    {| table_base := c; table_limit := d |} (efer (from_kvm_sregs s1)) = from_kvm_sregs (with_tables s2 a b c d)).
  by rewrite H.
Qed.
Section laws.
Context {V : Type} (apart : Z → Prop) `{!KvmVcpu V, !KvmVcpuLaws V apart} (id : Z).
Definition sregs_are (v : V) (s : sys.KvmSregs) : Prop :=
  ∃ s', ioctl_get_sregs v = Ok s' ∧ from_kvm_sregs s' = from_kvm_sregs s.
(** Reading the special registers and setting a function of them. *)
Lemma runs_update_sregs op1 op2 (f : sys.KvmSregs → sys.KvmSregs) v s0 :
  ioctl_get_sregs v = Ok s0 →
  runs (sregs ← reading (λ v, map_err (vcpu_operation id op1) (ioctl_get_sregs v));
        pmap_err (vcpu_operation id op2) (ioctl_set_sregs (f sregs))) v
    (λ _ v', sregs_are v' (f s0)) (λ _ _, True).
Proof.
  intros Hs. apply runs_bind, runs_reading; rewrite Hs; [done| |done]. intros ? [= <-].
  apply runs_pmap_err. eapply runs_mono; [apply set_sregs_law|done|done].
Qed.
Lemma initialize_long_mode_runs layout v s0 :
  ioctl_get_sregs v = Ok s0 →
  runs (initialize_long_mode id layout) v
    (λ _ v', ioctl_get_regs v' = Ok (long_mode_regs layout) ∧ sregs_are v' (configure_long_mode_sregs s0 layout)) (λ _ _, True).
Proof.
  intros Hs. unfold initialize_long_mode. apply runs_bind, runs_reading; rewrite Hs; [done| |done]. intros ? [= <-].
  apply runs_bind, runs_pmap_err. eapply runs_mono; [apply set_sregs_law| |done]. intros _ v1 (s1&Hs1&E1). cbv beta.
  apply runs_pmap_err. eapply runs_mono; [apply set_regs_law| |done]. intros _ v2 [Hr Hs2]. split; [done|].
  exists s1. by rewrite Hs2.
Qed.
Lemma load_tables_runs a b c d v s :
  sregs_are v s → runs (load_tables id a b c d) v (λ _ v', sregs_are v' (with_tables s a b c d)) (λ _ _, True).
Proof.
  intros (s0&Hs&E). unfold load_tables. eapply runs_mono; [by apply runs_update_sregs| |done].
  intros _ v' (s'&Hs'&E'). exists s'. split; [done|]. rewrite E'. by apply with_tables_snapshot.
Qed.
Lemma initialize_privilege_runs layout v s0 :
  ioctl_get_sregs v = Ok s0 →
  runs (initialize_long_mode_privilege id layout) v
    (λ _ v', sregs_are v' (with_tables (configure_long_mode_sregs s0 (privilege_boot layout))
                             PRIVILEGE_GDT_ADDR GDT_LIMIT PRIVILEGE_IDT_ADDR IDT_LIMIT)) (λ _ _, True).
Proof.
  intros Hs. apply runs_bind. eapply runs_mono; [by apply initialize_long_mode_runs| |done].
  intros _ v1 [_ H1]. by apply load_tables_runs.
Qed.
Lemma enable_efer_runs bits v s0 :
  ioctl_get_sregs v = Ok s0 →
  runs (enable_efer_bits_preserving id bits) v
    (λ r v', r = Z.lor (sys.efer s0) bits ∧ sregs_are v' (with_efer s0 r)) (λ _ _, True).
Proof.
  intros Hs. unfold enable_efer_bits_preserving. apply runs_bind, runs_reading; rewrite Hs; [done| |done]. intros ? [= <-].
  apply runs_bind, runs_pmap_err. eapply runs_mono; [apply set_sregs_law| |done]. intros _ v1 (s1&Hs1&E1). cbv beta.
  apply runs_bind, runs_reading; rewrite Hs1; [done| |done]. intros ? [= <-].
  assert (sys.efer s1 = efer_with_required_bits (sys.efer s0) bits) as Ee by exact (f_equal efer E1).
  apply runs_lift_ok with tt; [by rewrite Ee, Z.eqb_refl|]. apply runs_ret. split; [done|]. exists s1. by rewrite Ee.
Qed.
End laws.

(** ** The local APIC *)
Lemma slice_splice_same {E A} (l k : list A) a b :
  0 ≤ a → b = a + len k → b ≤ len l → slice (E:=E) (splice l a k) a b = Ok k.
Proof.
  intros Ha -> Hb. pose proof (len_nonneg k). rewrite slice_ok by (rewrite ?len_splice; lia). f_equal. unfold splice.
  rewrite drop_app_length' by (rewrite length_take; unfold len in *; lia).
  apply take_app_length'. unfold len. lia.
Qed.
Lemma splice_lookup_out {A} (l k : list A) a (i : nat) :
  0 ≤ a → a + len k ≤ len l → Z.of_nat i < a ∨ a + len k ≤ Z.of_nat i → splice l a k !! i = l !! i.
Proof.
  intros Ha Hl Hi. unfold splice, len in *. destruct Hi.
  - rewrite lookup_app_l by (rewrite length_take; lia). apply lookup_take_lt. lia.
  - rewrite lookup_app_r, lookup_app_r by (rewrite length_take; lia). rewrite lookup_drop, length_take. f_equal. lia.
Qed.
Lemma slice_ext {E A} (l l' : list A) a b :
  0 ≤ a ≤ b → b ≤ len l → len l' = len l → (∀ i : nat, a ≤ Z.of_nat i < b → l !! i = l' !! i) →
  slice (E:=E) l a b = slice l' a b.
Proof.
  intros Hab Hb Hl H. rewrite !slice_ok by lia. f_equal. apply list_eq. intros i. unfold len in *.
  destruct (decide (i < Z.to_nat (b - a))%nat).
  - rewrite !lookup_take_lt, !lookup_drop by lia. apply H. lia.
  - by rewrite !lookup_take_ge by lia.
Qed.
Lemma read_lapic st o : lapic_wf st → 0 ≤ o → o + 4 ≤ 1024 → ∃ v, read_lapic_register st o = Ok v ∧ u32 v.
Proof.
  intros [Hl Hb] Ho Hs. unfold read_lapic_register. rewrite slice_ok by (rewrite ?Hl; unfold KVM_APIC_REG_SIZE; lia).
  eexists. split; [reflexivity|].
  match goal with |- in_width 32 (from_le_bytes ?x) => assert (bytes_ok x) as Hx by eauto with bytes;
    pose proof (from_le_bytes_bound x Hx) as B; replace (len x) with 4 in B end; [exact B|].
  unfold len in *. unfold KVM_APIC_REG_SIZE in Hl. rewrite length_take, length_drop. lia.
Qed.
Lemma write_lapic st o v :
  lapic_wf st → 0 ≤ o → o + 4 ≤ 1024 → u32 v →
  ∃ st', write_lapic_register st o v = Ok st' ∧ lapic_wf st' ∧ read_lapic_register st' o = Ok v ∧
    (∀ i : nat, Z.of_nat i < o ∨ o + 4 ≤ Z.of_nat i → lapic_regs st' !! i = lapic_regs st !! i) ∧
    (∀ p, 0 ≤ p → p + 4 ≤ 1024 → p + 4 ≤ o ∨ o + 4 ≤ p → read_lapic_register st' p = read_lapic_register st p).
Proof.
  intros [Hl Hb] Ho Hs Hv. unfold KVM_APIC_REG_SIZE in Hl. unfold write_lapic_register. rewrite slice_ok by lia. cbn [mbind res_bind].
  set (k := to_le_bytes 4 v). assert (len k = 4) as Hk by (by unfold k; autorewrite with bytes).
  eexists. split; [reflexivity|].
  assert (∀ i : nat, Z.of_nat i < o ∨ o + 4 ≤ Z.of_nat i → splice (lapic_regs st) o k !! i = lapic_regs st !! i) as Hout
    by (intros; apply splice_lookup_out; lia).
  assert (len (splice (lapic_regs st) o k) = 1024) as Hlen by (rewrite len_splice; lia).
  split_and!; [split; [exact Hlen|apply bytes_ok_splice; [done|apply to_le_bytes_ok]]| |exact Hout|].
  - unfold read_lapic_register. cbn [lapic_regs]. rewrite slice_splice_same by lia. cbn [mbind res_bind].
    unfold k. by rewrite from_to_le_bytes.
  - intros p Hp Hp4 Hd. unfold read_lapic_register. cbn [lapic_regs].
    rewrite (slice_ext _ (lapic_regs st)); [done|lia|lia|lia|]. intros i Hi. apply Hout. lia.
Qed.
Lemma land_lor_same a b : Z.land (Z.lor a b) b = b.
Proof. apply Z.bits_inj'. intros n _. rewrite Z.land_spec, Z.lor_spec. by destruct (Z.testbit a n), (Z.testbit b n). Qed.
Lemma land_mode_mask lint0 : Z.land (Z.lor (Z.land lint0 (unot 32 0x10700)) 0x700) 0x10000 = 0.
Proof.
  apply Z.bits_inj'. intros n Hn. rewrite Z.bits_0. rewrite Z.land_spec, Z.lor_spec, Z.land_spec.
  change 0x10000 with (2 ^ 16). rewrite Z.pow2_bits_eqb by lia. destruct (Z.eqb_spec 16 n) as [<-|]; [|apply andb_false_r].
  vm_compute (Z.testbit (unot 32 67328) 16). by rewrite andb_false_r.
Qed.
Lemma lapic_configured st :
  lapic_wf st →
  ∃ st' e, configure_legacy_pic_extint_state st = Ok st' ∧ lapic_wf st' ∧ legacy_pic_extint_state st' = Ok e ∧
    legacy_pic_extint_ready e = true ∧
    (∀ i : nat, ¬ (0xf0 ≤ Z.of_nat i < 0xf4) → ¬ (0x350 ≤ Z.of_nat i < 0x354) → lapic_regs st' !! i = lapic_regs st !! i).
Proof.
  intros Hwf. unfold configure_legacy_pic_extint_state, legacy_pic_extint_state, APIC_SPIV_OFFSET, APIC_LVT0_OFFSET.
  destruct (read_lapic st 0xf0 Hwf) as (spiv&->&Hs); [lia..|]. cbn [mbind res_bind].
  destruct (write_lapic st 0xf0 (Z.lor spiv APIC_SPIV_SOFTWARE_ENABLE) Hwf) as (s1&->&Hw1&Hr1&Ho1&_);
    [lia|lia|by apply lor_bound|]. cbn [mbind res_bind].
  destruct (read_lapic s1 0x350 Hw1) as (lint0&->&Hl); [lia..|]. cbn [mbind res_bind].
  set (v := Z.lor (Z.land lint0 _) _).
  assert (u32 v) as Hv by (apply lor_bound; [lia|by apply land_bound|by split]).
  destruct (write_lapic s1 0x350 v Hw1) as (s2&->&Hw2&Hr2&Ho2&Hp2); [lia|lia|done|].
  exists s2, (mkExtInt (Z.lor spiv APIC_SPIV_SOFTWARE_ENABLE) v). split_and!; [done|apply Hw2| | |].
  - rewrite (Hp2 0xf0), Hr1 by lia. cbn [mbind res_bind]. by rewrite Hr2.
  - unfold legacy_pic_extint_ready. cbn [extint_spiv extint_lint0]. rewrite land_lor_same, Z.eqb_refl. unfold v.
    change APIC_LVT_DELIVERY_MODE_MASK with APIC_LVT_DELIVERY_MODE_EXTINT at 2. rewrite land_lor_same, Z.eqb_refl.
    cbn [andb]. apply Z.eqb_eq. apply land_mode_mask.
  - intros i Hi Hj. rewrite Ho2, Ho1 by lia. done.
Qed.

(** * Properties *)

