(* ===== verification/Syscall.v ===== *)
(** The system-call interface of the guest kernels: the MSRs that enable it
    ([configure_syscall_msrs] of [src/src/syscall/base.rs]) and the two-service dispatcher of
    [src/src/syscall/dispatcher.rs] with its page-fault handler and fixup table.

    The MSR configuration runs over the interface [KvmVcpu]; the dispatcher's machine code over any translation of
    addresses, with the page faults of [UserCopy]. *)

From S2P Require Import Prelude Errors Memory VirtioCommon Msr VcpuState VcpuInit.
From S2P Require Import Loader LongMode Boot GuestTables Privilege X86 Tasks TaskSwitch UserCopy.
Import Rings Spaces.
Import Partial (SYSCALL_KERNEL_ENTRY, SYSCALL_STAR_VALUE, SYSCALL_LSTAR_VALUE, SYSCALL_SFMASK_VALUE, EFER_SYSCALL_ENABLE).
Import Faults.

(** * Definitions *)
Definition MSR_STAR : MsrIndex := 0xc0000081.
Definition MSR_LSTAR : MsrIndex := 0xc0000082.
Definition MSR_SFMASK : MsrIndex := 0xc0000084.
Definition syscall_indices : list MsrIndex := [MSR_STAR; MSR_LSTAR; MSR_SFMASK].
Definition syscall_requested : list (MsrIndex * Z) :=
  [(MSR_STAR, SYSCALL_STAR_VALUE); (MSR_LSTAR, SYSCALL_LSTAR_VALUE); (MSR_SFMASK, SYSCALL_SFMASK_VALUE)].
Definition configure_syscall_msrs {V} `{!KvmVcpu V} (id : Z) (host_msr_indices : HostMsrIndexList) : prog V Error (list Z) :=
  policy ← lift (map_err (λ _, verification_error "syscall MSR policy" "policy error") (from_host host_msr_indices syscall_indices));
  values ← lift (map_err (λ _, verification_error "syscall MSR values" "value error") (from_policy policy syscall_requested));
  efer ← enable_efer_bits_preserving id EFER_SYSCALL_ENABLE;
  set_msrs id values;;
  observed ← reading (vcpu_msrs id syscall_indices);
  lift (err_if (negb (len observed =? len syscall_indices)) (verification_error "syscall MSR readback" "unexpected count"));;
  v0 ← lift (index observed 0);
  v1 ← lift (index observed 1);
  v2 ← lift (index observed 2);
  let readback := [v0.2; v1.2; v2.2] in
  lift (err_if (bool_decide (readback ≠ [SYSCALL_STAR_VALUE; SYSCALL_LSTAR_VALUE; SYSCALL_SFMASK_VALUE]))
    (verification_error "syscall MSR readback" "unexpected readback"));;
  mret (efer :: readback).

Module Dispatch.
Definition DISPATCH_COPY_NR : Z := 0.
Definition DISPATCH_PUTC_NR : Z := 1.
Definition DISPATCH_READ_FAULT_OBSERVATION_ADDR : GuestPhysAddr := 0xb000.
Definition DISPATCH_WRITE_FAULT_OBSERVATION_ADDR : GuestPhysAddr := 0xb040.
Definition DISPATCH_FIXUP_TABLE_ADDR : GuestPhysAddr := 0xb100.
Definition DISPATCH_PAGE_FAULT_HANDLER : GuestPhysAddr := 0x14000.
Definition DISPATCH_COPY_READ_FAULT_RIP : Z := SYSCALL_KERNEL_ENTRY + 38.
Definition DISPATCH_COPY_WRITE_FAULT_RIP : Z := SYSCALL_KERNEL_ENTRY + 41.
Definition DISPATCH_COPY_READ_FIXUP_RIP : Z := SYSCALL_KERNEL_ENTRY + 51.
Definition DISPATCH_COPY_WRITE_FIXUP_RIP : Z := SYSCALL_KERNEL_ENTRY + 64.
Definition DISPATCH_EFAULT : Z := as_width 64 (-14).
Definition DISPATCH_ENOSYS : Z := as_width 64 (-38).
Definition KERNEL_CODE_SELECTOR : Z := 0x08.
Definition FAULT_OBSERVATION_BYTES : Z := 48.
Definition FIXUP_ENTRY_BYTES : Z := 24.
Definition FIXUP_TABLE_BYTES : Z := 2 * FIXUP_ENTRY_BYTES.
Definition READ_PAGE_FAULT_ERROR_CODE : Z := 0.
Definition WRITE_PAGE_FAULT_ERROR_CODE : Z := Z.shiftl 1 1.
Definition DISPATCHER_HANDLER_BYTES : list Z :=
  [0x49; 0x89; 0xe2; 0x48; 0xbc; 0x00; 0xe0; 0x1f; 0x00; 0x00; 0x00; 0x00; 0x00; 0x48; 0x83; 0xf8;
   0x00; 0x74; 0x13; 0x48; 0x83; 0xf8; 0x01; 0x74; 0x34; 0xb0; 0x55; 0xe6; 0xe9; 0x48; 0xc7; 0xc0;
   0xda; 0xff; 0xff; 0xff; 0xeb; 0x2e; 0x0f; 0xb6; 0x07; 0x88; 0x06; 0xb0; 0x43; 0xe6; 0xe9; 0x31;
   0xc0; 0xeb; 0x21; 0xb0; 0x52; 0xe6; 0xe9; 0x48; 0xc7; 0xc0; 0xf2; 0xff; 0xff; 0xff; 0xeb; 0x14;
   0xb0; 0x57; 0xe6; 0xe9; 0x48; 0xc7; 0xc0; 0xf2; 0xff; 0xff; 0xff; 0xeb; 0x07; 0x40; 0x88; 0xf8;
   0xe6; 0xe9; 0x31; 0xc0; 0x4c; 0x89; 0xd4; 0x48; 0x0f; 0x07].
Definition PAGE_FAULT_HANDLER_BYTES : list Z :=
  [0x48; 0x8b; 0x44; 0x24; 0x08; 0x49; 0xb9; 0x00; 0xb1; 0x00; 0x00; 0x00; 0x00; 0x00; 0x00; 0x49;
   0x3b; 0x01; 0x74; 0x0b; 0x49; 0x3b; 0x41; 0x18; 0x74; 0x0f; 0xb0; 0x58; 0xe6; 0xe9; 0xf4; 0x4d;
   0x8b; 0x41; 0x08; 0x49; 0x8b; 0x51; 0x10; 0xeb; 0x08; 0x4d; 0x8b; 0x41; 0x20; 0x49; 0x8b; 0x51;
   0x28; 0x0f; 0x20; 0xd0; 0x48; 0x89; 0x02; 0x48; 0x8b; 0x04; 0x24; 0x48; 0x89; 0x42; 0x08; 0x48;
   0x8b; 0x44; 0x24; 0x08; 0x48; 0x89; 0x42; 0x10; 0x48; 0x8b; 0x44; 0x24; 0x10; 0x48; 0x89; 0x42;
   0x18; 0x48; 0x8b; 0x44; 0x24; 0x18; 0x48; 0x89; 0x42; 0x20; 0x4c; 0x89; 0x42; 0x28; 0x4c; 0x89;
   0x44; 0x24; 0x08; 0x49; 0xc7; 0xc0; 0xf2; 0xff; 0xff; 0xff; 0x48; 0x83; 0xc4; 0x08; 0x48; 0xcf].
Record DispatchFixupEntry := mkFixup { fault_rip : Z; fixup_rip : Z; observation_addr : Z }.
Record DispatchFaultObservation := mkObservation {
  obs_cr2 : Z; obs_error_code : Z; obs_rip : Z; obs_cs : Z; obs_rflags : Z; resolved_fixup : Z
}.
Definition expected_fixup_entries : list DispatchFixupEntry :=
  [mkFixup DISPATCH_COPY_READ_FAULT_RIP DISPATCH_COPY_READ_FIXUP_RIP DISPATCH_READ_FAULT_OBSERVATION_ADDR;
   mkFixup DISPATCH_COPY_WRITE_FAULT_RIP DISPATCH_COPY_WRITE_FIXUP_RIP DISPATCH_WRITE_FAULT_OBSERVATION_ADDR].
Definition encoded_fixup_table : list Z :=
  concat (map (λ entry, to_le_bytes 8 (fault_rip entry) ++ to_le_bytes 8 (fixup_rip entry) ++
                        to_le_bytes 8 (observation_addr entry)) expected_fixup_entries).
Definition read_u64 (bytes : list Z) (offset : Z) : res Error Z := field bytes offset.
Definition read_fault_observation (m : GuestMemory) (address : GuestPhysAddr) : res Error DispatchFaultObservation :=
  bytes ← read m address FAULT_OBSERVATION_BYTES;
  cr2 ← read_u64 bytes 0;
  error_code ← read_u64 bytes 8;
  rip ← read_u64 bytes 16;
  cs ← read_u64 bytes 24;
  rflags ← read_u64 bytes 32;
  resolved_fixup ← read_u64 bytes 40;
  Ok (mkObservation cr2 error_code rip cs rflags resolved_fixup).
Definition read_fixup_table (m : GuestMemory) : res Error (list DispatchFixupEntry) :=
  bytes ← read m DISPATCH_FIXUP_TABLE_ADDR FIXUP_TABLE_BYTES;
  rip0 ← read_u64 bytes 0;
  fixup0 ← read_u64 bytes 8;
  observation0 ← read_u64 bytes 16;
  rip1 ← read_u64 bytes 24;
  fixup1 ← read_u64 bytes 32;
  observation1 ← read_u64 bytes 40;
  Ok [mkFixup rip0 fixup0 observation0; mkFixup rip1 fixup1 observation1].
End Dispatch.
Import Dispatch.
Definition dispatch_service : Translation → Z → Cpu → option (Stop * Cpu) :=
  service 1 SYSCALL_KERNEL_ENTRY DISPATCHER_HANDLER_BYTES DISPATCH_PAGE_FAULT_HANDLER PAGE_FAULT_HANDLER_BYTES.

(** * Facts *)

(** ** The MSRs *)
Section msrs.
Context {V : Type} (apart : Z → Prop) `{!KvmVcpu V, !KvmVcpuLaws V apart} (id : Z).
(** A write of all values, read back at once. *)
Lemma set_msrs_reads (values : GuestMsrValueSet) (v : V) :
  let pairs := (λ x, (msr_index x, msr_value x)) <$> msr_values values in
  pairs ≠ [] → len pairs ≤ VCPU_MSR_READBACK_CAPACITY → NoDup pairs.*1 → Forall apart pairs.*1 →
  runs (set_msrs id values) v
    (λ _ v', ioctl_get_sregs v' = ioctl_get_sregs v ∧ vcpu_msrs id pairs.*1 v' = Ok pairs) (λ _ _, True).
Proof.
  intros pairs Hne Hlen Hnd Hap. assert (len pairs = len (msr_values values)) as Hpl by apply len_fmap.
  unfold set_msrs, prepare_vcpu_msr_write_request.
  assert (is_empty (msr_values values) = false) as -> by (subst pairs; by destruct (msr_values values)).
  unfold VCPU_MSR_READBACK_CAPACITY in Hlen. eapply runs_lift_ok.
  { unfold VCPU_MSR_WRITE_CAPACITY, try_from. zcmp. simpl. unfold len. rewrite Nat2Z.id, firstn_all2 by (by rewrite length_fmap). done. }
  cbv beta iota. apply runs_bind, runs_pmap_err. fold pairs.
  eapply runs_mono; [by apply set_msrs_law| |done]. intros n v' (Hn0&_&Hs&Hget). cbv beta.
  unfold validate_vcpu_msr_write_completion. rewrite <- Hpl. destruct (Z.eqb_spec n (len pairs)) as [->|Hn]; simpl.
  - split; [done|]. unfold vcpu_msrs. assert (is_empty pairs.*1 = false) as -> by (by destruct pairs).
    rewrite prepare_vcpu_msr_request_ok by (by rewrite len_fmap). simpl. rewrite Hget by done. simpl.
    by rewrite decode_vcpu_msr_response_ok.
  - destruct (Z.ltb_spec n (len pairs)); [|done].
    destruct (index_ok (E:=Error) (msr_values values) n) as (x&Hx&_); [lia|]. by rewrite Hx.
Qed.
Lemma configure_syscall_runs host v s0 :
  ioctl_get_sregs v = Ok s0 → Forall apart syscall_indices → syscall_indices ⊆ host_indices host →
  runs (configure_syscall_msrs id host) v
    (λ r v', r = [Z.lor (sys.efer s0) EFER_SYSCALL_ENABLE; SYSCALL_STAR_VALUE; SYSCALL_LSTAR_VALUE; SYSCALL_SFMASK_VALUE] ∧
       sregs_are v' (with_efer s0 (Z.lor (sys.efer s0) EFER_SYSCALL_ENABLE)) ∧ vcpu_msrs id syscall_indices v' = Ok syscall_requested)
    (λ _ _, True).
Proof.
  intros Hs Hap Hsub. unfold configure_syscall_msrs.
  assert (from_host host syscall_indices = Ok {| policy_entries := (λ i, {| access_index := i; access_authority := ReadWrite |}) <$> syscall_indices |}) as Eh.
  { apply from_host_Ok. split_and!; [apply (bool_decide_unpack _); vm_compute; done|done|done]. }
  eapply runs_lift_ok; [by rewrite Eh|]. eapply runs_lift_ok; [vm_compute; reflexivity|].
  apply runs_bind. eapply runs_mono; [by apply (enable_efer_runs apart)| |done]. intros r v1 (->&Hsr). cbv beta.
  apply runs_bind. eapply runs_mono; [apply set_msrs_reads| |done].
  - done.
  - vm_compute. congruence.
  - apply (bool_decide_unpack _). vm_compute. done.
  - done.
  - intros _ v2 (Hs2&Hm). cbv beta. change (vcpu_msrs id syscall_indices v2 = Ok syscall_requested) in Hm.
    apply runs_bind, runs_reading; rewrite Hm; [done| |done].
    intros ? [= <-]. do 5 (eapply runs_lift_ok; [vm_compute; reflexivity|]). apply runs_ret. split_and!; [done| |done].
    destruct Hsr as (s1&E1&E2). exists s1. by rewrite Hs2.
Qed.
End msrs.
(** A host that lacks one of the MSRs is refused before the vCPU is touched. *)
Lemma configure_syscall_refused {V} `{!KvmVcpu V} (id : Z) host (v : V) :
  ¬ syscall_indices ⊆ host_indices host →
  configure_syscall_msrs id host v = (Err (verification_error "syscall MSR policy" "policy error"), v).
Proof.
  intros H. unfold configure_syscall_msrs. destruct (from_host host syscall_indices) as [p|e|] eqn:E.
  - apply from_host_Ok in E as (_&?&_). done.
  - reflexivity.
  - unfold from_host in E. pose proof (from_host_loop_spec (host_indices host) syscall_indices [] ∅ seen_ok_empty) as L.
    change (length []) with 0%nat in L. by destruct (from_host_loop _ _ _ _).
Qed.

(** ** The page-fault handler *)
Abbreviation R8 := 8.
Abbreviation RDX := 2.
Definition fault_site (w : bool) : Z := if w then DISPATCH_COPY_WRITE_FAULT_RIP else DISPATCH_COPY_READ_FAULT_RIP.
Definition fixup_site (w : bool) : Z := if w then DISPATCH_COPY_WRITE_FIXUP_RIP else DISPATCH_COPY_READ_FIXUP_RIP.
Definition fault_record (w : bool) : Z :=
  if w then DISPATCH_WRITE_FAULT_OBSERVATION_ADDR else DISPATCH_READ_FAULT_OBSERVATION_ADDR.
Definition error_code (w : bool) : Z := if w then WRITE_PAGE_FAULT_ERROR_CODE else READ_PAGE_FAULT_ERROR_CODE.
Definition observation_at (m : GuestMemory) (a : Z) : DispatchFaultObservation :=
  mkObservation (rd64 m a) (rd64 m (a + 8)) (rd64 m (a + 16)) (rd64 m (a + 24)) (rd64 m (a + 32)) (rd64 m (a + 40)).
Definition fixups_at (m : GuestMemory) : list DispatchFixupEntry :=
  [mkFixup (rd64 m 0xb100) (rd64 m 0xb108) (rd64 m 0xb110); mkFixup (rd64 m 0xb118) (rd64 m 0xb120) (rd64 m 0xb128)].
Lemma dispatch_observation_at m a :
  tables_fit m → 0 ≤ a → a + 48 ≤ LONG_MODE_IDENTITY_MAP_SIZE → read_fault_observation m a = Ok (observation_at m a).
Proof.
  intros. unfold read_fault_observation, FAULT_OBSERVATION_BYTES, read_u64. rewrite read_fits by lia || done.
  cbn [mbind res_bind]. rewrite !field_at by lia. cbn [mbind res_bind]. by rewrite Z.add_0_r.
Qed.
Lemma dispatch_fixup_table_at m : tables_fit m → read_fixup_table m = Ok (fixups_at m).
Proof.
  intros. unfold read_fixup_table, FIXUP_TABLE_BYTES, FIXUP_ENTRY_BYTES, DISPATCH_FIXUP_TABLE_ADDR, read_u64.
  rewrite read_fits by (done || (unfold LONG_MODE_IDENTITY_MAP_SIZE; lia)).
  cbn [mbind res_bind]. rewrite !field_at by lia. reflexivity.
Qed.
Lemma dispatch_handler_recovers tr other w a regs cr3 out m :
  kernel_view tr → tables_fit m → fixups_at m = expected_fixup_entries → regs RSP = 0x1fe000 → u64 a →
  0 ≤ other < 2 ^ 62 →
  let rflags := other + 0x10044 in
  ∃ c, exec_in tr 40 0x14000 PAGE_FAULT_HANDLER_BYTES
         (page_fault 0x14000 other w a (mkCpu (fault_site w) regs cr3 (mkFlags true 4) out m)) =
       Some (Returned (mkFrame (fixup_site w) 0x08 rflags 0x1fe000 0x10), c) ∧
    (∀ j, j ≠ RAX → j ≠ RDX → j ≠ RSP → j ≠ R8 → j ≠ 9 → j ≠ CR2 → cpu_regs c j = regs j) ∧ cpu_regs c CR2 = a ∧
    cpu_cr3 c = cr3 ∧ cpu_out c = out ∧
    observation_at (cpu_ram c) (fault_record w) = mkObservation a (error_code w) (fault_site w) 0x08 rflags (fixup_site w) ∧
    fault_writes_only (fault_record w) 48 m (cpu_ram c).
Proof.
  intros Hk Hf Ht Hs Ha Ho rflags. assert (memory_wf m) as Hm by apply Hf.
  unfold fixups_at, expected_fixup_entries in Ht. injection Ht as T1 T2 T3 T4 T5 T6.
  assert (u64 (other + 65604)) as Hr by ulia.
  rewrite page_fault_at by done. unfold rflags_of, RSP, CR2 in *. cbn [zf status].
  replace (other + 64 + 4 + 2 ^ 16) with (other + 65604) by lia.
  destruct w; cbn [fault_site fixup_site fault_record error_code].
  all: change DISPATCH_COPY_READ_FAULT_RIP with 0x12026 in *; change DISPATCH_COPY_WRITE_FAULT_RIP with 0x12029 in *;
    change DISPATCH_COPY_READ_FIXUP_RIP with 0x12033 in *; change DISPATCH_COPY_WRITE_FIXUP_RIP with 0x12040 in *;
    change DISPATCH_READ_FAULT_OBSERVATION_ADDR with 0xb000 in *; change DISPATCH_WRITE_FAULT_OBSERVATION_ADDR with 0xb040 in *.
  all: match goal with |- context [exec_in ?tr ?n ?b ?code ?c] => eassert (exec_in tr n b code c = _) as E end;
    [kernel_run Hk ltac:(rewrite ?T1, ?T2, ?T3, ?T4, ?T5, ?T6); reflexivity|].
  all: eexists; split; [exact E|]; clear E; cbn [cpu_rip cpu_regs cpu_cr3 cpu_flags cpu_out cpu_ram].
  all: unfold RAX, R12, observation_at; cbn [Z.add Pos.add Pos.succ Pos.add_carry]; upd_simpl; address_simpl; rd64_simpl.
  all: split_and!; [intros; by rewrite !upd_other|done..|].
  all: split; [by repeat apply wr64_fits|intros x Hx Hs'; rewrite ?rd8_wr64_out by lia; reflexivity].
Qed.

(** ** The services *)
Definition dispatch_clobbered : list Z := [RAX; RDX; R8; 9; 10; CR2].
Definition at_dispatch (regs : Z → Z) (cr3 : Z) (fl : Flags) (out : list (Z * Z)) (m : GuestMemory) : Cpu :=
  mkCpu SYSCALL_LSTAR_VALUE regs cr3 fl out m.
Lemma dispatch_kept (regs f : Z → Z) :
  (∀ j, j ∉ dispatch_clobbered → j ≠ RSP → f j = regs j) → f RSP = regs RSP → ∀ j, j ∉ dispatch_clobbered → f j = regs j.
Proof. intros H Hs j Hj. destruct (decide (j = RSP)) as [->|]; auto. Qed.
Ltac dispatch_end E :=
  eexists; (split; [apply service_done; [exact E|done]|]); cbn [at_dispatch cpu_regs cpu_cr3 cpu_out cpu_ram]; upd_simpl;
  rewrite ?low8_set_al by first [lia|by apply Z.mod_pos_bound]; (split_and!; [try (by rewrite ?Z.lxor_nilpotent)|done| |done|try done|try done]);
  apply dispatch_kept; [intros j Hj Hs; unfold dispatch_clobbered in Hj; rewrite !not_elem_of_cons in Hj; destruct_and! Hj;
                        rewrite ?upd_other by assumption; reflexivity|reflexivity].
Section calls.
Context (tr : Translation) (other cr3 : Z) (regs : Z → Z) (fl : Flags) (out : list (Z * Z)) (m : GuestMemory).
Abbreviation run c := (exec_in tr 60 0x12000 DISPATCHER_HANDLER_BYTES c).
Abbreviation call := (leaves_with (dispatch_service tr other) dispatch_clobbered (at_dispatch regs cr3 fl out m)).
Lemma dispatch_unknown :
  regs RAX ≠ DISPATCH_COPY_NR → regs RAX ≠ DISPATCH_PUTC_NR → call DISPATCH_ENOSYS (regs CR2) [0x55] (λ m', m' = m).
Proof.
  intros H0 H1. apply Z.eqb_neq in H0, H1. unfold RAX, DISPATCH_COPY_NR, DISPATCH_PUTC_NR in *.
  eassert (run (mkCpu 0x12000 regs cr3 fl out m) = Some (SysReturned (regs RCX) (regs R11), _)) as E
    by (call_run ltac:(unfold same; rewrite ?H0, ?H1); reflexivity).
  dispatch_end E.
Qed.
Lemma dispatch_putc : regs RAX = DISPATCH_PUTC_NR → call 0 (regs CR2) [low8 (regs RDI)] (λ m', m' = m).
Proof.
  intros H. unfold RAX, DISPATCH_PUTC_NR in *.
  eassert (run (mkCpu 0x12000 regs cr3 fl out m) = Some (SysReturned (regs RCX) (regs R11), _)) as E
    by (call_run ltac:(rewrite ?H); reflexivity).
  dispatch_end E.
Qed.
Lemma dispatch_copy p q :
  bytes_in m → regs RAX = DISPATCH_COPY_NR → tr false 1 (regs RDI mod 2 ^ 64) = Some p → tr true 1 (regs RSI mod 2 ^ 64) = Some q →
  call 0 (regs CR2) [0x43] (λ m', m' = wr8 m q (rd8 m p)).
Proof.
  intros Hb H Hp Hq. unfold RAX, RDI, RSI, DISPATCH_COPY_NR in *.
  assert (low8 (rd8 m p) = rd8 m p) as Hl by (apply Z.mod_small, Hb).
  eassert (run (mkCpu 0x12000 regs cr3 fl out m) = Some (SysReturned (regs RCX) (regs R11), _)) as E
    by (call_run ltac:(rewrite ?H, ?Z.add_0_r, ?Hp, ?Hq, ?Hl); reflexivity).
  dispatch_end E.
Qed.
(** The first access of the copy that faults. *)
Lemma dispatch_faults (w : bool) a :
  regs RAX = DISPATCH_COPY_NR → a = (if w then regs RSI else regs RDI) mod 2 ^ 64 → tr w 1 a = None →
  (w = true → is_Some (tr false 1 (regs RDI mod 2 ^ 64))) →
  ∃ regs' : Z → Z, run (mkCpu 0x12000 regs cr3 fl out m) = Some (Faulted w a, mkCpu (fault_site w) regs' cr3 (mkFlags true 4) out m) ∧
    regs' RSP = 0x1fe000 ∧ regs' 10 = regs RSP ∧ ∀ j, j ∉ dispatch_clobbered → j ≠ RSP → regs' j = regs j.
Proof.
  intros H Ha Hn Hr. unfold RAX, RDI, RSI, DISPATCH_COPY_NR in *. subst a.
  destruct w; [destruct Hr as [p Hp]; [done|]|].
  all: eexists; (split; [call_run ltac:(rewrite ?H, ?Z.add_0_r, ?Hp, ?Hn); reflexivity|]); (split_and!; [done|done|]).
  all: intros j Hj Hs; unfold dispatch_clobbered in Hj; rewrite !not_elem_of_cons in Hj; destruct_and! Hj; by rewrite !upd_other.
Qed.
(** From the fixup of a fault to the user. *)
Lemma dispatch_fixup (w : bool) :
  ∃ c : Cpu, run (mkCpu (fixup_site w) regs cr3 fl out m) = Some (SysReturned (regs RCX) (regs R11), c) ∧
    cpu_regs c RAX = DISPATCH_EFAULT ∧ cpu_regs c RSP = regs 10 ∧ cpu_regs c CR2 = regs CR2 ∧
    (∀ j, j ∉ dispatch_clobbered → j ≠ RSP → cpu_regs c j = regs j) ∧
    cpu_cr3 c = cr3 ∧ cpu_out c = out ++ prints [if w then 0x57 else 0x52] ∧ cpu_ram c = m.
Proof.
  destruct w; (eexists; split; [call_run idtac; reflexivity|]); cbn [cpu_regs cpu_cr3 cpu_out cpu_ram]; upd_simpl;
    rewrite low8_set_al by lia; (split_and!; [done|done|done| |done|done|done]);
    intros j Hj Hs; unfold dispatch_clobbered in Hj; rewrite !not_elem_of_cons in Hj; destruct_and! Hj; by rewrite !upd_other.
Qed.
End calls.
Lemma dispatch_recovers tr other cr3 regs fl out m (w : bool) a :
  kernel_view tr → tables_fit m → fixups_at m = expected_fixup_entries → 0 ≤ other < 2 ^ 62 →
  regs RAX = DISPATCH_COPY_NR → a = (if w then regs RSI else regs RDI) mod 2 ^ 64 → tr w 1 a = None →
  (w = true → is_Some (tr false 1 (regs RDI mod 2 ^ 64))) →
  leaves_with (dispatch_service tr other) dispatch_clobbered (at_dispatch regs cr3 fl out m) DISPATCH_EFAULT a
    [if w then 0x57 else 0x52] (λ m',
    observation_at m' (fault_record w) = mkObservation a (error_code w) (fault_site w) 0x08 (other + 0x10044) (fixup_site w) ∧
    fault_writes_only (fault_record w) 48 m m').
Proof.
  intros Hk Hf Ht Ho H Ha Hn Hr. destruct (dispatch_faults tr cr3 regs fl out m w a H Ha Hn Hr) as (regs'&E&Hs&H10&Hkept).
  assert (u64 a) as Hu by (subst a; by apply Z.mod_pos_bound).
  destruct (dispatch_handler_recovers tr other w a regs' cr3 out m) as (c&Ec&Hc&Hc2&Hcr3&Hout&Hobs&Hw); [done..|].
  destruct (dispatch_fixup tr (cpu_cr3 c) (upd (cpu_regs c) RSP 0x1fe000) (flags_of (other + 0x10044)) (cpu_out c) (cpu_ram c) w)
    as (c'&E'&Hax&Hsp&Hcr2&Hr'&Hcr&Ho'&Hm).
  assert (∀ j, j ∉ dispatch_clobbered → j ≠ RSP → cpu_regs c' j = regs j) as Hall.
  { intros j Hj Hsj. rewrite Hr', upd_other by done. pose proof Hj as Hj'. unfold dispatch_clobbered in Hj. rewrite !not_elem_of_cons in Hj.
    destruct_and! Hj. rewrite Hc by done. by apply Hkept. }
  exists c'. rewrite Ho', Hm, Hcr, Hcr3, Hout. split_and!; [|done| | |done|done|done|done].
  - unfold dispatch_service, at_dispatch. rewrite (service_fault _ _ _ _ _ _ _ _ _ _ _ E).
    change DISPATCH_PAGE_FAULT_HANDLER with 0x14000. rewrite Ec. cbn [at_dispatch cpu_regs].
    rewrite (service_done 0 _ _ _ _ _ _ _ _ _ E') by done. rewrite !upd_other, !Hc, !Hkept by (done || set_solver). done.
  - rewrite Hcr2, upd_other by done. done.
  - apply dispatch_kept; [done|]. rewrite Hsp, upd_other, Hc by done. done.
Qed.
(** A fault at any other instruction stops the machine. *)
Lemma dispatch_handler_refuses tr other w a rip regs cr3 out m :
  kernel_view tr → tables_fit m → fixups_at m = expected_fixup_entries → regs RSP = 0x1fe000 → u64 rip →
  rip ≠ fault_site true → rip ≠ fault_site false → 0 ≤ other < 2 ^ 62 →
  ∃ c, exec_in tr 40 DISPATCH_PAGE_FAULT_HANDLER PAGE_FAULT_HANDLER_BYTES
         (page_fault DISPATCH_PAGE_FAULT_HANDLER other w a (mkCpu rip regs cr3 (mkFlags true 4) out m)) = Some (Halted, c) ∧
    cpu_out c = out ++ prints [0x58] ∧ fault_writes_only 0 0 m (cpu_ram c).
Proof.
  intros Hk Hf Ht Hs Hu Hw Hr Ho. assert (memory_wf m) as Hm by apply Hf.
  unfold fixups_at, expected_fixup_entries in Ht. injection Ht as T1 _ _ T4 _ _.
  assert (u64 (other + 65604)) by ulia. assert (u64 (if w then 2 else 0)) by (by destruct w).
  change DISPATCH_PAGE_FAULT_HANDLER with 0x14000.
  rewrite page_fault_at by done. unfold rflags_of, RSP, CR2, fault_site in *. cbn [zf status].
  replace (other + 64 + 4 + 2 ^ 16) with (other + 65604) by lia.
  assert (same rip 0x12026 = false) as E1 by (by apply Z.eqb_neq).
  assert (same rip 0x12029 = false) as E2 by (by apply Z.eqb_neq).
  change DISPATCH_COPY_READ_FAULT_RIP with 0x12026 in T1. change DISPATCH_COPY_WRITE_FAULT_RIP with 0x12029 in T4.
  match goal with |- context [exec_in ?tr ?n ?b ?code ?c] => eassert (exec_in tr n b code c = _) as E end;
    [kernel_run Hk ltac:(rewrite ?T1, ?T4, ?E1, ?E2); reflexivity|].
  eexists; split; [exact E|]; clear E. cbn [cpu_out cpu_ram]. rewrite low8_set_al by lia. split; [done|].
  split; [by repeat apply wr64_fits|intros x Hx Hs'; rewrite ?rd8_wr64_out by lia; reflexivity].
Qed.

(** * Properties *)


(** C14: the two-service dispatcher.  For any translation of addresses that maps the kernel's own data to itself, any
    registers and any memory that holds the fixup table: number 0 copies the byte the source translates to to the place the
    destination translates to and returns 0; when the source, or else the destination, does not translate, it returns EFAULT, prints R
    or W, records the fault's address, error code, instruction and fixup where the host reads them, and writes nothing
    but the record and the fault's stack frame.  Number 1 prints the byte of RDI, any other number is refused with ENOSYS.
    Each call returns to the user's next instruction with the user's stack pointer and every register but
    RAX, RDX and R8 to R10 as it was.  A page fault anywhere else prints X and halts. *)
Theorem dispatch_spec tr other regs cr3 fl out m :
  kernel_view tr → tables_fit m → read_fixup_table m = Ok expected_fixup_entries → 0 ≤ other < 2 ^ 62 →
  let nr := regs RAX in
  let src := regs RDI mod 2 ^ 64 in
  let dst := regs RSI mod 2 ^ 64 in
  let call := leaves_with (dispatch_service tr other) dispatch_clobbered (at_dispatch regs cr3 fl out m) in
  let efault (w : bool) (a : Z) :=
    call DISPATCH_EFAULT a [if w then 0x57 else 0x52] (λ m',
      read_fault_observation m' (fault_record w) =
        Ok (mkObservation a (error_code w) (fault_site w) KERNEL_CODE_SELECTOR (other + 0x10044) (fixup_site w)) ∧
      fault_writes_only (fault_record w) FAULT_OBSERVATION_BYTES m m') in
  (nr = DISPATCH_COPY_NR →
     match tr false 1 src, tr true 1 dst with
     | None, _ => efault false src
     | Some _, None => efault true dst
     | Some p, Some q => call 0 (regs CR2) [0x43] (λ m', m' = wr8 m q (rd8 m p))
     end) ∧
  (nr = DISPATCH_PUTC_NR → call 0 (regs CR2) [low8 (regs RDI)] (λ m', m' = m)) ∧
  (nr ≠ DISPATCH_COPY_NR → nr ≠ DISPATCH_PUTC_NR → call DISPATCH_ENOSYS (regs CR2) [0x55] (λ m', m' = m)) ∧
  (∀ rip w a, regs RSP = 0x1fe000 → u64 rip → rip ≠ DISPATCH_COPY_READ_FAULT_RIP → rip ≠ DISPATCH_COPY_WRITE_FAULT_RIP →
     ∃ c, exec_in tr 40 DISPATCH_PAGE_FAULT_HANDLER PAGE_FAULT_HANDLER_BYTES
            (page_fault DISPATCH_PAGE_FAULT_HANDLER other w a (mkCpu rip regs cr3 (mkFlags true 4) out m)) = Some (Halted, c) ∧
       cpu_out c = out ++ prints [0x58] ∧ fault_writes_only 0 0 m (cpu_ram c)).
Proof.
  intros Hk Hf Ht Ho nr src dst call efault. rewrite dispatch_fixup_table_at in Ht by done.
  assert (fixups_at m = expected_fixup_entries) as Ht' by congruence. clear Ht. rename Ht' into Ht.
  assert (∀ (w : bool) a, nr = DISPATCH_COPY_NR → a = (if w then regs RSI else regs RDI) mod 2 ^ 64 → tr w 1 a = None →
            (w = true → is_Some (tr false 1 src)) → efault w a) as Hfault.
  { intros w a Hnr Ha Hn Hr. destruct (dispatch_recovers tr other cr3 regs fl out m w a Hk Hf Ht Ho Hnr Ha Hn Hr) as (c&?&?&?&?&?&?&Hobs&Hw).
    exists c. split_and!; [done..| |done]. rewrite dispatch_observation_at; [by rewrite Hobs|apply Hw|by destruct w|by destruct w]. }
  split_and!.
  - intros Hnr. destruct (tr false 1 src) as [p|] eqn:Ep; [destruct (tr true 1 dst) as [q|] eqn:Eq|].
    + by apply dispatch_copy; [apply fits_bytes| | |].
    + by apply Hfault.
    + by apply Hfault.
  - intros. by apply dispatch_putc.
  - intros. by apply dispatch_unknown.
  - intros. by apply dispatch_handler_refuses.
Qed.
(** A destination that is not there. *)
Definition low_only : Translation := λ _ _ a, if a <? LONG_MODE_IDENTITY_MAP_SIZE then Some a else None.
Definition dispatch_memory : GuestMemory := mem_set boot_memory DISPATCH_FIXUP_TABLE_ADDR encoded_fixup_table.
Definition bad_destination (j : Z) : Z := if j =? RDI then 0xa100 else if j =? RSI then 0x400000 else 0.
Lemma dispatch_memory_fits : tables_fit dispatch_memory.
Proof.
  eapply window_fits; [apply (window_set 0xb100 0xb130); [done|done|apply bytes_ok_dec; vm_compute; reflexivity]|apply boot_fits].
Qed.
Lemma dispatch_spec_witness :
  leaves_with (dispatch_service low_only 2) dispatch_clobbered
    (at_dispatch bad_destination 0 (mkFlags false 0) [] dispatch_memory) DISPATCH_EFAULT 0x400000 [0x57] (λ m',
    read_fault_observation m' DISPATCH_WRITE_FAULT_OBSERVATION_ADDR =
      Ok (mkObservation 0x400000 2 DISPATCH_COPY_WRITE_FAULT_RIP KERNEL_CODE_SELECTOR 0x10046 DISPATCH_COPY_WRITE_FIXUP_RIP) ∧
    fault_writes_only DISPATCH_WRITE_FAULT_OBSERVATION_ADDR FAULT_OBSERVATION_BYTES dispatch_memory m').
Proof.
  destruct (dispatch_spec low_only 2 bad_destination 0 (mkFlags false 0) [] dispatch_memory) as (H&_).
  - intros w n a Hn Ha. unfold low_only, LONG_MODE_IDENTITY_MAP_SIZE. by rewrite (proj2 (Z.ltb_lt _ _)) by lia.
  - exact dispatch_memory_fits.
  - vm_compute. reflexivity.
  - lia.
  - exact (H eq_refl).
Defined.
