(* ===== verification/HostRegistration.v ===== *)
(** Host registrations: the ioeventfd doorbell and the irqfd line a device is
    accelerated with, as values ([src/src/kvm/host_registration.rs],
    [src/src/kvm/host_registration_pair.rs]), and their portable formats
    ([src/src/kvm/host_registration_schema_v1.rs],
    [src/src/kvm/host_registration_pair_schema_v1.rs]).

    An error that wraps the text of another error keeps the error here. *)

From S2P Require Import Prelude Errors Envelope.

Record HostRegistrationSpec := {
  doorbell_address : Z; doorbell_length : Z; doorbell_datamatch : Z; gsi : Z
}.
#[export] Instance spec_eq_dec : EqDecision HostRegistrationSpec.
Proof. solve_decision. Defined.

Definition host_registration_error (operation detail : string) : Error :=
  HostEnvironment (VmOperation operation (Custom InvalidInput (Message detail))).
Definition spec_new (address length datamatch line : Z) : res Error HostRegistrationSpec :=
  err_if (negb (bool_decide (length ∈ [1; 2; 4; 8])))
    (host_registration_error "validate host registration descriptor"
       "ioeventfd doorbell length is unsupported; expected 1, 2, 4 or 8");;
  significant_bits ← umul 32 length 8;
  err_if ((significant_bits <? 64) && (Z.shiftl 1 significant_bits <=? datamatch))
    (host_registration_error "validate host registration descriptor"
       "ioeventfd datamatch does not fit");;
  _ ← ok_or (checked_add 64 address length)
        (host_registration_error "validate host registration descriptor"
           "ioeventfd doorbell range overflows");
  mret {| doorbell_address := address; doorbell_length := length;
          doorbell_datamatch := datamatch; gsi := line |}.

(** [HostRegistrationSpecPair]: two registrations in address order.  Two equal
    addresses, which an unstable sort may leave in either order, overlap. *)
Abbreviation HostRegistrationSpecPair := (HostRegistrationSpec * HostRegistrationSpec)%type.
Definition sort_specs (specs : HostRegistrationSpecPair) : HostRegistrationSpecPair :=
  if doorbell_address specs.1 <=? doorbell_address specs.2 then specs else (specs.2, specs.1).
Definition pair_new (specs : HostRegistrationSpecPair) : res Error HostRegistrationSpecPair :=
  let specs := sort_specs specs in
  first_end ← expect (checked_add 64 (doorbell_address specs.1) (doorbell_length specs.1));
  err_if (doorbell_address specs.2 <? first_end)
    (host_registration_error "validate host registration pair"
       "host-registration doorbell ranges overlap");;
  err_if (gsi specs.1 =? gsi specs.2)
    (host_registration_error "validate host registration pair"
       "host-registration pair reuses a GSI");;
  mret specs.

(** * One registration *)
Definition VERSIONED_HOST_REGISTRATION_SPEC_VERSION : Z := 1.
Definition VERSIONED_HOST_REGISTRATION_SPEC_MAGIC : list Z := [77; 72; 86; 72; 82; 69; 71; 0].
Definition VERSIONED_HOST_REGISTRATION_SPEC_LEN : Z := 48.
Definition VERSIONED_HOST_REGISTRATION_SPEC_FLAGS : Z := 0.

Inductive VersionedHostRegistrationSpecError :=
  | SpecTruncated (actual : Z)
  | SpecInvalidMagic
  | SpecUnsupportedVersion (version : Z)
  | SpecInvalidHeaderLength (length : Z)
  | SpecInvalidTotalLength (length : Z)
  | SpecNonZeroFlags (flags : Z)
  | SpecNonZeroReserved (value : Z)
  | InvalidSpec (error : Error).

(** The consecutive ranges the encoder fills. *)
Definition spec_encode (spec : HostRegistrationSpec) : list Z :=
  VERSIONED_HOST_REGISTRATION_SPEC_MAGIC ++
  layout [2; 2; 4; 8; 4; 4; 8; 4; 4]%nat
    [VERSIONED_HOST_REGISTRATION_SPEC_VERSION; VERSIONED_HOST_REGISTRATION_SPEC_LEN;
     VERSIONED_HOST_REGISTRATION_SPEC_LEN; doorbell_address spec; doorbell_length spec; gsi spec;
     doorbell_datamatch spec; VERSIONED_HOST_REGISTRATION_SPEC_FLAGS; 0].
Definition spec_decode (bytes : list Z)
    : res VersionedHostRegistrationSpecError HostRegistrationSpec :=
  err_if (negb (len bytes =? VERSIONED_HOST_REGISTRATION_SPEC_LEN)) (SpecTruncated (len bytes));;
  magic ← slice bytes 0 8;
  err_if (bool_decide (magic ≠ VERSIONED_HOST_REGISTRATION_SPEC_MAGIC)) SpecInvalidMagic;;
  version ← le_field bytes 8 10;
  err_if (negb (version =? VERSIONED_HOST_REGISTRATION_SPEC_VERSION))
    (SpecUnsupportedVersion version);;
  header_len ← le_field bytes 10 12;
  err_if (negb (header_len =? VERSIONED_HOST_REGISTRATION_SPEC_LEN))
    (SpecInvalidHeaderLength header_len);;
  total_len ← le_field bytes 12 16;
  err_if (negb (total_len =? VERSIONED_HOST_REGISTRATION_SPEC_LEN))
    (SpecInvalidTotalLength total_len);;
  address ← le_field bytes 16 24;
  length ← le_field bytes 24 28;
  line ← le_field bytes 28 32;
  datamatch ← le_field bytes 32 40;
  flags ← le_field bytes 40 44;
  err_if (negb (flags =? 0)) (SpecNonZeroFlags flags);;
  reserved ← le_field bytes 44 48;
  err_if (negb (reserved =? 0)) (SpecNonZeroReserved reserved);;
  map_err InvalidSpec (spec_new address length datamatch line).

(** * Two registrations *)
Definition VERSIONED_HOST_REGISTRATION_PAIR_VERSION : Z := 1.
Definition VERSIONED_HOST_REGISTRATION_PAIR_MAGIC : list Z := [77; 72; 86; 72; 82; 50; 0; 0].
Definition VERSIONED_HOST_REGISTRATION_PAIR_HEADER_LEN : Z := 32.
Definition VERSIONED_HOST_REGISTRATION_PAIR_COUNT : Z := 2.
Definition VERSIONED_HOST_REGISTRATION_PAIR_FLAGS : Z := 0.
Definition VERSIONED_HOST_REGISTRATION_PAIR_LEN : Z :=
  VERSIONED_HOST_REGISTRATION_PAIR_HEADER_LEN + 2 * VERSIONED_HOST_REGISTRATION_SPEC_LEN.

Inductive VersionedHostRegistrationPairError :=
  | PairTruncated (actual : Z)
  | PairInvalidMagic
  | PairUnsupportedVersion (version : Z)
  | PairInvalidHeaderLength (length : Z)
  | PairInvalidTotalLength (length : Z)
  | InvalidRegistrationCount (count : Z)
  | PairNonZeroFlags (flags : Z)
  | PairNonZeroReserved (value : Z)
  | InvalidRegistrationLength (index length : Z)
  | Registration (index : Z) (error : VersionedHostRegistrationSpecError)
  | NonCanonicalOrder
  | InvalidPair (error : Error).

Definition pair_encode (pair : HostRegistrationSpecPair) : list Z :=
  VERSIONED_HOST_REGISTRATION_PAIR_MAGIC ++
  layout [2; 2; 4; 2; 2; 4; 4; 4]%nat
    [VERSIONED_HOST_REGISTRATION_PAIR_VERSION; VERSIONED_HOST_REGISTRATION_PAIR_HEADER_LEN;
     VERSIONED_HOST_REGISTRATION_PAIR_LEN; VERSIONED_HOST_REGISTRATION_PAIR_COUNT;
     VERSIONED_HOST_REGISTRATION_PAIR_FLAGS; 0; VERSIONED_HOST_REGISTRATION_SPEC_LEN;
     VERSIONED_HOST_REGISTRATION_SPEC_LEN] ++
  spec_encode pair.1 ++ spec_encode pair.2.
Definition check_member_length (bytes : list Z) (index a b : Z)
    : res VersionedHostRegistrationPairError unit :=
  length ← le_field bytes a b;
  err_if (negb (length =? VERSIONED_HOST_REGISTRATION_SPEC_LEN))
    (InvalidRegistrationLength index length).
Definition pair_decode (bytes : list Z)
    : res VersionedHostRegistrationPairError HostRegistrationSpecPair :=
  err_if (negb (len bytes =? VERSIONED_HOST_REGISTRATION_PAIR_LEN)) (PairTruncated (len bytes));;
  magic ← slice bytes 0 8;
  err_if (bool_decide (magic ≠ VERSIONED_HOST_REGISTRATION_PAIR_MAGIC)) PairInvalidMagic;;
  version ← le_field bytes 8 10;
  err_if (negb (version =? VERSIONED_HOST_REGISTRATION_PAIR_VERSION))
    (PairUnsupportedVersion version);;
  header_len ← le_field bytes 10 12;
  err_if (negb (header_len =? VERSIONED_HOST_REGISTRATION_PAIR_HEADER_LEN))
    (PairInvalidHeaderLength header_len);;
  total_len ← le_field bytes 12 16;
  err_if (negb (total_len =? VERSIONED_HOST_REGISTRATION_PAIR_LEN))
    (PairInvalidTotalLength total_len);;
  count ← le_field bytes 16 18;
  err_if (negb (count =? VERSIONED_HOST_REGISTRATION_PAIR_COUNT)) (InvalidRegistrationCount count);;
  flags ← le_field bytes 18 20;
  err_if (negb (flags =? 0)) (PairNonZeroFlags flags);;
  reserved ← le_field bytes 20 24;
  err_if (negb (reserved =? 0)) (PairNonZeroReserved reserved);;
  check_member_length bytes 0 24 28;;
  check_member_length bytes 1 28 32;;
  first_end ← uadd 64 VERSIONED_HOST_REGISTRATION_PAIR_HEADER_LEN
                VERSIONED_HOST_REGISTRATION_SPEC_LEN;
  first_bytes ← slice bytes VERSIONED_HOST_REGISTRATION_PAIR_HEADER_LEN first_end;
  first ← map_err (Registration 0) (spec_decode first_bytes);
  second_bytes ← slice bytes first_end (len bytes);
  second ← map_err (Registration 1) (spec_decode second_bytes);
  err_if (doorbell_address second <=? doorbell_address first) NonCanonicalOrder;;
  pair ← map_err InvalidPair (pair_new (first, second));
  err_if (bool_decide (pair ≠ (first, second))) NonCanonicalOrder;;
  mret pair.
Definition pair_materialize (pair : HostRegistrationSpecPair)
    : res VersionedHostRegistrationPairError HostRegistrationSpecPair :=
  map_err InvalidPair (pair_new pair).

(** * Laws *)
Definition spec_wf (s : HostRegistrationSpec) : Prop :=
  doorbell_length s ∈ [1; 2; 4; 8] ∧ in_width (8 * doorbell_length s) (doorbell_datamatch s) ∧
  0 ≤ doorbell_address s ∧ doorbell_address s + doorbell_length s < 2 ^ 64 ∧ u32 (gsi s).
Definition pair_wf (p : HostRegistrationSpecPair) : Prop :=
  spec_wf p.1 ∧ spec_wf p.2 ∧
  doorbell_address p.1 + doorbell_length p.1 ≤ doorbell_address p.2 ∧ gsi p.1 ≠ gsi p.2.

Lemma elem_of_lengths l : l ∈ [1; 2; 4; 8] ↔ l = 1 ∨ l = 2 ∨ l = 4 ∨ l = 8.
Proof. rewrite !elem_of_cons. rewrite elem_of_nil. tauto. Qed.
Lemma spec_new_no_panic a l d g : no_panic (spec_new a l d g).
Proof.
  unfold spec_new. apply no_panic_bind; [np_leaf|]. intros [] H. res_simplify.
  apply bool_decide_eq_true, elem_of_lengths in H. np.
Qed.
#[export] Hint Resolve spec_new_no_panic : panics.
Lemma spec_new_Ok a l d g s :
  0 ≤ a → u64 d → u32 g →
  spec_new a l d g = Ok s ↔
  s = {| doorbell_address := a; doorbell_length := l; doorbell_datamatch := d; gsi := g |} ∧ spec_wf s.
Proof.
  intros Ha Hd Hg. unfold spec_new. split.
  - intros H. bind_inv H. arith_inv. rewrite bool_decide_eq_true in Hstep. split; [done|].
    unfold spec_wf. cbn. split_and!; [done| |done|lia|done].
    apply andb_false_iff in Hstep1. rewrite Z.ltb_ge, Z.leb_gt, Z.shiftl_1_l in Hstep1.
    apply elem_of_lengths in Hstep as [->|[->|[->| ->]]]; ulia.
  - intros [-> (Hl&Hdm&_&Hend&_)]. cbn in Hl, Hdm, Hend. rewrite bool_decide_true by done.
    apply elem_of_lengths in Hl. cbn [negb err_if mbind res_bind].
    rewrite umul_ok by lia. cbn [mbind res_bind].
    replace (_ && _) with false.
    + unfold checked_add. zcmp. done.
    + symmetry. apply andb_false_iff. rewrite Z.shiftl_1_l, Z.leb_gt, Z.ltb_ge.
      right. rewrite Z.mul_comm. apply Hdm.
Qed.

Lemma spec_encode_layout s :
  spec_encode s = layout [8; 2; 2; 4; 8; 4; 4; 8; 4; 4]%nat
    [from_le_bytes VERSIONED_HOST_REGISTRATION_SPEC_MAGIC; 1; 48; 48; doorbell_address s;
     doorbell_length s; gsi s; doorbell_datamatch s; 0; 0].
Proof. done. Qed.
Lemma spec_fields_ok s :
  spec_wf s → layout_ok [8; 2; 2; 4; 8; 4; 4; 8; 4; 4]%nat
    [from_le_bytes VERSIONED_HOST_REGISTRATION_SPEC_MAGIC; 1; 48; 48; doorbell_address s;
     doorbell_length s; gsi s; doorbell_datamatch s; 0; 0].
Proof.
  intros (Hl&Hd&Ha&He&Hg). apply elem_of_lengths in Hl.
  assert (u64 (doorbell_datamatch s)) as Hd64
    by (destruct Hl as [Hl|[Hl|[Hl|Hl]]]; rewrite Hl in Hd; ulia).
  unfold layout_ok. repeat (apply Forall2_cons; split; [unfold in_width in *; cbn; lia|]).
  apply Forall2_nil. done.
Qed.
Lemma len_spec_encode s : spec_wf s → len (spec_encode s) = VERSIONED_HOST_REGISTRATION_SPEC_LEN.
Proof. intros H. rewrite spec_encode_layout, len_layout by (by apply spec_fields_ok). done. Qed.
Lemma bytes_ok_spec_encode s : bytes_ok (spec_encode s).
Proof. rewrite spec_encode_layout. auto with bytes. Qed.
Lemma spec_decode_no_panic bytes : no_panic (spec_decode bytes).
Proof.
  unfold spec_decode. apply no_panic_bind; [np_leaf|]. intros [] H. res_simplify.
  unfold VERSIONED_HOST_REGISTRATION_SPEC_LEN in H. np.
Qed.
#[export] Hint Resolve spec_decode_no_panic : panics.
Lemma bytes_ok_spec_magic : bytes_ok VERSIONED_HOST_REGISTRATION_SPEC_MAGIC.
Proof. apply (to_le_bytes_ok 8 (from_le_bytes VERSIONED_HOST_REGISTRATION_SPEC_MAGIC)). Qed.
Lemma spec_wf_widths s :
  spec_wf s → u64 (doorbell_address s) ∧ u64 (doorbell_datamatch s) ∧ u32 (gsi s).
Proof.
  intros (Hl&Hd&Ha&He&Hg). apply elem_of_lengths in Hl. split_and!; [ulia| |done].
  destruct Hl as [Hl|[Hl|[Hl|Hl]]]; rewrite Hl in Hd; ulia.
Qed.
(** The format of one registration is canonical: [spec_decode] accepts exactly the
    encodings of well-formed registrations. *)
Lemma spec_decode_Ok bytes s :
  bytes_ok bytes → spec_decode bytes = Ok s ↔ spec_wf s ∧ bytes = spec_encode s.
Proof.
  intros Hb. split.
  - intros H. unfold spec_decode in H. bind_inv_one H. res_simplify.
    destruct (layout_split [8; 2; 2; 4; 8; 4; 4; 8; 4; 4]%nat bytes Hb) as (vs&rest&Hok&->);
      [cbn; unfold VERSIONED_HOST_REGISTRATION_SPEC_LEN in *; lia|].
    rewrite len_app, (len_layout _ _ Hok) in Hstep.
    assert (rest = []) as ->.
    { apply nil_length_inv. cbn in Hstep. unfold VERSIONED_HOST_REGISTRATION_SPEC_LEN, len in Hstep. lia. }
    pose proof Hok as Hvars. layout_vars Hvars. rewrite (magic_read _ _ _ _ Hok) in H.
    bind_inv_one H. injection Hstep0 as <-. bind_inv_one H.
    apply check_magic_Ok in Hstep0 as ->; [|done|apply bytes_ok_spec_magic|done].
    bind_inv H. layout_reads Hok. subst.
    apply spec_new_Ok in H as [-> Hwf]; [|by apply Hw3|done|done]. split; [done|].
    by rewrite spec_encode_layout, app_nil_r.
  - intros [Hwf ->]. unfold spec_decode. rewrite len_spec_encode by done.
    pose proof (spec_fields_ok s Hwf) as Hok. rewrite spec_encode_layout.
    rewrite <- (app_nil_r (layout _ _)), (magic_read _ _ _ _ Hok). layout_reads Hok. decode_steps.
    rewrite check_magic_self by (done || apply bytes_ok_spec_magic). decode_steps.
    destruct (spec_wf_widths s Hwf) as (?&?&?).
    match goal with |- map_err _ ?m = _ => assert (m = Ok s) as ->; [|done] end.
    apply spec_new_Ok; [ulia|done|done|by destruct s].
Qed.

Lemma pair_new_Ok p q :
  spec_wf p.1 → spec_wf p.2 → pair_new p = Ok q ↔ q = sort_specs p ∧ pair_wf q.
Proof.
  intros H1 H2. unfold pair_new. cbv zeta.
  assert (spec_wf (sort_specs p).1 ∧ spec_wf (sort_specs p).2) as [H1' H2']
    by (unfold sort_specs; by destruct (_ <=? _)).
  set (r := sort_specs p) in *. clearbody r. pose proof H1' as (_&_&Ha&He&_).
  unfold checked_add. zcmp. cbn [expect mbind res_bind]. rewrite !bind_err_if_Ok.
  rewrite Z.ltb_ge, Z.eqb_neq. unfold pair_wf. split.
  - intros (?&?&[= <-]). by split_and!.
  - intros (->&_&_&?&?). by split_and!.
Qed.
Lemma pair_new_no_panic p : spec_wf p.1 → spec_wf p.2 → no_panic (pair_new p).
Proof.
  intros H1 H2. unfold pair_new. cbv zeta.
  assert (spec_wf (sort_specs p).1) as (_&_&Ha&He&_) by (unfold sort_specs; by destruct (_ <=? _)).
  unfold checked_add. zcmp. cbn [expect mbind res_bind]. np.
Qed.
Lemma sort_specs_wf p : pair_wf p → sort_specs p = p.
Proof.
  intros ((Hl&_)&_&Hle&_). apply elem_of_lengths in Hl. unfold sort_specs.
  destruct (Z.leb_spec (doorbell_address p.1) (doorbell_address p.2)); [done|lia].
Qed.

Lemma bytes_ok_pair_magic : bytes_ok VERSIONED_HOST_REGISTRATION_PAIR_MAGIC.
Proof. apply (to_le_bytes_ok 8 (from_le_bytes VERSIONED_HOST_REGISTRATION_PAIR_MAGIC)). Qed.
Definition pair_header : list Z :=
  [from_le_bytes VERSIONED_HOST_REGISTRATION_PAIR_MAGIC; 1; 32; 128; 2; 0; 0; 48; 48].
Lemma pair_encode_layout p :
  pair_encode p = layout [8; 2; 2; 4; 2; 2; 4; 4; 4]%nat pair_header ++
    spec_encode p.1 ++ spec_encode p.2.
Proof. done. Qed.
Lemma pair_header_ok : layout_ok [8; 2; 2; 4; 2; 2; 4; 4; 4]%nat pair_header.
Proof.
  unfold layout_ok. repeat (apply Forall2_cons; split; [unfold in_width in *; cbn; lia|]).
  by apply Forall2_nil.
Qed.
Lemma len_pair_encode p : pair_wf p → len (pair_encode p) = VERSIONED_HOST_REGISTRATION_PAIR_LEN.
Proof.
  intros (H1&H2&_). rewrite pair_encode_layout, !len_app, (len_layout _ _ pair_header_ok).
  by rewrite !len_spec_encode.
Qed.
Lemma bytes_ok_pair_encode p : bytes_ok (pair_encode p).
Proof.
  rewrite pair_encode_layout. apply bytes_ok_app; [auto with bytes|].
  apply bytes_ok_app; apply bytes_ok_spec_encode.
Qed.
(** So is the format of two registrations. *)
Lemma pair_decode_Ok bytes p :
  bytes_ok bytes → pair_decode bytes = Ok p ↔ pair_wf p ∧ bytes = pair_encode p.
Proof.
  intros Hb. split.
  - intros H. unfold pair_decode in H. bind_inv_one H. res_simplify.
    destruct (layout_split [8; 2; 2; 4; 2; 2; 4; 4; 4]%nat bytes Hb) as (vs&rest&Hok&->);
      [rewrite Hstep; done|].
    pose proof Hstep as Hlen. rewrite len_app, (len_layout _ _ Hok) in Hlen.
    destruct (split_len rest 48) as (s1&s2&->&Hs1&Hs2); [cbn in Hlen; vm_compute (VERSIONED_HOST_REGISTRATION_PAIR_LEN) in Hlen; lia|].
    pose proof Hok as Hvars. layout_vars Hvars. rewrite (magic_read _ _ _ _ Hok) in H.
    bind_inv_one H. injection Hstep0 as <-. bind_inv_one H.
    apply check_magic_Ok in Hstep0 as ->; [|done|apply bytes_ok_pair_magic|done].
    unfold check_member_length in H. bind_inv H.
    repeat match goal with Hs : _ ≫= _ = Ok _ |- _ => bind_inv_one Hs; res_simplify end.
    layout_reads Hok.
    rewrite uadd_ok in Hstep14 by done. injection Hstep14 as <-. subst.
    pose proof (len_layout _ _ Hok) as Hh. change (width_sum _) with 32 in Hlen, Hh.
    change VERSIONED_HOST_REGISTRATION_PAIR_LEN with 128 in Hlen.
    unfold VERSIONED_HOST_REGISTRATION_PAIR_HEADER_LEN, VERSIONED_HOST_REGISTRATION_SPEC_LEN in *.
    rewrite (slice_section _ s1 s2) in Hstep15 by lia.
    rewrite app_assoc, (slice_last _ s2) in Hstep17 by (rewrite ?len_app; lia).
    injection Hstep15 as <-. injection Hstep17 as <-.
    apply bytes_ok_app_inv in Hb as [_ [Hb1 Hb2]%bytes_ok_app_inv].
    apply spec_decode_Ok in Hstep16 as [Hw1' ->], Hstep18 as [Hw2' ->]; [|done..].
    apply pair_new_Ok in Hstep20 as [_ Hp]; [|done..].
    apply bool_decide_eq_false, dec_stable in Hstep21 as ->. split; [done|].
    rewrite pair_encode_layout. done.
  - intros [Hwf ->]. pose proof Hwf as (H1&H2&Hle&_). unfold pair_decode.
    rewrite len_pair_encode by done. rewrite pair_encode_layout. pose proof pair_header_ok as Hok.
    pose proof (len_spec_encode _ H1) as Hl1. pose proof (len_spec_encode _ H2) as Hl2.
    pose proof (len_layout _ _ Hok) as Hh. unfold pair_header in *.
    rewrite (magic_read _ _ _ _ Hok). unfold check_member_length. layout_reads Hok. decode_steps.
    rewrite check_magic_self by (done || apply bytes_ok_pair_magic). decode_steps.
    rewrite uadd_ok by done. decode_steps.
    rewrite (slice_section _ (spec_encode p.1) (spec_encode p.2)
      VERSIONED_HOST_REGISTRATION_PAIR_HEADER_LEN) by (rewrite ?Hh, ?Hl1; done).
    decode_steps. rewrite (proj2 (spec_decode_Ok _ p.1 (bytes_ok_spec_encode _))) by done. decode_steps.
    rewrite app_assoc, (slice_last _ (spec_encode p.2)) by (rewrite ?len_app, ?Hh, ?Hl1, ?Hl2; done).
    decode_steps. rewrite (proj2 (spec_decode_Ok _ p.2 (bytes_ok_spec_encode _))) by done. decode_steps.
    destruct H1 as (Hlen&_). apply elem_of_lengths in Hlen.
    rewrite (proj2 (Z.leb_gt _ _)) by lia. decode_steps. destruct p as [s1 s2]. cbn [fst snd] in *.
    assert (pair_new (s1, s2) = Ok (s1, s2)) as ->.
    { apply pair_new_Ok; [apply Hwf..|]. by rewrite sort_specs_wf. }
    decode_steps. by rewrite bool_decide_false by (intros Hne; by apply Hne).
Qed.
Lemma no_panic_check_member_length bytes i a b :
  0 ≤ a ≤ b → b ≤ len bytes → no_panic (check_member_length bytes i a b).
Proof. intros. unfold check_member_length. np. Qed.
Lemma pair_decode_no_panic bytes : bytes_ok bytes → no_panic (pair_decode bytes).
Proof.
  intros Hb. unfold pair_decode. apply no_panic_bind; [np_leaf|].
  intros [] H. res_simplify. change VERSIONED_HOST_REGISTRATION_PAIR_LEN with 128 in *.
  unfold VERSIONED_HOST_REGISTRATION_PAIR_HEADER_LEN, VERSIONED_HOST_REGISTRATION_SPEC_LEN in *. np.
  do 2 (apply no_panic_bind; [apply no_panic_check_member_length; lia|]; intros [] _). np.
  apply no_panic_bind; [|intros; np].
  repeat match goal with Hd : spec_decode _ = Ok _ |- _ =>
    apply spec_decode_Ok in Hd as [? _]; [|eauto with bytes] end.
  by apply no_panic_map_err, pair_new_no_panic.
Qed.

#[export] Instance spec_codec : Codec VersionedHostRegistrationSpecError HostRegistrationSpec := {|
  codec_encode := λ s, Ok (spec_encode s); codec_decode := spec_decode; codec_wf := spec_wf;
  codec_max := VERSIONED_HOST_REGISTRATION_SPEC_LEN |}.
#[export] Instance spec_codec_laws : CodecLaws VersionedHostRegistrationSpecError HostRegistrationSpec.
Proof.
  split; cbn.
  - intros s Hs. exists (spec_encode s). rewrite len_spec_encode by done.
    split_and!; [done|apply bytes_ok_spec_encode|done|done|].
    by apply spec_decode_Ok; [apply bytes_ok_spec_encode|].
  - intros. apply spec_decode_no_panic.
  - intros bs s Hb _ [Hs ->]%spec_decode_Ok; [|done]. split; [done|]. by eexists.
Qed.
#[export] Instance pair_codec : Codec VersionedHostRegistrationPairError HostRegistrationSpecPair := {|
  codec_encode := λ p, Ok (pair_encode p); codec_decode := pair_decode; codec_wf := pair_wf;
  codec_max := VERSIONED_HOST_REGISTRATION_PAIR_LEN |}.
#[export] Instance pair_codec_laws :
  CodecLaws VersionedHostRegistrationPairError HostRegistrationSpecPair.
Proof.
  split; cbn.
  - intros p Hp. exists (pair_encode p). rewrite len_pair_encode by done.
    split_and!; [done|apply bytes_ok_pair_encode|done|done|].
    by apply pair_decode_Ok; [apply bytes_ok_pair_encode|].
  - intros. by apply pair_decode_no_panic.
  - intros bs p Hb _ [Hp ->]%pair_decode_Ok; [|done]. split; [done|]. by eexists.
Qed.
Lemma pair_materialize_ok p : pair_wf p → pair_materialize p = Ok p.
Proof.
  intros Hp. unfold pair_materialize.
  assert (pair_new p = Ok p) as ->; [|done].
  apply pair_new_Ok; [apply Hp..|]. by rewrite sort_specs_wf.
Qed.
