(* ===== verification/VcpuStateSchema.v ===== *)
(** The stand-alone vCPU state format ([src/src/state_snapshot/page_set/schema_v1/vcpu_state.rs]):
    the registers and MSRs of one vCPU, without pages.  It shares the block
    codecs of [SchemaV1]; its own errors wrap theirs. *)

From stdpp Require Import sorting.
From S2P Require Import Prelude Msr VcpuState SchemaV1 PageCheckpoint Envelope.

Definition VERSIONED_VCPU_STATE_MAGIC : list Z := [77; 72; 86; 86; 67; 80; 85; 0].
Definition VERSIONED_VCPU_STATE_VERSION : Z := 1.
Definition VERSIONED_VCPU_STATE_ARCH_X86_64 : Z := 1.
Definition VCPU_STATE_HEADER_LEN : Z := 32.

Inductive VersionedVcpuStateSnapshotError :=
  | VsInvalidMagic
  | VsUnsupportedVersion (version : Z)
  | VsUnsupportedArchitecture (architecture : Z)
  | VsInvalidHeaderLength (length : Z)
  | VsInvalidTotalLength (declared actual : Z)
  | VsInvalidMsrCount (count : Z)
  | VsNonZeroFlags (flags : Z)
  | VsNonZeroReserved (value : Z)
  | VsLengthOverflow
  | VsState (error : SchemaError).
Abbreviation VSE := VersionedVcpuStateSnapshotError.

Record VersionedVcpuStateSnapshotV1 := {
  vs_registers : VcpuRegisterSnapshot;
  vs_special_registers : VcpuSpecialRegisterSnapshot;
  vs_msrs : list (MsrIndex * Z)
}.

Definition vcpu_state_encoded_length (msr_count : Z) : res VSE Z :=
  msrs ← ok_or (checked_mul 64 MSR_RECORD_LEN msr_count) VsLengthOverflow;
  ok_or (length ← checked_add 64 VCPU_STATE_HEADER_LEN REGISTER_BLOCK_LEN;
         length ← checked_add 64 length SPECIAL_REGISTER_BLOCK_LEN;
         checked_add 64 length msrs) VsLengthOverflow.

Definition from_snapshot (snapshot : VcpuStateSnapshot) : res VSE VersionedVcpuStateSnapshotV1 :=
  let values := snapshot_values (msrs snapshot) in
  err_if (VERSIONED_PAGE_VCPU_CHECKPOINT_MSR_LIMIT <? len values)
    (VsInvalidMsrCount (count_u16 (len values)));;
  let sorted := sort_by_index values in
  map_err VsState (validate_msr_order sorted);;
  mret {| vs_registers := registers snapshot; vs_special_registers := special_registers snapshot;
          vs_msrs := sorted |}.

Definition encode_vcpu_state_header (msr_count total_len : Z) : list Z :=
  VERSIONED_VCPU_STATE_MAGIC ++ push_u16 VERSIONED_VCPU_STATE_VERSION ++
  push_u16 VERSIONED_VCPU_STATE_ARCH_X86_64 ++ push_u32 VCPU_STATE_HEADER_LEN ++
  push_u64 total_len ++ push_u16 msr_count ++ push_u16 0 ++ push_u32 0.
Definition vs_encode (self : VersionedVcpuStateSnapshotV1) : res VSE (list Z) :=
  map_err VsState (validate_msr_order (vs_msrs self));;
  err_if (VERSIONED_PAGE_VCPU_CHECKPOINT_MSR_LIMIT <? len (vs_msrs self))
    (VsInvalidMsrCount (count_u16 (len (vs_msrs self))));;
  total_len ← vcpu_state_encoded_length (len (vs_msrs self));
  msr_count ← expect (try_from 16 (len (vs_msrs self)));
  let bytes := encode_vcpu_state_header msr_count total_len ++
    encode_registers (vs_registers self) ++
    encode_special_registers (vs_special_registers self) ++ (vs_msrs self ≫= encode_msr) in
  debug_assert (len bytes =? total_len);;
  mret bytes.

(** A cursor read; its error is wrapped by the [From] conversion of [?]. *)
Definition state_read {A} (m : prog Cursor SchemaError A) : prog Cursor VSE A := pmap_err VsState m.
Definition vs_decode_header (bytes : list Z) : prog Cursor VSE (Z * Z) :=
  magic ← state_read (cursor_take 8);
  lift (err_if (bool_decide (magic ≠ VERSIONED_VCPU_STATE_MAGIC)) VsInvalidMagic);;
  version ← state_read cursor_u16;
  lift (err_if (negb (version =? VERSIONED_VCPU_STATE_VERSION)) (VsUnsupportedVersion version));;
  architecture ← state_read cursor_u16;
  lift (err_if (negb (architecture =? VERSIONED_VCPU_STATE_ARCH_X86_64))
    (VsUnsupportedArchitecture architecture));;
  header_len ← state_read cursor_u32;
  lift (err_if (negb (header_len =? VCPU_STATE_HEADER_LEN)) (VsInvalidHeaderLength header_len));;
  declared_total ← state_read cursor_u64;
  lift (err_if (negb (declared_total =? len bytes)) (VsInvalidTotalLength declared_total (len bytes)));;
  msr_count ← state_read cursor_u16;
  lift (err_if (VERSIONED_PAGE_VCPU_CHECKPOINT_MSR_LIMIT <? msr_count) (VsInvalidMsrCount msr_count));;
  flags ← state_read cursor_u16;
  lift (err_if (negb (flags =? 0)) (VsNonZeroFlags flags));;
  reserved ← state_read cursor_u32;
  lift (err_if (negb (reserved =? 0)) (VsNonZeroReserved reserved));;
  mret (declared_total, msr_count).
Definition vs_decode_cursor (bytes : list Z) : prog Cursor VSE VersionedVcpuStateSnapshotV1 :=
  '(declared_total, msr_count) ← vs_decode_header bytes;
  expected_len ← lift (vcpu_state_encoded_length msr_count);
  lift (err_if (negb (expected_len =? len bytes)) (VsInvalidTotalLength declared_total expected_len));;
  regs ← state_read decode_registers;
  sregs ← state_read decode_special_registers;
  msrs ← state_read (decode_msrs "vcpu-state.msr.reserved" (Z.to_nat msr_count) None);
  c ← get;
  lift (err_if (negb (remaining c =? 0)) (VsInvalidTotalLength declared_total (cur_offset c)));;
  mret {| vs_registers := from_kvm_regs regs; vs_special_registers := from_kvm_sregs sregs;
          vs_msrs := msrs |}.
Definition vs_decode (bytes : list Z) : res VSE VersionedVcpuStateSnapshotV1 :=
  (vs_decode_cursor bytes (cursor_new bytes)).1.

Definition vs_materialize (host : HostMsrIndexList) (self : VersionedVcpuStateSnapshotV1) :
  res VSE VcpuStateSnapshot :=
  map_err VsState (validate_msr_order (vs_msrs self));;
  snapshot ← map_err VsState (materialize_msrs host (vs_msrs self));
  mret {| registers := vs_registers self; special_registers := vs_special_registers self;
          msrs := snapshot |}.

(** * Laws *)
Definition vs_total (msr_count : Z) : Z :=
  VCPU_STATE_HEADER_LEN + REGISTER_BLOCK_LEN + SPECIAL_REGISTER_BLOCK_LEN + MSR_RECORD_LEN * msr_count.
Definition msrs_wf (values : list (Z * Z)) : Prop :=
  len values ≤ VERSIONED_PAGE_VCPU_CHECKPOINT_MSR_LIMIT ∧ Forall msr_typed values ∧
  StronglySorted Z.lt values.*1.
Definition vs_wf (s : VersionedVcpuStateSnapshotV1) : Prop :=
  msrs_wf (vs_msrs s) ∧ kvm_regs_ok (to_kvm_regs (vs_registers s)) ∧
  kvm_sregs_ok (encode_snapshot (vs_special_registers s)) ∧ sregs_canonical (vs_special_registers s).
Definition vs_image (regs : sys.KvmRegs) (sregs : sys.KvmSregs) (values : list (Z * Z)) : list Z :=
  encode_vcpu_state_header (len values) (vs_total (len values)) ++
  wire_regs regs ++ wire_sregs sregs ++ (values ≫= encode_msr).

Lemma vcpu_state_encoded_length_ok msr_count :
  0 ≤ msr_count ≤ VERSIONED_PAGE_VCPU_CHECKPOINT_MSR_LIMIT →
  vcpu_state_encoded_length msr_count = Ok (vs_total msr_count).
Proof.
  unfold vcpu_state_encoded_length, vs_total, checked_mul, checked_add, VCPU_STATE_HEADER_LEN,
    VERSIONED_PAGE_VCPU_CHECKPOINT_MSR_LIMIT, MSR_RECORD_LEN, REGISTER_BLOCK_LEN,
    SPECIAL_REGISTER_BLOCK_LEN, SEGMENT_BLOCK_LEN, DTABLE_BLOCK_LEN. intros.
  zcmp. cbn [ok_or mbind res_bind option_bind]. zcmp. cbn [ok_or mbind res_bind option_bind].
  zcmp. cbn [ok_or mbind res_bind option_bind]. zcmp. cbn [ok_or mbind res_bind option_bind].
  f_equal; lia.
Qed.
Lemma state_read_reads {A} (d : prog Cursor SchemaError A) enc valid :
  reads d enc valid → reads (state_read d) enc valid.
Proof. apply reads_pmap_err. Qed.
#[export] Hint Resolve state_read_reads : reads.
#[export] Hint Resolve decode_registers_reads decode_special_registers_reads decode_msrs_reads : reads.

Definition vs_header_ok (bytes : list Z) (h : Z * Z) : Prop :=
  h.1 = len bytes ∧ u64 h.1 ∧ 0 ≤ h.2 ≤ VERSIONED_PAGE_VCPU_CHECKPOINT_MSR_LIMIT.
Lemma vs_decode_header_reads bytes :
  reads (vs_decode_header bytes) (λ '(total, msrs), encode_vcpu_state_header msrs total)
    (vs_header_ok bytes).
Proof.
  pose proof (state_read_reads _ _ _ (cursor_take_reads 8 ltac:(done))) as Hm.
  unfold vs_decode_header. split.
  - intros c Hwf. eapply reads_sound; [exact Hm|eassumption|intros magic c1 ? ? [? ?] ?].
    apply guard_sound. intros Hmagic%bool_decide_eq_false%dec_stable. subst magic.
    do 7 (read_sound_step; apply guard_sound; intros ?).
    apply runs_ret. res_simplify. subst.
    split_and!; [follow_trans|unfold vs_header_ok; cbn; split_and!; ulia|].
    unfold encode_vcpu_state_header. chain_rest. unfold id.
    repeat match goal with H : _ = len bytes |- _ => rewrite <- H end. done.
  - intros c [total msrs] r Hwf (Ht&Hu&Hmc) Hr. cbn in Ht, Hu, Hmc.
    unfold encode_vcpu_state_header in Hr. rewrite <- !app_assoc in Hr.
    unfold VERSIONED_PAGE_VCPU_CHECKPOINT_MSR_LIMIT in *.
    assert (u16 VERSIONED_VCPU_STATE_VERSION ∧ u16 VERSIONED_VCPU_STATE_ARCH_X86_64 ∧
      u32 VCPU_STATE_HEADER_LEN ∧ u16 msrs ∧ u16 0 ∧ u32 0) as Hw.
    { unfold in_width, VCPU_STATE_HEADER_LEN, VERSIONED_VCPU_STATE_VERSION,
        VERSIONED_VCPU_STATE_ARCH_X86_64. simpl. lia. }
    destruct_and! Hw.
    eapply reads_complete; [exact Hm|eassumption|eassumption| |intros ? ? ? ?].
    { split; [done|]. repeat (constructor; [ulia|]). constructor. }
    apply guard_complete; [apply bool_decide_eq_false; by intros []|].
    do 7 (read_complete_step; apply guard_complete; [subst; by zcmp|]).
    by apply ret_complete.
Qed.
#[export] Hint Resolve vs_decode_header_reads : reads.

Lemma len_encode_vcpu_state_header m t : len (encode_vcpu_state_header m t) = VCPU_STATE_HEADER_LEN.
Proof.
  unfold encode_vcpu_state_header. by rewrite !len_app, !len_push_u16, !len_push_u32, len_push_u64.
Qed.
Lemma len_vs_image regs sregs values : len (vs_image regs sregs values) = vs_total (len values).
Proof.
  unfold vs_image, wire_regs. rewrite !len_app, len_encode_vcpu_state_header, len_encode_registers,
    len_wire_sregs, (len_mbind_all encode_msr MSR_RECORD_LEN) by apply len_encode_msr.
  unfold vs_total. lia.
Qed.
Lemma vs_total_usize msrs :
  0 ≤ msrs ≤ VERSIONED_PAGE_VCPU_CHECKPOINT_MSR_LIMIT → 1 ≤ vs_total msrs ≤ 5000.
Proof.
  unfold vs_total, VERSIONED_PAGE_VCPU_CHECKPOINT_MSR_LIMIT, VCPU_STATE_HEADER_LEN, MSR_RECORD_LEN,
    REGISTER_BLOCK_LEN, SPECIAL_REGISTER_BLOCK_LEN, SEGMENT_BLOCK_LEN, DTABLE_BLOCK_LEN. lia.
Qed.
Lemma vs_encode_ok s :
  msrs_wf (vs_msrs s) →
  vs_encode s = Ok (vs_image (to_kvm_regs (vs_registers s))
    (encode_snapshot (vs_special_registers s)) (vs_msrs s)).
Proof.
  intros (Hm&Ht&Hs). unfold vs_encode. pose proof (len_nonneg (vs_msrs s)).
  rewrite (proj2 (validate_msr_order_Ok _)) by done. cbn [map_err mbind res_bind].
  rewrite (proj2 (Z.ltb_ge _ _)) by done. cbn [err_if mbind res_bind].
  rewrite vcpu_state_encoded_length_ok by lia. cbn [mbind res_bind].
  unfold VERSIONED_PAGE_VCPU_CHECKPOINT_MSR_LIMIT in *.
  unfold try_from. rewrite (proj2 (Z.ltb_lt _ _)) by lia. cbn [expect mbind res_bind].
  rewrite encode_registers_wire, encode_special_registers_wire.
  change (encode_vcpu_state_header _ _ ++ _) with (vs_image (to_kvm_regs (vs_registers s))
    (encode_snapshot (vs_special_registers s)) (vs_msrs s)).
  by rewrite len_vs_image, Z.eqb_refl.
Qed.

Definition vs_decodes_to (bytes : list Z) (s : VersionedVcpuStateSnapshotV1) : Prop :=
  ∃ regs sregs, msrs_wf (vs_msrs s) ∧ kvm_regs_ok regs ∧ kvm_sregs_ok sregs ∧
    vs_registers s = from_kvm_regs regs ∧ vs_special_registers s = from_kvm_sregs sregs ∧
    bytes = vs_image regs sregs (vs_msrs s).
Lemma vs_decode_cursor_sound bytes :
  bytes_ok bytes → usize (len bytes) →
  runs (vs_decode_cursor bytes) (cursor_new bytes) (λ s _, vs_decodes_to bytes s) (λ _ _, True).
Proof.
  intros Hb Hu. destruct (cursor_new_wf bytes Hb Hu) as [Hwf Hr0]. unfold vs_decode_cursor.
  eapply reads_sound; [apply vs_decode_header_reads|exact Hwf|].
  intros [total mc] c1 Hwf1 Hf1 (Ht&_&Hmc) Hr1. cbn in Ht, Hmc.
  rewrite vcpu_state_encoded_length_ok by lia.
  apply lift_sound; [done|]. intros _ [= <-]. apply guard_sound. intros Hlen. res_simplify.
  do 3 read_sound_step. apply runs_bind, runs_get. apply guard_sound. intros Hrem.
  res_simplify. rewrite remaining_rest in Hrem by done. apply len_nil_inv in Hrem.
  apply runs_ret. do 2 eexists. cbn [vs_msrs vs_registers vs_special_registers].
  match goal with H : msrs_from _ _ ?ms |- _ => pose proof (proj1 H) as Hml;
    rewrite <- Hml in H; apply msrs_from_wf in H as [? ?];
    assert (len ms = mc) as Hl by (unfold len; lia) end.
  split_and!; try done.
  - unfold msrs_wf. split_and!; try done; lia.
  - unfold vs_image. rewrite Hl, Hlen, <- Ht. rewrite <- Hr0, Hr1. f_equal. chain_rest.
    rewrite Hrem. by rewrite app_nil_r.
Qed.
Lemma vs_decode_cursor_complete bytes s :
  bytes_ok bytes → usize (len bytes) → vs_decodes_to bytes s →
  yields (vs_decode_cursor bytes) (cursor_new bytes) s [].
Proof.
  intros Hb Hu (regs&sregs&(Hm&Hmt&Hms)&Hregs&Hsregs&Hr&Hs&Himg).
  destruct (cursor_new_wf bytes Hb Hu) as [Hwf Hr0]. pose proof (len_nonneg (vs_msrs s)).
  pose proof (len_vs_image regs sregs (vs_msrs s)) as Hlen. rewrite <- Himg in Hlen.
  rewrite Himg in Hr0 at 2. unfold vs_image in Hr0. unfold vs_decode_cursor.
  eapply (reads_complete _ _ _ (vs_total (len (vs_msrs s)), len (vs_msrs s)));
    [apply vs_decode_header_reads|exact Hwf|exact Hr0| |].
  { unfold vs_header_ok. cbn. rewrite <- Hlen. split_and!; done || lia. }
  intros c1 Hwf1 Hf1 Hr1. rewrite vcpu_state_encoded_length_ok by lia.
  eapply lift_complete; [done|]. apply guard_complete; [rewrite Hlen; by rewrite Z.eqb_refl|].
  do 2 read_complete_step.
  eapply (reads_complete _ _ _ (vs_msrs s) _ _ _ []);
    [apply state_read_reads, decode_msrs_reads|eassumption|rewrite app_nil_r; eassumption| |].
  { unfold len. rewrite Nat2Z.id. by apply msrs_from_wf. }
  intros c5 Hwf5 Hf5 Hr5. exists c5. split_and!; [|by split|done].
  unfold get, mbind at 1, prog_bind at 1. rewrite prog_bind_err_if, remaining_rest, Hr5 by done.
  simpl. rewrite <- Hr, <- Hs. by destruct s.
Qed.
Lemma vs_decode_Ok bytes s :
  bytes_ok bytes → usize (len bytes) → vs_decode bytes = Ok s ↔ vs_decodes_to bytes s.
Proof.
  intros Hb Hu. unfold vs_decode. split.
  - intros H. pose proof (vs_decode_cursor_sound bytes Hb Hu) as Hs. unfold runs in Hs.
    destruct (vs_decode_cursor _ _) as [[] ?]; by simplify_eq/=.
  - intros (c'&H&_)%vs_decode_cursor_complete; [|done..]. by rewrite H.
Qed.
Lemma bytes_ok_vs_image regs sregs values :
  kvm_sregs_ok sregs → bytes_ok (vs_image regs sregs values).
Proof.
  intros Hs. pose proof (bytes_ok_image [] regs sregs values ltac:(constructor) Hs) as Hi.
  unfold image in Hi. apply bytes_ok_app_inv in Hi as [_ Hi]. cbn [mbind list_bind app] in Hi.
  unfold vs_image. apply bytes_ok_app; [|exact Hi]. unfold encode_vcpu_state_header.
  repeat (apply bytes_ok_app; [first [apply bytes_ok_push_u16|apply bytes_ok_push_u32
    |apply bytes_ok_push_u64|apply (to_le_bytes_ok 8 (from_le_bytes VERSIONED_VCPU_STATE_MAGIC))]|]).
  apply bytes_ok_push_u32.
Qed.
#[export] Instance vs_codec : Codec VSE VersionedVcpuStateSnapshotV1 := {|
  codec_encode := vs_encode; codec_decode := vs_decode; codec_wf := vs_wf; codec_max := 5000 |}.
#[export] Instance vs_codec_laws : CodecLaws VSE VersionedVcpuStateSnapshotV1.
Proof.
  assert (∀ s, vs_wf s → ∃ bs, vs_encode s = Ok bs ∧ bytes_ok bs ∧ len bs = vs_total (len (vs_msrs s)) ∧
    1 ≤ len bs ≤ 5000 ∧ vs_decode bs = Ok s) as Hc.
  { intros s (Hm&Hr&Hs&Hcan). eexists. split; [by apply vs_encode_ok|].
    rewrite len_vs_image. pose proof (vs_total_usize (len (vs_msrs s))) as Ht.
    pose proof (len_nonneg (vs_msrs s)). destruct Ht; [split; [done|apply Hm]|].
    split_and!; [by apply bytes_ok_vs_image|done|done|done|].
    apply vs_decode_Ok; [by apply bytes_ok_vs_image|rewrite len_vs_image; ulia|].
    do 2 eexists. split_and!; try done; [by rewrite from_to_kvm_regs|by rewrite from_kvm_encode_snapshot]. }
  split; cbn.
  - intros s (bs&?&?&_&?&?)%Hc. by exists bs.
  - intros bs Hb Hu. eapply runs_no_panic. by apply vs_decode_cursor_sound.
  - intros bs s Hb Hu (regs&sregs&Hm&Hr&Hs&Hregs&Hsregs&->)%vs_decode_Ok; [|done..].
    assert (vs_wf s) as Hwf.
    { unfold vs_wf. rewrite Hregs, Hsregs.
      split_and!; [done|by apply kvm_regs_ok_snapshot|by apply kvm_sregs_ok_snapshot|].
      apply from_kvm_sregs_canonical. }
    split; [done|]. destruct (Hc s Hwf) as (bs'&?&_&Hl&_). exists bs'. by rewrite len_vs_image.
Qed.

(** ** From and to a live snapshot *)
Definition vs_live_wf (s : VcpuStateSnapshot) : Prop :=
  kvm_regs_ok (to_kvm_regs (registers s)) ∧ kvm_sregs_ok (encode_snapshot (special_registers s)) ∧
  sregs_canonical (special_registers s) ∧
  len (snapshot_values (msrs s)) ≤ VERSIONED_PAGE_VCPU_CHECKPOINT_MSR_LIMIT ∧
  Forall msr_typed (snapshot_values (msrs s)) ∧ NoDup (snapshot_values (msrs s)).*1.
Lemma from_snapshot_ok s :
  vs_live_wf s → ∃ v, from_snapshot s = Ok v ∧ vs_wf v ∧ vs_registers v = registers s ∧
    vs_special_registers v = special_registers s ∧
    vs_msrs v = sort_by_index (snapshot_values (msrs s)).
Proof.
  intros (Hr&Hsr&Hc&Hm&Ht&Hnd). pose proof (sort_by_index_sorted _ Hnd) as Hsort.
  unfold from_snapshot. rewrite (proj2 (Z.ltb_ge _ _)) by done. cbn [err_if mbind res_bind].
  rewrite (proj2 (validate_msr_order_Ok _)) by done. cbn [map_err mbind res_bind].
  eexists. split; [done|]. split_and!; try done.
  unfold vs_wf, msrs_wf. cbn [vs_msrs vs_registers vs_special_registers].
  split_and!; try done; unfold len; by rewrite sort_by_index_perm.
Qed.
Lemma vs_materialize_ok host v :
  vs_wf v → (vs_msrs v).*1 ⊆ host_indices host →
  ∃ s, vs_materialize host v = Ok s ∧ registers s = vs_registers v ∧
    special_registers s = vs_special_registers v ∧ snapshot_values (msrs s) = vs_msrs v ∧
    snapshot_wf (msrs s).
Proof.
  intros ((_&_&Hms)&_) Hsub. unfold vs_materialize.
  rewrite (proj2 (validate_msr_order_Ok _)) by done. cbn [map_err mbind res_bind].
  destruct (materialize_msrs_ok host (vs_msrs v) Hms Hsub) as (snap&->&Hv&Hwf).
  eexists. by split_and!.
Qed.
