(* ===== verification/ControllerSchema.v ===== *)
(** The portable format of a checkpoint with the interrupt controllers
    ([src/src/state_snapshot/page_set/full_controller_schema_v1.rs]), and the
    live checkpoint it is made from ([BoundedControllerCheckpoint] of
    [src/src/state_snapshot/page_set/controller.rs] and
    [BoundedFullControllerCheckpoint] of [full_controller.rs]). *)

From stdpp Require Import sorting.
From S2P Require Import Prelude Errors LongMode Msr VcpuState SchemaV1 PageCheckpoint Envelope Irqchip.

Record BoundedControllerCheckpoint := {
  base_guest : BoundedVcpuPageSetCheckpoint; base_master_pic : KvmPicState;
  base_lapic : KvmLapicState
}.
Record BoundedFullControllerCheckpoint := {
  full_base : BoundedControllerCheckpoint; full_slave_pic : KvmPicState;
  full_ioapic : KvmIoapicState
}.

Definition VERSIONED_FULL_CONTROLLER_CHECKPOINT_MAGIC : list Z := [77; 72; 86; 70; 67; 84; 76; 0].
Definition VERSIONED_FULL_CONTROLLER_CHECKPOINT_VERSION : Z := 1.
Definition VERSIONED_FULL_CONTROLLER_CHECKPOINT_ARCH_X86_64 : Z := 1.
Definition FULL_CONTROLLER_SCHEMA_HEADER_LEN : Z := 40.
Definition FULL_CONTROLLER_SCHEMA_STATE_LEN : Z :=
  2 * KVM_PIC_STATE_SIZE + KVM_IOAPIC_STATE_SIZE + KVM_APIC_REG_SIZE.

Inductive VersionedFullControllerCheckpointError :=
  | FcInvalidMagic
  | FcUnsupportedVersion (version : Z)
  | FcUnsupportedArchitecture (architecture : Z)
  | FcInvalidHeaderLength (length : Z)
  | FcInvalidTotalLength (declared actual : Z)
  | FcInvalidGuestLength (length : Z)
  | FcNonZeroFlags (flags : Z)
  | FcNonZeroReserved (value : Z)
  | FcLengthOverflow
  | FcNonZeroIoapicPad (value : Z)
  | FcGuest (error : SchemaError).
Abbreviation FCE := VersionedFullControllerCheckpointError.
#[export] Instance fc_errors : SchemaErrors FCE := {|
  invalid_magic := FcInvalidMagic; unsupported_version := FcUnsupportedVersion;
  unsupported_architecture := FcUnsupportedArchitecture;
  invalid_header_length := FcInvalidHeaderLength;
  invalid_total_length := FcInvalidTotalLength |}.

(** The header: prologue, guest length, flags, reserved. *)
Definition FULL_CONTROLLER_SCHEMA : Schema := {|
  schema_magic := VERSIONED_FULL_CONTROLLER_CHECKPOINT_MAGIC;
  schema_version := VERSIONED_FULL_CONTROLLER_CHECKPOINT_VERSION;
  schema_architecture := VERSIONED_FULL_CONTROLLER_CHECKPOINT_ARCH_X86_64;
  schema_header_len := FULL_CONTROLLER_SCHEMA_HEADER_LEN;
  schema_fields := [8; 4; 4]%nat |}.

Record VersionedFullControllerCheckpointV1 := {
  fc_guest : VersionedPageVcpuCheckpointV1; fc_master_pic : KvmPicState; fc_slave_pic : KvmPicState;
  fc_ioapic : KvmIoapicState; fc_lapic : KvmLapicState
}.

Definition fc_from_checkpoint (checkpoint : BoundedFullControllerCheckpoint)
    : res FCE VersionedFullControllerCheckpointV1 :=
  guest ← map_err FcGuest (from_checkpoint (base_guest (full_base checkpoint)));
  err_if (negb (ioapic_pad (full_ioapic checkpoint) =? 0))
    (FcNonZeroIoapicPad (ioapic_pad (full_ioapic checkpoint)));;
  mret {| fc_guest := guest; fc_master_pic := base_master_pic (full_base checkpoint);
          fc_slave_pic := full_slave_pic checkpoint; fc_ioapic := full_ioapic checkpoint;
          fc_lapic := base_lapic (full_base checkpoint) |}.

Definition fc_encode (self : VersionedFullControllerCheckpointV1) : res FCE (list Z) :=
  err_if (negb (ioapic_pad (fc_ioapic self) =? 0)) (FcNonZeroIoapicPad (ioapic_pad (fc_ioapic self)));;
  guest ← map_err FcGuest (encode (fc_guest self));
  total_len ← ok_or (length ← checked_add 64 FULL_CONTROLLER_SCHEMA_HEADER_LEN (len guest);
                     checked_add 64 length FULL_CONTROLLER_SCHEMA_STATE_LEN) FcLengthOverflow;
  let bytes := envelope FULL_CONTROLLER_SCHEMA total_len [len guest; 0; 0] ++ guest ++
    pic_semantic_bytes (fc_master_pic self) ++ pic_semantic_bytes (fc_slave_pic self) ++
    ioapic_semantic_bytes (fc_ioapic self) ++ lapic_regs (fc_lapic self) in
  debug_assert (len bytes =? total_len);;
  mret bytes.

Definition fc_decode (bytes : list Z) : res FCE VersionedFullControllerCheckpointV1 :=
  declared_total ← check_schema FULL_CONTROLLER_SCHEMA bytes;
  guest_len ← le_field bytes 24 32;
  flags ← le_field bytes 32 36;
  err_if (negb (flags =? 0)) (FcNonZeroFlags flags);;
  reserved ← le_field bytes 36 40;
  err_if (negb (reserved =? 0)) (FcNonZeroReserved reserved);;
  guest_len ← ok_or (try_from 64 guest_len) (FcInvalidGuestLength guest_len);
  err_if (guest_len =? 0) (FcInvalidGuestLength 0);;
  expected_len ← ok_or (length ← checked_add 64 FULL_CONTROLLER_SCHEMA_HEADER_LEN guest_len;
                        checked_add 64 length FULL_CONTROLLER_SCHEMA_STATE_LEN) FcLengthOverflow;
  err_if (negb (expected_len =? len bytes)) (FcInvalidTotalLength declared_total expected_len);;
  guest_end ← uadd 64 FULL_CONTROLLER_SCHEMA_HEADER_LEN guest_len;
  guest_bytes ← slice bytes FULL_CONTROLLER_SCHEMA_HEADER_LEN guest_end;
  guest ← map_err FcGuest (decode guest_bytes);
  master_end ← uadd 64 guest_end KVM_PIC_STATE_SIZE;
  master_bytes ← slice bytes guest_end master_end;
  slave_end ← uadd 64 master_end KVM_PIC_STATE_SIZE;
  slave_bytes ← slice bytes master_end slave_end;
  ioapic_end ← uadd 64 slave_end KVM_IOAPIC_STATE_SIZE;
  ioapic_bytes ← slice bytes slave_end ioapic_end;
  let ioapic := ioapic_from_semantic_bytes ioapic_bytes in
  err_if (negb (ioapic_pad ioapic =? 0)) (FcNonZeroIoapicPad (ioapic_pad ioapic));;
  lapic_end ← uadd 64 ioapic_end KVM_APIC_REG_SIZE;
  lapic_bytes ← slice bytes ioapic_end lapic_end;
  debug_assert (lapic_end =? len bytes);;
  mret {| fc_guest := guest; fc_master_pic := pic_from_semantic_bytes master_bytes;
          fc_slave_pic := pic_from_semantic_bytes slave_bytes; fc_ioapic := ioapic;
          fc_lapic := {| lapic_regs := lapic_bytes |} |}.

Definition fc_materialize (host : HostMsrIndexList) (self : VersionedFullControllerCheckpointV1)
    : res FCE BoundedFullControllerCheckpoint :=
  guest ← map_err FcGuest (materialize_checkpoint host (fc_guest self));
  err_if (negb (ioapic_pad (fc_ioapic self) =? 0)) (FcNonZeroIoapicPad (ioapic_pad (fc_ioapic self)));;
  mret {| full_base := {| base_guest := guest; base_master_pic := fc_master_pic self;
                          base_lapic := fc_lapic self |};
          full_slave_pic := fc_slave_pic self; full_ioapic := fc_ioapic self |}.

(** * The page/vCPU format as a nested format *)
#[export] Instance page_codec : Codec SchemaError VersionedPageVcpuCheckpointV1 := {|
  codec_encode := encode; codec_decode := decode; codec_wf := ck_wf; codec_max := 40000 |}.
#[export] Instance page_codec_laws : CodecLaws SchemaError VersionedPageVcpuCheckpointV1.
Proof.
  assert (∀ p m, 1 ≤ p ≤ BOUNDED_CHECKPOINT_PAGE_SET_LIMIT →
    0 ≤ m ≤ VERSIONED_PAGE_VCPU_CHECKPOINT_MSR_LIMIT → 1 ≤ total_length p m ≤ 40000) as Hb.
  { unfold total_length, BOUNDED_CHECKPOINT_PAGE_SET_LIMIT, VERSIONED_PAGE_VCPU_CHECKPOINT_MSR_LIMIT,
      PAGE_RECORD_LEN, LONG_MODE_PAGE_SIZE, MSR_RECORD_LEN, HEADER_LEN, REGISTER_BLOCK_LEN,
      SPECIAL_REGISTER_BLOCK_LEN, SEGMENT_BLOCK_LEN, DTABLE_BLOCK_LEN. intros. lia. }
  split; cbn.
  - intros ck Hwf. destruct (codec_roundtrip ck Hwf) as (bs&He&Hok&Hl&Hd). exists bs.
    pose proof Hwf as ((Hn&_&_&Hm&_)&_). pose proof (len_nonneg (ck_msrs ck)).
    rewrite Hl. destruct (Hb (len (ck_pages ck)) (len (ck_msrs ck))); [done|done|]. by split_and!.
  - intros. by apply decode_no_panic.
  - intros bs ck Hok Hu H%decode_Ok_iff; [|done..]. pose proof (decodes_to_wf _ _ H) as Hwf.
    split; [done|]. destruct (codec_roundtrip ck Hwf) as (bs'&He&_&Hl&_). exists bs'. split; [done|].
    destruct H as (regs&sregs&(_&Hp&_)&_&_&_&_&->). by rewrite len_image.
Qed.

(** * Laws *)
Definition fc_wf (c : VersionedFullControllerCheckpointV1) : Prop :=
  ck_wf (fc_guest c) ∧ pic_wf (fc_master_pic c) ∧ pic_wf (fc_slave_pic c) ∧
  ioapic_wf (fc_ioapic c) ∧ ioapic_pad (fc_ioapic c) = 0 ∧ lapic_wf (fc_lapic c).
Definition fc_image (g m s io l : list Z) : list Z :=
  envelope FULL_CONTROLLER_SCHEMA
    (FULL_CONTROLLER_SCHEMA_HEADER_LEN + len g + FULL_CONTROLLER_SCHEMA_STATE_LEN) [len g; 0; 0] ++
  g ++ m ++ s ++ io ++ l.
(** The lengths of the sections. *)
Definition fc_sections (g m s io l : list Z) : Prop :=
  1 ≤ len g < 2 ^ 64 - 1312 ∧ len m = KVM_PIC_STATE_SIZE ∧ len s = KVM_PIC_STATE_SIZE ∧
  len io = KVM_IOAPIC_STATE_SIZE ∧ len l = KVM_APIC_REG_SIZE.
Ltac fc_consts :=
  change FULL_CONTROLLER_SCHEMA_STATE_LEN with 1272 in *;
  change FULL_CONTROLLER_SCHEMA_HEADER_LEN with 40 in *; change KVM_PIC_STATE_SIZE with 16 in *;
  change KVM_IOAPIC_STATE_SIZE with 216 in *; change KVM_APIC_REG_SIZE with 1024 in *.

Lemma fc_schema_wf : schema_wf FULL_CONTROLLER_SCHEMA.
Proof.
  unfold schema_wf. split_and!; try done;
    apply (to_le_bytes_ok 8 (from_le_bytes VERSIONED_FULL_CONTROLLER_CHECKPOINT_MAGIC)).
Qed.
Lemma fc_fields_ok n : 0 ≤ n < 2 ^ 64 → layout_ok (schema_fields FULL_CONTROLLER_SCHEMA) [n; 0; 0].
Proof.
  intros. unfold layout_ok. repeat (apply Forall2_cons; split; [unfold in_width; cbn; lia|]).
  by apply Forall2_nil.
Qed.
Lemma len_fc_image g m s io l :
  fc_sections g m s io l → len (fc_image g m s io l) = 40 + len g + 1272.
Proof.
  intros (Hg&Hm&Hs&Hio&Hl). fc_consts. unfold fc_image. rewrite !len_app.
  rewrite (len_envelope _ _ _ fc_schema_wf) by (first [apply fc_fields_ok; lia|fc_consts; ulia]).
  fc_consts. change (schema_header_len FULL_CONTROLLER_SCHEMA) with 40. lia.
Qed.
Lemma fc_decode_image g m s io l :
  fc_sections g m s io l →
  fc_decode (fc_image g m s io l) =
  (guest ← map_err FcGuest (decode g);
   let ioapic := ioapic_from_semantic_bytes io in
   err_if (negb (ioapic_pad ioapic =? 0)) (FcNonZeroIoapicPad (ioapic_pad ioapic));;
   mret {| fc_guest := guest; fc_master_pic := pic_from_semantic_bytes m;
           fc_slave_pic := pic_from_semantic_bytes s; fc_ioapic := ioapic;
           fc_lapic := {| lapic_regs := l |} |}).
Proof.
  intros Hsec. pose proof (len_fc_image _ _ _ _ _ Hsec) as Hlen.
  destruct Hsec as (Hg&Hm&Hs&Hio&Hl). fc_consts.
  assert (u64 (40 + len g + 1272)) as Hu by ulia.
  pose proof (fc_fields_ok (len g) ltac:(lia)) as Hok.
  unfold fc_decode. rewrite (check_schema_ok _ _ [len g; 0; 0] (g ++ m ++ s ++ io ++ l) fc_schema_wf);
    [|by rewrite Hlen|done|by rewrite Hlen].
  rewrite Hlen. unfold fc_image. fc_consts.
  envelope_reads fc_schema_wf Hu Hok. decode_steps.
  unfold try_from, checked_add. zcmp. decode_steps. zcmp. decode_steps. zcmp. decode_steps.
  pose proof (len_envelope _ _ _ fc_schema_wf Hu Hok) as He.
  change (schema_header_len FULL_CONTROLLER_SCHEMA) with 40 in He.
  set (hdr := envelope _ _ _) in *. clearbody hdr.
  rewrite uadd_ok by lia. decode_steps. read_section hdr g (m ++ s ++ io ++ l).
  destruct (decode g) as [guest| |]; decode_steps; [|done|done].
  rewrite uadd_ok by lia. decode_steps. read_section (hdr ++ g) m (s ++ io ++ l).
  rewrite uadd_ok by lia. decode_steps. read_section (hdr ++ g ++ m) s (io ++ l).
  rewrite uadd_ok by lia. decode_steps. read_section (hdr ++ g ++ m ++ s) io l.
  destruct (ioapic_pad _ =? 0); decode_steps; [|done].
  rewrite uadd_ok by lia. decode_steps. read_section (hdr ++ g ++ m ++ s ++ io) l (@nil Z).
  rewrite (proj2 (Z.eqb_eq _ _)) by lia. done.
Qed.
Lemma fc_decode_split bytes :
  bytes_ok bytes → usize (len bytes) →
  (∃ e, fc_decode bytes = Err e) ∨
  (∃ g m s io l, fc_sections g m s io l ∧ bytes = fc_image g m s io l).
Proof.
  intros Hb Hu. unfold fc_decode.
  destruct (check_schema_cases (E:=FCE) _ bytes fc_schema_wf Hb Hu) as [[e ->]|(vs&rest&Hok&Hbytes&->)];
    [left; by eexists|].
  pose proof (len_envelope _ _ _ fc_schema_wf Hu Hok) as He.
  pose proof (f_equal len Hbytes) as Hlen. rewrite len_app, He in Hlen.
  pose proof Hok as Hvars. layout_vars Hvars. set (n := len bytes) in *. rewrite Hbytes. clearbody n.
  envelope_reads fc_schema_wf Hu Hok. cbn [mbind res_bind]. guards_or. right.
  fc_consts. change (schema_header_len FULL_CONTROLLER_SCHEMA) with 40 in *.
  cut_sections rest [v; 16; 16; 216; 1024]. do 5 eexists. unfold fc_sections, fc_image. fc_consts.
  subst v. rewrite Hg4. split; [|done]. by split_and!; try ulia.
Qed.

Definition fc_encoded (c : VersionedFullControllerCheckpointV1) (g : list Z) : list Z :=
  fc_image g (pic_bytes (fc_master_pic c)) (pic_bytes (fc_slave_pic c)) (ioapic_bytes (fc_ioapic c))
    (lapic_regs (fc_lapic c)).
Lemma fc_encoded_sections c g :
  fc_wf c → 1 ≤ len g ≤ 40000 →
  fc_sections g (pic_bytes (fc_master_pic c)) (pic_bytes (fc_slave_pic c)) (ioapic_bytes (fc_ioapic c))
    (lapic_regs (fc_lapic c)).
Proof.
  intros (_&_&_&Hio&_&Hl&_) Hg. split_and!; try done; [lia|lia|by apply len_ioapic_bytes].
Qed.
Lemma fc_encode_ok c g :
  fc_wf c → 1 ≤ len g ≤ 40000 → encode (fc_guest c) = Ok g → fc_encode c = Ok (fc_encoded c g).
Proof.
  intros Hwf Hg He. pose proof (len_fc_image _ _ _ _ _ (fc_encoded_sections c g Hwf Hg)) as Hlen.
  destruct Hwf as (_&_&_&Hio&Hpad&_). unfold fc_encode.
  rewrite Hpad, He, ioapic_semantic_bytes_eq, !pic_semantic_bytes_eq by done.
  unfold checked_add. fc_consts. decode_steps. zcmp. decode_steps. zcmp. decode_steps.
  change (envelope _ _ _ ++ _) with (fc_encoded c g). unfold fc_encoded.
  by rewrite Hlen, Z.eqb_refl.
Qed.
Lemma bytes_ok_fc_encoded c g : fc_wf c → bytes_ok g → bytes_ok (fc_encoded c g).
Proof.
  intros (_&Hm&Hs&_&_&_&Hl) Hg. unfold fc_encoded, fc_image.
  apply bytes_ok_app; [apply bytes_ok_envelope, fc_schema_wf|].
  do 4 (apply bytes_ok_app; [first [done|apply bytes_ok_ioapic]|]). done.
Qed.
Lemma fc_roundtrip c g :
  fc_wf c → 1 ≤ len g ≤ 40000 → decode g = Ok (fc_guest c) → fc_decode (fc_encoded c g) = Ok c.
Proof.
  intros Hwf Hg Hd. unfold fc_encoded. rewrite fc_decode_image, Hd by by apply fc_encoded_sections.
  destruct Hwf as (_&_&_&Hio&Hpad&_). decode_steps.
  rewrite <- (ioapic_semantic_bytes_eq _ Hio), (ioapic_semantic_roundtrip _ Hio), Hpad. decode_steps.
  rewrite <- !pic_semantic_bytes_eq, !pic_semantic_roundtrip. by destruct c as [???? []].
Qed.
Lemma fc_decoded_wf g m s io l c :
  bytes_ok (fc_image g m s io l) → fc_sections g m s io l →
  fc_decode (fc_image g m s io l) = Ok c →
  fc_wf c ∧ 1 ≤ len g ≤ 40000 ∧ ∃ g', encode (fc_guest c) = Ok g' ∧ len g' = len g.
Proof.
  intros Hb Hsec. rewrite fc_decode_image by done. unfold fc_image in Hb.
  do 5 (apply bytes_ok_app_inv in Hb as [? Hb]). destruct Hsec as (Hg&Hm&Hs&Hio&Hl).
  intros Hd. cbn zeta in Hd. bind_inv Hd. cbn [fc_guest].
  destruct (codec_accepts g a) as (Hwf&?&?); [done|ulia|done|].
  split; [|done]. destruct (ioapic_bytes_cover io) as [? _]; [done..|].
  unfold fc_wf, pic_wf, lapic_wf. cbn. by rewrite !pic_bytes_cover.
Qed.
#[export] Instance fc_codec : Codec FCE VersionedFullControllerCheckpointV1 := {|
  codec_encode := fc_encode; codec_decode := fc_decode; codec_wf := fc_wf; codec_max := 42000 |}.
#[export] Instance fc_codec_laws : CodecLaws FCE VersionedFullControllerCheckpointV1.
Proof.
  split; cbn.
  - intros c Hwf. destruct (codec_complete (fc_guest c)) as (g&He&Hgb&Hgl&Hd); [apply Hwf|].
    cbn in He, Hgl, Hd. exists (fc_encoded c g).
    split_and!; [by apply fc_encode_ok|by apply bytes_ok_fc_encoded|..|by apply fc_roundtrip];
    unfold fc_encoded; rewrite len_fc_image by (by apply fc_encoded_sections); lia.
  - intros bs Hb Hu. destruct (fc_decode_split bs Hb Hu) as [[e ->]|(g&m&s&io&l&Hsec&->)]; [done|].
    rewrite fc_decode_image by done. apply bytes_ok_app_inv in Hb as [_ [Hg _]%bytes_ok_app_inv].
    apply no_panic_bind; [apply no_panic_map_err, (codec_safe (CodecLaws:=page_codec_laws)); [done|]|].
    { destruct Hsec. ulia. }
    intros ? _. np.
  - intros bs c Hb Hu Hd.
    destruct (fc_decode_split bs Hb Hu) as [[e He]|(g&m&s&io&l&Hsec&->)]; [by rewrite He in Hd|].
    destruct (fc_decoded_wf _ _ _ _ _ _ Hb Hsec Hd) as (Hwf&Hl&g'&He&Hl'). split; [done|].
    exists (fc_encoded c g'). rewrite <- Hl' in Hl. split; [by apply fc_encode_ok|].
    unfold fc_encoded. rewrite !len_fc_image by (done || by apply fc_encoded_sections). lia.
Qed.
