(* ===== verification/DeviceSchema.v ===== *)
(** The portable formats of a checkpoint with block devices
    ([src/src/state_snapshot/page_set/full_controller_virtio_blk_schema_v1.rs] and
    [full_controller_two_virtio_blk_schema_v1.rs]): the fixed form of one
    device's state, and the two envelopes around the controller format. *)

From S2P Require Import Errors VirtioCommon VirtioBlk BlkCheckpoint Msr VcpuState Prelude SchemaV1.
From S2P Require Import PageCheckpoint Envelope Irqchip ControllerSchema.

(** * One device *)

(** [BoundedFullControllerVirtioBlkCheckpoint], the live checkpoint. *)
Record BoundedFullControllerVirtioBlkCheckpoint := {
  one_controller : BoundedFullControllerCheckpoint; one_bar0 : Z; one_device : VirtioBlkDevice
}.

Definition VERSIONED_FULL_CONTROLLER_VIRTIO_BLK_MAGIC : list Z := [77; 72; 86; 70; 67; 86; 66; 0].
Definition VERSIONED_FULL_CONTROLLER_VIRTIO_BLK_VERSION : Z := 1.
Definition VERSIONED_FULL_CONTROLLER_VIRTIO_BLK_ARCH_X86_64 : Z := 1.
Definition FULL_CONTROLLER_VIRTIO_BLK_HEADER_LEN : Z := 48.
Definition VIRTIO_BLK_STATE_HEADER_LEN : Z := 80.
Definition VIRTIO_BLK_STATE_LEN : Z := VIRTIO_BLK_STATE_HEADER_LEN + VIRTIO_BLK_BACKING_SIZE.

Inductive VersionedFullControllerVirtioBlkCheckpointError :=
  | VbInvalidMagic
  | VbUnsupportedVersion (version : Z)
  | VbUnsupportedArchitecture (architecture : Z)
  | VbInvalidHeaderLength (length : Z)
  | VbInvalidTotalLength (declared actual : Z)
  | VbInvalidControllerLength (length : Z)
  | VbInvalidDeviceLength (length : Z)
  | VbNonZeroFlags (flags : Z)
  | VbNonZeroReserved (value : Z)
  | VbLengthOverflow
  | InvalidQueueEnabled (value : Z)
  | InvalidSectorSize (size : Z)
  | InvalidCapacity (capacity : Z)
  | InvalidBackingLength (length : Z)
  | NonZeroDeviceReserved (value : Z)
  | BarMismatch (checkpoint device : Z)
  | VbController (error : VersionedFullControllerCheckpointError)
  | VbDevice (error : VirtioBlkCheckpointStateError).
Abbreviation VBE := VersionedFullControllerVirtioBlkCheckpointError.
#[export] Instance vb_errors : SchemaErrors VBE := {|
  invalid_magic := VbInvalidMagic; unsupported_version := VbUnsupportedVersion;
  unsupported_architecture := VbUnsupportedArchitecture;
  invalid_header_length := VbInvalidHeaderLength;
  invalid_total_length := VbInvalidTotalLength |}.

(** ** The state of a device *)
Definition device_widths : list nat := [8; 4; 4; 8; 1; 1; 1; 1; 2; 2; 2; 2; 4; 8; 8; 8; 8; 4; 4]%nat.
Definition device_fields (state : VirtioBlkCheckpointState) : list Z :=
  [ck_bar0 state; ck_device_feature_select state; ck_driver_feature_select state;
   ck_driver_features state; ck_status state; Z.b2z (ck_queue_enabled state); ck_isr_status state;
   0; ck_queue_select state; ck_queue_size state; ck_last_avail_idx state; ck_last_used_idx state;
   VIRTIO_BLK_SECTOR_SIZE; VIRTIO_BLK_CAPACITY_SECTORS; ck_queue_desc state; ck_queue_driver state;
   ck_queue_device state; VIRTIO_BLK_BACKING_SIZE; 0].
Definition encode_device_state (state : VirtioBlkCheckpointState) : res VBE (list Z) :=
  map_err VbDevice (checkpoint_validate state);;
  let bytes := layout device_widths (device_fields state) in
  debug_assert (len bytes =? VIRTIO_BLK_STATE_HEADER_LEN);;
  let bytes := bytes ++ ck_backing state in
  debug_assert (len bytes =? VIRTIO_BLK_STATE_LEN);;
  mret bytes.

Definition decode_device_state (bytes : list Z) : res VBE VirtioBlkCheckpointState :=
  err_if (negb (len bytes =? VIRTIO_BLK_STATE_LEN)) (VbInvalidDeviceLength (len bytes));;
  enabled ← index bytes 25;
  queue_enabled ← (if enabled =? 0 then mret false else if enabled =? 1 then mret true
                   else Err (InvalidQueueEnabled enabled));
  padding ← index bytes 27;
  err_if (negb (padding =? 0)) (NonZeroDeviceReserved padding);;
  sector_size ← le_field bytes 36 40;
  err_if (negb (sector_size =? VIRTIO_BLK_SECTOR_SIZE)) (InvalidSectorSize sector_size);;
  capacity ← le_field bytes 40 48;
  err_if (negb (capacity =? VIRTIO_BLK_CAPACITY_SECTORS)) (InvalidCapacity capacity);;
  backing_len ← le_field bytes 72 76;
  err_if (negb (backing_len =? VIRTIO_BLK_BACKING_SIZE)) (InvalidBackingLength backing_len);;
  reserved ← le_field bytes 76 80;
  err_if (negb (reserved =? 0)) (NonZeroDeviceReserved reserved);;
  bar0 ← le_field bytes 0 8;
  device_feature_select ← le_field bytes 8 12;
  driver_feature_select ← le_field bytes 12 16;
  driver_features ← le_field bytes 16 24;
  status ← index bytes 24;
  isr_status ← index bytes 26;
  queue_select ← le_field bytes 28 30;
  queue_size ← le_field bytes 30 32;
  last_avail_idx ← le_field bytes 32 34;
  last_used_idx ← le_field bytes 34 36;
  queue_desc ← le_field bytes 48 56;
  queue_driver ← le_field bytes 56 64;
  queue_device ← le_field bytes 64 72;
  backing ← slice bytes VIRTIO_BLK_STATE_HEADER_LEN (len bytes);
  let state := mkCheckpoint bar0 device_feature_select driver_feature_select driver_features status
    queue_select queue_size queue_enabled queue_desc queue_driver queue_device last_avail_idx
    last_used_idx isr_status backing in
  map_err VbDevice (checkpoint_validate state);;
  mret state.

(** ** The envelope *)
Definition FULL_CONTROLLER_VIRTIO_BLK_SCHEMA : Schema := {|
  schema_magic := VERSIONED_FULL_CONTROLLER_VIRTIO_BLK_MAGIC;
  schema_version := VERSIONED_FULL_CONTROLLER_VIRTIO_BLK_VERSION;
  schema_architecture := VERSIONED_FULL_CONTROLLER_VIRTIO_BLK_ARCH_X86_64;
  schema_header_len := FULL_CONTROLLER_VIRTIO_BLK_HEADER_LEN;
  schema_fields := [8; 8; 4; 4]%nat |}.
Record VersionedFullControllerVirtioBlkCheckpointV1 := {
  vb_controller : VersionedFullControllerCheckpointV1; vb_device : VirtioBlkCheckpointState
}.

Definition vb_from_checkpoint (checkpoint : BoundedFullControllerVirtioBlkCheckpoint)
    : res VBE VersionedFullControllerVirtioBlkCheckpointV1 :=
  controller ← map_err VbController (fc_from_checkpoint (one_controller checkpoint));
  device ← map_err VbDevice (capture (one_device checkpoint));
  err_if (negb (one_bar0 checkpoint =? ck_bar0 device))
    (BarMismatch (one_bar0 checkpoint) (ck_bar0 device));;
  mret {| vb_controller := controller; vb_device := device |}.
Definition vb_encode (self : VersionedFullControllerVirtioBlkCheckpointV1) : res VBE (list Z) :=
  map_err VbDevice (checkpoint_validate (vb_device self));;
  controller ← map_err VbController (fc_encode (vb_controller self));
  device ← encode_device_state (vb_device self);
  total_len ← ok_or (length ← checked_add 64 FULL_CONTROLLER_VIRTIO_BLK_HEADER_LEN (len controller);
                     checked_add 64 length (len device)) VbLengthOverflow;
  let bytes := envelope FULL_CONTROLLER_VIRTIO_BLK_SCHEMA total_len [len controller; len device; 0; 0]
    ++ controller ++ device in
  debug_assert (len bytes =? total_len);;
  mret bytes.
Definition vb_decode (bytes : list Z) : res VBE VersionedFullControllerVirtioBlkCheckpointV1 :=
  declared_total ← check_schema FULL_CONTROLLER_VIRTIO_BLK_SCHEMA bytes;
  controller_len ← le_field bytes 24 32;
  device_len ← le_field bytes 32 40;
  flags ← le_field bytes 40 44;
  err_if (negb (flags =? 0)) (VbNonZeroFlags flags);;
  reserved ← le_field bytes 44 48;
  err_if (negb (reserved =? 0)) (VbNonZeroReserved reserved);;
  controller_len ← ok_or (try_from 64 controller_len) (VbInvalidControllerLength controller_len);
  err_if (controller_len =? 0) (VbInvalidControllerLength 0);;
  err_if (negb (device_len =? VIRTIO_BLK_STATE_LEN)) (VbInvalidDeviceLength device_len);;
  device_len ← ok_or (try_from 64 device_len) (VbInvalidDeviceLength device_len);
  expected_len ← ok_or (length ← checked_add 64 FULL_CONTROLLER_VIRTIO_BLK_HEADER_LEN controller_len;
                        checked_add 64 length device_len) VbLengthOverflow;
  err_if (negb (expected_len =? len bytes)) (VbInvalidTotalLength declared_total expected_len);;
  controller_end ← uadd 64 FULL_CONTROLLER_VIRTIO_BLK_HEADER_LEN controller_len;
  controller_bytes ← slice bytes FULL_CONTROLLER_VIRTIO_BLK_HEADER_LEN controller_end;
  controller ← map_err VbController (fc_decode controller_bytes);
  device_bytes ← slice bytes controller_end (len bytes);
  device ← decode_device_state device_bytes;
  mret {| vb_controller := controller; vb_device := device |}.
Definition vb_materialize (host : HostMsrIndexList)
    (self : VersionedFullControllerVirtioBlkCheckpointV1)
    : res VBE BoundedFullControllerVirtioBlkCheckpoint :=
  controller ← map_err VbController (fc_materialize host (vb_controller self));
  device ← map_err VbDevice (materialize (vb_device self));
  err_if (negb (bar0 (regs device) =? ck_bar0 (vb_device self)))
    (BarMismatch (ck_bar0 (vb_device self)) (bar0 (regs device)));;
  mret {| one_controller := controller; one_bar0 := ck_bar0 (vb_device self);
          one_device := device |}.

(** * Laws of the device state *)
Definition device_wf (state : VirtioBlkCheckpointState) : Prop :=
  checkpoint_typed state ∧ checkpoint_validate state = Ok tt.
Lemma device_fields_ok state : checkpoint_typed state → layout_ok device_widths (device_fields state).
Proof.
  intros (?&?&?&?&?&?&?&?&?&?&?&?&?&?&?). unfold layout_ok, device_widths, device_fields.
  repeat (apply Forall2_cons; split; [first [assumption|by destruct (ck_queue_enabled state)|done]|]).
  by apply Forall2_nil.
Qed.
Definition device_image (state : VirtioBlkCheckpointState) : list Z :=
  layout device_widths (device_fields state) ++ ck_backing state.
Lemma len_device_image state :
  checkpoint_typed state → len (device_image state) = VIRTIO_BLK_STATE_LEN.
Proof.
  intros Ht. unfold device_image. rewrite len_app, len_layout by by apply device_fields_ok.
  by destruct Ht as (?&?&?&?&?&?&?&?&?&?&?&?&?&?&->).
Qed.
Lemma encode_device_state_ok state :
  device_wf state → encode_device_state state = Ok (device_image state).
Proof.
  intros [Ht Hv]. unfold encode_device_state. rewrite Hv. cbn [map_err mbind res_bind].
  rewrite (len_layout _ _ (device_fields_ok _ Ht)).
  change (layout device_widths (device_fields state) ++ ck_backing state) with (device_image state).
  rewrite len_device_image by done. by rewrite Z.eqb_refl.
Qed.
(** The form of a device state is canonical. *)
Lemma decode_device_state_Ok bytes state :
  bytes_ok bytes →
  decode_device_state bytes = Ok state ↔ device_wf state ∧ bytes = device_image state.
Proof.
  intros Hb. split.
  - intros H. unfold decode_device_state in H. bind_inv_one H. res_simplify.
    destruct (layout_split device_widths bytes Hb) as (vs&rest&Hok&->); [rewrite Hstep; done|].
    pose proof Hstep as Hlen. rewrite len_app, (len_layout _ _ Hok) in Hlen.
    pose proof (len_layout _ _ Hok) as Hll. change (width_sum device_widths) with 80 in Hll, Hlen.
    change VIRTIO_BLK_STATE_LEN with 2128 in *.
    pose proof Hok as Hvars. unfold device_widths in Hvars. layout_vars Hvars.
    bind_inv H. layout_reads Hok. subst.
    rewrite slice_last in Hstep25 by (rewrite ?Hll, ?Hstep; done || lia). injection Hstep25 as <-.
    apply bytes_ok_app_inv in Hb as [_ Hb]. split.
    + split; [|done]. unfold checkpoint_typed. cbn. split_and!; try done.
      change VIRTIO_BLK_BACKING_SIZE with 2048. lia.
    + unfold device_image, device_fields. cbn [ck_bar0 ck_backing]. do 3 f_equal.
      destruct (Z.eqb_spec a 0) as [->|]; [by injection Hstep1 as <-|].
      destruct (Z.eqb_spec a 1) as [->|]; [by injection Hstep1 as <-|done].
  - intros [[Ht Hv] ->]. unfold decode_device_state. rewrite len_device_image by done.
    pose proof (device_fields_ok _ Ht) as Hok. unfold device_image. unfold device_fields in Hok |- *.
    pose proof (len_layout _ _ Hok) as Hll. change (width_sum device_widths) with 80 in Hll.
    pose proof Ht as (?&?&?&?&?&?&?&?&?&?&?&?&?&?&Hbl). layout_reads Hok. decode_steps.
    rewrite slice_last by (rewrite ?Hll, ?Hbl; done).
    destruct state as [? ? ? ? ? ? ? [] ? ? ? ? ? ? ?]; cbn in *; by rewrite Hv.
Qed.
Lemma checkpoint_validate_no_panic state : no_panic (checkpoint_validate state).
Proof. unfold checkpoint_validate. np. Qed.
#[export] Hint Resolve checkpoint_validate_no_panic : panics.
Lemma decode_device_state_no_panic bytes : no_panic (decode_device_state bytes).
Proof.
  unfold decode_device_state. apply no_panic_bind; [np_leaf|]. intros [] H. res_simplify.
  change VIRTIO_BLK_STATE_LEN with 2128 in *. unfold VIRTIO_BLK_STATE_HEADER_LEN.
  apply no_panic_bind; [np_leaf|]. intros a _.
  apply no_panic_bind; [by destruct (a =? 0), (a =? 1)|]. intros; np.
Qed.
#[export] Instance device_codec : Codec VBE VirtioBlkCheckpointState := {|
  codec_encode := encode_device_state; codec_decode := decode_device_state;
  codec_wf := device_wf; codec_max := VIRTIO_BLK_STATE_LEN |}.
#[export] Instance device_codec_laws : CodecLaws VBE VirtioBlkCheckpointState.
Proof.
  split; cbn.
  - intros d Hd. assert (bytes_ok (device_image d)) as Hb.
    { apply bytes_ok_app; [auto with bytes|apply Hd]. }
    exists (device_image d). rewrite len_device_image by apply Hd.
    split_and!; [by apply encode_device_state_ok|done|done|done|]. by apply decode_device_state_Ok.
  - intros. apply decode_device_state_no_panic.
  - intros bs d Hb _ [Hd ->]%decode_device_state_Ok; [|done]. split; [done|].
    exists (device_image d). split; [by apply encode_device_state_ok|done].
Qed.

Lemma len_device_encoded d bs :
  encode_device_state d = Ok bs → device_wf d → len bs = VIRTIO_BLK_STATE_LEN.
Proof.
  intros He Hd. rewrite encode_device_state_ok in He by done. injection He as <-.
  apply len_device_image, Hd.
Qed.

(** * Laws of the envelope around one device *)
Definition vb_wf (c : VersionedFullControllerVirtioBlkCheckpointV1) : Prop :=
  fc_wf (vb_controller c) ∧ device_wf (vb_device c).
Definition vb_values (ss : list (list Z)) : list Z := (len <$> ss) ++ [0; 0].
Definition vb_shape (ss : list (list Z)) : Prop :=
  ∃ c d, ss = [c; d] ∧ 1 ≤ len c ∧ len d = VIRTIO_BLK_STATE_LEN.
Definition vb_body (ss : list (list Z)) : res VBE VersionedFullControllerVirtioBlkCheckpointV1 :=
  match ss with
  | [c; d] =>
      controller ← map_err VbController (fc_decode c);
      device ← decode_device_state d;
      mret {| vb_controller := controller; vb_device := device |}
  | _ => Panic
  end.
Definition vb_sections (c : VersionedFullControllerVirtioBlkCheckpointV1) (ss : list (list Z)) : Prop :=
  ∃ bs ds, ss = [bs; ds] ∧ fc_encode (vb_controller c) = Ok bs ∧
    encode_device_state (vb_device c) = Ok ds.
Abbreviation VB := FULL_CONTROLLER_VIRTIO_BLK_SCHEMA.
Lemma vb_schema_wf : schema_wf VB.
Proof.
  unfold schema_wf. split_and!; try done;
    apply (to_le_bytes_ok 8 (from_le_bytes VERSIONED_FULL_CONTROLLER_VIRTIO_BLK_MAGIC)).
Qed.
Ltac vb_consts :=
  change (schema_header_len FULL_CONTROLLER_VIRTIO_BLK_SCHEMA) with 48 in *;
  change FULL_CONTROLLER_VIRTIO_BLK_HEADER_LEN with 48 in *;
  change VIRTIO_BLK_STATE_LEN with 2128 in *.
Lemma vb_values_ok ss : framed VB id vb_shape ss → layout_ok (schema_fields VB) (vb_values ss).
Proof.
  intros [(c&d&->&Hc&Hd) Hu]. cbn in Hu. rewrite app_nil_r, len_app, Hd in Hu.
  vb_consts. cbn. rewrite Hd. layout_widths.
Qed.
Lemma vb_decode_frame ss : framed VB id vb_shape ss → vb_decode (frame VB id vb_values ss) = vb_body ss.
Proof.
  intros Hf. unfold vb_decode. frame_checks vb_schema_wf vb_values_ok Hf.
  destruct Hf as [(c&d&->&Hc&Hd) Hu]. unfold vb_values in *. cbn [fmap list_fmap app] in *.
  frame_fields vb_schema_wf Hu Hok. vb_consts. frame_lengths.
  rewrite uadd_ok by ulia. decode_steps. read_section hdr c d. cbn [vb_body].
  destruct (fc_decode c); [|done..]. decode_steps. read_section (hdr ++ c) d (@nil Z). done.
Qed.
Lemma vb_decode_cases bs :
  bytes_ok bs → usize (len bs) →
  (∃ e, vb_decode bs = Err e) ∨ ∃ ss, framed VB id vb_shape ss ∧ bs = frame VB id vb_values ss.
Proof.
  intros Hb Hu. unfold vb_decode. frame_cases vb_schema_wf Hb Hu. right. vb_consts.
  frame_sections rest [v; 2128] (λ ss : list (list Z), ss); [do 2 eexists; split_and!; [done|ulia|done]|].
  unfold frame, vb_values. cbn [id fmap list_fmap app]. vb_consts. congruence.
Qed.
Lemma vb_encode_frame c ss :
  vb_wf c → framed VB id vb_shape ss → vb_sections c ss → vb_encode c = Ok (frame VB id vb_values ss).
Proof.
  intros [_ [_ Hv]] Hf (bs&ds&->&Hc&Hd).
  pose proof (len_frame _ _ _ _ vb_schema_wf vb_values_ok _ Hf) as Hlen. destruct Hf as [_ Hu].
  unfold vb_encode. rewrite Hv, Hc, Hd. unfold frame in *. cbn [id vb_values fmap list_fmap app concat] in *.
  rewrite app_nil_r in *. autorewrite with bytes in Hu. vb_consts. decode_steps. unfold checked_add.
  pose proof (len_nonneg bs). pose proof (len_nonneg ds). repeat (progress (zcmp; decode_steps)).
  replace (48 + len bs + len ds) with (48 + len (bs ++ ds)) by (rewrite len_app; lia).
  rewrite Hlen. by decode_steps.
Qed.
#[export] Instance vb_codec : Codec VBE VersionedFullControllerVirtioBlkCheckpointV1 := {|
  codec_encode := vb_encode; codec_decode := vb_decode; codec_wf := vb_wf; codec_max := 45000 |}.
#[export] Instance vb_codec_laws : CodecLaws VBE VersionedFullControllerVirtioBlkCheckpointV1.
Proof.
  apply (framed_laws (Codec0:=vb_codec) VB id vb_values vb_shape vb_schema_wf vb_values_ok vb_body vb_sections
    vb_decode_frame vb_decode_cases vb_encode_frame); [done|..].
  - intros c [Hc Hd]. destruct (codec_complete (vb_controller c)) as (bs&He&Hb&Hl&Hdec); [done|].
    destruct (codec_complete (vb_device c)) as (ds&He'&Hb'&Hl'&Hdec'); [done|]. cbn in *.
    exists [bs; ds]. split_and!; [|by do 2 eexists|by repeat constructor| |].
    + do 2 eexists. split_and!; [done|lia|eapply len_device_encoded; eassumption].
    + cbn. rewrite app_nil_r, len_app. vb_consts. lia.
    + cbn. rewrite Hdec, Hdec'. by destruct c.
  - intros ss [(c&d&->&Hc&Hd) Hu] Hb. apply Forall_cons in Hb as [Hcb _]. cbn in *.
    rewrite app_nil_r, len_app, Hd in Hu. vb_consts.
    apply no_panic_bind; [apply no_panic_map_err, (codec_safe (CodecLaws:=fc_codec_laws)); [done|ulia]|].
    intros ? _. apply no_panic_bind; [apply decode_device_state_no_panic|done].
  - intros ss a [(c&d&->&Hc&Hd) Hu] Hb Hbody. apply Forall_cons in Hb as [Hcb [Hdb _]%Forall_cons]. cbn in *.
    rewrite app_nil_r, len_app, Hd in Hu. vb_consts. bind_inv Hbody.
    destruct (codec_accepts c a0) as (Hwf&Hl&bs&He&Hbl); [done|ulia|done|].
    destruct (codec_accepts d a1) as (Hwf'&Hl'&ds&He'&Hdl); [done|ulia|done|].
    split; [done|]. exists [bs; ds]. split_and!; [|by do 2 eexists|].
    + do 2 eexists. split_and!; [done|lia|]. vb_consts. lia.
    + cbn. rewrite !app_nil_r, !len_app. lia.
Qed.
