(* ===== verification/TwoDeviceSchema.v ===== *)
(** Checkpoints with two block devices.  Two formats have the same shape, and
    the same code but for the controller format they nest and their error type:
    [VersionedFullControllerTwoVirtioBlkCheckpointV1]
    ([src/src/state_snapshot/page_set/full_controller_two_virtio_blk_schema_v1.rs]) and
    [VersionedTwoVcpuTwoDeviceCheckpointV1]
    ([two_vcpu_two_device_transaction_schema_v1.rs]).  The operations are written once
    over the nested format and the error type, and the first format is an
    instance at the end of the file; the second is one in [TwoVcpuTransaction]. *)

From S2P Require Import Errors VirtioCommon VirtioBlk BlkCheckpoint Msr VcpuState Prelude SchemaV1.
From S2P Require Import PageCheckpoint Envelope Irqchip ControllerSchema DeviceSchema.

(** The live checkpoint: a controller checkpoint and the devices with their BARs
    ([BoundedFullControllerTwoVirtioBlkCheckpoint] of [full_controller_two_virtio_blk.rs],
    [BoundedTwoVcpuFullControllerTwoVirtioBlkCheckpoint] of
    [two_vcpu_two_device_transaction.rs]). *)
Record TwoDeviceCheckpoint (L : Type) := {
  two_controller : L; two_devices : (Z * VirtioBlkDevice) * (Z * VirtioBlkDevice)
}.
Arguments two_controller {L}.
Arguments two_devices {L}.
Definition two_device_bars {L} (c : TwoDeviceCheckpoint L) : Z * Z :=
  ((two_devices c).1.1, (two_devices c).2.1).
Definition two_device {L} (c : TwoDeviceCheckpoint L) (bar : Z) : option VirtioBlkDevice :=
  if (two_devices c).1.1 =? bar then Some (two_devices c).1.2
  else if (two_devices c).2.1 =? bar then Some (two_devices c).2.2 else None.

(** The portable checkpoint. *)
Record TwoDeviceState (C : Type) := {
  td_controller : C; td_devices : VirtioBlkCheckpointState * VirtioBlkCheckpointState
}.
Arguments td_controller {C}.
Arguments td_devices {C}.
Definition td_device_bars {C} (self : TwoDeviceState C) : Z * Z :=
  (ck_bar0 (td_devices self).1, ck_bar0 (td_devices self).2).

Definition TWO_DEVICE_HEADER_LEN : Z := 56.
Definition TWO_DEVICE_COUNT : Z := 2.
(** The magic number and the error variants of a two-device format around a
    controller format with errors [N]. *)
Class TwoDeviceFormat (N E : Type) := {
  td_magic : list Z;
  td_errors :: SchemaErrors E;
  invalid_controller_length : Z → E;
  invalid_device_length : Z → E;
  invalid_device_count : Z → E;
  non_zero_flags : Z → E;
  non_zero_reserved : Z → E;
  length_overflow : E;
  non_canonical_bars : Z → Z → E;
  nested_controller : N → E;
  nested_device : VersionedFullControllerVirtioBlkCheckpointError → E
}.
#[global] Hint Mode TwoDeviceFormat - ! : typeclass_instances.
Arguments td_magic N E {_}.

(** Distinct, aligned and in increasing order. *)
Definition bars_canonical (bars : Z * Z) : Prop :=
  bars.1 < bars.2 ∧ bars.1 mod VIRTIO_BLK_BAR_SIZE = 0 ∧ bars.2 mod VIRTIO_BLK_BAR_SIZE = 0.
Definition td_wf {N C} `{!Codec N C} (c : TwoDeviceState C) : Prop :=
  codec_wf (td_controller c) ∧ device_wf (td_devices c).1 ∧ device_wf (td_devices c).2 ∧
  bars_canonical (td_device_bars c).

Section two_devices.
Context {N C E : Type} `{!Codec N C, !TwoDeviceFormat N E}.

Definition map_device_state_error (error : VirtioBlkCheckpointStateError) : E :=
  nested_device (VbDevice error).
Definition validate_two_device_bars (bars : Z * Z) : res E unit :=
  err_if ((bars.2 <=? bars.1) || negb (bars.1 mod VIRTIO_BLK_BAR_SIZE =? 0)
          || negb (bars.2 mod VIRTIO_BLK_BAR_SIZE =? 0)) (non_canonical_bars bars.1 bars.2).
Definition td_schema : Schema := {|
  schema_magic := td_magic N E; schema_version := 1; schema_architecture := 1;
  schema_header_len := TWO_DEVICE_HEADER_LEN; schema_fields := [8; 8; 4; 4; 8]%nat |}.

Definition td_from_checkpoint {L} (from_live : L → res N C) (checkpoint : TwoDeviceCheckpoint L)
    : res E (TwoDeviceState C) :=
  controller ← map_err nested_controller (from_live (two_controller checkpoint));
  let bars := two_device_bars checkpoint in
  validate_two_device_bars bars;;
  device ← expect (two_device checkpoint bars.1);
  first ← map_err map_device_state_error (capture device);
  device ← expect (two_device checkpoint bars.2);
  second ← map_err map_device_state_error (capture device);
  validate_two_device_bars (ck_bar0 first, ck_bar0 second);;
  mret {| td_controller := controller; td_devices := (first, second) |}.
Definition td_encode (self : TwoDeviceState C) : res E (list Z) :=
  validate_two_device_bars (td_device_bars self);;
  controller ← map_err nested_controller (codec_encode (td_controller self));
  first ← map_err nested_device (encode_device_state (td_devices self).1);
  second ← map_err nested_device (encode_device_state (td_devices self).2);
  total_len ← ok_or (length ← checked_add 64 TWO_DEVICE_HEADER_LEN (len controller);
                     length ← checked_add 64 length (len first);
                     checked_add 64 length (len second)) length_overflow;
  let bytes := envelope td_schema total_len
    [len controller; VIRTIO_BLK_STATE_LEN; TWO_DEVICE_COUNT; 0; 0]
    ++ controller ++ first ++ second in
  debug_assert (len bytes =? total_len);;
  mret bytes.
Definition td_decode (bytes : list Z) : res E (TwoDeviceState C) :=
  declared_total ← check_schema td_schema bytes;
  controller_len ← le_field bytes 24 32;
  device_len ← le_field bytes 32 40;
  device_count ← le_field bytes 40 44;
  err_if (negb (device_count =? TWO_DEVICE_COUNT))
    (invalid_device_count device_count);;
  flags ← le_field bytes 44 48;
  err_if (negb (flags =? 0)) (non_zero_flags flags);;
  reserved ← le_field bytes 48 56;
  err_if (negb (reserved =? 0)) (non_zero_reserved reserved);;
  controller_len ← ok_or (try_from 64 controller_len) (invalid_controller_length controller_len);
  err_if (controller_len =? 0) (invalid_controller_length 0);;
  err_if (negb (device_len =? VIRTIO_BLK_STATE_LEN)) (invalid_device_length device_len);;
  expected_len ← ok_or (length ← checked_add 64 TWO_DEVICE_HEADER_LEN controller_len;
                        length ← checked_add 64 length VIRTIO_BLK_STATE_LEN;
                        checked_add 64 length VIRTIO_BLK_STATE_LEN) length_overflow;
  err_if (negb (expected_len =? len bytes)) (invalid_total_length declared_total expected_len);;
  controller_end ← uadd 64 TWO_DEVICE_HEADER_LEN controller_len;
  first_end ← uadd 64 controller_end VIRTIO_BLK_STATE_LEN;
  controller_bytes ← slice bytes TWO_DEVICE_HEADER_LEN controller_end;
  controller ← map_err nested_controller (codec_decode controller_bytes);
  first_bytes ← slice bytes controller_end first_end;
  first ← map_err nested_device (decode_device_state first_bytes);
  second_bytes ← slice bytes first_end (len bytes);
  second ← map_err nested_device (decode_device_state second_bytes);
  validate_two_device_bars (ck_bar0 first, ck_bar0 second);;
  mret {| td_controller := controller; td_devices := (first, second) |}.
Definition td_materialize {L} (materialize_controller : C → res N L) (self : TwoDeviceState C)
    : res E (TwoDeviceCheckpoint L) :=
  validate_two_device_bars (td_device_bars self);;
  controller ← map_err nested_controller (materialize_controller (td_controller self));
  first ← map_err map_device_state_error (materialize (td_devices self).1);
  second ← map_err map_device_state_error (materialize (td_devices self).2);
  mret {| two_controller := controller;
          two_devices := ((ck_bar0 (td_devices self).1, first), (ck_bar0 (td_devices self).2, second)) |}.

(** * Laws *)
Lemma validate_two_device_bars_Ok bars u : validate_two_device_bars bars = Ok u ↔ bars_canonical bars.
Proof.
  destruct u. unfold validate_two_device_bars, bars_canonical.
  rewrite err_if_Ok_iff, !orb_false_iff, !negb_false_iff, Z.leb_gt, !Z.eqb_eq. tauto.
Qed.
Context `{!CodecLaws N C}.
Hypothesis magic_ok : len (td_magic N E) = 8 ∧ bytes_ok (td_magic N E).
Hypothesis nested_max : 0 ≤ codec_max (A:=C) < 2 ^ 32.
Definition td_values (ss : list (list Z)) : list Z :=
  match ss with
  | c :: _ => [len c; VIRTIO_BLK_STATE_LEN; TWO_DEVICE_COUNT; 0; 0]
  | [] => []
  end.
Definition td_shape (ss : list (list Z)) : Prop :=
  ∃ c d1 d2, ss = [c; d1; d2] ∧ 1 ≤ len c ∧ len d1 = VIRTIO_BLK_STATE_LEN ∧
    len d2 = VIRTIO_BLK_STATE_LEN.
Definition td_body (ss : list (list Z)) : res E (TwoDeviceState C) :=
  match ss with
  | [c; d1; d2] =>
      controller ← map_err nested_controller (codec_decode c);
      first ← map_err nested_device (decode_device_state d1);
      second ← map_err nested_device (decode_device_state d2);
      validate_two_device_bars (ck_bar0 first, ck_bar0 second);;
      mret {| td_controller := controller; td_devices := (first, second) |}
  | _ => Panic
  end.
Definition td_sections (c : TwoDeviceState C) (ss : list (list Z)) : Prop :=
  ∃ bs ds1 ds2, ss = [bs; ds1; ds2] ∧ codec_encode (td_controller c) = Ok bs ∧
    encode_device_state (td_devices c).1 = Ok ds1 ∧ encode_device_state (td_devices c).2 = Ok ds2.
Ltac td_consts :=
  change (schema_header_len td_schema) with 56 in *;
  change TWO_DEVICE_HEADER_LEN with 56 in *;
  change VIRTIO_BLK_STATE_LEN with 2128 in *;
  change TWO_DEVICE_COUNT with 2 in *.
Lemma td_schema_wf : schema_wf td_schema.
Proof.
  unfold schema_wf. destruct magic_ok. by split_and!.
Qed.
Lemma td_values_ok ss : framed td_schema id td_shape ss → layout_ok (schema_fields td_schema) (td_values ss).
Proof.
  intros [(c&d1&d2&->&Hc&Hd1&Hd2) Hu]. cbn in Hu. rewrite app_nil_r, !len_app, Hd1, Hd2 in Hu.
  cbn [td_values]. td_consts. layout_widths.
Qed.
Lemma td_decode_frame ss : framed td_schema id td_shape ss → td_decode (frame td_schema id td_values ss) = td_body ss.
Proof.
  intros Hf. unfold td_decode. frame_checks td_schema_wf td_values_ok Hf.
  destruct Hf as [(c&d1&d2&->&Hc&Hd1&Hd2) Hu]. cbn [td_values] in *.
  frame_fields td_schema_wf Hu Hok. td_consts. frame_lengths.
  do 2 (rewrite uadd_ok by ulia; decode_steps). read_section hdr c (d1 ++ d2). cbn [td_body].
  destruct (codec_decode c); [|done..]. decode_steps. read_section (hdr ++ c) d1 d2.
  destruct (decode_device_state d1); [|done..]. decode_steps.
  read_section (hdr ++ c ++ d1) d2 (@nil Z). done.
Qed.
Lemma td_decode_cases bs :
  bytes_ok bs → usize (len bs) →
  (∃ e, td_decode bs = Err e) ∨ ∃ ss, framed td_schema id td_shape ss ∧ bs = frame td_schema id td_values ss.
Proof.
  intros Hb Hu. unfold td_decode. frame_cases td_schema_wf Hb Hu. right. td_consts.
  frame_sections rest [v; 2128; 2128] (λ ss : list (list Z), ss); [do 3 eexists; split_and!; [done|ulia|done|done]|].
  unfold frame. cbn [id td_values]. td_consts. congruence.
Qed.
Lemma td_encode_frame c ss :
  td_wf c → framed td_schema id td_shape ss → td_sections c ss → td_encode c = Ok (frame td_schema id td_values ss).
Proof.
  intros (_&_&_&Hv) Hf (bs&ds1&ds2&->&Hc&Hd1&Hd2).
  pose proof (len_frame _ _ _ _ td_schema_wf td_values_ok _ Hf) as Hlen. destruct Hf as [_ Hu].
  unfold td_encode.
  rewrite (proj2 (validate_two_device_bars_Ok _ tt) Hv), Hc, Hd1, Hd2. unfold frame in *.
  cbn [id td_values concat app] in *.
  rewrite app_nil_r in *. autorewrite with bytes in Hu. td_consts. decode_steps. unfold checked_add.
  pose proof (len_nonneg bs). pose proof (len_nonneg ds1). pose proof (len_nonneg ds2).
  repeat (progress (zcmp; decode_steps)).
  replace (56 + len bs + len ds1 + len ds2) with (56 + len (bs ++ ds1 ++ ds2)) by (rewrite !len_app; lia).
  rewrite Hlen. by decode_steps.
Qed.
#[global] Instance td_codec : Codec E (TwoDeviceState C) := {|
  codec_encode := td_encode; codec_decode := td_decode; codec_wf := td_wf;
  codec_max := TWO_DEVICE_HEADER_LEN + codec_max (A:=C) + 2 * VIRTIO_BLK_STATE_LEN |}.
Lemma td_laws : CodecLaws E (TwoDeviceState C).
Proof.
  apply (framed_laws (Codec0:=td_codec) td_schema id td_values td_shape td_schema_wf td_values_ok td_body
    td_sections td_decode_frame td_decode_cases td_encode_frame); [cbn; td_consts; ulia|..].
  - intros c (Hc&Hd1&Hd2&Hv). destruct (codec_complete (td_controller c)) as (bs&He&Hb&Hl&Hdec); [done|].
    destruct (codec_complete (td_devices c).1) as (ds1&He1&Hb1&Hl1&Hdec1); [done|].
    destruct (codec_complete (td_devices c).2) as (ds2&He2&Hb2&Hl2&Hdec2); [done|].
    cbn [codec_encode codec_decode codec_max device_codec] in *.
    exists [bs; ds1; ds2]. split_and!; [|by do 3 eexists|by repeat constructor| |].
    + do 3 eexists. split_and!; [done|lia|eapply len_device_encoded; eassumption..].
    + cbn. rewrite app_nil_r, !len_app. td_consts. lia.
    + cbn. rewrite Hdec, Hdec1, Hdec2. cbn [map_err mbind res_bind].
      unfold td_device_bars in Hv. rewrite (proj2 (validate_two_device_bars_Ok _ tt) Hv).
      by destruct c as [? []].
  - intros ss [(c&d1&d2&->&Hc&Hd1&Hd2) Hu] Hb. apply Forall_cons in Hb as [Hcb _]. cbn in Hu |- *.
    rewrite app_nil_r, !len_app, Hd1, Hd2 in Hu. td_consts.
    apply no_panic_bind; [apply no_panic_map_err, codec_safe; [done|ulia]|].
    intros ? _. do 2 (apply no_panic_bind;
      [apply no_panic_map_err, decode_device_state_no_panic|intros ? _]).
    unfold validate_two_device_bars. np.
  - intros ss a [(c&d1&d2&->&Hc&Hd1&Hd2) Hu] Hb Hbody.
    apply Forall_cons in Hb as [Hcb [Hdb1 [Hdb2 _]%Forall_cons]%Forall_cons].
    cbn in Hu, Hbody.
    rewrite app_nil_r, !len_app, Hd1, Hd2 in Hu. td_consts. bind_inv Hbody.
    destruct (codec_accepts c a0) as (Hwf&Hl&bs&He&Hbl); [done|ulia|done|].
    destruct (codec_accepts d1 a1) as (Hwf1&Hl1&ds1&He1&Hdl1); [done|ulia|done|].
    destruct (codec_accepts d2 a2) as (Hwf2&Hl2&ds2&He2&Hdl2); [done|ulia|done|].
    apply validate_two_device_bars_Ok in Hstep2.
    split; [by split_and!|]. exists [bs; ds1; ds2]. split_and!; [|by do 3 eexists|].
    + do 3 eexists. split_and!; [done|lia|td_consts; lia..].
    + cbn. rewrite !app_nil_r, !len_app. lia.
Qed.
End two_devices.

(** * The format around the full-controller checkpoint *)
Definition VERSIONED_FULL_CONTROLLER_TWO_VIRTIO_BLK_MAGIC : list Z := [77; 72; 86; 70; 67; 50; 66; 0].
Inductive VersionedFullControllerTwoVirtioBlkCheckpointError :=
  | TdInvalidMagic
  | TdUnsupportedVersion (version : Z)
  | TdUnsupportedArchitecture (architecture : Z)
  | TdInvalidHeaderLength (length : Z)
  | TdInvalidTotalLength (declared actual : Z)
  | TdInvalidControllerLength (length : Z)
  | TdInvalidDeviceLength (length : Z)
  | TdInvalidDeviceCount (count : Z)
  | TdNonZeroFlags (flags : Z)
  | TdNonZeroReserved (value : Z)
  | TdLengthOverflow
  | NonCanonicalBars (first second : Z)
  | TdController (error : VersionedFullControllerCheckpointError)
  | TdDevice (error : VersionedFullControllerVirtioBlkCheckpointError).
Abbreviation TDE := VersionedFullControllerTwoVirtioBlkCheckpointError.
#[export] Instance two_blk_format : TwoDeviceFormat FCE TDE := {|
  td_magic := VERSIONED_FULL_CONTROLLER_TWO_VIRTIO_BLK_MAGIC;
  td_errors := {|
    invalid_magic := TdInvalidMagic; unsupported_version := TdUnsupportedVersion;
    unsupported_architecture := TdUnsupportedArchitecture;
    invalid_header_length := TdInvalidHeaderLength;
    invalid_total_length := TdInvalidTotalLength |};
  invalid_controller_length := TdInvalidControllerLength;
  invalid_device_length := TdInvalidDeviceLength; invalid_device_count := TdInvalidDeviceCount;
  non_zero_flags := TdNonZeroFlags; non_zero_reserved := TdNonZeroReserved;
  length_overflow := TdLengthOverflow; non_canonical_bars := NonCanonicalBars;
  nested_controller := TdController; nested_device := TdDevice |}.
Definition BoundedFullControllerTwoVirtioBlkCheckpoint : Type :=
  TwoDeviceCheckpoint BoundedFullControllerCheckpoint.
Definition VersionedFullControllerTwoVirtioBlkCheckpointV1 : Type :=
  TwoDeviceState VersionedFullControllerCheckpointV1.
Definition two_blk_from_checkpoint (checkpoint : BoundedFullControllerTwoVirtioBlkCheckpoint)
    : res TDE VersionedFullControllerTwoVirtioBlkCheckpointV1 :=
  td_from_checkpoint fc_from_checkpoint checkpoint.
Definition two_blk_encode (self : VersionedFullControllerTwoVirtioBlkCheckpointV1) : res TDE (list Z) :=
  td_encode self.
Definition two_blk_decode (bytes : list Z) : res TDE VersionedFullControllerTwoVirtioBlkCheckpointV1 :=
  td_decode bytes.
Definition two_blk_materialize (host : HostMsrIndexList)
    (self : VersionedFullControllerTwoVirtioBlkCheckpointV1)
    : res TDE BoundedFullControllerTwoVirtioBlkCheckpoint :=
  td_materialize (fc_materialize host) self.
#[export] Instance two_blk_codec : Codec TDE VersionedFullControllerTwoVirtioBlkCheckpointV1 := {|
  codec_encode := two_blk_encode; codec_decode := two_blk_decode; codec_wf := td_wf;
  codec_max := 46312 |}.
#[export] Instance two_blk_codec_laws : CodecLaws TDE VersionedFullControllerTwoVirtioBlkCheckpointV1.
Proof.
  refine (td_laws (C:=VersionedFullControllerCheckpointV1) (E:=TDE) _ _); [|done]. split; [done|].
  apply (to_le_bytes_ok 8 (from_le_bytes VERSIONED_FULL_CONTROLLER_TWO_VIRTIO_BLK_MAGIC)).
Qed.
