(* ===== verification/TransactionSchema.v ===== *)
(** The transaction formats: a checkpoint with the host registrations its
    devices are accelerated with
    ([src/src/state_snapshot/page_set/checkpoint_transaction_schema_v1.rs] and
    [two_device_checkpoint_transaction_schema_v1.rs]). *)

From S2P Require Import Errors VirtioCommon VirtioBlk BlkCheckpoint Msr VcpuState Prelude SchemaV1.
From S2P Require Import PageCheckpoint Envelope Irqchip HostRegistration ControllerSchema DeviceSchema TwoDeviceSchema.

(** * One device and one registration *)
Definition VERSIONED_CHECKPOINT_TRANSACTION_MAGIC : list Z := [77; 72; 86; 84; 88; 78; 0; 0].
Definition VERSIONED_CHECKPOINT_TRANSACTION_VERSION : Z := 1.
Definition VERSIONED_CHECKPOINT_TRANSACTION_ARCH_X86_64 : Z := 1.
Definition CHECKPOINT_TRANSACTION_HEADER_LEN : Z := 48.
Inductive VersionedCheckpointTransactionError :=
  | TxInvalidMagic
  | TxUnsupportedVersion (version : Z)
  | TxUnsupportedArchitecture (architecture : Z)
  | TxInvalidHeaderLength (length : Z)
  | TxInvalidTotalLength (declared actual : Z)
  | TxInvalidCheckpointLength (length : Z)
  | TxInvalidRegistrationLength (length : Z)
  | TxNonZeroFlags (flags : Z)
  | TxNonZeroReserved (value : Z)
  | TxLengthOverflow
  | TxCheckpoint (error : VersionedFullControllerVirtioBlkCheckpointError)
  | TxRegistration (error : VersionedHostRegistrationSpecError).
Abbreviation TXE := VersionedCheckpointTransactionError.
#[export] Instance tx_errors : SchemaErrors TXE := {|
  invalid_magic := TxInvalidMagic; unsupported_version := TxUnsupportedVersion;
  unsupported_architecture := TxUnsupportedArchitecture;
  invalid_header_length := TxInvalidHeaderLength;
  invalid_total_length := TxInvalidTotalLength |}.
Definition CHECKPOINT_TRANSACTION_SCHEMA : Schema := {|
  schema_magic := VERSIONED_CHECKPOINT_TRANSACTION_MAGIC;
  schema_version := VERSIONED_CHECKPOINT_TRANSACTION_VERSION;
  schema_architecture := VERSIONED_CHECKPOINT_TRANSACTION_ARCH_X86_64;
  schema_header_len := CHECKPOINT_TRANSACTION_HEADER_LEN;
  schema_fields := [8; 8; 4; 4]%nat |}.

Record VersionedCheckpointTransactionV1 := {
  tx_checkpoint : VersionedFullControllerVirtioBlkCheckpointV1;
  tx_registration : HostRegistrationSpec
}.
Definition from_checkpoint_and_spec (checkpoint : BoundedFullControllerVirtioBlkCheckpoint)
    (spec : HostRegistrationSpec) : res TXE VersionedCheckpointTransactionV1 :=
  checkpoint ← map_err TxCheckpoint (vb_from_checkpoint checkpoint);
  mret {| tx_checkpoint := checkpoint; tx_registration := spec |}.
Definition tx_encode (self : VersionedCheckpointTransactionV1) : res TXE (list Z) :=
  checkpoint ← map_err TxCheckpoint (vb_encode (tx_checkpoint self));
  let registration := spec_encode (tx_registration self) in
  total_len ← ok_or (length ← checked_add 64 CHECKPOINT_TRANSACTION_HEADER_LEN (len checkpoint);
                     checked_add 64 length (len registration)) TxLengthOverflow;
  let bytes := envelope CHECKPOINT_TRANSACTION_SCHEMA total_len
    [len checkpoint; len registration; 0; 0] ++ checkpoint ++ registration in
  debug_assert (len bytes =? total_len);;
  mret bytes.
Definition tx_decode (bytes : list Z) : res TXE VersionedCheckpointTransactionV1 :=
  declared_total ← check_schema CHECKPOINT_TRANSACTION_SCHEMA bytes;
  checkpoint_len ← le_field bytes 24 32;
  registration_len ← le_field bytes 32 40;
  flags ← le_field bytes 40 44;
  err_if (negb (flags =? 0)) (TxNonZeroFlags flags);;
  reserved ← le_field bytes 44 48;
  err_if (negb (reserved =? 0)) (TxNonZeroReserved reserved);;
  checkpoint_len ← ok_or (try_from 64 checkpoint_len) (TxInvalidCheckpointLength checkpoint_len);
  registration_len ← ok_or (try_from 64 registration_len)
                       (TxInvalidRegistrationLength registration_len);
  err_if (checkpoint_len =? 0) (TxInvalidCheckpointLength 0);;
  err_if (registration_len =? 0) (TxInvalidRegistrationLength 0);;
  expected_len ← ok_or (length ← checked_add 64 CHECKPOINT_TRANSACTION_HEADER_LEN checkpoint_len;
                        checked_add 64 length registration_len) TxLengthOverflow;
  err_if (negb (expected_len =? len bytes)) (TxInvalidTotalLength declared_total expected_len);;
  checkpoint_end ← uadd 64 CHECKPOINT_TRANSACTION_HEADER_LEN checkpoint_len;
  checkpoint_bytes ← slice bytes CHECKPOINT_TRANSACTION_HEADER_LEN checkpoint_end;
  checkpoint ← map_err TxCheckpoint (vb_decode checkpoint_bytes);
  registration_bytes ← slice bytes checkpoint_end (len bytes);
  registration ← map_err TxRegistration (spec_decode registration_bytes);
  mret {| tx_checkpoint := checkpoint; tx_registration := registration |}.
Definition tx_materialize (host : HostMsrIndexList) (self : VersionedCheckpointTransactionV1)
    : res TXE (BoundedFullControllerVirtioBlkCheckpoint * HostRegistrationSpec) :=
  checkpoint ← map_err TxCheckpoint (vb_materialize host (tx_checkpoint self));
  mret (checkpoint, tx_registration self).

(** * Two devices and two registrations *)
Definition VERSIONED_TWO_DEVICE_CHECKPOINT_TRANSACTION_MAGIC : list Z :=
  [77; 72; 86; 84; 88; 50; 0; 0].
Definition VERSIONED_TWO_DEVICE_CHECKPOINT_TRANSACTION_VERSION : Z := 1.
Definition VERSIONED_TWO_DEVICE_CHECKPOINT_TRANSACTION_ARCH_X86_64 : Z := 1.
Definition TWO_DEVICE_CHECKPOINT_TRANSACTION_HEADER_LEN : Z := 48.
Inductive VersionedTwoDeviceCheckpointTransactionError :=
  | T2InvalidMagic
  | T2UnsupportedVersion (version : Z)
  | T2UnsupportedArchitecture (architecture : Z)
  | T2InvalidHeaderLength (length : Z)
  | T2InvalidTotalLength (declared actual : Z)
  | T2InvalidCheckpointLength (length : Z)
  | T2InvalidRegistrationPairLength (length : Z)
  | T2NonZeroFlags (flags : Z)
  | T2NonZeroReserved (value : Z)
  | T2LengthOverflow
  | T2Checkpoint (error : VersionedFullControllerTwoVirtioBlkCheckpointError)
  | T2RegistrationPair (error : VersionedHostRegistrationPairError).
Abbreviation T2E := VersionedTwoDeviceCheckpointTransactionError.
#[export] Instance t2_errors : SchemaErrors T2E := {|
  invalid_magic := T2InvalidMagic; unsupported_version := T2UnsupportedVersion;
  unsupported_architecture := T2UnsupportedArchitecture;
  invalid_header_length := T2InvalidHeaderLength;
  invalid_total_length := T2InvalidTotalLength |}.
Definition TWO_DEVICE_CHECKPOINT_TRANSACTION_SCHEMA : Schema := {|
  schema_magic := VERSIONED_TWO_DEVICE_CHECKPOINT_TRANSACTION_MAGIC;
  schema_version := VERSIONED_TWO_DEVICE_CHECKPOINT_TRANSACTION_VERSION;
  schema_architecture := VERSIONED_TWO_DEVICE_CHECKPOINT_TRANSACTION_ARCH_X86_64;
  schema_header_len := TWO_DEVICE_CHECKPOINT_TRANSACTION_HEADER_LEN;
  schema_fields := [8; 8; 4; 4]%nat |}.

Record VersionedTwoDeviceCheckpointTransactionV1 := {
  t2_checkpoint : VersionedFullControllerTwoVirtioBlkCheckpointV1;
  t2_registrations : HostRegistrationSpecPair
}.
Definition from_checkpoint_and_pair (checkpoint : BoundedFullControllerTwoVirtioBlkCheckpoint)
    (pair : HostRegistrationSpecPair) : res T2E VersionedTwoDeviceCheckpointTransactionV1 :=
  checkpoint ← map_err T2Checkpoint (two_blk_from_checkpoint checkpoint);
  mret {| t2_checkpoint := checkpoint; t2_registrations := pair |}.
Definition t2_encode (self : VersionedTwoDeviceCheckpointTransactionV1) : res T2E (list Z) :=
  checkpoint ← map_err T2Checkpoint (two_blk_encode (t2_checkpoint self));
  let registrations := pair_encode (t2_registrations self) in
  total_len ← ok_or (length ← checked_add 64 TWO_DEVICE_CHECKPOINT_TRANSACTION_HEADER_LEN (len checkpoint);
                     checked_add 64 length (len registrations)) T2LengthOverflow;
  let bytes := envelope TWO_DEVICE_CHECKPOINT_TRANSACTION_SCHEMA total_len
    [len checkpoint; len registrations; 0; 0] ++ checkpoint ++ registrations in
  debug_assert (len bytes =? total_len);;
  mret bytes.
Definition t2_decode (bytes : list Z) : res T2E VersionedTwoDeviceCheckpointTransactionV1 :=
  declared_total ← check_schema TWO_DEVICE_CHECKPOINT_TRANSACTION_SCHEMA bytes;
  checkpoint_len ← le_field bytes 24 32;
  registration_len ← le_field bytes 32 40;
  flags ← le_field bytes 40 44;
  err_if (negb (flags =? 0)) (T2NonZeroFlags flags);;
  reserved ← le_field bytes 44 48;
  err_if (negb (reserved =? 0)) (T2NonZeroReserved reserved);;
  checkpoint_len ← ok_or (try_from 64 checkpoint_len) (T2InvalidCheckpointLength checkpoint_len);
  err_if (checkpoint_len =? 0) (T2InvalidCheckpointLength 0);;
  err_if (negb (registration_len =? VERSIONED_HOST_REGISTRATION_PAIR_LEN))
    (T2InvalidRegistrationPairLength registration_len);;
  registration_len ← ok_or (try_from 64 registration_len)
                       (T2InvalidRegistrationPairLength registration_len);
  expected_len ← ok_or (length ← checked_add 64 TWO_DEVICE_CHECKPOINT_TRANSACTION_HEADER_LEN checkpoint_len;
                        checked_add 64 length registration_len) T2LengthOverflow;
  err_if (negb (expected_len =? len bytes)) (T2InvalidTotalLength declared_total expected_len);;
  checkpoint_end ← uadd 64 TWO_DEVICE_CHECKPOINT_TRANSACTION_HEADER_LEN checkpoint_len;
  checkpoint_bytes ← slice bytes TWO_DEVICE_CHECKPOINT_TRANSACTION_HEADER_LEN checkpoint_end;
  checkpoint ← map_err T2Checkpoint (two_blk_decode checkpoint_bytes);
  registration_bytes ← slice bytes checkpoint_end (len bytes);
  registrations ← map_err T2RegistrationPair (pair_decode registration_bytes);
  mret {| t2_checkpoint := checkpoint; t2_registrations := registrations |}.
Definition t2_materialize (host : HostMsrIndexList) (self : VersionedTwoDeviceCheckpointTransactionV1)
    : res T2E (BoundedFullControllerTwoVirtioBlkCheckpoint * HostRegistrationSpecPair) :=
  checkpoint ← map_err T2Checkpoint (two_blk_materialize host (t2_checkpoint self));
  pair ← map_err T2RegistrationPair (pair_materialize (t2_registrations self));
  mret (checkpoint, pair).

(** * Laws

    Both formats are a header of two lengths around two nested formats. *)
Definition two_lengths (ss : list (list Z)) : list Z := (len <$> ss) ++ [0; 0].

(** ** One device *)
Definition tx_wf (t : VersionedCheckpointTransactionV1) : Prop :=
  vb_wf (tx_checkpoint t) ∧ spec_wf (tx_registration t).
Definition tx_shape (ss : list (list Z)) : Prop :=
  ∃ c r, ss = [c; r] ∧ 1 ≤ len c ∧ 1 ≤ len r.
Definition tx_body (ss : list (list Z)) : res TXE VersionedCheckpointTransactionV1 :=
  match ss with
  | [c; r] =>
      checkpoint ← map_err TxCheckpoint (vb_decode c);
      registration ← map_err TxRegistration (spec_decode r);
      mret {| tx_checkpoint := checkpoint; tx_registration := registration |}
  | _ => Panic
  end.
Definition tx_sections (t : VersionedCheckpointTransactionV1) (ss : list (list Z)) : Prop :=
  ∃ bs rs, ss = [bs; rs] ∧ vb_encode (tx_checkpoint t) = Ok bs ∧ spec_encode (tx_registration t) = rs.
Ltac tx_consts :=
  change (schema_header_len CHECKPOINT_TRANSACTION_SCHEMA) with 48 in *;
  change CHECKPOINT_TRANSACTION_HEADER_LEN with 48 in *;
  change VERSIONED_HOST_REGISTRATION_SPEC_LEN with 48 in *;
  change VERSIONED_HOST_REGISTRATION_PAIR_LEN with 128 in *.
Lemma tx_schema_wf : schema_wf CHECKPOINT_TRANSACTION_SCHEMA.
Proof.
  unfold schema_wf. split_and!; try done;
    apply (to_le_bytes_ok 8 (from_le_bytes VERSIONED_CHECKPOINT_TRANSACTION_MAGIC)).
Qed.
Lemma tx_values_ok ss :
  framed CHECKPOINT_TRANSACTION_SCHEMA id tx_shape ss →
  layout_ok (schema_fields CHECKPOINT_TRANSACTION_SCHEMA) (two_lengths ss).
Proof.
  intros [(c&r&->&Hc&Hr) Hu]. cbn in Hu. rewrite app_nil_r, len_app in Hu. tx_consts.
  pose proof (len_nonneg r). cbn. layout_widths.
Qed.
Lemma tx_decode_frame ss :
  framed CHECKPOINT_TRANSACTION_SCHEMA id tx_shape ss →
  tx_decode (frame CHECKPOINT_TRANSACTION_SCHEMA id two_lengths ss) = tx_body ss.
Proof.
  intros Hf. unfold tx_decode. frame_checks tx_schema_wf tx_values_ok Hf.
  destruct Hf as [(c&r&->&Hc&Hr) Hu]. unfold two_lengths in *. cbn [fmap list_fmap app] in *.
  frame_fields tx_schema_wf Hu Hok. tx_consts. frame_lengths.
  rewrite uadd_ok by ulia. decode_steps. read_section hdr c r. cbn [tx_body].
  destruct (vb_decode c); [|done..]. decode_steps. read_section (hdr ++ c) r (@nil Z). done.
Qed.
Lemma tx_decode_cases bs :
  bytes_ok bs → usize (len bs) →
  (∃ e, tx_decode bs = Err e) ∨
  ∃ ss, framed CHECKPOINT_TRANSACTION_SCHEMA id tx_shape ss ∧ bs = frame CHECKPOINT_TRANSACTION_SCHEMA id two_lengths ss.
Proof.
  intros Hb Hu. unfold tx_decode. frame_cases tx_schema_wf Hb Hu. right. tx_consts.
  frame_sections rest [v; v0] (λ ss : list (list Z), ss);
    [do 2 eexists; split_and!; [done|ulia|tx_consts; ulia]|].
  unfold frame, two_lengths. cbn [id fmap list_fmap app]. tx_consts. congruence.
Qed.
Lemma tx_encode_frame t ss :
  tx_wf t → framed CHECKPOINT_TRANSACTION_SCHEMA id tx_shape ss → tx_sections t ss →
  tx_encode t = Ok (frame CHECKPOINT_TRANSACTION_SCHEMA id two_lengths ss).
Proof.
  intros _ Hf (bs&rs&->&Hc&Hr). pose proof (len_frame _ _ _ _ tx_schema_wf tx_values_ok _ Hf) as Hlen.
  destruct Hf as [_ Hu]. unfold tx_encode. rewrite Hc, Hr. unfold frame, two_lengths in *.
  cbn [id fmap list_fmap app concat] in *. rewrite app_nil_r in *. autorewrite with bytes in Hu.
  tx_consts. decode_steps.
  pose proof (len_nonneg bs). pose proof (len_nonneg rs). frame_lengths.
  replace (48 + len bs + len rs) with (48 + len (bs ++ rs)) by (rewrite len_app; lia).
  rewrite Hlen. by decode_steps.
Qed.
#[export] Instance tx_codec : Codec TXE VersionedCheckpointTransactionV1 := {|
  codec_encode := tx_encode; codec_decode := tx_decode; codec_wf := tx_wf; codec_max := 46000 |}.
#[export] Instance tx_codec_laws : CodecLaws TXE VersionedCheckpointTransactionV1.
Proof.
  apply (framed_laws (Codec0:=tx_codec) _ id two_lengths tx_shape tx_schema_wf tx_values_ok tx_body
    tx_sections tx_decode_frame tx_decode_cases tx_encode_frame); [done|..].
  - intros t [Hc Hr]. destruct (codec_complete (tx_checkpoint t)) as (bs&He&Hb&Hl&Hdec); [done|].
    destruct (codec_complete (tx_registration t)) as (rs&He'&Hb'&Hl'&Hdec'); [done|].
    cbn [codec_encode codec_decode codec_max vb_codec spec_codec] in *. injection He' as He'.
    exists [bs; rs]. split_and!; [|by do 2 eexists|by repeat (apply Forall_cons; split)| |].
    + do 2 eexists. split_and!; [done|lia|]. lia.
    + cbn. rewrite app_nil_r, len_app. tx_consts. lia.
    + cbn [tx_body]. rewrite Hdec, Hdec'. by destruct t.
  - intros ss [(c&r&->&Hc&Hr) Hu] Hb. apply Forall_cons in Hb as [Hcb [Hrb _]%Forall_cons]. cbn in Hu |- *.
    rewrite app_nil_r, len_app in Hu. tx_consts. pose proof (len_nonneg r).
    apply no_panic_bind; [apply no_panic_map_err, (codec_safe (CodecLaws:=vb_codec_laws)); [done|ulia]|].
    intros ? _. apply no_panic_bind; [|done].
    apply no_panic_map_err, (codec_safe (CodecLaws:=spec_codec_laws)); [done|ulia].
  - intros ss t [(c&r&->&Hc&Hr) Hu] Hb Hbody. apply Forall_cons in Hb as [Hcb [Hrb _]%Forall_cons].
    cbn in Hu, Hbody. rewrite app_nil_r, len_app in Hu. tx_consts. pose proof (len_nonneg r). bind_inv Hbody.
    destruct (codec_accepts c a) as (Hwf&Hl&bs&He&Hbl); [done|ulia|done|].
    destruct (codec_accepts r a0) as (Hwf'&Hl'&rs&He'&Hrl); [done|ulia|done|]. injection He' as He'.
    cbn [codec_max vb_codec spec_codec] in *. split; [done|]. exists [bs; rs].
    split_and!; [|by do 2 eexists|].
    + do 2 eexists. split_and!; [done|lia|tx_consts; lia].
    + cbn [id concat]. rewrite !app_nil_r, !len_app. lia.
Qed.

(** ** Two devices *)
Definition t2_wf (t : VersionedTwoDeviceCheckpointTransactionV1) : Prop :=
  td_wf (t2_checkpoint t) ∧ pair_wf (t2_registrations t).
Definition t2_shape (ss : list (list Z)) : Prop :=
  ∃ c r, ss = [c; r] ∧ 1 ≤ len c ∧ len r = VERSIONED_HOST_REGISTRATION_PAIR_LEN.
Definition t2_body (ss : list (list Z)) : res T2E VersionedTwoDeviceCheckpointTransactionV1 :=
  match ss with
  | [c; r] =>
      checkpoint ← map_err T2Checkpoint (two_blk_decode c);
      registration ← map_err T2RegistrationPair (pair_decode r);
      mret {| t2_checkpoint := checkpoint; t2_registrations := registration |}
  | _ => Panic
  end.
Definition t2_sections (t : VersionedTwoDeviceCheckpointTransactionV1) (ss : list (list Z)) : Prop :=
  ∃ bs rs, ss = [bs; rs] ∧ two_blk_encode (t2_checkpoint t) = Ok bs ∧ pair_encode (t2_registrations t) = rs.
Ltac t2_consts :=
  change (schema_header_len TWO_DEVICE_CHECKPOINT_TRANSACTION_SCHEMA) with 48 in *;
  change TWO_DEVICE_CHECKPOINT_TRANSACTION_HEADER_LEN with 48 in *;
  change VERSIONED_HOST_REGISTRATION_SPEC_LEN with 48 in *;
  change VERSIONED_HOST_REGISTRATION_PAIR_LEN with 128 in *.
Lemma t2_schema_wf : schema_wf TWO_DEVICE_CHECKPOINT_TRANSACTION_SCHEMA.
Proof.
  unfold schema_wf. split_and!; try done;
    apply (to_le_bytes_ok 8 (from_le_bytes VERSIONED_TWO_DEVICE_CHECKPOINT_TRANSACTION_MAGIC)).
Qed.
Lemma t2_values_ok ss :
  framed TWO_DEVICE_CHECKPOINT_TRANSACTION_SCHEMA id t2_shape ss →
  layout_ok (schema_fields TWO_DEVICE_CHECKPOINT_TRANSACTION_SCHEMA) (two_lengths ss).
Proof.
  intros [(c&r&->&Hc&Hr) Hu]. cbn in Hu. rewrite app_nil_r, len_app in Hu. t2_consts.
  pose proof (len_nonneg r). cbn. layout_widths.
Qed.
Lemma t2_decode_frame ss :
  framed TWO_DEVICE_CHECKPOINT_TRANSACTION_SCHEMA id t2_shape ss →
  t2_decode (frame TWO_DEVICE_CHECKPOINT_TRANSACTION_SCHEMA id two_lengths ss) = t2_body ss.
Proof.
  intros Hf. unfold t2_decode. frame_checks t2_schema_wf t2_values_ok Hf.
  destruct Hf as [(c&r&->&Hc&Hr) Hu]. unfold two_lengths in *. cbn [fmap list_fmap app] in *.
  frame_fields t2_schema_wf Hu Hok. t2_consts. frame_lengths.
  rewrite uadd_ok by ulia. decode_steps. read_section hdr c r. cbn [t2_body].
  destruct (two_blk_decode c); [|done..]. decode_steps. read_section (hdr ++ c) r (@nil Z). done.
Qed.
Lemma t2_decode_cases bs :
  bytes_ok bs → usize (len bs) →
  (∃ e, t2_decode bs = Err e) ∨
  ∃ ss, framed TWO_DEVICE_CHECKPOINT_TRANSACTION_SCHEMA id t2_shape ss ∧ bs = frame TWO_DEVICE_CHECKPOINT_TRANSACTION_SCHEMA id two_lengths ss.
Proof.
  intros Hb Hu. unfold t2_decode. frame_cases t2_schema_wf Hb Hu. right. t2_consts.
  frame_sections rest [v; 128] (λ ss : list (list Z), ss);
    [do 2 eexists; split_and!; [done|ulia|t2_consts; ulia]|].
  unfold frame, two_lengths. cbn [id fmap list_fmap app]. t2_consts. congruence.
Qed.
Lemma t2_encode_frame t ss :
  t2_wf t → framed TWO_DEVICE_CHECKPOINT_TRANSACTION_SCHEMA id t2_shape ss → t2_sections t ss →
  t2_encode t = Ok (frame TWO_DEVICE_CHECKPOINT_TRANSACTION_SCHEMA id two_lengths ss).
Proof.
  intros _ Hf (bs&rs&->&Hc&Hr). pose proof (len_frame _ _ _ _ t2_schema_wf t2_values_ok _ Hf) as Hlen.
  destruct Hf as [_ Hu]. unfold t2_encode. rewrite Hc, Hr. unfold frame, two_lengths in *.
  cbn [id fmap list_fmap app concat] in *. rewrite app_nil_r in *. autorewrite with bytes in Hu.
  t2_consts. decode_steps.
  pose proof (len_nonneg bs). pose proof (len_nonneg rs). frame_lengths.
  replace (48 + len bs + len rs) with (48 + len (bs ++ rs)) by (rewrite len_app; lia).
  rewrite Hlen. by decode_steps.
Qed.
#[export] Instance t2_codec : Codec T2E VersionedTwoDeviceCheckpointTransactionV1 := {|
  codec_encode := t2_encode; codec_decode := t2_decode; codec_wf := t2_wf; codec_max := 48000 |}.
#[export] Instance t2_codec_laws : CodecLaws T2E VersionedTwoDeviceCheckpointTransactionV1.
Proof.
  apply (framed_laws (Codec0:=t2_codec) _ id two_lengths t2_shape t2_schema_wf t2_values_ok t2_body
    t2_sections t2_decode_frame t2_decode_cases t2_encode_frame); [done|..].
  - intros t [Hc Hr]. destruct (codec_complete (t2_checkpoint t)) as (bs&He&Hb&Hl&Hdec); [done|].
    destruct (codec_complete (t2_registrations t)) as (rs&He'&Hb'&Hl'&Hdec'); [done|].
    cbn [codec_encode codec_decode codec_max two_blk_codec pair_codec] in *. injection He' as He'.
    exists [bs; rs]. split_and!; [|by do 2 eexists|by repeat (apply Forall_cons; split)| |].
    + do 2 eexists. split_and!; [done|lia|]. rewrite <- He'. by apply len_pair_encode.
    + cbn. rewrite app_nil_r, len_app. t2_consts. lia.
    + cbn [t2_body]. rewrite Hdec, Hdec'. by destruct t.
  - intros ss [(c&r&->&Hc&Hr) Hu] Hb. apply Forall_cons in Hb as [Hcb [Hrb _]%Forall_cons]. cbn in Hu |- *.
    rewrite app_nil_r, len_app in Hu. t2_consts. pose proof (len_nonneg r).
    apply no_panic_bind; [apply no_panic_map_err, (codec_safe (CodecLaws:=two_blk_codec_laws)); [done|ulia]|].
    intros ? _. apply no_panic_bind; [|done].
    apply no_panic_map_err, (codec_safe (CodecLaws:=pair_codec_laws)); [done|ulia].
  - intros ss t [(c&r&->&Hc&Hr) Hu] Hb Hbody. apply Forall_cons in Hb as [Hcb [Hrb _]%Forall_cons].
    cbn in Hu, Hbody. rewrite app_nil_r, len_app in Hu. t2_consts. pose proof (len_nonneg r). bind_inv Hbody.
    destruct (codec_accepts c a) as (Hwf&Hl&bs&He&Hbl); [done|ulia|done|].
    destruct (codec_accepts r a0) as (Hwf'&Hl'&rs&He'&Hrl); [done|ulia|done|]. injection He' as He'.
    cbn [codec_max two_blk_codec pair_codec] in *. split; [done|]. exists [bs; rs].
    split_and!; [|by do 2 eexists|].
    + do 2 eexists. split_and!; [done|lia|t2_consts; lia].
    + cbn [id concat]. rewrite !app_nil_r, !len_app. lia.
Qed.
