(* ===== verification/TwoVcpuSchema.v ===== *)
(** The portable format of a checkpoint of two vCPUs and the interrupt
    controllers ([src/src/state_snapshot/two_vcpu_checkpoint_schema_v1.rs]), and
    the live checkpoint it is made from ([BoundedTwoVcpuCheckpoint] and
    [BoundedTwoVcpuFullControllerCheckpoint] of
    [src/src/state_snapshot/two_vcpu_checkpoint.rs]). *)

From stdpp Require Import sorting.
From S2P Require Import Errors Msr VcpuState Prelude SchemaV1 PageCheckpoint Envelope Irqchip.
From S2P Require Import VcpuStateSchema ControllerSchema.

(** A vCPU id is a [u16]. *)
Record BoundedTwoVcpuCheckpoint := {
  primary_id : Z; primary : BoundedVcpuPageSetCheckpoint; secondary_id : Z;
  secondary : VcpuStateSnapshot
}.
Definition vcpu_ids (self : BoundedTwoVcpuCheckpoint) : Z * Z := (primary_id self, secondary_id self).
Record BoundedTwoVcpuFullControllerCheckpoint := {
  v2_base : BoundedTwoVcpuCheckpoint; v2_master_pic : KvmPicState; v2_slave_pic : KvmPicState;
  v2_ioapic : KvmIoapicState; v2_lapics : (Z * KvmLapicState) * (Z * KvmLapicState);
  v2_mp_states : (Z * Z) * (Z * Z)
}.

Definition VERSIONED_TWO_VCPU_FULL_CONTROLLER_MAGIC : list Z := [77; 72; 86; 50; 67; 84; 76; 0].
Definition VERSIONED_TWO_VCPU_FULL_CONTROLLER_VERSION : Z := 1.
Definition VERSIONED_TWO_VCPU_FULL_CONTROLLER_ARCH_X86_64 : Z := 1.
Definition TWO_VCPU_FULL_CONTROLLER_HEADER_LEN : Z := 64.
Definition TWO_VCPU_FULL_CONTROLLER_STATE_LEN : Z :=
  2 * KVM_PIC_STATE_SIZE + KVM_IOAPIC_STATE_SIZE + 2 * KVM_APIC_REG_SIZE.
Definition X86_MP_STATE_MAX : Z := 4.

Inductive VersionedTwoVcpuFullControllerCheckpointError :=
  | V2InvalidMagic
  | V2UnsupportedVersion (version : Z)
  | V2UnsupportedArchitecture (architecture : Z)
  | V2InvalidHeaderLength (length : Z)
  | V2InvalidTotalLength (declared actual : Z)
  | V2InvalidPrimaryLength (length : Z)
  | V2InvalidSecondaryLength (length : Z)
  | NonCanonicalVcpuIds (primary secondary : Z)
  | InvalidMpState (vcpu state : Z)
  | V2NonZeroFlags (flags : Z)
  | V2NonZeroReserved (value : Z)
  | V2LengthOverflow
  | V2NonZeroIoapicPad (value : Z)
  | V2Primary (error : SchemaError)
  | V2Secondary (error : VersionedVcpuStateSnapshotError).
Abbreviation V2E := VersionedTwoVcpuFullControllerCheckpointError.
#[export] Instance v2_errors : SchemaErrors V2E := {|
  invalid_magic := V2InvalidMagic; unsupported_version := V2UnsupportedVersion;
  unsupported_architecture := V2UnsupportedArchitecture;
  invalid_header_length := V2InvalidHeaderLength;
  invalid_total_length := V2InvalidTotalLength |}.
Definition TWO_VCPU_FULL_CONTROLLER_SCHEMA : Schema := {|
  schema_magic := VERSIONED_TWO_VCPU_FULL_CONTROLLER_MAGIC;
  schema_version := VERSIONED_TWO_VCPU_FULL_CONTROLLER_VERSION;
  schema_architecture := VERSIONED_TWO_VCPU_FULL_CONTROLLER_ARCH_X86_64;
  schema_header_len := TWO_VCPU_FULL_CONTROLLER_HEADER_LEN;
  schema_fields := [8; 8; 2; 2; 4; 4; 4; 8]%nat |}.

Record VersionedTwoVcpuFullControllerCheckpointV1 := {
  v2_primary : VersionedPageVcpuCheckpointV1; v2_secondary : VersionedVcpuStateSnapshotV1;
  v2_ids : Z * Z; v2_mps : Z * Z; v2_master : KvmPicState; v2_slave : KvmPicState;
  v2_io : KvmIoapicState; v2_apics : KvmLapicState * KvmLapicState
}.

Definition validate_vcpu_ids (ids : Z * Z) : res V2E unit :=
  err_if (ids.2 <=? ids.1) (NonCanonicalVcpuIds ids.1 ids.2).
(** The loop over the two vCPUs. *)
Definition validate_mp_states (ids states : Z * Z) : res V2E unit :=
  err_if (X86_MP_STATE_MAX <? states.1) (InvalidMpState ids.1 states.1);;
  err_if (X86_MP_STATE_MAX <? states.2) (InvalidMpState ids.2 states.2).

Definition v2_from_checkpoint (checkpoint : BoundedTwoVcpuFullControllerCheckpoint)
    : res V2E VersionedTwoVcpuFullControllerCheckpointV1 :=
  let ids := vcpu_ids (v2_base checkpoint) in
  validate_vcpu_ids ids;;
  let mp_states := ((v2_mp_states checkpoint).1.2, (v2_mp_states checkpoint).2.2) in
  validate_mp_states ids mp_states;;
  err_if (negb ((v2_lapics checkpoint).1.1 =? ids.1) || negb ((v2_lapics checkpoint).2.1 =? ids.2)
          || negb ((v2_mp_states checkpoint).1.1 =? ids.1)
          || negb ((v2_mp_states checkpoint).2.1 =? ids.2)) (NonCanonicalVcpuIds ids.1 ids.2);;
  err_if (negb (ioapic_pad (v2_ioapic checkpoint) =? 0))
    (V2NonZeroIoapicPad (ioapic_pad (v2_ioapic checkpoint)));;
  first ← map_err V2Primary (from_checkpoint (primary (v2_base checkpoint)));
  second ← map_err V2Secondary (from_snapshot (secondary (v2_base checkpoint)));
  mret {| v2_primary := first; v2_secondary := second; v2_ids := ids; v2_mps := mp_states;
          v2_master := v2_master_pic checkpoint; v2_slave := v2_slave_pic checkpoint;
          v2_io := v2_ioapic checkpoint;
          v2_apics := ((v2_lapics checkpoint).1.2, (v2_lapics checkpoint).2.2) |}.

Definition v2_encode (self : VersionedTwoVcpuFullControllerCheckpointV1) : res V2E (list Z) :=
  validate_vcpu_ids (v2_ids self);;
  validate_mp_states (v2_ids self) (v2_mps self);;
  err_if (negb (ioapic_pad (v2_io self) =? 0)) (V2NonZeroIoapicPad (ioapic_pad (v2_io self)));;
  first ← map_err V2Primary (encode (v2_primary self));
  second ← map_err V2Secondary (vs_encode (v2_secondary self));
  total_len ← ok_or (length ← checked_add 64 TWO_VCPU_FULL_CONTROLLER_HEADER_LEN (len first);
                     length ← checked_add 64 length (len second);
                     checked_add 64 length TWO_VCPU_FULL_CONTROLLER_STATE_LEN) V2LengthOverflow;
  let bytes := envelope TWO_VCPU_FULL_CONTROLLER_SCHEMA total_len
    [len first; len second; (v2_ids self).1; (v2_ids self).2; (v2_mps self).1; (v2_mps self).2; 0; 0]
    ++ first ++ second ++ pic_semantic_bytes (v2_master self) ++ pic_semantic_bytes (v2_slave self)
    ++ ioapic_semantic_bytes (v2_io self) ++ lapic_regs (v2_apics self).1
    ++ lapic_regs (v2_apics self).2 in
  debug_assert (len bytes =? total_len);;
  mret bytes.

Definition v2_decode (bytes : list Z) : res V2E VersionedTwoVcpuFullControllerCheckpointV1 :=
  declared_total ← check_schema TWO_VCPU_FULL_CONTROLLER_SCHEMA bytes;
  primary_len ← le_field bytes 24 32;
  secondary_len ← le_field bytes 32 40;
  id0 ← le_field bytes 40 42;
  id1 ← le_field bytes 42 44;
  validate_vcpu_ids (id0, id1);;
  mp0 ← le_field bytes 44 48;
  mp1 ← le_field bytes 48 52;
  validate_mp_states (id0, id1) (mp0, mp1);;
  flags ← le_field bytes 52 56;
  err_if (negb (flags =? 0)) (V2NonZeroFlags flags);;
  reserved ← le_field bytes 56 64;
  err_if (negb (reserved =? 0)) (V2NonZeroReserved reserved);;
  primary_len ← ok_or (try_from 64 primary_len) (V2InvalidPrimaryLength primary_len);
  err_if (primary_len =? 0) (V2InvalidPrimaryLength 0);;
  secondary_len ← ok_or (try_from 64 secondary_len) (V2InvalidSecondaryLength secondary_len);
  err_if (secondary_len =? 0) (V2InvalidSecondaryLength 0);;
  expected_len ← ok_or (length ← checked_add 64 TWO_VCPU_FULL_CONTROLLER_HEADER_LEN primary_len;
                        length ← checked_add 64 length secondary_len;
                        checked_add 64 length TWO_VCPU_FULL_CONTROLLER_STATE_LEN) V2LengthOverflow;
  err_if (negb (expected_len =? len bytes)) (V2InvalidTotalLength declared_total expected_len);;
  primary_end ← uadd 64 TWO_VCPU_FULL_CONTROLLER_HEADER_LEN primary_len;
  secondary_end ← uadd 64 primary_end secondary_len;
  primary_bytes ← slice bytes TWO_VCPU_FULL_CONTROLLER_HEADER_LEN primary_end;
  first ← map_err V2Primary (decode primary_bytes);
  secondary_bytes ← slice bytes primary_end secondary_end;
  second ← map_err V2Secondary (vs_decode secondary_bytes);
  master_end ← uadd 64 secondary_end KVM_PIC_STATE_SIZE;
  master_bytes ← slice bytes secondary_end master_end;
  slave_end ← uadd 64 master_end KVM_PIC_STATE_SIZE;
  slave_bytes ← slice bytes master_end slave_end;
  ioapic_end ← uadd 64 slave_end KVM_IOAPIC_STATE_SIZE;
  ioapic_bytes ← slice bytes slave_end ioapic_end;
  let ioapic := ioapic_from_semantic_bytes ioapic_bytes in
  err_if (negb (ioapic_pad ioapic =? 0)) (V2NonZeroIoapicPad (ioapic_pad ioapic));;
  first_lapic_end ← uadd 64 ioapic_end KVM_APIC_REG_SIZE;
  first_lapic ← slice bytes ioapic_end first_lapic_end;
  second_lapic_end ← uadd 64 first_lapic_end KVM_APIC_REG_SIZE;
  second_lapic ← slice bytes first_lapic_end second_lapic_end;
  debug_assert (second_lapic_end =? len bytes);;
  mret {| v2_primary := first; v2_secondary := second; v2_ids := (id0, id1); v2_mps := (mp0, mp1);
          v2_master := pic_from_semantic_bytes master_bytes;
          v2_slave := pic_from_semantic_bytes slave_bytes; v2_io := ioapic;
          v2_apics := ({| lapic_regs := first_lapic |}, {| lapic_regs := second_lapic |}) |}.

Definition v2_materialize (host : HostMsrIndexList) (self : VersionedTwoVcpuFullControllerCheckpointV1)
    : res V2E BoundedTwoVcpuFullControllerCheckpoint :=
  validate_vcpu_ids (v2_ids self);;
  validate_mp_states (v2_ids self) (v2_mps self);;
  err_if (negb (ioapic_pad (v2_io self) =? 0)) (V2NonZeroIoapicPad (ioapic_pad (v2_io self)));;
  first ← map_err V2Primary (materialize_checkpoint host (v2_primary self));
  second ← map_err V2Secondary (vs_materialize host (v2_secondary self));
  mret {| v2_base := {| primary_id := (v2_ids self).1; primary := first;
                        secondary_id := (v2_ids self).2; secondary := second |};
          v2_master_pic := v2_master self; v2_slave_pic := v2_slave self; v2_ioapic := v2_io self;
          v2_lapics := (((v2_ids self).1, (v2_apics self).1), ((v2_ids self).2, (v2_apics self).2));
          v2_mp_states := (((v2_ids self).1, (v2_mps self).1), ((v2_ids self).2, (v2_mps self).2)) |}.

(** * Laws *)
Definition ids_wf (ids mps : Z * Z) : Prop :=
  u16 ids.1 ∧ u16 ids.2 ∧ ids.1 < ids.2 ∧ 0 ≤ mps.1 ≤ X86_MP_STATE_MAX ∧ 0 ≤ mps.2 ≤ X86_MP_STATE_MAX.
Definition v2_wf (c : VersionedTwoVcpuFullControllerCheckpointV1) : Prop :=
  ck_wf (v2_primary c) ∧ vs_wf (v2_secondary c) ∧ ids_wf (v2_ids c) (v2_mps c) ∧
  pic_wf (v2_master c) ∧ pic_wf (v2_slave c) ∧ ioapic_wf (v2_io c) ∧ ioapic_pad (v2_io c) = 0 ∧
  lapic_wf (v2_apics c).1 ∧ lapic_wf (v2_apics c).2.
(** The payload: the vCPU ids and MP states of the header, and the sections. *)
Abbreviation V2P := ((Z * Z) * (Z * Z) * list (list Z))%type.
Definition v2_values (p : V2P) : list Z :=
  match p.2 with
  | s1 :: s2 :: _ => [len s1; len s2; p.1.1.1; p.1.1.2; p.1.2.1; p.1.2.2; 0; 0]
  | _ => []
  end.
Definition v2_shape (p : V2P) : Prop :=
  ids_wf p.1.1 p.1.2 ∧
  ∃ s1 s2 m s io l1 l2, p.2 = [s1; s2; m; s; io; l1; l2] ∧ 1 ≤ len s1 ∧ 1 ≤ len s2 ∧
    len m = KVM_PIC_STATE_SIZE ∧ len s = KVM_PIC_STATE_SIZE ∧ len io = KVM_IOAPIC_STATE_SIZE ∧
    len l1 = KVM_APIC_REG_SIZE ∧ len l2 = KVM_APIC_REG_SIZE.
Definition v2_body (p : V2P) : res V2E VersionedTwoVcpuFullControllerCheckpointV1 :=
  match p.2 with
  | [s1; s2; m; s; io; l1; l2] =>
      first ← map_err V2Primary (decode s1);
      second ← map_err V2Secondary (vs_decode s2);
      err_if (negb (ioapic_pad (ioapic_from_semantic_bytes io) =? 0))
        (V2NonZeroIoapicPad (ioapic_pad (ioapic_from_semantic_bytes io)));;
      mret {| v2_primary := first; v2_secondary := second; v2_ids := p.1.1; v2_mps := p.1.2;
              v2_master := pic_from_semantic_bytes m; v2_slave := pic_from_semantic_bytes s;
              v2_io := ioapic_from_semantic_bytes io;
              v2_apics := ({| lapic_regs := l1 |}, {| lapic_regs := l2 |}) |}
  | _ => Panic
  end.
Definition v2_sections (c : VersionedTwoVcpuFullControllerCheckpointV1) (p : V2P) : Prop :=
  p.1 = (v2_ids c, v2_mps c) ∧
  ∃ s1 s2, encode (v2_primary c) = Ok s1 ∧ vs_encode (v2_secondary c) = Ok s2 ∧
    p.2 = [s1; s2; pic_bytes (v2_master c); pic_bytes (v2_slave c); ioapic_bytes (v2_io c);
           lapic_regs (v2_apics c).1; lapic_regs (v2_apics c).2].
Abbreviation V2 := TWO_VCPU_FULL_CONTROLLER_SCHEMA.
Ltac v2_consts :=
  change (schema_header_len TWO_VCPU_FULL_CONTROLLER_SCHEMA) with 64 in *;
  change TWO_VCPU_FULL_CONTROLLER_HEADER_LEN with 64 in *;
  change TWO_VCPU_FULL_CONTROLLER_STATE_LEN with 2296 in *; change KVM_PIC_STATE_SIZE with 16 in *;
  change KVM_IOAPIC_STATE_SIZE with 216 in *; change KVM_APIC_REG_SIZE with 1024 in *.
Lemma v2_schema_wf : schema_wf V2.
Proof.
  unfold schema_wf. split_and!; try done;
    apply (to_le_bytes_ok 8 (from_le_bytes VERSIONED_TWO_VCPU_FULL_CONTROLLER_MAGIC)).
Qed.
Lemma ids_wf_Ok ids mps :
  u16 ids.1 → u16 ids.2 → u32 mps.1 → u32 mps.2 →
  (validate_vcpu_ids ids = Ok tt ∧ validate_mp_states ids mps = Ok tt) ↔ ids_wf ids mps.
Proof.
  intros. unfold validate_vcpu_ids, validate_mp_states, ids_wf. rewrite bind_err_if_Ok, !err_if_Ok_iff.
  rewrite Z.leb_gt, !Z.ltb_ge. split; [intros; split_and!; ulia|intros; split_and!; ulia].
Qed.
Lemma v2_values_ok p : framed V2 snd v2_shape p → layout_ok (schema_fields V2) (v2_values p).
Proof.
  destruct p as [[ids mps] ss]. intros [[Hids (s1&s2&m&s&io&l1&l2&Hss&H1&H2&_)] Hu].
  cbn [snd] in Hss. subst ss.
  destruct Hids as (?&?&?&?&?). cbn [fst snd v2_values] in *. cbn [concat] in Hu.
  rewrite !len_app in Hu. unfold X86_MP_STATE_MAX in *. v2_consts.
  pose proof (len_nonneg (m ++ s ++ io ++ l1 ++ l2 ++ [])) as Hn. rewrite !len_app in Hn.
  layout_widths.
Qed.
Lemma v2_decode_frame p : framed V2 snd v2_shape p → v2_decode (frame V2 snd v2_values p) = v2_body p.
Proof.
  intros Hf. unfold v2_decode. frame_checks v2_schema_wf v2_values_ok Hf.
  destruct p as [[ids mps] ss].
  destruct Hf as [[Hids (s1&s2&m&s&io&l1&l2&Hss&H1&H2&Hm&Hs&Hio&Hl1&Hl2)] Hu].
  cbn [snd] in Hss. subst ss.
  unfold v2_values in *. cbn [fst snd] in *.
  frame_fields v2_schema_wf Hu Hok. v2_consts.
  assert (validate_vcpu_ids (ids.1, ids.2) = Ok tt ∧
    validate_mp_states (ids.1, ids.2) (mps.1, mps.2) = Ok tt) as [-> ->].
  { apply ids_wf_Ok; unfold ids_wf, X86_MP_STATE_MAX in *; cbn; ulia. }
  decode_steps. frame_lengths. do 2 (rewrite uadd_ok by ulia; decode_steps).
  read_section hdr s1 (s2 ++ m ++ s ++ io ++ l1 ++ l2). cbn [v2_body snd].
  destruct (decode s1) as [first| |]; [|done..]. decode_steps.
  read_section (hdr ++ s1) s2 (m ++ s ++ io ++ l1 ++ l2).
  destruct (vs_decode s2) as [second| |]; [|done..]. decode_steps.
  rewrite uadd_ok by ulia. decode_steps. read_section (hdr ++ s1 ++ s2) m (s ++ io ++ l1 ++ l2).
  rewrite uadd_ok by ulia. decode_steps. read_section (hdr ++ s1 ++ s2 ++ m) s (io ++ l1 ++ l2).
  rewrite uadd_ok by ulia. decode_steps. read_section (hdr ++ s1 ++ s2 ++ m ++ s) io (l1 ++ l2).
  destruct (ioapic_pad _ =? 0); decode_steps; [|done].
  rewrite uadd_ok by ulia. decode_steps. read_section (hdr ++ s1 ++ s2 ++ m ++ s ++ io) l1 l2.
  rewrite uadd_ok by ulia. decode_steps.
  read_section (hdr ++ s1 ++ s2 ++ m ++ s ++ io ++ l1) l2 (@nil Z).
  rewrite (proj2 (Z.eqb_eq _ _)) by lia. destruct ids, mps. done.
Qed.
Lemma v2_decode_cases bs :
  bytes_ok bs → usize (len bs) →
  (∃ e, v2_decode bs = Err e) ∨ ∃ p, framed V2 snd v2_shape p ∧ bs = frame V2 snd v2_values p.
Proof.
  intros Hb Hu. unfold v2_decode, validate_vcpu_ids, validate_mp_states.
  frame_cases v2_schema_wf Hb Hu. cbn [fst snd] in *. right. v2_consts.
  frame_sections rest [v; v0; 16; 16; 216; 1024; 1024] (λ ss : list (list Z), ((v1, v2), (v3, v4), ss)).
  - split; [unfold ids_wf; cbn; ulia|]. do 7 eexists. split_and!; [done|ulia|ulia|assumption..].
  - unfold frame, v2_values. cbn [fst snd]. v2_consts. congruence.
Qed.
Lemma len_pic_bytes s : len (pic_bytes s) = KVM_PIC_STATE_SIZE.
Proof. done. Qed.
Lemma v2_shape_sections c s1 s2 :
  v2_wf c → 1 ≤ len s1 → 1 ≤ len s2 →
  v2_shape ((v2_ids c, v2_mps c), [s1; s2; pic_bytes (v2_master c); pic_bytes (v2_slave c);
    ioapic_bytes (v2_io c); lapic_regs (v2_apics c).1; lapic_regs (v2_apics c).2]).
Proof.
  intros (_&_&Hids&_&_&Hio&_&[Hl1 _]&[Hl2 _]) H1 H2. split; [done|].
  do 7 eexists. split_and!; try done. by apply len_ioapic_bytes.
Qed.
Lemma v2_encode_frame c p :
  v2_wf c → framed V2 snd v2_shape p → v2_sections c p → v2_encode c = Ok (frame V2 snd v2_values p).
Proof.
  intros Hwf Hf (Hp1&s1&s2&He1&He2&Hp2). destruct p as [[ids mps] ss]. cbn [fst snd] in Hp1, Hp2.
  injection Hp1 as -> ->. subst ss.
  pose proof (len_frame _ _ _ _ v2_schema_wf v2_values_ok _ Hf) as Hlen.
  destruct Hwf as (_&_&Hids&_&_&Hio&Hpad&[Hl1 _]&[Hl2 _]). destruct Hf as [_ Hu]. unfold v2_encode.
  pose proof Hids as (?&?&_&?&?).
  destruct (proj2 (ids_wf_Ok (v2_ids c) (v2_mps c) ltac:(done) ltac:(done)
    ltac:(unfold X86_MP_STATE_MAX in *; ulia) ltac:(unfold X86_MP_STATE_MAX in *; ulia)) Hids) as [-> ->].
  rewrite Hpad, He1, He2, ioapic_semantic_bytes_eq, (pic_semantic_bytes_eq (v2_master c)),
    (pic_semantic_bytes_eq (v2_slave c)) by done.
  unfold frame, v2_values in *. cbn [fst snd concat] in *. rewrite app_nil_r in *.
  set (t := pic_bytes (v2_master c) ++ _) in *.
  assert (len t = 2296) as Ht.
  { unfold t. rewrite !len_app, Hl1, Hl2, len_ioapic_bytes by done. done. }
  clearbody t. v2_consts. autorewrite with bytes in Hu. decode_steps.
  pose proof (len_nonneg s1). pose proof (len_nonneg s2). frame_lengths.
  replace (64 + len s1 + len s2 + 2296) with (64 + len (s1 ++ s2 ++ t)) by (rewrite !len_app; lia).
  rewrite Hlen. by decode_steps.
Qed.
#[export] Instance v2_codec : Codec V2E VersionedTwoVcpuFullControllerCheckpointV1 := {|
  codec_encode := v2_encode; codec_decode := v2_decode; codec_wf := v2_wf; codec_max := 48000 |}.
Lemma v2_body_complete c s1 s2 :
  v2_wf c → decode s1 = Ok (v2_primary c) → vs_decode s2 = Ok (v2_secondary c) →
  v2_body ((v2_ids c, v2_mps c), [s1; s2; pic_bytes (v2_master c); pic_bytes (v2_slave c);
    ioapic_bytes (v2_io c); lapic_regs (v2_apics c).1; lapic_regs (v2_apics c).2]) = Ok c.
Proof.
  intros (_&_&_&_&_&Hio&Hpad&_) Hd1 Hd2. cbn [v2_body fst snd]. rewrite Hd1, Hd2. decode_steps.
  rewrite <- (ioapic_semantic_bytes_eq _ Hio), (ioapic_semantic_roundtrip _ Hio), Hpad. decode_steps.
  rewrite <- (pic_semantic_bytes_eq (v2_master c)), <- (pic_semantic_bytes_eq (v2_slave c)),
    !pic_semantic_roundtrip. by destruct c as [? ? ? ? ? ? ? [[] []]].
Qed.
Lemma v2_body_sound p c :
  framed V2 snd v2_shape p → Forall bytes_ok p.2 → v2_body p = Ok c →
  v2_wf c ∧ ∃ p', v2_shape p' ∧ v2_sections c p' ∧ len (concat p'.2) = len (concat p.2).
Proof.
  destruct p as [[ids mps] ss].
  intros [[Hids (s1&s2&m&s&io&l1&l2&Hss&H1&H2&Hm&Hs&Hio&Hl1&Hl2)] Hu] Hb Hbody.
  cbn [snd] in Hss. subst ss. cbn [fst snd v2_body concat] in *. rewrite !len_app in *.
  change (len (@nil Z)) with 0 in *. v2_consts.
  rewrite !Forall_cons in Hb. destruct Hb as (Hb1&Hb2&Hbm&Hbs&Hbio&Hbl1&Hbl2&_). bind_inv Hbody.
  destruct (codec_accepts s1 a) as (Hwf1&Hm1&bs1&He1&Hn1); [done|ulia|done|].
  destruct (codec_accepts s2 a0) as (Hwf2&Hm2&bs2&He2&Hn2); [done|ulia|done|].
  destruct (ioapic_bytes_cover io) as [Hiow Hioe]; [done..|].
  match goal with |- v2_wf ?c ∧ _ => assert (v2_wf c) as Hwf end.
  { unfold v2_wf, pic_wf, lapic_wf. cbn. by rewrite !pic_bytes_cover. }
  split; [done|]. exists ((ids, mps), [bs1; bs2; m; s; io; l1; l2]). split_and!.
  - split; [done|]. do 7 eexists. split_and!; [done|lia|lia|assumption..].
  - split; [done|]. do 2 eexists. split_and!; [done|done|]. cbn [snd v2_master v2_slave v2_io v2_apics].
    by rewrite !pic_bytes_cover, <- ioapic_semantic_bytes_eq, Hioe by done.
  - cbn [snd concat]. rewrite !len_app. change (len (@nil Z)) with 0. lia.
Qed.
#[export] Instance v2_codec_laws : CodecLaws V2E VersionedTwoVcpuFullControllerCheckpointV1.
Proof.
  apply (framed_laws (Codec0:=v2_codec) V2 snd v2_values v2_shape v2_schema_wf v2_values_ok v2_body
    v2_sections v2_decode_frame v2_decode_cases v2_encode_frame); [done|..|apply v2_body_sound].
  - intros c Hwf. destruct (codec_complete (v2_primary c)) as (s1&He1&Hb1&Hl1&Hd1); [apply Hwf|].
    destruct (codec_complete (v2_secondary c)) as (s2&He2&Hb2&Hl2&Hd2); [apply Hwf|].
    cbn [codec_encode codec_decode codec_max page_codec vs_codec] in *.
    eexists. split_and!; [apply (v2_shape_sections c s1 s2); done || lia|split; [done|by do 2 eexists]|..];
      [|..|by apply v2_body_complete]; destruct Hwf as (_&_&_&?&?&Hio&_&[Hn1 ?]&[Hn2 ?]).
    + repeat (apply Forall_cons; split; [done || apply bytes_ok_ioapic|]). by apply Forall_nil.
    + cbn [snd concat codec_max v2_codec]. rewrite !len_app, len_ioapic_bytes, Hn1, Hn2 by done.
      rewrite !len_pic_bytes. change (len (@nil Z)) with 0. v2_consts. lia.
  - intros [[ids mps] ss] [[Hids (s1&s2&m&s&io&l1&l2&Hss&H1&H2&Hm&Hs&Hio&Hl1&Hl2)] Hu] Hb.
    cbn [snd] in Hss. subst ss. cbn [fst snd v2_body concat] in *. rewrite !len_app in *.
    change (len (@nil Z)) with 0 in *. v2_consts. rewrite !Forall_cons in Hb. destruct Hb as (Hb1&Hb2&_).
    apply no_panic_bind; [apply no_panic_map_err, (codec_safe (CodecLaws:=page_codec_laws)); [done|ulia]|].
    intros ? _. apply no_panic_bind;
      [apply no_panic_map_err, (codec_safe (CodecLaws:=vs_codec_laws)); [done|ulia]|].
    intros ? _. np.
Qed.
