(* ===== verification/TwoVcpuTransaction.v ===== *)
(** The two-vCPU, two-device transaction formats
    ([src/src/state_snapshot/page_set/two_vcpu_two_device_transaction_schema_v1.rs]): the
    checkpoint (an instance of the two-device format of [TwoDeviceSchema] around the
    two-vCPU controller format), and its transactions with a registration pair, version
    1 without and versions 2 and 3 with a token for a pending completion or notification.

    The texts of wrapped errors are kept as the errors. *)

From stdpp Require Import sorting.
From S2P Require Import Errors VirtioCommon VirtioBlk BlkCheckpoint Msr VcpuState Prelude SchemaV1.
From S2P Require Import PageCheckpoint Envelope Irqchip HostRegistration VcpuStateSchema.
From S2P Require Import ControllerSchema DeviceSchema TwoDeviceSchema TwoVcpuSchema.

(** * The checkpoint *)
Definition VERSIONED_TWO_VCPU_TWO_DEVICE_CHECKPOINT_MAGIC : list Z := [77; 72; 86; 50; 86; 50; 66; 0].
Inductive VersionedTwoVcpuTwoDeviceCheckpointError :=
  | D2InvalidMagic
  | D2UnsupportedVersion (version : Z)
  | D2UnsupportedArchitecture (architecture : Z)
  | D2InvalidHeaderLength (length : Z)
  | D2InvalidTotalLength (declared actual : Z)
  | D2InvalidControllerLength (length : Z)
  | D2InvalidDeviceLength (length : Z)
  | D2InvalidDeviceCount (count : Z)
  | D2NonZeroFlags (flags : Z)
  | D2NonZeroReserved (value : Z)
  | D2NonCanonicalBars (first second : Z)
  | D2LengthOverflow
  | D2Controller (error : VersionedTwoVcpuFullControllerCheckpointError)
  | D2Device (error : VersionedFullControllerVirtioBlkCheckpointError).
Abbreviation D2E := VersionedTwoVcpuTwoDeviceCheckpointError.
#[export] Instance two_vcpu_format : TwoDeviceFormat V2E D2E := {|
  td_magic := VERSIONED_TWO_VCPU_TWO_DEVICE_CHECKPOINT_MAGIC;
  td_errors := {|
    invalid_magic := D2InvalidMagic; unsupported_version := D2UnsupportedVersion;
    unsupported_architecture := D2UnsupportedArchitecture;
    invalid_header_length := D2InvalidHeaderLength;
    invalid_total_length := D2InvalidTotalLength |};
  invalid_controller_length := D2InvalidControllerLength;
  invalid_device_length := D2InvalidDeviceLength; invalid_device_count := D2InvalidDeviceCount;
  non_zero_flags := D2NonZeroFlags; non_zero_reserved := D2NonZeroReserved;
  length_overflow := D2LengthOverflow; non_canonical_bars := D2NonCanonicalBars;
  nested_controller := D2Controller; nested_device := D2Device |}.
Definition BoundedTwoVcpuFullControllerTwoVirtioBlkCheckpoint : Type :=
  TwoDeviceCheckpoint BoundedTwoVcpuFullControllerCheckpoint.
Definition VersionedTwoVcpuTwoDeviceCheckpointV1 : Type :=
  TwoDeviceState VersionedTwoVcpuFullControllerCheckpointV1.
Abbreviation LiveCheckpoint := BoundedTwoVcpuFullControllerTwoVirtioBlkCheckpoint.
Abbreviation WireCheckpoint := VersionedTwoVcpuTwoDeviceCheckpointV1.
Definition d2_from_checkpoint (checkpoint : LiveCheckpoint) : res D2E WireCheckpoint :=
  td_from_checkpoint v2_from_checkpoint checkpoint.
Definition d2_encode (self : WireCheckpoint) : res D2E (list Z) := td_encode self.
Definition d2_decode (bytes : list Z) : res D2E WireCheckpoint := td_decode bytes.
Definition d2_materialize (host : HostMsrIndexList) (self : WireCheckpoint) : res D2E LiveCheckpoint :=
  td_materialize (v2_materialize host) self.
#[export] Instance d2_codec : Codec D2E VersionedTwoVcpuTwoDeviceCheckpointV1 := {|
  codec_encode := d2_encode; codec_decode := d2_decode; codec_wf := td_wf; codec_max := 52312 |}.

(** ** Tokens of a checkpoint *)

(** The detail of a [PendingCompletion] or [PendingNotification] error. *)
Inductive TokenDetail :=
  | TokenReserved (value : Z)
  | TokenBarDisappeared (bar : Z)
  | TokenInvalid (error : VirtioBlkCheckpointStateError).
Inductive VersionedTwoVcpuTwoDeviceTransactionError :=
  | WInvalidMagic
  | WUnsupportedVersion (version : Z)
  | WUnsupportedArchitecture (architecture : Z)
  | WInvalidHeaderLength (length : Z)
  | WInvalidTotalLength (declared actual : Z)
  | WInvalidCheckpointLength (length : Z)
  | WInvalidRegistrationPairLength (length : Z)
  | InvalidPendingCompletionTokenLength (length : Z)
  | InvalidPendingNotificationTokenLength (length : Z)
  | PendingCompletion (detail : TokenDetail)
  | PendingNotification (detail : TokenDetail)
  | WNonZeroFlags (flags : Z)
  | WNonZeroReserved (value : Z)
  | RegistrationBinding (error : Error)
  | WLengthOverflow
  | WCheckpoint (error : VersionedTwoVcpuTwoDeviceCheckpointError)
  | WRegistrationPair (error : VersionedHostRegistrationPairError).
Abbreviation WE := VersionedTwoVcpuTwoDeviceTransactionError.
#[export] Instance w_errors : SchemaErrors WE := {|
  invalid_magic := WInvalidMagic; unsupported_version := WUnsupportedVersion;
  unsupported_architecture := WUnsupportedArchitecture;
  invalid_header_length := WInvalidHeaderLength;
  invalid_total_length := WInvalidTotalLength |}.

(** The two kinds of token.  The code for the two is the same up to these
    functions and error variants. *)
Record TokenKind := {
  kind_version : Z;
  kind_length_error : Z → WE;
  kind_error : TokenDetail → WE;
  kind_from_parts : Z → Z → Z → Z → res CE PendingToken;
  kind_invalid : PendingToken → CE;
  kind_foreign : PendingToken → VirtioBlkDevice → res D2E CE;
  kind_capture : VirtioBlkDevice → res CE (VirtioBlkCheckpointState * PendingToken);
  kind_validate_state : PendingToken → VirtioBlkCheckpointState → res CE unit;
  kind_validate_device : PendingToken → VirtioBlkDevice → res CE unit;
  kind_materialize : VirtioBlkCheckpointState → PendingToken → res CE VirtioBlkDevice
}.
Definition VERSIONED_TWO_VCPU_TWO_DEVICE_TRANSACTION_V2 : Z := 2.
Definition VERSIONED_TWO_VCPU_TWO_DEVICE_TRANSACTION_V3 : Z := 3.
(** [kind_foreign] is the error for a token of neither device: for a completion it is
    [token.validate_device(..).unwrap_err()]. *)
Definition completion : TokenKind := {|
  kind_version := VERSIONED_TWO_VCPU_TWO_DEVICE_TRANSACTION_V2;
  kind_length_error := InvalidPendingCompletionTokenLength;
  kind_error := PendingCompletion;
  kind_from_parts := completion_from_parts;
  kind_invalid := completion_invalid;
  kind_foreign := λ token device,
    match completion_validate_device token device with Err e => Ok e | _ => Panic end;
  kind_capture := capture_with_pending_completion;
  kind_validate_state := completion_validate_state;
  kind_validate_device := completion_validate_device;
  kind_materialize := λ state _, materialize state |}.
Definition notification : TokenKind := {|
  kind_version := VERSIONED_TWO_VCPU_TWO_DEVICE_TRANSACTION_V3;
  kind_length_error := InvalidPendingNotificationTokenLength;
  kind_error := PendingNotification;
  kind_from_parts := notification_from_parts;
  kind_invalid := notification_invalid;
  kind_foreign := λ token _, Ok (notification_invalid token);
  kind_capture := capture_with_pending_notification;
  kind_validate_state := notification_validate_state;
  kind_validate_device := notification_validate_device;
  kind_materialize := materialize_with_pending_notification |}.
#[export] Instance pending_token_eq_dec : EqDecision PendingToken.
Proof. solve_decision. Defined.
Definition device_error (error : VirtioBlkCheckpointStateError) : D2E :=
  map_device_state_error error.

(** The state of one device, and whether the token captured with it is [token]. *)
Definition capture_with_token (k : TokenKind) (token : PendingToken) (bar : Z) (device : VirtioBlkDevice)
    (matches : bool) : res D2E (VirtioBlkCheckpointState * bool) :=
  if token_bar0 token =? bar then
    '(state, captured) ← map_err device_error (kind_capture k device);
    mret (state, bool_decide (captured = token))
  else
    state ← map_err device_error (capture device);
    mret (state, matches).
(** [from_checkpoint_with_pending_completion] and [.._notification]. *)
Definition from_checkpoint_with_pending (k : TokenKind) (checkpoint : LiveCheckpoint)
    (token : PendingToken) : res D2E WireCheckpoint :=
  controller ← map_err D2Controller (v2_from_checkpoint (two_controller checkpoint));
  let bars := two_device_bars checkpoint in
  validate_two_device_bars bars;;
  (if negb (token_bar0 token =? bars.1) && negb (token_bar0 token =? bars.2) then
     device ← expect (two_device checkpoint bars.1);
     error ← kind_foreign k token device;
     Err (device_error error)
   else mret tt);;
  device ← expect (two_device checkpoint bars.1);
  '(first, matches) ← capture_with_token k token bars.1 device false;
  device ← expect (two_device checkpoint bars.2);
  '(second, matches) ← capture_with_token k token bars.2 device matches;
  err_if (negb matches) (device_error (kind_invalid k token));;
  map_err device_error
    (kind_validate_state k token (if token_bar0 token =? bars.1 then first else second));;
  mret {| td_controller := controller; td_devices := (first, second) |}.
(** [validate_pending_completion_token] and [.._notification_token]. *)
Definition validate_pending_token (k : TokenKind) (self : WireCheckpoint) (token : PendingToken)
    : res D2E unit :=
  let bars := td_device_bars self in
  state ← (if token_bar0 token =? bars.1 then mret (td_devices self).1
           else if token_bar0 token =? bars.2 then mret (td_devices self).2
           else Err (device_error (kind_invalid k token)));
  map_err device_error (kind_validate_state k token state).
Definition d2_materialize_with_pending_notification (host : HostMsrIndexList) (token : PendingToken)
    (self : WireCheckpoint) : res D2E LiveCheckpoint :=
  validate_two_device_bars (td_device_bars self);;
  validate_pending_token notification self token;;
  controller ← map_err D2Controller (v2_materialize host (td_controller self));
  let device state :=
    map_err device_error
      (if token_bar0 token =? ck_bar0 state then materialize_with_pending_notification state token
       else materialize state) in
  first ← device (td_devices self).1;
  second ← device (td_devices self).2;
  mret {| two_controller := controller;
          two_devices := ((ck_bar0 (td_devices self).1, first), (ck_bar0 (td_devices self).2, second)) |}.

(** * Registrations bound to the devices *)

(** [page_set_error] with the operation of the binding. *)
Definition binding_error (detail : string) : Error :=
  HostEnvironment (VcpuOperation 0 "two-vCPU two-device transaction registration binding"
    (Custom InvalidData (Message detail))).
(** [require_registration_pair_matches_devices] of
    [src/src/state_snapshot/page_set/two_vcpu_two_device_transaction.rs]. *)
Definition require_registration_pair_matches_devices (pair : HostRegistrationSpecPair) (bars : Z * Z)
    : res Error unit :=
  first ← ok_or (checked_add 64 bars.1 0x100) (binding_error "first device notify address overflowed");
  second ← ok_or (checked_add 64 bars.2 0x100) (binding_error "second device notify address overflowed");
  err_if (negb ((doorbell_address pair.1 =? first) && (doorbell_address pair.2 =? second)))
    (binding_error "registration doorbells do not match device notify addresses");;
  err_if (negb (doorbell_length pair.1 =? 2) || negb (doorbell_datamatch pair.1 =? 0)
          || negb (doorbell_length pair.2 =? 2) || negb (doorbell_datamatch pair.2 =? 0))
    (binding_error "each fixed virtio-blk registration must use a 2-byte datamatch-zero queue notify").
Definition validate_transaction_registration_binding (bars : Z * Z) (pair : HostRegistrationSpecPair)
    : res WE unit :=
  map_err RegistrationBinding (require_registration_pair_matches_devices pair bars).

(** * Version 1 *)
Definition VERSIONED_TWO_VCPU_TWO_DEVICE_TRANSACTION_MAGIC : list Z := [77; 72; 86; 50; 84; 88; 0; 0].
Definition VERSIONED_TWO_VCPU_TWO_DEVICE_TRANSACTION_VERSION : Z := 1.
Definition VERSIONED_TWO_VCPU_TWO_DEVICE_TRANSACTION_ARCH_X86_64 : Z := 1.
Definition TWO_VCPU_TWO_DEVICE_TRANSACTION_HEADER_LEN : Z := 48.
Definition W1_SCHEMA : Schema := {|
  schema_magic := VERSIONED_TWO_VCPU_TWO_DEVICE_TRANSACTION_MAGIC;
  schema_version := VERSIONED_TWO_VCPU_TWO_DEVICE_TRANSACTION_VERSION;
  schema_architecture := VERSIONED_TWO_VCPU_TWO_DEVICE_TRANSACTION_ARCH_X86_64;
  schema_header_len := TWO_VCPU_TWO_DEVICE_TRANSACTION_HEADER_LEN;
  schema_fields := [8; 8; 4; 4]%nat |}.
Record VersionedTwoVcpuTwoDeviceTransactionV1 := {
  w1_checkpoint : WireCheckpoint; w1_registrations : HostRegistrationSpecPair
}.
Definition w1_from_checkpoint_and_pair (checkpoint : LiveCheckpoint) (pair : HostRegistrationSpecPair)
    : res WE VersionedTwoVcpuTwoDeviceTransactionV1 :=
  validate_transaction_registration_binding (two_device_bars checkpoint) pair;;
  checkpoint ← map_err WCheckpoint (d2_from_checkpoint checkpoint);
  mret {| w1_checkpoint := checkpoint; w1_registrations := pair |}.
Definition w1_encode (self : VersionedTwoVcpuTwoDeviceTransactionV1) : res WE (list Z) :=
  pair ← map_err WRegistrationPair (pair_materialize (w1_registrations self));
  validate_transaction_registration_binding (td_device_bars (w1_checkpoint self)) pair;;
  checkpoint ← map_err WCheckpoint (d2_encode (w1_checkpoint self));
  let registrations := pair_encode (w1_registrations self) in
  total_len ← ok_or (length ← checked_add 64 TWO_VCPU_TWO_DEVICE_TRANSACTION_HEADER_LEN (len checkpoint);
                     checked_add 64 length (len registrations)) WLengthOverflow;
  let bytes := envelope W1_SCHEMA total_len [len checkpoint; len registrations; 0; 0]
    ++ checkpoint ++ registrations in
  debug_assert (len bytes =? total_len);;
  mret bytes.
Definition w1_decode (bytes : list Z) : res WE VersionedTwoVcpuTwoDeviceTransactionV1 :=
  declared_total ← check_schema W1_SCHEMA bytes;
  checkpoint_len ← le_field bytes 24 32;
  registration_len ← le_field bytes 32 40;
  flags ← le_field bytes 40 44;
  err_if (negb (flags =? 0)) (WNonZeroFlags flags);;
  reserved ← le_field bytes 44 48;
  err_if (negb (reserved =? 0)) (WNonZeroReserved reserved);;
  checkpoint_len ← ok_or (try_from 64 checkpoint_len) (WInvalidCheckpointLength checkpoint_len);
  err_if (checkpoint_len =? 0) (WInvalidCheckpointLength 0);;
  err_if (negb (registration_len =? VERSIONED_HOST_REGISTRATION_PAIR_LEN))
    (WInvalidRegistrationPairLength registration_len);;
  registration_len ← ok_or (try_from 64 registration_len)
                       (WInvalidRegistrationPairLength registration_len);
  expected_len ← ok_or (length ← checked_add 64 TWO_VCPU_TWO_DEVICE_TRANSACTION_HEADER_LEN checkpoint_len;
                        checked_add 64 length registration_len) WLengthOverflow;
  err_if (negb (expected_len =? len bytes)) (WInvalidTotalLength declared_total expected_len);;
  checkpoint_end ← uadd 64 TWO_VCPU_TWO_DEVICE_TRANSACTION_HEADER_LEN checkpoint_len;
  checkpoint_bytes ← slice bytes TWO_VCPU_TWO_DEVICE_TRANSACTION_HEADER_LEN checkpoint_end;
  checkpoint ← map_err WCheckpoint (d2_decode checkpoint_bytes);
  registration_bytes ← slice bytes checkpoint_end (len bytes);
  registrations ← map_err WRegistrationPair (pair_decode registration_bytes);
  pair ← map_err WRegistrationPair (pair_materialize registrations);
  validate_transaction_registration_binding (td_device_bars checkpoint) pair;;
  mret {| w1_checkpoint := checkpoint; w1_registrations := registrations |}.
Definition w1_materialize (host : HostMsrIndexList) (self : VersionedTwoVcpuTwoDeviceTransactionV1)
    : res WE (LiveCheckpoint * HostRegistrationSpecPair) :=
  checkpoint ← map_err WCheckpoint (d2_materialize host (w1_checkpoint self));
  pair ← map_err WRegistrationPair (pair_materialize (w1_registrations self));
  validate_transaction_registration_binding (two_device_bars checkpoint) pair;;
  mret (checkpoint, pair).

(** * Versions 2 and 3 *)
Definition TWO_VCPU_TWO_DEVICE_TRANSACTION_TOKEN_HEADER_LEN : Z := 56.
Definition PENDING_TOKEN_LEN : Z := 16.
Definition encode_pending_token (token : PendingToken) : list Z :=
  layout [8; 2; 2; 2]%nat
    [token_bar0 token; token_queue token; token_last_avail_idx token; token_last_used_idx token]
  ++ [0; 0].
Definition decode_pending_token (k : TokenKind) (bytes : list Z) : res WE PendingToken :=
  err_if (negb (len bytes =? PENDING_TOKEN_LEN)) (kind_length_error k (len bytes));;
  reserved ← le_field bytes 14 16;
  err_if (negb (reserved =? 0)) (kind_error k (TokenReserved reserved));;
  bar0 ← le_field bytes 0 8;
  queue ← le_field bytes 8 10;
  last_avail_idx ← le_field bytes 10 12;
  last_used_idx ← le_field bytes 12 14;
  map_err (λ error, kind_error k (TokenInvalid error))
    (kind_from_parts k bar0 queue last_avail_idx last_used_idx).
Definition token_schema (k : TokenKind) : Schema := {|
  schema_magic := VERSIONED_TWO_VCPU_TWO_DEVICE_TRANSACTION_MAGIC;
  schema_version := kind_version k;
  schema_architecture := VERSIONED_TWO_VCPU_TWO_DEVICE_TRANSACTION_ARCH_X86_64;
  schema_header_len := TWO_VCPU_TWO_DEVICE_TRANSACTION_TOKEN_HEADER_LEN;
  schema_fields := [8; 8; 8; 4; 4]%nat |}.
(** [VersionedTwoVcpuTwoDeviceTransactionV2] and [V3]. *)
Record TokenTransaction := {
  wt_checkpoint : WireCheckpoint; wt_registrations : HostRegistrationSpecPair;
  wt_token : PendingToken
}.
Definition from_checkpoint_pair_and_pending (k : TokenKind) (checkpoint : LiveCheckpoint)
    (pair : HostRegistrationSpecPair) (token : PendingToken) : res WE TokenTransaction :=
  validate_transaction_registration_binding (two_device_bars checkpoint) pair;;
  checkpoint ← map_err WCheckpoint (from_checkpoint_with_pending k checkpoint token);
  map_err WCheckpoint (validate_pending_token k checkpoint token);;
  mret {| wt_checkpoint := checkpoint; wt_registrations := pair; wt_token := token |}.
Definition wt_encode (k : TokenKind) (self : TokenTransaction) : res WE (list Z) :=
  pair ← map_err WRegistrationPair (pair_materialize (wt_registrations self));
  validate_transaction_registration_binding (td_device_bars (wt_checkpoint self)) pair;;
  map_err WCheckpoint (validate_pending_token k (wt_checkpoint self) (wt_token self));;
  checkpoint ← map_err WCheckpoint (d2_encode (wt_checkpoint self));
  let registrations := pair_encode (wt_registrations self) in
  let token := encode_pending_token (wt_token self) in
  total_len ← ok_or (length ← checked_add 64 TWO_VCPU_TWO_DEVICE_TRANSACTION_TOKEN_HEADER_LEN (len checkpoint);
                     length ← checked_add 64 length (len registrations);
                     checked_add 64 length (len token)) WLengthOverflow;
  let bytes := envelope (token_schema k) total_len [len checkpoint; len registrations; len token; 0; 0]
    ++ checkpoint ++ registrations ++ token in
  debug_assert (len bytes =? total_len);;
  mret bytes.
Definition wt_decode (k : TokenKind) (bytes : list Z) : res WE TokenTransaction :=
  declared_total ← check_schema (token_schema k) bytes;
  checkpoint_len ← le_field bytes 24 32;
  registration_len ← le_field bytes 32 40;
  token_len ← le_field bytes 40 48;
  err_if (negb (token_len =? PENDING_TOKEN_LEN)) (kind_length_error k token_len);;
  flags ← le_field bytes 48 52;
  err_if (negb (flags =? 0)) (WNonZeroFlags flags);;
  reserved ← le_field bytes 52 56;
  err_if (negb (reserved =? 0)) (WNonZeroReserved reserved);;
  checkpoint_len ← ok_or (try_from 64 checkpoint_len) (WInvalidCheckpointLength checkpoint_len);
  err_if (checkpoint_len =? 0) (WInvalidCheckpointLength 0);;
  err_if (negb (registration_len =? VERSIONED_HOST_REGISTRATION_PAIR_LEN))
    (WInvalidRegistrationPairLength registration_len);;
  let registration_len := VERSIONED_HOST_REGISTRATION_PAIR_LEN in
  expected_len ← ok_or (length ← checked_add 64 TWO_VCPU_TWO_DEVICE_TRANSACTION_TOKEN_HEADER_LEN checkpoint_len;
                        length ← checked_add 64 length registration_len;
                        checked_add 64 length PENDING_TOKEN_LEN) WLengthOverflow;
  err_if (negb (expected_len =? len bytes)) (WInvalidTotalLength declared_total expected_len);;
  checkpoint_end ← uadd 64 TWO_VCPU_TWO_DEVICE_TRANSACTION_TOKEN_HEADER_LEN checkpoint_len;
  registrations_end ← uadd 64 checkpoint_end registration_len;
  checkpoint_bytes ← slice bytes TWO_VCPU_TWO_DEVICE_TRANSACTION_TOKEN_HEADER_LEN checkpoint_end;
  checkpoint ← map_err WCheckpoint (d2_decode checkpoint_bytes);
  registration_bytes ← slice bytes checkpoint_end registrations_end;
  registrations ← map_err WRegistrationPair (pair_decode registration_bytes);
  token_bytes ← slice bytes registrations_end (len bytes);
  token ← decode_pending_token k token_bytes;
  pair ← map_err WRegistrationPair (pair_materialize registrations);
  validate_transaction_registration_binding (td_device_bars checkpoint) pair;;
  map_err WCheckpoint (validate_pending_token k checkpoint token);;
  mret {| wt_checkpoint := checkpoint; wt_registrations := registrations; wt_token := token |}.
(** The checkpoint of a version 2 transaction materializes without its token, that of
    version 3 with it. *)
Definition materialize_token_checkpoint (k : TokenKind) (host : HostMsrIndexList) (token : PendingToken)
    (self : WireCheckpoint) : res D2E LiveCheckpoint :=
  if kind_version k =? VERSIONED_TWO_VCPU_TWO_DEVICE_TRANSACTION_V3
  then d2_materialize_with_pending_notification host token self else d2_materialize host self.
Definition wt_materialize (k : TokenKind) (host : HostMsrIndexList) (self : TokenTransaction)
    : res WE (LiveCheckpoint * HostRegistrationSpecPair * PendingToken) :=
  checkpoint ← map_err WCheckpoint
    (materialize_token_checkpoint k host (wt_token self) (wt_checkpoint self));
  pair ← map_err WRegistrationPair (pair_materialize (wt_registrations self));
  validate_transaction_registration_binding (two_device_bars checkpoint) pair;;
  device ← ok_or (two_device checkpoint (token_bar0 (wt_token self)))
    (kind_error k (TokenBarDisappeared (token_bar0 (wt_token self))));
  map_err (λ error, kind_error k (TokenInvalid error))
    (kind_validate_device k (wt_token self) device);;
  mret (checkpoint, pair, wt_token self).

(** The two versions by name. *)
Definition from_checkpoint_pair_and_pending_completion := from_checkpoint_pair_and_pending completion.
Definition transaction_v2_encode := wt_encode completion.
Definition transaction_v2_decode := wt_decode completion.
Definition transaction_v2_materialize := wt_materialize completion.
Definition from_checkpoint_pair_and_pending_notification := from_checkpoint_pair_and_pending notification.
Definition transaction_v3_encode := wt_encode notification.
Definition transaction_v3_decode := wt_decode notification.
Definition transaction_v3_materialize := wt_materialize notification.

(** * Laws *)
#[export] Instance d2_codec_laws : CodecLaws D2E VersionedTwoVcpuTwoDeviceCheckpointV1.
Proof.
  refine (td_laws (C:=VersionedTwoVcpuFullControllerCheckpointV1) (E:=D2E) _ _); [|done]. split; [done|].
  apply (to_le_bytes_ok 8 (from_le_bytes VERSIONED_TWO_VCPU_TWO_DEVICE_CHECKPOINT_MAGIC)).
Qed.

(** The registrations are for the notification registers of the two devices, in order. *)
Definition binding_wf (bars : Z * Z) (pair : HostRegistrationSpecPair) : Prop :=
  doorbell_address pair.1 = bars.1 + 0x100 ∧ doorbell_address pair.2 = bars.2 + 0x100 ∧
  doorbell_length pair.1 = 2 ∧ doorbell_length pair.2 = 2 ∧
  doorbell_datamatch pair.1 = 0 ∧ doorbell_datamatch pair.2 = 0.
Lemma binding_Ok bars pair u :
  u64 (doorbell_address pair.1) → u64 (doorbell_address pair.2) → 0 ≤ bars.1 → 0 ≤ bars.2 →
  validate_transaction_registration_binding bars pair = Ok u ↔ binding_wf bars pair.
Proof.
  intros H1 H2 Hb1 Hb2. unfold validate_transaction_registration_binding, binding_wf.
  unfold require_registration_pair_matches_devices. destruct u. split.
  - intros H. apply map_err_Ok_inv in H. bind_inv H. arith_inv. lia.
  - intros (Ha1&Ha2&->&->&->&->). unfold checked_add. zcmp. cbn [ok_or mbind res_bind]. by rewrite Ha1, Ha2, !Z.eqb_refl.
Qed.
Lemma binding_no_panic bars pair : no_panic (validate_transaction_registration_binding bars pair).
Proof.
  unfold validate_transaction_registration_binding, require_registration_pair_matches_devices.
  apply no_panic_map_err. np.
Qed.

(** What [validate_pending_token] and the parts of a token are for either kind. *)
Definition token_typed (t : PendingToken) : Prop :=
  u64 (token_bar0 t) ∧ u16 (token_queue t) ∧ u16 (token_last_avail_idx t) ∧ u16 (token_last_used_idx t).
Definition token_wf (k : TokenKind) (t : PendingToken) : Prop :=
  token_typed t ∧
  kind_from_parts k (token_bar0 t) (token_queue t) (token_last_avail_idx t) (token_last_used_idx t) = Ok t.
Class TokenKindLaws (k : TokenKind) : Prop := {
  kind_version_ok : u16 (kind_version k);
  kind_parts_Ok b q a u t : kind_from_parts k b q a u = Ok t → t = mkToken b q a u;
  kind_parts_safe b q a u : no_panic (kind_from_parts k b q a u);
  kind_validate_safe t s : no_panic (kind_validate_state k t s)
}.
#[export] Instance completion_laws : TokenKindLaws completion.
Proof.
  split; [done|..]; cbn; unfold completion_from_parts, completion_validate_state; intros; [|np..].
  match goal with H : _ = Ok _ |- _ => by bind_inv H end.
Qed.
#[export] Instance notification_laws : TokenKindLaws notification.
Proof.
  split; [done|..]; cbn; unfold notification_from_parts, notification_validate_state; intros; [|np..].
  match goal with H : _ = Ok _ |- _ => by bind_inv H end.
Qed.

Section tokens.
Context (k : TokenKind) `{!TokenKindLaws k}.
Lemma validate_pending_token_safe c t : no_panic (validate_pending_token k c t).
Proof.
  unfold validate_pending_token. apply no_panic_bind; [by repeat case_match|].
  intros s _. apply no_panic_map_err, kind_validate_safe.
Qed.
Lemma token_fields_ok t :
  token_typed t → layout_ok [8; 2; 2; 2; 2]%nat
    [token_bar0 t; token_queue t; token_last_avail_idx t; token_last_used_idx t; 0].
Proof. intros (?&?&?&?). layout_widths. Qed.
Lemma encode_token_layout t :
  encode_pending_token t = layout [8; 2; 2; 2; 2]%nat
    [token_bar0 t; token_queue t; token_last_avail_idx t; token_last_used_idx t; 0] ++ [].
Proof. done. Qed.
Lemma len_token t : token_typed t → len (encode_pending_token t) = PENDING_TOKEN_LEN.
Proof.
  intros H. by rewrite encode_token_layout, len_app, (len_layout _ _ (token_fields_ok t H)).
Qed.
Lemma bytes_ok_token t : bytes_ok (encode_pending_token t).
Proof. rewrite encode_token_layout, app_nil_r. auto with bytes. Qed.
(** The format of a token is canonical. *)
Lemma decode_pending_token_Ok bytes t :
  bytes_ok bytes → decode_pending_token k bytes = Ok t ↔ token_wf k t ∧ bytes = encode_pending_token t.
Proof.
  intros Hb. split.
  - intros H. unfold decode_pending_token in H. bind_inv_one H. res_simplify.
    destruct (layout_split [8; 2; 2; 2; 2]%nat bytes Hb) as (vs&rest&Hok&->);
      [change PENDING_TOKEN_LEN with 16 in *; cbn; lia|].
    rewrite len_app, (len_layout _ _ Hok) in Hstep. change PENDING_TOKEN_LEN with 16 in Hstep.
    assert (rest = []) as -> by (apply nil_length_inv; cbn in Hstep; unfold len in Hstep; lia).
    pose proof Hok as Hvars. layout_vars Hvars. bind_inv H. layout_reads Hok. subst.
    pose proof (kind_parts_Ok _ _ _ _ _ H) as ->. by split_and!.
  - intros [[Ht Hp] ->]. unfold decode_pending_token. rewrite len_token by done.
    pose proof (token_fields_ok t Ht) as Hok. rewrite encode_token_layout. layout_reads Hok.
    decode_steps. by rewrite Hp.
Qed.
Lemma decode_pending_token_safe bytes : no_panic (decode_pending_token k bytes).
Proof.
  unfold decode_pending_token. apply no_panic_bind; [np_leaf|]. intros [] H. res_simplify.
  change PENDING_TOKEN_LEN with 16 in H. np. apply no_panic_map_err, kind_parts_safe.
Qed.
End tokens.

(** ** The transactions

    A value is well-formed when its parts are, its registrations are bound to its devices
    and its token, if it has one, is of one of them. *)
Definition w1_wf (t : VersionedTwoVcpuTwoDeviceTransactionV1) : Prop :=
  td_wf (w1_checkpoint t) ∧ pair_wf (w1_registrations t) ∧
  validate_transaction_registration_binding (td_device_bars (w1_checkpoint t)) (w1_registrations t) = Ok tt.
Definition wt_wf (k : TokenKind) (t : TokenTransaction) : Prop :=
  td_wf (wt_checkpoint t) ∧ pair_wf (wt_registrations t) ∧
  validate_transaction_registration_binding (td_device_bars (wt_checkpoint t)) (wt_registrations t) = Ok tt ∧
  token_wf k (wt_token t) ∧ validate_pending_token k (wt_checkpoint t) (wt_token t) = Ok tt.
Definition w1_values (ss : list (list Z)) : list Z := (len <$> ss) ++ [0; 0].
Definition w1_shape (ss : list (list Z)) : Prop :=
  ∃ c r, ss = [c; r] ∧ 1 ≤ len c ∧ len r = VERSIONED_HOST_REGISTRATION_PAIR_LEN.
Definition wt_shape (ss : list (list Z)) : Prop :=
  ∃ c r t, ss = [c; r; t] ∧ 1 ≤ len c ∧ len r = VERSIONED_HOST_REGISTRATION_PAIR_LEN ∧
    len t = PENDING_TOKEN_LEN.
Definition w1_body (ss : list (list Z)) : res WE VersionedTwoVcpuTwoDeviceTransactionV1 :=
  match ss with
  | [c; r] =>
      checkpoint ← map_err WCheckpoint (d2_decode c);
      registrations ← map_err WRegistrationPair (pair_decode r);
      pair ← map_err WRegistrationPair (pair_materialize registrations);
      validate_transaction_registration_binding (td_device_bars checkpoint) pair;;
      mret {| w1_checkpoint := checkpoint; w1_registrations := registrations |}
  | _ => Panic
  end.
Definition wt_body (k : TokenKind) (ss : list (list Z)) : res WE TokenTransaction :=
  match ss with
  | [c; r; t] =>
      checkpoint ← map_err WCheckpoint (d2_decode c);
      registrations ← map_err WRegistrationPair (pair_decode r);
      token ← decode_pending_token k t;
      pair ← map_err WRegistrationPair (pair_materialize registrations);
      validate_transaction_registration_binding (td_device_bars checkpoint) pair;;
      map_err WCheckpoint (validate_pending_token k checkpoint token);;
      mret {| wt_checkpoint := checkpoint; wt_registrations := registrations; wt_token := token |}
  | _ => Panic
  end.
Definition w1_sections (t : VersionedTwoVcpuTwoDeviceTransactionV1) (ss : list (list Z)) : Prop :=
  ∃ bs, ss = [bs; pair_encode (w1_registrations t)] ∧ d2_encode (w1_checkpoint t) = Ok bs.
Definition wt_sections (t : TokenTransaction) (ss : list (list Z)) : Prop :=
  ∃ bs, ss = [bs; pair_encode (wt_registrations t); encode_pending_token (wt_token t)] ∧
    d2_encode (wt_checkpoint t) = Ok bs.
Ltac w_consts :=
  change (schema_header_len W1_SCHEMA) with 48 in *;
  change (schema_header_len (token_schema _)) with 56 in *;
  change TWO_VCPU_TWO_DEVICE_TRANSACTION_HEADER_LEN with 48 in *;
  change TWO_VCPU_TWO_DEVICE_TRANSACTION_TOKEN_HEADER_LEN with 56 in *;
  change VERSIONED_HOST_REGISTRATION_PAIR_LEN with 128 in *;
  change PENDING_TOKEN_LEN with 16 in *.
Lemma w_magic_ok : bytes_ok VERSIONED_TWO_VCPU_TWO_DEVICE_TRANSACTION_MAGIC.
Proof. apply (to_le_bytes_ok 8 (from_le_bytes VERSIONED_TWO_VCPU_TWO_DEVICE_TRANSACTION_MAGIC)). Qed.
Lemma pair_decode_wf bs p :
  bytes_ok bs → pair_decode bs = Ok p → pair_wf p ∧ len (pair_encode p) = len bs.
Proof. intros Hb H. by apply pair_decode_Ok in H as [? ->]. Qed.

#[local] Hint Resolve bytes_ok_pair_encode bytes_ok_token : bytes.
Ltac sections_ok := unfold id; repeat (apply Forall_cons_2; [by auto with bytes|]); apply Forall_nil_2.

(** *** Version 1 *)
Lemma w1_schema_wf : schema_wf W1_SCHEMA.
Proof. unfold schema_wf. split_and!; try done. apply w_magic_ok. Qed.
Lemma w1_values_ok ss : framed W1_SCHEMA id w1_shape ss → layout_ok (schema_fields W1_SCHEMA) (w1_values ss).
Proof.
  intros [(c&r&->&Hc&Hr) Hu]. cbn in Hu. rewrite app_nil_r, len_app in Hu. w_consts. cbn. layout_widths.
Qed.
Lemma w1_decode_frame ss :
  framed W1_SCHEMA id w1_shape ss → w1_decode (frame W1_SCHEMA id w1_values ss) = w1_body ss.
Proof.
  intros Hf. unfold w1_decode. frame_checks w1_schema_wf w1_values_ok Hf.
  destruct Hf as [(c&r&->&Hc&Hr) Hu]. unfold w1_values in *. cbn [fmap list_fmap app] in *.
  frame_fields w1_schema_wf Hu Hok. w_consts. frame_lengths.
  rewrite uadd_ok by ulia. decode_steps. read_section hdr c r. cbn [w1_body].
  destruct (d2_decode c); [|done..]. decode_steps. read_section (hdr ++ c) r (@nil Z). done.
Qed.
Lemma w1_decode_cases bs :
  bytes_ok bs → usize (len bs) →
  (∃ e, w1_decode bs = Err e) ∨ ∃ ss, framed W1_SCHEMA id w1_shape ss ∧ bs = frame W1_SCHEMA id w1_values ss.
Proof.
  intros Hb Hu. unfold w1_decode. frame_cases w1_schema_wf Hb Hu. right. w_consts.
  frame_sections rest [v; 128] (λ ss : list (list Z), ss); [do 2 eexists; split_and!; [done|ulia|done]|].
  unfold frame, w1_values. cbn [id fmap list_fmap app]. w_consts. congruence.
Qed.
Lemma w1_encode_frame t ss :
  w1_wf t → framed W1_SCHEMA id w1_shape ss → w1_sections t ss →
  w1_encode t = Ok (frame W1_SCHEMA id w1_values ss).
Proof.
  intros (_&Hp&Hbind) Hf (bs&->&Hc). pose proof (len_frame _ _ _ _ w1_schema_wf w1_values_ok _ Hf) as Hlen.
  destruct Hf as [_ Hu]. unfold w1_encode. rewrite pair_materialize_ok by done. decode_steps.
  rewrite Hbind, Hc. unfold frame, w1_values in *.
  set (rs := pair_encode _) in *. clearbody rs.
  cbn [id fmap list_fmap app concat] in *. rewrite app_nil_r in *. autorewrite with bytes in Hu.
  w_consts. decode_steps. pose proof (len_nonneg bs). pose proof (len_nonneg rs). frame_lengths.
  replace (48 + len bs + len rs) with (48 + len (bs ++ rs)) by (rewrite len_app; lia).
  rewrite Hlen. by decode_steps.
Qed.
#[export] Instance w1_codec : Codec WE VersionedTwoVcpuTwoDeviceTransactionV1 := {|
  codec_encode := w1_encode; codec_decode := w1_decode; codec_wf := w1_wf; codec_max := 53000 |}.
#[export] Instance w1_codec_laws : CodecLaws WE VersionedTwoVcpuTwoDeviceTransactionV1.
Proof.
  apply (framed_laws (Codec0:=w1_codec) _ id w1_values w1_shape w1_schema_wf w1_values_ok w1_body
    w1_sections w1_decode_frame w1_decode_cases w1_encode_frame); [done|..].
  - intros t (Hc&Hr&Hbind). destruct (codec_complete (w1_checkpoint t)) as (bs&He&Hb&Hl&Hdec); [done|].
    cbn [codec_encode codec_decode codec_max d2_codec] in *. pose proof (len_pair_encode _ Hr) as Hpl.
    exists [bs; pair_encode (w1_registrations t)].
    split_and!; [|by eexists|sections_ok| |].
    + do 2 eexists. split_and!; [done|lia|done].
    + cbn [id concat codec_max w1_codec]. rewrite app_nil_r, len_app. w_consts. lia.
    + cbn [w1_body]. rewrite Hdec, (proj2 (pair_decode_Ok _ _ (bytes_ok_pair_encode _)) (conj Hr eq_refl)).
      decode_steps. rewrite pair_materialize_ok by done. decode_steps. rewrite Hbind. by destruct t.
  - intros ss [(c&r&->&Hc&Hr) Hu] Hb. apply Forall_cons in Hb as [Hcb [Hrb _]%Forall_cons]. cbn in Hu |- *.
    rewrite app_nil_r, len_app in Hu. w_consts. pose proof (len_nonneg r).
    apply no_panic_bind; [apply no_panic_map_err, (codec_safe (CodecLaws:=d2_codec_laws)); [done|ulia]|].
    intros ? _. apply no_panic_bind;
      [apply no_panic_map_err, (codec_safe (CodecLaws:=pair_codec_laws)); [done|ulia]|].
    intros p [Hp _]%map_err_Ok_inv%pair_decode_wf; [|done]. rewrite pair_materialize_ok by done. cbn [map_err mbind res_bind].
    apply no_panic_bind; [apply binding_no_panic|done].
  - intros ss t [(c&r&->&Hc&Hr) Hu] Hb Hbody. apply Forall_cons in Hb as [Hcb [Hrb _]%Forall_cons].
    cbn in Hu, Hbody. rewrite app_nil_r, len_app in Hu. w_consts. bind_inv Hbody.
    destruct (codec_accepts c a) as (Hwf&Hl&bs&He&Hbl); [done|ulia|done|].
    apply pair_decode_wf in Hstep0 as [Hp Hpl]; [|done].
    rewrite pair_materialize_ok in Hstep1 by done. injection Hstep1 as <-.
    split; [by split_and!|]. exists [bs; pair_encode a0]. split_and!; [|by eexists|].
    + do 2 eexists. split_and!; [done|lia|w_consts; lia].
    + cbn [id concat]. rewrite !app_nil_r, !len_app. lia.
Qed.

(** *** Versions 2 and 3 *)
Section token_transactions.
Context (k : TokenKind) `{!TokenKindLaws k}.
Lemma wt_schema_wf : schema_wf (token_schema k).
Proof. unfold schema_wf. split_and!; try done; [apply w_magic_ok|apply kind_version_ok]. Qed.
Lemma wt_values_ok ss :
  framed (token_schema k) id wt_shape ss → layout_ok (schema_fields (token_schema k)) (w1_values ss).
Proof.
  intros [(c&r&t&->&Hc&Hr&Ht) Hu]. cbn in Hu. rewrite app_nil_r, !len_app in Hu. w_consts. cbn. layout_widths.
Qed.
Lemma wt_decode_frame ss :
  framed (token_schema k) id wt_shape ss → wt_decode k (frame (token_schema k) id w1_values ss) = wt_body k ss.
Proof.
  intros Hf. unfold wt_decode. frame_checks wt_schema_wf wt_values_ok Hf.
  destruct Hf as [(c&r&t&->&Hc&Hr&Ht) Hu]. unfold w1_values in *. cbn [fmap list_fmap app] in *.
  frame_fields wt_schema_wf Hu Hok. w_consts. frame_lengths.
  do 2 (rewrite uadd_ok by ulia; decode_steps). read_section hdr c (r ++ t). cbn [wt_body].
  destruct (d2_decode c); [|done..]. decode_steps. read_section (hdr ++ c) r t.
  destruct (pair_decode r); [|done..]. decode_steps. read_section (hdr ++ c ++ r) t (@nil Z). done.
Qed.
Lemma wt_decode_cases bs :
  bytes_ok bs → usize (len bs) →
  (∃ e, wt_decode k bs = Err e) ∨
  ∃ ss, framed (token_schema k) id wt_shape ss ∧ bs = frame (token_schema k) id w1_values ss.
Proof.
  intros Hb Hu. unfold wt_decode. frame_cases wt_schema_wf Hb Hu. right. w_consts.
  frame_sections rest [v; 128; 16] (λ ss : list (list Z), ss); [do 3 eexists; split_and!; [done|ulia|done|done]|].
  unfold frame, w1_values. cbn [id fmap list_fmap app]. w_consts. congruence.
Qed.
Lemma wt_encode_frame t ss :
  wt_wf k t → framed (token_schema k) id wt_shape ss → wt_sections t ss →
  wt_encode k t = Ok (frame (token_schema k) id w1_values ss).
Proof.
  intros (_&Hp&Hbind&_&Hv) Hf (bs&->&Hc).
  pose proof (len_frame _ _ _ _ wt_schema_wf wt_values_ok _ Hf) as Hlen.
  destruct Hf as [_ Hu]. unfold wt_encode. rewrite pair_materialize_ok by done. decode_steps.
  rewrite Hbind, Hv, Hc. unfold frame, w1_values in *.
  set (rs := pair_encode _) in *. set (ts := encode_pending_token _) in *. clearbody rs ts.
  cbn [id fmap list_fmap app concat] in *. rewrite app_nil_r in *. autorewrite with bytes in Hu.
  w_consts. decode_steps. pose proof (len_nonneg bs). pose proof (len_nonneg rs). pose proof (len_nonneg ts).
  frame_lengths.
  replace (56 + len bs + len rs + len ts) with (56 + len (bs ++ rs ++ ts)) by (rewrite !len_app; lia).
  rewrite Hlen. by decode_steps.
Qed.
Definition wt_codec : Codec WE TokenTransaction := {|
  codec_encode := wt_encode k; codec_decode := wt_decode k; codec_wf := wt_wf k; codec_max := 53000 |}.
Lemma wt_body_complete t :
  wt_wf k t → ∃ ss, wt_shape ss ∧ wt_sections t ss ∧ Forall bytes_ok (id ss) ∧
    schema_header_len (token_schema k) + len (concat (id ss)) ≤ 53000 ∧ wt_body k ss = Ok t.
Proof.
  intros (Hc&Hr&Hbind&Ht&Hv). destruct (codec_complete (wt_checkpoint t)) as (bs&He&Hb&Hl&Hdec); [done|].
  cbn [codec_encode codec_decode codec_max d2_codec] in *. pose proof (len_pair_encode _ Hr) as Hpl.
  pose proof (len_token _ (proj1 Ht)) as Htl.
  exists [bs; pair_encode (wt_registrations t); encode_pending_token (wt_token t)].
  split_and!; [|by eexists|sections_ok| |].
  - do 3 eexists. split_and!; [done|lia|done|done].
  - cbn [id concat]. rewrite app_nil_r, !len_app. w_consts. lia.
  - cbn [wt_body]. rewrite Hdec, (proj2 (pair_decode_Ok _ _ (bytes_ok_pair_encode _)) (conj Hr eq_refl)).
    decode_steps. rewrite (proj2 (decode_pending_token_Ok k _ _ (bytes_ok_token _)) (conj Ht eq_refl)).
    decode_steps. rewrite pair_materialize_ok by done. decode_steps. rewrite Hbind, Hv. by destruct t.
Qed.
Lemma wt_body_safe ss :
  framed (token_schema k) id wt_shape ss → Forall bytes_ok (id ss) → no_panic (wt_body k ss).
Proof.
  intros [(c&r&t&->&Hc&Hr&Ht) Hu] Hb. apply Forall_cons in Hb as [Hcb [Hrb [Htb _]%Forall_cons]%Forall_cons].
  cbn in Hu |- *. rewrite app_nil_r, !len_app in Hu. w_consts.
  apply no_panic_bind; [apply no_panic_map_err, (codec_safe (CodecLaws:=d2_codec_laws)); [done|ulia]|].
  intros ? _. apply no_panic_bind;
    [apply no_panic_map_err, (codec_safe (CodecLaws:=pair_codec_laws)); [done|ulia]|].
  intros p [Hp _]%map_err_Ok_inv%pair_decode_wf; [|done].
  apply no_panic_bind; [by apply decode_pending_token_safe|intros ? _].
  rewrite pair_materialize_ok by done. cbn [map_err mbind res_bind].
  apply no_panic_bind; [apply binding_no_panic|intros ? _].
  apply no_panic_bind; [by apply no_panic_map_err, validate_pending_token_safe|done].
Qed.
Lemma wt_body_sound ss t :
  framed (token_schema k) id wt_shape ss → Forall bytes_ok (id ss) → wt_body k ss = Ok t →
  wt_wf k t ∧ ∃ ss', wt_shape ss' ∧ wt_sections t ss' ∧ len (concat (id ss')) = len (concat (id ss)).
Proof.
  intros [(c&r&b&->&Hc&Hr&Ht) Hu] Hb Hbody.
  apply Forall_cons in Hb as [Hcb [Hrb [Htb _]%Forall_cons]%Forall_cons].
  cbn in Hu, Hbody. rewrite app_nil_r, !len_app in Hu. w_consts. bind_inv Hbody.
  destruct (codec_accepts c a) as (Hwf&Hl&bs&He&Hbl); [done|ulia|done|].
  apply pair_decode_wf in Hstep0 as [Hp Hpl]; [|done].
  apply decode_pending_token_Ok in Hstep1 as [Htwf ->]; [|done..].
  rewrite pair_materialize_ok in Hstep2 by done. injection Hstep2 as <-.
  split; [by split_and!|]. exists [bs; pair_encode a0; encode_pending_token a1]. split_and!; [|by eexists|].
  - do 3 eexists. split_and!; [done|lia|w_consts; lia|done].
  - cbn [id concat]. rewrite !app_nil_r, !len_app. lia.
Qed.
Lemma wt_codec_laws : CodecLaws (Codec0:=wt_codec) WE TokenTransaction.
Proof.
  apply (framed_laws (Codec0:=wt_codec) _ id w1_values wt_shape wt_schema_wf wt_values_ok (wt_body k)
    wt_sections wt_decode_frame wt_decode_cases wt_encode_frame); [done|..].
  - apply wt_body_complete.
  - apply wt_body_safe.
  - apply wt_body_sound.
Qed.
End token_transactions.
