(* ===== verification/Portable.v ===== *)
(** Live checkpoints and their portable forms.  Every checkpoint type has a constructor
    of its portable form and a materialization on a host; the two formats around them are
    proved in the schema files.  Here their composition is: a live checkpoint is written to
    bytes, read back and materialized as a checkpoint that is equivalent, the same but for
    the order in which MSR values are listed.

    [Portable] is the interface of a checkpoint type to its portable form, and
    [PortableLaws] what the formats that nest it rely on. *)

From stdpp Require Import sorting.
From S2P Require Import Errors LongMode VirtioCommon VirtioBlk BlkCheckpoint Msr VcpuState Prelude SchemaV1.
From S2P Require Import PageCheckpoint Envelope Irqchip HostRegistration VcpuStateSchema.
From S2P Require Import ControllerSchema DeviceSchema TwoDeviceSchema TransactionSchema.
From S2P Require Import TwoVcpuSchema TwoVcpuTransaction.

(** * Equivalence of live states *)
#[export] Instance vcpu_state_equiv : Equiv VcpuStateSnapshot := λ a b,
  registers a = registers b ∧ special_registers a = special_registers b ∧
  snapshot_values (msrs a) ≡ₚ snapshot_values (msrs b).
#[export] Instance page_set_equiv : Equiv BoundedVcpuPageSetCheckpoint := λ a b,
  set_pages a = set_pages b ∧ set_vcpu a ≡ set_vcpu b.
#[export] Instance full_controller_equiv : Equiv BoundedFullControllerCheckpoint := λ a b,
  base_guest (full_base a) ≡ base_guest (full_base b) ∧
  base_master_pic (full_base a) = base_master_pic (full_base b) ∧
  base_lapic (full_base a) = base_lapic (full_base b) ∧
  full_slave_pic a = full_slave_pic b ∧ full_ioapic a = full_ioapic b.
#[export] Instance two_vcpu_equiv : Equiv BoundedTwoVcpuFullControllerCheckpoint := λ a b,
  vcpu_ids (v2_base a) = vcpu_ids (v2_base b) ∧ primary (v2_base a) ≡ primary (v2_base b) ∧
  secondary (v2_base a) ≡ secondary (v2_base b) ∧ v2_master_pic a = v2_master_pic b ∧
  v2_slave_pic a = v2_slave_pic b ∧ v2_ioapic a = v2_ioapic b ∧ v2_lapics a = v2_lapics b ∧
  v2_mp_states a = v2_mp_states b.
#[export] Instance one_device_equiv : Equiv BoundedFullControllerVirtioBlkCheckpoint := λ a b,
  one_controller a ≡ one_controller b ∧ one_bar0 a = one_bar0 b ∧ one_device a = one_device b.
#[export] Instance two_device_equiv `{!Equiv L} : Equiv (TwoDeviceCheckpoint L) := λ a b,
  two_controller a ≡ two_controller b ∧ two_devices a = two_devices b.

(** Each is a conjunction of equivalences. *)
Ltac conjuncts H := hnf in H; destruct_and? H.
Ltac equivalence :=
  split; [by intros ?|intros ?? H; conjuncts H|intros ??? H1 H2; conjuncts H1; conjuncts H2];
  split_and!; first [by etrans|by symmetry].
#[export] Instance vcpu_state_equivalence : Equivalence (≡@{VcpuStateSnapshot}).
Proof. equivalence. Qed.
#[export] Instance page_set_equivalence : Equivalence (≡@{BoundedVcpuPageSetCheckpoint}).
Proof. equivalence. Qed.
#[export] Instance full_controller_equivalence : Equivalence (≡@{BoundedFullControllerCheckpoint}).
Proof. equivalence. Qed.
#[export] Instance two_vcpu_equivalence : Equivalence (≡@{BoundedTwoVcpuFullControllerCheckpoint}).
Proof. equivalence. Qed.
#[export] Instance one_device_equivalence : Equivalence (≡@{BoundedFullControllerVirtioBlkCheckpoint}).
Proof. equivalence. Qed.
#[export] Instance two_device_equivalence `{!Equiv L, !Equivalence (≡@{L})} :
  Equivalence (≡@{TwoDeviceCheckpoint L}).
Proof. equivalence. Qed.

(** * The interface *)

(** [live_ok host l]: [l] is a checkpoint with a portable form, and [host] has its MSRs. *)
Class Portable (N L C : Type) := {
  from_live : L → res N C;
  to_live : HostMsrIndexList → C → res N L;
  live_ok : HostMsrIndexList → L → Prop
}.
Class PortableLaws (N L C : Type) `{!Codec N C, !Equiv L, !Portable N L C} : Prop := {
  portable_ok host (l : L) : live_ok host l → ∃ (c : C) (l' : L),
    from_live l = Ok c ∧ codec_wf c ∧ to_live host c = Ok l' ∧ l' ≡ l;
  portable_proper host (l l' : L) : live_ok host l → live_ok host l' → l ≡ l' →
    from_live (C:=C) l = from_live l'
}.
(** The composition with the format. *)
Lemma portable_bytes {N L C} `{!Codec N C, !CodecLaws N C, !Equiv L, !Portable N L C, !PortableLaws N L C}
    host (l : L) :
  live_ok host l → ∃ (c : C) bs l', from_live l = Ok c ∧ codec_encode c = Ok bs ∧
    codec_decode bs = Ok c ∧ to_live host c = Ok l' ∧ l' ≡ l.
Proof.
  intros Hl. destruct (portable_ok host l Hl) as (c&l'&Hf&Hwf&Ht&Heq).
  destruct (codec_complete c Hwf) as (bs&He&_&_&Hd). by exists c, bs, l'.
Qed.

(** * vCPU states and page sets *)
Definition msrs_on (host : HostMsrIndexList) (s : VcpuStateSnapshot) : Prop :=
  (snapshot_values (msrs s)).*1 ⊆ host_indices host.
Lemma strict_perm_unique (l k : list (Z * Z)) :
  StronglySorted Z.lt l.*1 → StronglySorted Z.lt k.*1 → l ≡ₚ k → l = k.
Proof.
  assert (∀ m : list (Z * Z), StronglySorted Z.lt m.*1 → StronglySorted (λ a b, a.1 < b.1) m) as Hm.
  { induction m as [|x m IH]; rewrite ?fmap_cons; intros H; [constructor|].
    apply StronglySorted_inv in H as [H Hx]. constructor; [auto|]. exact (proj1 (Forall_fmap fst (Z.lt x.1) m) Hx). }
  intros Hl Hk Hp. apply (StronglySorted_unique_strong (λ a b : Z * Z, a.1 < b.1)); auto. intros. lia.
Qed.
Lemma sort_perm_eq l k :
  NoDup l.*1 → NoDup k.*1 → l ≡ₚ k → sort_by_index l = sort_by_index k.
Proof.
  intros Hl Hk Hp. apply strict_perm_unique; [by apply sort_by_index_sorted..|].
  by rewrite !sort_by_index_perm.
Qed.
Lemma perm_sort_sub host l : l.*1 ⊆ host → (sort_by_index l).*1 ⊆ host.
Proof. intros H i Hi. apply H. by rewrite sort_by_index_perm in Hi. Qed.

#[export] Instance vcpu_portable :
    Portable VersionedVcpuStateSnapshotError VcpuStateSnapshot VersionedVcpuStateSnapshotV1 := {|
  from_live := from_snapshot; to_live := vs_materialize;
  live_ok host s := vs_live_wf s ∧ msrs_on host s |}.
#[export] Instance vcpu_portable_laws :
  PortableLaws VersionedVcpuStateSnapshotError VcpuStateSnapshot VersionedVcpuStateSnapshotV1.
Proof.
  split; cbn.
  - intros host s [Hl Hs]. destruct (from_snapshot_ok s Hl) as (v&Hf&Hwf&Hr&Hsr&Hm).
    destruct (vs_materialize_ok host v Hwf) as (s'&Hs'&Hr'&Hsr'&Hm'&_); [rewrite Hm; by apply perm_sort_sub|].
    exists v, s'. split_and!; try done. split_and!; [congruence..|].
    rewrite Hm', Hm. apply sort_by_index_perm.
  - intros host l l' [Hl _] [Hl' _] (Hr&Hs&Hm).
    destruct (from_snapshot_ok l Hl) as (v&->&_&Hr1&Hs1&Hm1).
    destruct (from_snapshot_ok l' Hl') as (v'&->&_&Hr2&Hs2&Hm2). f_equal.
    rewrite (sort_perm_eq _ (snapshot_values (msrs l'))) in Hm1 by (apply Hl || apply Hl' || done).
    destruct v, v'; cbn in *. congruence.
Qed.
#[export] Instance page_set_portable :
    Portable SchemaError BoundedVcpuPageSetCheckpoint VersionedPageVcpuCheckpointV1 := {|
  from_live := from_checkpoint; to_live := materialize_checkpoint;
  live_ok host c := live_wf c ∧ msrs_on host (set_vcpu c) |}.
#[export] Instance page_set_portable_laws :
  PortableLaws SchemaError BoundedVcpuPageSetCheckpoint VersionedPageVcpuCheckpointV1.
Proof.
  split; cbn.
  - intros host c [Hl Hs]. destruct (from_checkpoint_ok c Hl) as (k&Hf&Hwf&Hp&Hr&Hsr&Hm).
    destruct (materialize_checkpoint_ok host k Hwf) as (c'&Hc'&Hp'&Hr'&Hsr'&Hm'&_);
      [rewrite Hm; by apply perm_sort_sub|].
    exists k, c'. split_and!; try done. split; [congruence|]. split_and!; [congruence..|].
    rewrite Hm', Hm. apply sort_by_index_perm.
  - intros host l l' [Hl _] [Hl' _] (Hp&Hr&Hs&Hm).
    destruct (from_checkpoint_ok l Hl) as (v&->&_&Hp1&Hr1&Hs1&Hm1).
    destruct (from_checkpoint_ok l' Hl') as (v'&->&_&Hp2&Hr2&Hs2&Hm2). f_equal.
    rewrite (sort_perm_eq _ (snapshot_values (msrs (set_vcpu l')))) in Hm1
      by (apply Hl || apply Hl' || done).
    destruct v, v'; cbn in *. congruence.
Qed.

(** * Controllers *)
Definition full_controller_ok (host : HostMsrIndexList) (c : BoundedFullControllerCheckpoint) : Prop :=
  live_ok (Portable:=page_set_portable) host (base_guest (full_base c)) ∧ pic_wf (base_master_pic (full_base c)) ∧
  lapic_wf (base_lapic (full_base c)) ∧ pic_wf (full_slave_pic c) ∧ ioapic_wf (full_ioapic c) ∧
  ioapic_pad (full_ioapic c) = 0.
#[export] Instance full_controller_portable :
    Portable FCE BoundedFullControllerCheckpoint VersionedFullControllerCheckpointV1 := {|
  from_live := fc_from_checkpoint; to_live := fc_materialize; live_ok := full_controller_ok |}.
#[export] Instance full_controller_portable_laws :
  PortableLaws FCE BoundedFullControllerCheckpoint VersionedFullControllerCheckpointV1.
Proof.
  split; cbn.
  - intros host c (Hg&Hm&Hl&Hs&Hio&Hpad). destruct (portable_ok host _ Hg) as (g&g'&Hf&Hwf&Ht&Heq).
    cbn in Hf, Ht. unfold fc_from_checkpoint, fc_materialize. rewrite Hf, Hpad. decode_steps.
    eexists _, _. split_and!; [done|by split_and!| |].
    + cbn [fc_guest fc_ioapic]. rewrite Ht, Hpad. by decode_steps.
    + by split_and!.
  - intros host l l' (Hg&_) (Hg'&_) (Heq&H1&H2&H3&H4). unfold fc_from_checkpoint.
    pose proof (portable_proper host _ _ Hg Hg' Heq) as Hf. cbn in Hf. rewrite Hf. by rewrite H1, H2, H3, H4.
Qed.
Lemma validate_ids ids mps :
  ids_wf ids mps → validate_vcpu_ids ids = Ok tt ∧ validate_mp_states ids mps = Ok tt.
Proof.
  intros H. pose proof H as (?&?&?&?&?). apply ids_wf_Ok; try done;
    unfold X86_MP_STATE_MAX in *; ulia.
Qed.
Definition two_vcpu_ok (host : HostMsrIndexList) (c : BoundedTwoVcpuFullControllerCheckpoint) : Prop :=
  let ids := vcpu_ids (v2_base c) in
  live_ok (Portable:=page_set_portable) host (primary (v2_base c)) ∧
  live_ok (Portable:=vcpu_portable) host (secondary (v2_base c)) ∧
  ids_wf ids ((v2_mp_states c).1.2, (v2_mp_states c).2.2) ∧
  (v2_lapics c).1.1 = ids.1 ∧ (v2_lapics c).2.1 = ids.2 ∧
  (v2_mp_states c).1.1 = ids.1 ∧ (v2_mp_states c).2.1 = ids.2 ∧
  pic_wf (v2_master_pic c) ∧ pic_wf (v2_slave_pic c) ∧ ioapic_wf (v2_ioapic c) ∧
  ioapic_pad (v2_ioapic c) = 0 ∧ lapic_wf (v2_lapics c).1.2 ∧ lapic_wf (v2_lapics c).2.2.
#[export] Instance two_vcpu_portable :
    Portable V2E BoundedTwoVcpuFullControllerCheckpoint VersionedTwoVcpuFullControllerCheckpointV1 := {|
  from_live := v2_from_checkpoint; to_live := v2_materialize; live_ok := two_vcpu_ok |}.
#[export] Instance two_vcpu_portable_laws :
  PortableLaws V2E BoundedTwoVcpuFullControllerCheckpoint VersionedTwoVcpuFullControllerCheckpointV1.
Proof.
  split; cbn.
  - intros host c (Hp&Hs&Hids&Hl1&Hl2&Hm1&Hm2&Hm&Hsl&Hio&Hpad&Ha1&Ha2).
    destruct (portable_ok host _ Hp) as (p&p'&Hf&Hwf&Ht&Heq).
    destruct (portable_ok host _ Hs) as (s&s'&Hf'&Hwf'&Ht'&Heq'). cbn in Hf, Ht, Hf', Ht'.
    unfold v2_from_checkpoint, v2_materialize. pose proof (validate_ids _ _ Hids) as [Hi Hmp].
    rewrite Hi. decode_steps. rewrite Hmp, Hl1, Hl2, Hm1, Hm2, !Z.eqb_refl, Hpad, Hf, Hf'. decode_steps.
    eexists _, _. split_and!; [done|by split_and!| |].
    + cbn [v2_ids v2_mps v2_io v2_primary v2_secondary].
      rewrite Hi. decode_steps. rewrite Hmp, Hpad, Ht, Ht'. by decode_steps.
    + split_and!; try done; cbn.
      * destruct (v2_lapics c) as [[] []]. cbn in *. congruence.
      * destruct (v2_mp_states c) as [[] []]. cbn in *. congruence.
  - intros host l l' (Hp&Hs&_) (Hp'&Hs'&_) (Hi&Heq&Heq'&H1&H2&H3&H4&H5). unfold v2_from_checkpoint.
    pose proof (portable_proper host _ _ Hp Hp' Heq) as Hf.
    pose proof (portable_proper host _ _ Hs Hs' Heq') as Hf'. cbn in Hf, Hf'.
    rewrite Hf, Hf'. by rewrite Hi, H1, H2, H3, H4, H5.
Qed.

(** * Devices *)

(** A device with a portable form: its fields have their types and it can be captured. *)
Definition device_live (d : VirtioBlkDevice) : Prop :=
  checkpoint_typed (state_of d) ∧ capture d = Ok (state_of d).
Lemma capture_semantic_Ok d s :
  capture_semantic d = Ok s → s = state_of d ∧ checkpoint_validate (state_of d) = Ok tt.
Proof. by intros (?&_&?)%capture_semantic_inv. Qed.
Lemma device_live_ok d :
  device_live d → capture d = Ok (state_of d) ∧ device_wf (state_of d) ∧ materialize (state_of d) = Ok d.
Proof.
  intros [Ht Hc]. pose proof (capture_materialize d _ Hc) as Hm. split_and!; [done|split; [done|]|done].
  unfold capture in Hc. bind_inv Hc. by apply capture_semantic_Ok in Hc as [_ ?].
Qed.
Definition one_device_ok (host : HostMsrIndexList) (c : BoundedFullControllerVirtioBlkCheckpoint) : Prop :=
  live_ok (Portable:=full_controller_portable) host (one_controller c) ∧ device_live (one_device c) ∧
  one_bar0 c = bar0 (regs (one_device c)).
#[export] Instance one_device_portable :
    Portable VBE BoundedFullControllerVirtioBlkCheckpoint VersionedFullControllerVirtioBlkCheckpointV1 := {|
  from_live := vb_from_checkpoint; to_live := vb_materialize; live_ok := one_device_ok |}.
#[export] Instance one_device_portable_laws :
  PortableLaws VBE BoundedFullControllerVirtioBlkCheckpoint VersionedFullControllerVirtioBlkCheckpointV1.
Proof.
  split; cbn.
  - intros host c (Hc&Hd&Hbar). destruct (portable_ok host _ Hc) as (k&k'&Hf&Hwf&Ht&Heq). cbn in Hf, Ht.
    destruct (device_live_ok _ Hd) as (Hcap&Hdw&Hm). unfold vb_from_checkpoint, vb_materialize.
    rewrite Hf, Hcap. decode_steps. rewrite Hbar, Z.eqb_refl.
    eexists _, _. split_and!; [done|by split| |].
    + cbn [vb_controller vb_device]. rewrite Ht, Hm. by decode_steps.
    + by split_and!.
  - intros host l l' (Hc&_) (Hc'&_) (Heq&H1&H2). unfold vb_from_checkpoint.
    pose proof (portable_proper host _ _ Hc Hc' Heq) as Hf. cbn in Hf. by rewrite Hf, H1, H2.
Qed.

(** The two devices are in the order of their BARs, each under its own. *)
Definition devices_keyed {L} (c : TwoDeviceCheckpoint L) : Prop :=
  let ds := two_devices c in
  ds.1.1 = bar0 (regs ds.1.2) ∧ ds.2.1 = bar0 (regs ds.2.2) ∧ bars_canonical (two_device_bars c).
Lemma two_device_keyed {L} (c : TwoDeviceCheckpoint L) :
  devices_keyed c → two_device c (two_device_bars c).1 = Some (two_devices c).1.2 ∧
    two_device c (two_device_bars c).2 = Some (two_devices c).2.2.
Proof.
  intros (_&_&Hlt&_). unfold two_device, two_device_bars in *. cbn in *. rewrite !Z.eqb_refl. split; [done|].
  by rewrite (proj2 (Z.eqb_neq _ _)) by lia.
Qed.
Section two_device_portable.
Context {N L C E : Type} `{!Codec N C, !Equiv L, !Portable N L C, !PortableLaws N L C}.
Context `{!TwoDeviceFormat N E}.
#[export] Instance two_device_portable : Portable E (TwoDeviceCheckpoint L) (TwoDeviceState C) := {|
  from_live := td_from_checkpoint from_live; to_live host := td_materialize (to_live host);
  live_ok host c := live_ok host (two_controller c) ∧ devices_keyed c ∧
    device_live (two_devices c).1.2 ∧ device_live (two_devices c).2.2 |}.
Lemma two_device_portable_ok host (l : TwoDeviceCheckpoint L) :
  live_ok (Portable:=two_device_portable) host l → ∃ (c : TwoDeviceState C) l',
    td_from_checkpoint (E:=E) from_live l = Ok c ∧ td_wf c ∧
    td_materialize (E:=E) (to_live host) c = Ok l' ∧
    two_controller l' ≡ two_controller l ∧ two_devices l' = two_devices l.
Proof.
  intros (Hc&Hk&Hd1&Hd2). destruct (portable_ok host _ Hc) as (k&k'&Hf&Hwf&Ht&Heq).
  destruct (device_live_ok _ Hd1) as (Hc1&Hw1&Hm1). destruct (device_live_ok _ Hd2) as (Hc2&Hw2&Hm2).
  destruct (two_device_keyed l Hk) as [He1 He2]. destruct Hk as (Hk1&Hk2&Hbars).
  pose proof (proj2 (validate_two_device_bars_Ok (N:=N) (E:=E) _ tt) Hbars) as Hv.
  assert (two_device_bars l = (ck_bar0 (state_of (two_devices l).1.2), ck_bar0 (state_of (two_devices l).2.2)))
    as Hb by (unfold two_device_bars; cbn; congruence).
  unfold td_from_checkpoint, td_materialize, td_device_bars.
  rewrite Hf. decode_steps. rewrite Hv, He1, He2. cbn [expect mbind res_bind].
  rewrite Hc1, Hc2. cbn [map_err mbind res_bind]. rewrite <- Hb, Hv.
  eexists _, _. split_and!; [done|split_and!; [done..|by unfold td_device_bars; cbn [td_devices fst snd]; rewrite <- Hb]| | |].
  - cbn [td_controller td_devices fst snd mbind res_bind]. rewrite <- Hb, Hv, Ht, Hm1, Hm2. by decode_steps.
  - done.
  - cbn. rewrite <- Hk1, <- Hk2. by destruct (two_devices l) as [[] []].
Qed.
#[export] Instance two_device_portable_laws : PortableLaws E (TwoDeviceCheckpoint L) (TwoDeviceState C).
Proof.
  split.
  - intros host l Hl. destruct (two_device_portable_ok host l Hl) as (c&l'&?&?&?&?&?). by exists c, l'.
  - intros host l l' (Hc&_) (Hc'&_) [Heq Hd]. cbn. unfold td_from_checkpoint.
    rewrite (portable_proper host _ _ Hc Hc' Heq). unfold two_device_bars, two_device. by rewrite Hd.
Qed.
End two_device_portable.

(** ** Devices with a pending token *)

(** What a kind of token promises of a device captured with it. *)
Class TokenCaptureLaws (k : TokenKind) : Prop := {
  token_kind_laws :: TokenKindLaws k;
  kind_capture_Ok d s t : kind_capture k d = Ok (s, t) →
    s = state_of d ∧ checkpoint_validate (state_of d) = Ok tt ∧ token_bar0 t = bar0 (regs d) ∧
    kind_from_parts k (token_bar0 t) (token_queue t) (token_last_avail_idx t) (token_last_used_idx t) = Ok t ∧
    kind_validate_state k t s = Ok tt ∧ kind_validate_device k t d = Ok tt ∧ kind_materialize k s t = Ok d;
  kind_capture_typed d s t : kind_capture k d = Ok (s, t) → checkpoint_typed (state_of d) → token_typed t;
  materialize_token_steps host t c :
    validate_two_device_bars (N:=V2E) (E:=D2E) (td_device_bars c) = Ok tt → validate_pending_token k c t = Ok tt →
    materialize_token_checkpoint k host t c =
      (controller ← map_err D2Controller (v2_materialize host (td_controller c));
       let device state := map_err device_error
         (if token_bar0 t =? ck_bar0 state then kind_materialize k state t else materialize state) in
       first ← device (td_devices c).1;
       second ← device (td_devices c).2;
       mret {| two_controller := controller;
               two_devices := ((ck_bar0 (td_devices c).1, first), (ck_bar0 (td_devices c).2, second)) |})
}.
Ltac capture_inv k H :=
  bind_inv H; repeat match goal with Hs : _ ≫= _ = Ok _ |- _ => bind_inv Hs end;
  match goal with Hp : _ _ _ _ _ = Ok ?t |- _ =>
    pose proof (kind_parts_Ok (k:=k) _ _ _ _ t Hp) as ->
  end;
  match goal with Hc : capture_semantic _ = Ok _ |- _ => apply capture_semantic_Ok in Hc as [-> ?] end.
#[export] Instance completion_capture_laws : TokenCaptureLaws completion.
Proof.
  split; [apply _|..]; cbn.
  - intros d s t H. destruct (completion_materialize d s t H) as [Hm Hv].
    unfold capture_with_pending_completion, completion_capture in H. capture_inv completion H. by split_and!.
  - intros d s t H (?&_&_&_&_&_&_&_&_&_&?&?&_).
    unfold capture_with_pending_completion, completion_capture in H. capture_inv completion H. by split_and!.
  - intros host t c Hv _. unfold materialize_token_checkpoint. cbn. unfold d2_materialize, td_materialize.
    rewrite Hv. cbn [mbind res_bind]. by repeat case_match.
Qed.
#[export] Instance notification_capture_laws : TokenCaptureLaws notification.
Proof.
  split; [apply _|..]; cbn.
  - intros d s t H. destruct (notification_materialize d s t H) as [Hm Hv].
    unfold capture_with_pending_notification, notification_capture in H. capture_inv notification H. by split_and!.
  - intros d s t H (?&_&_&_&_&_&_&_&_&_&?&?&_).
    unfold capture_with_pending_notification, notification_capture in H. capture_inv notification H. by split_and!.
  - intros host t c Hv Hp. unfold materialize_token_checkpoint. cbn.
    unfold d2_materialize_with_pending_notification. by rewrite Hv, Hp.
Qed.

(** * Transactions *)
Definition bound_pair {L} (c : TwoDeviceCheckpoint L) (pair : HostRegistrationSpecPair) : Prop :=
  pair_wf pair ∧ validate_transaction_registration_binding (two_device_bars c) pair = Ok tt.

Section token_live.
Context (k : TokenKind) `{!TokenCaptureLaws k}.
(** The device of the token is captured with it, the other is quiescent. *)
Definition device_pending (token : PendingToken) (d : VirtioBlkDevice) : Prop :=
  checkpoint_typed (state_of d) ∧
  if token_bar0 token =? bar0 (regs d) then kind_capture k d = Ok (state_of d, token)
  else capture d = Ok (state_of d).
Lemma device_pending_ok token d matches :
  device_pending token d →
  capture_with_token k token (bar0 (regs d)) d matches =
    Ok (state_of d, (token_bar0 token =? bar0 (regs d)) || matches) ∧
  device_wf (state_of d) ∧
  (if token_bar0 token =? bar0 (regs d) then kind_materialize k (state_of d) token
   else materialize (state_of d)) = Ok d ∧
  (token_bar0 token = bar0 (regs d) → token_wf k token ∧
    kind_validate_state k token (state_of d) = Ok tt ∧ kind_validate_device k token d = Ok tt).
Proof.
  intros [Ht Hd]. unfold capture_with_token. destruct (Z.eqb_spec (token_bar0 token) (bar0 (regs d))).
  - destruct (kind_capture_Ok _ _ _ Hd) as (_&Hv&_&Hp&Hs&Hdev&Hm). rewrite Hd. decode_steps.
    rewrite bool_decide_true by done. split_and!; try done. intros _. split_and!; try done.
    split; [by eapply kind_capture_typed|done].
  - destruct (device_live_ok d (conj Ht Hd)) as (->&?&?). by split_and!.
Qed.
Definition token_live (host : HostMsrIndexList) (c : LiveCheckpoint) (token : PendingToken) : Prop :=
  two_vcpu_ok host (two_controller c) ∧ devices_keyed c ∧
  device_pending token (two_devices c).1.2 ∧ device_pending token (two_devices c).2.2 ∧
  (token_bar0 token = (two_device_bars c).1 ∨ token_bar0 token = (two_device_bars c).2).
(** The device that holds the token, and the portable state of the devices. *)
Definition token_device (c : LiveCheckpoint) (token : PendingToken) : VirtioBlkDevice :=
  if token_bar0 token =? (two_device_bars c).1 then (two_devices c).1.2 else (two_devices c).2.2.
Definition device_states (c : LiveCheckpoint) : VirtioBlkCheckpointState * VirtioBlkCheckpointState :=
  (state_of (two_devices c).1.2, state_of (two_devices c).2.2).
Lemma device_states_bars c :
  devices_keyed c → (ck_bar0 (device_states c).1, ck_bar0 (device_states c).2) = two_device_bars c.
Proof. intros (H1&H2&_). unfold two_device_bars. cbn. congruence. Qed.
Lemma token_device_ok host c token :
  token_live host c token →
  token_bar0 token = bar0 (regs (token_device c token)) ∧ token_wf k token ∧
  two_device c (token_bar0 token) = Some (token_device c token) ∧
  (if token_bar0 token =? (two_device_bars c).1 then (device_states c).1 else (device_states c).2)
    = state_of (token_device c token) ∧
  kind_validate_state k token (state_of (token_device c token)) = Ok tt ∧
  kind_validate_device k token (token_device c token) = Ok tt.
Proof.
  intros (_&Hk&Hd1&Hd2&Hor). destruct (two_device_keyed c Hk) as [He1 He2].
  destruct Hk as (Hk1&Hk2&Hlt&_). unfold token_device. destruct (Z.eqb_spec (token_bar0 token) (two_device_bars c).1) as [Ht|Ht].
  - destruct (device_pending_ok _ _ false Hd1) as (_&_&_&H). rewrite <- Hk1 in H. destruct (H Ht) as (?&?&?).
    split_and!; try done; [cbn in Ht; congruence|by rewrite Ht].
  - destruct Hor as [?|Ht2]; [done|]. destruct (device_pending_ok _ _ false Hd2) as (_&_&_&H).
    rewrite <- Hk2 in H. destruct (H Ht2) as (?&?&?). split_and!; try done; [cbn in Ht2; congruence|by rewrite Ht2].
Qed.

Lemma validate_token_states controller host c token :
  token_live host c token →
  validate_pending_token k {| td_controller := controller; td_devices := device_states c |} token = Ok tt.
Proof.
  intros Hl. pose proof Hl as (_&Hk&_&_&Hor). destruct (token_device_ok host c token Hl) as (_&_&_&Hs&Hv&_).
  unfold validate_pending_token, td_device_bars. cbn [td_devices]. rewrite device_states_bars by done.
  destruct (Z.eqb_spec (token_bar0 token) (two_device_bars c).1) as [|Hn].
  - cbn [mbind res_bind mret res_ret]. by rewrite Hs, Hv.
  - destruct Hor as [?| ->]; [done|]. rewrite Z.eqb_refl. cbn [mbind res_bind mret res_ret]. by rewrite Hs, Hv.
Qed.
Lemma from_checkpoint_with_pending_ok host c token controller :
  token_live host c token → v2_from_checkpoint (two_controller c) = Ok controller →
  from_checkpoint_with_pending k c token =
    Ok {| td_controller := controller; td_devices := device_states c |}.
Proof.
  intros Hl Hf. destruct (token_device_ok host c token Hl) as (_&_&_&Hs&Hv&_).
  pose proof Hl as (_&Hk&Hd1&Hd2&Hor). destruct (two_device_keyed c Hk) as [He1 He2].
  unfold from_checkpoint_with_pending. rewrite Hf. decode_steps. cbv zeta.
  rewrite (proj2 (validate_two_device_bars_Ok (N:=V2E) (E:=D2E) _ tt)) by apply Hk. decode_steps.
  replace (negb (token_bar0 token =? _) && _) with false by (destruct Hor as [-> | ->]; by rewrite Z.eqb_refl, ?andb_false_r).
  decode_steps. rewrite He1, He2. cbn [expect mbind res_bind]. pose proof Hk as (Hk1&Hk2&_).
  change (two_device_bars c) with ((two_devices c).1.1, (two_devices c).2.1) in *. cbn [fst snd] in *.
  destruct (device_pending_ok _ _ false Hd1) as (Hc1&_). rewrite <- Hk1 in Hc1. rewrite Hc1.
  decode_steps. destruct (device_pending_ok _ _ ((token_bar0 token =? (two_devices c).1.1) || false) Hd2) as (Hc2&_).
  rewrite <- Hk2 in Hc2. rewrite Hc2. decode_steps.
  replace (_ || (_ || false)) with true
    by (destruct Hor as [-> | ->]; by rewrite Z.eqb_refl, ?orb_true_r).
  decode_steps. fold (device_states c).1 (device_states c).2 in *.
  change (state_of (two_devices c).1.2) with (device_states c).1.
  change (state_of (two_devices c).2.2) with (device_states c).2. by rewrite Hs, Hv.
Qed.
Lemma materialize_token_ok host c token controller controller' :
  token_live host c token → v2_materialize host controller = Ok controller' →
  materialize_token_checkpoint k host token {| td_controller := controller; td_devices := device_states c |}
    = Ok {| two_controller := controller'; two_devices := two_devices c |}.
Proof.
  intros Hl Hm. pose proof Hl as (_&Hk&Hd1&Hd2&_). rewrite materialize_token_steps.
  - cbn [td_controller td_devices]. rewrite Hm. decode_steps. cbv zeta. cbn [device_states fst snd].
    destruct (device_pending_ok _ _ false Hd1) as (_&_&Hm1&_).
    destruct (device_pending_ok _ _ false Hd2) as (_&_&Hm2&_). cbn [state_of ck_bar0].
    rewrite Hm1, Hm2. decode_steps. destruct Hk as (Hk1&Hk2&_). do 2 f_equal.
    rewrite <- Hk1, <- Hk2. by destruct (two_devices c) as [[] []].
  - apply validate_two_device_bars_Ok. unfold td_device_bars. cbn [td_devices].
    rewrite device_states_bars by done. apply Hk.
  - by eapply validate_token_states.
Qed.
(** The whole path of a transaction with a token. *)
Lemma token_transaction_bytes host c pair token :
  token_live host c token → bound_pair c pair →
  ∃ t bs c', from_checkpoint_pair_and_pending k c pair token = Ok t ∧ wt_encode k t = Ok bs ∧
    wt_decode k bs = Ok t ∧ wt_materialize k host t = Ok (c', pair, token) ∧
    two_controller c' ≡ two_controller c ∧ two_devices c' = two_devices c.
Proof.
  intros Hl [Hp Hb]. pose proof Hl as (Hc&Hk&Hd1&Hd2&_).
  destruct (portable_ok (PortableLaws:=two_vcpu_portable_laws) host _ Hc) as (v&v'&Hf&Hwf&Ht&Heq).
  destruct (token_device_ok host c token Hl) as (_&Htok&Hdev&_&_&Hvd).
  pose proof (device_states_bars c Hk) as Hbars.
  set (w := {| wt_checkpoint := {| td_controller := v; td_devices := device_states c |};
               wt_registrations := pair; wt_token := token |}).
  assert (wt_wf k w) as Hw.
  { unfold wt_wf, td_wf, td_device_bars. cbn [wt_checkpoint td_devices td_controller w wt_registrations].
    rewrite Hbars. split_and!; try done; [by apply (device_pending_ok _ _ false Hd1)
      |by apply (device_pending_ok _ _ false Hd2)|apply Hk..|by eapply validate_token_states]. }
  destruct (codec_complete (CodecLaws:=wt_codec_laws k) w Hw) as (bs&He&_&_&Hdec).
  exists w, bs. eexists. split_and!; [|done|done| | |].
  - unfold from_checkpoint_pair_and_pending. rewrite Hb. decode_steps.
    rewrite (from_checkpoint_with_pending_ok host _ _ _ Hl Hf). decode_steps.
    by rewrite (validate_token_states _ host _ _ Hl).
  - unfold wt_materialize. cbn [wt_checkpoint wt_registrations wt_token w].
    rewrite (materialize_token_ok host _ _ _ _ Hl Ht), pair_materialize_ok by done. decode_steps.
    change (two_device_bars _) with (two_device_bars c). rewrite Hb. decode_steps.
    change (two_device {| two_controller := _; two_devices := _ |} ?b) with (two_device c b).
    rewrite Hdev. decode_steps. by rewrite Hvd.
  - done.
  - done.
Qed.
End token_live.

(** * Properties *)
Lemma portable_same {N L C} `{!Codec N C, !Equiv L, !Equivalence (≡@{L}), !Portable N L C, !PortableLaws N L C}
    host (l l' : L) :
  live_ok host l → live_ok host l' → from_live (C:=C) l = from_live l' ↔ l ≡ l'.
Proof.
  intros Hl Hl'. split; [|by apply (portable_proper host)]. intros H.
  destruct (portable_ok host l Hl) as (c&m&Hc&_&Hm&Heq).
  destruct (portable_ok host l' Hl') as (c'&m'&Hc'&_&Hm'&Heq').
  rewrite H, Hc' in Hc. injection Hc as <-. rewrite Hm in Hm'. injection Hm' as <-. by rewrite <- Heq.
Qed.

(** The wire formats of the checkpoint family, each with its encoder, decoder and well-formed values. *)
Record WireFormat := mkFormat {
  fmt_error : Type; fmt_value : Type;
  fmt_encode : fmt_value → res fmt_error (list Z); fmt_decode : list Z → res fmt_error fmt_value;
  fmt_wf : fmt_value → Prop
}.
Definition wire_formats : list WireFormat := [
  mkFormat _ _ vs_encode vs_decode vs_wf;
  mkFormat _ _ fc_encode fc_decode fc_wf;
  mkFormat _ _ encode_device_state decode_device_state device_wf;
  mkFormat _ _ vb_encode vb_decode vb_wf;
  mkFormat _ _ two_blk_encode two_blk_decode td_wf;
  mkFormat _ _ (λ s, Ok (spec_encode s)) spec_decode spec_wf;
  mkFormat _ _ (λ p, Ok (pair_encode p)) pair_decode pair_wf;
  mkFormat _ _ tx_encode tx_decode tx_wf;
  mkFormat _ _ t2_encode t2_decode t2_wf;
  mkFormat _ _ v2_encode v2_decode v2_wf;
  mkFormat _ _ d2_encode d2_decode td_wf;
  mkFormat _ _ w1_encode w1_decode w1_wf;
  mkFormat _ _ transaction_v2_encode transaction_v2_decode (wt_wf completion);
  mkFormat _ _ transaction_v3_encode transaction_v3_decode (wt_wf notification)
].
Definition format_correct (f : WireFormat) : Prop :=
  (∀ a, fmt_wf f a → ∃ bs, fmt_encode f a = Ok bs ∧ bytes_ok bs ∧ fmt_decode f bs = Ok a) ∧
  ∀ bs, bytes_ok bs → usize (len bs) → no_panic (fmt_decode f bs) ∧
    ∀ a, fmt_decode f bs = Ok a → fmt_wf f a ∧ ∃ bs', fmt_encode f a = Ok bs' ∧ len bs' = len bs.
Lemma format_of_laws {E A} (codec : Codec E A) :
  CodecLaws E A → format_correct (mkFormat E A codec_encode codec_decode codec_wf).
Proof.
  intros Hl. split; cbn.
  - intros a Ha. destruct (codec_complete a Ha) as (bs&?&?&_&?). eauto.
  - intros bs Hb Hu. split; [by apply codec_safe|]. intros a Ha. by apply codec_sound.
Qed.
(** C16: the wire formats are correct.  For each of the fourteen formats of the checkpoint family (vCPU
    state, controller, block device, one and two devices, host registration and pair, the
    transactions of one vCPU, the two-vCPU controller and checkpoint, and the three versions of the two-vCPU
    transaction): every well-formed value encodes to bytes that decode to it; no bytes at all make the
    decoder panic; and what a decoder accepts is well-formed and encodes to as many bytes. *)
Theorem wire_formats_correct : Forall format_correct wire_formats.
Proof.
  unfold wire_formats. repeat (apply Forall_cons_2; [|try apply Forall_nil_2]).
  - exact (format_of_laws vs_codec _).
  - exact (format_of_laws fc_codec _).
  - exact (format_of_laws device_codec _).
  - exact (format_of_laws vb_codec _).
  - exact (format_of_laws two_blk_codec _).
  - exact (format_of_laws spec_codec _).
  - exact (format_of_laws pair_codec _).
  - exact (format_of_laws tx_codec _).
  - exact (format_of_laws t2_codec _).
  - exact (format_of_laws v2_codec _).
  - exact (format_of_laws d2_codec _).
  - exact (format_of_laws w1_codec _).
  - exact (format_of_laws (wt_codec completion) (wt_codec_laws completion)).
  - exact (format_of_laws (wt_codec notification) (wt_codec_laws notification)).
Qed.


(** A checkpoint transaction of one vCPU survives its portable form.  Its checkpoint, with
    one device or with two, and its registrations are written to bytes, which decode to the
    same value; materialized on a host with the MSRs, they give back the registrations exactly and a
    checkpoint equivalent to the one captured. *)
Theorem checkpoint_transaction_roundtrip host :
  (∀ c spec, live_ok (Portable:=one_device_portable) host c → spec_wf spec →
     ∃ t bs c', from_checkpoint_and_spec c spec = Ok t ∧ tx_encode t = Ok bs ∧ tx_decode bs = Ok t ∧
       tx_materialize host t = Ok (c', spec) ∧ c' ≡ c) ∧
  (∀ c pair, live_ok (Portable:=two_device_portable (E:=TDE)) host c → pair_wf pair →
     ∃ t bs c', from_checkpoint_and_pair c pair = Ok t ∧ t2_encode t = Ok bs ∧ t2_decode bs = Ok t ∧
       t2_materialize host t = Ok (c', pair) ∧ c' ≡ c).
Proof.
  split.
  - intros c spec Hc Hs. destruct (portable_ok host c Hc) as (v&c'&Hf&Hwf&Ht&Heq). cbn in Hf, Ht.
    set (t := {| tx_checkpoint := v; tx_registration := spec |}).
    destruct (codec_complete t) as (bs&He&_&_&Hd); [by split|]. exists t, bs, c'.
    unfold from_checkpoint_and_spec, tx_materialize. cbn [t tx_checkpoint tx_registration]. by rewrite Hf, Ht.
  - intros c pair Hc Hp. destruct (portable_ok (PortableLaws:=two_device_portable_laws) host c Hc) as (v&c'&Hf&Hwf&Ht&Heq).
    set (t := {| t2_checkpoint := v; t2_registrations := pair |}).
    destruct (codec_complete t) as (bs&He&_&_&Hd); [by split|]. exists t, bs, c'.
    unfold from_checkpoint_and_pair, t2_materialize. cbn [t t2_checkpoint t2_registrations].
    unfold two_blk_from_checkpoint, two_blk_materialize. cbn in Hf, Ht. rewrite Hf, Ht. decode_steps.
    by rewrite pair_materialize_ok.
Qed.

(** C22: a transaction of two vCPUs survives its portable form while a device has work in flight.
    For a token of a pending completion (version 2) or of a pending notification
    (version 3), the transaction is written to bytes, which decode to the same value; materialized on a
    host with the MSRs, it gives back the registrations and the token, and a checkpoint whose
    devices are the captured ones, with the interrupt or the notification still pending, and
    whose vCPUs and controllers are equivalent to the captured ones. *)
Theorem token_transaction_roundtrip host c pair token :
  bound_pair c pair →
  (token_live completion host c token →
   ∃ t bs c', from_checkpoint_pair_and_pending_completion c pair token = Ok t ∧
     transaction_v2_encode t = Ok bs ∧ transaction_v2_decode bs = Ok t ∧
     transaction_v2_materialize host t = Ok (c', pair, token) ∧
     two_controller c' ≡ two_controller c ∧ two_devices c' = two_devices c) ∧
  (token_live notification host c token →
   ∃ t bs c', from_checkpoint_pair_and_pending_notification c pair token = Ok t ∧
     transaction_v3_encode t = Ok bs ∧ transaction_v3_decode bs = Ok t ∧
     transaction_v3_materialize host t = Ok (c', pair, token) ∧
     two_controller c' ≡ two_controller c ∧ two_devices c' = two_devices c).
Proof. intros Hp. split; intros Ht; by apply token_transaction_bytes; try apply _. Qed.

(** ** Examples *)
Definition sample_host : HostMsrIndexList := {| host_indices := [0x10; 0x1b] |}.
Definition zero_pic : KvmPicState := pic_from_semantic_bytes (replicate 16 0).
Definition zero_ioapic : KvmIoapicState := {|
  base_address := 0xfec00000; ioregsel := 0; ioapic_id := 0; ioapic_irr := 0; ioapic_pad := 0;
  redirtbl := replicate 24 0 |}.
Definition zero_lapic : KvmLapicState := {| lapic_regs := replicate 1024 0 |}.
Definition sample_controller : BoundedFullControllerCheckpoint := {|
  full_base := {| base_guest := sample_live; base_master_pic := zero_pic; base_lapic := zero_lapic |};
  full_slave_pic := zero_pic; full_ioapic := zero_ioapic |}.
Definition sample_two_vcpus : BoundedTwoVcpuFullControllerCheckpoint := {|
  v2_base := {| primary_id := 0; primary := sample_live; secondary_id := 1;
                secondary := set_vcpu sample_live |};
  v2_master_pic := zero_pic; v2_slave_pic := zero_pic; v2_ioapic := zero_ioapic;
  v2_lapics := ((0, zero_lapic), (1, zero_lapic)); v2_mp_states := ((0, 0), (1, 3)) |}.
(** A device that is ready, with a pending notification or interrupt. *)
Definition sample_device (bar : Z) (pending : bool) (isr idx : Z) : VirtioBlkDevice :=
  mkBlk (mkRegs bar 0 1 VIRTIO_F_VERSION_1 15 0 8 true 0x200000 0x200100 0x200200 pending idx idx isr)
    (replicate 2048 0) None.
Definition sample_devices (pending : bool) (isr idx : Z) : (Z * VirtioBlkDevice) * (Z * VirtioBlkDevice) :=
  ((0x10000000, sample_device 0x10000000 pending isr idx), (0x10001000, sample_device 0x10001000 false 0 7)).
Definition sample_spec (bar gsi : Z) : HostRegistrationSpec := {|
  doorbell_address := bar + 0x100; doorbell_length := 2; doorbell_datamatch := 0; gsi := gsi |}.
Definition sample_pair : HostRegistrationSpecPair := (sample_spec 0x10000000 5, sample_spec 0x10001000 6).

Lemma zero_controllers_wf : pic_wf zero_pic ∧ ioapic_wf zero_ioapic ∧ lapic_wf zero_lapic.
Proof.
  split; [|split; [unfold ioapic_wf; cbn; layout_widths|split; [done|apply bytes_ok_replicate; ulia]]].
  unfold pic_wf. vm_compute (pic_bytes zero_pic). repeat (apply Forall_cons_2; [ulia|]). apply Forall_nil_2.
Qed.
Lemma sample_msrs : msrs_on sample_host (set_vcpu sample_live).
Proof. intros i Hi. cbn in Hi. cbn. apply elem_of_cons in Hi as [->|Hi]; [left|by apply elem_of_nil in Hi]. Qed.
Lemma sample_live_ok : live_ok (Portable:=page_set_portable) sample_host sample_live.
Proof. split; [apply sample_live_wf|apply sample_msrs]. Qed.
Lemma sample_vcpu_ok : live_ok (Portable:=vcpu_portable) sample_host (set_vcpu sample_live).
Proof. split; [by destruct sample_live_wf as (_&_&_&?)|apply sample_msrs]. Qed.
Lemma sample_controller_ok : full_controller_ok sample_host sample_controller.
Proof. destruct zero_controllers_wf as (?&?&?). unfold full_controller_ok. by split_and!; try apply sample_live_ok. Qed.
Lemma sample_two_vcpus_ok : two_vcpu_ok sample_host sample_two_vcpus.
Proof.
  destruct zero_controllers_wf as (?&?&?). unfold two_vcpu_ok.
  by split_and!; try apply sample_live_ok; try apply sample_vcpu_ok.
Qed.
Lemma sample_device_typed bar pending isr idx :
  u64 bar → u8 isr → u16 idx → checkpoint_typed (state_of (sample_device bar pending isr idx)).
Proof.
  intros. unfold checkpoint_typed. cbn [state_of ck_backing sample_device regs].
  split_and!; try (by apply bytes_ok_replicate); cbn; try done; ulia.
Qed.
Lemma sample_pair_wf : pair_wf sample_pair.
Proof.
  assert (∀ bar g, u32 g → 0 ≤ bar ≤ 0x10001000 → spec_wf (sample_spec bar g)) as H.
  { intros. unfold spec_wf. cbn. split_and!; try ulia. apply elem_of_lengths. lia. }
  split_and!; try (by apply H); done.
Qed.

Lemma sample_device_live bar : u64 bar → bar mod 0x1000 = 0 → device_live (sample_device bar false 0 7).
Proof.
  intros Hu Hb. split; [apply sample_device_typed; ulia|]. unfold capture, capture_semantic, checkpoint_validate.
  cbn -[Z.modulo]. unfold VIRTIO_BLK_BAR_SIZE. by rewrite Hb.
Qed.
Lemma sample_keyed {L} (l : L) p i x :
  devices_keyed {| two_controller := l; two_devices := sample_devices p i x |}.
Proof. by split_and!. Qed.
Lemma sample_two_blk_ok :
  live_ok (Portable:=two_device_portable (E:=TDE)) sample_host
    {| two_controller := sample_controller; two_devices := sample_devices false 0 7 |}.
Proof.
  split_and!; [apply sample_controller_ok|apply sample_keyed|by apply sample_device_live..].
Qed.

Lemma checkpoint_transaction_roundtrip_witness :
  ∃ t bs c', tx_encode t = Ok bs ∧ tx_decode bs = Ok t ∧
    tx_materialize sample_host t = Ok (c', sample_spec 0x10000000 5) ∧
    one_device c' = sample_device 0x10000000 false 0 7.
Proof.
  destruct (proj1 (checkpoint_transaction_roundtrip sample_host)
    {| one_controller := sample_controller; one_bar0 := 0x10000000;
       one_device := sample_device 0x10000000 false 0 7 |} (sample_spec 0x10000000 5))
    as (t&bs&c'&_&He&Hd&Hm&_&_&Heq).
  - split_and!; [apply sample_controller_ok|by apply sample_device_live|done].
  - apply sample_pair_wf.
  - by exists t, bs, c'.
Defined.
Lemma token_transaction_roundtrip_witness :
  ∃ t bs c', transaction_v3_encode t = Ok bs ∧ transaction_v3_decode bs = Ok t ∧
    transaction_v3_materialize sample_host t = Ok (c', sample_pair, mkToken 0x10000000 0 7 7) ∧
    two_devices c' = sample_devices true 0 7.
Proof.
  destruct (token_transaction_roundtrip sample_host
    {| two_controller := sample_two_vcpus; two_devices := sample_devices true 0 7 |} sample_pair
    (mkToken 0x10000000 0 7 7)) as (_&H).
  - split; [apply sample_pair_wf|by vm_compute].
  - destruct H as (t&bs&c'&_&He&Hd&Hm&_&Heq); [|by exists t, bs, c'].
    split_and!; [apply sample_two_vcpus_ok|apply sample_keyed| |by apply sample_device_live|by left].
    split; [by apply sample_device_typed|by vm_compute].
Defined.
