(* ===== verification/BlkBus.v ===== *)
(** Block devices on the MMIO bus as checkpoints see them
    ([src/src/mmio/multi_device/virtio_blk_atomic_bus.rs]): looking a device up by its BAR,
    capturing it, comparing it with a snapshot, and restoring one device or two of them
    atomically, with or without a token for work in flight.

    Numbers interpolated into error messages are left out of the messages. *)

From S2P Require Import Prelude Errors Memory VirtioCommon VirtioRng VirtioBlk BlkCheckpoint VcpuRun Mmio.

#[export] Instance virtio_regs_eq_dec : EqDecision VirtioRegs.
Proof. solve_decision. Defined.
#[export] Instance virtio_blk_device_eq_dec : EqDecision VirtioBlkDevice.
Proof. solve_decision. Defined.

(** * Definitions *)
Definition blk_bar (d : VirtioBlkDevice) : Z := bar0 (regs d).
(** [iter().position(..)] and [iter().find(..)] by BAR. *)
Definition blk_position (bus : MmioBus) (address : Z) : option nat :=
  fst <$> list_find (λ d, blk_bar d = address) (virtio_blk_devices bus).
Definition blk_at (bus : MmioBus) (address : Z) : option VirtioBlkDevice :=
  snd <$> list_find (λ d, blk_bar d = address) (virtio_blk_devices bus).
Definition with_blk_devices (devices : list VirtioBlkDevice) (bus : MmioBus) : MmioBus :=
  mkBus (byte_devices bus) (virtio_rng_devices bus) devices (virtio_events bus).
Definition virtio_blk_checkpoint_error (operation detail : string) : Error :=
  HostEnvironment (Io operation (Custom InvalidData (Message detail))).

(** [write_file] and [disk] are the file behind a persistent device. *)
Definition process_virtio_blk_notification_atomic
    (write_file : list Z → Z → list Z → res Error unit * list Z) (address : Z) :
  prog (MmioBus * list Z * GuestMemory) VirtioBlkProcessError (option VirtioBlkQueueCompletion) :=
  λ '(bus, disk, m),
  match list_find (λ d, blk_bar d = address) (virtio_blk_devices bus) with
  | Some (i, d) =>
      let '(r, (d', disk', m')) := process_notified_queue_atomic write_file ((d, disk), m) in
      (Some <$> r, (with_blk_devices (<[i := d']> (virtio_blk_devices bus)) bus, disk', m'))
  | None => (Ok None, (bus, disk, m))
  end.
Definition virtio_blk_queue_indices_at (bus : MmioBus) (address : Z) : option (Z * Z) :=
  (λ d, (last_avail_idx (regs d), last_used_idx (regs d))) <$> blk_at bus address.
Definition virtio_blk_backing_range_at (bus : MmioBus) (address sector data_length : Z)
    : res VirtioBlkError (option (list Z)) :=
  match blk_at bus address with
  | Some d => backing_range d sector data_length
  | None => mret None
  end.

Definition quiescence_detail (d : VirtioBlkDevice) : string :=
  if checkpoint_notification_pending d then
    "device has a serviced host notification awaiting queue processing; pending notification requires an explicit service token"
  else if checkpoint_completion_pending d then
    "device has a serviced queue completion awaiting irqfd delivery; pending completion requires an explicit delivery token"
  else "device is not fully quiescent and does not match a supported token-owned checkpoint state".
Definition EXTERNAL_BACKING : string :=
  "external file-backed storage identity is outside the current checkpoint schema".
Definition capture_virtio_blk_checkpoint_at (bus : MmioBus) (address : Z)
    : res Error (option VirtioBlkDevice) :=
  match blk_at bus address with
  | None => mret None
  | Some device =>
      err_if (negb (checkpoint_backing_portable device))
        (virtio_blk_checkpoint_error "capture virtio-blk checkpoint state" EXTERNAL_BACKING);;
      err_if (negb (checkpoint_fully_quiescent device))
        (virtio_blk_checkpoint_error "capture virtio-blk checkpoint state" (quiescence_detail device));;
      mret (Some device)
  end.

(** The two kinds of token, with the texts of their errors; the code for the two is the
    same up to these. *)
Record BusToken := {
  bus_capture : VirtioBlkDevice → res CE PendingToken;
  bus_validate : PendingToken → VirtioBlkDevice → res CE unit;
  bus_capture_operation : string;
  bus_restore_operation : string;
  bus_validate_operation : string;
  bus_outside : string;
  bus_invalid : string
}.
Definition bus_completion : BusToken := {|
  bus_capture := completion_capture; bus_validate := completion_validate_device;
  bus_capture_operation := "capture virtio-blk pending completion";
  bus_restore_operation := "restore two virtio-blk checkpoint states with pending completion";
  bus_validate_operation := "restore pending virtio-blk completion";
  bus_outside := "pending-completion BAR is outside checkpoint BARs";
  bus_invalid := "virtio-blk pending-completion token is invalid" |}.
Definition bus_notification : BusToken := {|
  bus_capture := notification_capture; bus_validate := notification_validate_device;
  bus_capture_operation := "capture virtio-blk pending notification";
  bus_restore_operation := "restore two virtio-blk checkpoint states with pending notification";
  bus_validate_operation := "restore pending virtio-blk notification";
  bus_outside := "pending-notification BAR is outside checkpoint BARs";
  bus_invalid := "virtio-blk pending-notification token is invalid" |}.
Definition capture_with_pending_at (k : BusToken) (bus : MmioBus) (address : Z)
    : res Error (option (VirtioBlkDevice * PendingToken)) :=
  match blk_at bus address with
  | None => mret None
  | Some device =>
      err_if (negb (checkpoint_backing_portable device))
        (virtio_blk_checkpoint_error (bus_capture_operation k) EXTERNAL_BACKING);;
      token ← map_err (λ _, virtio_blk_checkpoint_error (bus_capture_operation k) (bus_invalid k))
                (bus_capture k device);
      mret (Some (device, token))
  end.
Definition capture_virtio_blk_checkpoint_with_pending_completion_at := capture_with_pending_at bus_completion.
Definition capture_virtio_blk_checkpoint_with_pending_notification_at :=
  capture_with_pending_at bus_notification.

Definition verify_virtio_blk_checkpoint_at (bus : MmioBus) (address : Z) (snapshot : VirtioBlkDevice)
    : res Error (option bool) :=
  err_if (negb (blk_bar snapshot =? address))
    (virtio_blk_checkpoint_error "verify virtio-blk checkpoint state"
       "snapshot BAR does not match requested BAR");;
  mret ((λ device, bool_decide (device = snapshot)) <$> blk_at bus address).
Definition restore_virtio_blk_checkpoint_at (address : Z) (snapshot : VirtioBlkDevice)
    : prog MmioBus Error (option unit) :=
  lift (err_if (negb (blk_bar snapshot =? address) || negb (checkpoint_backing_portable snapshot)
                || negb (checkpoint_fully_quiescent snapshot))
    (virtio_blk_checkpoint_error "restore virtio-blk checkpoint state"
       "snapshot BAR identity or quiescence contract is invalid"));;
  bus ← get;
  match list_find (λ d, blk_bar d = address) (virtio_blk_devices bus) with
  | None => mret None
  | Some (i, device) =>
      lift (err_if (negb (checkpoint_backing_portable device) || negb (checkpoint_fully_quiescent device))
        (virtio_blk_checkpoint_error "restore virtio-blk checkpoint state"
           "live device must be memory-backed and fully quiescent"));;
      modify (with_blk_devices (<[i := snapshot]> (virtio_blk_devices bus)));;
      mret (Some tt)
  end.

(** A snapshot with the BAR it is restored at. *)
Abbreviation Placed := (Z * VirtioBlkDevice)%type.
(** The part the three restores of two devices share: find both devices, check them,
    and assign them in the order of their positions. *)
Definition replace_two_devices (operation quiescence : string) (first second : Placed)
    : prog MmioBus Error unit :=
  bus ← get;
  first_index ← lift (ok_or (blk_position bus first.1)
    (virtio_blk_checkpoint_error operation "live virtio-blk device is missing"));
  second_index ← lift (ok_or (blk_position bus second.1)
    (virtio_blk_checkpoint_error operation "live virtio-blk device is missing"));
  lift (err_if (first_index =? second_index)%nat
    (virtio_blk_checkpoint_error operation "two checkpoint BARs resolved to the same live device"));;
  first_device ← lift (index (virtio_blk_devices bus) (Z.of_nat first_index));
  second_device ← lift (index (virtio_blk_devices bus) (Z.of_nat second_index));
  lift (err_if (negb (checkpoint_backing_portable first_device)
                || negb (checkpoint_backing_portable second_device)
                || negb (checkpoint_fully_quiescent first_device)
                || negb (checkpoint_fully_quiescent second_device))
    (virtio_blk_checkpoint_error operation quiescence));;
  modify (with_blk_devices
    (if (first_index <? second_index)%nat
     then <[second_index := second.2]> (<[first_index := first.2]> (virtio_blk_devices bus))
     else <[first_index := first.2]> (<[second_index := second.2]> (virtio_blk_devices bus)))).
Definition check_snapshot (placed : Placed) : res Error unit :=
  err_if (negb (blk_bar placed.2 =? placed.1) || negb (checkpoint_backing_portable placed.2)
          || negb (checkpoint_fully_quiescent placed.2))
    (virtio_blk_checkpoint_error "restore two virtio-blk checkpoint states"
       "snapshot has mismatched identity or is not quiescent").
Definition restore_two_virtio_blk_checkpoints_atomic (checkpoints : Placed * Placed)
    : prog MmioBus Error unit :=
  let operation := "restore two virtio-blk checkpoint states"%string in
  let '(first, second) := checkpoints in
  lift (err_if (second.1 <=? first.1) (virtio_blk_checkpoint_error operation
    "two-device checkpoint BARs must be distinct and strictly increasing"));;
  lift (check_snapshot first);;
  lift (check_snapshot second);;
  replace_two_devices operation "all live devices must be quiescent before either device is restored"
    first second.
Definition check_token_snapshot (k : BusToken) (token : PendingToken) (placed : Placed) : res Error unit :=
  err_if (negb (blk_bar placed.2 =? placed.1))
    (virtio_blk_checkpoint_error (bus_restore_operation k) "snapshot BAR does not match");;
  if placed.1 =? token_bar0 token then
    err_if (negb (checkpoint_backing_portable placed.2))
      (virtio_blk_checkpoint_error "restore token-owned virtio-blk checkpoint state" EXTERNAL_BACKING);;
    map_err (λ _, virtio_blk_checkpoint_error (bus_validate_operation k) (bus_invalid k))
      (bus_validate k token placed.2)
  else err_if (negb (checkpoint_fully_quiescent placed.2))
    (virtio_blk_checkpoint_error (bus_restore_operation k) "non-token device is not fully quiescent").
Definition restore_two_with_pending (k : BusToken) (checkpoints : Placed * Placed) (token : PendingToken)
    : prog MmioBus Error unit :=
  let '(first, second) := checkpoints in
  lift (err_if (second.1 <=? first.1) (virtio_blk_checkpoint_error (bus_restore_operation k)
    "two-device checkpoint BARs must be distinct and strictly increasing"));;
  lift (err_if (negb (token_bar0 token =? first.1) && negb (token_bar0 token =? second.1))
    (virtio_blk_checkpoint_error (bus_restore_operation k) (bus_outside k)));;
  lift (check_token_snapshot k token first);;
  lift (check_token_snapshot k token second);;
  replace_two_devices (bus_restore_operation k)
    "all live devices must be fully quiescent before token-aware restore" first second.
Definition restore_two_virtio_blk_checkpoints_atomic_with_pending_completion :=
  restore_two_with_pending bus_completion.
Definition restore_two_virtio_blk_checkpoints_atomic_with_pending_notification :=
  restore_two_with_pending bus_notification.

(** * Facts *)

(** ** Devices by BAR *)
Definition blk_bars (bus : MmioBus) : list Z := blk_bar <$> virtio_blk_devices bus.
Lemma list_find_fmap_eq {A} (f : A → Z) a (l k : list A) :
  f <$> l = f <$> k → fst <$> list_find (λ x, f x = a) l = fst <$> list_find (λ x, f x = a) k.
Proof.
  revert k. induction l as [|x l IH]; intros [|y k] H; try done. injection H as Hx Hl. cbn [list_find].
  destruct (decide (f x = a)), (decide (f y = a)); try congruence; try done.
  specialize (IH k Hl). destruct (list_find _ l) as [[]|], (list_find _ k) as [[]|]; simpl in *; congruence.
Qed.
Lemma blk_position_bars bus bus' a : blk_bars bus' = blk_bars bus → blk_position bus' a = blk_position bus a.
Proof. apply (list_find_fmap_eq blk_bar). Qed.
Lemma blk_at_position bus a : blk_at bus a = (i ← blk_position bus a; virtio_blk_devices bus !! i).
Proof.
  unfold blk_at, blk_position. destruct (list_find _ _) as [[i d]|] eqn:H; [|done].
  apply list_find_Some in H as (H&_). by simpl; rewrite H.
Qed.
Lemma blk_position_Some bus a i :
  blk_position bus a = Some i → ∃ d, virtio_blk_devices bus !! i = Some d ∧ blk_bar d = a.
Proof.
  unfold blk_position. destruct (list_find _ _) as [[j d]|] eqn:H; [|done]. intros [= <-].
  apply list_find_Some in H as (?&?&_). eauto.
Qed.
Lemma blk_at_bar bus a d : blk_at bus a = Some d → blk_bar d = a.
Proof.
  rewrite blk_at_position. destruct (blk_position bus a) as [i|] eqn:H; [|done]. simpl. intros Hd.
  apply blk_position_Some in H as (d'&Hd'&<-). congruence.
Qed.
Lemma blk_position_inj bus a b i : blk_position bus a = Some i → blk_position bus b = Some i → a = b.
Proof. intros (d&Hd&<-)%blk_position_Some (d'&Hd'&<-)%blk_position_Some. congruence. Qed.

(** The bus with the device at one BAR replaced by a snapshot of that device. *)
Definition place (p : Placed) (bus : MmioBus) : MmioBus :=
  match blk_position bus p.1 with
  | Some i => with_blk_devices (<[i := p.2]> (virtio_blk_devices bus)) bus
  | None => bus
  end.
Lemma place_bars p bus : blk_bar p.2 = p.1 → blk_bars (place p bus) = blk_bars bus.
Proof.
  intros Hp. unfold place. destruct (blk_position bus p.1) as [i|] eqn:H; [|done].
  apply blk_position_Some in H as (d&Hd&Hb). unfold blk_bars. simpl. rewrite list_fmap_insert, Hp.
  apply list_insert_id. by rewrite list_lookup_fmap, Hd, <- Hb.
Qed.
Lemma place_same p bus : blk_bar p.2 = p.1 → is_Some (blk_at bus p.1) → blk_at (place p bus) p.1 = Some p.2.
Proof.
  intros Hp [d Hd]. rewrite blk_at_position, (blk_position_bars bus) by (by apply place_bars).
  rewrite blk_at_position in Hd. unfold place. destruct (blk_position bus p.1) as [i|]; [|done]. simpl in *.
  apply list_lookup_insert_eq. by apply lookup_lt_Some in Hd.
Qed.
Lemma place_other p bus a : blk_bar p.2 = p.1 → a ≠ p.1 → blk_at (place p bus) a = blk_at bus a.
Proof.
  intros Hp Ha. rewrite !blk_at_position, (blk_position_bars bus) by (by apply place_bars).
  unfold place. destruct (blk_position bus p.1) as [i|] eqn:Hi; [|done].
  destruct (blk_position bus a) as [j|] eqn:Hj; [|done]. simpl. apply list_lookup_insert_ne.
  intros ->. by pose proof (blk_position_inj _ _ _ _ Hi Hj).
Qed.
(** Replacing two different devices, one after the other, is one step on the list. *)
Lemma place_place p q bus i j :
  blk_position bus p.1 = Some i → blk_position bus q.1 = Some j → blk_bar p.2 = p.1 → i ≠ j →
  place q (place p bus) = with_blk_devices
    (if (i <? j)%nat then <[j := q.2]> (<[i := p.2]> (virtio_blk_devices bus))
     else <[i := p.2]> (<[j := q.2]> (virtio_blk_devices bus))) bus.
Proof.
  intros Hi Hj Hp Hne. unfold place at 1. rewrite (blk_position_bars bus), Hj by (by apply place_bars).
  unfold place. rewrite Hi. destruct (i <? j)%nat; [done|]. by rewrite list_insert_insert_ne.
Qed.
Definition restorable (bus : MmioBus) (a : Z) : Prop :=
  ∃ d, blk_at bus a = Some d ∧ checkpoint_backing_portable d = true ∧ checkpoint_fully_quiescent d = true.

(** ** Two devices *)
Lemma index_lookup {E A} (l : list A) i x : l !! i = Some x → index (E:=E) l (Z.of_nat i) = Ok x.
Proof.
  intros H. pose proof (lookup_lt_Some _ _ _ H). unfold index, len. zcmp. by rewrite Nat2Z.id, H.
Qed.
Lemma replace_two_ok op q p1 p2 bus :
  p1.1 ≠ p2.1 → blk_bar p1.2 = p1.1 → restorable bus p1.1 → restorable bus p2.1 →
  replace_two_devices op q p1 p2 bus = (Ok tt, place p2 (place p1 bus)).
Proof.
  intros Hne Hb (d1&Hd1&Hp1&Hq1) (d2&Hd2&Hp2&Hq2). rewrite !blk_at_position in *.
  destruct (blk_position bus p1.1) as [i|] eqn:Hi; [|done]. destruct (blk_position bus p2.1) as [j|] eqn:Hj; [|done].
  simpl in Hd1, Hd2. assert (i ≠ j) as Hij by (intros ->; by apply Hne, (blk_position_inj bus _ _ j)).
  rewrite (place_place _ _ _ _ _ Hi Hj Hb Hij). unfold replace_two_devices, mbind, prog_bind, get, lift.
  rewrite Hi. cbn [ok_or]. rewrite Hj. cbn [ok_or]. rewrite (proj2 (Nat.eqb_neq _ _) Hij). cbn [err_if].
  rewrite (index_lookup _ _ _ Hd1), (index_lookup _ _ _ Hd2). cbn.
  by rewrite Hp1, Hp2, Hq1, Hq2.
Qed.
Lemma replace_two_runs op q p1 p2 bus :
  p1.1 ≠ p2.1 → blk_bar p1.2 = p1.1 →
  runs (replace_two_devices op q p1 p2) bus
    (λ _ bus', bus' = place p2 (place p1 bus) ∧ restorable bus p1.1 ∧ restorable bus p2.1)
    (λ _ bus', bus' = bus).
Proof.
  intros Hne Hb. unfold runs, replace_two_devices, mbind, prog_bind, get, lift.
  destruct (blk_position bus p1.1) as [i|] eqn:Hi; [|done]. cbn [ok_or].
  destruct (blk_position bus p2.1) as [j|] eqn:Hj; [|done]. cbn [ok_or].
  destruct (Nat.eqb_spec i j) as [->|Hij]; cbn [err_if]; [done|].
  destruct (blk_position_Some _ _ _ Hi) as (d1&Hd1&_), (blk_position_Some _ _ _ Hj) as (d2&Hd2&_).
  rewrite (index_lookup _ _ _ Hd1), (index_lookup _ _ _ Hd2).
  destruct (_ || _) eqn:Hok; cbn [err_if]; [done|]. rewrite !orb_false_iff, !negb_false_iff in Hok.
  destruct Hok as [[[? ?] ?] ?]. cbn. rewrite (place_place _ _ _ _ _ Hi Hj Hb Hij). split; [done|].
  unfold restorable. rewrite !blk_at_position, Hi, Hj. simpl. split; eauto.
Qed.

(** What a restore that succeeded did: the two BARs hold the snapshots, and nothing else moved. *)
Definition two_replaced (p1 p2 : Placed) (bus bus' : MmioBus) : Prop :=
  blk_at bus' p1.1 = Some p1.2 ∧ blk_at bus' p2.1 = Some p2.2 ∧
  (∀ a, a ≠ p1.1 → a ≠ p2.1 → blk_at bus' a = blk_at bus a) ∧ blk_bars bus' = blk_bars bus ∧
  byte_devices bus' = byte_devices bus ∧ virtio_rng_devices bus' = virtio_rng_devices bus ∧
  virtio_events bus' = virtio_events bus.
Lemma restorable_Some bus a : restorable bus a → is_Some (blk_at bus a).
Proof. intros (d&->&_). eauto. Qed.
Lemma place_others p bus :
  byte_devices (place p bus) = byte_devices bus ∧ virtio_rng_devices (place p bus) = virtio_rng_devices bus ∧
  virtio_events (place p bus) = virtio_events bus.
Proof. unfold place. by destruct (blk_position bus p.1). Qed.
Lemma place_two p1 p2 bus :
  p1.1 ≠ p2.1 → blk_bar p1.2 = p1.1 → blk_bar p2.2 = p2.1 →
  is_Some (blk_at bus p1.1) → is_Some (blk_at bus p2.1) →
  two_replaced p1 p2 bus (place p2 (place p1 bus)).
Proof.
  intros Hne H1 H2 Hs1 Hs2. destruct (place_others p1 bus) as (?&?&?), (place_others p2 (place p1 bus)) as (?&?&?).
  split_and!; try congruence.
  - rewrite place_other by done. by apply place_same.
  - apply place_same; [done|]. by rewrite place_other.
  - intros a Ha1 Ha2. by rewrite !place_other.
  - by rewrite !place_bars.
Qed.

(** A snapshot that may be restored at a BAR, and its variant for a token. *)
Definition snapshot_ok (p : Placed) : Prop :=
  blk_bar p.2 = p.1 ∧ checkpoint_backing_portable p.2 = true ∧ checkpoint_fully_quiescent p.2 = true.
Definition token_snapshot_ok (k : BusToken) (token : PendingToken) (p : Placed) : Prop :=
  blk_bar p.2 = p.1 ∧
  if p.1 =? token_bar0 token
  then checkpoint_backing_portable p.2 = true ∧ bus_validate k token p.2 = Ok tt
  else checkpoint_fully_quiescent p.2 = true.
Lemma check_snapshot_Ok p u : check_snapshot p = Ok u ↔ snapshot_ok p.
Proof.
  destruct u. unfold check_snapshot, snapshot_ok.
  rewrite err_if_Ok_iff, !orb_false_iff, !negb_false_iff, Z.eqb_eq. tauto.
Qed.
Lemma check_token_snapshot_Ok k token p u : check_token_snapshot k token p = Ok u ↔ token_snapshot_ok k token p.
Proof.
  destruct u. unfold check_token_snapshot, token_snapshot_ok.
  rewrite bind_err_if_Ok, negb_false_iff, Z.eqb_eq. apply and_iff_compat_l. destruct (_ =? _).
  - rewrite bind_err_if_Ok, negb_false_iff. apply and_iff_compat_l. split; [|by intros ->].
    intros H%map_err_Ok_inv. done.
  - by rewrite err_if_Ok_iff, negb_false_iff.
Qed.
Lemma check_snapshot_safe p : no_panic (check_snapshot p).
Proof. unfold check_snapshot. np. Qed.
Lemma runs_lift_err {S E A B} (m : res E A) (f : A → prog S E B) s Q X :
  no_panic m → (∀ e, m = Err e → X e s) → (∀ a, m = Ok a → runs (f a) s Q X) →
  runs (lift m ≫= f) s Q X.
Proof. intros Hn He Hf. destruct m; [by apply Hf|by apply He|done]. Qed.
Lemma restore_two_runs p1 p2 bus :
  runs (restore_two_virtio_blk_checkpoints_atomic (p1, p2)) bus
    (λ _ bus', p1.1 < p2.1 ∧ snapshot_ok p1 ∧ snapshot_ok p2 ∧ restorable bus p1.1 ∧ restorable bus p2.1 ∧
       bus' = place p2 (place p1 bus))
    (λ _ bus', bus' = bus).
Proof.
  unfold restore_two_virtio_blk_checkpoints_atomic. cbv zeta.
  apply runs_lift_err; [np_leaf|done|]. intros ? Hlt. res_simplify.
  apply runs_lift_err; [apply check_snapshot_safe|done|]. intros ? H1%check_snapshot_Ok.
  apply runs_lift_err; [apply check_snapshot_safe|done|]. intros ? H2%check_snapshot_Ok.
  eapply runs_mono; [apply replace_two_runs; [lia|apply H1]| |done]. intros ? ? (->&?&?). by split_and!.
Qed.
Class BusTokenLaws (k : BusToken) : Prop := {
  bus_validate_safe t d : no_panic (bus_validate k t d);
  bus_capture_Ok d t : bus_capture k d = Ok t → token_bar0 t = blk_bar d ∧ bus_validate k t d = Ok tt
}.
#[export] Instance bus_completion_laws : BusTokenLaws bus_completion.
Proof.
  split; cbn; unfold completion_capture, completion_from_parts, completion_validate_device.
  - intros. np.
  - intros d t H. bind_inv H. bind_inv Hstep. split; [done|]. apply err_if_Ok_iff.
    rewrite !orb_false_iff, !negb_false_iff, !Z.eqb_eq. tauto.
Qed.
#[export] Instance bus_notification_laws : BusTokenLaws bus_notification.
Proof.
  split; cbn; unfold notification_capture, notification_from_parts, notification_validate_device.
  - intros. np.
  - intros d t H. bind_inv H. bind_inv Hstep. split; [done|]. apply err_if_Ok_iff.
    rewrite !orb_false_iff, !negb_false_iff, !Z.eqb_eq. tauto.
Qed.
Lemma check_token_snapshot_safe k `{!BusTokenLaws k} t p : no_panic (check_token_snapshot k t p).
Proof.
  unfold check_token_snapshot. np_step. case_match; np. apply no_panic_map_err, bus_validate_safe.
Qed.
Lemma restore_two_with_pending_runs k `{!BusTokenLaws k} p1 p2 t bus :
  runs (restore_two_with_pending k (p1, p2) t) bus
    (λ _ bus', p1.1 < p2.1 ∧ (token_bar0 t = p1.1 ∨ token_bar0 t = p2.1) ∧
       token_snapshot_ok k t p1 ∧ token_snapshot_ok k t p2 ∧ restorable bus p1.1 ∧ restorable bus p2.1 ∧
       bus' = place p2 (place p1 bus))
    (λ _ bus', bus' = bus).
Proof.
  unfold restore_two_with_pending.
  apply runs_lift_err; [np_leaf|done|]. intros ? Hlt. res_simplify.
  apply runs_lift_err; [np_leaf|done|]. intros ? Ht. apply err_if_Ok_inv in Ht.
  rewrite andb_false_iff, !negb_false_iff, !Z.eqb_eq in Ht.
  apply runs_lift_err; [by apply check_token_snapshot_safe|done|]. intros ? H1%check_token_snapshot_Ok.
  apply runs_lift_err; [by apply check_token_snapshot_safe|done|]. intros ? H2%check_token_snapshot_Ok.
  eapply runs_mono; [apply replace_two_runs; [lia|apply H1]| |done]. intros ? ? (->&?&?). by split_and!.
Qed.

(** When the restores succeed. *)
Definition two_valid (p1 p2 : Placed) (bus : MmioBus) : Prop :=
  p1.1 < p2.1 ∧ snapshot_ok p1 ∧ snapshot_ok p2 ∧ restorable bus p1.1 ∧ restorable bus p2.1.
Definition two_token_valid (k : BusToken) (t : PendingToken) (p1 p2 : Placed) (bus : MmioBus) : Prop :=
  p1.1 < p2.1 ∧ (token_bar0 t = p1.1 ∨ token_bar0 t = p2.1) ∧ token_snapshot_ok k t p1 ∧
  token_snapshot_ok k t p2 ∧ restorable bus p1.1 ∧ restorable bus p2.1.
Lemma restore_two_ok p1 p2 bus :
  two_valid p1 p2 bus →
  restore_two_virtio_blk_checkpoints_atomic (p1, p2) bus = (Ok tt, place p2 (place p1 bus)).
Proof.
  intros (Hlt&H1&H2&Hr1&Hr2). unfold restore_two_virtio_blk_checkpoints_atomic, mbind, prog_bind, lift. cbv zeta.
  rewrite (proj2 (Z.leb_gt _ _)) by done. cbn [err_if].
  rewrite (proj2 (check_snapshot_Ok p1 tt)), (proj2 (check_snapshot_Ok p2 tt)) by done.
  apply replace_two_ok; [lia|apply H1|done|done].
Qed.
Lemma restore_two_with_pending_ok k t p1 p2 bus :
  two_token_valid k t p1 p2 bus →
  restore_two_with_pending k (p1, p2) t bus = (Ok tt, place p2 (place p1 bus)).
Proof.
  intros (Hlt&Ht&H1&H2&Hr1&Hr2). unfold restore_two_with_pending, mbind, prog_bind, lift.
  rewrite (proj2 (Z.leb_gt _ _)) by done. cbn [err_if].
  replace (negb _ && negb _) with false
    by (destruct Ht as [-> | ->]; by rewrite Z.eqb_refl, ?andb_false_r). cbn [err_if].
  rewrite (proj2 (check_token_snapshot_Ok k t p1 tt)), (proj2 (check_token_snapshot_Ok k t p2 tt)) by done.
  apply replace_two_ok; [lia|apply H1|done|done].
Qed.
(** All or nothing. *)
Definition atomic_outcome (valid : Prop) (p1 p2 : Placed) (bus : MmioBus) (r : res Error unit * MmioBus) : Prop :=
  (valid ∧ r.1 = Ok tt ∧ two_replaced p1 p2 bus r.2) ∨ (¬ valid ∧ ∃ e, r = (Err e, bus)).
Lemma atomic_of_runs (valid : Prop) p1 p2 bus (m : prog MmioBus Error unit) :
  (valid → m bus = (Ok tt, place p2 (place p1 bus))) →
  (valid → p1.1 < p2.1 ∧ blk_bar p1.2 = p1.1 ∧ blk_bar p2.2 = p2.1 ∧ restorable bus p1.1 ∧ restorable bus p2.1) →
  runs m bus (λ _ _, valid) (λ _ bus', bus' = bus) → atomic_outcome valid p1 p2 bus (m bus).
Proof.
  intros Hok Hv Hr. unfold runs in Hr. destruct (m bus) as [[[]|e|] bus'] eqn:Hm; [| |done].
  - left. specialize (Hok Hr). destruct (Hv Hr) as (?&?&?&?%restorable_Some&?%restorable_Some).
    injection Hok as ->. split_and!; [done|done|]. apply place_two; [lia|done..].
  - right. subst. split; [|eauto]. intros Hvalid. by specialize (Hok Hvalid).
Qed.

(** * Properties *)

(** C17: restoring two block devices is atomic.  For two quiescent snapshots, and for a
    snapshot whose work in flight a token accounts for, the bus operation succeeds exactly when the
    BARs are increasing, each snapshot is in-memory, is for its BAR and is quiescent (or matches the
    token), and both live devices exist, are in-memory and quiescent; then both BARs hold their
    snapshots and no other device, range or queued event changes.  In every other case it reports an
    error and leaves the bus exactly as it was.  (Of a snapshot that has no token the token-aware
    forms do not check that it is in-memory.) *)
Theorem two_device_restore_atomic p1 p2 bus :
  atomic_outcome (two_valid p1 p2 bus) p1 p2 bus (restore_two_virtio_blk_checkpoints_atomic (p1, p2) bus) ∧
  (∀ t, atomic_outcome (two_token_valid bus_completion t p1 p2 bus) p1 p2 bus
          (restore_two_virtio_blk_checkpoints_atomic_with_pending_completion (p1, p2) t bus)) ∧
  (∀ t, atomic_outcome (two_token_valid bus_notification t p1 p2 bus) p1 p2 bus
          (restore_two_virtio_blk_checkpoints_atomic_with_pending_notification (p1, p2) t bus)).
Proof.
  split_and!; [|intros t..].
  - apply atomic_of_runs; [apply restore_two_ok|by intros (?&(?&_)&(?&_)&?&?)|].
    eapply runs_mono; [apply restore_two_runs| |done]. intros ? ? (?&?&?&?&?&_). by split_and!.
  - apply atomic_of_runs; [apply restore_two_with_pending_ok|by intros (?&_&(?&_)&(?&_)&?&?)|].
    eapply runs_mono; [by apply restore_two_with_pending_runs; apply _| |done].
    intros ? ? (?&?&?&?&?&?&_). by split_and!.
  - apply atomic_of_runs; [apply restore_two_with_pending_ok|by intros (?&_&(?&_)&(?&_)&?&?)|].
    eapply runs_mono; [by apply restore_two_with_pending_runs; apply _| |done].
    intros ? ? (?&?&?&?&?&?&_). by split_and!.
Qed.
