(* ===== verification/LiveCheckpoint.v ===== *)
(** Checkpoints of the live machine: capturing, comparing and restoring the pages, vCPUs,
    interrupt controllers and MP states of a VM
    ([src/src/state_snapshot/page_set/controller.rs], [full_controller.rs],
    [src/src/state_snapshot/two_vcpu_checkpoint.rs], [src/src/vcpu/mp_state.rs]).

    The checkpoints themselves are the records of [ControllerSchema] and [TwoVcpuSchema].
    A vCPU is known by its id; its file descriptor acts on the state the kernel keeps for the whole
    VM.  Numbers interpolated into error messages are left out of the messages. *)

From stdpp Require Import sorting.
From S2P Require Import Prelude Errors Memory LongMode Msr VcpuState SchemaV1 PageSet Envelope Irqchip.
From S2P Require Import PageCheckpoint VcpuStateSchema ControllerSchema TwoVcpuSchema.

(** * The machine *)

(** The kernel's side of a VM: the ioctls of each vCPU, of the interrupt controllers and of the
    MP states; [K] is what the kernel keeps. *)
Class KvmMachine (K : Type) := {
  vcpu_fd : Z → KvmVcpu K;
  machine_irqchips :: KvmIrqchips K;
  ioctl_get_mp_state : Z → K → res io_error Z;
  ioctl_set_mp_state : Z → Z → prog K io_error unit
}.
(** The VM: the kernel state and the registered guest memory. *)
Record Machine (K : Type) := mkMachine { kernel : K; vm_memory : option GuestMemory }.
Arguments mkMachine {K}.
Arguments kernel {K}.
Arguments vm_memory {K}.

Section live.
Context {K : Type} `{!KvmMachine K}.
Definition in_kernel {A} (f : prog K Error A) : prog (Machine K) Error A := λ w,
  let '(r, k) := f (kernel w) in (r, mkMachine k (vm_memory w)).
(** [vm.guest_memory().ok_or_else(..)]. *)
Definition guest_memory (missing : Error) : prog (Machine K) Error GuestMemory :=
  reading (λ w, ok_or (vm_memory w) missing).
(** The same with [guest_memory_mut]: what [f] does to the memory stays. *)
Definition with_guest_memory {A} (missing : Error) (f : prog (K * GuestMemory) Error A)
    : prog (Machine K) Error A := λ w,
  match vm_memory w with
  | None => (Err missing, w)
  | Some m => let '(r, (k, m')) := f (kernel w, m) in (r, mkMachine k (Some m'))
  end.

(** * One vCPU and the master PIC *)
Definition restore_controller_components_with (restore_pic restore_lapic : prog (Machine K) Error unit)
    : prog (Machine K) Error unit :=
  restore_pic;;
  restore_lapic;;
  mret tt.
Definition controller_capture (id : Z) (policy : GuestMsrAccessPolicy) (addresses : list Z)
    : prog (Machine K) Error BoundedControllerCheckpoint :=
  memory ← guest_memory (page_set_error "controller checkpoint capture" "VM has no registered guest memory");
  guest ← in_kernel (reading (@capture_page_set K (vcpu_fd id) id policy memory addresses));
  master_pic ← in_kernel capture_master_pic_state;
  lapic ← in_kernel (capture_lapic_checkpoint_state id);
  mret {| base_guest := guest; base_master_pic := master_pic; base_lapic := lapic |}.
Record BoundedControllerCheckpointComparison := {
  cc_guest : BoundedPageSetCheckpointComparison; cc_master_pic : bool; cc_lapic : bool
}.
Definition cc_is_exact_match (c : BoundedControllerCheckpointComparison) : bool :=
  page_set_is_exact_match (cc_guest c) && cc_master_pic c && cc_lapic c.
Definition controller_verify (self : BoundedControllerCheckpoint) (id : Z)
    : prog (Machine K) Error BoundedControllerCheckpointComparison :=
  memory ← guest_memory (page_set_error "controller checkpoint verification" "VM has no registered guest memory");
  guest ← in_kernel (reading (λ k, @verify_page_set K (vcpu_fd id) id (base_guest self) k memory));
  master_pic ← in_kernel capture_master_pic_state;
  lapic ← in_kernel (capture_lapic_checkpoint_state id);
  mret {| cc_guest := guest; cc_master_pic := bool_decide (master_pic = base_master_pic self);
          cc_lapic := bool_decide (lapic = base_lapic self) |}.
Definition controller_restore_and_verify (self : BoundedControllerCheckpoint) (id : Z)
    : prog (Machine K) Error BoundedControllerCheckpointComparison :=
  guest ← with_guest_memory
    (page_set_error "controller checkpoint restore" "VM has no registered guest memory")
    (@restore_and_verify_page_set K (vcpu_fd id) id (base_guest self));
  lift (err_if (negb (page_set_is_exact_match guest))
    (page_set_error "controller checkpoint guest restore verification"
       "page/VCPU state was not exact after bounded restore; controller restore was not attempted"));;
  restore_controller_components_with
    (in_kernel (restore_master_pic_state (base_master_pic self)))
    (in_kernel (restore_lapic_checkpoint_state id (base_lapic self)));;
  controller_verify self id.

(** * One vCPU and all the controllers *)
Definition restore_full_controller_components_with
    (restore_master restore_slave restore_ioapic restore_lapic : prog (Machine K) Error unit)
    : prog (Machine K) Error unit :=
  restore_master;;
  restore_slave;;
  restore_ioapic;;
  restore_lapic;;
  mret tt.
Definition full_capture (id : Z) (policy : GuestMsrAccessPolicy) (addresses : list Z)
    : prog (Machine K) Error BoundedFullControllerCheckpoint :=
  base ← controller_capture id policy addresses;
  slave_pic ← in_kernel capture_slave_pic_state;
  ioapic ← in_kernel capture_ioapic_state;
  lift (err_if (negb (ioapic_irr ioapic =? 0))
    (page_set_error "full controller checkpoint IOAPIC quiescence"
       "pending IOAPIC IRR is outside the bounded checkpoint contract"));;
  mret {| full_base := base; full_slave_pic := slave_pic; full_ioapic := ioapic |}.
Record BoundedFullControllerCheckpointComparison := {
  fcc_base : BoundedControllerCheckpointComparison; fcc_slave_pic : bool; fcc_ioapic : bool
}.
Definition fcc_is_exact_match (c : BoundedFullControllerCheckpointComparison) : bool :=
  cc_is_exact_match (fcc_base c) && fcc_slave_pic c && fcc_ioapic c.
Definition full_verify (self : BoundedFullControllerCheckpoint) (id : Z)
    : prog (Machine K) Error BoundedFullControllerCheckpointComparison :=
  base ← controller_verify (full_base self) id;
  slave_pic ← in_kernel capture_slave_pic_state;
  ioapic ← in_kernel capture_ioapic_state;
  mret {| fcc_base := base; fcc_slave_pic := bool_decide (slave_pic = full_slave_pic self);
          fcc_ioapic := bool_decide (ioapic = full_ioapic self) |}.
Definition full_restore_and_verify (self : BoundedFullControllerCheckpoint) (id : Z)
    : prog (Machine K) Error BoundedFullControllerCheckpointComparison :=
  guest ← with_guest_memory
    (page_set_error "full controller checkpoint restore" "VM has no registered guest memory")
    (@restore_and_verify_page_set K (vcpu_fd id) id (base_guest (full_base self)));
  lift (err_if (negb (page_set_is_exact_match guest))
    (page_set_error "full controller checkpoint guest restore verification"
       "page/VCPU state was not exact after bounded restore; controller restore was not attempted"));;
  restore_full_controller_components_with
    (in_kernel (restore_master_pic_state (base_master_pic (full_base self))))
    (in_kernel (restore_slave_pic_state (full_slave_pic self)))
    (in_kernel (restore_ioapic_state (full_ioapic self)))
    (in_kernel (restore_lapic_checkpoint_state id (base_lapic (full_base self))));;
  full_verify self id.

(** * MP states *)
Definition KVM_MP_STATE_RUNNABLE : Z := 0.
Definition KVM_MP_STATE_UNINITIALIZED : Z := 1.
Definition multiprocessing_state (id : Z) : prog K Error Z :=
  reading (λ k, map_err (vcpu_operation id "KVM_GET_MP_STATE") (ioctl_get_mp_state id k)).
Definition set_multiprocessing_state (id state : Z) : prog K Error unit :=
  pmap_err (vcpu_operation id "KVM_SET_MP_STATE") (ioctl_set_mp_state id state).
Definition multiprocessing_state_raw (id : Z) : prog K Error Z := multiprocessing_state id.
Definition restore_multiprocessing_state_raw (id raw : Z) : prog K Error Z :=
  set_multiprocessing_state id raw;;
  observed ← multiprocessing_state id;
  lift (err_if (negb (observed =? raw))
    (vcpu_operation id "verify KVM_SET_MP_STATE checkpoint readback"
       (io_invalid_data "vCPU MP state after checkpoint restore")));;
  mret observed.
Definition ensure_runnable_mp_state (id : Z) : prog K Error Z :=
  initial ← multiprocessing_state id;
  lift (err_if (negb (initial =? KVM_MP_STATE_RUNNABLE) && negb (initial =? KVM_MP_STATE_UNINITIALIZED))
    (vcpu_operation id "validate initial KVM MP state"
       (io_invalid_data "expected RUNNABLE or UNINITIALIZED before host startup")));;
  set_multiprocessing_state id KVM_MP_STATE_RUNNABLE;;
  observed ← multiprocessing_state id;
  lift (err_if (negb (observed =? KVM_MP_STATE_RUNNABLE))
    (vcpu_operation id "verify KVM_SET_MP_STATE RUNNABLE readback"
       (io_invalid_data "expected RUNNABLE after host startup")));;
  mret observed.

(** * Two vCPUs *)
Definition two_vcpu_checkpoint_error (id : Z) (operation detail : string) : Error :=
  HostEnvironment (VcpuOperation id operation (Custom InvalidData (Message detail))).
(** [canonical_vcpu_pair] and [canonical_vcpu_pair_mut] differ in the operation of the error. *)
Definition canonical_vcpu_pair_for (operation : string) (first second : Z) : res Error (Z * Z) :=
  err_if (first =? second)
    (two_vcpu_checkpoint_error first operation "checkpoint requires two distinct vCPU ids");;
  mret (if first <? second then (first, second) else (second, first)).
Definition canonical_vcpu_pair := canonical_vcpu_pair_for "two-vCPU checkpoint ownership".
Definition canonical_vcpu_pair_mut := canonical_vcpu_pair_for "two-vCPU checkpoint mutable ownership".

Definition two_capture (first second : Z) (policy : GuestMsrAccessPolicy) (memory : GuestMemory)
    (addresses : list Z) : prog K Error BoundedTwoVcpuCheckpoint :=
  '(id0, id1) ← lift (canonical_vcpu_pair first second);
  primary ← reading (@capture_page_set K (vcpu_fd id0) id0 policy memory addresses);
  secondary ← reading (@capture_state_snapshot K (vcpu_fd id1) id1 policy);
  mret {| primary_id := id0; primary := primary; secondary_id := id1; secondary := secondary |}.
Record BoundedTwoVcpuCheckpointComparison := {
  tc_primary_id : Z; tc_primary : BoundedPageSetCheckpointComparison; tc_secondary_id : Z;
  tc_secondary : VcpuStateSnapshotComparison
}.
Definition tc_is_exact_match (c : BoundedTwoVcpuCheckpointComparison) : bool :=
  page_set_is_exact_match (tc_primary c) && state_is_exact_match (tc_secondary c).
Definition two_bind_vcpus (self : BoundedTwoVcpuCheckpoint) (first second : Z) : res Error (Z * Z) :=
  pair ← canonical_vcpu_pair first second;
  err_if (bool_decide (pair ≠ vcpu_ids self))
    (two_vcpu_checkpoint_error pair.1 "two-vCPU checkpoint binding" "checkpoint owns other vCPUs");;
  mret pair.
Definition two_verify (self : BoundedTwoVcpuCheckpoint) (first second : Z) (memory : GuestMemory)
    : prog K Error BoundedTwoVcpuCheckpointComparison :=
  '(id0, id1) ← lift (two_bind_vcpus self first second);
  primary ← reading (λ k, @verify_page_set K (vcpu_fd id0) id0 (primary self) k memory);
  secondary ← reading (@verify_state_snapshot K (vcpu_fd id1) id1 (secondary self));
  mret {| tc_primary_id := primary_id self; tc_primary := primary;
          tc_secondary_id := secondary_id self; tc_secondary := secondary |}.
Definition two_restore_and_verify (self : BoundedTwoVcpuCheckpoint) (first second : Z)
    : prog (K * GuestMemory) Error BoundedTwoVcpuCheckpointComparison :=
  '(id0, id1) ← lift (two_bind_vcpus self first second);
  primary ← @restore_and_verify_page_set K (vcpu_fd id0) id0 (primary self);
  secondary ← on_kernel (@restore_and_verify_state_snapshot K (vcpu_fd id1) id1 (secondary self));
  mret {| tc_primary_id := primary_id self; tc_primary := primary;
          tc_secondary_id := secondary_id self; tc_secondary := secondary |}.

Definition two_full_capture (first second : Z) (policy : GuestMsrAccessPolicy) (addresses : list Z)
    : prog (Machine K) Error BoundedTwoVcpuFullControllerCheckpoint :=
  memory ← guest_memory (two_vcpu_checkpoint_error 0 "two-vCPU full-controller checkpoint capture"
                           "VM has no registered guest memory");
  base ← in_kernel (two_capture first second policy memory addresses);
  '(id0, id1) ← lift (canonical_vcpu_pair first second);
  master_pic ← in_kernel capture_master_pic_state;
  slave_pic ← in_kernel capture_slave_pic_state;
  ioapic ← in_kernel capture_ioapic_state;
  lapic0 ← in_kernel (capture_lapic_checkpoint_state id0);
  lapic1 ← in_kernel (capture_lapic_checkpoint_state id1);
  mp0 ← in_kernel (multiprocessing_state_raw id0);
  mp1 ← in_kernel (multiprocessing_state_raw id1);
  mret {| v2_base := base; v2_master_pic := master_pic; v2_slave_pic := slave_pic; v2_ioapic := ioapic;
          v2_lapics := ((id0, lapic0), (id1, lapic1)); v2_mp_states := ((id0, mp0), (id1, mp1)) |}.
Record BoundedTwoVcpuFullControllerCheckpointComparison := {
  tfc_base : BoundedTwoVcpuCheckpointComparison; tfc_master_pic : bool; tfc_slave_pic : bool;
  tfc_ioapic : bool; tfc_lapics : bool * bool; tfc_mp_states : bool * bool
}.
Definition tfc_is_exact_match (c : BoundedTwoVcpuFullControllerCheckpointComparison) : bool :=
  tc_is_exact_match (tfc_base c) && tfc_master_pic c && tfc_slave_pic c && tfc_ioapic c
  && bool_decide (tfc_lapics c = (true, true)) && bool_decide (tfc_mp_states c = (true, true)).
Definition require_bound_vcpus (self : BoundedTwoVcpuFullControllerCheckpoint) (pair : Z * Z) : res Error unit :=
  err_if (bool_decide (pair ≠ vcpu_ids (v2_base self))
          || negb ((v2_lapics self).1.1 =? pair.1) || negb ((v2_lapics self).2.1 =? pair.2)
          || negb ((v2_mp_states self).1.1 =? pair.1) || negb ((v2_mp_states self).2.1 =? pair.2))
    (two_vcpu_checkpoint_error pair.1 "two-vCPU full-controller checkpoint binding"
       "checkpoint owns other vCPUs, LAPICs or MP states").
Definition two_full_bind_vcpus (self : BoundedTwoVcpuFullControllerCheckpoint) (first second : Z)
    : res Error (Z * Z) :=
  pair ← canonical_vcpu_pair first second;
  require_bound_vcpus self pair;;
  mret pair.
Definition two_full_verify (self : BoundedTwoVcpuFullControllerCheckpoint) (first second : Z)
    : prog (Machine K) Error BoundedTwoVcpuFullControllerCheckpointComparison :=
  memory ← guest_memory (two_vcpu_checkpoint_error 0 "two-vCPU full-controller checkpoint verify"
                           "VM has no registered guest memory");
  base ← in_kernel (two_verify (v2_base self) first second memory);
  '(id0, id1) ← lift (two_full_bind_vcpus self first second);
  master_pic ← in_kernel capture_master_pic_state;
  slave_pic ← in_kernel capture_slave_pic_state;
  ioapic ← in_kernel capture_ioapic_state;
  lapic0 ← in_kernel (capture_lapic_checkpoint_state id0);
  lapic1 ← in_kernel (capture_lapic_checkpoint_state id1);
  mp0 ← in_kernel (multiprocessing_state_raw id0);
  mp1 ← in_kernel (multiprocessing_state_raw id1);
  mret {| tfc_base := base; tfc_master_pic := bool_decide (master_pic = v2_master_pic self);
          tfc_slave_pic := bool_decide (slave_pic = v2_slave_pic self);
          tfc_ioapic := bool_decide (ioapic = v2_ioapic self);
          tfc_lapics := (bool_decide (lapic0 = (v2_lapics self).1.2), bool_decide (lapic1 = (v2_lapics self).2.2));
          tfc_mp_states := (mp0 =? (v2_mp_states self).1.2, mp1 =? (v2_mp_states self).2.2) |}.
Definition two_full_restore_and_verify (self : BoundedTwoVcpuFullControllerCheckpoint) (first second : Z)
    : prog (Machine K) Error BoundedTwoVcpuFullControllerCheckpointComparison :=
  '(id0, id1) ← lift (canonical_vcpu_pair_mut first second);
  lift (require_bound_vcpus self (id0, id1));;
  base ← with_guest_memory (two_vcpu_checkpoint_error 0 "two-vCPU full-controller checkpoint restore"
                              "VM has no registered guest memory")
           (two_restore_and_verify (v2_base self) id0 id1);
  lift (err_if (negb (tc_is_exact_match base))
    (two_vcpu_checkpoint_error id0 "two-vCPU full-controller guest restore verification"
       "page/vCPU state was not exact; MP/controller restore was not attempted"));;
  mp0 ← in_kernel (restore_multiprocessing_state_raw id0 (v2_mp_states self).1.2);
  mp1 ← in_kernel (restore_multiprocessing_state_raw id1 (v2_mp_states self).2.2);
  lift (err_if (negb (mp0 =? (v2_mp_states self).1.2) || negb (mp1 =? (v2_mp_states self).2.2))
    (two_vcpu_checkpoint_error id0 "two-vCPU full-controller MP-state restore verification"
       "unexpected MP states"));;
  in_kernel (restore_master_pic_state (v2_master_pic self));;
  in_kernel (restore_slave_pic_state (v2_slave_pic self));;
  in_kernel (restore_ioapic_state (v2_ioapic self));;
  in_kernel (restore_lapic_checkpoint_state id0 (v2_lapics self).1.2);;
  in_kernel (restore_lapic_checkpoint_state id1 (v2_lapics self).2.2);;
  two_full_verify self id0 id1.
End live.

(** * What the kernel promises *)

(** The parts of the kernel state, and when two states agree on one. *)
Inductive Part := PVcpu (id : Z) | PChip (chip : Z) | PLapic (id : Z) | PMp (id : Z).
Section laws.
Context {K : Type} `{!KvmMachine K}.
Definition agree (p : Part) (k k' : K) : Prop :=
  match p with
  | PVcpu id =>
      @ioctl_get_regs K (vcpu_fd id) k' = @ioctl_get_regs K (vcpu_fd id) k ∧
      @ioctl_get_sregs K (vcpu_fd id) k' = @ioctl_get_sregs K (vcpu_fd id) k ∧
      ∀ indices, @ioctl_get_msrs K (vcpu_fd id) indices k' = @ioctl_get_msrs K (vcpu_fd id) indices k
  | PChip chip => ioctl_get_irqchip (irqchip_request chip) k' = ioctl_get_irqchip (irqchip_request chip) k
  | PLapic id => ioctl_get_lapic id k' = ioctl_get_lapic id k
  | PMp id => ioctl_get_mp_state id k' = ioctl_get_mp_state id k
  end.
(** [m] changes no part but [p]. *)
Definition only {E A} (p : Part) (m : prog K E A) : Prop :=
  ∀ k q, q ≠ p → agree q k (m k).2.
End laws.
(** The kernel keeps what it is given: every ioctl that sets a part changes only that part, and what
    is set is read back.  [apart] are the MSRs that do not alias other state. *)
Class KvmMachineLaws (K : Type) `{!KvmMachine K} (apart : Z → Prop) := {
  vcpu_fd_laws id : @KvmVcpuLaws K (vcpu_fd id) apart;
  only_set_regs id r : only (PVcpu id) (@ioctl_set_regs K (vcpu_fd id) r);
  only_set_sregs id s : only (PVcpu id) (@ioctl_set_sregs K (vcpu_fd id) s);
  only_set_msrs id es : only (PVcpu id) (@ioctl_set_msrs K (vcpu_fd id) es);
  only_set_irqchip r : only (PChip (chip_id r)) (ioctl_set_irqchip r);
  only_set_lapic id s : only (PLapic id) (ioctl_set_lapic id s);
  only_set_mp_state id s : only (PMp id) (ioctl_set_mp_state id s);
  get_irqchip_shape r k c : ioctl_get_irqchip r k = Ok c →
    len (chip c) = KVM_IRQCHIP_PAYLOAD_SIZE ∧ bytes_ok (chip c);
  set_irqchip_law r k :
    runs (ioctl_set_irqchip r) k (λ _ k', ioctl_get_irqchip (irqchip_request (chip_id r)) k' = Ok r) (λ _ _, True);
  set_lapic_law id s k : runs (ioctl_set_lapic id s) k (λ _ k', ioctl_get_lapic id k' = Ok s) (λ _ _, True);
  set_mp_state_law id s k :
    runs (ioctl_set_mp_state id s) k (λ _ k', ioctl_get_mp_state id k' = Ok s) (λ _ _, True)
}.

(** ** Frames *)
Section frames.
Context {K : Type} `{!KvmMachine K}.
Lemma agree_refl p (k : K) : agree p k k.
Proof. by destruct p; cbn; split_and?. Qed.
Lemma agree_trans p (k1 k2 k3 : K) : agree p k1 k2 → agree p k2 k3 → agree p k1 k3.
Proof.
  destruct p; cbn; [|congruence..]. intros (H1&H2&H3) (H1'&H2'&H3').
  split_and!; [congruence..|]. intros l. by rewrite H3', H3.
Qed.
Lemma only_bind {E A B} p (m : prog K E A) (f : A → prog K E B) :
  only p m → (∀ a, only p (f a)) → only p (m ≫= f).
Proof.
  intros Hm Hf k q Hq. specialize (Hm k q Hq). unfold mbind, prog_bind.
  destruct (m k) as [[a|e|] k1]; [|done..]. eapply agree_trans; [done|]. by apply Hf.
Qed.
Lemma only_ret {E A} p (a : A) : only p (mret a : prog K E A).
Proof. intros k q _. apply agree_refl. Qed.
Lemma only_lift {E A} p (m : res E A) : only p (lift m : prog K E A).
Proof. intros k q _. apply agree_refl. Qed.
Lemma only_reading {E A} p (f : K → res E A) : only p (reading f).
Proof. intros k q _. apply agree_refl. Qed.
Lemma only_pmap_err {E F A} p (g : E → F) (m : prog K E A) : only p m → only p (pmap_err g m).
Proof. intros H k q Hq. by apply H. Qed.
Context {apart : Z → Prop} `{!KvmMachineLaws K apart}.
(** Restoring a vCPU changes only that vCPU. *)
Lemma only_restore_state id snap : only (PVcpu id) (@restore_and_verify_state_snapshot K (vcpu_fd id) id snap).
Proof.
  unfold restore_and_verify_state_snapshot, restore_state_snapshot, restore_special_register_snapshot,
    restore_register_snapshot, restore_msr_snapshot, set_msrs.
  apply only_bind; [|intros _; apply only_bind; [apply only_reading|intros; apply only_ret]].
  apply only_bind; [apply only_pmap_err, only_set_sregs|intros _].
  apply only_bind; [apply only_pmap_err, only_set_regs|intros _].
  apply only_bind; [|intros _; apply only_ret].
  apply only_bind; [apply only_lift|intros [request|]; [|apply only_ret]].
  apply only_bind; [apply only_pmap_err, only_set_msrs|intros; apply only_lift].
Qed.
Lemma capture_state_agree id policy (k k' : K) :
  agree (PVcpu id) k k' →
  @capture_state_snapshot K (vcpu_fd id) id policy k' = @capture_state_snapshot K (vcpu_fd id) id policy k.
Proof.
  intros (H1&H2&H3).
  assert (∀ l, @vcpu_msrs K (vcpu_fd id) id l k' = @vcpu_msrs K (vcpu_fd id) id l k) as Hm.
  { intros l. unfold vcpu_msrs. destruct (is_empty l); [done|].
    destruct (prepare_vcpu_msr_request l); [|done..]. cbn. by rewrite H3. }
  unfold capture_state_snapshot, capture_register_snapshot, capture_special_register_snapshot,
    capture_msr_snapshot, capture_msrs. by rewrite H1, H2, Hm.
Qed.
Lemma capture_page_set_agree id policy m addresses (k k' : K) :
  agree (PVcpu id) k k' →
  @capture_page_set K (vcpu_fd id) id policy m addresses k' = @capture_page_set K (vcpu_fd id) id policy m addresses k.
Proof. intros H. unfold capture_page_set. by rewrite (capture_state_agree id policy k k'). Qed.
End frames.

(** * Captures and comparisons only read *)
Definition reads_only {S E A} (m : prog S E A) : Prop := ∀ s, (m s).2 = s.
Create HintDb readers.
Section readers.
Context {S E : Type}.
Lemma reads_bind {A B} (m : prog S E A) (f : A → prog S E B) :
  reads_only m → (∀ a, reads_only (f a)) → reads_only (m ≫= f).
Proof.
  intros Hm Hf s. specialize (Hm s). unfold mbind, prog_bind. destruct (m s) as [[] s']; simpl in *; subst; [|done..].
  apply Hf.
Qed.
Lemma reads_ret {A} (a : A) : reads_only (mret a : prog S E A).
Proof. done. Qed.
Lemma reads_lift {A} (m : res E A) : reads_only (lift m : prog S E A).
Proof. done. Qed.
Lemma reads_reading {A} (f : S → res E A) : reads_only (reading f).
Proof. done. Qed.
Lemma reader_inv {A B} (m : prog S E A) (f : A → prog S E B) s b s' :
  reads_only m → (m ≫= f) s = (Ok b, s') → ∃ a, m s = (Ok a, s) ∧ f a s = (Ok b, s').
Proof.
  intros Hm H. apply prog_bind_Ok_inv in H as (a&s1&Ha&Hf). exists a.
  pose proof (Hm s) as Hs. rewrite Ha in Hs. simpl in Hs. by subst.
Qed.
Lemma reading_Ok {A} (f : S → res E A) s a s' : reading f s = (Ok a, s') ↔ f s = Ok a ∧ s' = s.
Proof. unfold reading. split; [by intros [= -> ->]|by intros [-> ->]]. Qed.
Lemma lift_Ok {A} (m : res E A) s a s' : (lift m : prog S E A) s = (Ok a, s') ↔ m = Ok a ∧ s' = s.
Proof. unfold lift. split; [by intros [= -> ->]|by intros [-> ->]]. Qed.
End readers.
#[export] Hint Resolve reads_bind reads_ret reads_lift reads_reading : readers.
#[export] Hint Extern 5 (reads_only (match ?x with _ => _ end)) => destruct x : readers.
Ltac reads := auto 30 with readers.

Section live_facts.
Context {K : Type} `{!KvmMachine K}.
Lemma reads_in_kernel {A} (f : prog K Error A) : reads_only f → reads_only (in_kernel f).
Proof. intros H w. unfold in_kernel. specialize (H (kernel w)). destruct (f (kernel w)). simpl in *. subst. by destruct w. Qed.
Lemma in_kernel_Ok {A} (f : prog K Error A) w a :
  reads_only f → in_kernel f w = (Ok a, w) ↔ f (kernel w) = (Ok a, kernel w).
Proof.
  intros H. unfold in_kernel. specialize (H (kernel w)). destruct (f (kernel w)) as [r k]. simpl in *. subst.
  destruct w. simpl. naive_solver.
Qed.
Lemma in_kernel_step {A} (f : prog K Error A) k m a k' :
  f k = (Ok a, k') → in_kernel f (mkMachine k m) = (Ok a, mkMachine k' m).
Proof. unfold in_kernel. simpl. by intros ->. Qed.
Lemma reads_guest_memory e : reads_only (guest_memory (K:=K) e).
Proof. apply reads_reading. Qed.
Lemma guest_memory_Ok e w m w' : guest_memory (K:=K) e w = (Ok m, w') ↔ vm_memory w = Some m ∧ w' = w.
Proof.
  unfold guest_memory. rewrite reading_Ok. split; [intros [H ->]|intros [-> ->]; done].
  by apply ok_or_Ok_inv in H.
Qed.
Lemma reads_irqchip id name : reads_only (capture_irqchip (W:=K) id name).
Proof. unfold capture_irqchip. reads. Qed.
Lemma reads_master : reads_only (capture_master_pic_state (W:=K)).
Proof. apply reads_bind; [apply reads_irqchip|reads]. Qed.
Lemma reads_slave : reads_only (capture_slave_pic_state (W:=K)).
Proof. apply reads_bind; [apply reads_irqchip|reads]. Qed.
Lemma reads_ioapic : reads_only (capture_ioapic_state (W:=K)).
Proof. apply reads_bind; [apply reads_irqchip|reads]. Qed.
Lemma reads_lapic id : reads_only (capture_lapic_checkpoint_state (W:=K) id).
Proof. apply reads_reading. Qed.
Lemma reads_mp id : reads_only (multiprocessing_state (K:=K) id).
Proof. apply reads_reading. Qed.
Hint Resolve reads_in_kernel reads_guest_memory reads_master reads_slave reads_ioapic reads_lapic
  reads_mp : readers.
Lemma reads_controller_capture id policy addresses : reads_only (controller_capture (K:=K) id policy addresses).
Proof. unfold controller_capture. reads. Qed.
Lemma reads_controller_verify ck id : reads_only (controller_verify (K:=K) ck id).
Proof. unfold controller_verify. reads. Qed.
Hint Resolve reads_controller_capture reads_controller_verify : readers.
Lemma reads_full_verify ck id : reads_only (full_verify (K:=K) ck id).
Proof. unfold full_verify. reads. Qed.
Lemma reads_two_capture a b policy m addresses : reads_only (two_capture (K:=K) a b policy m addresses).
Proof. unfold two_capture. reads. Qed.
Lemma reads_two_verify ck a b m : reads_only (two_verify (K:=K) ck a b m).
Proof. unfold two_verify. reads. Qed.
Hint Resolve reads_two_capture reads_two_verify : readers.
Lemma reads_two_full_verify ck a b : reads_only (two_full_verify (K:=K) ck a b).
Proof. unfold two_full_verify, multiprocessing_state_raw. reads. Qed.
End live_facts.
#[export] Hint Resolve reads_in_kernel reads_guest_memory reads_master reads_slave reads_ioapic reads_lapic
  reads_mp reads_controller_capture reads_controller_verify reads_full_verify reads_two_capture
  reads_two_verify reads_two_full_verify : readers.
(** [readers_inv H] takes apart a successful run of a sequence of readers. *)
Ltac readers_inv H :=
  repeat (apply reader_inv in H; [|by reads]; let a := fresh "a" in let H1 := fresh "Hr" in
          destruct H as (a & H1 & H); try (let a1 := fresh "id" in let a2 := fresh "id" in
            lazymatch type of a with (Z * Z)%type => destruct a as [a1 a2] end); cbv beta iota in H;
          try lazymatch type of H1 with in_kernel _ _ = _ => apply in_kernel_Ok in H1; [|by reads] end;
          try lazymatch type of H1 with
          | reading _ _ = _ => apply reading_Ok in H1 as [H1 _]
          | lift _ _ = _ => apply lift_Ok in H1 as [H1 _]
          | guest_memory _ _ = _ => apply guest_memory_Ok in H1 as [H1 _]
          end);
  try (injection H as H; subst).
Ltac reader_steps := repeat (match goal with
  | H : vm_memory ?w = Some ?m |- context [(guest_memory ?e ≫= ?f) ?w] =>
      rewrite (prog_bind_step (guest_memory e) f w m w) by (by apply guest_memory_Ok)
  | H : ?f (kernel ?w) = Ok ?a |- context [(in_kernel (reading ?f) ≫= ?g) ?w] =>
      rewrite (prog_bind_step (in_kernel (reading f)) g w a w)
        by (apply in_kernel_Ok; [by reads|]; by apply reading_Ok)
  | H : ?f (kernel ?w) = (Ok ?a, kernel ?w) |- context [(in_kernel ?f ≫= ?g) ?w] =>
      rewrite (prog_bind_step (in_kernel f) g w a w) by (apply in_kernel_Ok; [by reads|done])
  | H : ?f ?k = Ok ?a |- context [(reading ?f ≫= ?g) ?k] =>
      rewrite (prog_bind_step (reading f) g k a k) by (by apply reading_Ok)
  | H : ?m ?w = (Ok ?a, ?w) |- context [(?m ≫= ?g) ?w] => rewrite (prog_bind_step m g w a w H)
  | H : ?m = Ok ?a |- context [(lift ?m ≫= ?g) ?w] => rewrite (prog_bind_step (lift m) g w a w) by (by rewrite H)
  end; cbv beta iota).

Section verdicts.
Context {K : Type} `{!KvmMachine K} (policy : GuestMsrAccessPolicy) (addresses : list Z).
Hypothesis addresses_ok : Forall (λ a, 0 ≤ a) addresses.
Definition machine_wf (w : Machine K) : Prop := ∀ m, vm_memory w = Some m → memory_wf m.
Lemma controller_verdict id ck c (w0 w : Machine K) w0' w' :
  machine_wf w0 → machine_wf w → controller_capture id policy addresses w0 = (Ok ck, w0') →
  controller_verify ck id w = (Ok c, w') →
  cc_is_exact_match c = true ↔ controller_capture id policy addresses w = (Ok ck, w).
Proof.
  intros Hw0 Hw Hc Hv. unfold controller_capture in Hc. readers_inv Hc. unfold controller_verify in Hv. readers_inv Hv.
  cbn [base_guest base_master_pic base_lapic] in *.
  pose proof (@page_set_verdict K (vcpu_fd id) id policy addresses _ _ _ _ _ _ (Hw0 _ Hr) (Hw _ Hr3) addresses_ok Hr0 Hr4) as Hp.
  unfold cc_is_exact_match. cbn [cc_guest cc_master_pic cc_lapic].
  rewrite !andb_true_iff, Hp, !bool_decide_eq_true. split.
  - intros [[Hg ->] ->]. unfold controller_capture. by reader_steps.
  - intros H. unfold controller_capture in H. readers_inv H. cbn in *.
    split_and!; congruence.
Qed.
Lemma full_verdict id ck c (w0 w : Machine K) w0' w' :
  machine_wf w0 → machine_wf w → full_capture id policy addresses w0 = (Ok ck, w0') →
  full_verify ck id w = (Ok c, w') →
  fcc_is_exact_match c = true ↔ full_capture id policy addresses w = (Ok ck, w).
Proof.
  intros Hw0 Hw Hc Hv. unfold full_capture in Hc. readers_inv Hc. unfold full_verify in Hv. readers_inv Hv.
  cbn [full_base full_slave_pic full_ioapic] in *.
  pose proof (controller_verdict _ _ _ _ _ _ _ Hw0 Hw Hr Hr3) as Hp.
  unfold fcc_is_exact_match. cbn [fcc_base fcc_slave_pic fcc_ioapic].
  rewrite !andb_true_iff, Hp, !bool_decide_eq_true. split.
  - intros [[Hg ->] ->]. unfold full_capture. by reader_steps.
  - intros H. unfold full_capture in H. readers_inv H. cbn in *. split_and!; congruence.
Qed.
Lemma two_verdict a b ck c m0 m (k0 k : K) k0' k' :
  memory_wf m0 → memory_wf m → two_capture a b policy m0 addresses k0 = (Ok ck, k0') →
  two_verify ck a b m k = (Ok c, k') →
  tc_is_exact_match c = true ↔ two_capture a b policy m addresses k = (Ok ck, k).
Proof.
  intros Hm0 Hm Hc Hv. unfold two_capture in Hc. readers_inv Hc. rename id0 into id', id into id0. rename id' into id1.
  unfold two_verify in Hv. readers_inv Hv. unfold two_bind_vcpus in Hr2. bind_inv Hr2.
  rewrite Hr in Hstep. injection Hstep as <- <-.
  cbn [primary secondary] in *.
  pose proof (@page_set_verdict K (vcpu_fd id0) id0 policy addresses _ _ _ _ _ _ Hm0 Hm addresses_ok Hr0 Hr3) as Hp.
  pose proof (@state_verdict K (vcpu_fd id1) id1 policy _ _ _ _ Hr1 Hr4) as Hs.
  unfold tc_is_exact_match. cbn [tc_primary tc_secondary]. rewrite andb_true_iff, Hp, Hs. split.
  - intros [Hg Hg']. unfold two_capture. by reader_steps.
  - intros H. unfold two_capture in H. readers_inv H. by split.
Qed.
Lemma two_full_verdict a b ck c (w0 w : Machine K) w0' w' :
  machine_wf w0 → machine_wf w → two_full_capture a b policy addresses w0 = (Ok ck, w0') →
  two_full_verify ck a b w = (Ok c, w') →
  tfc_is_exact_match c = true ↔ two_full_capture a b policy addresses w = (Ok ck, w).
Proof.
  intros Hw0 Hw Hc Hv. unfold two_full_capture in Hc. readers_inv Hc. unfold two_full_verify in Hv. readers_inv Hv.
  match goal with H : two_full_bind_vcpus _ _ _ = _ |- _ => unfold two_full_bind_vcpus in H; bind_inv H end.
  match goal with H : canonical_vcpu_pair a b = Ok ?p, H' : canonical_vcpu_pair a b = Ok ?q |- _ =>
    assert (p = q) as [= -> ->] by congruence; clear H' end.
  cbn [v2_base v2_master_pic v2_slave_pic v2_ioapic v2_lapics v2_mp_states fst snd] in *.
  match goal with H0 : two_capture _ _ _ _ _ _ = _, H1 : two_verify _ _ _ _ _ = _,
      Hm0 : vm_memory w0' = Some _, Hm : vm_memory w' = Some _ |- _ =>
    pose proof (two_verdict _ _ _ _ _ _ _ _ _ _ (Hw0 _ Hm0) (Hw _ Hm) H0 H1) as Hp end.
  unfold tfc_is_exact_match. cbn [tfc_base tfc_master_pic tfc_slave_pic tfc_ioapic tfc_lapics tfc_mp_states].
  rewrite !andb_true_iff, Hp, !bool_decide_eq_true. split.
  - intros (((((Hg&->)&->)&->)&Hl)&Hmp). injection Hl as ->%bool_decide_eq_true ->%bool_decide_eq_true.
    injection Hmp as ->%Z.eqb_eq ->%Z.eqb_eq. unfold two_full_capture. by reader_steps.
  - intros H. unfold two_full_capture in H. readers_inv H.
    split_and!; try congruence; f_equal; try apply bool_decide_eq_true; try apply Z.eqb_eq; congruence.
Qed.
End verdicts.

(** * Restoring brings the parts back *)
Section parts.
Context {K : Type} `{!KvmMachine K} {apart : Z → Prop} `{!KvmMachineLaws K apart}.
Implicit Types k : K.
(** What a restore of one part did: the part captures as [a], the others are as they were. *)
Definition part_restored {A} (p : Part) (capture : prog K Error A) (a : A) (k k' : K) : Prop :=
  capture k' = (Ok a, k') ∧ ∀ q, q ≠ p → agree q k k'.
Lemma runs_only {E A} p (m : prog K E A) k Q X :
  runs m k Q X → only p m → runs m k (λ a k', Q a k' ∧ ∀ q, q ≠ p → agree q k k') X.
Proof. intros H Ho. specialize (Ho k). unfold runs in *. destruct (m k) as [[] k']; eauto. Qed.
Lemma restore_irqchip_runs r name k :
  chip_pad r = 0 →
  runs (restore_irqchip r name) k
    (λ _ k', part_restored (PChip (chip_id r)) (capture_irqchip (chip_id r) name) r k k') (λ _ _, True).
Proof.
  intros Hpad. unfold restore_irqchip. apply runs_pmap_err.
  eapply runs_mono; [apply (runs_only _ _ _ _ _ (set_irqchip_law r k) (only_set_irqchip r))| |done].
  intros _ k' [Hg Ha]. split; [|done]. unfold capture_irqchip.
  rewrite (prog_bind_step _ _ k' r k') by (unfold reading; by rewrite Hg).
  rewrite Z.eqb_refl, Hpad. done.
Qed.
Lemma decode_ioapic_chip c :
  len c = KVM_IRQCHIP_PAYLOAD_SIZE → bytes_ok c → ioapic_wf (decode_ioapic_state c).
Proof.
  intros Hl Hb. rewrite <- (take_drop 216 c). set (t := take 216 c).
  assert (len t = KVM_IOAPIC_STATE_SIZE) as Ht
    by (unfold t, len, KVM_IRQCHIP_PAYLOAD_SIZE, KVM_IOAPIC_STATE_SIZE in *; rewrite length_take; lia).
  destruct (ioapic_bytes_cover t) as [Hw He]; [by apply Forall_take|done|].
  rewrite ioapic_semantic_bytes_eq in He by done. rewrite <- He. by rewrite decode_ioapic_state_app.
Qed.
Lemma restore_master_runs s k :
  runs (restore_master_pic_state s) k
    (λ _ k', part_restored (PChip KVM_IRQCHIP_PIC_MASTER) capture_master_pic_state s k k') (λ _ _, True).
Proof.
  eapply runs_mono; [by apply restore_irqchip_runs| |done]. intros _ k' [Hc Ha]. split; [|done].
  unfold capture_master_pic_state. cbn [chip_id] in Hc. rewrite (prog_bind_step _ _ _ _ _ Hc).
  cbn [chip]. by rewrite encode_pic_state_bytes, decode_pic_state_app.
Qed.
Lemma restore_slave_runs s k :
  runs (restore_slave_pic_state s) k
    (λ _ k', part_restored (PChip KVM_IRQCHIP_PIC_SLAVE) capture_slave_pic_state s k k') (λ _ _, True).
Proof.
  eapply runs_mono; [by apply restore_irqchip_runs| |done]. intros _ k' [Hc Ha]. split; [|done].
  unfold capture_slave_pic_state. cbn [chip_id] in Hc. rewrite (prog_bind_step _ _ _ _ _ Hc).
  cbn [chip]. by rewrite encode_pic_state_bytes, decode_pic_state_app.
Qed.
Lemma restore_ioapic_runs s k :
  ioapic_wf s →
  runs (restore_ioapic_state s) k
    (λ _ k', part_restored (PChip KVM_IRQCHIP_IOAPIC) capture_ioapic_state s k k') (λ _ _, True).
Proof.
  intros Hs. eapply runs_mono; [by apply restore_irqchip_runs| |done]. intros _ k' [Hc Ha]. split; [|done].
  unfold capture_ioapic_state. cbn [chip_id] in Hc. rewrite (prog_bind_step _ _ _ _ _ Hc). cbn [chip].
  by rewrite encode_ioapic_state_bytes, decode_ioapic_state_app.
Qed.
Lemma restore_lapic_runs id s k :
  runs (restore_lapic_checkpoint_state id s) k
    (λ _ k', part_restored (PLapic id) (capture_lapic_checkpoint_state id) s k k') (λ _ _, True).
Proof.
  apply runs_pmap_err.
  eapply runs_mono; [apply (runs_only _ _ _ _ _ (set_lapic_law id s k) (only_set_lapic id s))| |done].
  intros _ k' [Hg Ha]. split; [|done]. unfold capture_lapic_checkpoint_state, reading. by rewrite Hg.
Qed.
Lemma restore_mp_runs id raw k :
  runs (restore_multiprocessing_state_raw id raw) k
    (λ a k', a = raw ∧ part_restored (PMp id) (multiprocessing_state_raw id) raw k k') (λ _ _, True).
Proof.
  apply runs_bind, runs_pmap_err.
  eapply runs_mono; [apply (runs_only _ _ _ _ _ (set_mp_state_law id raw k) (only_set_mp_state id raw))| |done].
  intros _ k' [Hg Ha].
  assert (multiprocessing_state id k' = (Ok raw, k')) as Hm by (unfold multiprocessing_state, reading; by rewrite Hg).
  unfold runs. rewrite (prog_bind_step _ _ _ _ _ Hm), Z.eqb_refl. by cbn.
Qed.
(** Captures of a part that two states agree on. *)
Lemma capture_irqchip_agree id name k k' r :
  agree (PChip id) k k' → capture_irqchip id name k = (Ok r, k) → capture_irqchip id name k' = (Ok r, k').
Proof.
  intros Ha H. cbn in Ha. unfold capture_irqchip in *. readers_inv H.
  rewrite (prog_bind_step _ _ k' r k') by (unfold reading; by rewrite Ha, Hr).
  by rewrite (prog_bind_step _ _ k' a0 k') by (unfold lift; by rewrite Hr0).
Qed.
Lemma chip_agree {A} id name (f : KvmIrqchip → A) k k' a :
  agree (PChip id) k k' →
  (r ← capture_irqchip id name; mret (f r)) k = (Ok a, k) → (r ← capture_irqchip id name; mret (f r)) k' = (Ok a, k').
Proof.
  intros Ha H. apply reader_inv in H as (r&Hr&H); [|apply reads_irqchip].
  rewrite (prog_bind_step _ _ _ _ _ (capture_irqchip_agree _ _ _ _ _ Ha Hr)). cbn in H. by injection H as ->.
Qed.
Lemma lapic_agree id k k' a :
  agree (PLapic id) k k' → capture_lapic_checkpoint_state id k = (Ok a, k) →
  capture_lapic_checkpoint_state id k' = (Ok a, k').
Proof. cbn. unfold capture_lapic_checkpoint_state, reading. intros -> H. by injection H as ->. Qed.
Lemma mp_agree id k k' a :
  agree (PMp id) k k' → multiprocessing_state_raw id k = (Ok a, k) → multiprocessing_state_raw id k' = (Ok a, k').
Proof. cbn. unfold multiprocessing_state_raw, multiprocessing_state, reading. intros -> H. by injection H as ->. Qed.
Lemma master_agree k k' a :
  agree (PChip KVM_IRQCHIP_PIC_MASTER) k k' → capture_master_pic_state k = (Ok a, k) →
  capture_master_pic_state k' = (Ok a, k').
Proof. apply chip_agree. Qed.
Lemma slave_agree k k' a :
  agree (PChip KVM_IRQCHIP_PIC_SLAVE) k k' → capture_slave_pic_state k = (Ok a, k) →
  capture_slave_pic_state k' = (Ok a, k').
Proof. apply chip_agree. Qed.
Lemma ioapic_agree k k' a :
  agree (PChip KVM_IRQCHIP_IOAPIC) k k' → capture_ioapic_state k = (Ok a, k) →
  capture_ioapic_state k' = (Ok a, k').
Proof. apply chip_agree. Qed.
Lemma page_set_agree id policy m addresses k k' a :
  agree (PVcpu id) k k' → @capture_page_set K (vcpu_fd id) id policy m addresses k = Ok a →
  @capture_page_set K (vcpu_fd id) id policy m addresses k' = Ok a.
Proof. intros H <-. by apply capture_page_set_agree. Qed.
Lemma state_agree id policy k k' a :
  agree (PVcpu id) k k' → @capture_state_snapshot K (vcpu_fd id) id policy k = Ok a →
  @capture_state_snapshot K (vcpu_fd id) id policy k' = Ok a.
Proof. intros H <-. by apply capture_state_agree. Qed.
Lemma captured_ioapic_wf k a : capture_ioapic_state k = (Ok a, k) → ioapic_wf a.
Proof.
  intros H. unfold capture_ioapic_state, capture_irqchip in H.
  apply reader_inv in H as (r&Hr&H); [|reads]. readers_inv Hr. cbn in H. injection H as <-.
  apply map_err_Ok_inv in Hr0. apply get_irqchip_shape in Hr0 as [? ?]. by apply decode_ioapic_chip.
Qed.
(** A captured IOAPIC state is one that can be restored. *)
Lemma ioapic_runs s k0 k :
  capture_ioapic_state k0 = (Ok s, k0) →
  runs (restore_ioapic_state s) k
    (λ _ k', part_restored (PChip KVM_IRQCHIP_IOAPIC) capture_ioapic_state s k k') (λ _ _, True).
Proof. intros H. by eapply restore_ioapic_runs, captured_ioapic_wf. Qed.
End parts.
(** [transport Ha] carries what is known of a state over to one that agrees with it. *)
Ltac transport Ha := repeat
  match type of Ha with ∀ q, q ≠ _ → agree q ?k ?k' =>
    match goal with
    | H : capture_master_pic_state k = _ |- _ => apply (master_agree k k') in H; [|by apply Ha]
    | H : capture_slave_pic_state k = _ |- _ => apply (slave_agree k k') in H; [|by apply Ha]
    | H : capture_ioapic_state k = _ |- _ => apply (ioapic_agree k k') in H; [|by apply Ha]
    | H : capture_lapic_checkpoint_state ?id k = _ |- _ => apply (lapic_agree id k k') in H; [|apply Ha; congruence]
    | H : multiprocessing_state_raw ?id k = _ |- _ => apply (mp_agree id k k') in H; [|apply Ha; congruence]
    | H : capture_page_set ?id _ _ _ k = _ |- _ => apply (page_set_agree id _ _ _ k k') in H; [|apply Ha; congruence]
    | H : capture_state_snapshot ?id _ k = _ |- _ => apply (state_agree id _ k k') in H; [|apply Ha; congruence]
    end
  end.

Lemma runs_in_kernel {K A} (f : prog K Error A) k m Q X :
  runs f k (λ a k', Q a (mkMachine k' m)) (λ e k', X e (mkMachine k' m)) → runs (in_kernel f) (mkMachine k m) Q X.
Proof. unfold runs, in_kernel. simpl. by destruct (f k) as [[] ?]. Qed.
(** One restored part of a sequence: [lem] says what it does. *)
Ltac restore_step lem k Hc Ha :=
  apply runs_bind, runs_in_kernel; eapply runs_mono; [by eapply lem| |done];
  intros _ k [Hc Ha]; transport Ha.

(** * Restoring brings the machine back *)
Section restores.
Context {K : Type} `{!KvmMachine K} {apart : Z → Prop} `{!KvmMachineLaws K apart}.
Context (policy : GuestMsrAccessPolicy) (addresses : list Z).
Hypothesis addresses_ok : Forall (λ a, 0 ≤ a) addresses.
Hypothesis policy_ok : Forall apart (policy_msr_indices policy).
Lemma runs_with_memory {A} e (f : prog (K * GuestMemory) Error A) k m Q X :
  runs f (k, m) (λ a '(k', m'), Q a (mkMachine k' (Some m'))) (λ e '(k', m'), X e (mkMachine k' (Some m'))) →
  runs (with_guest_memory e f) (mkMachine k (Some m)) Q X.
Proof. unfold runs, with_guest_memory. simpl. by destruct (f (k, m)) as [[] []]. Qed.
(** The memory of a machine over a region. *)
Definition memory_over (r : GuestMemoryRegion) (w : Machine K) : Prop :=
  ∃ m, vm_memory w = Some m ∧ memory_wf m ∧ region m = r.
Lemma memory_over_intro r k m : memory_wf m → region m = r → memory_over r (mkMachine k (Some m)).
Proof. intros. by exists m. Qed.
Hint Resolve memory_over_intro : core.
Lemma exact_pair {A} `{!EqDecision A} (a : A) : bool_decide (a = a) = true.
Proof. by apply bool_decide_eq_true. Qed.
Lemma controller_recaptured id ck (w : Machine K) :
  machine_wf w → controller_capture id policy addresses w = (Ok ck, w) →
  ∃ c, controller_verify ck id w = (Ok c, w) ∧ cc_is_exact_match c = true.
Proof.
  intros Hw H. unfold controller_capture in H. readers_inv H.
  destruct (@page_set_recaptured K (vcpu_fd id) id policy addresses _ _ _ (Hw _ Hr) addresses_ok Hr0) as (c&Hv&Hex).
  eexists. split.
  - unfold controller_verify. cbn [base_guest base_master_pic base_lapic].
    rewrite (prog_bind_step _ _ w a w) by (by apply guest_memory_Ok).
    rewrite (prog_bind_step _ _ w c w) by (apply in_kernel_Ok; [by reads|]; unfold reading; by rewrite Hv).
    by reader_steps.
  - unfold cc_is_exact_match. cbn. by rewrite Hex, !exact_pair.
Qed.
Lemma full_recaptured id ck (w : Machine K) :
  machine_wf w → full_capture id policy addresses w = (Ok ck, w) →
  ∃ c, full_verify ck id w = (Ok c, w) ∧ fcc_is_exact_match c = true.
Proof.
  intros Hw H. unfold full_capture in H. readers_inv H.
  destruct (controller_recaptured id _ w Hw Hr) as (c&Hv&Hex). eexists. split.
  - unfold full_verify. cbn [full_base full_slave_pic full_ioapic]. by reader_steps.
  - unfold fcc_is_exact_match. cbn. by rewrite Hex, !exact_pair.
Qed.
Lemma full_capture_intro id m g mp lp sp io (w : Machine K) :
  vm_memory w = Some m → @capture_page_set K (vcpu_fd id) id policy m addresses (kernel w) = Ok g →
  capture_master_pic_state (kernel w) = (Ok mp, kernel w) →
  capture_lapic_checkpoint_state id (kernel w) = (Ok lp, kernel w) →
  capture_slave_pic_state (kernel w) = (Ok sp, kernel w) →
  capture_ioapic_state (kernel w) = (Ok io, kernel w) → negb (ioapic_irr io =? 0) = false →
  full_capture id policy addresses w = (Ok {| full_base := {| base_guest := g; base_master_pic := mp;
    base_lapic := lp |}; full_slave_pic := sp; full_ioapic := io |}, w).
Proof.
  intros Hm Hg Hmp Hlp Hsp Hio Hirr.
  assert (controller_capture id policy addresses w =
    (Ok {| base_guest := g; base_master_pic := mp; base_lapic := lp |}, w)) as Hbase
    by (unfold controller_capture; by reader_steps).
  unfold full_capture. reader_steps. by rewrite Hirr.
Qed.
(** The one-vCPU checkpoint restored into any later state. *)
Lemma full_restores id ck (w0 : Machine K) w0' r w :
  memory_over r w0 → memory_over r w → full_capture id policy addresses w0 = (Ok ck, w0') →
  runs (full_restore_and_verify ck id) w
    (λ c w', fcc_is_exact_match c = true ∧ memory_over r w' ∧ full_capture id policy addresses w' = (Ok ck, w'))
    (λ _ w', memory_over r w').
Proof.
  intros (m0&Hm0&Hw0&Hr0') (m&Hm&Hwm&Hreg) H. unfold full_capture, controller_capture in H. readers_inv H.
  match goal with H : (_ ≫= _) _ = (Ok _, _) |- _ => readers_inv H end. simplify_eq.
  destruct w as [k ?]. cbn in Hm. subst. unfold full_restore_and_verify.
  cbn [full_base full_slave_pic full_ioapic base_guest base_master_pic base_lapic].
  apply runs_bind, runs_with_memory.
  destruct (@page_set_restores K (vcpu_fd id) apart (vcpu_fd_laws id) id policy addresses (kernel w0') k m0 m a4)
    as (_&_&Hrun); try done. eapply runs_mono; [exact Hrun| |].
  2: { intros e [k1 m1] [? ?]. apply memory_over_intro; [done|congruence]. }
  intros c1 [k1 m1] (Hex&Hg&Hwf1&Hreg1&_). apply runs_lift_ok with tt; [by rewrite Hex|].
  assert (∀ k', memory_over (region m0) (mkMachine k' (Some m1))) as Hmem
    by (intros; apply memory_over_intro; [done|congruence]).
  unfold restore_full_controller_components_with. apply runs_bind, runs_bind, runs_in_kernel.
  eapply runs_mono; [apply restore_master_runs| |done]. intros _ k2 [Hmaster Ha2]. transport Ha2.
  restore_step restore_slave_runs k3 Hslave Ha3.
  restore_step ioapic_runs k4 Hio Ha4.
  restore_step restore_lapic_runs k5 Hlapic Ha5. apply runs_ret.
  set (w5 := mkMachine k5 (Some m1)). set (ck := Build_BoundedFullControllerCheckpoint _ _ _).
  assert (full_capture id policy addresses w5 = (Ok ck, w5)) as Hcap
    by (apply (full_capture_intro id m1); try done; by apply err_if_Ok_inv in Hr2).
  destruct (full_recaptured id ck w5) as (c&Hv&Hce); [by intros ? [= <-]|done|].
  unfold runs. rewrite Hv. split_and!; [done|apply Hmem|done].
Qed.

(** ** Two vCPUs *)
Lemma canonical_pair_Ok op a b i j :
  canonical_vcpu_pair_for op a b = Ok (i, j) → i < j ∧ (∀ op', canonical_vcpu_pair_for op' a b = Ok (i, j)) ∧
    ∀ op', canonical_vcpu_pair_for op' i j = Ok (i, j).
Proof.
  unfold canonical_vcpu_pair_for. intros H. bind_inv H. destruct (Z.eqb_spec a b); [done|].
  assert (i < j) as Hij by (destruct (Z.ltb_spec a b); simplify_eq; lia).
  split_and!; [done| |intros; by rewrite (proj2 (Z.eqb_neq i j)), (proj2 (Z.ltb_lt i j)) by lia].
  intros. cbn. by rewrite H.
Qed.
Lemma two_capture_intro a b i j m g s (k : K) :
  canonical_vcpu_pair a b = Ok (i, j) →
  @capture_page_set K (vcpu_fd i) i policy m addresses k = Ok g → @capture_state_snapshot K (vcpu_fd j) j policy k = Ok s →
  two_capture a b policy m addresses k =
    (Ok {| primary_id := i; primary := g; secondary_id := j; secondary := s |}, k).
Proof. intros Hp Hg Hs. unfold two_capture. by reader_steps. Qed.
Lemma two_full_capture_intro a b i j m g s mp sp io l0 l1 p0 p1 (w : Machine K) :
  canonical_vcpu_pair a b = Ok (i, j) → vm_memory w = Some m →
  @capture_page_set K (vcpu_fd i) i policy m addresses (kernel w) = Ok g →
  @capture_state_snapshot K (vcpu_fd j) j policy (kernel w) = Ok s →
  capture_master_pic_state (kernel w) = (Ok mp, kernel w) →
  capture_slave_pic_state (kernel w) = (Ok sp, kernel w) →
  capture_ioapic_state (kernel w) = (Ok io, kernel w) →
  capture_lapic_checkpoint_state i (kernel w) = (Ok l0, kernel w) →
  capture_lapic_checkpoint_state j (kernel w) = (Ok l1, kernel w) →
  multiprocessing_state_raw i (kernel w) = (Ok p0, kernel w) →
  multiprocessing_state_raw j (kernel w) = (Ok p1, kernel w) →
  two_full_capture a b policy addresses w = (Ok {|
    v2_base := {| primary_id := i; primary := g; secondary_id := j; secondary := s |};
    v2_master_pic := mp; v2_slave_pic := sp; v2_ioapic := io; v2_lapics := ((i, l0), (j, l1));
    v2_mp_states := ((i, p0), (j, p1)) |}, w).
Proof.
  intros Hp Hm Hg Hs ???????. pose proof (two_capture_intro a b i j m g s (kernel w) Hp Hg Hs) as Hb.
  unfold two_full_capture. by reader_steps.
Qed.
Lemma two_recaptured a b ck m (k : K) :
  memory_wf m → two_capture a b policy m addresses k = (Ok ck, k) →
  ∃ c, two_verify ck a b m k = (Ok c, k) ∧ tc_is_exact_match c = true.
Proof.
  intros Hm H. unfold two_capture in H. readers_inv H.
  destruct (@page_set_recaptured K (vcpu_fd id) id policy addresses _ _ _ Hm addresses_ok Hr0) as (c&Hv&Hex).
  destruct (@state_recaptured K (vcpu_fd id0) id0 policy _ _ Hr1) as (c'&Hv'&Hex').
  eexists. split.
  - unfold two_verify, two_bind_vcpus. rewrite Hr. cbn [mbind res_bind vcpu_ids primary_id secondary_id].
    rewrite bool_decide_false by tauto. cbn [err_if mbind res_bind].
    rewrite (prog_bind_step _ _ k _ k) by done. cbv beta iota. cbn [primary secondary primary_id secondary_id].
    rewrite (prog_bind_step _ _ k c k) by (unfold reading; by rewrite Hv). by reader_steps.
  - unfold tc_is_exact_match. cbn. by rewrite Hex, Hex'.
Qed.
Lemma two_full_recaptured a b ck (w : Machine K) :
  machine_wf w → two_full_capture a b policy addresses w = (Ok ck, w) →
  ∃ c, two_full_verify ck a b w = (Ok c, w) ∧ tfc_is_exact_match c = true.
Proof.
  intros Hw H. unfold two_full_capture in H. readers_inv H.
  match goal with H0 : two_capture _ _ _ _ _ _ = _, Hm : vm_memory w = Some _ |- _ =>
    destruct (two_recaptured _ _ _ _ _ (Hw _ Hm) H0) as (c&Hv&Hex) end.
  assert (two_full_bind_vcpus {| v2_base := a1; v2_master_pic := a2; v2_slave_pic := a3; v2_ioapic := a4;
    v2_lapics := ((id, a5), (id0, a6)); v2_mp_states := ((id, a7), (id0, a8)) |} a b = Ok (id, id0)) as Hbind.
  { unfold two_full_bind_vcpus, require_bound_vcpus. rewrite Hr1. cbn.
    unfold two_capture in Hr0. readers_inv Hr0. unfold vcpu_ids. cbn.
    rewrite bool_decide_false by (intros Hne; apply Hne; congruence). by rewrite !Z.eqb_refl. }
  eexists. split.
  - unfold two_full_verify. cbn [v2_base]. by reader_steps.
  - unfold tfc_is_exact_match. cbn. by rewrite Hex, !exact_pair, !Z.eqb_refl.
Qed.
Lemma two_restores_runs ck i j m0 m (k0 k : K) :
  memory_wf m0 → memory_wf m → region m = region m0 → i ≠ j →
  @capture_page_set K (vcpu_fd i) i policy m0 addresses k0 = Ok (primary ck) →
  @capture_state_snapshot K (vcpu_fd j) j policy k0 = Ok (secondary ck) →
  two_bind_vcpus ck i j = Ok (i, j) →
  runs (two_restore_and_verify ck i j) (k, m)
    (λ c '(k', m'), tc_is_exact_match c = true ∧ memory_wf m' ∧ region m' = region m0 ∧
       @capture_page_set K (vcpu_fd i) i policy m' addresses k' = Ok (primary ck) ∧
       @capture_state_snapshot K (vcpu_fd j) j policy k' = Ok (secondary ck))
    (λ _ '(_, m'), memory_wf m' ∧ region m' = region m0).
Proof.
  intros Hm0 Hm Hreg Hij Hg Hs Hb. unfold two_restore_and_verify. eapply runs_lift_ok; [exact Hb|].
  destruct (@page_set_restores K (vcpu_fd i) apart (vcpu_fd_laws i) i policy addresses k0 k m0 m (primary ck))
    as (_&_&Hrun); try done.
  apply runs_bind. eapply runs_mono; [exact Hrun| |].
  2: { intros e [k1 m1] [? ?]. split; [done|congruence]. }
  intros c1 [k1 m1] (Hex&Hg1&Hwf1&Hreg1&_). apply runs_bind.
  pose proof (@restore_and_verify_runs K (vcpu_fd j) apart (vcpu_fd_laws j) j policy k0 k1 _ Hs policy_ok) as Hr.
  apply (runs_only (PVcpu j)) in Hr; [|apply only_restore_state].
  unfold runs, on_kernel in *. cbn [fst snd]. destruct (restore_and_verify_state_snapshot _ _ k1) as [[cv|e|] k2]; [| |done].
  - destruct Hr as [[Hcv Hs2] Ha]. transport Ha. cbn. split_and!; try done; [|congruence].
    unfold tc_is_exact_match. cbn. by rewrite Hex, Hcv.
  - split; [done|congruence].
Qed.
(** The two-vCPU checkpoint restored into any later state. *)
Lemma two_full_restores a b ck (w0 : Machine K) w0' r w :
  memory_over r w0 → memory_over r w → two_full_capture a b policy addresses w0 = (Ok ck, w0') →
  runs (two_full_restore_and_verify ck a b) w
    (λ c w', tfc_is_exact_match c = true ∧ memory_over r w' ∧
       two_full_capture a b policy addresses w' = (Ok ck, w'))
    (λ _ w', memory_over r w').
Proof.
  intros (m0&Hm0&Hw0&Hr0') (m&Hm&Hwm&Hreg) H. unfold two_full_capture in H. readers_inv H.
  unfold two_capture in Hr0. readers_inv Hr0. rewrite Hr1 in Hr9. injection Hr9 as <- <-. simplify_eq.
  destruct (canonical_pair_Ok _ _ _ _ _ Hr1) as (Hlt&Hmut&Hcan).
  destruct w as [k ?]. cbn in Hm. subst. unfold two_full_restore_and_verify.
  eapply runs_lift_ok; [apply Hmut|]. apply runs_lift_ok with tt.
  { unfold require_bound_vcpus, vcpu_ids. cbn. rewrite bool_decide_false by tauto. by rewrite !Z.eqb_refl. }
  apply runs_bind, runs_with_memory. eapply runs_mono.
  { eapply (two_restores_runs _ id id0 m0 m (kernel w0') k); try done; [lia|].
    unfold two_bind_vcpus, canonical_vcpu_pair. rewrite Hcan. cbn. unfold vcpu_ids. cbn.
    by rewrite bool_decide_false by tauto. }
  2: { intros e [k1 m1] [? ?]. by apply memory_over_intro. }
  intros c1 [k1 m1] (Hex&Hwf1&Hreg1&Hg&Hs). cbn [v2_base primary secondary] in Hg, Hs.
  apply runs_lift_ok with tt; [by rewrite Hex|].
  assert (∀ k', memory_over (region m0) (mkMachine k' (Some m1))) as Hmem by (intros; by apply memory_over_intro).
  assert (id ≠ id0) as Hne by lia. cbn [v2_mp_states v2_lapics v2_master_pic v2_slave_pic v2_ioapic fst snd].
  apply runs_bind, runs_in_kernel. eapply runs_mono; [apply restore_mp_runs| |done].
  intros ? k2 (->&Hp0&Ha2). transport Ha2.
  apply runs_bind, runs_in_kernel. eapply runs_mono; [apply restore_mp_runs| |done].
  intros ? k3 (->&Hp1&Ha3). transport Ha3. apply runs_lift_ok with tt; [by rewrite !Z.eqb_refl|].
  restore_step restore_master_runs k4 Hmaster Ha4.
  restore_step restore_slave_runs k5 Hslave Ha5.
  restore_step ioapic_runs k6 Hio Ha6.
  restore_step restore_lapic_runs k7 Hl0 Ha7.
  restore_step restore_lapic_runs k8 Hl1 Ha8.
  set (w8 := mkMachine k8 (Some m1)). set (ck := Build_BoundedTwoVcpuFullControllerCheckpoint _ _ _ _ _ _).
  assert (∀ x y, canonical_vcpu_pair x y = Ok (id, id0) → two_full_capture x y policy addresses w8 = (Ok ck, w8))
    as Hcap by (intros; by apply (two_full_capture_intro _ _ id id0 m1)).
  destruct (two_full_recaptured id id0 ck w8) as (c&Hv&Hce); [by intros ? [= <-]|by apply Hcap, Hcan|].
  unfold runs. rewrite Hv. split_and!; [done|apply Hmem|by apply Hcap].
Qed.
End restores.

(** * A machine that stores what it is given *)
Record stored_machine := {
  stored_vcpus : Z → stored_vcpu; stored_chips : Z → KvmIrqchip; stored_lapics : Z → KvmLapicState;
  stored_mps : Z → Z
}.
Definition update {A} (i : Z) (a : A) (f : Z → A) : Z → A := λ j, if j =? i then a else f j.
Lemma update_eq {A} i (a : A) f : update i a f i = a.
Proof. unfold update. by rewrite Z.eqb_refl. Qed.
Lemma update_ne {A} i j (a : A) f : j ≠ i → update i a f j = f j.
Proof. intros H. unfold update. by rewrite (proj2 (Z.eqb_neq _ _)). Qed.
Definition on_vcpu {A} (id : Z) (f : prog stored_vcpu io_error A) : prog stored_machine io_error A := λ k,
  let '(r, v) := f (stored_vcpus k id) in
  (r, {| stored_vcpus := update id v (stored_vcpus k); stored_chips := stored_chips k;
         stored_lapics := stored_lapics k; stored_mps := stored_mps k |}).
Definition chip_valid (c : KvmIrqchip) : bool :=
  (len (chip c) =? KVM_IRQCHIP_PAYLOAD_SIZE) && forallb (fits 8) (chip c).
#[export] Instance stored_machine_kvm : KvmMachine stored_machine := {|
  vcpu_fd id := {|
    ioctl_get_regs k := ioctl_get_regs (stored_vcpus k id);
    ioctl_set_regs r := on_vcpu id (ioctl_set_regs r);
    ioctl_get_sregs k := ioctl_get_sregs (stored_vcpus k id);
    ioctl_set_sregs s := on_vcpu id (ioctl_set_sregs s);
    ioctl_get_msrs l k := ioctl_get_msrs l (stored_vcpus k id);
    ioctl_set_msrs es := on_vcpu id (ioctl_set_msrs es) |};
  machine_irqchips := {|
    ioctl_get_irqchip r k :=
      let c := stored_chips k (chip_id r) in if chip_valid c then Ok c else Err (OsError 22 InvalidInput);
    ioctl_set_irqchip r k :=
      if chip_valid r then
        (Ok tt, {| stored_vcpus := stored_vcpus k; stored_chips := update (chip_id r) r (stored_chips k);
                   stored_lapics := stored_lapics k; stored_mps := stored_mps k |})
      else (Err (OsError 22 InvalidInput), k);
    ioctl_get_lapic id k := Ok (stored_lapics k id);
    ioctl_set_lapic id s k :=
      (Ok tt, {| stored_vcpus := stored_vcpus k; stored_chips := stored_chips k;
                 stored_lapics := update id s (stored_lapics k); stored_mps := stored_mps k |}) |};
  ioctl_get_mp_state id k := Ok (stored_mps k id);
  ioctl_set_mp_state id s k :=
    (Ok tt, {| stored_vcpus := stored_vcpus k; stored_chips := stored_chips k;
               stored_lapics := stored_lapics k; stored_mps := update id s (stored_mps k) |})
|}.
Lemma on_vcpu_runs {A} id (f : prog stored_vcpu io_error A) k Q X :
  runs f (stored_vcpus k id) Q X → runs (on_vcpu id f) k (λ a k', Q a (stored_vcpus k' id)) (λ e k', X e (stored_vcpus k' id)).
Proof. unfold runs, on_vcpu. destruct (f _) as [[] v]; cbn; by rewrite ?update_eq. Qed.
Lemma on_vcpu_only {A} id (f : prog stored_vcpu io_error A) : only (PVcpu id) (on_vcpu id f).
Proof.
  intros k q Hq. unfold on_vcpu. destruct (f _) as [r v]. destruct q; cbn; [|done..].
  rewrite update_ne by congruence. by split_and!.
Qed.
#[export] Instance stored_machine_laws : KvmMachineLaws stored_machine (λ _, True).
Proof.
  split; try (intros; apply on_vcpu_only).
  - intros id. split; [done..|intros s k|intros r k|intros es k Hn Ha].
    + exact (on_vcpu_runs id _ k _ _ (set_sregs_law (apart:=λ _, True) s _)).
    + eapply runs_mono; [exact (on_vcpu_runs id _ k _ _ (set_regs_law (apart:=λ _, True) r _))|done|done].
    + eapply runs_mono; [exact (on_vcpu_runs id _ k _ _ (set_msrs_law (apart:=λ _, True) es _ Hn Ha))|done|done].
  - intros r k q Hq. cbn. destruct (chip_valid r); [|apply agree_refl]. destruct q; cbn; [done| |done|done].
    by rewrite update_ne by congruence.
  - intros id s k q Hq. destruct q; cbn; [done|done| |done]. by rewrite update_ne by congruence.
  - intros id s k q Hq. destruct q; cbn; [done|done|done|]. by rewrite update_ne by congruence.
  - intros r k c H. cbn in H. destruct (chip_valid _) eqn:Hv; [|done]. injection H as <-.
    apply andb_true_iff in Hv as [Hl Hb]. apply Z.eqb_eq in Hl. split; [done|].
    apply Forall_forall. intros x Hx. rewrite forallb_forall in Hb. apply list_elem_of_In, Hb in Hx.
    unfold fits in Hx. apply andb_true_iff in Hx as [?%Z.leb_le ?%Z.ltb_lt]. done.
  - intros r k. unfold runs. cbn. destruct (chip_valid r) eqn:Hv; [|done]. cbn. by rewrite update_eq, Hv.
  - intros id s k. unfold runs. cbn. by rewrite update_eq.
  - intros id s k. unfold runs. cbn. by rewrite update_eq.
Qed.

(** * Properties *)

(** C20: the verdict on a live machine is exact.  For a checkpoint captured from any state of
    the machine, of one vCPU with the interrupt controllers or of two, and any later state, comparing the
    two reports an exact match precisely when capturing the later state would give that same
    checkpoint; comparing changes nothing.  Nothing is assumed of KVM. *)
Theorem machine_verdict {K} `{!KvmMachine K} policy addresses (w0 w : Machine K) :
  Forall (λ a, 0 ≤ a) addresses → machine_wf w0 → machine_wf w →
  (∀ id ck c w', full_capture id policy addresses w0 = (Ok ck, w0) → full_verify ck id w = (Ok c, w') →
     w' = w ∧ (fcc_is_exact_match c = true ↔ full_capture id policy addresses w = (Ok ck, w))) ∧
  (∀ a b ck c w', two_full_capture a b policy addresses w0 = (Ok ck, w0) → two_full_verify ck a b w = (Ok c, w') →
     w' = w ∧ (tfc_is_exact_match c = true ↔ two_full_capture a b policy addresses w = (Ok ck, w))).
Proof.
  intros Ha Hw0 Hw. split.
  - intros id ck c w' H Hv. pose proof (reads_full_verify ck id w) as Hs. rewrite Hv in Hs.
    split; [done|]. exact (full_verdict policy addresses Ha id ck c w0 w w0 w' Hw0 Hw H Hv).
  - intros a b ck c w' H Hv. pose proof (reads_two_full_verify ck a b w) as Hs. rewrite Hv in Hs.
    split; [done|]. exact (two_full_verdict policy addresses Ha a b ck c w0 w w0 w' Hw0 Hw H Hv).
Qed.


(** ** Examples *)
Definition sample_machine (tsc mp : Z) : Machine stored_machine := {|
  kernel := {| stored_vcpus := λ _, sample_vcpu tsc;
    stored_chips := λ id, {| chip_id := id; chip_pad := 0; chip := empty_payload |};
    stored_lapics := λ _, {| lapic_regs := replicate 1024 0 |}; stored_mps := λ id, if id =? 0 then 0 else mp |};
  vm_memory := Some sample_memory |}.
Lemma sample_machine_over tsc mp : memory_over (region sample_memory) (sample_machine tsc mp).
Proof. exists sample_memory. split_and!; [done|apply sample_memory_wf|done]. Qed.
(** Capturing page [0x200000] of the machine with vCPUs 1 and 0, whatever the stored values. *)
Lemma sample_two_capture tsc mp : ∃ ck,
  two_full_capture 1 0 sample_policy [0x200000] (sample_machine tsc mp) = (Ok ck, sample_machine tsc mp) ∧
  (v2_mp_states ck).2.2 = mp.
Proof.
  eexists. split.
  - eapply (two_full_capture_intro sample_policy [0x200000] 1 0 0 1 sample_memory); reflexivity.
  - reflexivity.
Qed.
Lemma machine_verdict_witness :
  ∃ ck c, two_full_capture 1 0 sample_policy [0x200000] (sample_machine 7 3) = (Ok ck, sample_machine 7 3) ∧
    two_full_verify ck 1 0 (sample_machine 7 3) = (Ok c, sample_machine 7 3) ∧ tfc_is_exact_match c = true.
Proof.
  destruct (sample_two_capture 7 3) as (ck&Hck&_).
  assert (machine_wf (sample_machine 7 3)) as Hw by (intros m [= <-]; apply sample_memory_wf).
  assert (Forall (λ a, 0 ≤ a) [0x200000]) as Ha by (by repeat constructor).
  destruct (two_full_recaptured sample_policy [0x200000] Ha 1 0 ck _ Hw Hck) as (c&Hv&_).
  exists ck, c. split; [exact Hck|]. split; [exact Hv|].
  destruct (machine_verdict sample_policy [0x200000] (sample_machine 7 3) (sample_machine 7 3) Ha Hw Hw) as [_ H].
  by apply (H 1 0 ck c _ Hck Hv).
Defined.
