(* ===== verification/LiveDevices.v ===== *)
(** Checkpoints of the live machine and its block devices
    ([src/src/state_snapshot/page_set/full_controller_virtio_blk.rs],
    [full_controller_two_virtio_blk.rs] and the checkpoint of
    [two_vcpu_two_device_transaction.rs]).

    The two-device operations of the last two files are the same code around different
    controller checkpoints, and are written once over the interface [LiveController], which
    [LiveCheckpoint] implements for one vCPU and for two.  Numbers interpolated into error messages are
    left out of the messages. *)

From stdpp Require Import sorting.
From S2P Require Import Prelude Errors Memory LongMode VirtioCommon VirtioBlk BlkCheckpoint Msr VcpuState SchemaV1 PageSet.
From S2P Require Import Mmio Envelope Irqchip ControllerSchema DeviceSchema TwoDeviceSchema TwoVcpuSchema BlkBus LiveCheckpoint.

(** * Controllers as the devices' checkpoints see them *)

(** The checkpoint [L] of a controller state [S], and the comparison [C] of the two. *)
Class LiveController (S L C : Type) := {
  live_capture : prog S Error L;
  live_verify : L → prog S Error C;
  live_restore : L → prog S Error C;
  live_exact : C → bool
}.
(** What they promise on states that satisfy [inv]. *)
Class LiveControllerLaws (S L C : Type) `{!LiveController S L C} (inv : S → Prop) : Prop := {
  live_capture_reads : reads_only (live_capture (S:=S) (L:=L));
  live_verify_reads ck : reads_only (live_verify (S:=S) (L:=L) ck);
  live_recaptured (s : S) (ck : L) : inv s → live_capture s = (Ok ck, s) →
    ∃ c, live_verify ck s = (Ok c, s) ∧ live_exact c = true;
  live_restores (s0 s : S) (ck : L) : inv s0 → inv s → live_capture s0 = (Ok ck, s0) →
    runs (live_restore ck) s (λ c s', live_exact c = true ∧ inv s' ∧ live_capture s' = (Ok ck, s')) (λ _ s', inv s')
}.
Section instances.
Context {K : Type} `{!KvmMachine K} (policy : GuestMsrAccessPolicy) (addresses : list Z).
Definition full_controller_live (id : Z) :
    LiveController (Machine K) BoundedFullControllerCheckpoint BoundedFullControllerCheckpointComparison := {|
  live_capture := full_capture id policy addresses; live_verify ck := full_verify ck id;
  live_restore ck := full_restore_and_verify ck id; live_exact := fcc_is_exact_match |}.
Definition two_vcpu_live (first second : Z) :
    LiveController (Machine K) BoundedTwoVcpuFullControllerCheckpoint
      BoundedTwoVcpuFullControllerCheckpointComparison := {|
  live_capture := two_full_capture first second policy addresses;
  live_verify ck := two_full_verify ck first second;
  live_restore ck := two_full_restore_and_verify ck first second; live_exact := tfc_is_exact_match |}.
End instances.

(** * Definitions *)
Definition canonical_two_virtio_blk_bars (bars : Z * Z) : res Error (Z * Z) :=
  let bars := if bars.1 <=? bars.2 then bars else (bars.2, bars.1) in
  err_if (bars.1 =? bars.2)
    (page_set_error "two virtio-blk checkpoint BAR ownership" "duplicate virtio-blk BAR");;
  err_if (negb (bars.1 mod VIRTIO_BLK_BAR_SIZE =? 0))
    (page_set_error "two virtio-blk checkpoint BAR ownership" "virtio-blk BAR is not aligned");;
  err_if (negb (bars.2 mod VIRTIO_BLK_BAR_SIZE =? 0))
    (page_set_error "two virtio-blk checkpoint BAR ownership" "virtio-blk BAR is not aligned");;
  mret bars.
Definition capture_required_device (bus : MmioBus) (bar : Z) (role : string) : res Error VirtioBlkDevice :=
  device ← capture_virtio_blk_checkpoint_at bus bar;
  ok_or device (page_set_error "two virtio-blk checkpoint device preflight"
    (role +:+ " virtio-blk device is missing")).
Definition verify_required_device (bus : MmioBus) (bar : Z) (expected : VirtioBlkDevice) : res Error bool :=
  verdict ← verify_virtio_blk_checkpoint_at bus bar expected;
  mret (default false verdict).

Section live_devices.
Context {S L C : Type} {live : LiveController S L C}.
(** The machine and its MMIO bus. *)
Abbreviation W := (S * MmioBus)%type.
Definition on_machine {A} (f : prog S Error A) : prog W Error A := λ w,
  let '(r, s) := f w.1 in (r, (s, w.2)).
Definition on_bus {A} (f : prog MmioBus Error A) : prog W Error A := λ w,
  let '(r, bus) := f w.2 in (r, (w.1, bus)).
Definition on_devices {A} (f : MmioBus → res Error A) : prog W Error A := on_bus (reading f).

(** ** One device *)
Record OneDeviceLive := { od_controller : L; od_bar0 : Z; od_device : VirtioBlkDevice }.
Record OneDeviceComparison := { odc_controller : C; odc_device : bool }.
Definition odc_is_exact_match (c : OneDeviceComparison) : bool := live_exact (odc_controller c) && odc_device c.
Definition one_device_capture (bar : Z) : prog W Error OneDeviceLive :=
  controller ← on_machine live_capture;
  captured ← on_devices (λ bus, capture_virtio_blk_checkpoint_at bus bar);
  device ← lift (ok_or captured (page_set_error "full-controller virtio-blk checkpoint capture"
                   "no quiescent virtio-blk device is registered"));
  mret {| od_controller := controller; od_bar0 := bar; od_device := device |}.
Definition one_device_verify (self : OneDeviceLive) : prog W Error OneDeviceComparison :=
  controller ← on_machine (live_verify (od_controller self));
  device ← on_devices (λ bus, verify_virtio_blk_checkpoint_at bus (od_bar0 self) (od_device self));
  mret {| odc_controller := controller; odc_device := default false device |}.
Definition restore_device_only_after_controller_exact (controller_exact : bool)
    (restore_device : prog W Error unit) : prog W Error unit :=
  lift (err_if (negb controller_exact)
    (page_set_error "full-controller virtio-blk checkpoint controller restore verification"
       "page/VCPU/controller state was not exact after restore; device state was not mutated"));;
  restore_device.
Definition one_device_restore_and_verify (self : OneDeviceLive) : prog W Error OneDeviceComparison :=
  controller ← on_machine (live_restore (od_controller self));
  restore_device_only_after_controller_exact (live_exact controller)
    (restored ← on_bus (restore_virtio_blk_checkpoint_at (od_bar0 self) (od_device self));
     lift (ok_or restored (page_set_error "full-controller virtio-blk checkpoint device restore"
             "virtio-blk device disappeared")));;
  one_device_verify self.

(** ** Two devices *)

(** The names of the devices in the errors of the two versions of the code. *)
Record Roles := { first_role : string; second_role : string; first_live_role : string;
                  second_live_role : string; inexact_operation : string; inexact_detail : string }.
Definition full_roles : Roles := {|
  first_role := "first"; second_role := "second";
  first_live_role := "first live preflight"; second_live_role := "second live preflight";
  inexact_operation := "two virtio-blk checkpoint controller restore verification";
  inexact_detail := "page/VCPU/controller state was not exact after restore; neither device was restored" |}.
Definition two_vcpu_roles : Roles := {|
  first_role := "first two-vCPU transaction"; second_role := "second two-vCPU transaction";
  first_live_role := "first live two-vCPU preflight"; second_live_role := "second live two-vCPU preflight";
  inexact_operation := "two-vCPU two-device controller restore verification";
  inexact_detail := "page/vCPU/MP/controller/LAPIC state was not exact; neither device was restored" |}.
Definition pair_capture (roles : Roles) (bars : Z * Z) : prog W Error (TwoDeviceCheckpoint L) :=
  '(bar0, bar1) ← lift (canonical_two_virtio_blk_bars bars);
  first ← on_devices (λ bus, capture_required_device bus bar0 (first_role roles));
  second ← on_devices (λ bus, capture_required_device bus bar1 (second_role roles));
  controller ← on_machine live_capture;
  mret {| two_controller := controller; two_devices := ((bar0, first), (bar1, second)) |}.
Record PairComparison := { pc_controller : C; pc_bars : Z * Z; pc_device_exact : bool * bool }.
Definition device_exact (c : PairComparison) (bar : Z) : option bool :=
  if (pc_bars c).1 =? bar then Some (pc_device_exact c).1
  else if (pc_bars c).2 =? bar then Some (pc_device_exact c).2 else None.
Definition all_devices_exact (c : PairComparison) : bool := (pc_device_exact c).1 && (pc_device_exact c).2.
Definition pc_is_exact_match (c : PairComparison) : bool := live_exact (pc_controller c) && all_devices_exact c.
Definition pair_verify (self : TwoDeviceCheckpoint L) : prog W Error PairComparison :=
  controller ← on_machine (live_verify (two_controller self));
  first ← on_devices (λ bus, verify_required_device bus (two_devices self).1.1 (two_devices self).1.2);
  second ← on_devices (λ bus, verify_required_device bus (two_devices self).2.1 (two_devices self).2.2);
  mret {| pc_controller := controller; pc_bars := two_device_bars self; pc_device_exact := (first, second) |}.
(** [require_controller_exact_before_two_devices] and
    [require_two_vcpu_controller_exact_before_devices]. *)
Definition require_controller_exact (roles : Roles) (controller_exact : bool) : res Error unit :=
  err_if (negb controller_exact) (page_set_error (inexact_operation roles) (inexact_detail roles)).
Definition pair_restore_and_verify (roles : Roles) (self : TwoDeviceCheckpoint L) : prog W Error PairComparison :=
  _ ← on_devices (λ bus, capture_required_device bus (two_devices self).1.1 (first_live_role roles));
  _ ← on_devices (λ bus, capture_required_device bus (two_devices self).2.1 (second_live_role roles));
  controller ← on_machine (live_restore (two_controller self));
  lift (require_controller_exact roles (live_exact controller));;
  on_bus (restore_two_virtio_blk_checkpoints_atomic (two_devices self));;
  pair_verify self.

(** ** Two devices, one with work in flight

    [two_vcpu_capture_with_pending_completion], [.._notification] and the two restores. *)
Definition capture_pending_device (k : BusToken) (binding : string) (bus : MmioBus) (bar : Z)
    : res Error (VirtioBlkDevice * PendingToken) :=
  captured ← capture_with_pending_at k bus bar;
  ok_or captured (page_set_error binding "pending virtio-blk device is missing").
Definition pair_capture_pending (k : BusToken) (binding capturing : string) (bars : Z * Z) (pending_bar : Z)
    : prog W Error (TwoDeviceCheckpoint L * PendingToken) :=
  '(bar0, bar1) ← lift (canonical_two_virtio_blk_bars bars);
  lift (err_if (negb (pending_bar =? bar0) && negb (pending_bar =? bar1))
    (page_set_error binding "pending BAR is outside canonical BARs"));;
  '(first, token, second) ←
    (if pending_bar =? bar0 then
       '(pending, token) ← on_devices (λ bus, capture_pending_device k capturing bus bar0);
       other ← on_devices (λ bus, capture_required_device bus bar1 "second fully-quiescent two-vCPU transaction");
       mret (pending, token, other)
     else
       other ← on_devices (λ bus, capture_required_device bus bar0 "first fully-quiescent two-vCPU transaction");
       '(pending, token) ← on_devices (λ bus, capture_pending_device k capturing bus bar1);
       mret (other, token, pending));
  controller ← on_machine live_capture;
  mret ({| two_controller := controller; two_devices := ((bar0, first), (bar1, second)) |}, token).
Definition pair_restore_and_verify_pending (k : BusToken) (roles : Roles) (self : TwoDeviceCheckpoint L)
    (token : PendingToken) : prog W Error PairComparison :=
  controller ← on_machine (live_restore (two_controller self));
  lift (require_controller_exact roles (live_exact controller));;
  on_bus (restore_two_with_pending k (two_devices self) token);;
  pair_verify self.
End live_devices.

(** ** The checkpoints of the two files *)
Section concrete.
Context {K : Type} `{!KvmMachine K} (policy : GuestMsrAccessPolicy) (addresses : list Z).
Abbreviation VmBus := (Machine K * MmioBus)%type.
(** [BoundedFullControllerVirtioBlkCheckpoint]. *)
Definition full_blk_capture (id bar : Z) : prog VmBus Error (OneDeviceLive (L:=BoundedFullControllerCheckpoint)) :=
  @one_device_capture _ _ _ (full_controller_live policy addresses id) bar.
Definition full_blk_restore_and_verify (id : Z) (self : OneDeviceLive (L:=BoundedFullControllerCheckpoint))
    : prog VmBus Error OneDeviceComparison :=
  @one_device_restore_and_verify _ _ _ (full_controller_live policy addresses id) self.
Definition full_blk_verify (id : Z) (self : OneDeviceLive (L:=BoundedFullControllerCheckpoint))
    : prog VmBus Error OneDeviceComparison :=
  @one_device_verify _ _ _ (full_controller_live policy addresses id) self.
(** [BoundedFullControllerTwoVirtioBlkCheckpoint]. *)
Definition full_two_blk_capture (id : Z) (bars : Z * Z)
    : prog VmBus Error (TwoDeviceCheckpoint BoundedFullControllerCheckpoint) :=
  @pair_capture _ _ _ (full_controller_live policy addresses id) full_roles bars.
Definition full_two_blk_restore_and_verify (id : Z) (self : TwoDeviceCheckpoint BoundedFullControllerCheckpoint)
    : prog VmBus Error PairComparison :=
  @pair_restore_and_verify _ _ _ (full_controller_live policy addresses id) full_roles self.
Definition full_two_blk_verify (id : Z) (self : TwoDeviceCheckpoint BoundedFullControllerCheckpoint)
    : prog VmBus Error PairComparison :=
  @pair_verify _ _ _ (full_controller_live policy addresses id) self.
(** [BoundedTwoVcpuFullControllerTwoVirtioBlkCheckpoint]. *)
Definition two_vcpu_two_blk_capture (first second : Z) (bars : Z * Z)
    : prog VmBus Error (TwoDeviceCheckpoint BoundedTwoVcpuFullControllerCheckpoint) :=
  @pair_capture _ _ _ (two_vcpu_live policy addresses first second) two_vcpu_roles bars.
Definition two_vcpu_two_blk_verify (first second : Z)
    (self : TwoDeviceCheckpoint BoundedTwoVcpuFullControllerCheckpoint) : prog VmBus Error PairComparison :=
  @pair_verify _ _ _ (two_vcpu_live policy addresses first second) self.
Definition two_vcpu_two_blk_restore_and_verify (first second : Z)
    (self : TwoDeviceCheckpoint BoundedTwoVcpuFullControllerCheckpoint) : prog VmBus Error PairComparison :=
  @pair_restore_and_verify _ _ _ (two_vcpu_live policy addresses first second) two_vcpu_roles self.
Definition two_vcpu_capture_with_pending_completion (first second : Z) (bars : Z * Z) (pending_bar : Z)
    : prog VmBus Error (TwoDeviceCheckpoint BoundedTwoVcpuFullControllerCheckpoint * PendingToken) :=
  @pair_capture_pending _ _ _ (two_vcpu_live policy addresses first second) bus_completion
    "two-vCPU pending-completion checkpoint binding" "two-vCPU pending-completion checkpoint capture"
    bars pending_bar.
Definition two_vcpu_capture_with_pending_notification (first second : Z) (bars : Z * Z) (pending_bar : Z)
    : prog VmBus Error (TwoDeviceCheckpoint BoundedTwoVcpuFullControllerCheckpoint * PendingToken) :=
  @pair_capture_pending _ _ _ (two_vcpu_live policy addresses first second) bus_notification
    "two-vCPU pending-notification checkpoint binding" "two-vCPU pending-notification checkpoint capture"
    bars pending_bar.
Definition restore_and_verify_with_pending_completion (first second : Z)
    (self : TwoDeviceCheckpoint BoundedTwoVcpuFullControllerCheckpoint) (token : PendingToken)
    : prog VmBus Error PairComparison :=
  @pair_restore_and_verify_pending _ _ _ (two_vcpu_live policy addresses first second) bus_completion
    two_vcpu_roles self token.
Definition restore_and_verify_with_pending_notification (first second : Z)
    (self : TwoDeviceCheckpoint BoundedTwoVcpuFullControllerCheckpoint) (token : PendingToken)
    : prog VmBus Error PairComparison :=
  @pair_restore_and_verify_pending _ _ _ (two_vcpu_live policy addresses first second) bus_notification
    two_vcpu_roles self token.
End concrete.

(** * Facts *)

(** ** The controllers discharge the interface *)
Lemma reads_full_capture {K} `{!KvmMachine K} id policy addresses :
  reads_only (full_capture (K:=K) id policy addresses).
Proof. unfold full_capture. reads. Qed.
Lemma reads_two_full_capture {K} `{!KvmMachine K} a b policy addresses :
  reads_only (two_full_capture (K:=K) a b policy addresses).
Proof. unfold two_full_capture, multiprocessing_state_raw. reads. Qed.
Lemma memory_over_wf {K} `{!KvmMachine K} r (w : Machine K) : memory_over r w → machine_wf w.
Proof. intros (m&Hm&Hw&_) m' Hm'. congruence. Qed.
Section laws_hold.
Context {K : Type} `{!KvmMachine K} {apart : Z → Prop} `{!KvmMachineLaws K apart}.
Context (policy : GuestMsrAccessPolicy) (addresses : list Z) (r : GuestMemoryRegion).
Hypothesis addresses_ok : Forall (λ a, 0 ≤ a) addresses.
Hypothesis policy_ok : Forall apart (policy_msr_indices policy).
Lemma full_controller_live_laws id :
  @LiveControllerLaws (Machine K) _ _ (full_controller_live policy addresses id) (memory_over r).
Proof.
  split; cbn.
  - apply reads_full_capture.
  - intros. apply reads_full_verify.
  - intros s ck Hs%memory_over_wf H. by apply (full_recaptured policy addresses).
  - intros s0 s ck Hs0 Hs H. by apply (full_restores (apart:=apart) policy addresses addresses_ok policy_ok id ck s0 s0).
Qed.
Lemma two_vcpu_live_laws a b :
  @LiveControllerLaws (Machine K) _ _ (two_vcpu_live policy addresses a b) (memory_over r).
Proof.
  split; cbn.
  - apply reads_two_full_capture.
  - intros. apply reads_two_full_verify.
  - intros s ck Hs%memory_over_wf H. by apply (two_full_recaptured policy addresses).
  - intros s0 s ck Hs0 Hs H. by apply (two_full_restores (apart:=apart) policy addresses addresses_ok policy_ok a b ck s0 s0).
Qed.
End laws_hold.

(** ** Captures of single devices *)
Definition quiescent_at (bus : MmioBus) (bar : Z) (d : VirtioBlkDevice) : Prop :=
  blk_at bus bar = Some d ∧ checkpoint_backing_portable d = true ∧ checkpoint_fully_quiescent d = true.
Definition pending_at (k : BusToken) (bus : MmioBus) (bar : Z) (d : VirtioBlkDevice) (t : PendingToken) : Prop :=
  blk_at bus bar = Some d ∧ checkpoint_backing_portable d = true ∧ bus_capture k d = Ok t.
Lemma capture_at_Ok bus bar o :
  capture_virtio_blk_checkpoint_at bus bar = Ok o ↔
    match o with Some d => quiescent_at bus bar d | None => blk_at bus bar = None end.
Proof.
  unfold capture_virtio_blk_checkpoint_at, quiescent_at. destruct (blk_at bus bar) as [d|].
  - rewrite !bind_err_if_Ok, !negb_false_iff. destruct o as [d'|]; [|split; [by intros (_&_&?)|done]].
    split; [intros (?&?&[= <-])|intros ([= <-]&?&?)]; done.
  - destruct o; split; by try intros [= <-]; try intros [? ?].
Qed.
Lemma capture_required_Ok bus bar role d :
  capture_required_device bus bar role = Ok d ↔ quiescent_at bus bar d.
Proof.
  unfold capture_required_device. split.
  - intros (o&Ho&H%ok_or_Ok_inv)%bind_Ok_inv. subst. by apply capture_at_Ok in Ho.
  - intros H. by rewrite (proj2 (capture_at_Ok bus bar (Some d)) H).
Qed.
Lemma capture_pending_Ok k binding bus bar d t :
  capture_pending_device k binding bus bar = Ok (d, t) ↔ pending_at k bus bar d t.
Proof.
  unfold capture_pending_device, capture_with_pending_at, pending_at. split.
  - intros (o&Ho&H%ok_or_Ok_inv)%bind_Ok_inv. subst. destruct (blk_at bus bar) as [d'|]; [|done].
    apply bind_err_if_Ok in Ho as [Hp Ho]. apply bind_Ok_inv in Ho as (t'&Ht%map_err_Ok_inv&[= -> ->]).
    by rewrite negb_false_iff in Hp.
  - intros (->&Hp&Ht). by rewrite Hp, Ht.
Qed.
Lemma quiescent_restorable bus bar : restorable bus bar ↔ ∃ d, quiescent_at bus bar d.
Proof. done. Qed.
Lemma quiescent_snapshot_ok bus bar d : quiescent_at bus bar d → snapshot_ok (bar, d).
Proof. intros (H%blk_at_bar&?&?). done. Qed.
Lemma verify_required_Ok bus bar d :
  blk_at bus bar = Some d → verify_required_device bus bar d = Ok true.
Proof.
  intros H. unfold verify_required_device, verify_virtio_blk_checkpoint_at.
  rewrite (blk_at_bar _ _ _ H), Z.eqb_refl, H. cbn. by rewrite exact_pair.
Qed.
Lemma capture_at_no_panic bus bar : no_panic (capture_virtio_blk_checkpoint_at bus bar).
Proof. unfold capture_virtio_blk_checkpoint_at. case_match; np. Qed.
Lemma capture_required_no_panic bus bar role : no_panic (capture_required_device bus bar role).
Proof. unfold capture_required_device. apply no_panic_bind; [apply capture_at_no_panic|]. intros []; np. Qed.

(** ** Devices and controller together *)
Section together.
Context {S L C : Type} {live : LiveController S L C}.
Implicit Types (s : S) (bus : MmioBus) (ck : TwoDeviceCheckpoint L).
Lemma reads_on_machine {A} (f : prog S Error A) : reads_only f → reads_only (on_machine f).
Proof. intros H [s bus]. specialize (H s). unfold on_machine. simpl. destruct (f s). simpl in *. by subst. Qed.
Lemma reads_on_devices {A} (f : MmioBus → res Error A) : reads_only (on_devices (S:=S) f).
Proof. by intros []. Qed.
Lemma on_machine_Ok {A} (f : prog S Error A) s bus a :
  reads_only f → on_machine f (s, bus) = (Ok a, (s, bus)) ↔ f s = (Ok a, s).
Proof. intros H. specialize (H s). unfold on_machine. simpl. destruct (f s). simpl in *. subst. split; [by intros [= ->]|by intros [= ->]]. Qed.
Lemma on_devices_Ok {A} (f : MmioBus → res Error A) s bus a :
  on_devices f (s, bus) = (Ok a, (s, bus)) ↔ f bus = Ok a.
Proof. unfold on_devices, on_bus, reading. simpl. split; [by intros [= ->]|by intros ->]. Qed.
Lemma live_runs_machine {A} (f : prog S Error A) s bus Q X :
  runs f s (λ a s', Q a (s', bus)) (λ e s', X e (s', bus)) → runs (on_machine f) (s, bus) Q X.
Proof. unfold runs, on_machine. simpl. by destruct (f s) as [[] ?]. Qed.
Lemma live_runs_bus {A} (f : prog MmioBus Error A) s bus Q X :
  runs f bus (λ a bus', Q a (s, bus')) (λ e bus', X e (s, bus')) → runs (on_bus f) (s, bus) Q X.
Proof. unfold runs, on_bus. simpl. by destruct (f bus) as [[] ?]. Qed.
Lemma live_runs_devices {A B} (f : MmioBus → res Error A) (g : A → prog (S * MmioBus) Error B) s bus Q X :
  no_panic (f bus) → (∀ e, X e (s, bus)) → (∀ a, f bus = Ok a → runs (g a) (s, bus) Q X) →
  runs (on_devices f ≫= g) (s, bus) Q X.
Proof.
  intros Hn He Hg. unfold runs, on_devices, on_bus, reading, mbind, prog_bind. simpl.
  destruct (f bus) eqn:Hf; [by apply Hg|by apply He|done].
Qed.

Context (inv : S → Prop) {laws : LiveControllerLaws S L C inv}.
Lemma capture_reads : reads_only (live_capture (S:=S) (L:=L)).
Proof. apply (live_capture_reads (inv:=inv)). Qed.
Lemma verify_reads c : reads_only (live_verify (S:=S) (L:=L) c).
Proof. apply (live_verify_reads (inv:=inv)). Qed.
Hint Resolve capture_reads verify_reads reads_on_machine reads_on_devices : readers.
(** What a capture of two devices found. *)
Definition pair_captured (bars : Z * Z) ck s bus : Prop :=
  canonical_two_virtio_blk_bars bars = Ok (two_device_bars ck) ∧
  quiescent_at bus (two_devices ck).1.1 (two_devices ck).1.2 ∧
  quiescent_at bus (two_devices ck).2.1 (two_devices ck).2.2 ∧
  live_capture s = (Ok (two_controller ck), s).
Lemma pair_capture_Ok roles bars ck s bus w :
  pair_capture roles bars (s, bus) = (Ok ck, w) ↔ pair_captured bars ck s bus ∧ w = (s, bus).
Proof.
  unfold pair_capture, pair_captured. split.
  - intros H. apply reader_inv in H as ([b0 b1]&Hb&H); [|by reads]. apply lift_Ok in Hb as [Hb _].
    apply reader_inv in H as (d0&H0&H); [|by reads]. apply on_devices_Ok, capture_required_Ok in H0.
    apply reader_inv in H as (d1&H1&H); [|by reads]. apply on_devices_Ok, capture_required_Ok in H1.
    apply reader_inv in H as (c&Hc&H); [|by reads]. apply on_machine_Ok in Hc; [|by reads].
    injection H as <- <-. done.
  - destruct ck as [c [[b0 d0] [b1 d1]]]. cbn. intros [(Hb&H0&H1&Hc) ->].
    rewrite (prog_bind_step _ _ _ _ (s, bus) (proj2 (lift_Ok _ _ _ _) (conj Hb eq_refl))). cbv beta iota. cbn [two_device_bars two_devices fst snd].
    rewrite (prog_bind_step _ _ _ d0 (s, bus)) by (by apply on_devices_Ok, capture_required_Ok).
    rewrite (prog_bind_step _ _ _ d1 (s, bus)) by (by apply on_devices_Ok, capture_required_Ok).
    by rewrite (prog_bind_step _ _ _ c (s, bus)) by (apply on_machine_Ok; [by reads|done]).
Qed.
Lemma canonical_bars_Ok bars b : canonical_two_virtio_blk_bars bars = Ok b → bars_canonical b.
Proof.
  unfold canonical_two_virtio_blk_bars. cbv zeta. intros H. bind_inv H. subst.
  unfold bars_canonical. destruct (Z.leb_spec bars.1 bars.2); cbn in *; split_and!; lia.
Qed.
(** A machine and bus that hold the checkpoint compare as an exact match. *)
Lemma pair_verify_exact ck s bus :
  inv s → live_capture s = (Ok (two_controller ck), s) →
  blk_at bus (two_devices ck).1.1 = Some (two_devices ck).1.2 →
  blk_at bus (two_devices ck).2.1 = Some (two_devices ck).2.2 →
  ∃ c, pair_verify ck (s, bus) = (Ok c, (s, bus)) ∧ pc_is_exact_match c = true.
Proof.
  intros Hs Hc H0 H1. destruct (live_recaptured s _ Hs Hc) as (c&Hv&Hex). eexists. split.
  - unfold pair_verify. rewrite (prog_bind_step _ _ _ c (s, bus)) by (apply on_machine_Ok; [by reads|done]).
    rewrite (prog_bind_step _ _ _ true (s, bus)) by (by apply on_devices_Ok, verify_required_Ok).
    rewrite (prog_bind_step _ _ _ true (s, bus)) by (by apply on_devices_Ok, verify_required_Ok). done.
  - unfold pc_is_exact_match. cbn. by rewrite Hex.
Qed.
(** Restoring the controller, checking that it is exact, and a bus operation that is all or
    nothing bring both back. *)
Lemma controller_then_devices roles ck restore s0 s bus :
  inv s0 → inv s → live_capture s0 = (Ok (two_controller ck), s0) →
  runs restore bus (λ _ bus', two_replaced (two_devices ck).1 (two_devices ck).2 bus bus') (λ _ bus', bus' = bus) →
  runs (controller ← on_machine (live_restore (two_controller ck));
        lift (require_controller_exact roles (live_exact controller));;
        (on_bus restore : prog _ _ unit);;
        pair_verify ck) (s, bus)
    (λ c '(s', bus'), pc_is_exact_match c = true ∧ inv s' ∧ live_capture s' = (Ok (two_controller ck), s') ∧
       two_replaced (two_devices ck).1 (two_devices ck).2 bus bus')
    (λ _ '(s', bus'), inv s' ∧ bus' = bus).
Proof.
  intros Hs0 Hs Hc Hr. apply runs_bind, live_runs_machine.
  eapply runs_mono; [by apply (live_restores s0 s)| |by intros].
  intros c s' (Hex&Hs'&Hc'). apply runs_lift_ok with tt; [unfold require_controller_exact; by rewrite Hex|].
  apply runs_bind, live_runs_bus. eapply runs_mono; [exact Hr| |by intros ? ? ->].
  intros ? bus' Hrep. destruct (pair_verify_exact ck s' bus' Hs' Hc') as (c'&Hv&Hce); [by apply Hrep..|].
  unfold runs. by rewrite Hv.
Qed.

(** *** Two quiescent devices *)
Lemma two_replaced_captured bars ck s' bus bus' s0 bus0 :
  pair_captured bars ck s0 bus0 → live_capture s' = (Ok (two_controller ck), s') →
  two_replaced (two_devices ck).1 (two_devices ck).2 bus bus' → pair_captured bars ck s' bus'.
Proof. intros (Hb&(_&?&?)&(_&?&?)&_) Hc (?&?&_). by split_and!. Qed.
Lemma pair_restores roles bars ck s0 bus0 s bus :
  inv s0 → inv s → pair_captured bars ck s0 bus0 →
  runs (pair_restore_and_verify roles ck) (s, bus)
    (λ c '(s', bus'), pc_is_exact_match c = true ∧ inv s' ∧ pair_captured bars ck s' bus' ∧
       two_replaced (two_devices ck).1 (two_devices ck).2 bus bus')
    (λ _ '(s', bus'), inv s' ∧ bus' = bus).
Proof.
  intros Hs0 Hs Hcap. unfold pair_restore_and_verify.
  apply live_runs_devices; [apply capture_required_no_panic|done|]. intros _ _.
  apply live_runs_devices; [apply capture_required_no_panic|done|]. intros _ _.
  eapply runs_mono.
  { apply (controller_then_devices _ _ (restore_two_virtio_blk_checkpoints_atomic (two_devices ck)) s0);
      [done|done|by apply Hcap|].
    rewrite (surjective_pairing (two_devices ck)). eapply runs_mono; [apply restore_two_runs| |done].
    intros _ ? (?&[? _]&[? _]&?%restorable_Some&?%restorable_Some&->). apply place_two; [lia|done..]. }
  - intros c [s' bus'] (?&?&?&?). split_and!; [done..| |done]. by eapply two_replaced_captured.
  - done.
Qed.
(** A device that is missing or busy is found before anything is changed. *)
Lemma pair_refused roles ck s bus :
  ¬ (restorable bus (two_devices ck).1.1 ∧ restorable bus (two_devices ck).2.1) →
  ∃ e, pair_restore_and_verify roles ck (s, bus) = (Err e, (s, bus)).
Proof.
  intros Hno. unfold pair_restore_and_verify, mbind at 1, prog_bind at 1, on_devices at 1, on_bus at 1, reading. simpl.
  pose proof (capture_required_no_panic bus (two_devices ck).1.1 (first_live_role roles)) as Hn1.
  destruct (capture_required_device _ (two_devices ck).1.1 _) as [d1|e|] eqn:H1; [|by eexists|done].
  apply capture_required_Ok in H1. unfold mbind at 1, prog_bind at 1, on_devices at 1, on_bus at 1, reading. simpl.
  pose proof (capture_required_no_panic bus (two_devices ck).2.1 (second_live_role roles)) as Hn2.
  destruct (capture_required_device _ (two_devices ck).2.1 _) as [d2|e|] eqn:H2; [|by eexists|done].
  apply capture_required_Ok in H2. destruct Hno. split; by eexists.
Qed.
Definition both_restorable ck bus : Prop :=
  restorable bus (two_devices ck).1.1 ∧ restorable bus (two_devices ck).2.1.
Lemma pair_restores_or_refused roles bars ck s0 bus0 s bus :
  inv s0 → inv s → pair_captured bars ck s0 bus0 →
  runs (pair_restore_and_verify roles ck) (s, bus)
    (λ c '(s', bus'), pc_is_exact_match c = true ∧ inv s' ∧ pair_captured bars ck s' bus' ∧
       two_replaced (two_devices ck).1 (two_devices ck).2 bus bus')
    (λ _ '(s', bus'), inv s' ∧ bus' = bus ∧ (¬ both_restorable ck bus → s' = s)).
Proof.
  intros Hs0 Hs H. pose proof (pair_restores roles bars ck s0 bus0 s bus Hs0 Hs H) as Hr. unfold runs in *.
  destruct (pair_restore_and_verify roles ck (s, bus)) as [[c|e|] [s' bus']] eqn:Heq; [done| |done].
  destruct Hr as [? ->]. split_and!; [done..|]. intros Hno.
  destruct (pair_refused roles ck s bus Hno) as [e' He]. congruence.
Qed.

(** *** Two devices, one with work in flight *)
Definition pending_captured (k : BusToken) (bars : Z * Z) (pending : Z) ck (t : PendingToken) s bus : Prop :=
  canonical_two_virtio_blk_bars bars = Ok (two_device_bars ck) ∧
  (pending = (two_devices ck).1.1 ∧ pending_at k bus (two_devices ck).1.1 (two_devices ck).1.2 t ∧
     quiescent_at bus (two_devices ck).2.1 (two_devices ck).2.2
   ∨ pending = (two_devices ck).2.1 ∧ quiescent_at bus (two_devices ck).1.1 (two_devices ck).1.2 ∧
     pending_at k bus (two_devices ck).2.1 (two_devices ck).2.2 t) ∧
  live_capture s = (Ok (two_controller ck), s).
Lemma canonical_bars_lt bars ck :
  canonical_two_virtio_blk_bars bars = Ok (two_device_bars ck) → (two_devices ck).1.1 < (two_devices ck).2.1.
Proof. intros [H _]%canonical_bars_Ok. done. Qed.
Lemma pair_capture_pending_Ok k b1 b2 bars pending ck t s bus w :
  pair_capture_pending k b1 b2 bars pending (s, bus) = (Ok (ck, t), w) ↔
    pending_captured k bars pending ck t s bus ∧ w = (s, bus).
Proof.
  unfold pair_capture_pending, pending_captured. split.
  - intros H. apply reader_inv in H as ([bar0 bar1]&Hb&H); [|by reads]. apply lift_Ok in Hb as [Hb _].
    apply reader_inv in H as ([]&Hin&H); [|by reads]. apply lift_Ok in Hin as [Hin%err_if_Ok_inv _].
    apply reader_inv in H as ([[d0 t'] d1]&Hd&H).
    2: { destruct (pending =? bar0); apply reads_bind; reads; intros []; reads. }
    apply reader_inv in H as (c&Hc&H); [|by reads]. apply on_machine_Ok in Hc; [|by reads].
    injection H as <- <- <-. cbn. split; [|done]. split; [done|]. split; [|done].
    destruct (Z.eqb_spec pending bar0) as [->|Hne].
    + apply reader_inv in Hd as ([p tk]&Hp&Hd); [|by reads]. apply reader_inv in Hd as (o&Ho&Hd); [|by reads].
      injection Hd as <- <- <-. left. apply on_devices_Ok, capture_pending_Ok in Hp.
      by apply on_devices_Ok, capture_required_Ok in Ho.
    + apply reader_inv in Hd as (o&Ho&Hd); [|by reads]. apply reader_inv in Hd as ([p tk]&Hp&Hd); [|by reads].
      injection Hd as <- <- <-. right. apply on_devices_Ok, capture_pending_Ok in Hp.
      apply on_devices_Ok, capture_required_Ok in Ho. destruct (Z.eqb_spec pending bar1); done.
  - destruct ck as [c [[bar0 d0] [bar1 d1]]]. intros [(Hb&Hp&Hc) ->].
    pose proof (canonical_bars_lt _ _ Hb) as Hlt. cbn in *.
    rewrite (prog_bind_step _ _ _ _ (s, bus) (proj2 (lift_Ok _ _ _ _) (conj Hb eq_refl))). cbv beta iota.
    cbn [two_device_bars two_devices fst snd].
    rewrite (prog_bind_step _ _ _ tt (s, bus))
      by (destruct Hp as [(->&_)|(->&_)]; by rewrite Z.eqb_refl, ?andb_false_r).
    rewrite (prog_bind_step _ _ _ (d0, t, d1) (s, bus)).
    + by rewrite (prog_bind_step _ _ _ c (s, bus)) by (apply on_machine_Ok; [by reads|done]).
    + destruct Hp as [(->&Hp&Hq)|(->&Hq&Hp)]; [rewrite Z.eqb_refl|rewrite (proj2 (Z.eqb_neq _ _)) by lia].
      * rewrite (prog_bind_step _ _ _ (d0, t) (s, bus)) by (by apply on_devices_Ok, capture_pending_Ok).
        by rewrite (prog_bind_step _ _ _ d1 (s, bus)) by (by apply on_devices_Ok, capture_required_Ok).
      * rewrite (prog_bind_step _ _ _ d0 (s, bus)) by (by apply on_devices_Ok, capture_required_Ok).
        by rewrite (prog_bind_step _ _ _ (d1, t) (s, bus)) by (by apply on_devices_Ok, capture_pending_Ok).
Qed.
Lemma two_replaced_pending k bars pending ck t s' bus bus' s0 bus0 :
  pending_captured k bars pending ck t s0 bus0 → live_capture s' = (Ok (two_controller ck), s') →
  two_replaced (two_devices ck).1 (two_devices ck).2 bus bus' → pending_captured k bars pending ck t s' bus'.
Proof.
  intros (Hb&Hp&_) Hc (?&?&_). split_and!; [done| |done].
  destruct Hp as [(->&(_&?&?)&(_&?&?))|(->&(_&?&?)&(_&?&?))]; [left|right]; by split_and!.
Qed.
Lemma pending_restores k `{!BusTokenLaws k} roles bars pending ck t s0 bus0 s bus :
  inv s0 → inv s → pending_captured k bars pending ck t s0 bus0 →
  runs (pair_restore_and_verify_pending k roles ck t) (s, bus)
    (λ c '(s', bus'), pc_is_exact_match c = true ∧ inv s' ∧ pending_captured k bars pending ck t s' bus' ∧
       two_replaced (two_devices ck).1 (two_devices ck).2 bus bus')
    (λ _ '(s', bus'), inv s' ∧ bus' = bus).
Proof.
  intros Hs0 Hs Hcap. unfold pair_restore_and_verify_pending. eapply runs_mono.
  { apply (controller_then_devices _ _ (restore_two_with_pending k (two_devices ck) t) s0);
      [done|done|by apply Hcap|].
    rewrite (surjective_pairing (two_devices ck)).
    eapply runs_mono; [by apply restore_two_with_pending_runs| |done].
    intros _ ? (?&_&[? _]&[? _]&?%restorable_Some&?%restorable_Some&->). apply place_two; [lia|done..]. }
  - intros c [s' bus'] (?&?&?&?). split_and!; [done..| |done]. by eapply two_replaced_pending.
  - done.
Qed.

(** *** One device *)
Lemma restore_at_runs bar d bus :
  runs (restore_virtio_blk_checkpoint_at bar d) bus
    (λ o bus', match o with
               | Some _ => snapshot_ok (bar, d) ∧ is_Some (blk_at bus bar) ∧ bus' = place (bar, d) bus
               | None => bus' = bus end)
    (λ _ bus', bus' = bus).
Proof.
  unfold restore_virtio_blk_checkpoint_at. apply runs_lift_err; [np_leaf|done|]. intros ? Hok%err_if_Ok_inv.
  rewrite !orb_false_iff, !negb_false_iff, Z.eqb_eq in Hok. destruct Hok as [[??]?].
  apply runs_bind, runs_get. unfold blk_at. destruct (list_find _ _) as [[i dev]|] eqn:Hf; [|done].
  apply runs_lift_err; [np_leaf|done|]. intros _ _. unfold runs. cbn. split_and!; [done|by eexists|].
  unfold place, blk_position. cbn. by rewrite Hf.
Qed.
Definition one_captured (ck : OneDeviceLive (L:=L)) s bus : Prop :=
  quiescent_at bus (od_bar0 ck) (od_device ck) ∧ live_capture s = (Ok (od_controller ck), s).
Lemma one_device_capture_Ok bar (ck : OneDeviceLive) s bus w :
  one_device_capture bar (s, bus) = (Ok ck, w) ↔ (one_captured ck s bus ∧ bar = od_bar0 ck) ∧ w = (s, bus).
Proof.
  unfold one_device_capture, one_captured. split.
  - intros H. apply reader_inv in H as (c&Hc&H); [|by reads]. apply on_machine_Ok in Hc; [|by reads].
    apply reader_inv in H as (o&Ho&H); [|by reads]. apply on_devices_Ok, capture_at_Ok in Ho.
    apply reader_inv in H as (d&Hd&H); [|by reads]. apply lift_Ok in Hd as [->%ok_or_Ok_inv _].
    injection H as <- <-. done.
  - destruct ck as [c b d]. cbn. intros [[(Hd&Hc) ->] ->].
    rewrite (prog_bind_step _ _ _ c (s, bus)) by (apply on_machine_Ok; [by reads|done]).
    rewrite (prog_bind_step _ _ _ (Some d) (s, bus)) by (by apply on_devices_Ok, capture_at_Ok). done.
Qed.
Lemma one_verify_exact (ck : OneDeviceLive) s bus :
  inv s → one_captured ck s bus →
  ∃ c, one_device_verify ck (s, bus) = (Ok c, (s, bus)) ∧ odc_is_exact_match c = true.
Proof.
  intros Hs ((Hd&_)&Hc). destruct (live_recaptured s _ Hs Hc) as (c&Hv&Hex). eexists. split.
  - unfold one_device_verify. rewrite (prog_bind_step _ _ _ c (s, bus)) by (apply on_machine_Ok; [by reads|done]).
    rewrite (prog_bind_step _ _ _ (Some true) (s, bus)); [done|]. apply on_devices_Ok.
    unfold verify_virtio_blk_checkpoint_at. by rewrite (blk_at_bar _ _ _ Hd), Z.eqb_refl, Hd; cbn; rewrite exact_pair.
  - unfold odc_is_exact_match. cbn. by rewrite Hex.
Qed.
Lemma one_device_restores (ck : OneDeviceLive) s0 bus0 s bus :
  inv s0 → inv s → one_captured ck s0 bus0 →
  runs (one_device_restore_and_verify ck) (s, bus)
    (λ c '(s', bus'), odc_is_exact_match c = true ∧ inv s' ∧ one_captured ck s' bus' ∧
       bus' = place (od_bar0 ck, od_device ck) bus)
    (λ _ '(s', bus'), inv s' ∧ bus' = bus).
Proof.
  intros Hs0 Hs [Hd Hc]. unfold one_device_restore_and_verify. apply runs_bind, live_runs_machine.
  eapply runs_mono; [by apply (live_restores s0 s)| |by intros].
  intros c s' (Hex&Hs'&Hc'). unfold restore_device_only_after_controller_exact. rewrite Hex.
  apply runs_bind, runs_lift_ok with tt; [done|]. apply runs_bind, live_runs_bus.
  eapply runs_mono; [apply restore_at_runs| |by intros ? ? ->]. intros [[]|] bus'; [|by intros ->].
  intros (Hok&Hat&->). unfold runs at 1. cbn.
  set (bus1 := place (od_bar0 ck, od_device ck) bus).
  assert (one_captured ck s' bus1) as Hcap.
  { split; [|done]. destruct Hd as (_&?&?). split_and!; [|done..].
    exact (place_same (od_bar0 ck, od_device ck) bus (proj1 Hok) Hat). }
  destruct (one_verify_exact ck s' bus1 Hs' Hcap) as (c'&Hv&Hce). unfold runs. by rewrite Hv.
Qed.
End together.

(** * Properties *)



(** ** Examples *)

(** Two devices on the bus; [busy] leaves the first with a serviced notification, [idx] is how far the
    second has got. *)
Definition example_blk (bar : Z) (busy : bool) (idx : Z) : VirtioBlkDevice :=
  mkBlk (mkRegs bar 0 1 VIRTIO_F_VERSION_1 15 0 8 true 0x200000 0x200100 0x200200 busy idx idx 0)
    (replicate 2048 0) None.
Definition example_bus (busy : bool) (idx : Z) : MmioBus :=
  mkBus [] [] [example_blk 0x10001000 false idx; example_blk 0x10000000 busy 7] [].
Lemma example_laws (r : GuestMemoryRegion) a b :
  @LiveControllerLaws (Machine stored_machine) _ _ (two_vcpu_live sample_policy [0x200000] a b) (memory_over r).
Proof. apply (two_vcpu_live_laws (apart:=λ _, True)); by repeat constructor. Qed.
