(* ===== verification/Registrations.v ===== *)
(** Live host registrations: the eventfds, the irqfd and the ioeventfd that
    accelerate one device, and the pair of them a two-device machine has
    ([src/src/kvm/host_registration.rs], [src/src/kvm/host_registration_pair.rs],
    [src/src/kvm/irqfd_timer.rs] and the eventfd helpers of
    [src/src/kvm/ioeventfd_roundtrip.rs]).

    The kernel is a parameter.  A descriptor the code owns is closed when its
    owner is dropped, which [dropping] writes out for the early returns.  The
    loops that retry interrupted system calls take fuel ([retries]); running out
    of it is [None]. *)

From stdpp Require Import gmap.
From S2P Require Import Prelude Errors HostRegistration.

Definition KVM_CAP_IRQFD : Z := 32.
Definition KVM_CAP_IOEVENTFD : Z := 36.
Definition KVM_IRQFD_FLAG_DEASSIGN : Z := Z.shiftl 1 0.
Definition KVM_IOEVENTFD_FLAG_DATAMATCH : Z := Z.shiftl 1 0.
Definition KVM_IOEVENTFD_FLAG_DEASSIGN : Z := Z.shiftl 1 2.
Definition POLLIN : Z := 1.
Definition POLLERR : Z := 8.
Definition POLLHUP : Z := 16.
Definition POLLNVAL : Z := 32.

Record KvmIrqfd := mkIrqfd { irqfd_fd : Z; irqfd_gsi : Z; irqfd_flags : Z; resamplefd : Z }.
Definition irqfd_assign (fd gsi : Z) : KvmIrqfd := mkIrqfd fd gsi 0 0.
Definition irqfd_deassign (fd gsi : Z) : KvmIrqfd := mkIrqfd fd gsi KVM_IRQFD_FLAG_DEASSIGN 0.
Record KvmIoEventFd := mkIoEventFd {
  io_datamatch : Z; io_addr : Z; io_len : Z; io_fd : Z; io_flags : Z
}.

(** The system calls the registrations use.  [sys_poll fd timeout] returns how
    many descriptors are ready and the returned events, [sys_read8] and
    [sys_write8] how many of the eight bytes were moved. *)
Class KvmRegistrar (K : Type) := {
  check_extension : Z → K → res io_error Z;
  ioctl_irq_line : Z → bool → prog K io_error unit;
  sys_eventfd : prog K io_error Z;
  sys_dup : Z → prog K io_error Z;
  sys_close : Z → K → K;
  ioctl_irqfd : KvmIrqfd → prog K io_error unit;
  ioctl_ioeventfd : KvmIoEventFd → prog K io_error unit;
  sys_poll : Z → Z → prog K io_error (Z * Z);
  sys_read8 : Z → prog K io_error (Z * Z);
  sys_write8 : Z → Z → prog K io_error Z
}.

Definition vm_operation (operation : string) (source : io_error) : Error :=
  HostEnvironment (VmOperation operation source).

(** What one device's reconstruction owns. *)
Record IrqfdTimerRegistration := mkIrqfdRegistration { reg_eventfd : Z; reg_gsi : Z }.
Record ReconstructedHostRegistrations := mkReconstructed {
  rec_spec : HostRegistrationSpec;
  doorbell_eventfd : Z;
  doorbell_reader : Z;
  irqfd_registration : IrqfdTimerRegistration;
  irq_signal : Z
}.

Abbreviation ReconstructedHostRegistrationPair :=
  (ReconstructedHostRegistrations * ReconstructedHostRegistrations)%type.

Section registrations.
Context {K : Type} `{!KvmRegistrar K}.

Definition close_all (fds : list Z) (k : K) : K := foldl (λ k fd, sys_close fd k) k fds.
(** [m] run by an owner of [fds] that is dropped when [m] fails. *)
Definition dropping {E A} (fds : list Z) (m : prog K E A) : prog K E A := λ k,
  match m k with
  | (Ok a, k') => (Ok a, k')
  | (r, k') => (r, close_all fds k')
  end.

(** [Vm::set_gsi_level], [Vm::pulse_gsi_edge] of [src/src/kvm/irqchip.rs]. *)
Definition set_gsi_level (gsi : Z) (asserted : bool) : prog K Error unit :=
  pmap_err (vm_operation (if asserted then "KVM_IRQ_LINE assert" else "KVM_IRQ_LINE deassert"))
    (ioctl_irq_line gsi asserted).
Definition pulse_gsi_edge (gsi : Z) : prog K Error unit :=
  set_gsi_level gsi true;; set_gsi_level gsi false.

Definition require_capability (name operation : string) (id : Z) (k : K) : res Error unit :=
  value ← map_err (λ source, HostEnvironment (Io operation source)) (check_extension id k);
  err_if (value <=? 0) (KvmCapability (MissingExtension name id)).
Definition require_irqfd_capability : K → res Error unit :=
  require_capability "KVM_CAP_IRQFD" "KVM_CHECK_EXTENSION KVM_CAP_IRQFD" KVM_CAP_IRQFD.
Definition require_ioeventfd_capability : K → res Error unit :=
  require_capability "KVM_CAP_IOEVENTFD" "KVM_CHECK_EXTENSION KVM_CAP_IOEVENTFD" KVM_CAP_IOEVENTFD.

(** [EventFd::raw_u32]. *)
Definition raw_u32 (fd : Z) : res io_error Z :=
  if fd <? 0 then Err (Custom InvalidData (Message
    "eventfd descriptor unexpectedly did not fit the KVM u32 fd field"))
  else Ok fd.

(** [IrqfdTimerRegistration::assign_with_signal] and [deassign]. *)
Definition assign_with_signal (gsi : Z) : prog K io_error (IrqfdTimerRegistration * Z) :=
  eventfd ← sys_eventfd;
  dropping [eventfd] (
    signal ← sys_dup eventfd;
    dropping [signal] (
      fd ← lift (raw_u32 eventfd);
      ioctl_irqfd (irqfd_assign fd gsi);;
      mret (mkIrqfdRegistration eventfd gsi, signal))).
Definition irqfd_registration_deassign (self : IrqfdTimerRegistration) : prog K io_error unit :=
  fd ← lift (raw_u32 (reg_eventfd self));
  ioctl_irqfd (irqfd_deassign fd (reg_gsi self)).

(** The request of both [KVM_IOEVENTFD] calls. *)
Definition ioeventfd_request (spec : HostRegistrationSpec) (fd flags : Z) : KvmIoEventFd :=
  mkIoEventFd (doorbell_datamatch spec) (doorbell_address spec) (doorbell_length spec) fd flags.

(** [ReconstructedHostRegistrations::reconstruct]. *)
Definition assign_doorbell (spec : HostRegistrationSpec) (eventfd : Z)
    (registration : IrqfdTimerRegistration) : prog K Error unit := λ k,
  match ioctl_ioeventfd (ioeventfd_request spec eventfd KVM_IOEVENTFD_FLAG_DATAMATCH) k with
  | (Ok _, k) => (Ok tt, k)
  | (Err source, k) =>
      match irqfd_registration_deassign registration k with
      | (Ok _, k) => (Err (vm_operation "assign reconstructed KVM_IOEVENTFD" source), k)
      | (Err cleanup, k) =>
          (Err (vm_operation "cleanup reconstructed irqfd after ioeventfd assign failure" cleanup), k)
      | (Panic, k) => (Panic, k)
      end
  | (Panic, k) => (Panic, k)
  end.
Definition reconstruct (spec : HostRegistrationSpec) : prog K Error ReconstructedHostRegistrations :=
  reading require_irqfd_capability;;
  reading require_ioeventfd_capability;;
  set_gsi_level (gsi spec) false;;
  eventfd ← pmap_err (vm_operation "create reconstructed ioeventfd eventfd") sys_eventfd;
  dropping [eventfd] (
    reader ← pmap_err (vm_operation "duplicate reconstructed ioeventfd reader") (sys_dup eventfd);
    dropping [reader] (
      '(registration, signal) ←
        pmap_err (vm_operation "assign reconstructed KVM_IRQFD") (assign_with_signal (gsi spec));
      dropping [signal; reg_eventfd registration] (
        assign_doorbell spec eventfd registration;;
        mret (mkReconstructed spec eventfd reader registration signal)))).

(** [ReconstructedHostRegistrations::deassign]: both removals are tried, then the
    descriptors are closed. *)
Definition owned_fds (self : ReconstructedHostRegistrations) : list Z :=
  [doorbell_eventfd self; doorbell_reader self; reg_eventfd (irqfd_registration self); irq_signal self].
Definition deassign (self : ReconstructedHostRegistrations) : prog K Error unit := λ k,
  let '(ioeventfd_result, k) := ioctl_ioeventfd (ioeventfd_request (rec_spec self) (doorbell_eventfd self)
        (Z.lor KVM_IOEVENTFD_FLAG_DATAMATCH KVM_IOEVENTFD_FLAG_DEASSIGN)) k in
  let '(irqfd_result, k) := irqfd_registration_deassign (irqfd_registration self) k in
  (match ioeventfd_result, irqfd_result with
   | Ok _, Ok _ => Ok tt
   | Err source, _ => Err (vm_operation "deassign reconstructed KVM_IOEVENTFD" source)
   | Ok _, Err source => Err (vm_operation "deassign reconstructed KVM_IRQFD" source)
   | _, _ => Panic
   end, close_all (owned_fds self) k).

(** ** The pair *)
(** [ReconstructedHostRegistrationPair::reconstruct] and [deassign]. *)
Definition reconstruct_second (first : ReconstructedHostRegistrations) (spec : HostRegistrationSpec)
    : prog K Error ReconstructedHostRegistrationPair := λ k,
  match reconstruct spec k with
  | (Ok second, k) => (Ok (first, second), k)
  | (Err second_error, k) =>
      match deassign first k with
      | (Ok _, k) => (Err second_error, k)
      | (Err cleanup_error, k) =>
          (Err (host_registration_error
             "rollback first host registration after second reconstruction failure"
             "second reconstruction failed; first rollback also failed"), k)
      | (Panic, k) => (Panic, k)
      end
  | (Panic, k) => (Panic, k)
  end.
Definition pair_reconstruct (specs : HostRegistrationSpecPair)
    : prog K Error ReconstructedHostRegistrationPair :=
  first ← reconstruct specs.1;
  reconstruct_second first specs.2.
Definition pair_deassign (self : ReconstructedHostRegistrationPair) : prog K Error unit := λ k,
  let '(second_result, k) := deassign self.2 k in
  let '(first_result, k) := deassign self.1 k in
  (match second_result, first_result with
   | Ok _, Ok _ => Ok tt
   | Err error, Ok _ | Ok _, Err error => Err error
   | Err _, Err _ => Err (host_registration_error "deassign reconstructed host registration pair"
                            "second and first registration cleanup failed")
   | _, _ => Panic
   end, k).
(** The drop of a pair that is not deassigned. *)
Definition drop_pair (self : ReconstructedHostRegistrationPair) (k : K) : K :=
  close_all (owned_fds self.2) (close_all (owned_fds self.1) k).
(** [ReconstructedHostRegistrationPair::registration]. *)
Definition registration (self : ReconstructedHostRegistrationPair) (index : Z)
    : res Error ReconstructedHostRegistrations :=
  ok_or (if index =? 0 then Some self.1 else if index =? 1 then Some self.2 else None)
    (host_registration_error "select reconstructed host registration"
       "registration index is outside the fixed pair").

(** ** The doorbell and the interrupt signal *)

(** [eventfd_pending]. *)
Fixpoint eventfd_pending (retries : nat) (fd : Z) : fprog K io_error bool :=
  match retries with
  | O => out_of_fuel
  | S retries => λ k,
      match sys_poll fd 0 k with
      | (Ok (ready, revents), k) =>
          Some (if ready =? 0 then Ok false
                else if negb (Z.land revents (Z.lor (Z.lor POLLERR POLLHUP) POLLNVAL) =? 0)
                then Err (Custom Other (Message "eventfd checkpoint-quiescence poll returned terminal revents"))
                else Ok (negb (Z.land revents POLLIN =? 0)), k)
      | (Err source, k) =>
          if is_interrupted source then eventfd_pending retries fd k else Some (Err source, k)
      | (Panic, k) => Some (Panic, k)
      end
  end.
(** [wait_eventfd_value]: wait until the counter is readable, then read it. *)
Fixpoint wait_readable (retries : nat) (fd timeout : Z) : fprog K io_error unit :=
  match retries with
  | O => out_of_fuel
  | S retries => λ k,
      match sys_poll fd timeout k with
      | (Ok (ready, revents), k) =>
          Some (if ready =? 0 then
                  Err (Custom TimedOut (Message "timed out waiting for KVM_IOEVENTFD doorbell event"))
                else if Z.land revents POLLIN =? 0
                then Err (Custom Other (Message "unexpected poll revents for ioeventfd"))
                else Ok tt, k)
      | (Err source, k) =>
          if is_interrupted source then wait_readable retries fd timeout k else Some (Err source, k)
      | (Panic, k) => Some (Panic, k)
      end
  end.
Fixpoint read_value (retries : nat) (fd : Z) : fprog K io_error Z :=
  match retries with
  | O => out_of_fuel
  | S retries => λ k,
      match sys_read8 fd k with
      | (Ok (count, value), k) =>
          Some (if count =? 8 then Ok value
                else Err (Custom UnexpectedEof (Message "ioeventfd read returned a short count")), k)
      | (Err source, k) => if is_interrupted source then read_value retries fd k else Some (Err source, k)
      | (Panic, k) => Some (Panic, k)
      end
  end.
Definition wait_eventfd_value (retries : nat) (fd timeout : Z) : fprog K io_error Z :=
  wait_readable retries fd timeout;; read_value retries fd.
(** [EventFd::signal]. *)
Fixpoint eventfd_signal (retries : nat) (fd : Z) : fprog K io_error unit :=
  match retries with
  | O => out_of_fuel
  | S retries => λ k,
      match sys_write8 fd 1 k with
      | (Ok count, k) =>
          Some (if count =? 8 then Ok tt
                else Err (Custom WriteZero (Message "eventfd signal wrote a short count")), k)
      | (Err source, k) => if is_interrupted source then eventfd_signal retries fd k else Some (Err source, k)
      | (Panic, k) => Some (Panic, k)
      end
  end.

Definition fmap_err {S E F A} (g : E → F) (m : fprog S E A) : fprog S F A := λ s,
  match m s with
  | Some (r, s') => Some (map_err g r, s')
  | None => None
  end.
Definition wait_doorbell (retries : nat) (self : ReconstructedHostRegistrations) (timeout : Z)
    : fprog K Error Z :=
  fmap_err (vm_operation "wait for reconstructed ioeventfd doorbell")
    (wait_eventfd_value retries (doorbell_reader self) timeout).
Definition doorbell_pending (retries : nat) (self : ReconstructedHostRegistrations) : fprog K Error bool :=
  fmap_err (vm_operation "probe reconstructed ioeventfd checkpoint quiescence")
    (eventfd_pending retries (doorbell_reader self)).
Definition signal_irq (retries : nat) (self : ReconstructedHostRegistrations) : fprog K Error unit :=
  fmap_err (vm_operation "signal reconstructed irqfd eventfd") (eventfd_signal retries (irq_signal self)).
Definition pair_wait_doorbell (retries : nat) (self : ReconstructedHostRegistrationPair)
    (index timeout : Z) : fprog K Error Z :=
  selected ← total (lift (registration self index));
  wait_doorbell retries selected timeout.
Definition pair_signal_irq (retries : nat) (self : ReconstructedHostRegistrationPair) (index : Z)
    : fprog K Error unit :=
  selected ← total (lift (registration self index));
  signal_irq retries selected.
Definition pending_doorbells (retries : nat) (self : ReconstructedHostRegistrationPair)
    : fprog K Error (bool * bool) :=
  first ← doorbell_pending retries self.1;
  second ← doorbell_pending retries self.2;
  mret (first, second).
Definition require_checkpoint_quiescent (retries : nat) (self : ReconstructedHostRegistrationPair)
    : fprog K Error unit :=
  pending ← pending_doorbells retries self;
  total (lift (err_if (negb (bool_decide (pending = (false, false))))
    (host_registration_error "validate host-registration pair checkpoint quiescence"
       "accelerated ioeventfd doorbells remain pending"))).
End registrations.

(** * What the kernel promises

    [view] is what the registrations can change of the kernel: the irqfds as
    descriptor and line, the ioeventfds as address, length, data and descriptor,
    and the open descriptors. *)
Record RegView := mkView {
  irqfds : gset (Z * Z);
  ioeventfds : gset (Z * Z * Z * Z);
  open_fds : gset Z
}.
Definition registered_fd (v : RegView) (fd : Z) : Prop :=
  (∃ g, (fd, g) ∈ irqfds v) ∨ (∃ a n d, (a, n, d, fd) ∈ ioeventfds v).
Definition view_wf (v : RegView) : Prop := ∀ fd, registered_fd v fd → fd ∈ open_fds v.
Definition with_fd (fd : Z) (v : RegView) : RegView :=
  mkView (irqfds v) (ioeventfds v) ({[fd]} ∪ open_fds v).
Definition without_fd (fd : Z) (v : RegView) : RegView :=
  mkView (irqfds v) (ioeventfds v) (open_fds v ∖ {[fd]}).
Definition with_irqfd (fd line : Z) (v : RegView) : RegView :=
  mkView ({[(fd, line)]} ∪ irqfds v) (ioeventfds v) (open_fds v).
Definition without_irqfd (fd line : Z) (v : RegView) : RegView :=
  mkView (irqfds v ∖ {[(fd, line)]}) (ioeventfds v) (open_fds v).
Definition doorbell_key (spec : HostRegistrationSpec) (fd : Z) : Z * Z * Z * Z :=
  (doorbell_address spec, doorbell_length spec, doorbell_datamatch spec, fd).
Definition with_doorbell (spec : HostRegistrationSpec) (fd : Z) (v : RegView) : RegView :=
  mkView (irqfds v) ({[doorbell_key spec fd]} ∪ ioeventfds v) (open_fds v).
Definition without_doorbell (spec : HostRegistrationSpec) (fd : Z) (v : RegView) : RegView :=
  mkView (irqfds v) (ioeventfds v ∖ {[doorbell_key spec fd]}) (open_fds v).

(** A call that fails changes nothing; a new descriptor is not open yet; an
    open, registered eventfd can be deassigned; closing a descriptor that is not
    registered only closes it. *)
Class KvmRegistrarLaws (K : Type) `{!KvmRegistrar K} := {
  view : K → RegView;
  check_extension_ok id k : no_panic (check_extension id k);
  irq_line_runs line level k :
    runs (ioctl_irq_line line level) k (λ _ k', view k' = view k) (λ _ k', view k' = view k);
  eventfd_runs k :
    runs sys_eventfd k (λ fd k', 0 ≤ fd ∧ (fd ∉ open_fds (view k)) ∧ view k' = with_fd fd (view k))
      (λ _ k', view k' = view k);
  dup_runs fd k :
    runs (sys_dup fd) k (λ fd' k', 0 ≤ fd' ∧ (fd' ∉ open_fds (view k)) ∧ view k' = with_fd fd' (view k))
      (λ _ k', view k' = view k);
  close_view fd k : ¬ registered_fd (view k) fd → view (sys_close fd k) = without_fd fd (view k);
  irqfd_assign_runs fd line k :
    fd ∈ open_fds (view k) →
    runs (ioctl_irqfd (irqfd_assign fd line)) k (λ _ k', view k' = with_irqfd fd line (view k))
      (λ _ k', view k' = view k);
  irqfd_deassign_runs fd line k :
    fd ∈ open_fds (view k) → (fd, line) ∈ irqfds (view k) →
    runs (ioctl_irqfd (irqfd_deassign fd line)) k (λ _ k', view k' = without_irqfd fd line (view k))
      (λ _ _, False);
  doorbell_assign_runs spec fd k :
    fd ∈ open_fds (view k) →
    runs (ioctl_ioeventfd (ioeventfd_request spec fd KVM_IOEVENTFD_FLAG_DATAMATCH)) k
      (λ _ k', view k' = with_doorbell spec fd (view k)) (λ _ k', view k' = view k);
  doorbell_deassign_runs spec fd k :
    fd ∈ open_fds (view k) → doorbell_key spec fd ∈ ioeventfds (view k) →
    runs (ioctl_ioeventfd (ioeventfd_request spec fd
            (Z.lor KVM_IOEVENTFD_FLAG_DATAMATCH KVM_IOEVENTFD_FLAG_DEASSIGN))) k
      (λ _ k', view k' = without_doorbell spec fd (view k)) (λ _ _, False);
  poll_runs fd timeout k : runs (sys_poll fd timeout) k (λ _ k', view k' = view k) (λ _ k', view k' = view k)
}.

(** The kernel after a device's registrations are in place. *)
Definition registered (r : ReconstructedHostRegistrations) (v : RegView) : RegView :=
  with_doorbell (rec_spec r) (doorbell_eventfd r)
    (with_irqfd (reg_eventfd (irqfd_registration r)) (reg_gsi (irqfd_registration r))
       (with_fd (irq_signal r) (with_fd (reg_eventfd (irqfd_registration r))
          (with_fd (doorbell_reader r) (with_fd (doorbell_eventfd r) v))))).
(** [r] owns four descriptors that were not open in [v], for the request [spec]. *)
Definition owns (r : ReconstructedHostRegistrations) (spec : HostRegistrationSpec) (v : RegView) : Prop :=
  rec_spec r = spec ∧ reg_gsi (irqfd_registration r) = gsi spec ∧
  Forall (λ fd, 0 ≤ fd ∧ fd ∉ open_fds v) (owned_fds r) ∧ NoDup (owned_fds r).

(** * Facts *)

Ltac view_eq := unfold registered, with_fd, without_fd, with_irqfd, without_irqfd, with_doorbell,
  without_doorbell; simpl; f_equal; set_solver.
Lemma without_with_fd fd v : fd ∉ open_fds v → without_fd fd (with_fd fd v) = v.
Proof. intros. destruct v. view_eq. Qed.
Lemma fresh_unregistered fd v : view_wf v → fd ∉ open_fds v → ¬ registered_fd (with_fd fd v) fd.
Proof. intros Hv Hfd Hr. by apply Hfd, Hv. Qed.
Lemma view_wf_with_fd fd v : view_wf v → view_wf (with_fd fd v).
Proof. intros Hv fd' Hr. specialize (Hv fd' Hr). simpl. set_solver. Qed.

Lemma owns_intro spec fd reader reg signal v :
  reg_gsi reg = gsi spec → 0 ≤ fd → 0 ≤ reader → 0 ≤ reg_eventfd reg → 0 ≤ signal →
  fd ∉ open_fds v → reader ∉ {[fd]} ∪ open_fds v →
  reg_eventfd reg ∉ {[reader]} ∪ ({[fd]} ∪ open_fds v) → signal ∉ {[reader]} ∪ ({[fd]} ∪ open_fds v) →
  signal ≠ reg_eventfd reg → owns (mkReconstructed spec fd reader reg signal) spec v.
Proof.
  intros. split_and!; [done|done| |].
  - repeat constructor; cbn; done || set_solver.
  - unfold owned_fds. cbn. rewrite !NoDup_cons. split_and!; [set_solver..|constructor].
Qed.
Lemma singleton_gone {A} `{Countable A} (x : A) (X : gset A) : x ∉ X → ({[x]} ∪ X) ∖ {[x]} = X.
Proof. set_solver. Qed.
(** Deassigning an irqfd whose descriptor was not open before it was assigned. *)
Lemma irqfd_gone fd line v w :
  view_wf v → fd ∉ open_fds v → irqfds w = irqfds v → without_irqfd fd line (with_irqfd fd line w) = w.
Proof.
  intros Hv Hfd Hw. destruct w as [i d o]. cbn in Hw. unfold without_irqfd, with_irqfd. cbn. f_equal.
  apply singleton_gone. rewrite Hw. intros Hin. apply Hfd, Hv. left. eauto.
Qed.
Section facts.
Context {K : Type} `{!KvmRegistrar K} `{!KvmRegistrarLaws K}.
Implicit Types (k : K) (v : RegView).

Lemma runs_relabel {E F A} (g : E → F) (m : prog K E A) k Q (P : K → Prop) :
  runs m k Q (λ _ k', P k') → runs (pmap_err g m) k Q (λ _ k', P k').
Proof. intros. by apply runs_pmap_err. Qed.
Lemma runs_dropping {E A} fds (m : prog K E A) k Q X :
  runs m k Q (λ e k', X e (close_all fds k')) → runs (dropping fds m) k Q X.
Proof. unfold runs, dropping. by destruct (m k) as [[] ?]. Qed.
(** Opening a descriptor for the duration of a step that gives everything back when it fails. *)
Lemma runs_owning {E A} (op : prog K E Z) (body : Z → prog K E A) k (Q : A → K → Prop) :
  view_wf (view k) →
  runs op k (λ fd k', 0 ≤ fd ∧ (fd ∉ open_fds (view k)) ∧ view k' = with_fd fd (view k))
    (λ _ k', view k' = view k) →
  (∀ fd k', 0 ≤ fd → fd ∉ open_fds (view k) → view k' = with_fd fd (view k) → view_wf (view k') →
     runs (body fd) k' Q (λ _ k'', view k'' = view k')) →
  runs (fd ← op; dropping [fd] (body fd)) k Q (λ _ k', view k' = view k).
Proof.
  intros Hwf Hop Hbody. apply runs_bind. eapply runs_mono; [exact Hop| |done].
  intros fd k' (H0&Hfresh&Hv). apply runs_dropping. eapply runs_mono; [apply Hbody; try done| |].
  - rewrite Hv. by apply view_wf_with_fd.
  - done.
  - intros e k'' Hk. cbn. rewrite close_view, Hk, Hv; [by apply without_with_fd|].
    rewrite Hk, Hv. by apply fresh_unregistered.
Qed.
(** Closing the two descriptors that a failed step leaves open. *)
Lemma close_two a b k v :
  view_wf v → a ∉ {[b]} ∪ open_fds v → b ∉ open_fds v → view k = with_fd a (with_fd b v) →
  view (sys_close b (sys_close a k)) = v.
Proof.
  intros Hwf Ha Hb Hk.
  assert (view (sys_close a k) = with_fd b v) as H1.
  { rewrite close_view, Hk; [by apply without_with_fd|]. rewrite Hk.
    apply (fresh_unregistered a (with_fd b v)); [by apply view_wf_with_fd|done]. }
  rewrite close_view, H1; [by apply without_with_fd|]. rewrite H1. by apply fresh_unregistered.
Qed.
Lemma raw_u32_ok fd : 0 ≤ fd → raw_u32 fd = Ok fd.
Proof. intros. unfold raw_u32. by zcmp. Qed.

Lemma assign_with_signal_runs line k :
  view_wf (view k) →
  runs (assign_with_signal line) k
    (λ '(r, signal) k', reg_gsi r = line ∧ 0 ≤ reg_eventfd r ∧ 0 ≤ signal ∧
       (reg_eventfd r ∉ open_fds (view k)) ∧ (signal ∉ open_fds (view k)) ∧ signal ≠ reg_eventfd r ∧
       view k' = with_irqfd (reg_eventfd r) line (with_fd signal (with_fd (reg_eventfd r) (view k))))
    (λ _ k', view k' = view k).
Proof.
  intros Hwf. apply runs_owning; [done|apply eventfd_runs|]. intros fd k1 H0 Hfd Hv1 Hwf1.
  apply runs_owning; [done|apply dup_runs|]. intros signal k2 Hs0 Hs Hv2 Hwf2.
  apply runs_lift_ok with fd; [by apply raw_u32_ok|]. apply runs_bind.
  eapply runs_mono; [apply irqfd_assign_runs; rewrite Hv2, Hv1; set_solver| |done].
  intros uk3 k3 Hv3. cbv beta in Hv3. clear uk3. apply runs_ret. rewrite Hv3, Hv2, Hv1. rewrite Hv1 in Hs. simpl in Hs |- *.
  split_and!; done || set_solver.
Qed.

(** ** Reconstruction of one registration *)
Lemma assign_doorbell_runs spec fd r k :
  fd ∈ open_fds (view k) → reg_eventfd r ∈ open_fds (view k) → 0 ≤ reg_eventfd r →
  (reg_eventfd r, reg_gsi r) ∈ irqfds (view k) →
  runs (assign_doorbell spec fd r) k (λ _ k', view k' = with_doorbell spec fd (view k))
    (λ _ k', view k' = without_irqfd (reg_eventfd r) (reg_gsi r) (view k)).
Proof.
  intros Hfd Hopen H0 Hin. pose proof (doorbell_assign_runs spec fd k Hfd) as Hd.
  unfold runs, assign_doorbell in *. destruct (ioctl_ioeventfd _ k) as [[u|e|] k1]; [done| |done].
  pose proof (irqfd_deassign_runs (reg_eventfd r) (reg_gsi r) k1) as Hi. rewrite Hd in Hi.
  specialize (Hi Hopen Hin). unfold irqfd_registration_deassign.
  rewrite (raw_u32_ok _ H0). unfold runs, lift, mbind, prog_bind in *.
  by destruct (ioctl_irqfd _ k1) as [[]].
Qed.
Lemma reconstruct_runs spec k :
  view_wf (view k) →
  runs (reconstruct spec) k
    (λ r k', owns r spec (view k) ∧ view k' = registered r (view k)) (λ _ k', view k' = view k).
Proof.
  intros Hwf. unfold reconstruct.
  do 2 (apply runs_bind, runs_reading; [|intros ? _|done];
        [unfold require_irqfd_capability, require_ioeventfd_capability, require_capability;
         apply no_panic_bind; [apply no_panic_map_err, check_extension_ok|auto with panics]|]).
  apply runs_bind. eapply runs_mono; [apply runs_relabel, irq_line_runs| |done].
  intros uk0 k0 Hv0. cbv beta in Hv0. clear uk0. rewrite <- Hv0 in Hwf |- *.
  apply runs_owning; [done|apply runs_relabel, eventfd_runs|]. intros fd k1 H0 Hfd Hv1 Hwf1.
  apply runs_owning; [done|apply runs_relabel, dup_runs|]. intros reader k2 Hr0 Hr Hv2 Hwf2.
  apply runs_bind. eapply runs_mono; [by apply runs_relabel, assign_with_signal_runs| |done].
  intros [reg signal] k3 (Hg&Hreg0&Hs0&Hreg&Hs&Hne&Hv3). apply runs_dropping, runs_bind.
  assert (fd ∈ open_fds (view k3) ∧ reg_eventfd reg ∈ open_fds (view k3) ∧
          (reg_eventfd reg, reg_gsi reg) ∈ irqfds (view k3)) as (Hin1&Hin2&Hin3).
  { rewrite Hv3, Hv2, Hv1, Hg. cbn. clear. set_solver. }
  eapply runs_mono; [by apply assign_doorbell_runs|..].
  - intros uk4 k4 Hv4. cbv beta in Hv4. clear uk4. apply runs_ret.
    rewrite Hv2, Hv1 in Hreg, Hs. rewrite Hv1 in Hr. cbn in Hreg, Hs, Hr.
    split; [|by rewrite Hv4, Hv3, Hv2, Hv1; unfold registered; cbn; rewrite Hg].
    by apply owns_intro.
  - intros e k4 Hv4. cbn. rewrite Hg, Hv3 in Hv4.
    apply close_two; [done|set_solver|done|]. rewrite Hv4. by apply (irqfd_gone _ _ (view k2)).
Qed.

(** ** Removal *)
Lemma close_all_view fds k :
  Forall (λ fd, ¬ registered_fd (view k) fd) fds →
  view (close_all fds k) =
    mkView (irqfds (view k)) (ioeventfds (view k)) (open_fds (view k) ∖ list_to_set fds).
Proof.
  revert k. induction fds as [|fd fds IH]; intros k Hf.
  - cbn. destruct (view k). f_equal. set_solver.
  - inversion_clear Hf as [|?? Hfd Hfds]. change (close_all (fd :: fds) k) with (close_all fds (sys_close fd k)).
    rewrite IH; rewrite close_view by done; [|done]. cbn. f_equal. set_solver.
Qed.
(** The kernel between the removals and the closing of the descriptors. *)
Definition unregistered (r : ReconstructedHostRegistrations) v : RegView :=
  with_fd (irq_signal r) (with_fd (reg_eventfd (irqfd_registration r))
    (with_fd (doorbell_reader r) (with_fd (doorbell_eventfd r) v))).
Lemma unregister_irqfd r spec v :
  view_wf v → owns r spec v →
  without_irqfd (reg_eventfd (irqfd_registration r)) (reg_gsi (irqfd_registration r))
    (without_doorbell spec (doorbell_eventfd r) (registered r v)) = unregistered r v.
Proof.
  intros Hwf (<-&Hg&Hf&_).
  assert ((doorbell_eventfd r ∉ open_fds v) ∧ reg_eventfd (irqfd_registration r) ∉ open_fds v) as [Hd Hi].
  { rewrite Forall_forall in Hf. split; apply Hf; unfold owned_fds; set_solver. }
  unfold registered. fold (unregistered r v).
  transitivity (without_irqfd (reg_eventfd (irqfd_registration r)) (reg_gsi (irqfd_registration r))
    (with_irqfd (reg_eventfd (irqfd_registration r)) (reg_gsi (irqfd_registration r)) (unregistered r v))).
  - f_equal. unfold without_doorbell, with_doorbell, with_irqfd, unregistered. cbn. f_equal.
    apply singleton_gone. intros Hin. apply Hd, Hwf. right. unfold doorbell_key in Hin. eauto.
  - by apply (irqfd_gone _ _ v).
Qed.
Lemma close_owned r spec v k :
  view_wf v → owns r spec v → view k = unregistered r v → view (close_all (owned_fds r) k) = v.
Proof.
  intros Hwf (_&_&Hf&_) Hk. rewrite close_all_view, Hk.
  - destruct v as [i d o]. cbn in *. f_equal. unfold owned_fds in *.
    rewrite !Forall_cons in Hf. set_solver.
  - eapply Forall_impl; [exact Hf|]. intros fd [_ Hfd] Hr. rewrite Hk in Hr. by apply Hfd, Hwf.
Qed.
Lemma deassign_runs r spec v k :
  view_wf v → owns r spec v → view k = registered r v →
  runs (deassign r) k (λ _ k', view k' = v) (λ _ _, False).
Proof.
  intros Hwf Hown Hk. pose proof Hown as (Hs&Hg&Hf&_).
  pose proof (doorbell_deassign_runs spec (doorbell_eventfd r) k) as Hd.
  rewrite Hk in Hd. specialize (Hd ltac:(cbn; set_solver) ltac:(cbn; rewrite Hs; set_solver)).
  unfold runs, deassign in *. rewrite Hs. destruct (ioctl_ioeventfd _ k) as [[u|e|] k1]; [|done..].
  pose proof (irqfd_deassign_runs (reg_eventfd (irqfd_registration r)) (reg_gsi (irqfd_registration r)) k1) as Hi.
  rewrite Hd in Hi. specialize (Hi ltac:(cbn; set_solver) ltac:(cbn; set_solver)).
  assert (0 ≤ reg_eventfd (irqfd_registration r)) as H0.
  { rewrite Forall_forall in Hf. apply Hf. unfold owned_fds. set_solver. }
  unfold irqfd_registration_deassign. rewrite (raw_u32_ok _ H0). unfold runs, lift, mbind, prog_bind in *.
  destruct (ioctl_irqfd _ k1) as [[u'|e|] k2]; [|done..].
  eapply close_owned; [done..|]. rewrite Hi. by apply unregister_irqfd.
Qed.

(** ** The pair *)
Lemma view_wf_registered r spec v : view_wf v → owns r spec v → view_wf (registered r v).
Proof.
  intros Hwf (Hs&_) fd [[g Hg]|(a&n&d&Hd)]; cbn in *.
  - apply elem_of_union in Hg as [[= -> _]%elem_of_singleton|Hg]; [set_solver|].
    specialize (Hwf fd (or_introl (ex_intro _ g Hg))). set_solver.
  - apply elem_of_union in Hd as [[= _ _ _ ->]%elem_of_singleton|Hd]; [set_solver|].
    specialize (Hwf fd). unfold registered_fd in Hwf. set_solver.
Qed.
(** What the pair holds over the kernel it was started in. *)
Definition pair_owns (rs : ReconstructedHostRegistrationPair) (specs : HostRegistrationSpecPair) v : Prop :=
  owns rs.1 specs.1 v ∧ owns rs.2 specs.2 (registered rs.1 v).
Definition pair_registered (rs : ReconstructedHostRegistrationPair) v : RegView :=
  registered rs.2 (registered rs.1 v).
Lemma pair_reconstruct_runs specs k :
  view_wf (view k) →
  runs (pair_reconstruct specs) k
    (λ rs k', pair_owns rs specs (view k) ∧ view k' = pair_registered rs (view k))
    (λ _ k', view k' = view k).
Proof.
  intros Hwf. apply runs_bind. eapply runs_mono; [by apply reconstruct_runs| |done].
  intros first k1 [Hown Hv1]. pose proof (view_wf_registered _ _ _ Hwf Hown) as Hwf1.
  rewrite <- Hv1 in Hwf1. pose proof (reconstruct_runs specs.2 k1 Hwf1) as H2.
  unfold runs, reconstruct_second in *. rewrite Hv1 in H2.
  destruct (reconstruct specs.2 k1) as [[second|e|] k2]; [|..|done].
  - destruct H2 as [Hown2 Hv2]. by split.
  - pose proof (deassign_runs first specs.1 (view k) k2 Hwf Hown H2) as Hd. unfold runs in Hd.
    by destruct (deassign first k2) as [[] ?].
Qed.
Lemma pair_deassign_runs rs specs v k :
  view_wf v → pair_owns rs specs v → view k = pair_registered rs v →
  runs (pair_deassign rs) k (λ _ k', view k' = v) (λ _ _, False).
Proof.
  intros Hwf [H1 H2] Hk. pose proof (view_wf_registered _ _ _ Hwf H1) as Hwf1.
  pose proof (deassign_runs rs.2 specs.2 _ k Hwf1 H2 Hk) as Hd2. unfold runs, pair_deassign in *.
  destruct (deassign rs.2 k) as [[u|e|] k1]; [|done..].
  pose proof (deassign_runs rs.1 specs.1 v k1 Hwf H1 Hd2) as Hd1. unfold runs in Hd1.
  by destruct (deassign rs.1 k1) as [[] ?].
Qed.
End facts.

(** C15: host registrations are all or nothing.  Reconstructing the pair never
    panics.  If it succeeds, the kernel has gained exactly one irqfd and one
    ioeventfd per request, on eight descriptors that were not open before, and
    deassigning the pair succeeds and puts back the irqfds, the ioeventfds and
    the open descriptors there were.  If it fails at any system call, of either
    registration, everything that had been opened or assigned is already gone. *)
Theorem registrations_all_or_nothing {K} `{!KvmRegistrar K} `{!KvmRegistrarLaws K}
    (specs : HostRegistrationSpecPair) (k : K) :
  view_wf (view k) →
  runs (pair_reconstruct specs) k
    (λ rs k', pair_owns rs specs (view k) ∧ view k' = pair_registered rs (view k) ∧
       runs (pair_deassign rs) k' (λ _ k'', view k'' = view k) (λ _ _, False))
    (λ _ k', view k' = view k).
Proof.
  intros Hwf. eapply runs_mono; [by apply pair_reconstruct_runs| |done].
  intros rs k' [Hown Hv]. split_and!; [done..|]. by eapply pair_deassign_runs.
Qed.

(** A kernel that keeps the view itself and takes at most [ioeventfd_limit] ioeventfds. *)
Record stored_registrar := mkStored { stored_view : RegView; ioeventfd_limit : nat }.
Definition fresh_fd (v : RegView) : Z := Z.of_nat (fresh (set_map (C:=gset Z) (D:=gset nat) Z.to_nat (open_fds v))).
Lemma fresh_fd_fresh v : 0 ≤ fresh_fd v ∧ fresh_fd v ∉ open_fds v.
Proof.
  split; [unfold fresh_fd; lia|]. intros Hin. unfold fresh_fd in Hin.
  pose proof (is_fresh (set_map (C:=gset Z) (D:=gset nat) Z.to_nat (open_fds v))) as Hf.
  apply Hf, elem_of_map. eexists. split; [|exact Hin]. by rewrite Nat2Z.id.
Qed.
Definition update_view (f : RegView → RegView) (k : stored_registrar) : stored_registrar :=
  mkStored (f (stored_view k)) (ioeventfd_limit k).
Definition stored_spec (q : KvmIoEventFd) : HostRegistrationSpec :=
  {| doorbell_address := io_addr q; doorbell_length := io_len q; doorbell_datamatch := io_datamatch q; gsi := 0 |}.
#[export] Instance stored_registrar_calls : KvmRegistrar stored_registrar := {|
  check_extension _ _ := Ok 1;
  ioctl_irq_line _ _ k := (Ok tt, k);
  sys_eventfd k := (Ok (fresh_fd (stored_view k)), update_view (with_fd (fresh_fd (stored_view k))) k);
  sys_dup _ k := (Ok (fresh_fd (stored_view k)), update_view (with_fd (fresh_fd (stored_view k))) k);
  sys_close fd := update_view (without_fd fd);
  ioctl_irqfd q k :=
    (Ok tt, update_view ((if Z.testbit (irqfd_flags q) 0 then without_irqfd else with_irqfd)
                           (irqfd_fd q) (irqfd_gsi q)) k);
  ioctl_ioeventfd q k :=
    if Z.testbit (io_flags q) 2 then (Ok tt, update_view (without_doorbell (stored_spec q) (io_fd q)) k)
    else if (size (ioeventfds (stored_view k)) <? ioeventfd_limit k)%nat
    then (Ok tt, update_view (with_doorbell (stored_spec q) (io_fd q)) k)
    else (Err (OsError 28 Other), k);
  sys_poll _ _ k := (Ok (0, 0), k);
  sys_read8 _ k := (Ok (8, 1), k);
  sys_write8 _ _ k := (Ok 8, k)
|}.
#[export] Instance stored_registrar_laws : KvmRegistrarLaws stored_registrar.
Proof.
  refine {| view := stored_view |}; try done.
  - intros k. cbn. pose proof (fresh_fd_fresh (stored_view k)). tauto.
  - intros fd k. cbn. pose proof (fresh_fd_fresh (stored_view k)). tauto.
  - intros spec fd k _. unfold runs. cbn [ioctl_ioeventfd stored_registrar_calls io_flags ioeventfd_request].
    change (Z.testbit KVM_IOEVENTFD_FLAG_DATAMATCH 2) with false. by destruct (_ <? _)%nat.
Defined.
Definition empty_kernel (limit : nat) : stored_registrar := mkStored (mkView ∅ ∅ ∅) limit.
Definition example_specs : HostRegistrationSpecPair :=
  ({| doorbell_address := 0x10000100; doorbell_length := 2; doorbell_datamatch := 0; gsi := 0 |},
   {| doorbell_address := 0x10001100; doorbell_length := 2; doorbell_datamatch := 0; gsi := 1 |}).
(** With room for both doorbells the pair is assigned; with room for one, the first is rolled back. *)
Lemma registrations_all_or_nothing_witness :
  (∃ rs k', pair_reconstruct example_specs (empty_kernel 2) = (Ok rs, k') ∧ size (ioeventfds (view k')) = 2%nat ∧
     runs (pair_deassign rs) k' (λ _ k'', view k'' = mkView ∅ ∅ ∅) (λ _ _, False)) ∧
  (∃ e k', pair_reconstruct example_specs (empty_kernel 1) = (Err e, k') ∧ view k' = mkView ∅ ∅ ∅).
Proof.
  assert (∀ n, view_wf (view (empty_kernel n))) as Hwf.
  { intros n fd [[g H]|(a&l&d&H)]; cbn in H; set_solver. }
  pose proof (registrations_all_or_nothing example_specs (empty_kernel 2) (Hwf _)) as H2.
  pose proof (registrations_all_or_nothing example_specs (empty_kernel 1) (Hwf _)) as H1.
  split.
  - destruct (pair_reconstruct example_specs (empty_kernel 2)) as [[rs|e|] k'] eqn:E;
      [|vm_compute in E; discriminate..].
    unfold runs in H2 at 1. rewrite E in H2. destruct H2 as (_&_&Hd).
    exists rs, k'. split; [reflexivity|]. split; [|exact Hd].
    vm_compute in E. injection E as <- <-. vm_compute. reflexivity.
  - destruct (pair_reconstruct example_specs (empty_kernel 1)) as [[rs|e|] k'] eqn:E;
      [vm_compute in E; discriminate| |vm_compute in E; discriminate].
    unfold runs in H1 at 1. rewrite E in H1. exists e, k'. split; [reflexivity|exact H1].
Defined.
