(* ===== verification/LiveTransaction.v ===== *)
(** The checkpoint transaction of a two-vCPU machine with two block devices:
    machine, devices and host registrations captured and restored together
    ([TwoVcpuTwoDeviceCheckpointTransaction] of
    [src/src/state_snapshot/page_set/two_vcpu_two_device_transaction.rs]).

    It composes the checkpoints of [LiveDevices] with the registrations of
    [Registrations].  [retries] bounds how often an interrupted poll is retried;
    running out of it is [None].  Numbers and nested errors interpolated into
    messages are left out of them. *)

From stdpp Require Import sorting gmap.
From S2P Require Import Prelude Errors Memory LongMode VirtioCommon VirtioBlk BlkCheckpoint Msr VcpuState SchemaV1 PageSet.
From S2P Require Import Mmio Envelope Irqchip HostRegistration ControllerSchema DeviceSchema TwoDeviceSchema TwoVcpuSchema.
From S2P Require Import TwoVcpuTransaction BlkBus LiveCheckpoint LiveDevices Registrations.

Abbreviation TwoVcpuCheckpoint := (TwoDeviceCheckpoint BoundedTwoVcpuFullControllerCheckpoint).
Abbreviation TransactionRestored :=
  (PairComparison (C:=BoundedTwoVcpuFullControllerCheckpointComparison) * ReconstructedHostRegistrationPair)%type.
Record TwoVcpuTwoDeviceCheckpointTransaction := mkTransaction {
  tx_checkpoint : TwoVcpuCheckpoint;
  tx_registrations : HostRegistrationSpecPair
}.
(** The texts in which the three restores differ. *)
Record RestoreText := {
  restore_operation : string; restore_detail : string;
  quiescence_cleanup : string; verify_cleanup : string;
  changed_operation : string; changed_detail : string; changed_cleanup : string;
  binding_operation : string; validation_operation : string
}.
Definition plain_text : RestoreText := {|
  restore_operation := "two-vCPU two-device transaction restore";
  restore_detail := "checkpoint did not verify exactly; host registrations were not reconstructed";
  quiescence_cleanup := "two-vCPU two-device registration reconstruction cleanup";
  verify_cleanup := "two-vCPU two-device post-registration verification cleanup";
  changed_operation := "two-vCPU two-device post-registration verification";
  changed_detail := "reconstructing the host-registration pair changed restored checkpoint state";
  changed_cleanup := "two-vCPU two-device post-registration cleanup";
  binding_operation := ""; validation_operation := "" |}.
Definition pending_text (kind : string) : RestoreText := {|
  restore_operation := "two-vCPU " +:+ kind +:+ " transaction restore";
  restore_detail := "token-aware checkpoint did not verify exactly; host registrations were not reconstructed";
  quiescence_cleanup := "two-vCPU " +:+ kind +:+ " reconstruction cleanup";
  verify_cleanup := "two-vCPU " +:+ kind +:+ " post-registration cleanup";
  changed_operation := "two-vCPU " +:+ kind +:+ " post-registration verification";
  changed_detail := "reconstructing host registrations changed token-aware restored state";
  changed_cleanup := "two-vCPU " +:+ kind +:+ " post-registration cleanup";
  binding_operation := "two-vCPU " +:+ kind +:+ " restored token binding";
  validation_operation := "two-vCPU " +:+ kind +:+ " restored token validation" |}.

(** [BoundedTwoVcpuFullControllerTwoVirtioBlkCheckpoint::device]. *)
Definition checkpoint_device (self : TwoVcpuCheckpoint) (bar : Z) : option VirtioBlkDevice :=
  if (two_devices self).1.1 =? bar then Some (two_devices self).1.2
  else if (two_devices self).2.1 =? bar then Some (two_devices self).2.2 else None.
(** The check of the token against the checkpoint that ends the pending restores. *)
Definition validate_restored_token (k : BusToken) (text : RestoreText) (self : TwoVcpuCheckpoint)
    (token : PendingToken) : res Error unit :=
  device ← ok_or (checkpoint_device self (token_bar0 token))
             (page_set_error (binding_operation text) "token BAR disappeared");
  map_err (λ _, page_set_error (validation_operation text) "token does not validate")
    (bus_validate k token device).

Section transaction.
Context {K : Type} `{!KvmMachine K} `{!KvmRegistrar K}.
Context (policy : GuestMsrAccessPolicy) (addresses : list Z) (retries : nat) (first second : Z).
Abbreviation VmBus := (Machine K * MmioBus)%type.

Definition on_vm_kernel {A} (f : prog K Error A) : prog VmBus Error A := on_machine (in_kernel f).
Definition on_vm_kernel_fuel {A} (f : fprog K Error A) : fprog VmBus Error A := λ w,
  match f (kernel w.1) with
  | Some (r, k) => Some (r, (mkMachine k (vm_memory w.1), w.2))
  | None => None
  end.

(** ** Capture *)
(** The checks before each capture: the registrations belong to the devices and are idle. *)
Definition require_bound_and_quiescent (bars : Z * Z) (pair : HostRegistrationSpecPair)
    (registrations : ReconstructedHostRegistrationPair) : fprog VmBus Error (Z * Z) :=
  bars ← total (lift (canonical_two_virtio_blk_bars bars));
  total (lift (require_registration_pair_matches_devices pair bars));;
  on_vm_kernel_fuel (require_checkpoint_quiescent retries registrations);;
  mret bars.
Definition transaction_capture (bars : Z * Z) (pair : HostRegistrationSpecPair)
    (registrations : ReconstructedHostRegistrationPair) : fprog VmBus Error TwoVcpuTwoDeviceCheckpointTransaction :=
  canonical ← require_bound_and_quiescent bars pair registrations;
  checkpoint ← total (two_vcpu_two_blk_capture policy addresses first second canonical);
  mret (mkTransaction checkpoint pair).
Definition transaction_capture_with_pending_completion (bars : Z * Z) (pair : HostRegistrationSpecPair)
    (registrations : ReconstructedHostRegistrationPair) (pending_bar : Z)
    : fprog VmBus Error (TwoVcpuTwoDeviceCheckpointTransaction * PendingToken) :=
  require_bound_and_quiescent bars pair registrations;;
  '(checkpoint, token) ← total (two_vcpu_capture_with_pending_completion policy addresses first second bars pending_bar);
  mret (mkTransaction checkpoint pair, token).
Definition transaction_capture_with_pending_notification (bars : Z * Z) (pair : HostRegistrationSpecPair)
    (registrations : ReconstructedHostRegistrationPair) (pending_bar : Z)
    : fprog VmBus Error (TwoVcpuTwoDeviceCheckpointTransaction * PendingToken) :=
  require_bound_and_quiescent bars pair registrations;;
  '(checkpoint, token) ← total (two_vcpu_capture_with_pending_notification policy addresses first second bars pending_bar);
  mret (mkTransaction checkpoint pair, token).

(** ** Restore *)
(** A step after the registrations exist: an error deassigns them before it is returned. *)
Definition or_deassign {A} (registrations : ReconstructedHostRegistrationPair) (cleanup_operation cleanup_detail : string)
    (step : fprog VmBus Error A) : fprog VmBus Error A := λ w,
  match step w with
  | Some (Err error, w) =>
      match on_vm_kernel (pair_deassign registrations) w with
      | (Ok _, w) => Some (Err error, w)
      | (Err _, w) => Some (Err (page_set_error cleanup_operation cleanup_detail), w)
      | (Panic, w) => Some (Panic, w)
      end
  | r => r
  end.
Definition reconstruct_and_verify (text : RestoreText) (self : TwoVcpuTwoDeviceCheckpointTransaction)
    : fprog VmBus Error TransactionRestored :=
  registrations ← total (on_vm_kernel (pair_reconstruct (tx_registrations self)));
  or_deassign registrations (quiescence_cleanup text) "reconstructed pair was not quiescent; cleanup also failed"
    (on_vm_kernel_fuel (require_checkpoint_quiescent retries registrations));;
  post_reconstruction ←
    or_deassign registrations (verify_cleanup text) "post-registration verification failed; cleanup also failed"
      (total (two_vcpu_two_blk_verify policy addresses first second (tx_checkpoint self)));
  or_deassign registrations (changed_cleanup text)
    "registration reconstruction changed restored state; cleanup also failed"
    (total (lift (err_if
       (negb (pc_is_exact_match (live:=two_vcpu_live policy addresses first second) post_reconstruction))
       (page_set_error (changed_operation text) (changed_detail text)))));;
  mret (post_reconstruction, registrations).
Definition require_restored (text : RestoreText)
    (restored : PairComparison (C:=BoundedTwoVcpuFullControllerCheckpointComparison)) : fprog VmBus Error unit :=
  total (lift (err_if (negb (pc_is_exact_match (live:=two_vcpu_live (K:=K) policy addresses first second) restored))
    (page_set_error (restore_operation text) (restore_detail text)))).
Definition restore_and_reconstruct (self : TwoVcpuTwoDeviceCheckpointTransaction)
    : fprog VmBus Error TransactionRestored :=
  restored ← total (two_vcpu_two_blk_restore_and_verify policy addresses first second (tx_checkpoint self));
  require_restored plain_text restored;;
  reconstruct_and_verify plain_text self.
(** The token check at the end returns without deassigning: the registrations are only dropped. *)
Definition validate_token_or_drop (k : BusToken) (text : RestoreText) (self : TwoVcpuTwoDeviceCheckpointTransaction)
    (token : PendingToken) (result : TransactionRestored)
    : fprog VmBus Error TransactionRestored := λ w,
  match validate_restored_token k text (tx_checkpoint self) token with
  | Ok _ => Some (Ok result, w)
  | Err e => Some (Err e, (mkMachine (drop_pair result.2 (kernel w.1)) (vm_memory w.1), w.2))
  | Panic => Some (Panic, w)
  end.
Definition restore_and_reconstruct_with_pending_completion (self : TwoVcpuTwoDeviceCheckpointTransaction)
    (token : PendingToken) : fprog VmBus Error TransactionRestored :=
  let text := pending_text "pending-completion" in
  restored ← total (restore_and_verify_with_pending_completion policy addresses first second (tx_checkpoint self) token);
  require_restored text restored;;
  result ← reconstruct_and_verify text self;
  validate_token_or_drop bus_completion text self token result.
Definition restore_and_reconstruct_with_pending_notification (self : TwoVcpuTwoDeviceCheckpointTransaction)
    (token : PendingToken) : fprog VmBus Error TransactionRestored :=
  let text := pending_text "pending-notification" in
  restored ← total (restore_and_verify_with_pending_notification policy addresses first second (tx_checkpoint self) token);
  require_restored text restored;;
  result ← reconstruct_and_verify text self;
  validate_token_or_drop bus_notification text self token result.
End transaction.

(** * Facts *)

(** ** What restoring a machine leaves alone *)
Section leaves.
Context {S X : Type} (f : S → X).
Definition leaves {E A} (m : prog S E A) : Prop := ∀ s, f (m s).2 = f s.
Lemma leaves_bind {E A B} (m : prog S E A) (g : A → prog S E B) :
  leaves m → (∀ a, leaves (g a)) → leaves (m ≫= g).
Proof.
  intros Hm Hg s. specialize (Hm s). unfold mbind, prog_bind. destruct (m s) as [[a|e|] s1]; [|done..].
  cbn in Hm. rewrite <- Hm. apply Hg.
Qed.
Lemma leaves_reads {E A} (m : prog S E A) : reads_only m → leaves m.
Proof. intros H s. by rewrite H. Qed.
Lemma leaves_ret {E A} (a : A) : leaves (mret a : prog S E A).
Proof. done. Qed.
Lemma leaves_lift {E A} (m : res E A) : leaves (lift m : prog S E A).
Proof. done. Qed.
Lemma leaves_reading {E A} (g : S → res E A) : leaves (reading g).
Proof. done. Qed.
Lemma leaves_pmap_err {E F A} (g : E → F) (m : prog S E A) : leaves m → leaves (pmap_err g m).
Proof. intros H s. apply H. Qed.
End leaves.
Create HintDb leaves.
#[export] Hint Resolve leaves_bind leaves_ret leaves_lift leaves_reading leaves_pmap_err : leaves.

(** The ioctls that restore a machine do not touch the registrations. *)
Class KvmViewFrame (K : Type) `{!KvmMachine K} `{!KvmRegistrar K} `{!KvmRegistrarLaws K} : Prop := {
  leaves_set_regs id r : leaves view (@ioctl_set_regs K (vcpu_fd id) r);
  leaves_set_sregs id s : leaves view (@ioctl_set_sregs K (vcpu_fd id) s);
  leaves_set_msrs id es : leaves view (@ioctl_set_msrs K (vcpu_fd id) es);
  leaves_set_irqchip r : leaves view (ioctl_set_irqchip (W:=K) r);
  leaves_set_lapic id s : leaves view (ioctl_set_lapic (W:=K) id s);
  leaves_set_mp_state id s : leaves view (ioctl_set_mp_state (K:=K) id s)
}.
#[export] Hint Resolve leaves_set_regs leaves_set_sregs leaves_set_msrs leaves_set_irqchip leaves_set_lapic
  leaves_set_mp_state : leaves.

Section frame.
Context {K : Type} `{!KvmMachine K} `{!KvmRegistrar K} `{!KvmRegistrarLaws K} `{!KvmViewFrame K}.
Definition machine_view (w : Machine K) : RegView := view (kernel w).
Definition vm_view (w : Machine K * MmioBus) : RegView := machine_view w.1.
Lemma leaves_in_kernel {A} (f : prog K Error A) : leaves view f → leaves machine_view (in_kernel f).
Proof. intros H w. specialize (H (kernel w)). unfold in_kernel, machine_view. by destruct (f (kernel w)). Qed.
Lemma leaves_with_memory {A} e (f : prog (K * GuestMemory) Error A) :
  leaves (λ s, view s.1) f → leaves machine_view (with_guest_memory e f).
Proof.
  intros H w. unfold with_guest_memory, machine_view. destruct (vm_memory w) as [m|]; [|done].
  specialize (H (kernel w, m)). by destruct (f _) as [? []].
Qed.
Lemma leaves_on_kernel {A} (f : prog K Error A) : leaves view f → leaves (λ s, view s.1) (PageSet.on_kernel f).
Proof. intros H [k m]. specialize (H k). unfold PageSet.on_kernel. cbn. by destruct (f k). Qed.
Lemma leaves_on_machine {A} (f : prog (Machine K) Error A) : leaves machine_view f → leaves vm_view (on_machine f).
Proof. intros H [w bus]. specialize (H w). unfold on_machine, vm_view. cbn. by destruct (f w). Qed.
Lemma leaves_on_bus {A} (f : prog MmioBus Error A) : leaves vm_view (on_bus f).
Proof. intros [w bus]. unfold on_bus, vm_view. cbn. by destruct (f bus). Qed.
Lemma leaves_restore_state id snap : leaves view (@restore_and_verify_state_snapshot K (vcpu_fd id) id snap).
Proof.
  unfold restore_and_verify_state_snapshot, restore_state_snapshot, restore_special_register_snapshot,
    restore_register_snapshot, restore_msr_snapshot, set_msrs.
  repeat (apply leaves_bind; [|intros]); eauto with leaves.
  case_match; eauto with leaves.
Qed.
Lemma leaves_write_pages pages : leaves (λ s : K * GuestMemory, view s.1) (write_pages pages).
Proof.
  induction pages as [|page pages IH]; [done|]. cbn [write_pages].
  repeat (apply leaves_bind; [|intros]); auto with leaves.
  intros [k m]. cbn. by repeat case_match.
Qed.
Lemma leaves_restore_page_set id ck :
  leaves (λ s : K * GuestMemory, view s.1) (@restore_and_verify_page_set K (vcpu_fd id) id ck).
Proof.
  unfold restore_and_verify_page_set. apply leaves_bind; [apply leaves_write_pages|intros].
  apply leaves_bind; [apply leaves_on_kernel, leaves_restore_state|]. auto with leaves.
Qed.
Lemma leaves_two_full_restore ck a b : leaves machine_view (two_full_restore_and_verify (K:=K) ck a b).
Proof.
  unfold two_full_restore_and_verify. apply leaves_bind; [done|intros [i j]].
  apply leaves_bind; [done|intros]. apply leaves_bind.
  { apply leaves_with_memory. unfold two_restore_and_verify. apply leaves_bind; [done|intros [i' j']].
    apply leaves_bind; [apply leaves_restore_page_set|intros].
    apply leaves_bind; [apply leaves_on_kernel, leaves_restore_state|auto with leaves]. }
  intros. apply leaves_bind; [done|intros].
  do 2 (apply leaves_bind; [apply leaves_in_kernel; unfold restore_multiprocessing_state_raw,
    set_multiprocessing_state, multiprocessing_state; eauto 8 with leaves|intros]).
  apply leaves_bind; [done|intros].
  do 5 (apply leaves_bind; [apply leaves_in_kernel; unfold restore_master_pic_state, restore_slave_pic_state,
    restore_ioapic_state, restore_irqchip, restore_lapic_checkpoint_state; auto with leaves|intros]).
  apply leaves_reads, reads_two_full_verify.
Qed.
Section checkpoints.
Context (policy : GuestMsrAccessPolicy) (addresses : list Z) (a b : Z).
Lemma reads_pair_verify ck : reads_only (two_vcpu_two_blk_verify (K:=K) policy addresses a b ck).
Proof.
  unfold two_vcpu_two_blk_verify, pair_verify. cbn [live_verify two_vcpu_live].
  apply reads_bind; [apply reads_on_machine, reads_two_full_verify|intros].
  apply reads_bind; [apply reads_on_devices|intros].
  apply reads_bind; [apply reads_on_devices|intros]. apply reads_ret.
Qed.
Lemma leaves_restore_then roles (step : prog MmioBus Error unit) (ck : TwoVcpuCheckpoint) :
  leaves vm_view (controller ← on_machine (two_full_restore_and_verify (two_controller ck) a b);
    lift (require_controller_exact roles (tfc_is_exact_match controller));;
    on_bus step;; two_vcpu_two_blk_verify (K:=K) policy addresses a b ck).
Proof.
  apply leaves_bind; [apply leaves_on_machine, leaves_two_full_restore|intros].
  apply leaves_bind; [done|intros]. apply leaves_bind; [apply leaves_on_bus|intros].
  apply leaves_reads, reads_pair_verify.
Qed.
Lemma leaves_two_blk_restore ck :
  leaves vm_view (two_vcpu_two_blk_restore_and_verify (K:=K) policy addresses a b ck).
Proof.
  unfold two_vcpu_two_blk_restore_and_verify, pair_restore_and_verify.
  do 2 (apply leaves_bind; [apply leaves_on_bus|intros]). apply leaves_restore_then.
Qed.
Lemma leaves_pending_restore k ck t :
  leaves vm_view (@pair_restore_and_verify_pending _ _ _ (two_vcpu_live (K:=K) policy addresses a b) k two_vcpu_roles ck t).
Proof. apply leaves_restore_then. Qed.
End checkpoints.
End frame.

(** ** The verdict on machine and devices *)
Section verdict.
Context {K : Type} `{!KvmMachine K}.
Context (policy : GuestMsrAccessPolicy) (addresses : list Z) (a b : Z).
Hypothesis addresses_ok : Forall (λ x, 0 ≤ x) addresses.
Lemma verify_required_true bus bar d : verify_required_device bus bar d = Ok true → blk_at bus bar = Some d.
Proof.
  unfold verify_required_device, verify_virtio_blk_checkpoint_at. intros (o&Ho&[= Hd])%bind_Ok_inv.
  apply bind_err_if_Ok in Ho as [_ [= <-]]. destruct (blk_at bus bar) as [d'|]; [|done]. cbn in Hd.
  by apply bool_decide_eq_true in Hd as ->.
Qed.
(** A machine and bus that verify as an exact match hold the checkpoint. *)
Lemma exact_holds (ck : TwoVcpuCheckpoint) c (w0 w : Machine K) bus s' :
  machine_wf w0 → machine_wf w → two_full_capture a b policy addresses w0 = (Ok (two_controller ck), w0) →
  two_vcpu_two_blk_verify policy addresses a b ck (w, bus) = (Ok c, s') →
  pc_is_exact_match (live:=two_vcpu_live policy addresses a b) c = true →
  two_full_capture a b policy addresses w = (Ok (two_controller ck), w) ∧
  blk_at bus (two_devices ck).1.1 = Some (two_devices ck).1.2 ∧
  blk_at bus (two_devices ck).2.1 = Some (two_devices ck).2.2.
Proof.
  intros Hw0 Hw Hc Hv Hex. unfold two_vcpu_two_blk_verify, pair_verify in Hv. cbn [live_verify two_vcpu_live] in Hv.
  apply reader_inv in Hv as (cc&Hcc&Hv); [|by apply reads_on_machine, reads_two_full_verify].
  apply on_machine_Ok in Hcc; [|apply reads_two_full_verify].
  apply reader_inv in Hv as (d0&H0&Hv); [|apply reads_on_devices]. apply on_devices_Ok in H0.
  apply reader_inv in Hv as (d1&H1&Hv); [|apply reads_on_devices]. apply on_devices_Ok in H1.
  injection Hv as <- _. unfold pc_is_exact_match, all_devices_exact in Hex. cbn in Hex.
  apply andb_true_iff in Hex as [Hcx [-> ->]%andb_true_iff].
  split_and!; [|by apply verify_required_true..].
  by apply (two_full_verdict policy addresses addresses_ok a b _ cc w0 w w0 w).
Qed.
End verdict.

(** ** Verification never panics

    The ioctls that read a machine return a value or an error, [KVM_GET_MSRS] a count;
    a [poll] that does not block is not interrupted. *)
Class KvmReaders (K : Type) `{!KvmMachine K} `{!KvmRegistrar K} : Prop := {
  get_regs_ok id k : no_panic (@ioctl_get_regs K (vcpu_fd id) k);
  get_sregs_ok id k : no_panic (@ioctl_get_sregs K (vcpu_fd id) k);
  get_msrs_ok id l k :
    match @ioctl_get_msrs K (vcpu_fd id) l k with Ok (n, _) => 0 ≤ n | Err _ => True | Panic => False end;
  get_irqchip_ok r k : no_panic (ioctl_get_irqchip (W:=K) r k);
  get_lapic_ok id k : no_panic (ioctl_get_lapic (W:=K) id k);
  get_mp_state_ok id k : no_panic (ioctl_get_mp_state (K:=K) id k);
  poll_uninterrupted fd k e : (sys_poll (K:=K) fd 0 k).1 = Err e → is_interrupted e = false
}.
#[export] Hint Extern 2 (no_panic (ioctl_get_regs _)) => apply get_regs_ok : panics.
#[export] Hint Extern 2 (no_panic (ioctl_get_sregs _)) => apply get_sregs_ok : panics.
#[export] Hint Extern 2 (no_panic (ioctl_get_irqchip _ _)) => apply get_irqchip_ok : panics.
#[export] Hint Extern 2 (no_panic (ioctl_get_lapic _ _)) => apply get_lapic_ok : panics.
#[export] Hint Extern 2 (no_panic (ioctl_get_mp_state _ _)) => apply get_mp_state_ok : panics.

Lemma no_panic_from_policy_loop policy requested : ∀ seen n, no_panic (from_policy_loop policy seen n requested).
Proof.
  induction requested as [|[i v] l IH]; intros; cbn; [done|]. case_match; [done|]. np.
Qed.
Lemma no_panic_from_capture_loop pairs : ∀ n, no_panic (from_capture_loop n pairs).
Proof. induction pairs as [|[e v] l IH]; intros; cbn; [done|]. apply no_panic_bind; [np_leaf|auto]. Qed.
Lemma no_panic_capture_order pairs : no_panic (check_capture_order pairs).
Proof. induction pairs as [|[e [i v]] l IH]; cbn; [done|]. apply no_panic_bind; [np_leaf|auto]. Qed.
Lemma no_panic_decode_entries pairs : no_panic (decode_msr_entries pairs).
Proof.
  induction pairs as [|[e [i v]] l IH]; cbn; [done|]. apply no_panic_bind; [np_leaf|intros].
  apply no_panic_bind; [done|np].
Qed.
#[local] Hint Resolve no_panic_from_policy_loop no_panic_from_capture_loop no_panic_capture_order
  no_panic_decode_entries : panics.
Lemma no_panic_decode_response expected n entries :
  0 ≤ n → no_panic (decode_vcpu_msr_response expected n entries).
Proof.
  intros Hn. unfold decode_vcpu_msr_response. apply no_panic_bind; [|intros; np].
  destruct (Z.eqb_spec n (len expected)); [done|]. destruct (Z.ltb_spec n (len expected)); [|done].
  apply no_panic_bind; [apply no_panic_index; lia|done].
Qed.
Lemma no_panic_prepare_request indices : no_panic (prepare_vcpu_msr_request indices).
Proof.
  unfold prepare_vcpu_msr_request. apply no_panic_bind; [np_leaf|]. intros _ Hl%err_if_Ok_inv.
  apply Z.ltb_ge in Hl. unfold VCPU_MSR_READBACK_CAPACITY in Hl. pose proof (len_nonneg indices).
  unfold try_from. zcmp. cbn. np.
Qed.
Lemma no_panic_materialize policy captured : no_panic (materialize_policy_capture policy captured).
Proof.
  unfold materialize_policy_capture, from_policy. apply no_panic_bind; [np_leaf|intros].
  apply no_panic_bind; [np_leaf|intros]. apply no_panic_map_err. np.
Qed.
#[local] Hint Resolve no_panic_decode_response no_panic_prepare_request no_panic_materialize : panics.

Section readers_total.
Context {K : Type} `{!KvmMachine K} `{!KvmRegistrar K} `{!KvmReaders K}.
Lemma no_panic_vcpu_msrs id indices (k : K) : no_panic (@vcpu_msrs K (vcpu_fd id) id indices k).
Proof.
  unfold vcpu_msrs. case_match; [done|]. apply no_panic_bind; [np_leaf|]. intros l _.
  pose proof (get_msrs_ok id l k) as Hg. destruct (ioctl_get_msrs l k) as [[n es]|e|]; [|done..].
  cbn. by apply no_panic_map_err, no_panic_decode_response.
Qed.
Lemma no_panic_capture_state id policy (k : K) : no_panic (@capture_state_snapshot K (vcpu_fd id) id policy k).
Proof.
  unfold capture_state_snapshot, capture_register_snapshot, capture_special_register_snapshot,
    capture_msr_snapshot, capture_msrs, from_capture.
  apply no_panic_bind; [np|intros]. apply no_panic_bind; [np|intros].
  apply no_panic_bind; [|intros; np]. apply no_panic_bind.
  { case_match; [np|]. apply no_panic_bind; [apply no_panic_vcpu_msrs|intros; np]. }
  intros. apply no_panic_map_err. np.
Qed.
Lemma no_panic_verify_state id snap (k : K) : no_panic (@verify_state_snapshot K (vcpu_fd id) id snap k).
Proof. apply no_panic_bind; [apply no_panic_capture_state|intros; np]. Qed.
Lemma no_panic_compare_pages m pages : memory_wf m → no_panic (compare_pages pages m).
Proof.
  intros Hm. induction pages as [|p pages IH]; cbn; [done|].
  apply no_panic_bind; [apply no_panic_read; [done|apply len_nonneg]|intros].
  apply no_panic_bind; [done|intros; np].
Qed.
(** A reader that returns. *)
Definition looks {S E A} (m : prog S E A) (s : S) : Prop := runs m s (λ _ s', s' = s) (λ _ s', s' = s).
Lemma looks_bind {S E A B} (m : prog S E A) (f : A → prog S E B) s :
  looks m s → (∀ a, m s = (Ok a, s) → looks (f a) s) → looks (m ≫= f) s.
Proof.
  intros Hm Hf. apply runs_bind. unfold looks, runs in Hm |- *.
  destruct (m s) as [[a|e|] s']; [|done..]. subst. by apply Hf.
Qed.
Lemma looks_ret {S E A} (a : A) (s : S) : looks (mret a : prog S E A) s.
Proof. done. Qed.
Lemma looks_lift {S E A} (x : res E A) (s : S) : no_panic x → looks (lift x) s.
Proof. intros. by apply runs_lift. Qed.
Lemma looks_reading {S E A} (f : S → res E A) (s : S) : no_panic (f s) → looks (reading f) s.
Proof. intros. by apply runs_reading. Qed.
Lemma looks_in_kernel {A} (f : prog K Error A) (w : Machine K) : looks f (kernel w) → looks (in_kernel f) w.
Proof.
  unfold looks, runs, in_kernel. destruct w as [k m]. cbn. by destruct (f k) as [[] ?]; try intros ->.
Qed.
Lemma looks_irqchip id name (k : K) : looks (capture_irqchip id name) k.
Proof. apply looks_bind; [apply looks_reading; np|intros]. apply looks_bind; [apply looks_lift; np|done]. Qed.
Lemma no_panic_canonical_pair a b : no_panic (canonical_vcpu_pair a b).
Proof. unfold canonical_vcpu_pair, canonical_vcpu_pair_for. np. Qed.
Hint Resolve no_panic_canonical_pair : panics.
Lemma looks_two_verify ck a b m (k : K) : memory_wf m → looks (two_verify ck a b m) k.
Proof.
  intros Hm. apply looks_bind; [apply looks_lift; unfold two_bind_vcpus; np|].
  intros [i j] _. apply looks_bind; [apply looks_reading|intros].
  { apply no_panic_bind; [by apply no_panic_compare_pages|intros].
    apply no_panic_bind; [apply no_panic_verify_state|intros; np]. }
  apply looks_bind; [apply looks_reading, no_panic_verify_state|done].
Qed.
Lemma looks_two_full_verify ck a b (w : Machine K) : machine_wf w → looks (two_full_verify ck a b) w.
Proof.
  intros Hw. unfold two_full_verify, guest_memory, capture_master_pic_state, capture_slave_pic_state,
    capture_ioapic_state, capture_lapic_checkpoint_state, multiprocessing_state_raw, multiprocessing_state.
  apply looks_bind; [apply looks_reading; np|]. intros m [Hm _]%guest_memory_Ok.
  apply looks_bind; [by apply looks_in_kernel, looks_two_verify, Hw|intros].
  apply looks_bind; [apply looks_lift; unfold two_full_bind_vcpus, require_bound_vcpus; np|intros [i j] _].
  do 3 (apply looks_bind; [apply looks_in_kernel, looks_bind; [apply looks_irqchip|done]|intros]).
  do 4 (apply looks_bind; [apply looks_in_kernel, looks_reading; np|intros]). done.
Qed.
Lemma no_panic_verify_required bus bar d : no_panic (verify_required_device bus bar d).
Proof.
  unfold verify_required_device, verify_virtio_blk_checkpoint_at. apply no_panic_bind; [|intros; np].
  apply no_panic_bind; [np_leaf|done].
Qed.
Lemma looks_pair_verify policy addresses a b ck (w : Machine K) bus :
  machine_wf w → looks (two_vcpu_two_blk_verify policy addresses a b ck) (w, bus).
Proof.
  intros Hw. unfold two_vcpu_two_blk_verify, pair_verify. cbn [live_verify two_vcpu_live].
  apply looks_bind; [|intros].
  { pose proof (looks_two_full_verify (two_controller ck) a b w Hw) as H. unfold looks, runs, on_machine in *.
    cbn. by destruct (two_full_verify _ _ _ w) as [[] ?]; try rewrite H. }
  do 2 (apply looks_bind; [apply live_runs_bus, runs_reading; [apply no_panic_verify_required|by intros ? _..]|intros]).
  done.
Qed.
End readers_total.

(** ** Reconstruction over a restored machine *)
Section reconstruction.
Context {K : Type} `{!KvmMachine K} `{!KvmRegistrar K} `{!KvmRegistrarLaws K} `{!KvmReaders K}.
Context (policy : GuestMsrAccessPolicy) (addresses : list Z) (retries : nat) (a b : Z).
(** [s] is the machine [w] and its bus with other registrations. *)
Definition registered_as (w : Machine K) (bus : MmioBus) (v : RegView) (s : Machine K * MmioBus) : Prop :=
  ∃ k, s = (mkMachine k (vm_memory w), bus) ∧ view k = v.
Lemma poll_quiescent fd (k : K) :
  fruns (eventfd_pending (S retries) fd) k (λ _ k', view k' = view k) (λ _ k', view k' = view k).
Proof.
  pose proof (poll_runs fd 0 k) as H. pose proof (poll_uninterrupted fd k) as Hi.
  unfold fruns, runs in *. cbn. destruct (sys_poll fd 0 k) as [[[n ev]|e|] k'].
  - by repeat case_match.
  - rewrite (Hi e eq_refl). done.
  - done.
Qed.
Lemma fruns_relabel {E F A} (g : E → F) (m : fprog K E A) k Q (P : K → Prop) :
  fruns m k Q (λ _ k', P k') → fruns (fmap_err g m) k Q (λ _ k', P k').
Proof. unfold fruns, fmap_err. by destruct (m k) as [[[] ?]|]. Qed.
Lemma quiescent_runs rs (k : K) :
  fruns (require_checkpoint_quiescent (S retries) rs) k (λ _ k', view k' = view k) (λ _ k', view k' = view k).
Proof.
  unfold require_checkpoint_quiescent, pending_doorbells, doorbell_pending. apply fruns_bind, fruns_bind.
  eapply fruns_mono; [apply fruns_relabel, poll_quiescent| |done]. intros p k1 H1. cbv beta in H1. apply fruns_bind.
  eapply fruns_mono; [apply fruns_relabel, poll_quiescent| |by rewrite <- H1]. intros q k2 H2. cbv beta in H2.
  apply fruns_ret, fruns_total, runs_lift; [np| |]; intros; congruence.
Qed.
Lemma fruns_on_kernel {A} (f : fprog K Error A) w bus Q X :
  fruns f (kernel w) (λ x k, Q x (mkMachine k (vm_memory w), bus)) (λ e k, X e (mkMachine k (vm_memory w), bus)) →
  fruns (on_vm_kernel_fuel f) (w, bus) Q X.
Proof. unfold fruns, on_vm_kernel_fuel. cbn. by destruct (f (kernel w)) as [[[] ?]|]. Qed.
Lemma runs_on_kernel {A} (f : prog K Error A) w bus Q X :
  runs f (kernel w) (λ x k, Q x (mkMachine k (vm_memory w), bus)) (λ e k, X e (mkMachine k (vm_memory w), bus)) →
  runs (on_vm_kernel f) (w, bus) Q X.
Proof. unfold runs, on_vm_kernel, on_machine, in_kernel. cbn. by destruct (f (kernel w)) as [[] ?]. Qed.
(** A step that fails while the pair is registered takes the pair down again. *)
Lemma or_deassign_runs {A} rs specs op detail (step : fprog (Machine K * MmioBus) Error A) w bus s v Q :
  view_wf v → pair_owns rs specs v →
  fruns step s Q (λ _, registered_as w bus (pair_registered rs v)) →
  fruns (or_deassign rs op detail step) s Q (λ _, registered_as w bus v).
Proof.
  intros Hwf Hown Hs. unfold fruns, or_deassign in *. destruct (step s) as [[[x|e|] s']|]; [done| |done|done].
  destruct Hs as (k&->&Hk).
  pose proof (pair_deassign_runs rs specs v k Hwf Hown Hk) as Hd.
  assert (runs (on_vm_kernel (pair_deassign rs)) (mkMachine k (vm_memory w), bus)
            (λ _, registered_as w bus v) (λ _ _, False)) as H.
  { apply runs_on_kernel. eapply runs_mono; [exact Hd| |done]. intros ? k' ?. by exists k'. }
  unfold runs in H. by destruct (on_vm_kernel _ _) as [[] ?].
Qed.
Lemma reconstruct_and_verify_runs text tx w bus :
  view_wf (machine_view w) → machine_wf w →
  fruns (reconstruct_and_verify policy addresses (S retries) a b text tx) (w, bus)
    (λ '(c, rs) s, pc_is_exact_match (live:=two_vcpu_live (K:=K) policy addresses a b) c = true ∧
       pair_owns rs (tx_registrations tx) (machine_view w) ∧
       registered_as w bus (pair_registered rs (machine_view w)) s ∧
       two_vcpu_two_blk_verify policy addresses a b (tx_checkpoint tx) s = (Ok c, s))
    (λ _, registered_as w bus (machine_view w)).
Proof.
  intros Hv Hw. apply fruns_bind, fruns_total, runs_on_kernel.
  eapply runs_mono; [by apply pair_reconstruct_runs| |by intros ? k ?; exists k].
  intros rs k1 [Hown Hk1]. apply fruns_bind.
  eapply fruns_mono; [eapply (or_deassign_runs _ _ _ _ _ w bus); [done..|]| |done].
  { apply fruns_on_kernel. eapply fruns_mono; [apply quiescent_runs|..]; intros ? k2 Hk2.
    - instantiate (1 := λ _, registered_as w bus (pair_registered rs (machine_view w))).
      exists k2. split; [done|]. cbn in Hk2. by rewrite Hk2.
    - exists k2. split; [done|]. cbn in Hk2. by rewrite Hk2. }
  intros _ s2 (k2&->&Hk2). apply fruns_bind.
  pose proof (looks_pair_verify policy addresses a b (tx_checkpoint tx) (mkMachine k2 (vm_memory w)) bus Hw) as Hl.
  set (s2 := (mkMachine k2 (vm_memory w), bus)) in *.
  assert (registered_as w bus (pair_registered rs (machine_view w)) s2) as Hs2 by by exists k2.
  eapply fruns_mono; [eapply (or_deassign_runs _ _ _ _ _ w bus); [done..|]| |done].
  { apply fruns_total. instantiate (1 := λ c s, s = s2 ∧ two_vcpu_two_blk_verify policy addresses a b (tx_checkpoint tx) s = (Ok c, s)).
    unfold looks, runs in *. destruct (two_vcpu_two_blk_verify _ _ _ _ _ s2) as [[c|e|] s3] eqn:E; [| |done]; subst; done. }
  intros c s3 [-> Hc]. apply fruns_bind.
  eapply fruns_mono; [eapply (or_deassign_runs _ _ _ _ _ w bus); [done..|]| |done].
  { apply fruns_total, runs_lift; [np| |by intros].
    intros u Hu. instantiate (1 := λ _ s, s = s2 ∧ pc_is_exact_match (live:=two_vcpu_live (K:=K) policy addresses a b) c = true).
    by apply err_if_Ok_inv, negb_false_iff in Hu. }
  intros _ s4 [-> Hex]. apply fruns_ret. done.
Qed.
End reconstruction.

(** ** Restore and reconstruction *)
Lemma runs_leaves {S X E A} (f : S → X) (m : prog S E A) s Q (R : E → S → Prop) :
  leaves f m → runs m s Q R → runs m s (λ a s', Q a s' ∧ f s' = f s) (λ e s', R e s' ∧ f s' = f s).
Proof. intros H. specialize (H s). unfold runs. by destruct (m s) as [[] ?]. Qed.
Lemma fprog_bind_assoc {S E A B C} (m : fprog S E A) (f : A → fprog S E B) (g : B → fprog S E C) s :
  ((m ≫= f) ≫= g) s = (m ≫= (λ a, f a ≫= g)) s.
Proof. unfold mbind, fprog_bind. by destruct (m s) as [[[] ?]|]. Qed.
Section restore.
Context {K : Type} `{!KvmMachine K} {apart : Z → Prop} `{!KvmMachineLaws K apart}.
Context `{!KvmRegistrar K} `{!KvmRegistrarLaws K} `{!KvmViewFrame K} `{!KvmReaders K}.
Context (policy : GuestMsrAccessPolicy) (addresses : list Z) (r : GuestMemoryRegion) (retries : nat) (a b : Z).
Hypothesis addresses_ok : Forall (λ x, 0 ≤ x) addresses.
Hypothesis policy_ok : Forall apart (policy_msr_indices policy).
Abbreviation holds ck w := (two_full_capture a b policy addresses w = (Ok ck, w)).
Abbreviation exact c := (pc_is_exact_match (live:=two_vcpu_live (K:=K) policy addresses a b) c = true).
(** What a successful and a failed restore of [tx] leave. *)
Definition tx_restored (tx : TwoVcpuTwoDeviceCheckpointTransaction) (w : Machine K) (bus : MmioBus)
    (result : TransactionRestored) (s : Machine K * MmioBus) : Prop :=
  exact result.1 ∧ memory_over r s.1 ∧ holds (two_controller (tx_checkpoint tx)) s.1 ∧
  two_replaced (two_devices (tx_checkpoint tx)).1 (two_devices (tx_checkpoint tx)).2 bus s.2 ∧
  pair_owns result.2 (tx_registrations tx) (machine_view w) ∧
  vm_view s = pair_registered result.2 (machine_view w).
Definition tx_failed (tx : TwoVcpuTwoDeviceCheckpointTransaction) (w : Machine K) (bus : MmioBus)
    (s : Machine K * MmioBus) : Prop :=
  memory_over r s.1 ∧ vm_view s = machine_view w ∧
  (s.2 = bus ∨ two_replaced (two_devices (tx_checkpoint tx)).1 (two_devices (tx_checkpoint tx)).2 bus s.2).
Lemma restore_then_reconstruct text tx restore w0 w bus :
  memory_over r w0 → holds (two_controller (tx_checkpoint tx)) w0 → view_wf (machine_view w) →
  leaves vm_view restore →
  runs restore (w, bus)
    (λ c '(w', bus'), exact c ∧ memory_over r w' ∧
       two_replaced (two_devices (tx_checkpoint tx)).1 (two_devices (tx_checkpoint tx)).2 bus bus')
    (λ _ '(w', bus'), memory_over r w' ∧ bus' = bus) →
  fruns (restored ← total restore; require_restored policy addresses a b text restored;;
         reconstruct_and_verify policy addresses (S retries) a b text tx) (w, bus)
    (tx_restored tx w bus) (λ _, tx_failed tx w bus).
Proof.
  intros Hw0 Hc Hwf Hk Hr. apply fruns_bind, fruns_total.
  eapply runs_mono; [by apply (runs_leaves vm_view)| |].
  2:{ intros e [w' bus'] [[Hm ->] Hv]. split_and!; [done..|by left]. }
  intros c [w' bus'] [(Hex&Hm&Hrep) Hv]. apply fruns_bind, fruns_total, runs_lift; [np| |].
  2:{ intros e He. unfold err_if in He. by rewrite Hex in He. }
  intros _ _. change (machine_view w' = machine_view w) in Hv.
  eapply fruns_mono; [apply reconstruct_and_verify_runs|..].
  - by rewrite Hv.
  - by eapply memory_over_wf.
  - intros [c' rs] s (Hex'&Hown&(k&->&Hk')&Hver). rewrite Hv in Hown, Hk'.
    assert (machine_wf (mkMachine k (vm_memory w'))) as Hwf' by by eapply (memory_over_wf r w').
    destruct (exact_holds policy addresses a b addresses_ok _ _ w0 _ _ _ (memory_over_wf _ _ Hw0) Hwf' Hc Hver Hex')
      as (Hh&_&_). by split_and!.
  - intros e s (k&->&Hk'). rewrite Hv in Hk'. split_and!; [done..|by right].
Qed.
Lemma token_validates k `{!BusTokenLaws k} text bars pending (ck : TwoVcpuCheckpoint) t (w : Machine K) bus :
  pending_captured (live:=two_vcpu_live policy addresses a b) k bars pending ck t w bus →
  validate_restored_token k text ck t = Ok tt.
Proof.
  intros (Hb%canonical_bars_lt&Hp&_). unfold validate_restored_token, checkpoint_device.
  destruct Hp as [(_&(Hd&_&[Ht Hval]%bus_capture_Ok)&_)|(_&_&Hd&_&[Ht Hval]%bus_capture_Ok)];
    apply blk_at_bar in Hd; rewrite Ht, Hd.
  - rewrite Z.eqb_refl. cbn. by rewrite Hval.
  - rewrite (proj2 (Z.eqb_neq _ _)), Z.eqb_refl by lia. cbn. by rewrite Hval.
Qed.
Lemma plain_restores tx bars w0 bus0 w bus :
  memory_over r w0 → memory_over r w → view_wf (machine_view w) →
  pair_captured (live:=two_vcpu_live policy addresses a b) bars (tx_checkpoint tx) w0 bus0 →
  fruns (restore_and_reconstruct policy addresses (S retries) a b tx) (w, bus)
    (tx_restored tx w bus) (λ _, tx_failed tx w bus).
Proof.
  intros Hw0 Hw Hwf Hcap.
  apply (restore_then_reconstruct _ _ _ w0); [done|apply Hcap|done|apply leaves_two_blk_restore|].
  pose proof (two_vcpu_live_laws (apart:=apart) policy addresses r addresses_ok policy_ok a b) as Hl.
  eapply runs_mono; [by apply (pair_restores (memory_over r) (laws:=Hl) _ bars _ w0 bus0)| |done].
  by intros c [w' bus'] (?&?&_&?).
Qed.
Lemma pending_tx_restores k `{!BusTokenLaws k} text tx t bars pending w0 bus0 w bus :
  memory_over r w0 → memory_over r w → view_wf (machine_view w) →
  pending_captured (live:=two_vcpu_live policy addresses a b) k bars pending (tx_checkpoint tx) t w0 bus0 →
  fruns (restored ← total (pair_restore_and_verify_pending (live:=two_vcpu_live policy addresses a b)
                             k two_vcpu_roles (tx_checkpoint tx) t);
         require_restored policy addresses a b text restored;;
         result ← reconstruct_and_verify policy addresses (S retries) a b text tx;
         validate_token_or_drop k text tx t result) (w, bus)
    (tx_restored tx w bus) (λ _, tx_failed tx w bus).
Proof.
  intros Hw0 Hw Hwf Hcap.
  pose proof (two_vcpu_live_laws (apart:=apart) policy addresses r addresses_ok policy_ok a b) as Hl.
  enough (fruns ((restored ← total (pair_restore_and_verify_pending (live:=two_vcpu_live policy addresses a b)
                                      k two_vcpu_roles (tx_checkpoint tx) t);
                  require_restored policy addresses a b text restored;;
                  reconstruct_and_verify policy addresses (S retries) a b text tx) ≫=
                 validate_token_or_drop k text tx t) (w, bus)
            (tx_restored tx w bus) (λ _, tx_failed tx w bus)) as H.
  { revert H. unfold fruns. rewrite fprog_bind_assoc. unfold mbind at 1 4, fprog_bind at 1 4.
    destruct (total _ _) as [[[c|e|] s]|]; [|done..]. by rewrite fprog_bind_assoc. }
  apply fruns_bind. eapply fruns_mono.
  { apply (restore_then_reconstruct _ _ _ w0); [done|apply Hcap|done|apply leaves_pending_restore|].
    eapply runs_mono; [by apply (pending_restores (memory_over r) (laws:=Hl) k _ bars pending _ t w0 bus0)| |done].
    by intros c [w' bus'] (?&?&_&?). }
  - intros res s Hres. unfold fruns, validate_token_or_drop. by rewrite (token_validates k text bars pending _ _ w0 bus0).
  - done.
Qed.
End restore.

(** ** What a capture has seen *)
Lemma fbind_Ok_inv {S E A B} (m : fprog S E A) (f : A → fprog S E B) s b s' :
  (m ≫= f) s = Some (Ok b, s') → ∃ a s1, m s = Some (Ok a, s1) ∧ f a s1 = Some (Ok b, s').
Proof. unfold mbind, fprog_bind. destruct (m s) as [[[a|e|] s1]|]; [|done..]. eauto. Qed.
Lemma canonical_bars_idem bars b :
  canonical_two_virtio_blk_bars bars = Ok b → canonical_two_virtio_blk_bars b = Ok b.
Proof.
  unfold canonical_two_virtio_blk_bars. cbv zeta. intros H. bind_inv H. subst.
  destruct (Z.leb_spec bars.1 bars.2); cbn in *; zcmp; cbn; by zcmp.
Qed.
Section captured.
Context {K : Type} `{!KvmMachine K} {apart : Z → Prop} `{!KvmMachineLaws K apart} `{!KvmRegistrar K}.
Context (policy : GuestMsrAccessPolicy) (addresses : list Z) (r : GuestMemoryRegion) (retries : nat) (a b : Z).
Hypothesis addresses_ok : Forall (λ x, 0 ≤ x) addresses.
Hypothesis policy_ok : Forall apart (policy_msr_indices policy).
Lemma bound_and_quiescent_Ok bars pair rs w bus cb s :
  require_bound_and_quiescent (K:=K) retries bars pair rs (w, bus) = Some (Ok cb, s) →
  canonical_two_virtio_blk_bars bars = Ok cb ∧ require_registration_pair_matches_devices pair cb = Ok tt ∧
  s.2 = bus ∧ vm_memory s.1 = vm_memory w.
Proof.
  unfold require_bound_and_quiescent. intros (cb'&s1&[= Hcb <-]&H)%fbind_Ok_inv.
  apply fbind_Ok_inv in H as ([]&s2&[= Hm <-]&H). apply fbind_Ok_inv in H as ([]&s3&Hq&[= -> ->]).
  unfold on_vm_kernel_fuel in Hq. cbn in Hq. destruct (require_checkpoint_quiescent _ _ _) as [[x k]|]; [|done].
  injection Hq as _ <-. done.
Qed.
Lemma memory_over_same (w w' : Machine K) : vm_memory w' = vm_memory w → memory_over r w → memory_over r w'.
Proof. intros Hm (m&?&?&?). exists m. by rewrite Hm. Qed.
Lemma transaction_capture_Ok bars pair rs w bus tx s :
  memory_over r w →
  transaction_capture (K:=K) policy addresses retries a b bars pair rs (w, bus) = Some (Ok tx, s) →
  memory_over r s.1 ∧ tx_registrations tx = pair ∧
  pair_captured (live:=two_vcpu_live policy addresses a b) bars (tx_checkpoint tx) s.1 s.2.
Proof.
  intros Hw (cb&[w1 bus1]&Hb&H)%fbind_Ok_inv.
  apply bound_and_quiescent_Ok in Hb as (Hcb&_&_&Hm). cbn in Hm.
  apply fbind_Ok_inv in H as (ck&s2&[= Hc]&[= <- <-]).
  pose proof (two_vcpu_live_laws (apart:=apart) policy addresses r addresses_ok policy_ok a b) as Hl.
  apply (pair_capture_Ok (memory_over r) (laws:=Hl)) in Hc as [(Hb&?&?&?) ->].
  rewrite (canonical_bars_idem bars cb Hcb) in Hb. injection Hb as ->.
  split; [by apply (memory_over_same w)|]. by split_and!.
Qed.
Lemma transaction_capture_pending_Ok k b1 b2 bars pair rs pending w bus tx t s :
  memory_over r w →
  (require_bound_and_quiescent (K:=K) retries bars pair rs;;
   '(checkpoint, token) ← total (pair_capture_pending (live:=two_vcpu_live policy addresses a b) k b1 b2 bars pending);
   mret (mkTransaction checkpoint pair, token)) (w, bus) = Some (Ok (tx, t), s) →
  memory_over r s.1 ∧ tx_registrations tx = pair ∧
  pending_captured (live:=two_vcpu_live policy addresses a b) k bars pending (tx_checkpoint tx) t s.1 s.2.
Proof.
  intros Hw (cb&[w1 bus1]&Hb&H)%fbind_Ok_inv.
  apply bound_and_quiescent_Ok in Hb as (Hcb&_&_&Hm). cbn in Hm.
  apply fbind_Ok_inv in H as ([ck t']&s2&[= Hc]&[= <- <- <-]).
  pose proof (two_vcpu_live_laws (apart:=apart) policy addresses r addresses_ok policy_ok a b) as Hl.
  apply (pair_capture_pending_Ok (memory_over r) (laws:=Hl)) in Hc as [Hc ->].
  split; [by apply (memory_over_same w)|]. done.
Qed.
End captured.

(** * Properties *)


(** ** A kernel made of a machine and a registrar *)
Section product.
Context {M R : Type}.
Definition in_fst {E A} (m : prog M E A) : prog (M * R) E A := λ s, let '(x, k) := m s.1 in (x, (k, s.2)).
Definition in_snd {E A} (m : prog R E A) : prog (M * R) E A := λ s, let '(x, k) := m s.2 in (x, (s.1, k)).
Lemma runs_in_fst {E A} (m : prog M E A) s Q (X : E → _) :
  runs m s.1 (λ a k, Q a (k, s.2)) (λ e k, X e (k, s.2)) → runs (in_fst m) s Q X.
Proof. unfold runs, in_fst. by destruct (m s.1) as [[] ?]. Qed.
Lemma runs_in_snd {E A} (m : prog R E A) s Q (X : E → _) :
  runs m s.2 (λ a k, Q a (s.1, k)) (λ e k, X e (s.1, k)) → runs (in_snd m) s Q X.
Proof. unfold runs, in_snd. by destruct (m s.2) as [[] ?]. Qed.
#[export] Instance product_machine `{!KvmMachine M} : KvmMachine (M * R) := {|
  vcpu_fd id := {|
    ioctl_get_regs s := @ioctl_get_regs M (vcpu_fd id) s.1;
    ioctl_set_regs r := in_fst (@ioctl_set_regs M (vcpu_fd id) r);
    ioctl_get_sregs s := @ioctl_get_sregs M (vcpu_fd id) s.1;
    ioctl_set_sregs r := in_fst (@ioctl_set_sregs M (vcpu_fd id) r);
    ioctl_get_msrs l s := @ioctl_get_msrs M (vcpu_fd id) l s.1;
    ioctl_set_msrs es := in_fst (@ioctl_set_msrs M (vcpu_fd id) es) |};
  machine_irqchips := {|
    ioctl_get_irqchip r s := ioctl_get_irqchip r s.1;
    ioctl_set_irqchip r := in_fst (ioctl_set_irqchip r);
    ioctl_get_lapic id s := ioctl_get_lapic id s.1;
    ioctl_set_lapic id l := in_fst (ioctl_set_lapic id l) |};
  ioctl_get_mp_state id s := ioctl_get_mp_state id s.1;
  ioctl_set_mp_state id m := in_fst (ioctl_set_mp_state id m)
|}.
#[export] Instance product_registrar `{!KvmRegistrar R} : KvmRegistrar (M * R) := {|
  check_extension id s := check_extension id s.2;
  ioctl_irq_line line level := in_snd (ioctl_irq_line line level);
  sys_eventfd := in_snd sys_eventfd;
  sys_dup fd := in_snd (sys_dup fd);
  sys_close fd s := (s.1, sys_close fd s.2);
  ioctl_irqfd q := in_snd (ioctl_irqfd q);
  ioctl_ioeventfd q := in_snd (ioctl_ioeventfd q);
  sys_poll fd timeout := in_snd (sys_poll fd timeout);
  sys_read8 fd := in_snd (sys_read8 fd);
  sys_write8 fd x := in_snd (sys_write8 fd x)
|}.
Lemma only_in_fst `{!KvmMachine M} {E A} p (m : prog M E A) : only p m → only p (in_fst m).
Proof. intros H [k r] q Hq. specialize (H k q Hq). unfold in_fst. cbn. by destruct (m k), q. Qed.
#[export] Instance product_machine_laws `{!KvmMachine M} {apart} `{!KvmMachineLaws M apart} :
  KvmMachineLaws (M * R) apart.
Proof.
  split; try (intros; apply only_in_fst).
  - intros id. pose proof (vcpu_fd_laws (apart:=apart) id). split.
    + intros. apply (@get_regs_total M (vcpu_fd id) apart _).
    + intros. apply (@get_sregs_total M (vcpu_fd id) apart _).
    + intros s v. apply runs_in_fst, (@set_sregs_law M (vcpu_fd id) apart _).
    + intros s v. apply runs_in_fst, (@set_regs_law M (vcpu_fd id) apart _).
    + intros es v Hn Ha. by apply runs_in_fst, (@set_msrs_law M (vcpu_fd id) apart _).
  - apply only_set_regs.
  - apply only_set_sregs.
  - apply only_set_msrs.
  - apply only_set_irqchip.
  - apply only_set_lapic.
  - apply only_set_mp_state.
  - intros q k c H. exact (get_irqchip_shape (apart:=apart) q k.1 c H).
  - intros. apply runs_in_fst, (set_irqchip_law (apart:=apart)).
  - intros. apply runs_in_fst, (set_lapic_law (apart:=apart)).
  - intros. apply runs_in_fst, (set_mp_state_law (apart:=apart)).
Qed.
#[export] Instance product_registrar_laws `{!KvmRegistrar R} `{!KvmRegistrarLaws R} : KvmRegistrarLaws (M * R).
Proof.
  refine {| view s := view s.2 |}; intros.
  - apply (check_extension_ok (K:=R)).
  - apply runs_in_snd, (irq_line_runs (K:=R)).
  - apply runs_in_snd, (eventfd_runs (K:=R)).
  - apply runs_in_snd, (dup_runs (K:=R)).
  - by apply (close_view (K:=R)).
  - by apply runs_in_snd, (irqfd_assign_runs (K:=R)).
  - by apply runs_in_snd, (irqfd_deassign_runs (K:=R)).
  - by apply runs_in_snd, (doorbell_assign_runs (K:=R)).
  - by apply runs_in_snd, (doorbell_deassign_runs (K:=R)).
  - apply runs_in_snd, (poll_runs (K:=R)).
Defined.
#[export] Instance product_frame `{!KvmMachine M} `{!KvmRegistrar R} `{!KvmRegistrarLaws R} : KvmViewFrame (M * R).
Proof. split; intros; intros ?; cbn; unfold in_fst; by case_match. Qed.
End product.
#[export] Instance stored_readers : KvmReaders (stored_machine * stored_registrar).
Proof. split; try done; intros; cbn; [apply len_nonneg|by case_match]. Qed.

Definition product_vm (tsc mp : Z) (limit : nat) : Machine (stored_machine * stored_registrar) := {|
  kernel := (kernel (sample_machine tsc mp), empty_kernel limit); vm_memory := Some sample_memory |}.
Lemma product_vm_over tsc mp limit : memory_over (region sample_memory) (product_vm tsc mp limit).
Proof. exists sample_memory. split_and!; [done|apply sample_memory_wf|done]. Qed.
Definition idle_pair : ReconstructedHostRegistrationPair :=
  let idle spec := mkReconstructed spec 3 4 (mkIrqfdRegistration 5 (gsi spec)) 6 in
  (idle example_specs.1, idle example_specs.2).
Lemma product_laws : @LiveControllerLaws (Machine (stored_machine * stored_registrar)) _ _
  (two_vcpu_live sample_policy [0x200000] 1 0) (memory_over (region sample_memory)).
Proof. apply (two_vcpu_live_laws (apart:=λ _, True)); by repeat constructor. Qed.
Lemma product_two_capture : ∃ cc,
  two_full_capture 1 0 sample_policy [0x200000] (product_vm 7 3 2) = (Ok cc, product_vm 7 3 2).
Proof.
  eexists. eapply (two_full_capture_intro sample_policy [0x200000] 1 0 0 1 sample_memory); reflexivity.
Qed.
